(* ===== verification/_CoqProject ===== *)
-Q . S2P
Prelude.v
Base64.v
Md5.v
CLib.v
HttpAuth.v
RedWorld.v
Parser.v
RedConfig.v
ParserSafety.v
ParserFacts.v
RedCore.v
RedRelay.v
Socks5.v
Socks4.v
HttpConnect.v
HttpRelay.v
RedLogic.v
RedFrame.v
RedPressure.v
ConfigFacts.v
RedHandlers.v
RedMain.v
RedSafety.v
RedRun.v
SocksFacts.v
PumpFacts.v
HttpFacts.v
RedFindings.v
Mem.v
ChunkBuffer.v
PacketBuffer.v
Effect.v
BAddr.v
TunClient.v
TunInv.v
TunStep.v
TunRun.v
TunFacts.v
UdpPacket.v
UdpFacts.v
BAVL.v
BAVLRep.v
BAVLBal.v
BAVLFind.v
BAVLRemove.v
BAVLFacts.v
ConnTree.v
BPending.v
SocksUdpGw.v
SocksUdpInv.v
SocksUdpStep.v
SocksUdpRun.v
SocksUdpFacts.v
BSocksClient.v
BSocksStep.v
BSocksFacts.v
IpText.v
TunOptions.v
TunMain.v
TunMainLoop.v
TunMainFacts.v
BConnection.v
BConnectionFacts.v
CAvl.v
CAvlFacts.v
TimersTree.v
Reactor.v
ReactorInv.v
ReactorRun.v
ReactorFacts.v
BDatagram.v
BDatagramFacts.v
RedUdp.v
RedUdpInv.v
RedUdpStep.v
RedUdpRun.v
RedUdpFacts.v
RedUdpConfig.v
Dnstc.v
RedApp.v
