(* ===== verification/Prelude.v ===== *)
(** * Verification of the native programs of the application

    The application runs two programs written in C, both under
    [src/core/src/main/jni]. redsocks accepts TCP connections that the kernel redirects
    to it and forwards them through a SOCKS or HTTP proxy; built for other systems it relays UDP, too. tun2socks, of badvpn, reads the IP
    packets of a TUN device, lets lwIP terminate the TCP connections in them, and
    forwards their bytes and the UDP packets through a SOCKS server.

    This file is the root of the library: it holds this description, and the
    notations, lemmas and tactics all other files use.

    ** Parts, files and sources

    redsocks ([redsocks/]). A process is a set of instances, each a listening socket and
    a list of clients; every event is a libevent callback on one client or listener.

    - [RedWorld]: the state of a process (instances, clients, descriptors, [struct
      bufferevent] with its two queues) and the state and fault monad of the handlers;
      [redsocks.h].
    - [RedCore]: dropping, shutting down and connecting clients, the counter
      [redsocks_conn], connection pressure and accept back-off, the helpers
      [redsocks_read_expected] and [redsocks_write_helper]; [redsocks.c], [utils.c].
    - [RedRelay]: the buffer pump and the splice pump; [redsocks.c].
    - [Socks4], [Socks5], [HttpConnect], [HttpRelay]: the four upstream protocols, one file
      each; [socks4.c], [socks5.c], [http-connect.c], [http-relay.c].
    - [HttpAuth], [Base64], [Md5], [CLib]: Basic and Digest credentials with what they
      use, and the C library functions of these files; [http-auth.c], [base64.c], [md5.c].
    - [RedMain]: accepting, starting and stopping instances, and the event loop as a step
      relation over all of the above; [redsocks.c].
    - [Parser], [RedConfig]: the configuration parser and its two sections with the
      start-up checks; [parser.c], [base.c], [redsocks.c].
    - [RedUdp]: the UDP relay over SOCKS5, with its clients, packet queues and shared sockets, and
      the state of the TCP part inside its own, since both share descriptors; [redudp.c], [utils.c].
    - [Dnstc]: the DNS responder; [dnstc.c]. [RedUdpConfig]: the sections of these two.
    - [RedApp]: [main], over any array of subsystems that keep the promises of a class; [main.c].

    tun2socks ([badvpn/]). One thread runs jobs and callbacks to completion.

    - [Effect]: the state and fault monad of this code, with [runs] and the tactic
      [step_eff] for symbolic execution; [Mem]: byte memory.
    - [ChunkBuffer], [PacketBuffer]: the packet queue over a circular array;
      [structure/ChunkBuffer2.h], [flow/PacketBuffer.c].
    - [TunClient], [TunRun]: one TCP client with all its callbacks, and all clients with
      the variables they share; [tun2socks/tun2socks.c], [misc/dead.h].
    - [UdpPacket], [BAddr]: parsing and building IPv4, IPv6 and UDP packets, and
      addresses; [misc/ipv4_proto.h], [misc/ipv6_proto.h], [misc/udp_proto.h],
      [tun2socks.c], [system/BAddr.h].
    - [BAVL]: the intrusive AVL tree on node pointers; [structure/BAVL.h]. [ConnTree] is the
      interface its client sees, with the order of addresses it is used with.
    - [BPending]: the list of pending jobs, and the states of the packet and stream interfaces;
      [base/BPending.c], [flow/].
    - [SocksUdpGw]: the UDP relay client with its packet interfaces;
      [tun2socks/SocksUdpGwClient.c], [flow/BufferWriter.c], [flow/PacketRecvInterface.h],
      [flow/PacketPassInterface.h].
    - [BSocksClient]: the SOCKS5 client; [socksclient/BSocksClient.c].
    - [BConnection]: the connector and the stream sockets below it, with their two stream
      interfaces; [system/BConnection_unix.c], [flow/StreamPassInterface.c],
      [flow/StreamRecvInterface.c].
    - [BDatagram]: the datagram sockets of the UDP relay client, with their two packet interfaces;
      [system/BDatagram_unix.c], [flow/PacketPassInterface.c], [flow/PacketRecvInterface.c].
    - [Reactor]: the event loop with timers, file descriptors and limits;
      [system/BReactor_badvpn.c], [system/BTime.h]. [TimersTree] is the interface of the tree of
      the timers, [CAvl] the tree itself; [structure/CAvl_impl.h].
    - [IpText]: addresses as text; [misc/ipaddr6.h], [misc/parse_number.h], [system/BAddr.h].
    - [TunOptions]: the command line; [tun2socks.c] ([parse_arguments], [process_arguments]), [misc/loglevel.h].
    - [TunMain]: [main] with its labels, the handlers that connect the TUN device, lwIP and the UDP
      client, and the device with the buffer behind it; [tun2socks.c], [tuntap/BTap.c], [flow/SinglePacketBuffer.c],
      [base/BLog.h]. Its state contains the TCP clients of [TunRun], and its handlers call [UdpPacket].

    ** What is proved

    - [RedLogic], [RedFrame], [RedPressure], [RedHandlers], [RedSafety]: in
      every reachable state of redsocks, whatever the kernel answers, the counter is
      the number of linked clients, and listeners are armed only below the limit. A
      handler of a client changes no other client, and drops its own exactly.
    - [PumpFacts]: both pumps keep every byte, in order.
    - [RedRun], [SocksFacts], [HttpFacts]: with a conforming proxy the handshakes end in
      the pump with nothing lost, what is sent is what the protocols ask for, and a
      refusal drops the client.
    - [Base64], [Md5], [HttpAuth] (in the files of the models): the encoder and the digest are
      those of RFC 4648 and RFC 1321, the credentials those of RFC 2617.
    - [ParserSafety], [ParserFacts], [ConfigFacts]: the parser returns on every file, a printed
      configuration is read back, and an accepted one meets what the rest relies on.
    - [RedUdpInv] to [RedUdpFacts]: every event of the UDP relay is handled without a fault and
      keeps the lists, the open descriptors and the counts of shared sockets exact; packets are
      forwarded once and in order, and only answers of the destination come back. [RedUdpConfig]:
      an accepted configuration starts all instances or none, and shutting down closes everything.
    - [Dnstc] (in the file of the model): exactly the questions are answered, as truncated responses.
    - [RedApp] (in the file of the model): [main] shuts down exactly what was initialised, in reverse order; the DNS responder is
      shown to keep the promises this relies on.
    - [RedFindings]: runs of redsocks that end in a fault or in a state the code means to exclude.
    - [PacketBuffer]: the queue refines a bounded first-in first-out queue.
    - [TunInv], [TunStep], [TunFacts]: every callback of a TCP client
      returns and uses no freed object, in any interleaving; both byte streams are
      kept; a closed client drains; shutting down frees all clients ([free_clients], used by [TunMain]).
    - [UdpFacts]: the checksums are those of RFC 1071, reading a packet stays inside it,
      and a packet that was built is read back.
    - [BAVLRep] to [BAVLFacts]: the tree refines an ordered set, and a lookup is logarithmic.
    - [SocksUdpInv] to [SocksUdpFacts]: every reachable state of the relay client is consistent
      and safe to step from, it is a cache that drops the least recently used connection, and
      packets are sent once and in order.
    - [BSocksFacts]: the SOCKS5 client with a conforming server and with any other.
    - [BConnectionFacts]: a stream socket keeps both streams of bytes and loses no wake-up.
    - [BDatagramFacts]: datagrams go to the addresses set last, none is lost between the socket and the user,
      and no wake-up is lost.
    - [CAvlFacts]: the two AVL trees do the same, pointer by pointer.
    - [ReactorInv] to [ReactorFacts]: every round of the event loop is a step of an abstract
      reactor, never fails, and timers are called on time.
    - [IpText], [TunOptions] (in the files of the models): a printed address and a printed command line are read
      back, and reading an address stays inside its text.
    - [TunMainLoop], [TunMainFacts]: whichever call fails and whatever events arrive, no assertion of the
      handlers or of [main] fails, all that was initialised is freed in reverse order, and the termination signal ends
      the program; each packet of the device is handled once and in order; a packet of lwIP is written whole or not at all.

    ** How C is modelled

    Integers are [Z] with the wrap-around written out where it can happen. Objects are
    entries of a map, so that using a freed one is a fault, as are a failed assertion,
    a null pointer and an index out of range; a fault carries the source line or its kind.
    Results of the kernel, libevent, lwIP and malloc are drawn from a list in the state, and
    the theorems quantify over that list. Logging is left out.

    The loops of the code that are not structural take fuel, and the theorems show that
    it suffices: moving expired timers takes one round per timer; the functions that free a TCP client call each other four deep; folding
    the carry of a 32-bit sum takes at most four rounds; a walk in the tree
    is no longer than the number of nodes; the event loop of [TunMain] takes at most one round per event and five per reply
    of the system, since a packet of the device takes four jobs; a parser run of a file takes at most four steps per byte and eight
    more; the loops over text take the length of the text. Running out of fuel is a fault, or a
    result of its own in the parser, never a normal return.

    ** What is not modelled

    Of redsocks, reddns is a stub that does not compile and is used by no other file; logging and the debug
    HTTP endpoint are output. The theorems about the UDP
    relay and the DNS responder assume that [event_add] and [event_del] succeed, since the code closes a
    descriptor twice when they do not, and that the SOCKS server sends nothing after the reply that names
    the relay ([conforms]). [TunMain] is about the build for Android, where the device is
    a descriptor received from the application; its theorems assume that the variable [wait_for_fd] returns uninitialised
    when [accept] fails does not hold a number below -1, which an assertion of the device would refuse. A callback lwIP makes
    from within a call of [TunMain] is an event after it. Of badvpn, the branches of the reactor for systems without epoll, the
    listening sockets, the prefixes and masks of [ipaddr6.h] and lwIP itself are left out; the VPN client and server, NCD and the bundled
    tools are not built into the application. libevent, libancillary, lwIP and the
    Kotlin and Java code are third-party code or user interface. *)

(** ** Prelude *)

From stdpp Require Export base list list_numbers strings numbers gmap.
From Stdlib Require Export ZArith Lia.
From Stdlib Require Import Ascii String.

Open Scope Z_scope.

(** ** Machine integers

    A C integer of width [w] is a [Z]; the wrap-around of every operation that
    can overflow is written out with one of the following normalisers. *)

Definition u8 (z : Z) : Z := z mod 256.
Definition u16 (z : Z) : Z := z mod 65536.
Definition u32 (z : Z) : Z := z mod 4294967296.
Definition u64 (z : Z) : Z := z mod 18446744073709551616.

(** Conversion to [int] (two's complement, 32 bits). *)
Definition s32 (z : Z) : Z := (z + 2147483648) mod 4294967296 - 2147483648.

Definition UINT_MAX : Z := 4294967295.
Definition INT_MAX : Z := 2147483647.
Definition UINT64_MAX : Z := 18446744073709551615.

(** A byte is a [Z] in [0,256); buffers and strings are lists of bytes. *)
Definition is_byte (z : Z) : Prop := 0 <= z < 256.
Definition bytes (l : list Z) : Prop := Forall is_byte l.

Definition is_u32 (z : Z) : Prop := 0 <= z < 4294967296.

(** String literals as byte lists. *)
Definition bytes_of_string (s : string) : list Z :=
  map (fun c => Z.of_N (N_of_ascii c)) (list_ascii_of_string s).

Declare Scope cstr_scope.
Delimit Scope cstr_scope with cstr.
Notation "'B#' s" := (bytes_of_string s%string) (at level 1, s at level 0, only parsing).

Create HintDb s2p.
Create HintDb s2p_bytes.

Lemma u8_range z : is_byte (u8 z).
Proof. unfold u8, is_byte. apply Z.mod_pos_bound. lia. Qed.

Lemma u32_range z : is_u32 (u32 z).
Proof. unfold u32, is_u32. apply Z.mod_pos_bound. lia. Qed.

Lemma u8_small z : is_byte z -> u8 z = z.
Proof. unfold u8, is_byte. intros. apply Z.mod_small. lia. Qed.

Lemma u32_small z : is_u32 z -> u32 z = z.
Proof. unfold u32, is_u32. intros. apply Z.mod_small. lia. Qed.

Lemma s32_small z : - 2147483648 <= z < 2147483648 -> s32 z = z.
Proof. unfold s32. intros. rewrite Z.mod_small by lia. lia. Qed.

Lemma bytes_cons b l : bytes (b :: l) <-> is_byte b /\ bytes l.
Proof. apply Forall_cons. Qed.

Lemma bytes_app l1 l2 : bytes (l1 ++ l2) <-> bytes l1 /\ bytes l2.
Proof. apply Forall_app. Qed.

Lemma bytes_nil : bytes [].
Proof. apply Forall_nil_2. Qed.

Lemma bytes_take n l : bytes l -> bytes (take n l).
Proof. apply Forall_take. Qed.

Lemma bytes_drop n l : bytes l -> bytes (drop n l).
Proof. apply Forall_drop. Qed.

(** [bytes] is decided by evaluation on a concrete list. *)
Definition bytesb (l : list Z) : bool := forallb (fun z => (0 <=? z) && (z <? 256)) l.

Lemma bytesb_bytes l : bytesb l = true -> bytes l.
Proof.
  unfold bytesb, bytes, is_byte. rewrite forallb_forall. intros H.
  apply List.Forall_forall. intros x Hx. specialize (H x Hx). lia.
Qed.

Lemma bytes_of_string_bytes s : bytes (bytes_of_string s).
Proof.
  unfold bytes, bytes_of_string, is_byte. apply List.Forall_forall. intros z Hz.
  apply in_map_iff in Hz as (c & <- & _). pose proof (N_ascii_bounded c). lia.
Qed.

(** Splits the [bytes] facts about concrete list shapes in the context. *)
Ltac split_bytes :=
  repeat match goal with
         | H : bytes (_ :: _) |- _ => apply bytes_cons in H as [? H]
         | H : bytes (_ ++ _) |- _ => apply bytes_app in H as [? H]
         end.

#[export] Hint Resolve bytes_nil bytes_of_string_bytes bytes_take bytes_drop : s2p_bytes.
#[export] Hint Resolve u8_range u32_range : s2p s2p_bytes.

(** ** Network byte order *)

Definition be16 (z : Z) : list Z := [z / 256 mod 256; z mod 256].
Definition be32 (z : Z) : list Z :=
  [z / 16777216 mod 256; z / 65536 mod 256; z / 256 mod 256; z mod 256].

Definition of_be (l : list Z) : Z := foldl (fun acc b => acc * 256 + b) 0 l.

Lemma be16_bytes z : bytes (be16 z).
Proof.
  unfold be16, bytes, is_byte. repeat apply Forall_cons_2; try apply Forall_nil_2;
    apply Z.mod_pos_bound; lia.
Qed.

Lemma be32_bytes z : bytes (be32 z).
Proof.
  unfold be32, bytes, is_byte. repeat apply Forall_cons_2; try apply Forall_nil_2;
    apply Z.mod_pos_bound; lia.
Qed.

Lemma of_be_be16 z : 0 <= z < 65536 -> of_be (be16 z) = z.
Proof. intros. unfold of_be, be16. cbn [foldl]. Z.div_mod_to_equations; lia. Qed.

Lemma of_be_be32 z : 0 <= z < 4294967296 -> of_be (be32 z) = z.
Proof. intros. unfold of_be, be32. cbn [foldl]. Z.div_mod_to_equations; lia. Qed.

#[export] Hint Resolve be16_bytes be32_bytes : s2p_bytes.

(** ** Induction on lists three elements at a time *)

Lemma list_ind_3 {A} (P : list A -> Prop) :
  P [] -> (forall a, P [a]) -> (forall a b, P [a; b]) ->
  (forall a b c l, P l -> P (a :: b :: c :: l)) -> forall l, P l.
Proof.
  intros H0 H1 H2 H3.
  fix IH 1. intros [|a [|b [|c l]]];
    [exact H0 | exact (H1 a) | exact (H2 a b) | exact (H3 a b c l (IH l))].
Qed.

(** ** Removing one element of a list *)

Lemma filter_absent {A} `{EqDecision A} (c : A) (l : list A) : c ∉ l -> filter (fun k => k <> c) l = l.
Proof.
  induction l as [|j l IH]; intros Hc; [done|]. apply not_elem_of_cons in Hc as [Hj Hc].
  rewrite filter_cons, decide_True by auto. now rewrite IH.
Qed.

Lemma filter_remove_length (c : nat) (l : list nat) :
  NoDup l -> c ∈ l -> (S (List.length (filter (fun k => k <> c) l)) = List.length l)%nat.
Proof.
  induction 1 as [|k l Hk Hn IH]; intros Hc; [now apply elem_of_nil in Hc|].
  rewrite filter_cons. apply elem_of_cons in Hc as [->|Hc].
  - rewrite decide_False by auto. now rewrite filter_absent.
  - rewrite decide_True by (intros ->; done). cbn. now rewrite IH.
Qed.

