(* ===== verification/Base64.v ===== *)
(** * Base64: [redsocks/base64.c]

    [base64_encode] and [base64_decode] with their 32-bit shift registers, the
    RFC 4648 function they are compared with, and the round trip between them.
    The output pointer [dst] is modelled by the list of bytes stored through it. *)

From S2P Require Import Prelude.
Open Scope Z_scope.

Module Base64.

(** ** The code *)

(** [map2]: the value of the digit with code [43 + i], 0xff for a hole. *)
Definition map2 : list Z :=
  [0x3e; 0xff; 0xff; 0xff; 0x3f; 0x34; 0x35; 0x36;
   0x37; 0x38; 0x39; 0x3a; 0x3b; 0x3c; 0x3d; 0xff;
   0xff; 0xff; 0xff; 0xff; 0xff; 0xff; 0x00; 0x01;
   0x02; 0x03; 0x04; 0x05; 0x06; 0x07; 0x08; 0x09;
   0x0a; 0x0b; 0x0c; 0x0d; 0x0e; 0x0f; 0x10; 0x11;
   0x12; 0x13; 0x14; 0x15; 0x16; 0x17; 0x18; 0x19;
   0xff; 0xff; 0xff; 0xff; 0xff; 0xff; 0x1a; 0x1b;
   0x1c; 0x1d; 0x1e; 0x1f; 0x20; 0x21; 0x22; 0x23;
   0x24; 0x25; 0x26; 0x27; 0x28; 0x29; 0x2a; 0x2b;
   0x2c; 0x2d; 0x2e; 0x2f; 0x30; 0x31; 0x32; 0x33].

(** The index check of the decoding loop: [index >= SIZEOF_ARRAY(map2) ||
    map2[index] == 0xff] rejects the character. *)
Definition digit (c : Z) : option Z :=
  let index := u32 (c - 43) in
  match map2 !! Z.to_nat index with
  | None => None
  | Some d => if d =? 0xff then None else Some d
  end.

(** The loop of [base64_decode]: [i] is the position in [in], [v] the [int]
    register (its shift wraps at 32 bits), [out] the bytes stored so far.
    [None] is the [return -1]. *)
Fixpoint decode_loop (inp : list Z) (i v : Z) (out : list Z) (out_size : Z)
  : option (list Z) :=
  match inp with
  | [] => Some out
  | c :: rest =>
      if (c =? 0) || (c =? 61) then Some out
      else
        match digit c with
        | None => None
        | Some d =>
            let v := s32 (Z.shiftl v 6 + d) in
            let out :=
              if negb (Z.land i 3 =? 0) then
                if Z.of_nat (length out) <? out_size
                then out ++ [u8 (Z.shiftr v (6 - 2 * Z.land i 3))]
                else out
              else out in
            decode_loop rest (i + 1) v out out_size
        end
  end.

(** [base64_decode]: [None] for -1, otherwise the bytes written (their number
    is the return value). *)
Definition base64_decode (inp : list Z) (out_size : Z) : option (list Z) :=
  decode_loop inp 0 0 [] out_size.

Definition b64 : list Z :=
  B# "ABCDEFGHIJKLMNOPQRSTUVWXYZabcdefghijklmnopqrstuvwxyz0123456789+/".

Definition b64_at (i : Z) : Z := nth (Z.to_nat i) b64 0.

Definition BASE64_SIZE (x : Z) : Z := (x + 2) / 3 * 4 + 1.

(** The inner [do ... while] loop: emits [b64[(i_bits << 6 >> i_shift) & 0x3f]]
    until [i_shift] is small. The fuel bounds the iterations; [i_shift] drops by
    6 in each of them. *)
Fixpoint emit (fuel : nat) (i_bits i_shift : Z) (last : bool) : list Z * Z :=
  match fuel with
  | O => ([], i_shift)
  | S fuel =>
      let c := b64_at (Z.land (Z.shiftr (u32 (Z.shiftl i_bits 6)) i_shift) 0x3f) in
      let i_shift := i_shift - 6 in
      if (6 <? i_shift) || (last && (0 <? i_shift)) then
        let (cs, s) := emit fuel i_bits i_shift last in (c :: cs, s)
      else ([c], i_shift)
  end.

(** The outer loop, one input byte per round. *)
Fixpoint encode_loop (inp : list Z) (i_bits i_shift : Z) : list Z :=
  match inp with
  | [] => []
  | b :: rest =>
      let i_bits := u32 (u32 (Z.shiftl i_bits 8) + b) in
      let i_shift := i_shift + 8 in
      let last := match rest with [] => true | _ => false end in
      let (cs, i_shift) := emit (Z.to_nat i_shift) i_bits i_shift last in
      cs ++ encode_loop rest i_bits i_shift
  end.

(** [while ((dst - ret) & 3) *dst++ = '=';] *)
Definition pad (n : nat) : list Z := repeat 61 ((4 - n mod 4) mod 4)%nat.

(** [base64_encode]: [None] for NULL, otherwise the bytes stored in [out],
    terminator included. *)
Definition base64_encode (out_size : Z) (inp : list Z) (in_size : Z) : option (list Z) :=
  if (UINT_MAX / 4 <=? u32 in_size) || (out_size <? BASE64_SIZE in_size) then None
  else
    let cs := encode_loop (take (Z.to_nat in_size) inp) 0 0 in
    Some (cs ++ pad (length cs) ++ [0]).

(** ** Reference: RFC 4648 section 4 *)

Fixpoint rfc4648 (l : list Z) : list Z :=
  match l with
  | a :: b :: c :: l =>
      b64_at (a / 4) :: b64_at (a mod 4 * 16 + b / 16)
      :: b64_at (b mod 16 * 4 + c / 64) :: b64_at (c mod 64) :: rfc4648 l
  | [a; b] => [b64_at (a / 4); b64_at (a mod 4 * 16 + b / 16); b64_at (b mod 16 * 4); 61]
  | [a] => [b64_at (a / 4); b64_at (a mod 4 * 16); 61; 61]
  | [] => []
  end.

(** The same without padding. *)
Fixpoint digits (l : list Z) : list Z :=
  match l with
  | a :: b :: c :: l =>
      b64_at (a / 4) :: b64_at (a mod 4 * 16 + b / 16)
      :: b64_at (b mod 16 * 4 + c / 64) :: b64_at (c mod 64) :: digits l
  | [a; b] => [b64_at (a / 4); b64_at (a mod 4 * 16 + b / 16); b64_at (b mod 16 * 4)]
  | [a] => [b64_at (a / 4); b64_at (a mod 4 * 16)]
  | [] => []
  end.

(** ** The encoder computes the digits *)

(** A sextet of the shift register, as the code extracts it. *)
Definition sextet (i_bits i_shift : Z) : Z :=
  Z.land (Z.shiftr (u32 (Z.shiftl i_bits 6)) i_shift) 0x3f.

Lemma sextet_div i_bits s :
  0 <= s <= 14 -> sextet i_bits s = (i_bits * 64 / 2 ^ s) mod 64.
Proof.
  intros Hs. unfold sextet, u32.
  change 0x3f with (Z.ones 6). change 4294967296 with (2 ^ 32).
  change 64 with (2 ^ 6). rewrite <- Z.shiftl_mul_pow2 by lia.
  rewrite <- Z.shiftr_div_pow2, <- !Z.land_ones by lia.
  apply Z.bits_inj'. intros n Hn.
  rewrite !Z.land_spec, !Z.shiftr_spec, Z.land_spec by lia.
  destruct (decide (n < 6)).
  - rewrite (Z.ones_spec_low 32) by lia. now rewrite andb_true_r.
  - rewrite !(Z.ones_spec_high 6) by lia. now rewrite !andb_false_r.
Qed.

Lemma shift_in bits b s :
  0 <= s <= 14 ->
  sextet (u32 (u32 (Z.shiftl bits 8) + b)) s = ((bits * 256 + b) * 64 / 2 ^ s) mod 64.
Proof.
  intros Hs. unfold u32. rewrite Z.shiftl_mul_pow2 by lia. change (2 ^ 8) with 256.
  rewrite Z.add_mod_idemp_l by lia. unfold sextet, u32.
  rewrite Z.shiftl_mul_pow2, Z.mul_mod_idemp_l by lia.
  change (2 ^ 6) with 64. rewrite <- sextet_div by lia. unfold sextet, u32.
  now rewrite Z.shiftl_mul_pow2 by lia.
Qed.

(** The register after one more byte, and the sextets the code reads from it. *)
Definition shifted (bits b : Z) : Z := u32 (u32 (Z.shiftl bits 8) + b).

Lemma shifted_mod bits b k :
  is_byte b -> (k | 256) -> 0 < k -> shifted bits b mod k = b mod k.
Proof.
  intros Hb [q Hk] Hpos. unfold shifted, u32.
  rewrite Z.shiftl_mul_pow2, Z.add_mod_idemp_l by lia. change (2 ^ 8) with 256.
  rewrite Z.mod_mod_divide by (exists (16777216 * q); lia).
  rewrite Hk, Z.mul_assoc, Z.add_comm. apply Z.mod_add. lia.
Qed.

Lemma sextets bits b :
  is_byte b ->
  sextet (shifted bits b) 14 = bits mod 64 /\
  sextet (shifted bits b) 12 = bits mod 16 * 4 + b / 64 /\
  sextet (shifted bits b) 10 = bits mod 4 * 16 + b / 16 /\
  sextet (shifted bits b) 8 = b / 4 /\
  sextet (shifted bits b) 6 = b mod 64 /\
  sextet (shifted bits b) 4 = b mod 16 * 4 /\
  sextet (shifted bits b) 2 = b mod 4 * 16.
Proof.
  unfold is_byte, shifted. intros Hb. rewrite !shift_in by lia.
  change (2 ^ 14) with 16384; change (2 ^ 12) with 4096; change (2 ^ 10) with 1024;
  change (2 ^ 8) with 256; change (2 ^ 6) with 64; change (2 ^ 4) with 16; change (2 ^ 2) with 4.
  repeat split; Z.div_mod_to_equations; lia.
Qed.

(** One round of the outer loop: what is emitted, and the register it leaves. *)
Lemma encode_loop_step l bits s b :
  encode_loop (b :: l) bits s =
    let last := match l with [] => true | _ => false end in
    let r := emit (Z.to_nat (s + 8)) (shifted bits b) (s + 8) last in
    r.1 ++ encode_loop l (shifted bits b) r.2.
Proof. cbn [encode_loop]. fold (shifted bits b). now destruct (emit _ _ _ _). Qed.

Lemma emit_more bits k :
  k = 8 \/ k = 10 \/ k = 12 ->
  emit (Z.to_nat k) bits k false = ([b64_at (sextet bits k)], k - 6).
Proof. intuition (subst; reflexivity). Qed.

Lemma emit_last bits k :
  k = 8 \/ k = 10 \/ k = 12 ->
  emit (Z.to_nat k) bits k true =
    ([b64_at (sextet bits k); b64_at (sextet bits (k - 6))], k - 12).
Proof. intuition (subst; reflexivity). Qed.

Lemma emit_pending bits last :
  emit (Z.to_nat 14) bits 14 last =
    (b64_at (sextet bits 14) :: (emit (Z.to_nat 8) bits 8 last).1,
     (emit (Z.to_nat 8) bits 8 last).2).
Proof. now destruct last. Qed.

(** Entering the loop at shift 6 first emits the pending sextet, then behaves
    as if it had been entered at shift 0. *)
Lemma encode_loop_6 b l bits :
  is_byte b ->
  encode_loop (b :: l) bits 6 = b64_at (bits mod 64) :: encode_loop (b :: l) bits 0.
Proof.
  intros Hb. rewrite !encode_loop_step. cbn zeta.
  change (6 + 8) with 14. change (0 + 8) with 8. rewrite emit_pending.
  now rewrite (proj1 (sextets bits b Hb)).
Qed.

Lemma shifted_mod4 bits b : is_byte b -> shifted bits b mod 4 = b mod 4.
Proof. intros. apply shifted_mod; [done| now exists 64 |lia]. Qed.

Lemma shifted_mod16 bits b : is_byte b -> shifted bits b mod 16 = b mod 16.
Proof. intros. apply shifted_mod; [done| now exists 16 |lia]. Qed.

Lemma shifted_mod64 bits b : is_byte b -> shifted bits b mod 64 = b mod 64.
Proof. intros. apply shifted_mod; [done| now exists 4 |lia]. Qed.

(** The rounds of a group: entered at shift 0, 2 and 4. *)
Lemma round_0 a l bits :
  is_byte a ->
  encode_loop (a :: l) bits 0 =
    b64_at (a / 4) :: match l with
                      | [] => [b64_at (a mod 4 * 16)]
                      | _ => encode_loop l (shifted bits a) 2
                      end.
Proof.
  intros Ha. rewrite encode_loop_step. cbn zeta. change (0 + 8) with 8.
  destruct (sextets bits a Ha) as (_ & _ & _ & S8 & _ & _ & S2).
  destruct l; rewrite ?emit_more, ?emit_last by lia; cbn [fst snd app];
    change (8 - 6) with 2; now rewrite S8, ?S2.
Qed.

Lemma round_2 b l bits :
  is_byte b ->
  encode_loop (b :: l) bits 2 =
    b64_at (bits mod 4 * 16 + b / 16) :: match l with
                                         | [] => [b64_at (b mod 16 * 4)]
                                         | _ => encode_loop l (shifted bits b) 4
                                         end.
Proof.
  intros Hb. rewrite encode_loop_step. cbn zeta. change (2 + 8) with 10.
  destruct (sextets bits b Hb) as (_ & _ & S10 & _ & _ & S4 & _).
  destruct l; rewrite ?emit_more, ?emit_last by lia; cbn [fst snd app];
    change (10 - 6) with 4; now rewrite S10, ?S4.
Qed.

Lemma round_4 c l bits :
  is_byte c ->
  encode_loop (c :: l) bits 4 =
    b64_at (bits mod 16 * 4 + c / 64) :: match l with
                                         | [] => [b64_at (c mod 64)]
                                         | _ => encode_loop l (shifted bits c) 6
                                         end.
Proof.
  intros Hc. rewrite encode_loop_step. cbn zeta. change (4 + 8) with 12.
  destruct (sextets bits c Hc) as (_ & S12 & _ & _ & S6 & _ & _).
  destruct l; rewrite ?emit_more, ?emit_last by lia; cbn [fst snd app];
    change (12 - 6) with 6; now rewrite S12, ?S6.
Qed.

Lemma encode_loop_digits l :
  forall bits, bytes l -> encode_loop l bits 0 = digits l.
Proof.
  induction l as [|a|a b|a b c l IH] using list_ind_3; intros bits Hl; [done|..];
    split_bytes;
    rewrite round_0 by done; cbn [digits]; [done|..];
    rewrite round_2, shifted_mod4 by done; [done|].
  rewrite round_4, shifted_mod16 by done.
  repeat f_equal. destruct l as [|d l]; [done|].
  split_bytes. rewrite encode_loop_6 by done.
  rewrite shifted_mod64 by done. f_equal. apply IH. now apply bytes_cons.
Qed.

Lemma digits_pad l : digits l ++ pad (length (digits l)) = rfc4648 l.
Proof.
  induction l as [|a|a b|a b c l IH] using list_ind_3; try done.
  cbn [digits rfc4648 length app]. repeat f_equal. rewrite <- IH. f_equal.
  unfold pad. do 2 f_equal.
  replace (S (S (S (S (length (digits l)))))) with (length (digits l) + 1 * 4)%nat by lia.
  now rewrite Nat.Div0.mod_add.
Qed.

Lemma rfc4648_length l : Z.of_nat (length (rfc4648 l)) = BASE64_SIZE (Z.of_nat (length l)) - 1.
Proof.
  unfold BASE64_SIZE.
  induction l as [|a|a b|a b c l IH] using list_ind_3; try done.
  cbn [rfc4648 length]. rewrite !Nat2Z.inj_succ, IH.
  replace (Z.succ (Z.succ (Z.succ (Z.of_nat (length l)))) + 2)
    with (Z.of_nat (length l) + 2 + 1 * 3) by lia.
  rewrite Z.div_add by lia. lia.
Qed.

Lemma base64_encode_rfc out_size inp in_size :
  bytes inp -> 0 <= in_size < UINT_MAX / 4 -> in_size <= Z.of_nat (length inp) ->
  BASE64_SIZE in_size <= out_size ->
  base64_encode out_size inp in_size = Some (rfc4648 (take (Z.to_nat in_size) inp) ++ [0]).
Proof.
  intros Hb Hn Hl Ho. change (UINT_MAX / 4) with 1073741823 in Hn.
  unfold base64_encode. change (UINT_MAX / 4) with 1073741823.
  rewrite u32_small by (unfold is_u32; lia).
  destruct (Z.leb_spec 1073741823 in_size); [lia|].
  destruct (Z.ltb_spec out_size (BASE64_SIZE in_size)); [lia|]. cbn [orb].
  rewrite encode_loop_digits, app_assoc, digits_pad by now apply bytes_take. done.
Qed.

(** ** The decoder inverts the digits *)

Definition regd (v d : Z) : Z := s32 (Z.shiftl v 6 + d).

Lemma s32_div_mod z k :
  0 <= k <= 24 -> (s32 z / 2 ^ k) mod 256 = (z / 2 ^ k) mod 256.
Proof.
  intros Hk. unfold s32.
  rewrite (Z.mod_eq (z + 2147483648) 4294967296) by lia.
  set (q := (z + 2147483648) / 4294967296).
  assert (4294967296 = 2 ^ (24 - k) * 256 * 2 ^ k) as E.
  { change 256 with (2 ^ 8). rewrite <- !Z.pow_add_r by lia.
    replace (24 - k + 8 + k) with 32 by lia. done. }
  replace (z + 2147483648 - 4294967296 * q - 2147483648)
    with (z + (- (2 ^ (24 - k)) * q * 256) * 2 ^ k) by (rewrite E; lia).
  rewrite Z.div_add by (apply Z.pow_nonzero; lia). apply Z.mod_add. lia.
Qed.

Lemma regd_byte v d k :
  0 <= k <= 24 -> u8 (Z.shiftr (regd v d) k) = ((v * 64 + d) / 2 ^ k) mod 256.
Proof.
  intros Hk. unfold u8, regd. rewrite Z.shiftr_div_pow2, s32_div_mod by lia.
  now rewrite Z.shiftl_mul_pow2 by lia.
Qed.

Lemma regd_mod64 v d : 0 <= d < 64 -> regd v d mod 64 = d.
Proof.
  intros Hd. pose proof (s32_div_mod (v * 64 + d) 0 ltac:(lia)) as H.
  change (2 ^ 0) with 1 in H. rewrite !Z.div_1_r in H.
  assert (forall x y, x mod 256 = y mod 256 -> x mod 64 = y mod 64) as Hm.
  { intros x y E. rewrite <- (Z.mod_mod_divide x 256 64), E by now exists 4.
    now rewrite Z.mod_mod_divide by now exists 4. }
  apply Hm in H. unfold regd. rewrite Z.shiftl_mul_pow2 by lia. change (2 ^ 6) with 64.
  rewrite H. Z.div_mod_to_equations; lia.
Qed.

(** The alphabet: [map2] inverts [b64], and no digit is a terminator. *)
Lemma b64_digit d :
  0 <= d < 64 ->
  digit (b64_at d) = Some d /\ (b64_at d =? 0) = false /\ (b64_at d =? 61) = false.
Proof.
  intros Hd.
  assert (forallb (fun n => let c := b64_at (Z.of_nat n) in
            match digit c with Some x => x =? Z.of_nat n | None => false end
            && negb (c =? 0) && negb (c =? 61)) (seq 0 64) = true) as H by reflexivity.
  rewrite forallb_forall in H. specialize (H (Z.to_nat d)).
  rewrite Z2Nat.id in H by lia. cbn zeta in H.
  specialize (H ltac:(apply in_seq; lia)).
  destruct (digit (b64_at d)); [|done].
  destruct (Z.eqb_spec z d); [subst|done].
  destruct (b64_at d =? 0), (b64_at d =? 61); done.
Qed.

(** One step of the decoding loop on a digit. *)
Lemma decode_step d rest i v out n :
  0 <= d < 64 -> Z.of_nat (length out) < n \/ Z.land i 3 = 0 ->
  decode_loop (b64_at d :: rest) i v out n =
    decode_loop rest (i + 1) (regd v d)
      (out ++ (if Z.land i 3 =? 0 then [] else [u8 (Z.shiftr (regd v d) (6 - 2 * Z.land i 3))])) n.
Proof.
  intros Hd Hn. cbn [decode_loop].
  destruct (b64_digit d Hd) as (-> & -> & ->). cbn [orb]. fold (regd v d).
  destruct (Z.eqb_spec (Z.land i 3) 0); cbn [negb]; [now rewrite app_nil_r|].
  destruct (Z.ltb_spec (Z.of_nat (length out)) n); [done|lia].
Qed.

(** The low bits of the position in the [k]-th group. *)
Lemma pos_low k j : 0 <= j < 4 -> Z.land (4 * k + j) 3 = j.
Proof.
  intros Hj. change 3 with (Z.ones 2). rewrite Z.land_ones by lia.
  change (2 ^ 2) with 4. Z.div_mod_to_equations; lia.
Qed.

Lemma decode_group_2 k v out n d0 d1 rest :
  0 <= d0 < 64 -> 0 <= d1 < 64 -> Z.of_nat (length out) < n ->
  exists v', v' mod 64 = d1 /\
  decode_loop (b64_at d0 :: b64_at d1 :: rest) (4 * k) v out n =
    decode_loop rest (4 * k + 2) v' (out ++ [d0 * 4 + d1 / 16]) n.
Proof.
  intros H0 H1 Hn. exists (regd (regd v d0) d1). split; [now apply regd_mod64|].
  pose proof (pos_low k 0 ltac:(lia)) as P0. pose proof (pos_low k 1 ltac:(lia)) as P1.
  rewrite Z.add_0_r in P0.
  rewrite decode_step by auto. rewrite P0. cbn [Z.eqb]. rewrite app_nil_r.
  rewrite decode_step by auto. rewrite P1. cbn [Z.eqb]. rewrite <- Z.add_assoc.
  rewrite regd_byte by lia. change (2 ^ (6 - 2 * 1)) with 16.
  pose proof (regd_mod64 v d0 H0) as M. do 3 f_equal.
  Z.div_mod_to_equations; lia.
Qed.

Lemma decode_third k v out n d1 d2 rest :
  v mod 64 = d1 -> 0 <= d2 < 64 -> Z.of_nat (length out) < n ->
  exists v', v' mod 64 = d2 /\
  decode_loop (b64_at d2 :: rest) (4 * k + 2) v out n =
    decode_loop rest (4 * k + 3) v' (out ++ [d1 mod 16 * 16 + d2 / 4]) n.
Proof.
  intros Hv H2 Hn. exists (regd v d2). split; [now apply regd_mod64|].
  rewrite decode_step, (pos_low k 2) by (auto; lia). cbn [Z.eqb]. rewrite <- Z.add_assoc.
  rewrite regd_byte by lia. change (2 ^ (6 - 2 * 2)) with 4. do 3 f_equal.
  Z.div_mod_to_equations; lia.
Qed.

Lemma decode_fourth k v out n d2 d3 rest :
  v mod 64 = d2 -> 0 <= d3 < 64 -> Z.of_nat (length out) < n ->
  exists v',
  decode_loop (b64_at d3 :: rest) (4 * k + 3) v out n =
    decode_loop rest (4 * (k + 1)) v' (out ++ [d2 mod 4 * 64 + d3]) n.
Proof.
  intros Hv H3 Hn. exists (regd v d3).
  rewrite decode_step, (pos_low k 3) by (auto; lia). cbn [Z.eqb].
  replace (4 * k + 3 + 1) with (4 * (k + 1)) by lia.
  rewrite regd_byte by lia. change (2 ^ (6 - 2 * 3)) with 1. do 3 f_equal.
  Z.div_mod_to_equations; lia.
Qed.

Lemma decode_stop rest i v out n : decode_loop (61 :: rest) i v out n = Some out.
Proof. done. Qed.

(** Decoding the padded digits of [l], with or without the terminator, appends
    [l]. *)
Lemma decode_rfc l t : t = [] \/ t = [0] -> forall k v out n,
  bytes l -> Z.of_nat (length out + length l) <= n ->
  decode_loop (rfc4648 l ++ t) (4 * k) v out n = Some (out ++ l).
Proof.
  intros Ht.
  induction l as [|a|a b|a b c l IH] using list_ind_3; intros k v out n Hb Hn;
    split_bytes; unfold is_byte in *; cbn [rfc4648 app length] in *.
  - rewrite app_nil_r. destruct Ht as [-> | ->]; done.
  - destruct (decode_group_2 k v out n (a / 4) (a mod 4 * 16) (61 :: 61 :: t)) as (v' & _ & ->);
      try (Z.div_mod_to_equations; lia).
    rewrite decode_stop. do 3 f_equal. Z.div_mod_to_equations; lia.
  - edestruct (decode_group_2 k v out n (a / 4) (a mod 4 * 16 + b / 16)) as (v1 & M1 & ->);
      try (Z.div_mod_to_equations; lia).
    edestruct (decode_third k v1) as (v2 & _ & ->);
      [exact M1|try (rewrite ?length_app; cbn [length]; Z.div_mod_to_equations; lia)..|].
    rewrite decode_stop, <- app_assoc. cbn [app]. do 3 f_equal; [|f_equal];
      Z.div_mod_to_equations; lia.
  - edestruct (decode_group_2 k v out n (a / 4) (a mod 4 * 16 + b / 16)) as (v1 & M1 & ->);
      try (Z.div_mod_to_equations; lia).
    edestruct (decode_third k v1) as (v2 & M2 & ->);
      [exact M1|try (rewrite ?length_app; cbn [length]; Z.div_mod_to_equations; lia)..|].
    edestruct (decode_fourth k v2) as (v3 & ->);
      [exact M2|try (rewrite ?length_app; cbn [length]; Z.div_mod_to_equations; lia)..|].
    rewrite IH by (try done; rewrite !length_app; cbn [length]; lia).
    rewrite <- !app_assoc. cbn [app]. f_equal. f_equal.
    f_equal; [|f_equal; [|f_equal]]; Z.div_mod_to_equations; lia.
Qed.

(** Round trip: whenever the size checks of [base64_encode] pass, it writes
    exactly [BASE64_SIZE(in_size)] bytes, and [base64_decode] of what it wrote
    returns the input bytes. *)
Lemma base64_roundtrip (inp : list Z) (out_size : Z) :
  bytes inp -> Z.of_nat (length inp) < UINT_MAX / 4 ->
  BASE64_SIZE (Z.of_nat (length inp)) <= out_size ->
  exists s,
    base64_encode out_size inp (Z.of_nat (length inp)) = Some s /\
    Z.of_nat (length s) = BASE64_SIZE (Z.of_nat (length inp)) /\
    base64_decode s (Z.of_nat (length inp)) = Some inp.
Proof.
  intros Hb Hn Ho. exists (rfc4648 inp ++ [0]). split_and!.
  - rewrite base64_encode_rfc by (auto; lia). rewrite Nat2Z.id. now rewrite firstn_all.
  - rewrite length_app, Nat2Z.inj_add, rfc4648_length. cbn [length]. lia.
  - unfold base64_decode. apply (decode_rfc inp [0] (or_intror eq_refl) 0 0 []); [done|cbn [length]; lia].
Qed.

Lemma base64_roundtrip_witness :
  exists s, base64_encode 13 (B# "redsocks") 8 = Some s /\
    Z.of_nat (length s) = 13 /\ base64_decode s 8 = Some (B# "redsocks").
Proof.
  apply (base64_roundtrip (B# "redsocks") 13); [apply bytes_of_string_bytes|done|done].
Defined.

(** Functional correctness: [base64_encode] stores the RFC 4648 encoding
    followed by a NUL, and returns NULL exactly when the input is too long or
    the output buffer is smaller than [BASE64_SIZE(in_size)]. *)
Lemma base64_encode_spec (out_size in_size : Z) (inp : list Z) :
  bytes inp -> 0 <= in_size <= Z.of_nat (length inp) -> in_size <= INT_MAX ->
  base64_encode out_size inp in_size =
    if decide (in_size < UINT_MAX / 4 /\ BASE64_SIZE in_size <= out_size)
    then Some (rfc4648 (take (Z.to_nat in_size) inp) ++ [0]) else None.
Proof.
  intros Hb Hn Hi. unfold INT_MAX in Hi. case_decide as Hd.
  - apply base64_encode_rfc; lia || done.
  - unfold base64_encode. rewrite u32_small by (unfold is_u32; lia).
    destruct (Z.leb_spec (UINT_MAX / 4) in_size); [done|].
    destruct (Z.ltb_spec out_size (BASE64_SIZE in_size)); [done|]. lia.
Qed.

Lemma base64_encode_spec_witness :
  base64_encode 4 (B# "ab") 2 = None /\
  base64_encode 5 (B# "ab") 2 = Some (rfc4648 (B# "ab") ++ [0]).
Proof.
  split.
  - rewrite base64_encode_spec; [reflexivity|apply bytes_of_string_bytes|done|done].
  - rewrite base64_encode_spec; [reflexivity|apply bytes_of_string_bytes|done|done].
Defined.

End Base64.
