(* ===== verification/Md5.v ===== *)
(** * MD5: [redsocks/md5.c]

    The streaming MD5 of the digest authentication code: [md5_init],
    [md5_append], [md5_finish] on the state of [md5.h], with the 64 steps of
    [md5_process] as the source lists them. The reference is RFC 1321: one
    compression function with computed indices, folded over the 64-byte blocks
    of the padded message. *)

From S2P Require Import Prelude.

Open Scope Z_scope.

Module Md5.

(** ** The compression function *)

Definition T_MASK : Z := u32 (Z.lnot 0).

Local Notation "x ^^ y" := (Z.lxor x y) (at level 50, left associativity).

(** [T1] ... [T64], written with the mask the way the source does. *)
Definition T_table : list Z :=
  [(T_MASK ^^ 0x28955b87); (T_MASK ^^ 0x173848a9); 0x242070db; (T_MASK ^^ 0x3e423111);
   (T_MASK ^^ 0x0a83f050); 0x4787c62a; (T_MASK ^^ 0x57cfb9ec); (T_MASK ^^ 0x02b96afe);
   0x698098d8; (T_MASK ^^ 0x74bb0850); (T_MASK ^^ 0x0000a44e); (T_MASK ^^ 0x76a32841);
   0x6b901122; (T_MASK ^^ 0x02678e6c); (T_MASK ^^ 0x5986bc71); 0x49b40821;
   (T_MASK ^^ 0x09e1da9d); (T_MASK ^^ 0x3fbf4cbf); 0x265e5a51; (T_MASK ^^ 0x16493855);
   (T_MASK ^^ 0x29d0efa2); 0x02441453; (T_MASK ^^ 0x275e197e); (T_MASK ^^ 0x182c0437);
   0x21e1cde6; (T_MASK ^^ 0x3cc8f829); (T_MASK ^^ 0x0b2af278); 0x455a14ed;
   (T_MASK ^^ 0x561c16fa); (T_MASK ^^ 0x03105c07); 0x676f02d9; (T_MASK ^^ 0x72d5b375);
   (T_MASK ^^ 0x0005c6bd); (T_MASK ^^ 0x788e097e); 0x6d9d6122; (T_MASK ^^ 0x021ac7f3);
   (T_MASK ^^ 0x5b4115bb); 0x4bdecfa9; (T_MASK ^^ 0x0944b49f); (T_MASK ^^ 0x4140438f);
   0x289b7ec6; (T_MASK ^^ 0x155ed805); (T_MASK ^^ 0x2b10cf7a); 0x04881d05;
   (T_MASK ^^ 0x262b2fc6); (T_MASK ^^ 0x1924661a); 0x1fa27cf8; (T_MASK ^^ 0x3b53a99a);
   (T_MASK ^^ 0x0bd6ddbb); 0x432aff97; (T_MASK ^^ 0x546bdc58); (T_MASK ^^ 0x036c5fc6);
   0x655b59c3; (T_MASK ^^ 0x70f3336d); (T_MASK ^^ 0x00100b82); (T_MASK ^^ 0x7a7ba22e);
   0x6fa87e4f; (T_MASK ^^ 0x01d3191f); (T_MASK ^^ 0x5cfebceb); 0x4e0811a1;
   (T_MASK ^^ 0x08ac817d); (T_MASK ^^ 0x42c50dca); 0x2ad7d2bb; (T_MASK ^^ 0x14792c6e)].

Definition T (i : nat) : Z := nth (i - 1) T_table 0.

Record md5_regs := Regs { ra : Z; rb : Z; rc : Z; rd : Z }.

Definition ROTATE_LEFT (x n : Z) : Z := Z.lor (u32 (Z.shiftl x n)) (Z.shiftr x (32 - n)).

Definition F (x y z : Z) : Z := Z.lor (Z.land x y) (Z.land (u32 (Z.lnot x)) z).
Definition G (x y z : Z) : Z := Z.lor (Z.land x z) (Z.land y (u32 (Z.lnot z))).
Definition H (x y z : Z) : Z := Z.lxor (Z.lxor x y) z.
Definition I (x y z : Z) : Z := Z.lxor y (Z.lor x (u32 (Z.lnot z))).

(** The value a [SET(a, b, c, d, k, s, Ti)] line assigns to its first argument. *)
Definition set_val (f : Z -> Z -> Z -> Z) (a b c d x s t : Z) : Z :=
  u32 (ROTATE_LEFT (u32 (a + f b c d + x + t)) s + b).

(** A [SET] line: the register it writes, [k], [s] and the index of [T]. *)
Inductive reg := Ra | Rb | Rc | Rd.
Inductive set_op := SET (r : reg) (k : nat) (s : Z) (i : nat).

Definition run_set (f : Z -> Z -> Z -> Z) (X : list Z) (st : md5_regs) (o : set_op) : md5_regs :=
  let '(Regs a b c d) := st in
  let '(SET r k s i) := o in
  let x := nth k X 0 in
  match r with
  | Ra => Regs (set_val f a b c d x s (T i)) b c d
  | Rd => Regs a b c (set_val f d a b c x s (T i))
  | Rc => Regs a b (set_val f c d a b x s (T i)) d
  | Rb => Regs a (set_val f b c d a x s (T i)) c d
  end.

Definition round1 : list set_op :=
  [SET Ra 0 7 1; SET Rd 1 12 2; SET Rc 2 17 3; SET Rb 3 22 4;
   SET Ra 4 7 5; SET Rd 5 12 6; SET Rc 6 17 7; SET Rb 7 22 8;
   SET Ra 8 7 9; SET Rd 9 12 10; SET Rc 10 17 11; SET Rb 11 22 12;
   SET Ra 12 7 13; SET Rd 13 12 14; SET Rc 14 17 15; SET Rb 15 22 16].

Definition round2 : list set_op :=
  [SET Ra 1 5 17; SET Rd 6 9 18; SET Rc 11 14 19; SET Rb 0 20 20;
   SET Ra 5 5 21; SET Rd 10 9 22; SET Rc 15 14 23; SET Rb 4 20 24;
   SET Ra 9 5 25; SET Rd 14 9 26; SET Rc 3 14 27; SET Rb 8 20 28;
   SET Ra 13 5 29; SET Rd 2 9 30; SET Rc 7 14 31; SET Rb 12 20 32].

Definition round3 : list set_op :=
  [SET Ra 5 4 33; SET Rd 8 11 34; SET Rc 11 16 35; SET Rb 14 23 36;
   SET Ra 1 4 37; SET Rd 4 11 38; SET Rc 7 16 39; SET Rb 10 23 40;
   SET Ra 13 4 41; SET Rd 0 11 42; SET Rc 3 16 43; SET Rb 6 23 44;
   SET Ra 9 4 45; SET Rd 12 11 46; SET Rc 15 16 47; SET Rb 2 23 48].

Definition round4 : list set_op :=
  [SET Ra 0 6 49; SET Rd 7 10 50; SET Rc 14 15 51; SET Rb 5 21 52;
   SET Ra 12 6 53; SET Rd 3 10 54; SET Rc 10 15 55; SET Rb 1 21 56;
   SET Ra 8 6 57; SET Rd 15 10 58; SET Rc 6 15 59; SET Rb 13 21 60;
   SET Ra 4 6 61; SET Rd 11 10 62; SET Rc 2 15 63; SET Rb 9 21 64].

(** The sixteen little-endian words of a block (the three load paths of the
    source, aligned, copied and big-endian, produce the same words). *)
Fixpoint load_words (n : nat) (xp : list Z) : list Z :=
  match n, xp with
  | S n, b0 :: b1 :: b2 :: b3 :: xp =>
      u32 (b0 + Z.shiftl b1 8 + Z.shiftl b2 16 + Z.shiftl b3 24) :: load_words n xp
  | _, _ => []
  end.

Definition md5_process (abcd : md5_regs) (data : list Z) : md5_regs :=
  let X := load_words 16 data in
  let r := foldl (run_set F X) abcd round1 in
  let r := foldl (run_set G X) r round2 in
  let r := foldl (run_set H X) r round3 in
  let r := foldl (run_set I X) r round4 in
  Regs (u32 (ra abcd + ra r)) (u32 (rb abcd + rb r))
       (u32 (rc abcd + rc r)) (u32 (rd abcd + rd r)).

(** ** The streaming state *)

Record md5_state := State {
  count0 : Z; count1 : Z;   (** message length in bits, lsw first *)
  abcd : md5_regs;          (** digest buffer *)
  buf : list Z;             (** accumulate block *)
}.

(** [md5_init] leaves [buf] as it finds it. *)
Definition md5_init (buf0 : list Z) : md5_state :=
  State 0 0 (Regs 0x67452301 (T_MASK ^^ 0x10325476) (T_MASK ^^ 0x67452301) 0x10325476) buf0.

(** [memcpy(buf + off, p, n)] *)
Definition memcpy_at (buf : list Z) (off : Z) (p : list Z) (n : Z) : list Z :=
  take (Z.to_nat off) buf ++ take (Z.to_nat n) p ++ drop (Z.to_nat (off + n)) buf.

(** [for (; left >= 64; p += 64, left -= 64) md5_process(pms, p);] *)
Fixpoint process_blocks (fuel : nat) (r : md5_regs) (p : list Z) (left : Z)
  : md5_regs * list Z * Z :=
  match fuel with
  | O => (r, p, left)
  | S fuel =>
      if 64 <=? left then process_blocks fuel (md5_process r (take 64 p)) (drop 64 p) (left - 64)
      else (r, p, left)
  end.

(** [data] holds the [nbytes] bytes the pointer argument designates. *)
Definition md5_append (st : md5_state) (data : list Z) (nbytes : Z) : md5_state :=
  let offset := Z.land (Z.shiftr (count0 st) 3) 63 in
  let nbits := u32 (s32 (Z.shiftl nbytes 3)) in
  if nbytes <=? 0 then st
  else
    let c1 := u32 (count1 st + Z.shiftr nbytes 29) in
    let c0 := u32 (count0 st + nbits) in
    let c1 := if c0 <? nbits then u32 (c1 + 1) else c1 in
    let finish (r : md5_regs) (b : list Z) (p : list Z) (left : Z) :=
      let '(r, p, left') := process_blocks (S (Z.to_nat left)) r p left in
      State c0 c1 r (if negb (left' =? 0) then memcpy_at b 0 p left' else b) in
    if negb (offset =? 0) then
      let copy := if 64 <? s32 (offset + nbytes) then 64 - offset else nbytes in
      let b := memcpy_at (buf st) offset data copy in
      if offset + copy <? 64 then State c0 c1 (abcd st) b
      else finish (md5_process (abcd st) b) b (drop (Z.to_nat copy) data) (nbytes - copy)
    else finish (abcd st) (buf st) data nbytes.

Definition pad : list Z := 0x80 :: repeat 0 63.

(** Byte [i] of the little-endian word [w]. *)
Definition word_bytes (w : Z) : list Z :=
  map (fun i => u8 (Z.shiftr w (Z.shiftl (Z.land i 3) 3))) [0; 1; 2; 3].

(** [md5_finish]: the digest it stores, and the state it leaves. *)
Definition md5_finish (st : md5_state) : md5_state * list Z :=
  let data := word_bytes (count0 st) ++ word_bytes (count1 st) in
  let npad := Z.land (u32 (55 - Z.shiftr (count0 st) 3)) 63 + 1 in
  let st := md5_append st (take (Z.to_nat npad) pad) npad in
  let st := md5_append st data 8 in
  (st, word_bytes (ra (abcd st)) ++ word_bytes (rb (abcd st)) ++
       word_bytes (rc (abcd st)) ++ word_bytes (rd (abcd st))).

(** ** Reference: RFC 1321 *)

Module Rfc1321.

(** The table of section 3.4, [T[i] = floor(4294967296 * abs(sin(i)))]. *)
Definition sine_table : list Z :=
  [0xd76aa478; 0xe8c7b756; 0x242070db; 0xc1bdceee; 0xf57c0faf; 0x4787c62a; 0xa8304613; 0xfd469501;
   0x698098d8; 0x8b44f7af; 0xffff5bb1; 0x895cd7be; 0x6b901122; 0xfd987193; 0xa679438e; 0x49b40821;
   0xf61e2562; 0xc040b340; 0x265e5a51; 0xe9b6c7aa; 0xd62f105d; 0x02441453; 0xd8a1e681; 0xe7d3fbc8;
   0x21e1cde6; 0xc33707d6; 0xf4d50d87; 0x455a14ed; 0xa9e3e905; 0xfcefa3f8; 0x676f02d9; 0x8d2a4c8a;
   0xfffa3942; 0x8771f681; 0x6d9d6122; 0xfde5380c; 0xa4beea44; 0x4bdecfa9; 0xf6bb4b60; 0xbebfbc70;
   0x289b7ec6; 0xeaa127fa; 0xd4ef3085; 0x04881d05; 0xd9d4d039; 0xe6db99e5; 0x1fa27cf8; 0xc4ac5665;
   0xf4292244; 0x432aff97; 0xab9423a7; 0xfc93a039; 0x655b59c3; 0x8f0ccc92; 0xffeff47d; 0x85845dd1;
   0x6fa87e4f; 0xfe2ce6e0; 0xa3014314; 0x4e0811a1; 0xf7537e82; 0xbd3af235; 0x2ad7d2bb; 0xeb86d391].

Definition aux (i : nat) : Z -> Z -> Z -> Z :=
  match (i / 16)%nat with
  | 0%nat => F | 1%nat => G | 2%nat => H | _ => I
  end.

Definition index (i : nat) : nat :=
  match (i / 16)%nat with
  | 0%nat => i mod 16 | 1%nat => (5 * i + 1) mod 16
  | 2%nat => (3 * i + 5) mod 16 | _ => (7 * i) mod 16
  end.

Definition shift (i : nat) : Z :=
  nth (4 * (i / 16) + i mod 4)
    [7; 12; 17; 22; 5; 9; 14; 20; 4; 11; 16; 23; 6; 10; 15; 21] 0.

(** One step: the registers rotate, so that every step writes the same one. *)
Definition gstep (f : Z -> Z -> Z -> Z) (x s t : Z) (r : md5_regs) : md5_regs :=
  Regs (rd r) (set_val f (ra r) (rb r) (rc r) (rd r) x s t) (rb r) (rc r).

Definition step (X : list Z) (r : md5_regs) (i : nat) : md5_regs :=
  gstep (aux i) (nth (index i) X 0) (shift i) (nth i sine_table 0) r.

Definition compress (r : md5_regs) (block : list Z) : md5_regs :=
  let r' := foldl (step (load_words 16 block)) r (seq 0 64) in
  Regs (u32 (ra r + ra r')) (u32 (rb r + rb r')) (u32 (rc r + rc r')) (u32 (rd r + rd r')).

Definition iv : md5_regs := Regs 0x67452301 0xefcdab89 0x98badcfe 0x10325476.

(** The [n] first 64-byte blocks of [m]. *)
Definition blocks (n : nat) (m : list Z) : list (list Z) :=
  map (fun i => take 64 (drop (64 * i) m)) (seq 0 n).

(** Sections 3.1 and 3.2: a one bit, zeros up to 56 mod 64 bytes, and the bit
    length modulo 2^64, least significant byte first. *)
Definition le64 (z : Z) : list Z :=
  map (fun i => z / 256 ^ i mod 256) [0; 1; 2; 3; 4; 5; 6; 7].

Definition padding (n : nat) : list Z :=
  0x80 :: repeat 0 ((119 - n mod 64) mod 64) ++ le64 ((8 * Z.of_nat n) mod 2 ^ 64).

Definition md5 (m : list Z) : list Z :=
  let p := m ++ padding (length m) in
  let r := foldl compress iv (blocks (length p / 64) p) in
  word_bytes (ra r) ++ word_bytes (rb r) ++ word_bytes (rc r) ++ word_bytes (rd r).

End Rfc1321.
Import Rfc1321.

(** ** [md5_process] is the RFC compression function *)

(** Four [SET] lines of the source, writing a, d, c and b in turn, are four
    rotating steps. *)
Lemma run_quad f X r k0 s0 i0 k1 s1 i1 k2 s2 i2 k3 s3 i3 l :
  foldl (run_set f X) r
    (SET Ra k0 s0 i0 :: SET Rd k1 s1 i1 :: SET Rc k2 s2 i2 :: SET Rb k3 s3 i3 :: l) =
  foldl (run_set f X)
    (gstep f (nth k3 X 0) s3 (T i3) (gstep f (nth k2 X 0) s2 (T i2)
      (gstep f (nth k1 X 0) s1 (T i1) (gstep f (nth k0 X 0) s0 (T i0) r)))) l.
Proof. now destruct r. Qed.

Ltac round_tac r :=
  unfold r; rewrite !run_quad; cbn [foldl seq]; unfold step; reflexivity.

Lemma round1_steps X r : foldl (run_set F X) r round1 = foldl (step X) r (seq 0 16).
Proof. round_tac round1. Qed.

Lemma round2_steps X r : foldl (run_set G X) r round2 = foldl (step X) r (seq 16 16).
Proof. round_tac round2. Qed.

Lemma round3_steps X r : foldl (run_set H X) r round3 = foldl (step X) r (seq 32 16).
Proof. round_tac round3. Qed.

Lemma round4_steps X r : foldl (run_set I X) r round4 = foldl (step X) r (seq 48 16).
Proof. round_tac round4. Qed.

Lemma md5_process_compress r data : md5_process r data = compress r data.
Proof.
  unfold md5_process, compress.
  rewrite round1_steps, round2_steps, round3_steps, round4_steps.
  change (seq 0 64) with (seq 0 16 ++ seq 16 16 ++ seq 32 16 ++ seq 48 16).
  now rewrite !foldl_app.
Qed.

(** ** Blocks *)

Lemma blocks_S n m : blocks (S n) m = take 64 m :: blocks n (drop 64 m).
Proof.
  unfold blocks. cbn [seq map]. f_equal. rewrite <- seq_shift, map_map.
  apply map_ext. intros i. rewrite drop_drop. do 2 f_equal. lia.
Qed.

Lemma blocks_app n k m1 m2 :
  length m1 = (64 * n)%nat -> blocks (n + k) (m1 ++ m2) = blocks n m1 ++ blocks k m2.
Proof.
  revert m1. induction n as [|n IH]; intros m1 Hm.
  - now destruct m1.
  - cbn [Nat.add]. rewrite !blocks_S. cbn [app].
    rewrite take_app_le, drop_app_le by lia. f_equal.
    apply IH. rewrite length_drop. lia.
Qed.

Lemma blocks_prefix n m1 m2 : (64 * n <= length m1)%nat -> blocks n (m1 ++ m2) = blocks n m1.
Proof.
  revert m1. induction n as [|n IH]; intros m1 Hm; [done|].
  rewrite !blocks_S, take_app_le, drop_app_le by lia. f_equal.
  apply IH. rewrite length_drop. lia.
Qed.

Lemma process_blocks_spec fuel : forall r p left,
  left = Z.of_nat (length p) -> (length p < fuel)%nat ->
  process_blocks fuel r p left =
    (foldl compress r (blocks (length p / 64) p), drop (64 * (length p / 64)) p,
     Z.of_nat (length p mod 64)).
Proof.
  induction fuel as [|fuel IH]; intros r p left -> Hf; [lia|].
  cbn [process_blocks]. destruct (Z.leb_spec 64 (Z.of_nat (length p))).
  - rewrite md5_process_compress, IH by (rewrite length_drop; lia).
    rewrite length_drop.
    replace (length p)%nat with (length p - 64 + 1 * 64)%nat at 4 5 6 by lia.
    rewrite Nat.div_add, Nat.Div0.mod_add, Nat.add_1_r, blocks_S, drop_drop by lia.
    cbn [foldl]. do 3 f_equal. lia.
  - rewrite Nat.div_small, Nat.mod_small by lia. cbn [blocks seq map foldl Nat.mul].
    now rewrite drop_0.
Qed.

(** ** The streaming state represents the message appended so far *)

Record repr (st : md5_state) (m : list Z) : Prop := {
  repr_c0 : 0 <= count0 st < 2 ^ 32;
  repr_c1 : 0 <= count1 st < 2 ^ 32;
  repr_count : count0 st + 2 ^ 32 * count1 st = (8 * Z.of_nat (length m)) mod 2 ^ 64;
  repr_abcd : abcd st = foldl compress iv (blocks (length m / 64) m);
  repr_len : length (buf st) = 64%nat;
  repr_buf : take (length m mod 64) (buf st) = drop (64 * (length m / 64)) m;
}.

Lemma repr_init b : length b = 64%nat -> repr (md5_init b) [].
Proof. intros. split; cbn; try lia; try done. Qed.

Lemma repr_offset st m :
  repr st m -> Z.land (Z.shiftr (count0 st) 3) 63 = Z.of_nat (length m mod 64).
Proof.
  intros [H0 H1 Hc _ _ _]. change 63 with (Z.ones 6).
  rewrite Z.land_ones, Z.shiftr_div_pow2 by lia.
  rewrite Nat2Z.inj_mod. set (l := Z.of_nat (length m)) in *.
  change (2 ^ 32) with 4294967296 in *. change (2 ^ 64) with 18446744073709551616 in *.
  change (2 ^ 3) with 8. change (2 ^ 6) with 64. change (Z.of_nat 64) with 64.
  Z.div_mod_to_equations; lia.
Qed.

(** The length update of [md5_append]. *)
Lemma count_update c0 c1 n len :
  0 <= c0 < 2 ^ 32 -> 0 <= c1 < 2 ^ 32 -> c0 + 2 ^ 32 * c1 = (8 * len) mod 2 ^ 64 ->
  0 < n < 2 ^ 28 ->
  let nbits := u32 (s32 (Z.shiftl n 3)) in
  let c0' := u32 (c0 + nbits) in
  let c1' := u32 (c1 + Z.shiftr n 29) in
  let c1'' := if c0' <? nbits then u32 (c1' + 1) else c1' in
  0 <= c0' < 2 ^ 32 /\ 0 <= c1'' < 2 ^ 32 /\
  c0' + 2 ^ 32 * c1'' = (8 * (len + n)) mod 2 ^ 64.
Proof.
  change (2 ^ 28) with 268435456. intros H0 H1 Hc Hn.
  rewrite Z.shiftl_mul_pow2, Z.shiftr_div_pow2 by lia.
  change (2 ^ 3) with 8. change (2 ^ 29) with 536870912.
  rewrite s32_small, (u32_small (n * 8)) by (unfold is_u32; lia).
  rewrite (Z.div_small n) by lia. cbn zeta. unfold u32.
  change (2 ^ 32) with 4294967296 in *. change (2 ^ 64) with 18446744073709551616 in *.
  destruct (Z.ltb_spec ((c0 + n * 8) mod 4294967296) (n * 8)); split_and!;
    Z.div_mod_to_equations; lia.
Qed.

(** The last part of [md5_append]: full blocks straight from the input, then
    the remainder into [buf]. [M] is the part of the message already hashed. *)
Lemma finish_blocks M p b n :
  length M = (64 * n)%nat -> length b = 64%nat ->
  let '(r, p', left') :=
    process_blocks (S (Z.to_nat (Z.of_nat (length p)))) (foldl compress iv (blocks n M)) p
      (Z.of_nat (length p)) in
  let b' := if negb (left' =? 0) then memcpy_at b 0 p' left' else b in
  let m := M ++ p in
  r = foldl compress iv (blocks (length m / 64) m) /\ length b' = 64%nat /\
  take (length m mod 64) b' = drop (64 * (length m / 64)) m.
Proof.
  intros HM Hb. rewrite process_blocks_spec by lia. cbv beta iota zeta.
  rewrite length_app, HM, (Nat.mul_comm 64 n), (Nat.add_comm (n * 64)).
  rewrite Nat.div_add, Nat.Div0.mod_add by lia.
  rewrite (Nat.add_comm _ n), blocks_app, foldl_app by done.
  rewrite drop_app_ge by lia.
  replace (64 * (n + length p / 64) - length M)%nat with (64 * (length p / 64))%nat by lia.
  assert (length (drop (64 * (length p / 64)) p) = length p mod 64)%nat as Hd.
  { rewrite length_drop. pose proof (Nat.div_mod_eq (length p) 64). lia. }
  pose proof (Nat.mod_upper_bound (length p) 64).
  split_and!; [done|..]; destruct (Z.eqb_spec (Z.of_nat (length p mod 64)) 0) as [E|E];
    cbn [negb]; unfold memcpy_at; rewrite ?Nat2Z.id, ?Z.add_0_l;
    change (Z.to_nat 0) with 0%nat; rewrite ?take_0, ?app_nil_l.
  - done.
  - rewrite length_app, length_take, Hd, length_drop, Hb. lia.
  - replace (length p mod 64)%nat with 0%nat by lia. symmetry. apply length_zero_iff_nil. lia.
  - rewrite take_app_le by (rewrite length_take; lia). rewrite take_take, Nat.min_id.
    apply take_ge. lia.
Qed.

(** Filling the partial block: it stays partial, or it becomes full and is
    hashed. *)
Lemma memcpy_at_nat b o data cp :
  memcpy_at b (Z.of_nat o) data (Z.of_nat cp) = take o b ++ take cp data ++ drop (o + cp) b.
Proof. unfold memcpy_at. now rewrite <- Nat2Z.inj_add, !Nat2Z.id. Qed.

Lemma fill_partial M r b o n data :
  length M = (64 * n)%nat -> length b = 64%nat -> r = take o b -> (o + length data < 64)%nat ->
  let m := (M ++ r) ++ data in
  let b' := memcpy_at b (Z.of_nat o) data (Z.of_nat (length data)) in
  foldl compress iv (blocks n (M ++ r)) = foldl compress iv (blocks (length m / 64) m) /\
  length b' = 64%nat /\ take (length m mod 64) b' = drop (64 * (length m / 64)) m.
Proof.
  intros HM Hb -> Ho. cbn zeta. rewrite memcpy_at_nat.
  assert (length ((M ++ take o b) ++ data) = o + length data + n * 64)%nat as HL
    by (rewrite !length_app, length_take; lia).
  rewrite HL, Nat.div_add, Nat.Div0.mod_add, Nat.div_small, Nat.mod_small by lia.
  cbn [Nat.add]. rewrite (blocks_prefix n (M ++ take o b)) by (rewrite length_app; lia).
  rewrite firstn_all, <- !app_assoc, drop_app_ge by lia.
  replace (64 * n - length M)%nat with 0%nat by lia. rewrite drop_0.
  split_and!; [done| |].
  - rewrite !length_app, length_take, length_drop. lia.
  - rewrite app_assoc, take_app_le by (rewrite length_app, length_take; lia).
    apply take_ge. rewrite length_app, length_take. lia.
Qed.

Lemma fill_full M b o n data cp :
  length M = (64 * n)%nat -> length b = 64%nat -> (o + cp = 64)%nat -> (cp <= length data)%nat ->
  let b' := memcpy_at b (Z.of_nat o) data (Z.of_nat cp) in
  length b' = 64%nat /\ length (M ++ b') = (64 * S n)%nat /\
  compress (foldl compress iv (blocks n M)) b' = foldl compress iv (blocks (S n) (M ++ b')) /\
  (M ++ take o b) ++ data = (M ++ b') ++ drop cp data.
Proof.
  intros HM Hb Ho Hc. cbn zeta. rewrite memcpy_at_nat, Ho.
  rewrite (drop_ge b) by lia. rewrite app_nil_r.
  assert (length (take o b ++ take cp data) = 64%nat) as HL
    by (rewrite length_app, !length_take; lia).
  split_and!; [done|rewrite length_app; lia| |].
  - rewrite <- Nat.add_1_r, blocks_app, foldl_app by done.
    rewrite blocks_S. cbn [foldl]. rewrite (take_ge (take o b ++ _)) by lia. done.
  - rewrite <- !app_assoc, take_drop. done.
Qed.

Lemma md5_append_repr st m data :
  repr st m -> Z.of_nat (length data) < 2 ^ 28 ->
  repr (md5_append st data (Z.of_nat (length data))) (m ++ data).
Proof.
  intros HR Hn. pose proof (repr_offset st m HR) as Ho.
  destruct HR as [H0 H1 Hc Ha Hl Hb]. unfold md5_append. rewrite Ho.
  destruct (Z.leb_spec (Z.of_nat (length data)) 0) as [Hz|Hz].
  { assert (data = []) as -> by (apply length_zero_iff_nil; lia).
    rewrite app_nil_r. now split. }
  pose proof (count_update _ _ (Z.of_nat (length data)) _ H0 H1 Hc ltac:(lia)) as HC.
  rewrite <- Nat2Z.inj_add, <- length_app in HC. cbn zeta in HC.
  destruct HC as (HC0 & HC1 & HC).
  change (2 ^ 28) with 268435456 in Hn.
  assert (length m mod 64 < 64)%nat as Hm by (apply Nat.mod_upper_bound; lia).
  pose proof (Nat.div_mod_eq (length m) 64) as Hdm.
  set (n := (length m / 64)%nat) in *. set (o := (length m mod 64)%nat) in *.
  assert (exists M, m = M ++ take o (buf st) /\ length M = (64 * n)%nat) as (M & Em & HM).
  { exists (take (64 * n) m). rewrite Hb, take_drop, length_take. split; [done|lia]. }
  assert (blocks n m = blocks n M) as HB by (rewrite Em; apply blocks_prefix; lia).
  rewrite s32_small by lia.
  destruct (Z.eqb_spec (Z.of_nat o) 0) as [Eo|Eo]; cbn [negb].
  - (* no partial block *)
    assert (m = M) as EM.
    { rewrite Em. replace o with 0%nat by lia. now rewrite take_0, app_nil_r. }
    rewrite Ha, HB. pose proof (finish_blocks M data (buf st) n HM Hl) as HF.
    destruct (process_blocks _ _ _ _) as [[r p'] l']. rewrite <- EM in HF.
    destruct HF as (F1 & F2 & F3). now split.
  - (* a partial block: fill it *)
    rewrite Ha, HB, md5_process_compress.
    assert (exists cp,
      (if 64 <? Z.of_nat o + Z.of_nat (length data) then 64 - Z.of_nat o
       else Z.of_nat (length data)) = Z.of_nat cp /\
      ((o + cp < 64 /\ cp = length data) \/ (o + cp = 64 /\ cp <= length data))%nat)
      as (cp & -> & Hcp).
    { destruct (Z.ltb_spec 64 (Z.of_nat o + Z.of_nat (length data)));
        [exists (64 - o)%nat | exists (length data)]; lia. }
    destruct (Z.ltb_spec (Z.of_nat o + Z.of_nat cp) 64) as [Hlt|Hge];
      destruct Hcp as [[? ->]|[? ?]]; try lia.
    + (* it stays partial *)
      rewrite <- HB, Em.
      destruct (fill_partial M _ (buf st) o n data HM Hl eq_refl ltac:(lia)) as (F1 & F2 & F3).
      rewrite Em in HC. now split.
    + (* it becomes full *)
      destruct (fill_full M (buf st) o n data cp HM Hl ltac:(lia) ltac:(lia))
        as (L1 & L2 & L3 & L4).
      rewrite L3, Nat2Z.id. rewrite Em, L4 in HC |- *.
      replace (Z.of_nat (length data) - Z.of_nat cp) with (Z.of_nat (length (drop cp data)))
        by (rewrite length_drop; lia).
      pose proof (finish_blocks _ (drop cp data) _ (S n) L2 L1) as HF.
      destruct (process_blocks _ _ _ _) as [[r p'] l']. destruct HF as (F1 & F2 & F3).
      now split.
Qed.

(** ** The digest *)

Lemma repr_count0 st m :
  repr st m -> count0 st = (8 * Z.of_nat (length m)) mod 2 ^ 32.
Proof.
  intros [H0 H1 Hc _ _ _].
  change (2 ^ 32) with 4294967296 in *. change (2 ^ 64) with 18446744073709551616 in *.
  Z.div_mod_to_equations; lia.
Qed.

Lemma word_bytes_le w : word_bytes w = map (fun i => w / 256 ^ i mod 256) [0; 1; 2; 3].
Proof.
  unfold word_bytes. cbn [map]. unfold u8.
  rewrite !Z.shiftr_div_pow2 by (vm_compute; discriminate). reflexivity.
Qed.

(** The length field: two words, least significant first. *)
Lemma length_field c0 c1 :
  0 <= c0 < 2 ^ 32 -> 0 <= c1 < 2 ^ 32 ->
  word_bytes c0 ++ word_bytes c1 = le64 (c0 + 2 ^ 32 * c1).
Proof.
  change (2 ^ 32) with 4294967296. intros H0 H1. rewrite !word_bytes_le. unfold le64.
  cbn [map app].
  change (256 ^ 0) with 1; change (256 ^ 1) with 256; change (256 ^ 2) with 65536;
  change (256 ^ 3) with 16777216; change (256 ^ 4) with 4294967296;
  change (256 ^ 5) with (4294967296 * 256); change (256 ^ 6) with (4294967296 * 65536);
  change (256 ^ 7) with (4294967296 * 16777216).
  rewrite <- !(Z.div_div (c0 + _)) by lia.
  rewrite !(Z.mul_comm 4294967296 c1), !Z.div_add, (Z.div_small c0 4294967296) by lia.
  cbn [Z.add].
  repeat (apply f_equal2; [Z.div_mod_to_equations; lia|]). reflexivity.
Qed.

Lemma pad_take k : (k <= 63)%nat -> take (S k) pad = 0x80 :: repeat 0 k.
Proof.
  intros Hk. unfold pad. cbn [firstn]. f_equal.
  rewrite <- (Nat.sub_add k 63), Nat.add_comm, repeat_app, take_app_le by (rewrite ?repeat_length; lia).
  apply take_ge. rewrite repeat_length. lia.
Qed.

Lemma npad_eq st m :
  repr st m ->
  Z.land (u32 (55 - Z.shiftr (count0 st) 3)) 63 + 1
  = Z.of_nat (S ((119 - length m mod 64) mod 64)).
Proof.
  intros HR. rewrite (repr_count0 st m HR). change 63 with (Z.ones 6).
  rewrite Z.land_ones, Z.shiftr_div_pow2 by lia. unfold u32.
  rewrite Nat2Z.inj_succ, Nat2Z.inj_mod, Nat2Z.inj_sub, Nat2Z.inj_mod
    by (pose proof (Nat.mod_upper_bound (length m) 64); lia).
  set (l := Z.of_nat (length m)).
  change (2 ^ 32) with 4294967296. change (2 ^ 3) with 8. change (2 ^ 6) with 64.
  change (Z.of_nat 64) with 64. change (Z.of_nat 119) with 119.
  assert (((8 * l) mod 4294967296) / 8 mod 64 = l mod 64) as E
    by (Z.div_mod_to_equations; lia).
  rewrite (Z.mod_mod_divide _ 4294967296 64) by now exists 67108864.
  rewrite Zminus_mod, E. change (55 mod 64) with 55.
  Z.div_mod_to_equations; lia.
Qed.

Lemma md5_finish_repr st m :
  repr st m -> repr (md5_finish st).1 (m ++ padding (length m)).
Proof.
  intros HR. unfold md5_finish. cbn [fst]. rewrite (npad_eq st m HR).
  set (k := ((119 - length m mod 64) mod 64)%nat).
  assert (k <= 63)%nat as Hk by (unfold k; pose proof (Nat.mod_upper_bound (119 - length m mod 64) 64); lia).
  rewrite Nat2Z.id, pad_take by done.
  set (p1 := 0x80 :: repeat 0 k). set (p2 := word_bytes _ ++ word_bytes _).
  assert (length p1 = S k) as L1 by (unfold p1; cbn [length]; now rewrite repeat_length).
  assert (p2 = le64 ((8 * Z.of_nat (length m)) mod 2 ^ 64)) as E2.
  { unfold p2. rewrite length_field, (repr_count st m HR) by apply HR. done. }
  assert (length p2 = 8%nat) as L2 by (rewrite E2; reflexivity).
  rewrite <- L1. replace 8 with (Z.of_nat (length p2)) by (rewrite L2; reflexivity).
  pose proof (md5_append_repr st m p1 HR ltac:(lia)) as HR1.
  pose proof (md5_append_repr _ _ p2 HR1 ltac:(lia)) as HR2.
  now replace (m ++ padding (length m)) with ((m ++ p1) ++ p2)
    by (rewrite E2, <- app_assoc; reflexivity).
Qed.

Lemma md5_finish_spec st m : repr st m -> (md5_finish st).2 = md5 m.
Proof.
  intros HR. apply md5_finish_repr in HR. unfold md5. rewrite <- (repr_abcd _ _ HR). reflexivity.
Qed.

Lemma md5_stream_repr b chunks :
  length b = 64%nat -> Forall (fun c => Z.of_nat (length c) < 2 ^ 28) chunks ->
  repr (foldl (fun st c => md5_append st c (Z.of_nat (length c))) (md5_init b) chunks)
       (concat chunks).
Proof.
  intros Hb. induction chunks as [|c chunks IH] using rev_ind; intros HF.
  - now apply repr_init.
  - apply Forall_app in HF as [HF Hc]. rewrite foldl_app, concat_app. cbn [foldl concat].
    rewrite app_nil_r. apply md5_append_repr; [now apply IH|]. now inversion Hc.
Qed.

(** C36. Streaming equivalence: however a message is cut into [md5_append] calls
    (each below 2^28 bytes, where no [int] of the code overflows) and whatever
    [buf] held initially, [md5_finish] produces the RFC 1321 digest of the
    concatenation. *)
Theorem md5_streaming_rfc1321 (b : list Z) (chunks : list (list Z)) :
  length b = 64%nat -> Forall (fun c => Z.of_nat (length c) < 2 ^ 28) chunks ->
  (md5_finish
     (foldl (fun st c => md5_append st c (Z.of_nat (length c))) (md5_init b) chunks)).2
  = md5 (concat chunks).
Proof. intros. now apply md5_finish_spec, md5_stream_repr. Qed.

Lemma md5_streaming_rfc1321_witness :
  (md5_finish
     (foldl (fun st c => md5_append st c (Z.of_nat (length c))) (md5_init (repeat 7 64))
        [B# "a"; B# "bc"])).2 = md5 (B# "abc").
Proof.
  apply (md5_streaming_rfc1321 (repeat 7 64) [B# "a"; B# "bc"]).
  - reflexivity.
  - repeat constructor.
Defined.

(** The digest of the RFC test suite (section A.5) for the message abc. *)
Example md5_abc :
  md5 (B# "abc") =
    [0x90; 0x01; 0x50; 0x98; 0x3c; 0xd2; 0x4f; 0xb0; 0xd6; 0x96; 0x3f; 0x7d; 0x28; 0xe1; 0x7f; 0x72].
Proof. vm_compute. reflexivity. Qed.

Example md5_empty :
  md5 [] =
    [0xd4; 0x1d; 0x8c; 0xd9; 0x8f; 0x00; 0xb2; 0x04; 0xe9; 0x80; 0x09; 0x98; 0xec; 0xf8; 0x42; 0x7e].
Proof. vm_compute. reflexivity. Qed.

End Md5.
