(* ===== verification/CLib.v ===== *)
(** * The C library functions the sources use

    Strings are lists of bytes without the terminator; a character pointer into
    a string is the suffix it points to, and reading at the end yields 0. The
    character classes are those of the C locale. *)

From S2P Require Import Prelude.

Open Scope Z_scope.

(** ** Characters *)

Definition isspace (c : Z) : bool := ((9 <=? c) && (c <=? 13)) || (c =? 32).
Definition isdigit (c : Z) : bool := (48 <=? c) && (c <=? 57).
Definition isupper (c : Z) : bool := (65 <=? c) && (c <=? 90).
Definition islower (c : Z) : bool := (97 <=? c) && (c <=? 122).
Definition isalpha (c : Z) : bool := isupper c || islower c.
Definition isalnum (c : Z) : bool := isalpha c || isdigit c.
Definition tolower (c : Z) : Z := if isupper c then c + 32 else c.

(** The character a pointer points to. *)
Definition peek (p : list Z) : Z := match p with [] => 0 | c :: _ => c end.

(** The part of a byte buffer before its first NUL. *)
Fixpoint cstr (l : list Z) : list Z :=
  match l with
  | [] => []
  | c :: l => if c =? 0 then [] else c :: cstr l
  end.

(** ** Scanning *)

(** [while (f( *p)) ++p] stops at the terminator; the skipped part and the rest. *)
Fixpoint span (f : Z -> bool) (p : list Z) : list Z * list Z :=
  match p with
  | [] => ([], [])
  | c :: q => if f c then let (a, b) := span f q in (c :: a, b) else ([], p)
  end.

Definition skip (f : Z -> bool) (p : list Z) : list Z := (span f p).2.

Definition skip_spaces : list Z -> list Z := skip isspace.

(** Drops the trailing characters that satisfy [f]. *)
Definition rtrim (f : Z -> bool) (l : list Z) : list Z := rev (skip f (rev l)).

(** [strncasecmp(a, b, n)] *)
Fixpoint strncasecmp (a b : list Z) (n : nat) : Z :=
  match n with
  | O => 0
  | S n =>
      let d := tolower (peek a) - tolower (peek b) in
      if negb (d =? 0) then d
      else if peek a =? 0 then 0
      else strncasecmp (tail a) (tail b) n
  end.

(** [strchr(s, c) != NULL] for a nonzero [c]. *)
Definition strchr_found (s : list Z) (c : Z) : bool := existsb (Z.eqb c) (cstr s).

(** The value of a run of decimal digits. *)
Definition dec_value (l : list Z) : Z := foldl (fun v c => 10 * v + (c - 48)) 0 l.

(** [%u] of [sscanf]: white space, an optional sign, digits ([strtoul], which
    saturates, then stored in 32 bits). The value and the rest of the input. *)
Definition scan_u (p : list Z) : option (Z * list Z) :=
  let p := skip_spaces p in
  let neg := peek p =? 45 in
  let p := if neg || (peek p =? 43) then tail p else p in
  let (ds, p) := span isdigit p in
  match ds with
  | [] => None
  | _ =>
      let v := dec_value ds in
      Some (u32 (if UINT64_MAX <? v then UINT64_MAX else if neg then - v else v), p)
  end.

(** A literal of a [sscanf] format. *)
Fixpoint scan_lit (lit p : list Z) : option (list Z) :=
  match lit, p with
  | [], _ => Some p
  | c :: lit, d :: p => if c =? d then scan_lit lit p else None
  | _ :: _, [] => None
  end.

(** ** Formatting *)

Definition hex_digit (d : Z) : Z := if d <? 10 then 48 + d else 87 + d.

(** ["%0nx"]: the [n] low hexadecimal digits. *)
Fixpoint hex_digits (n : nat) (z : Z) : list Z :=
  match n with
  | O => []
  | S n => hex_digits n (z / 16) ++ [hex_digit (z mod 16)]
  end.

(** ["%u"] *)
Fixpoint dec_digits (fuel : nat) (z : Z) : list Z :=
  match fuel with
  | O => []
  | S fuel => if z <? 10 then [48 + z] else dec_digits fuel (z / 10) ++ [48 + z mod 10]
  end.

(** Twenty digits are enough for 64 bits. *)
Definition format_u (z : Z) : list Z := dec_digits 20 z.

(** [inet_ntoa] *)
Definition inet_ntoa (addr : Z) : list Z :=
  let b := be32 addr in
  format_u (nth 0 b 0) ++ [46] ++ format_u (nth 1 b 0) ++ [46] ++
  format_u (nth 2 b 0) ++ [46] ++ format_u (nth 3 b 0).

(** ** Numbers in any base *)

Definition isxdigit (c : Z) : bool := isdigit c || ((97 <=? tolower c) && (tolower c <=? 102)).
Definition isoctal (c : Z) : bool := (48 <=? c) && (c <=? 55).

Definition digit_value (c : Z) : Z := if isdigit c then c - 48 else tolower c - 87.

Definition base_value (b : Z) (l : list Z) : Z := foldl (fun v c => b * v + digit_value c) 0 l.

(** [strtoul(p, &end, 0)] with a 64-bit [unsigned long]: the value, which
    saturates, and [end], which is [p] itself when there is no number. *)
Definition strtoul0 (p : list Z) : Z * list Z :=
  let q := skip_spaces p in
  let neg := peek q =? 45 in
  let q := if neg || (peek q =? 43) then tail q else q in
  let fin (b : Z) (r : list Z * list Z) :=
    let v := base_value b r.1 in
    ((if UINT64_MAX <? v then UINT64_MAX else if neg then u64 (- v) else v), r.2) in
  if (peek q =? 48) && (tolower (peek (tail q)) =? 120) && isxdigit (peek (tail (tail q))) then
    fin 16 (span isxdigit (tail (tail q)))
  else if peek q =? 48 then fin 8 (span isoctal q)
  else if isdigit (peek q) then fin 10 (span isdigit q)
  else (0, p).

(** [inet_aton] (bionic): one to four numbers separated by dots, the last one
    filling the remaining bytes; the address in host order. *)
Fixpoint aton_parts (fuel : nat) (p : list Z) : option (list Z) :=
  match fuel with
  | O => None
  | S fuel =>
      let (v, e) := strtoul0 p in
      if (length e =? length p)%nat then None
      else match e with
           | [] => Some [v]
           | c :: e => if c =? 46 then (fun l => v :: l) <$> aton_parts fuel e else None
           end
  end.

Definition inet_aton (p : list Z) : option Z :=
  match aton_parts 4 p with
  | Some [a] => if a <=? 0xffffffff then Some a else None
  | Some [a; b] => if (a <=? 0xff) && (b <=? 0xffffff) then Some (a * 0x1000000 + b) else None
  | Some [a; b; c] =>
      if (a <=? 0xff) && (b <=? 0xff) && (c <=? 0xffff)
      then Some (a * 0x1000000 + b * 0x10000 + c) else None
  | Some [a; b; c; d] =>
      if (a <=? 0xff) && (b <=? 0xff) && (c <=? 0xff) && (d <=? 0xff)
      then Some (a * 0x1000000 + b * 0x10000 + c * 0x100 + d) else None
  | _ => None
  end.

(** The suffix of [p] from the first occurrence of a substring or character on. *)
Fixpoint strstr (p sub : list Z) : option (list Z) :=
  match scan_lit sub p with
  | Some _ => Some p
  | None => match p with [] => None | _ :: p => strstr p sub end
  end.

(** ** Lemmas *)

Lemma span_app f p : (span f p).1 ++ (span f p).2 = p.
Proof.
  induction p as [|c p IH]; [done|]. cbn [span]. destruct (f c); [|done].
  destruct (span f p). cbn in *. now rewrite IH.
Qed.

Lemma skip_length f p : (length (skip f p) <= length p)%nat.
Proof.
  unfold skip. pose proof (f_equal length (span_app f p)) as E.
  rewrite length_app in E. lia.
Qed.

Lemma span_all f p q :
  forallb f p = true -> f (peek q) = false -> span f (p ++ q) = (p, q).
Proof.
  intros Hp Hq. induction p as [|c p IH]; cbn [app].
  - destruct q as [|c q]; [done|]. cbn [span]. cbn [peek] in Hq. now rewrite Hq.
  - cbn [forallb] in Hp. apply andb_true_iff in Hp as [Hc Hp].
    cbn [span]. now rewrite Hc, IH.
Qed.

Lemma skip_all f p q :
  forallb f p = true -> f (peek q) = false -> skip f (p ++ q) = q.
Proof. intros. unfold skip. now rewrite span_all. Qed.

Lemma skip_none f q : f (peek q) = false -> skip f q = q.
Proof. intros. now apply (skip_all f [] q). Qed.

Lemma hex_digits_length n z : length (hex_digits n z) = n.
Proof.
  revert z. induction n as [|n IH]; intros z; [done|].
  cbn [hex_digits]. rewrite length_app, IH. cbn. lia.
Qed.

(** ** Decimal numbers *)

Lemma dec_value_snoc l d : dec_value (l ++ [d]) = 10 * dec_value l + (d - 48).
Proof. unfold dec_value. now rewrite foldl_app. Qed.

Lemma dec_digits_value fuel : forall z, 0 <= z < 10 ^ Z.of_nat fuel -> (0 < fuel)%nat ->
  dec_value (dec_digits fuel z) = z.
Proof.
  induction fuel as [|fuel IH]; intros z Hz Hf; [lia|]. cbn [dec_digits].
  destruct (Z.ltb_spec z 10); [unfold dec_value; cbn [foldl]; lia|].
  rewrite dec_value_snoc. rewrite Nat2Z.inj_succ, Z.pow_succ_r in Hz by lia.
  destruct fuel as [|fuel].
  { cbn in Hz. lia. }
  rewrite IH; [Z.div_mod_to_equations; lia| |lia].
  split; [apply Z.div_pos; lia|]. apply Z.div_lt_upper_bound; lia.
Qed.

Lemma dec_digits_digits fuel : forall z, 0 <= z -> forallb isdigit (dec_digits fuel z) = true.
Proof.
  assert (forall d, 0 <= d < 10 -> isdigit (48 + d) = true) as Hd
    by (intros d Hd; unfold isdigit; lia).
  induction fuel as [|fuel IH]; intros z Hz; [done|]. cbn [dec_digits].
  destruct (Z.ltb_spec z 10); [cbn [forallb]; now rewrite Hd by lia|].
  rewrite forallb_app, IH by (apply Z.div_pos; lia). cbn [forallb].
  now rewrite Hd by (apply Z.mod_pos_bound; lia).
Qed.

Lemma format_u_nonempty z : format_u z <> [].
Proof.
  unfold format_u. cbn [dec_digits]. destruct (z <? 10); [done|].
  intros H. apply (f_equal length) in H. rewrite length_app in H. cbn in H. lia.
Qed.
