(* ===== verification/HttpAuth.v ===== *)
(** * HTTP authentication: [redsocks/http-auth.c]

    The Basic and Digest credentials redsocks sends to an HTTP proxy, with the
    parameter scanner of the challenge. *)

From S2P Require Import Prelude CLib Base64 Md5.
Import Base64 Md5.

Open Scope Z_scope.

Module HttpAuth.

(** ** Basic *)

(** [basic_authentication_encode]: the base64 text without its terminator. *)
Definition basic_authentication_encode (user passwd : list Z) : option (list Z) :=
  let pair := user ++ [58] ++ passwd in
  let pair_len := Z.of_nat (length user) + 1 + Z.of_nat (length passwd) in
  let basic_len := BASE64_SIZE pair_len in
  match base64_encode basic_len pair pair_len with
  | None => None
  | Some s => Some (cstr s)
  end.

(** ** The challenge *)

(** [extract_param]: the advanced source pointer, and the name and value when
    the function returns 1. *)
Definition extract_param (source : list Z) (separator : Z) : list Z * option (list Z * list Z) :=
  let at_sep p := peek p =? separator in
  let past_sep p := if at_sep p then tail p else p in
  let p := skip_spaces source in
  match p with
  | [] => (p, None)
  | _ =>
      let (name, p) := span (fun c => negb (c =? 0) && negb (isspace c) && negb (c =? 61)
                                      && negb (c =? separator)) p in
      match name with
      | [] => (source, None)
      | _ =>
          let p := skip_spaces p in
          if at_sep p || (peek p =? 0) then (past_sep p, Some (name, []))
          else if negb (peek p =? 61) then (source, None)
          else
            let p := skip_spaces (tail p) in
            if peek p =? 34 then
              let (value, p) := span (fun c => negb (c =? 0) && negb (c =? 34)) (tail p) in
              if peek p =? 0 then (source, None)
              else
                let p := skip_spaces (tail p) in
                let p := skip (fun c => negb (c =? 0) && negb (c =? separator)) p in
                if at_sep p then (tail p, Some (name, value))
                else if negb (peek p =? 0) then (source, None)
                else (p, Some (name, value))
            else
              let (value, p) := span (fun c => negb (c =? 0) && negb (c =? separator)) p in
              (past_sep p, Some (name, rtrim isspace value))
      end
  end.

(** The parameters [digest_authentication_encode] remembers. *)
Record digest_params := DigestParams {
  realm : option (list Z); opaque : option (list Z);
  nonce : option (list Z); qop : option (list Z);
}.

Definition no_params : digest_params := DigestParams None None None None.

(** The [if ... else if] chain of the loop. The comparison is over the length
    of the name found in the challenge. *)
Definition store_param (st : digest_params) (name value : list Z) : digest_params :=
  let names s := strncasecmp name s (length name) =? 0 in
  if names (B# "realm") then DigestParams (Some value) (opaque st) (nonce st) (qop st)
  else if names (B# "opaque") then DigestParams (realm st) (Some value) (nonce st) (qop st)
  else if names (B# "nonce") then DigestParams (realm st) (opaque st) (Some value) (qop st)
  else if names (B# "qop") then DigestParams (realm st) (opaque st) (nonce st) (Some value)
  else st.

(** [while (extract_param(&ptr, &name, &value, ','))] *)
Fixpoint param_loop (fuel : nat) (ptr : list Z) (st : digest_params) : digest_params :=
  match fuel with
  | O => st
  | S fuel =>
      match extract_param ptr 44 with
      | (_, None) => st
      | (ptr, Some (name, value)) => param_loop fuel ptr (store_param st name value)
      end
  end.

(** ** Digest *)

Definition dump_hash (hash : list Z) : list Z := flat_map (hex_digits 2) hash.

(** [md5_init], a sequence of [md5_append] over whole strings, [md5_finish],
    [dump_hash]; the context keeps its old [buf]. *)
Definition hash_parts (ctx : md5_state) (parts : list (list Z)) : md5_state * list Z :=
  let ctx := md5_init (buf ctx) in
  let ctx := foldl (fun st s => md5_append st s (Z.of_nat (length s))) ctx parts in
  let (ctx, hash) := md5_finish ctx in
  (ctx, dump_hash hash).

Definition quote (name value : list Z) : list Z := name ++ [61; 34] ++ value ++ [34].
Definition comma : list Z := B# ", ".

(** The final string. [None] stands for NULL. [ctx] is the uninitialised MD5
    context on the stack. *)
Definition digest_authentication_encode (ctx : md5_state) (line : list Z)
    (user passwd : option (list Z)) (method path : list Z) (count : Z) (cnonce : list Z)
  : option (list Z) :=
  let nc := hex_digits 8 (u32 count) in
  let st := param_loop (S (length line)) line no_params in
  match realm st, nonce st, user, passwd with
  | Some realm, Some nonce, Some user, Some passwd =>
      if match qop st with
         | Some q => negb (strncasecmp q (B# "auth") 5 =? 0)
         | None => false
         end then None
      else
        let (ctx, a1buf) := hash_parts ctx [user; [58]; realm; [58]; passwd] in
        let (ctx, a2buf) := hash_parts ctx [method; [58]; path] in
        let (ctx, response) :=
          hash_parts ctx
            ([a1buf; [58]; nonce; [58]] ++
             match qop st with
             | Some q => [nc; [58]; cnonce; [58]; q; [58]]
             | None => []
             end ++ [a2buf]) in
        Some
          (quote (B# "username") user ++ comma ++ quote (B# "realm") realm ++ comma ++
           quote (B# "nonce") nonce ++ comma ++ quote (B# "uri") path ++ comma ++
           quote (B# "response") response ++
           match qop st with
           | Some q => comma ++ (B# "qop=") ++ q ++ comma ++ (B# "nc=") ++ nc ++ comma ++
                       quote (B# "cnonce") cnonce
           | None => []
           end ++
           match opaque st with
           | Some o => comma ++ quote (B# "opaque") o
           | None => []
           end)
  | _, _, _, _ => None
  end.


(** ** The scanner makes progress *)

Lemma span_snd_length f p : (length (span f p).2 <= length p)%nat.
Proof. apply (skip_length f p). Qed.

Lemma tail_length {A} (p : list A) : (length (tail p) <= length p)%nat.
Proof. destruct p; cbn; lia. Qed.

Lemma extract_param_shorter source sep ptr name value :
  extract_param source sep = (ptr, Some (name, value)) ->
  (length ptr < length source)%nat.
Proof.
  unfold extract_param, skip_spaces.
  pose proof (skip_length isspace source) as L0.
  destruct (skip isspace source) as [|c p] eqn:E0; [done|].
  pose proof (f_equal length (span_app (fun c => negb (c =? 0) && negb (isspace c)
     && negb (c =? 61) && negb (c =? sep)) (c :: p))) as L1.
  destruct (span _ (c :: p)) as [nm p1]. rewrite length_app in L1. cbn [fst snd] in L1.
  destruct nm as [|n0 nm]; [done|]. cbn [length] in L1.
  pose proof (skip_length isspace p1) as L2. set (p2 := skip isspace p1) in *.
  pose proof (tail_length p2) as L3.
  destruct ((peek p2 =? sep) || (peek p2 =? 0)).
  { destruct (peek p2 =? sep); intros [= <- <- <-]; cbn [length] in *; lia. }
  destruct (negb (peek p2 =? 61)); [done|].
  pose proof (skip_length isspace (tail p2)) as L4. set (p3 := skip isspace (tail p2)) in *.
  pose proof (tail_length p3) as L5.
  destruct (peek p3 =? 34).
  - pose proof (span_snd_length (fun c => negb (c =? 0) && negb (c =? 34)) (tail p3)) as L6.
    destruct (span _ (tail p3)) as [v p4]. cbn [snd] in L6.
    destruct (peek p4 =? 0); [done|].
    pose proof (tail_length p4) as L7.
    pose proof (skip_length isspace (tail p4)) as L8.
    match goal with |- context [skip ?f (skip isspace (tail p4))] =>
      pose proof (skip_length f (skip isspace (tail p4))) as L9;
      set (p5 := skip f (skip isspace (tail p4))) in * end.
    pose proof (tail_length p5) as L10.
    destruct (peek p5 =? sep); [|destruct (negb (peek p5 =? 0)); [done|]];
      intros [= <- <- <-]; cbn [length] in *; lia.
  - match goal with |- context [span ?f p3] => pose proof (span_snd_length f p3) as L6 end.
    destruct (span _ p3) as [v p4]. cbn [snd] in L6. pose proof (tail_length p4) as L7.
    destruct (peek p4 =? sep); intros [= <- <- <-]; cbn [length] in *; lia.
Qed.

(** The parameters in order. *)
Fixpoint extract_all (fuel : nat) (ptr : list Z) : list (list Z * list Z) :=
  match fuel with
  | O => []
  | S fuel =>
      match extract_param ptr 44 with
      | (_, None) => []
      | (ptr, Some nv) => nv :: extract_all fuel ptr
      end
  end.

Lemma extract_all_fuel fuel : forall fuel' ptr,
  (length ptr < fuel)%nat -> (length ptr < fuel')%nat ->
  extract_all fuel ptr = extract_all fuel' ptr.
Proof.
  induction fuel as [|fuel IH]; intros [|fuel'] ptr H1 H2; try lia.
  cbn [extract_all]. destruct (extract_param ptr 44) as [ptr' [[n v]|]] eqn:E; [|done].
  apply extract_param_shorter in E. f_equal. apply IH; lia.
Qed.

Lemma param_loop_all fuel : forall ptr st,
  param_loop fuel ptr st =
    foldl (fun st nv => store_param st nv.1 nv.2) st (extract_all fuel ptr).
Proof.
  induction fuel as [|fuel IH]; intros ptr st; [done|].
  cbn [param_loop extract_all]. destruct (extract_param ptr 44) as [ptr' [[n v]|]]; [|done].
  cbn [foldl fst snd]. apply IH.
Qed.

(** ** Scanning what was printed *)

(** A name and a value that a challenge can carry in quoted form. *)
Definition param_ok (nv : list Z * list Z) : bool :=
  match nv.1 with [] => false | _ => true end &&
  forallb (fun c => negb (c =? 0) && negb (isspace c) && negb (c =? 61) && negb (c =? 44)) nv.1 &&
  forallb (fun c => negb (c =? 0) && negb (c =? 34)) nv.2.

Fixpoint print_params (l : list (list Z * list Z)) : list Z :=
  match l with
  | [] => []
  | [(n, v)] => quote n v
  | (n, v) :: l => quote n v ++ comma ++ print_params l
  end.

Lemma extract_param_quoted n v sp rest :
  param_ok (n, v) = true -> forallb isspace sp = true ->
  let p := skip (fun c => negb (c =? 0) && negb (c =? 44)) (skip isspace rest) in
  extract_param (sp ++ quote n v ++ rest) 44 =
    if peek p =? 44 then (tail p, Some (n, v))
    else if negb (peek p =? 0) then (sp ++ quote n v ++ rest, None) else (p, Some (n, v)).
Proof.
  unfold param_ok. cbn [fst snd]. intros Hok Hsp. cbv zeta.
  apply andb_true_iff in Hok as [Hok Hv]. apply andb_true_iff in Hok as [Hne Hn].
  destruct n as [|c n]; [done|]. clear Hne.
  unfold extract_param, skip_spaces, quote. rewrite <- !app_assoc.
  assert (isspace c = false) as Hc.
  { cbn [forallb] in Hn. destruct (isspace c); [|done].
    now destruct (c =? 0), (c =? 61), (c =? 44). }
  rewrite (skip_all isspace sp) by done. cbn [app].
  change (c :: n ++ ?q) with ((c :: n) ++ q).
  rewrite (span_all _ (c :: n)) by done. cbn [app].
  rewrite (skip_none isspace (61 :: _)) by done. cbn [peek Z.eqb orb negb tail].
  change (61 =? 44) with false. change (61 =? 61) with true. cbn [orb negb].
  rewrite (skip_none isspace (34 :: _)) by done. cbn [peek tail].
  change (34 =? 34) with true. cbv iota.
  rewrite (span_all _ v) by done. cbn [peek tail app].
  change (34 =? 0) with false. cbv iota. reflexivity.
Qed.

Lemma extract_param_printed n v sp rest :
  param_ok (n, v) = true -> forallb isspace sp = true ->
  rest = [] \/ peek rest = 44 ->
  extract_param (sp ++ quote n v ++ rest) 44 = (tail rest, Some (n, v)).
Proof.
  intros Hok Hsp Hrest. rewrite extract_param_quoted by done.
  destruct Hrest as [->|Hr]; [now cbn|].
  rewrite (skip_none isspace rest) by now rewrite Hr.
  rewrite (skip_none _ rest) by now rewrite Hr. now rewrite Hr.
Qed.

Lemma extract_all_printed l : forall fuel sp,
  forallb param_ok l = true -> forallb isspace sp = true ->
  (length (sp ++ print_params l) < fuel)%nat ->
  extract_all fuel (sp ++ print_params l) = l.
Proof.
  induction l as [|[n v] l IH]; intros fuel sp Hl Hsp Hf; (destruct fuel as [|fuel]; [lia|]).
  - cbn [print_params extract_all]. rewrite app_nil_r. unfold extract_param.
    replace (skip_spaces sp) with (@nil Z); [done|].
    symmetry. rewrite <- (app_nil_r sp). now apply skip_all.
  - cbn [forallb] in Hl. apply andb_true_iff in Hl as [Hnv Hl].
    destruct l as [|nv l].
    + cbn [print_params extract_all]. rewrite <- (app_nil_r (quote n v)).
      rewrite extract_param_printed by auto. cbn [tail]. destruct fuel; reflexivity.
    + change (print_params ((n, v) :: nv :: l))
        with (quote n v ++ 44 :: [32] ++ print_params (nv :: l)) in *.
      cbn [extract_all]. rewrite extract_param_printed by auto. cbn [tail]. f_equal.
      apply IH; [done|done|]. rewrite !length_app in *. cbn [length] in *.
      rewrite !length_app in Hf. cbn [length] in Hf. lia.
Qed.

(** ** Theorems *)

Lemma rfc4648_nonzero l : bytes l -> cstr (rfc4648 l ++ [0]) = rfc4648 l.
Proof.
  assert (forall d r, 0 <= d < 64 -> cstr (b64_at d :: r) = b64_at d :: cstr r) as Hd.
  { intros d r Hd. cbn [cstr]. now destruct (b64_digit d Hd) as (_ & -> & _). }
  induction l as [|a|a b|a b c l IH] using list_ind_3; intros Hb; split_bytes;
    unfold is_byte in *; cbn [rfc4648 app]; [done|..];
    rewrite ?Hd by (Z.div_mod_to_equations; lia); [done..|].
  now rewrite IH.
Qed.

(** The Basic credentials decode to the user name, a colon and the password
    (RFC 2617 section 2), for every pair the length check admits. *)
Lemma basic_credentials_decode (user passwd : list Z) :
  bytes user -> bytes passwd ->
  Z.of_nat (length user) + 1 + Z.of_nat (length passwd) < UINT_MAX / 4 ->
  exists s, basic_authentication_encode user passwd = Some s /\
    base64_decode s (Z.of_nat (length (user ++ [58] ++ passwd))) = Some (user ++ [58] ++ passwd).
Proof.
  intros Hu Hp Hn. set (pair := user ++ [58] ++ passwd).
  assert (bytes pair) as Hb
    by (apply bytes_app; split; [done|]; apply bytes_app; split; [now apply (bytesb_bytes [58])|done]).
  assert (Z.of_nat (length user) + 1 + Z.of_nat (length passwd) = Z.of_nat (length pair)) as E
    by (unfold pair; rewrite !length_app; cbn [length]; lia).
  exists (rfc4648 pair). unfold basic_authentication_encode. fold pair. rewrite E in *.
  rewrite base64_encode_rfc by (auto; lia).
  rewrite Nat2Z.id, firstn_all, rfc4648_nonzero by done. split; [done|].
  unfold base64_decode. rewrite <- (app_nil_r (rfc4648 pair)).
  apply (decode_rfc pair [] (or_introl eq_refl) 0 0 []); [done|cbn [length]; lia].
Qed.

Lemma basic_credentials_decode_witness :
  exists s, basic_authentication_encode (B# "Aladdin") (B# "open sesame") = Some s /\
    base64_decode s 19 = Some (B# "Aladdin:open sesame").
Proof.
  apply (basic_credentials_decode (B# "Aladdin") (B# "open sesame"));
    [apply bytes_of_string_bytes | apply bytes_of_string_bytes | reflexivity].
Defined.

(** Scanning a challenge printed from a list of quoted parameters gives the
    list back, and the loop of [digest_authentication_encode] stores exactly
    these parameters, in order; the fuel of the loop never cuts it short. *)
Lemma challenge_roundtrip (l : list (list Z * list Z)) (fuel : nat) :
  forallb param_ok l = true -> (length (print_params l) < fuel)%nat ->
  extract_all fuel (print_params l) = l /\
  param_loop (S (length (print_params l))) (print_params l) no_params =
    foldl (fun st nv => store_param st nv.1 nv.2) no_params l.
Proof.
  intros Hl Hf. split.
  - apply (extract_all_printed l fuel []); auto.
  - rewrite param_loop_all. f_equal. apply (extract_all_printed l _ []); auto.
Qed.

Lemma challenge_roundtrip_witness :
  let l := [(B# "realm", B# "a, b"); (B# "nonce", B# "xyz")] in
  extract_all 100 (print_params l) = l /\
  param_loop (S (length (print_params l))) (print_params l) no_params =
    DigestParams (Some (B# "a, b")) None (Some (B# "xyz")) None.
Proof.
  exact (challenge_roundtrip [(B# "realm", B# "a, b"); (B# "nonce", B# "xyz")] 100
           eq_refl ltac:(vm_compute; lia)).
Defined.

(** ** The digest *)

(** RFC 2617 section 3.2.2: the request digest. *)
Definition hex_md5 (m : list Z) : list Z := dump_hash (Rfc1321.md5 m).

Definition colon (parts : list (list Z)) : list Z :=
  match parts with
  | [] => []
  | p :: ps => p ++ flat_map (fun q => 58 :: q) ps
  end.

Definition request_digest (user realm passwd method path nonce nc cnonce : list Z)
    (qop : option (list Z)) : list Z :=
  let ha1 := hex_md5 (colon [user; realm; passwd]) in
  let ha2 := hex_md5 (colon [method; path]) in
  match qop with
  | Some q => hex_md5 (colon [ha1; nonce; nc; cnonce; q; ha2])
  | None => hex_md5 (colon [ha1; nonce; ha2])
  end.











(** The quality of protection the code can serve. *)
Definition qop_ok (q : option (list Z)) : bool :=
  match q with Some q => strncasecmp q (B# "auth") 5 =? 0 | None => true end.




Example digest_rfc2617_example :
  request_digest (B# "Mufasa") (B# "testrealm@host.com") (B# "Circle Of Life") (B# "GET")
    (B# "/dir/index.html") (B# "dcd98b7102dd2f0e8b11d0f600bfb0c093") (B# "00000001")
    (B# "0a4f113b") (Some (B# "auth")) = B# "6629fae49393a05397450978507c4ef1".
Proof. vm_compute. reflexivity. Qed.

(** No credentials are produced without a realm, a nonce, a user name or a
    password, or for another quality of protection. *)
Lemma digest_refuses (ctx : md5_state) (line : list Z) (user passwd : option (list Z))
    (method path : list Z) (count : Z) (cnonce : list Z) :
  let st := param_loop (S (length line)) line no_params in
  digest_authentication_encode ctx line user passwd method path count cnonce = None <->
  realm st = None \/ nonce st = None \/ user = None \/ passwd = None \/ qop_ok (qop st) = false.
Proof.
  intros st. unfold digest_authentication_encode. fold st. unfold qop_ok.
  destruct (realm st), (nonce st), user, passwd; try (split; [intros _; tauto|done]).
  destruct (qop st) as [q|]; [destruct (strncasecmp q (B# "auth") 5 =? 0) eqn:E|]; cbn [negb];
    repeat (destruct (hash_parts _ _)); split; naive_solver.
Qed.

(** A parameter whose name is a proper prefix of [realm] is taken for the
    realm: the comparison runs over the length of the received name only. *)
Lemma prefix_taken_for_realm (k : nat) (value : list Z) (st : digest_params) :
  realm (store_param st (take k (B# "realm")) value) = Some value.
Proof. do 6 (destruct k as [|k]; [reflexivity|]). destruct k; reflexivity. Qed.

(** Text between a closing quote and the next comma is skipped, although the
    comment in [extract_param] announces an error for it. *)
Lemma garbage_after_quote_accepted (n v garbage : list Z) :
  param_ok (n, v) = true -> forallb (fun c => negb (c =? 0) && negb (c =? 44)) garbage = true ->
  extract_param (quote n v ++ garbage) 44 = ([], Some (n, v)).
Proof.
  intros Hnv Hg. rewrite <- (app_nil_l (quote n v ++ garbage)).
  rewrite extract_param_quoted by done.
  assert (skip (fun c => negb (c =? 0) && negb (c =? 44)) (skip isspace garbage) = []) as ->;
    [|done].
  rewrite <- (app_nil_r (skip isspace garbage)). apply skip_all; [|done].
  apply forallb_forall. intros x Hx. eapply forallb_forall in Hg; [exact Hg|].
  rewrite <- (span_app isspace garbage). apply in_or_app. now right.
Qed.

Lemma garbage_after_quote_accepted_witness :
  extract_param (quote (B# "foo") (B# "bar") ++ B# "baz") 44 = ([], Some (B# "foo", B# "bar")).
Proof. apply (garbage_after_quote_accepted (B# "foo") (B# "bar") (B# "baz")); reflexivity. Defined.

End HttpAuth.
