(* ===== verification/RedWorld.v ===== *)
(** * The world of redsocks: data of [redsocks.h] and the effects of its code

    The state the handlers of [redsocks.c], [socks4.c], [socks5.c] and
    [http-connect.c] share: the instances, the connected clients, the connection
    pressure variables, and the file descriptors closed so far. Handlers are
    computations of a state and fault monad over it. A client that was dropped
    is absent from the store, so touching it is a fault ([UseAfterFree]), and a
    failing [assert] is a fault ([AssertFailed]).

    The kernel and libevent answer through [w_script], the list of the results
    of the calls in the order they are made (an exhausted script answers 0, the
    success of every call used here); theorems quantify over all scripts. The
    calls that only register or unregister events answer through [w_evscript],
    so that a theorem can assume a working event backend ([w_evscript = []]). A
    socket buffer of libevent ([struct bufferevent] with its two [evbuffer]s) is
    a pair of byte queues. Logging, and clock reads used only for logging, are
    left out. *)

From S2P Require Import Prelude.

Open Scope Z_scope.

(** ** Constants *)

Definition EV_TIMEOUT : Z := 0x01.
Definition EV_READ : Z := 0x02.
Definition EV_WRITE : Z := 0x04.
Definition EV_RDWR : Z := Z.lor EV_READ EV_WRITE.

Definition SHUT_RD : Z := 0.
Definition SHUT_WR : Z := 1.
Definition SHUT_RDWR : Z := 2.

(** ** Time: [struct timeval] and the macros of [sys/time.h] *)

Record timeval := Tv { tv_sec : Z; tv_usec : Z }.

Definition tv_zero : timeval := Tv 0 0.

Definition timerisset (t : timeval) : bool := negb (tv_sec t =? 0) || negb (tv_usec t =? 0).

Definition timersub (a b : timeval) : timeval :=
  let s := tv_sec a - tv_sec b in
  let u := tv_usec a - tv_usec b in
  if u <? 0 then Tv (s - 1) (u + 1000000) else Tv s u.

(** [timercmp(a, b, <)] and [timercmp(a, b, <=)]. *)
Definition timer_lt (a b : timeval) : bool :=
  if tv_sec a =? tv_sec b then tv_usec a <? tv_usec b else tv_sec a <? tv_sec b.
Definition timer_le (a b : timeval) : bool :=
  if tv_sec a =? tv_sec b then tv_usec a <=? tv_usec b else tv_sec a <=? tv_sec b.

(** ** Configuration *)

Record sockaddr_in := SockAddr {
  sin_family : Z;  (** AF_INET is 2 *)
  sin_port : Z;    (** host byte order value of the port *)
  sin_addr : Z;    (** host byte order value of the address *)
}.

Definition AF_INET : Z := 2.

Inductive disclose_src_e :=
  | DISCLOSE_NONE | DISCLOSE_X_FORWARDED_FOR | DISCLOSE_FORWARDED_IP
  | DISCLOSE_FORWARDED_IPPORT.

Inductive on_proxy_fail_e := ONFAIL_CLOSE | ONFAIL_FORWARD_HTTP_ERR.

#[export] Instance disclose_src_e_eq : EqDecision disclose_src_e.
Proof. solve_decision. Defined.
#[export] Instance on_proxy_fail_e_eq : EqDecision on_proxy_fail_e.
Proof. solve_decision. Defined.

(** The values of [base.c] the connection code reads. *)
Class BaseConfig := {
  redsocks_conn_max : Z;
  connpres_idle_timeout : Z;
  max_accept_backoff_ms : Z;
  tcp_keepalive_time : Z;
  tcp_keepalive_probes : Z;
  tcp_keepalive_intvl : Z;
}.

Record redsocks_config := Config {
  bindaddr : sockaddr_in;
  relayaddr : sockaddr_in;
  cfg_type : option (list Z);
  login : option (list Z);
  password : option (list Z);
  listenq : Z;
  use_splice : bool;
  disclose_src : disclose_src_e;
  on_proxy_fail : on_proxy_fail_e;
}.

Definition with_bindaddr (g : sockaddr_in -> sockaddr_in) (r : redsocks_config) : redsocks_config :=
  Config (g (bindaddr r)) (relayaddr r) (cfg_type r) (login r) (password r) (listenq r) (use_splice r) (disclose_src r) (on_proxy_fail r).
Definition with_relayaddr (g : sockaddr_in -> sockaddr_in) (r : redsocks_config) : redsocks_config :=
  Config (bindaddr r) (g (relayaddr r)) (cfg_type r) (login r) (password r) (listenq r) (use_splice r) (disclose_src r) (on_proxy_fail r).
Definition with_cfg_type (g : option (list Z) -> option (list Z)) (r : redsocks_config) : redsocks_config :=
  Config (bindaddr r) (relayaddr r) (g (cfg_type r)) (login r) (password r) (listenq r) (use_splice r) (disclose_src r) (on_proxy_fail r).
Definition with_login (g : option (list Z) -> option (list Z)) (r : redsocks_config) : redsocks_config :=
  Config (bindaddr r) (relayaddr r) (cfg_type r) (g (login r)) (password r) (listenq r) (use_splice r) (disclose_src r) (on_proxy_fail r).
Definition with_password (g : option (list Z) -> option (list Z)) (r : redsocks_config) : redsocks_config :=
  Config (bindaddr r) (relayaddr r) (cfg_type r) (login r) (g (password r)) (listenq r) (use_splice r) (disclose_src r) (on_proxy_fail r).
Definition with_listenq (g : Z -> Z) (r : redsocks_config) : redsocks_config :=
  Config (bindaddr r) (relayaddr r) (cfg_type r) (login r) (password r) (g (listenq r)) (use_splice r) (disclose_src r) (on_proxy_fail r).
Definition with_use_splice (g : bool -> bool) (r : redsocks_config) : redsocks_config :=
  Config (bindaddr r) (relayaddr r) (cfg_type r) (login r) (password r) (listenq r) (g (use_splice r)) (disclose_src r) (on_proxy_fail r).
Definition with_disclose_src (g : disclose_src_e -> disclose_src_e) (r : redsocks_config) : redsocks_config :=
  Config (bindaddr r) (relayaddr r) (cfg_type r) (login r) (password r) (listenq r) (use_splice r) (g (disclose_src r)) (on_proxy_fail r).
Definition with_on_proxy_fail (g : on_proxy_fail_e -> on_proxy_fail_e) (r : redsocks_config) : redsocks_config :=
  Config (bindaddr r) (relayaddr r) (cfg_type r) (login r) (password r) (listenq r) (use_splice r) (disclose_src r) (g (on_proxy_fail r)).

(** The four relay subsystems; an instance points to one of them. *)
Inductive relay_subsys := http_connect_subsys | http_relay_subsys | socks4_subsys | socks5_subsys.

#[export] Instance relay_subsys_eq : EqDecision relay_subsys.
Proof. solve_decision. Defined.

(** ** Buffers, events and clients *)

(** The callbacks a bufferevent of a client can carry. *)
Inductive evcb :=
  | cb_null | cb_subsys_read | cb_subsys_write | cb_relay_connected
  | cb_clientread | cb_clientwrite | cb_relayread | cb_relaywrite | cb_httpr_client_read.

Record bufferevent := Bev {
  be_fd : Z;
  be_input : list Z;
  be_output : list Z;
  be_enabled : Z;  (** EV_READ / EV_WRITE bits *)
  wm_read_low : Z;
  wm_read_high : Z;
  wm_write_high : Z;
  readcb : evcb;
  writecb : evcb;
}.

Definition with_be_fd (g : Z -> Z) (r : bufferevent) : bufferevent :=
  Bev (g (be_fd r)) (be_input r) (be_output r) (be_enabled r) (wm_read_low r) (wm_read_high r) (wm_write_high r) (readcb r) (writecb r).
Definition with_be_input (g : list Z -> list Z) (r : bufferevent) : bufferevent :=
  Bev (be_fd r) (g (be_input r)) (be_output r) (be_enabled r) (wm_read_low r) (wm_read_high r) (wm_write_high r) (readcb r) (writecb r).
Definition with_be_output (g : list Z -> list Z) (r : bufferevent) : bufferevent :=
  Bev (be_fd r) (be_input r) (g (be_output r)) (be_enabled r) (wm_read_low r) (wm_read_high r) (wm_write_high r) (readcb r) (writecb r).
Definition with_be_enabled (g : Z -> Z) (r : bufferevent) : bufferevent :=
  Bev (be_fd r) (be_input r) (be_output r) (g (be_enabled r)) (wm_read_low r) (wm_read_high r) (wm_write_high r) (readcb r) (writecb r).
Definition with_wm_read_low (g : Z -> Z) (r : bufferevent) : bufferevent :=
  Bev (be_fd r) (be_input r) (be_output r) (be_enabled r) (g (wm_read_low r)) (wm_read_high r) (wm_write_high r) (readcb r) (writecb r).
Definition with_wm_read_high (g : Z -> Z) (r : bufferevent) : bufferevent :=
  Bev (be_fd r) (be_input r) (be_output r) (be_enabled r) (wm_read_low r) (g (wm_read_high r)) (wm_write_high r) (readcb r) (writecb r).
Definition with_wm_write_high (g : Z -> Z) (r : bufferevent) : bufferevent :=
  Bev (be_fd r) (be_input r) (be_output r) (be_enabled r) (wm_read_low r) (wm_read_high r) (g (wm_write_high r)) (readcb r) (writecb r).
Definition with_readcb (g : evcb -> evcb) (r : bufferevent) : bufferevent :=
  Bev (be_fd r) (be_input r) (be_output r) (be_enabled r) (wm_read_low r) (wm_read_high r) (wm_write_high r) (g (readcb r)) (writecb r).
Definition with_writecb (g : evcb -> evcb) (r : bufferevent) : bufferevent :=
  Bev (be_fd r) (be_input r) (be_output r) (be_enabled r) (wm_read_low r) (wm_read_high r) (wm_write_high r) (readcb r) (g (writecb r)).

(** [bufferevent_new]: libevent enables writing on a new bufferevent. *)
Definition bufferevent_fresh (fd : Z) (rcb wcb : evcb) : bufferevent :=
  Bev fd [] [] EV_WRITE 0 0 0 rcb wcb.

Record splice_pipe := Pipe {
  p_read : Z;
  p_write : Z;
  p_size : Z;
}.

Definition with_p_read (g : Z -> Z) (r : splice_pipe) : splice_pipe :=
  Pipe (g (p_read r)) (p_write r) (p_size r).
Definition with_p_write (g : Z -> Z) (r : splice_pipe) : splice_pipe :=
  Pipe (p_read r) (g (p_write r)) (p_size r).
Definition with_p_size (g : Z -> Z) (r : splice_pipe) : splice_pipe :=
  Pipe (p_read r) (p_write r) (g (p_size r)).

Record event := Event {
  ev_init : bool;  (** event_initialized *)
  ev_fd : Z;
  ev_added : bool;  (** added and pending *)
  ev_active : bool;  (** queued by event_active *)
}.

Definition with_ev_init (g : bool -> bool) (r : event) : event :=
  Event (g (ev_init r)) (ev_fd r) (ev_added r) (ev_active r).
Definition with_ev_fd (g : Z -> Z) (r : event) : event :=
  Event (ev_init r) (g (ev_fd r)) (ev_added r) (ev_active r).
Definition with_ev_added (g : bool -> bool) (r : event) : event :=
  Event (ev_init r) (ev_fd r) (g (ev_added r)) (ev_active r).
Definition with_ev_active (g : bool -> bool) (r : event) : event :=
  Event (ev_init r) (ev_fd r) (ev_added r) (g (ev_active r)).

Definition event_blank : event := Event false 0 false false.

(** The part of [redsocks_pump] that follows the client. *)
Record pump_t := Pump {
  request : splice_pipe;
  reply : splice_pipe;
  client_read : event;
  client_write : event;
  relay_read : event;
  relay_write : event;
}.

Definition with_request (g : splice_pipe -> splice_pipe) (r : pump_t) : pump_t :=
  Pump (g (request r)) (reply r) (client_read r) (client_write r) (relay_read r) (relay_write r).
Definition with_reply (g : splice_pipe -> splice_pipe) (r : pump_t) : pump_t :=
  Pump (request r) (g (reply r)) (client_read r) (client_write r) (relay_read r) (relay_write r).
Definition with_client_read (g : event -> event) (r : pump_t) : pump_t :=
  Pump (request r) (reply r) (g (client_read r)) (client_write r) (relay_read r) (relay_write r).
Definition with_client_write (g : event -> event) (r : pump_t) : pump_t :=
  Pump (request r) (reply r) (client_read r) (g (client_write r)) (relay_read r) (relay_write r).
Definition with_relay_read (g : event -> event) (r : pump_t) : pump_t :=
  Pump (request r) (reply r) (client_read r) (client_write r) (g (relay_read r)) (relay_write r).
Definition with_relay_write (g : event -> event) (r : pump_t) : pump_t :=
  Pump (request r) (reply r) (client_read r) (client_write r) (relay_read r) (g (relay_write r)).

(** [httpr_client] of [http-relay.c]; a buffer is [None] once it was freed. *)
Record httpr_client := Httpr {
  firstline : option (list Z);
  host : option (list Z);
  has_host : Z;
  client_buffer : option (list Z);
  relay_buffer : option (list Z);
}.

Definition with_firstline (g : option (list Z) -> option (list Z)) (r : httpr_client) : httpr_client :=
  Httpr (g (firstline r)) (host r) (has_host r) (client_buffer r) (relay_buffer r).
Definition with_host (g : option (list Z) -> option (list Z)) (r : httpr_client) : httpr_client :=
  Httpr (firstline r) (g (host r)) (has_host r) (client_buffer r) (relay_buffer r).
Definition with_has_host (g : Z -> Z) (r : httpr_client) : httpr_client :=
  Httpr (firstline r) (host r) (g (has_host r)) (client_buffer r) (relay_buffer r).
Definition with_client_buffer (g : option (list Z) -> option (list Z)) (r : httpr_client) : httpr_client :=
  Httpr (firstline r) (host r) (has_host r) (g (client_buffer r)) (relay_buffer r).
Definition with_relay_buffer (g : option (list Z) -> option (list Z)) (r : httpr_client) : httpr_client :=
  Httpr (firstline r) (host r) (has_host r) (client_buffer r) (g (relay_buffer r)).

(** The relay-specific data behind the client ([red_payload]). *)
Inductive payload_t :=
  | no_payload
  | socks5_payload (do_password : Z) (to_skip : Z)
  | httpr_payload (h : httpr_client).

Record redsocks_client := Client {
  c_linked : bool;  (** !list_empty(&client->list) *)
  c_instance : nat;
  c_client : option bufferevent;
  c_relay : option bufferevent;
  clientaddr : sockaddr_in;
  destaddr : sockaddr_in;
  c_state : Z;
  client_evshut : Z;
  relay_evshut : Z;
  first_event : timeval;
  last_event : timeval;
  payload : payload_t;
  pump : pump_t;  (** meaningful when use_splice *)
}.

Definition with_c_linked (g : bool -> bool) (r : redsocks_client) : redsocks_client :=
  Client (g (c_linked r)) (c_instance r) (c_client r) (c_relay r) (clientaddr r) (destaddr r) (c_state r) (client_evshut r) (relay_evshut r) (first_event r) (last_event r) (payload r) (pump r).
Definition with_c_instance (g : nat -> nat) (r : redsocks_client) : redsocks_client :=
  Client (c_linked r) (g (c_instance r)) (c_client r) (c_relay r) (clientaddr r) (destaddr r) (c_state r) (client_evshut r) (relay_evshut r) (first_event r) (last_event r) (payload r) (pump r).
Definition with_c_client (g : option bufferevent -> option bufferevent) (r : redsocks_client) : redsocks_client :=
  Client (c_linked r) (c_instance r) (g (c_client r)) (c_relay r) (clientaddr r) (destaddr r) (c_state r) (client_evshut r) (relay_evshut r) (first_event r) (last_event r) (payload r) (pump r).
Definition with_c_relay (g : option bufferevent -> option bufferevent) (r : redsocks_client) : redsocks_client :=
  Client (c_linked r) (c_instance r) (c_client r) (g (c_relay r)) (clientaddr r) (destaddr r) (c_state r) (client_evshut r) (relay_evshut r) (first_event r) (last_event r) (payload r) (pump r).
Definition with_clientaddr (g : sockaddr_in -> sockaddr_in) (r : redsocks_client) : redsocks_client :=
  Client (c_linked r) (c_instance r) (c_client r) (c_relay r) (g (clientaddr r)) (destaddr r) (c_state r) (client_evshut r) (relay_evshut r) (first_event r) (last_event r) (payload r) (pump r).
Definition with_destaddr (g : sockaddr_in -> sockaddr_in) (r : redsocks_client) : redsocks_client :=
  Client (c_linked r) (c_instance r) (c_client r) (c_relay r) (clientaddr r) (g (destaddr r)) (c_state r) (client_evshut r) (relay_evshut r) (first_event r) (last_event r) (payload r) (pump r).
Definition with_c_state (g : Z -> Z) (r : redsocks_client) : redsocks_client :=
  Client (c_linked r) (c_instance r) (c_client r) (c_relay r) (clientaddr r) (destaddr r) (g (c_state r)) (client_evshut r) (relay_evshut r) (first_event r) (last_event r) (payload r) (pump r).
Definition with_client_evshut (g : Z -> Z) (r : redsocks_client) : redsocks_client :=
  Client (c_linked r) (c_instance r) (c_client r) (c_relay r) (clientaddr r) (destaddr r) (c_state r) (g (client_evshut r)) (relay_evshut r) (first_event r) (last_event r) (payload r) (pump r).
Definition with_relay_evshut (g : Z -> Z) (r : redsocks_client) : redsocks_client :=
  Client (c_linked r) (c_instance r) (c_client r) (c_relay r) (clientaddr r) (destaddr r) (c_state r) (client_evshut r) (g (relay_evshut r)) (first_event r) (last_event r) (payload r) (pump r).
Definition with_first_event (g : timeval -> timeval) (r : redsocks_client) : redsocks_client :=
  Client (c_linked r) (c_instance r) (c_client r) (c_relay r) (clientaddr r) (destaddr r) (c_state r) (client_evshut r) (relay_evshut r) (g (first_event r)) (last_event r) (payload r) (pump r).
Definition with_last_event (g : timeval -> timeval) (r : redsocks_client) : redsocks_client :=
  Client (c_linked r) (c_instance r) (c_client r) (c_relay r) (clientaddr r) (destaddr r) (c_state r) (client_evshut r) (relay_evshut r) (first_event r) (g (last_event r)) (payload r) (pump r).
Definition with_payload (g : payload_t -> payload_t) (r : redsocks_client) : redsocks_client :=
  Client (c_linked r) (c_instance r) (c_client r) (c_relay r) (clientaddr r) (destaddr r) (c_state r) (client_evshut r) (relay_evshut r) (first_event r) (last_event r) (g (payload r)) (pump r).
Definition with_pump (g : pump_t -> pump_t) (r : redsocks_client) : redsocks_client :=
  Client (c_linked r) (c_instance r) (c_client r) (c_relay r) (clientaddr r) (destaddr r) (c_state r) (client_evshut r) (relay_evshut r) (first_event r) (last_event r) (payload r) (g (pump r)).

Record redsocks_instance := Instance {
  config : redsocks_config;
  listener : event;
  i_clients : list nat;  (** newest first *)
  relay_ss : relay_subsys;
  last_auth_query : option (list Z);  (** http_auth *)
  last_auth_count : Z;  (** http_auth *)
}.

Definition with_config (g : redsocks_config -> redsocks_config) (r : redsocks_instance) : redsocks_instance :=
  Instance (g (config r)) (listener r) (i_clients r) (relay_ss r) (last_auth_query r) (last_auth_count r).
Definition with_listener (g : event -> event) (r : redsocks_instance) : redsocks_instance :=
  Instance (config r) (g (listener r)) (i_clients r) (relay_ss r) (last_auth_query r) (last_auth_count r).
Definition with_i_clients (g : list nat -> list nat) (r : redsocks_instance) : redsocks_instance :=
  Instance (config r) (listener r) (g (i_clients r)) (relay_ss r) (last_auth_query r) (last_auth_count r).
Definition with_relay_ss (g : relay_subsys -> relay_subsys) (r : redsocks_instance) : redsocks_instance :=
  Instance (config r) (listener r) (i_clients r) (g (relay_ss r)) (last_auth_query r) (last_auth_count r).
Definition with_last_auth_query (g : option (list Z) -> option (list Z)) (r : redsocks_instance) : redsocks_instance :=
  Instance (config r) (listener r) (i_clients r) (relay_ss r) (g (last_auth_query r)) (last_auth_count r).
Definition with_last_auth_count (g : Z -> Z) (r : redsocks_instance) : redsocks_instance :=
  Instance (config r) (listener r) (i_clients r) (relay_ss r) (last_auth_query r) (g (last_auth_count r)).

Record world := World {
  w_script : list Z;  (** answers of the environment *)
  w_evscript : list Z;  (** answers of the event backend *)
  instances : list nat;
  w_inst : gmap nat redsocks_instance;
  w_clients : gmap nat redsocks_client;
  w_next : nat;  (** identity of the next client *)
  redsocks_conn : Z;
  accept_backoff_ms : Z;
  accept_backoff_ev : option timeval;  (** pending timeout *)
  w_closed : list Z;  (** descriptors closed, latest first *)
}.

Definition with_w_script (g : list Z -> list Z) (r : world) : world :=
  World (g (w_script r)) (w_evscript r) (instances r) (w_inst r) (w_clients r) (w_next r) (redsocks_conn r) (accept_backoff_ms r) (accept_backoff_ev r) (w_closed r).
Definition with_w_evscript (g : list Z -> list Z) (r : world) : world :=
  World (w_script r) (g (w_evscript r)) (instances r) (w_inst r) (w_clients r) (w_next r) (redsocks_conn r) (accept_backoff_ms r) (accept_backoff_ev r) (w_closed r).
Definition with_instances (g : list nat -> list nat) (r : world) : world :=
  World (w_script r) (w_evscript r) (g (instances r)) (w_inst r) (w_clients r) (w_next r) (redsocks_conn r) (accept_backoff_ms r) (accept_backoff_ev r) (w_closed r).
Definition with_w_inst (g : gmap nat redsocks_instance -> gmap nat redsocks_instance) (r : world) : world :=
  World (w_script r) (w_evscript r) (instances r) (g (w_inst r)) (w_clients r) (w_next r) (redsocks_conn r) (accept_backoff_ms r) (accept_backoff_ev r) (w_closed r).
Definition with_w_clients (g : gmap nat redsocks_client -> gmap nat redsocks_client) (r : world) : world :=
  World (w_script r) (w_evscript r) (instances r) (w_inst r) (g (w_clients r)) (w_next r) (redsocks_conn r) (accept_backoff_ms r) (accept_backoff_ev r) (w_closed r).
Definition with_w_next (g : nat -> nat) (r : world) : world :=
  World (w_script r) (w_evscript r) (instances r) (w_inst r) (w_clients r) (g (w_next r)) (redsocks_conn r) (accept_backoff_ms r) (accept_backoff_ev r) (w_closed r).
Definition with_redsocks_conn (g : Z -> Z) (r : world) : world :=
  World (w_script r) (w_evscript r) (instances r) (w_inst r) (w_clients r) (w_next r) (g (redsocks_conn r)) (accept_backoff_ms r) (accept_backoff_ev r) (w_closed r).
Definition with_accept_backoff_ms (g : Z -> Z) (r : world) : world :=
  World (w_script r) (w_evscript r) (instances r) (w_inst r) (w_clients r) (w_next r) (redsocks_conn r) (g (accept_backoff_ms r)) (accept_backoff_ev r) (w_closed r).
Definition with_accept_backoff_ev (g : option timeval -> option timeval) (r : world) : world :=
  World (w_script r) (w_evscript r) (instances r) (w_inst r) (w_clients r) (w_next r) (redsocks_conn r) (accept_backoff_ms r) (g (accept_backoff_ev r)) (w_closed r).
Definition with_w_closed (g : list Z -> list Z) (r : world) : world :=
  World (w_script r) (w_evscript r) (instances r) (w_inst r) (w_clients r) (w_next r) (redsocks_conn r) (accept_backoff_ms r) (accept_backoff_ev r) (g (w_closed r)).

(** ** The monad *)

Inductive fault :=
  | AssertFailed (line : Z) | UseAfterFree (client : nat) | NullDeref | OutOfBounds | DoubleFree.

Inductive outcome (A : Type) := Ret (a : A) (w : world) | Fault (f : fault) (w : world).
Arguments Ret {A} a w.
Arguments Fault {A} f w.

Definition M (A : Type) : Type := world -> outcome A.

Definition ret {A} (a : A) : M A := fun w => Ret a w.
Definition bind {A B} (m : M A) (k : A -> M B) : M B :=
  fun w => match m w with Ret a w' => k a w' | Fault f w' => Fault f w' end.
Definition raise {A} (f : fault) : M A := fun w => Fault f w.

Declare Scope red_scope.
Delimit Scope red_scope with red.
Notation "'let!' x := m 'in' k" := (bind m (fun x => k))
  (at level 10, x pattern, m at level 200, k at level 200) : red_scope.
Notation "m ';;' k" := (bind m (fun _ => k)) (at level 100, right associativity) : red_scope.
Open Scope red_scope.

Definition get : M world := fun w => Ret w w.
Definition modify (g : world -> world) : M unit := fun w => Ret tt (g w).
Definition gets {A} (g : world -> A) : M A := fun w => Ret (g w) w.

Definition when (b : bool) (m : M unit) : M unit := if b then m else ret tt.
Definition assert_ (line : Z) (b : bool) : M unit := if b then ret tt else raise (AssertFailed line).

(** The next answer of the environment. *)
Definition sys : M Z :=
  fun w => match w_script w with
           | [] => Ret 0 w
           | r :: s => Ret r (with_w_script (fun _ => s) w)
           end.

(** The next answer of the event backend. *)
Definition sys_ev : M Z :=
  fun w => match w_evscript w with
           | [] => Ret 0 w
           | r :: s => Ret r (with_w_evscript (fun _ => s) w)
           end.

(** Left fold with effects. *)
Fixpoint fold_m {A B} (f : B -> A -> M B) (l : list A) (b : B) : M B :=
  match l with
  | [] => ret b
  | x :: l => let! b := f b x in fold_m f l b
  end.

(** Iterates over a list captured beforehand ([list_for_each_entry_safe]). *)
Fixpoint for_each {A} (l : list A) (f : A -> M unit) : M unit :=
  match l with
  | [] => ret tt
  | x :: l => f x ;; for_each l f
  end.

(** ** Access to the store *)

Definition get_client (c : nat) : M redsocks_client :=
  fun w => match w_clients w !! c with
           | Some x => Ret x w
           | None => Fault (UseAfterFree c) w
           end.

Definition upd_client (c : nat) (g : redsocks_client -> redsocks_client) : M unit :=
  let! x := get_client c in
  modify (with_w_clients (fun m => <[c := g x]> m)).

(** Instances live as long as the program runs; [inst_default] is never read
    from a well-formed world. *)
Definition inst_default : redsocks_instance :=
  Instance (Config (SockAddr 0 0 0) (SockAddr 0 0 0) None None None 0 false DISCLOSE_NONE ONFAIL_CLOSE)
    event_blank [] socks5_subsys None 0.

Definition get_inst (i : nat) : M redsocks_instance :=
  fun w => Ret (default inst_default (w_inst w !! i)) w.

Definition upd_inst (i : nat) (g : redsocks_instance -> redsocks_instance) : M unit :=
  modify (with_w_inst (fun m => alter g i m)).

(** The two bufferevents of a client. *)
Inductive side := Sclient | Srelay.

#[export] Instance side_eq : EqDecision side.
Proof. solve_decision. Defined.

Definition anti (s : side) : side := match s with Sclient => Srelay | Srelay => Sclient end.

Definition bev_of (s : side) (c : redsocks_client) : option bufferevent :=
  match s with Sclient => c_client c | Srelay => c_relay c end.

Definition with_bev (s : side) (g : option bufferevent -> option bufferevent)
  : redsocks_client -> redsocks_client :=
  match s with Sclient => with_c_client g | Srelay => with_c_relay g end.

Definition evshut_of (s : side) (c : redsocks_client) : Z :=
  match s with Sclient => client_evshut c | Srelay => relay_evshut c end.

Definition with_evshut (s : side) (g : Z -> Z) : redsocks_client -> redsocks_client :=
  match s with Sclient => with_client_evshut g | Srelay => with_relay_evshut g end.

(** ** libevent

    [bufferevent_enable] and [bufferevent_disable] update the flags and then
    report the answer of the event backend. *)

(** [client->client] or [client->relay], dereferenced. *)
Definition get_bev (c : nat) (s : side) : M bufferevent :=
  let! x := get_client c in
  match bev_of s x with Some b => ret b | None => raise NullDeref end.

Definition upd_bev (c : nat) (s : side) (g : bufferevent -> bufferevent) : M unit :=
  let! b := get_bev c s in
  upd_client c (with_bev s (fun _ => Some (g b))).

Definition bufferevent_enable (c : nat) (s : side) (ev : Z) : M Z :=
  upd_bev c s (with_be_enabled (fun e => Z.lor e ev)) ;; sys_ev.

Definition bufferevent_disable (c : nat) (s : side) (ev : Z) : M Z :=
  upd_bev c s (with_be_enabled (fun e => Z.ldiff e ev)) ;; sys_ev.

(** [bufferevent_setwatermark] for EV_READ and for EV_READ|EV_WRITE. *)
Definition setwatermark_read (c : nat) (s : side) (low high : Z) : M unit :=
  upd_bev c s (fun b => with_wm_read_high (fun _ => high) (with_wm_read_low (fun _ => low) b)).

Definition setwatermark_rdwr (c : nat) (s : side) (low high : Z) : M unit :=
  setwatermark_read c s low high ;;
  upd_bev c s (with_wm_write_high (fun _ => high)).

(** [bufferevent_write_buffer(to, src)]: moves all of [src] to the output, or
    fails and leaves both as they are. The result is the return value. *)
Definition bufferevent_write (c : nat) (s : side) (data : list Z) : M Z :=
  let! r := sys in
  if r =? 0 then upd_bev c s (with_be_output (fun o => o ++ data)) ;; ret 0 else ret (-1).

(** [event_add], [event_del] and [event_active] on an event of an instance or a
    pump, as functions on the event; the result is the answer of the backend. *)
Definition event_add_ok (r : Z) (e : event) : event :=
  if r =? 0 then with_ev_added (fun _ => true) e else e.
Definition event_del_ok (r : Z) (e : event) : event :=
  if r =? 0 then with_ev_active (fun _ => false) (with_ev_added (fun _ => false) e) else e.
Definition event_activate (e : event) : event := with_ev_active (fun _ => true) e.
