(* ===== verification/Parser.v ===== *)
(** * The configuration parser ([parser.c])

    The parser reads the file line by line into a buffer that doubles when a
    line does not fit, cuts the buffer into tokens, and calls the sections that
    were registered with it. The state the sections write to is a parameter [U]
    of the parser, as is the resolver behind [vp_in_addr]. *)

From S2P Require Import Prelude CLib RedWorld.

Open Scope Z_scope.

(** ** Data *)

(** [parser_type] *)
Inductive parser_type :=
  | pt_bool | pt_pchar | pt_uint16 | pt_uint32 | pt_in_addr | pt_in_addr2
  | pt_disclose_src | pt_on_proxy_fail | pt_obsolete | pt_redsocks_max_accept_backoff.

(** What a value parser stores behind [addr]; [v_mask] is the second element of
    the pair of addresses of [pt_in_addr2]. *)
Inductive value :=
  | v_bool (b : bool) | v_str (s : list Z) | v_u16 (z : Z) | v_u32 (z : Z)
  | v_addr (z : Z) | v_mask (z : Z)
  | v_disclose (d : disclose_src_e) | v_onfail (o : on_proxy_fail_e).

Section Parser.
Context {U : Type}.

(** [parser_context]: the unread bytes of the file, whether they end in a read
    error, the end-of-file indicator, the size and the filled part of the
    buffer, the line number, the error flag; the answers of the allocator and
    of the random generator; the state of the sections. *)
Record parser_context := Ctx {
  c_rest : list Z;
  c_ferror : bool;
  c_eof : bool;
  c_size : Z;
  c_data : list Z;
  c_line : Z;
  c_error : bool;
  c_script : list Z;
  c_user : U;
}.

(** [addr] is a pointer into the state of a section: writing through it fails
    when it is [NULL]. *)
Record parser_entry := Entry {
  e_key : list Z;
  e_type : parser_type;
  e_addr : value -> U -> option U;
}.

(** ** Effects *)

Inductive presult (A : Type) :=
  | POk (a : A) (c : parser_context)
  | PFault (f : fault) (c : parser_context)
  | PFuel (c : parser_context).
Arguments POk {A} a c.
Arguments PFault {A} f c.
Arguments PFuel {A} c.

Definition P (A : Type) : Type := parser_context -> presult A.

Definition pret {A} (a : A) : P A := fun c => POk a c.
Definition pbind {A B} (m : P A) (k : A -> P B) : P B :=
  fun c => match m c with
           | POk a c => k a c
           | PFault f c => PFault f c
           | PFuel c => PFuel c
           end.
Definition praise {A} (f : fault) : P A := fun c => PFault f c.
Definition pfuel {A} : P A := fun c => PFuel c.
Definition pmodify (g : parser_context -> parser_context) : P unit := fun c => POk tt (g c).
Definition pgets {A} (g : parser_context -> A) : P A := fun c => POk (g c) c.

Record parser_section := Section_ {
  s_name : list Z;
  s_onenter : option (P Z);
  s_onexit : option (P Z);
  s_entries : list parser_entry;
}.

Notation "'do' x <- m ; k" := (pbind m (fun x => k))
  (at level 200, x pattern, m at level 100, k at level 200, right associativity).
Notation "m ;; k" := (pbind m (fun _ => k)) (at level 100, right associativity).

Definition pwhen (b : bool) (m : P unit) : P unit := if b then m else pret tt.
Definition passert (line : Z) (b : bool) : P unit :=
  if b then pret tt else praise (AssertFailed line).

(** The next answer of the environment; 0 when it has nothing special to say. *)
Definition psys : P Z :=
  fun c => match c_script c with
           | [] => POk 0 c
           | r :: s => POk r (Ctx (c_rest c) (c_ferror c) (c_eof c) (c_size c) (c_data c)
                                (c_line c) (c_error c) s (c_user c))
           end.

(** An allocation fails when the environment answers anything but 0. *)
Definition malloc : P bool := do r <- psys; pret (r =? 0).

Definition set_rest (l : list Z) (eof : bool) (c : parser_context) : parser_context :=
  Ctx l (c_ferror c) eof (c_size c) (c_data c) (c_line c) (c_error c) (c_script c) (c_user c).
Definition set_size (z : Z) (c : parser_context) : parser_context :=
  Ctx (c_rest c) (c_ferror c) (c_eof c) z (c_data c) (c_line c) (c_error c) (c_script c) (c_user c).
Definition set_buf (d : list Z) (c : parser_context) : parser_context :=
  Ctx (c_rest c) (c_ferror c) (c_eof c) (c_size c) d (c_line c) (c_error c) (c_script c) (c_user c).
Definition set_line (z : Z) (c : parser_context) : parser_context :=
  Ctx (c_rest c) (c_ferror c) (c_eof c) (c_size c) (c_data c) z (c_error c) (c_script c) (c_user c).
Definition set_error (b : bool) (c : parser_context) : parser_context :=
  Ctx (c_rest c) (c_ferror c) (c_eof c) (c_size c) (c_data c) (c_line c) b (c_script c) (c_user c).
Definition set_user (s : U) (c : parser_context) : parser_context :=
  Ctx (c_rest c) (c_ferror c) (c_eof c) (c_size c) (c_data c) (c_line c) (c_error c) (c_script c) s.

(** [parser_error]; the message goes to standard error. *)
Definition parser_error : P unit := pmodify (set_error true).

(** [parser_start]: two allocations, an empty buffer of 128 bytes. *)
Definition parser_start (file : list Z) (ferr : bool) (script : list Z) (user : U)
  : option parser_context :=
  let c := Ctx file ferr false 128 [] 0 false script user in
  match malloc c with
  | POk true c => match malloc c with POk true c => Some c | _ => None end
  | _ => None
  end.

(** [parser_add_section] *)
Definition parser_add_section (sections : list parser_section) (s : parser_section)
  : list parser_section := s :: sections.

(** [context_filled_add] and [context_filled_set] after the bytes of the buffer
    were moved: the terminator is stored behind the filled part. *)
Definition context_filled (d : list Z) : P unit :=
  do size <- pgets c_size;
  if Z.of_nat (length d) <? size then pmodify (set_buf d) else praise OutOfBounds.

(** ** Tokens *)

(** [unescape]; 0 for a character that is no escape. *)
Definition unescape (c : Z) : Z :=
  if c =? 110 then 10 else if c =? 116 then 9 else if c =? 114 then 13
  else if c =? 92 then 92 else if c =? 39 then 39 else if c =? 34 then 34 else 0.

Inductive cstr_scan := sc_incomplete | sc_bad_escape | sc_len (n : nat).

(** The first pass over a quoted string, behind the opening quote: its length. *)
Fixpoint cstr_len (p : list Z) (len : nat) : cstr_scan :=
  match p with
  | [] => sc_incomplete
  | c :: p =>
      if c =? 34 then sc_len len
      else if c =? 92 then
        match p with
        | [] => sc_incomplete
        | e :: p => if negb (unescape e =? 0) then cstr_len p (len + 1) else sc_bad_escape
        end
      else cstr_len p (len + 1)
  end.

(** The second pass: the bytes stored and the position behind the closing quote.
    [n] is the room left in the allocated string. *)
Fixpoint cstr_copy (p : list Z) (n : nat) : option (list Z * list Z) :=
  match p with
  | [] => None
  | c :: p =>
      if c =? 34 then Some ([], p)
      else match n with
      | O => None
      | S n =>
          if c =? 92 then
            match p with
            | [] => None
            | e :: p => (fun r => (unescape e :: r.1, r.2)) <$> cstr_copy p n
            end
          else (fun r => (c :: r.1, r.2)) <$> cstr_copy p n
      end
  end.

(** The length of an integer, address or netmask; [None] when it is incomplete. *)
Fixpoint number_len (p : list Z) : option nat :=
  match p with
  | [] => None
  | c :: p =>
      if isdigit c || (c =? 46) then S <$> number_len p
      else if c =? 47 then
        if isdigit (peek p) then S <$> number_len p
        else if (peek p =? 47) || (peek p =? 42) then Some O
        else None
      else Some O
  end.

Definition word_char (c : Z) : bool := isalnum c || (c =? 95) || (c =? 46) || (c =? 45).

(** The length of a simple string. *)
Fixpoint word_len (p : list Z) : option nat :=
  match p with
  | [] => None
  | c :: p => if word_char c then S <$> word_len p else Some O
  end.

Definition punctuation (c : Z) : bool := (c =? 123) || (c =? 125) || (c =? 61) || (c =? 59).

(** [gettoken]: the token, if a complete one follows, and the new [*iter]. *)
Definition plain_token (iter : list Z) (len : option nat) : P (option (list Z) * list Z) :=
  match len with
  | None => pret (None, iter)
  | Some n =>
      do ok <- malloc;
      if ok then pret (Some (take n iter), drop n iter)
      else parser_error ;; pret (None, iter)
  end.

Definition gettoken (iter : list Z) : P (option (list Z) * list Z) :=
  let iter := skip_spaces iter in
  match iter with
  | [] => pret (None, iter)
  | c :: p =>
      if c =? 34 then
        match cstr_len p 0 with
        | sc_incomplete => pret (None, iter)
        | sc_bad_escape => parser_error ;; pret (None, iter)
        | sc_len n =>
            do ok <- malloc;
            if ok then
              match cstr_copy p n with
              | Some (t, rest) => pret (Some t, rest)
              | None => praise OutOfBounds
              end
            else parser_error ;; pret (None, iter)
        end
      else if isdigit c then plain_token iter (number_len iter)
      else if isalpha c then plain_token iter (word_len iter)
      else if punctuation c then plain_token iter (Some 1%nat)
      else if (c =? 47) && ((peek p =? 47) || (peek p =? 42)) then plain_token iter (Some 2%nat)
      else parser_error ;; pret (None, iter)
  end.

(** ** Values *)

(** A value parser: where the value goes, and the token. *)
Definition value_parser : Type := (value -> U -> option U) -> list Z -> P Z.

(** Writing through [addr]. *)
Definition store (addr : value -> U -> option U) (v : value) : P unit :=
  do u <- pgets c_user;
  match addr v u with
  | Some u => pmodify (set_user u)
  | None => praise NullDeref
  end.

Definition strcmp_eq (a b : list Z) : bool := bool_decide (a = b).

(** The first entry of a table of names the token is equal to. *)
Definition find_name {A} (opt : list (list Z * A)) (token : list Z) : option A :=
  snd <$> List.find (fun o => strcmp_eq token o.1) opt.

Definition store_or_fail (addr : value -> U -> option U) (v : option value) : P Z :=
  match v with
  | Some v => store addr v ;; pret 0
  | None => parser_error ;; pret (-1)
  end.

Definition bool_names : list (list Z * bool) :=
  [(B# "ok", true); (B# "on", true); (B# "yes", true); (B# "true", true);
   (B# "off", false); (B# "no", false); (B# "false", false)].

Definition vp_pbool : value_parser :=
  fun addr token => store_or_fail addr (v_bool <$> find_name bool_names token).

Definition disclose_names : list (list Z * disclose_src_e) :=
  [(B# "off", DISCLOSE_NONE); (B# "no", DISCLOSE_NONE); (B# "false", DISCLOSE_NONE);
   (B# "X-Forwarded-For", DISCLOSE_X_FORWARDED_FOR); (B# "Forwarded_ip", DISCLOSE_FORWARDED_IP);
   (B# "Forwarded_ipport", DISCLOSE_FORWARDED_IPPORT)].

Definition vp_disclose_src : value_parser :=
  fun addr token => store_or_fail addr (v_disclose <$> find_name disclose_names token).

Definition onfail_names : list (list Z * on_proxy_fail_e) :=
  [(B# "close", ONFAIL_CLOSE); (B# "forward_http_err", ONFAIL_FORWARD_HTTP_ERR)].

Definition vp_on_proxy_fail : value_parser :=
  fun addr token => store_or_fail addr (v_onfail <$> find_name onfail_names token).

Definition vp_pchar : value_parser :=
  fun addr token =>
    do ok <- malloc;
    store_or_fail addr (if ok then Some (v_str token) else None).

Definition vp_uint16 : value_parser :=
  fun addr token =>
    let (uli, e) := strtoul0 token in
    store_or_fail addr
      (if 0xFFFF <? uli then None
       else if negb (length e =? 0)%nat then None else Some (v_u16 uli)).

Definition vp_uint32 : value_parser :=
  fun addr token =>
    let (uli, e) := strtoul0 token in
    store_or_fail addr (if negb (length e =? 0)%nat then None else Some (v_u32 (u32 uli))).

(** [getaddrinfo] for the IPv4 addresses of a name: an error or the addresses. *)
Context (getaddrinfo : list Z -> option (list Z)).

(** [vp_in_addr]: an address in dotted form, or one of those a name resolves to,
    taken at random. *)
Definition vp_in_addr : value_parser :=
  fun addr token =>
    match inet_aton token with
    | Some ia => store addr (v_addr ia) ;; pret 0
    | None =>
        match getaddrinfo token with
        | Some ainfo =>
            do r <- psys;
            let taken := u32 r mod Z.of_nat (length ainfo) in
            match ainfo !! Z.to_nat taken with
            | Some resolved => store addr (v_addr resolved) ;; pret 0
            | None => praise NullDeref
            end
        | None => parser_error ;; pret (-1)
        end
    end.

(** [vp_in_addr2]: an address and a netmask, as an address or a number of bits.
    Both halves are examined, whatever the first one gives. *)
Definition vp_in_addr2 : value_parser :=
  fun addr token =>
    do ok <- malloc;
    if negb ok then parser_error ;; pret (-1) else
    let (host, m) := span (fun c => negb (c =? 47)) token in
    do r1 <- store_or_fail addr (v_addr <$> inet_aton host);
    match m with
    | [] => pret r1
    | _ :: mask =>
        let (uli, e) := strtoul0 mask in
        do r2 <- store_or_fail addr
          (if peek e =? 46 then v_mask <$> inet_aton mask
           else if (0 <? uli) && (uli <? 32) then
             Some (v_mask (u32 (Z.shiftl 0xffffffff (32 - uli))))
           else None);
        pret (if r2 =? -1 then -1 else r1)
    end.

Definition vp_obsolete : value_parser := fun _ _ => parser_error ;; pret (-1).
Definition vp_redsocks_max_accept_backoff : value_parser := fun _ _ => parser_error ;; pret (-1).

Definition value_parser_by_type (t : parser_type) : value_parser :=
  match t with
  | pt_bool => vp_pbool
  | pt_pchar => vp_pchar
  | pt_uint16 => vp_uint16
  | pt_uint32 => vp_uint32
  | pt_in_addr => vp_in_addr
  | pt_in_addr2 => vp_in_addr2
  | pt_disclose_src => vp_disclose_src
  | pt_on_proxy_fail => vp_on_proxy_fail
  | pt_obsolete => vp_obsolete
  | pt_redsocks_max_accept_backoff => vp_redsocks_max_accept_backoff
  end.

(** ** The main loop *)

(** [fgets]: at most [n] bytes, up to and including a newline; whether the end
    of the file was met. *)
Fixpoint fgets_take (n : nat) (l : list Z) : list Z * list Z * bool :=
  match n, l with
  | O, _ => ([], l, false)
  | S _, [] => ([], [], true)
  | S n, c :: l =>
      if c =? 10 then ([c], l, false)
      else let '(s, r, e) := fgets_take n l in (c :: s, r, e)
  end.

Inductive fgets_result := fg_line (s : list Z) | fg_eof | fg_error.

Definition fgets (n : Z) : P fgets_result :=
  do c <- pgets id;
  let '(s, rest, hit_end) := fgets_take (Z.to_nat (n - 1)) (c_rest c) in
  if hit_end && c_ferror c then pmodify (set_rest rest (c_eof c)) ;; pret fg_error
  else
    pmodify (set_rest rest (c_eof c || hit_end)) ;;
    pret (match s with [] => if hit_end then fg_eof else fg_line [] | _ => fg_line s end).

(** The local variables of [parser_run] the token loop works on. *)
Record run_state := Run {
  section : option parser_section;
  section_token : option (list Z);
  key_token : option (list Z);
  value_token : option (list Z);
  in_comment : bool;
}.

Context (sections : list parser_section).



(** ["{"]: enters the section named by the token before. *)
Definition open_section (st : run_state) : P run_state :=
  match section st, section_token st with
  | Some _, _ => parser_error ;; pret st
  | None, None => parser_error ;; pret st
  | None, Some name =>
      let found := List.find (fun p => strcmp_eq (s_name p) name) sections in
      match found with
      | Some p =>
          match s_onenter p with
          | Some onenter => do r <- onenter; pwhen (r =? -1) parser_error
          | None => pret tt
          end
      | None => parser_error
      end ;;
      pret (Run found None (key_token st) (value_token st) (in_comment st))
  end.

(** ["}"]: leaves the section. *)
Definition close_section (st : run_state) : P run_state :=
  match section st with
  | Some p =>
      match s_onexit p with
      | Some onexit => do r <- onexit; pwhen (r =? -1) parser_error
      | None => pret tt
      end ;;
      pret (Run None (section_token st) (key_token st) (value_token st) (in_comment st))
  | None => parser_error ;; pret st
  end.

(** [";"]: stores the value of the key. *)
Definition end_assignment (st : run_state) : P run_state :=
  match section st, key_token st, value_token st with
  | None, _, _ => parser_error
  | Some _, Some _, None => parser_error
  | Some p, Some key, Some val =>
      match List.find (fun e => strcmp_eq (e_key e) key) (s_entries p) with
      | Some e =>
          do r <- value_parser_by_type (e_type e) (e_addr e) val;
          pwhen (r =? -1) parser_error
      | None => parser_error
      end
  | Some _, None, _ => praise (AssertFailed 617)
  end ;;
  pret (Run (section st) (section_token st) None None (in_comment st)).

(** Any other token names a section, a key or a value. *)
Definition name_token (st : run_state) (t : list Z) : P run_state :=
  match section st, section_token st, key_token st, value_token st with
  | None, None, _, _ => pret (Run None (Some t) (key_token st) (value_token st) (in_comment st))
  | Some p, _, None, _ => pret (Run (Some p) (section_token st) (Some t) (value_token st) (in_comment st))
  | Some p, _, Some k, None => pret (Run (Some p) (section_token st) (Some k) (Some t) (in_comment st))
  | _, _, _, _ => parser_error ;; pret st
  end.

(** The branches of the token loop that leave the buffer alone. *)
Definition command (st : run_state) (t : list Z) : P run_state :=
  if strcmp_eq t (B# "{") then open_section st
  else if strcmp_eq t (B# "}") then close_section st
  else if strcmp_eq t (B# "=") then
    pwhen (bool_decide (section st = None) || bool_decide (key_token st = None))
      parser_error ;; pret st
  else if strcmp_eq t (B# ";") then end_assignment st
  else name_token st t.

(** The body of the token loop; [iter] points behind the token [t], as an offset
    into the buffer. A comment is cut out of the buffer. *)
Definition token_step (st : run_state) (t : list Z) (iter : nat) : P (run_state * nat) :=
  do data <- pgets c_data;
  if strcmp_eq t (B# "//") then
    match strstr (drop iter data) [10] with
    | None => praise NullDeref
    | Some rest =>
        context_filled (take (iter - 2) data ++ tail rest) ;; pret (st, (iter - 2)%nat)
    end
  else if strcmp_eq t (B# "/*") then
    context_filled (drop iter data) ;;
    pret (Run (section st) (section_token st) (key_token st) (value_token st) true, O)
  else do st <- command st t; pret (st, iter).

(** The token loop: runs until an error, a comment or the last complete token,
    and tells whether it ended for want of a token. *)
Fixpoint token_loop (fuel : nat) (st : run_state) (iter : nat) : P (run_state * nat * bool) :=
  match fuel with
  | O => pfuel
  | S fuel =>
      do c <- pgets id;
      if c_error c || in_comment st then pret (st, iter, false)
      else
        do (t, rest) <- gettoken (drop iter (c_data c));
        let iter := (length (c_data c) - length rest)%nat in
        match t with
        | None => pret (st, iter, true)
        | Some t => do (st, iter) <- token_step st t iter; token_loop fuel st iter
        end
  end.

(** Every token takes at least one byte of the buffer. *)
Definition run_tokens (st : run_state) : P (run_state * nat * bool) :=
  do d <- pgets c_data; token_loop (length d + 2) st 0.

(** The state of the outer loop: [need_more_space] and [need_more_data] beside
    the token state. *)
Record loop_state := Loop { l_run : run_state; l_space : bool; l_data : bool }.

Inductive verdict := go_on (l : loop_state) | returned (r : Z).

(** The buffer is doubled when more space is needed. *)
Definition grow (l : loop_state) : P bool :=
  if l_space l then
    do ok <- malloc;
    if ok then
      do size <- pgets c_size; pmodify (set_size (size * 2)) ;; pret true
    else parser_error ;; pret false
  else pret true.

(** Reading one more line; [None] is [continue]. *)
Definition read_more (l : loop_state) : P (verdict + unit) :=
  do c <- pgets id;
  do r <- fgets (c_size c - Z.of_nat (length (c_data c)));
  match r with
  | fg_error => parser_error ;; pret (inl (returned (-1)))
  | fg_eof => pret (inl (go_on l))
  | fg_line s =>
      let s := cstr s in
      context_filled (c_data c ++ s) ;;
      if bool_decide (last s = Some 10) then
        pmodify (set_line (c_line c + 1)) ;; pret (inr tt)
      else pret (inl (go_on (Loop (l_run l) true true)))
  end.

(** Inside a comment everything up to its end is thrown away. *)
Definition skip_comment (st : run_state) : P (option run_state) :=
  if in_comment st then
    do d <- pgets c_data;
    match strstr d (B# "*/") with
    | Some rest =>
        context_filled (drop 2 rest) ;;
        pret (Some (Run (section st) (section_token st) (key_token st) (value_token st) false))
    | None => context_filled [] ;; pret None
    end
  else pret (Some st).

(** The buffer ends in a newline: its tokens are handled, what is left of it is
    moved to the front. *)
Definition process (l : loop_state) : P verdict :=
  do st <- skip_comment (l_run l);
  match st with
  | None => pret (go_on (Loop (l_run l) false true))
  | Some st =>
      do (st, iter, no_token) <- run_tokens st;
      do d <- pgets c_data;
      context_filled (drop iter d) ;;
      pret (go_on (Loop st false no_token))
  end.

(** One iteration of the outer loop. *)
Definition run_step (l : loop_state) : P verdict :=
  do c <- pgets id;
  passert 479 (Z.of_nat (length (c_data c)) <? c_size c) ;;
  do ok <- grow l;
  if negb ok then pret (returned (-1)) else
  let l := Loop (l_run l) false (l_data l) in
  do r <- (if l_data l then read_more l else pret (inr tt));
  match r with
  | inl v => pret v
  | inr _ => process l
  end.

Fixpoint run_loop (fuel : nat) (l : loop_state) : P verdict :=
  match fuel with
  | O => pfuel
  | S fuel =>
      do c <- pgets id;
      if c_error c || c_eof c then pret (go_on l)
      else
        do v <- run_step l;
        match v with
        | go_on l => run_loop fuel l
        | returned r => pret (returned r)
        end
  end.

(** Each iteration reads a byte, grows the buffer, ends a comment or is the last
    one before a read. *)
Definition run_fuel (c : parser_context) : nat := 4 * length (c_rest c) + 8.

(** [parser_run] *)
Definition parser_run : P Z :=
  do fuel <- pgets run_fuel;
  do v <- run_loop fuel (Loop (Run None None None None false) false true);
  match v with
  | returned r => pret r
  | go_on l =>
      let st := l_run l in
      let stale {A} (o : option A) := negb (bool_decide (o = None)) in
      pwhen (stale (section st) || stale (section_token st) ||
             stale (key_token st) || stale (value_token st)) parser_error ;;
      do c <- pgets id;
      pret (if c_error c then -1 else 0)
  end.

End Parser.

Arguments parser_context : clear implicits.
Arguments parser_entry : clear implicits.
Arguments parser_section : clear implicits.
Arguments presult : clear implicits.
Arguments P : clear implicits.
Arguments run_state : clear implicits.
Arguments loop_state : clear implicits.
Arguments verdict : clear implicits.
Arguments POk {U A} a c.
Arguments PFault {U A} f c.
Arguments PFuel {U A} c.
