(* ===== verification/RedConfig.v ===== *)
(** * The [base] and [redsocks] sections ([base.c], [redsocks.c])

    What the two sections of the configuration file store, their defaults, and
    the checks made when a section ends. *)

From S2P Require Import Prelude CLib RedWorld Parser.

Open Scope Z_scope.

(** ** State *)

(** [redirector_subsystems] as compiled for Linux. *)
Inductive redirector_subsys := redir_iptables | redir_generic.

(** [base_instance] *)
Record base_instance := Base {
  configured : bool;
  chroot : option (list Z);
  user : option (list Z);
  group : option (list Z);
  redirector_name : option (list Z);
  redirector : option redirector_subsys;
  log_name : option (list Z);
  log_debug : bool;
  log_info : bool;
  daemon : bool;
  keepalive_time : Z;
  keepalive_probes : Z;
  keepalive_intvl : Z;
  rlimit_nofile : Z;
  conn_max : Z;
  idle_timeout : Z;
  max_backoff_ms : Z;
}.

Definition with_chroot (g : option (list Z) -> option (list Z)) (r : base_instance) : base_instance :=
  Base (configured r) (g (chroot r)) (user r) (group r) (redirector_name r) (redirector r)
    (log_name r) (log_debug r) (log_info r) (daemon r) (keepalive_time r) (keepalive_probes
    r) (keepalive_intvl r) (rlimit_nofile r) (conn_max r) (idle_timeout r) (max_backoff_ms
    r).
Definition with_user (g : option (list Z) -> option (list Z)) (r : base_instance) : base_instance :=
  Base (configured r) (chroot r) (g (user r)) (group r) (redirector_name r) (redirector r)
    (log_name r) (log_debug r) (log_info r) (daemon r) (keepalive_time r) (keepalive_probes
    r) (keepalive_intvl r) (rlimit_nofile r) (conn_max r) (idle_timeout r) (max_backoff_ms
    r).
Definition with_group (g : option (list Z) -> option (list Z)) (r : base_instance) : base_instance :=
  Base (configured r) (chroot r) (user r) (g (group r)) (redirector_name r) (redirector r)
    (log_name r) (log_debug r) (log_info r) (daemon r) (keepalive_time r) (keepalive_probes
    r) (keepalive_intvl r) (rlimit_nofile r) (conn_max r) (idle_timeout r) (max_backoff_ms
    r).
Definition with_redirector_name (g : option (list Z) -> option (list Z)) (r : base_instance) : base_instance :=
  Base (configured r) (chroot r) (user r) (group r) (g (redirector_name r)) (redirector r)
    (log_name r) (log_debug r) (log_info r) (daemon r) (keepalive_time r) (keepalive_probes
    r) (keepalive_intvl r) (rlimit_nofile r) (conn_max r) (idle_timeout r) (max_backoff_ms
    r).
Definition with_redirector (g : option redirector_subsys -> option redirector_subsys) (r : base_instance) : base_instance :=
  Base (configured r) (chroot r) (user r) (group r) (redirector_name r) (g (redirector r))
    (log_name r) (log_debug r) (log_info r) (daemon r) (keepalive_time r) (keepalive_probes
    r) (keepalive_intvl r) (rlimit_nofile r) (conn_max r) (idle_timeout r) (max_backoff_ms
    r).
Definition with_log_name (g : option (list Z) -> option (list Z)) (r : base_instance) : base_instance :=
  Base (configured r) (chroot r) (user r) (group r) (redirector_name r) (redirector r) (g
    (log_name r)) (log_debug r) (log_info r) (daemon r) (keepalive_time r) (keepalive_probes
    r) (keepalive_intvl r) (rlimit_nofile r) (conn_max r) (idle_timeout r) (max_backoff_ms
    r).
Definition with_log_debug (g : bool -> bool) (r : base_instance) : base_instance :=
  Base (configured r) (chroot r) (user r) (group r) (redirector_name r) (redirector r)
    (log_name r) (g (log_debug r)) (log_info r) (daemon r) (keepalive_time r)
    (keepalive_probes r) (keepalive_intvl r) (rlimit_nofile r) (conn_max r) (idle_timeout r)
    (max_backoff_ms r).
Definition with_log_info (g : bool -> bool) (r : base_instance) : base_instance :=
  Base (configured r) (chroot r) (user r) (group r) (redirector_name r) (redirector r)
    (log_name r) (log_debug r) (g (log_info r)) (daemon r) (keepalive_time r)
    (keepalive_probes r) (keepalive_intvl r) (rlimit_nofile r) (conn_max r) (idle_timeout r)
    (max_backoff_ms r).
Definition with_daemon (g : bool -> bool) (r : base_instance) : base_instance :=
  Base (configured r) (chroot r) (user r) (group r) (redirector_name r) (redirector r)
    (log_name r) (log_debug r) (log_info r) (g (daemon r)) (keepalive_time r)
    (keepalive_probes r) (keepalive_intvl r) (rlimit_nofile r) (conn_max r) (idle_timeout r)
    (max_backoff_ms r).
Definition with_keepalive_time (g : Z -> Z) (r : base_instance) : base_instance :=
  Base (configured r) (chroot r) (user r) (group r) (redirector_name r) (redirector r)
    (log_name r) (log_debug r) (log_info r) (daemon r) (g (keepalive_time r))
    (keepalive_probes r) (keepalive_intvl r) (rlimit_nofile r) (conn_max r) (idle_timeout r)
    (max_backoff_ms r).
Definition with_keepalive_probes (g : Z -> Z) (r : base_instance) : base_instance :=
  Base (configured r) (chroot r) (user r) (group r) (redirector_name r) (redirector r)
    (log_name r) (log_debug r) (log_info r) (daemon r) (keepalive_time r) (g
    (keepalive_probes r)) (keepalive_intvl r) (rlimit_nofile r) (conn_max r) (idle_timeout
    r) (max_backoff_ms r).
Definition with_keepalive_intvl (g : Z -> Z) (r : base_instance) : base_instance :=
  Base (configured r) (chroot r) (user r) (group r) (redirector_name r) (redirector r)
    (log_name r) (log_debug r) (log_info r) (daemon r) (keepalive_time r) (keepalive_probes
    r) (g (keepalive_intvl r)) (rlimit_nofile r) (conn_max r) (idle_timeout r)
    (max_backoff_ms r).
Definition with_rlimit_nofile (g : Z -> Z) (r : base_instance) : base_instance :=
  Base (configured r) (chroot r) (user r) (group r) (redirector_name r) (redirector r)
    (log_name r) (log_debug r) (log_info r) (daemon r) (keepalive_time r) (keepalive_probes
    r) (keepalive_intvl r) (g (rlimit_nofile r)) (conn_max r) (idle_timeout r)
    (max_backoff_ms r).
Definition with_conn_max (g : Z -> Z) (r : base_instance) : base_instance :=
  Base (configured r) (chroot r) (user r) (group r) (redirector_name r) (redirector r)
    (log_name r) (log_debug r) (log_info r) (daemon r) (keepalive_time r) (keepalive_probes
    r) (keepalive_intvl r) (rlimit_nofile r) (g (conn_max r)) (idle_timeout r)
    (max_backoff_ms r).
Definition with_idle_timeout (g : Z -> Z) (r : base_instance) : base_instance :=
  Base (configured r) (chroot r) (user r) (group r) (redirector_name r) (redirector r)
    (log_name r) (log_debug r) (log_info r) (daemon r) (keepalive_time r) (keepalive_probes
    r) (keepalive_intvl r) (rlimit_nofile r) (conn_max r) (g (idle_timeout r))
    (max_backoff_ms r).
Definition with_max_backoff_ms (g : Z -> Z) (r : base_instance) : base_instance :=
  Base (configured r) (chroot r) (user r) (group r) (redirector_name r) (redirector r)
    (log_name r) (log_debug r) (log_info r) (daemon r) (keepalive_time r) (keepalive_probes
    r) (keepalive_intvl r) (rlimit_nofile r) (conn_max r) (idle_timeout r) (g
    (max_backoff_ms r)).

(** [memset(&instance, 0, sizeof(instance))] *)
Definition base_zero : base_instance :=
  Base false None None None None None None false false false 0 0 0 0 0 0 0.

(** The state the sections write to: [base.c]'s instance, [section->data] of the
    open [redsocks] section, and the list of finished instances. *)
Record config_state := ConfigState {
  cs_base : base_instance;
  cs_data : option redsocks_config;
  cs_instances : list (relay_subsys * redsocks_config);
}.

Notation CP := (P config_state).
Notation "'do' x <- m ; k" := (pbind m (fun x => k))
  (at level 200, x pattern, m at level 100, k at level 200, right associativity).
Notation "m ;; k" := (pbind m (fun _ => k)) (at level 100, right associativity).

Definition get_user : CP config_state := pgets c_user.
Definition put_user (u : config_state) : CP unit := pmodify (set_user u).
Definition put_base (b : base_instance) : CP unit :=
  do u <- get_user; put_user (ConfigState b (cs_data u) (cs_instances u)).

(** ** [base] *)

(** An entry of [base_entries] points into the one instance of [base.c]. *)
Definition base_entry (key : list Z) (t : parser_type)
    (set : value -> base_instance -> base_instance) : parser_entry config_state :=
  Entry key t (fun v u => Some (ConfigState (set v (cs_base u)) (cs_data u) (cs_instances u))).

Definition str_of (v : value) (old : option (list Z)) : option (list Z) :=
  match v with v_str s => Some s | _ => old end.
Definition bool_of (v : value) (old : bool) : bool := match v with v_bool b => b | _ => old end.
Definition num_of (v : value) (old : Z) : Z :=
  match v with v_u16 z | v_u32 z | v_addr z => z | _ => old end.

Definition base_entries : list (parser_entry config_state) :=
  [base_entry (B# "chroot") pt_pchar (fun v => with_chroot (str_of v));
   base_entry (B# "user") pt_pchar (fun v => with_user (str_of v));
   base_entry (B# "group") pt_pchar (fun v => with_group (str_of v));
   base_entry (B# "redirector") pt_pchar (fun v => with_redirector_name (str_of v));
   base_entry (B# "log") pt_pchar (fun v => with_log_name (str_of v));
   base_entry (B# "log_debug") pt_bool (fun v => with_log_debug (bool_of v));
   base_entry (B# "log_info") pt_bool (fun v => with_log_info (bool_of v));
   base_entry (B# "daemon") pt_bool (fun v => with_daemon (bool_of v));
   base_entry (B# "tcp_keepalive_time") pt_uint16 (fun v => with_keepalive_time (num_of v));
   base_entry (B# "tcp_keepalive_probes") pt_uint16 (fun v => with_keepalive_probes (num_of v));
   base_entry (B# "tcp_keepalive_intvl") pt_uint16 (fun v => with_keepalive_intvl (num_of v));
   base_entry (B# "rlimit_nofile") pt_uint32 (fun v => with_rlimit_nofile (num_of v));
   base_entry (B# "redsocks_conn_max") pt_uint32 (fun v => with_conn_max (num_of v));
   base_entry (B# "connpres_idle_timeout") pt_uint32 (fun v => with_idle_timeout (num_of v));
   base_entry (B# "max_accept_backoff") pt_uint32 (fun v => with_max_backoff_ms (num_of v))].

Definition base_onenter : CP Z :=
  do u <- get_user;
  if configured (cs_base u) then parser_error ;; pret (-1)
  else
    put_base (Base true None None None None None None false false false 0 0 0 0 0 7440 60000) ;;
    pret 0.

Definition redirector_subsystems : list (list Z * redirector_subsys) :=
  [(B# "iptables", redir_iptables); (B# "generic", redir_generic)].

Definition base_onexit : CP Z :=
  do u <- get_user;
  let b := cs_base u in
  if max_backoff_ms b =? 0 then parser_error ;; pret (-1)
  else match redirector_name b with
  | None => parser_error ;; pret (-1)
  | Some name =>
      match find_name redirector_subsystems name with
      | Some ss => put_base (with_redirector (fun _ => Some ss) b) ;; pret 0
      | None => parser_error ;; pret (-1)
      end
  end.

Definition base_conf_section : parser_section config_state :=
  Section_ (B# "base") (Some base_onenter) (Some base_onexit) base_entries.

(** ** [redsocks] *)

(** The kernel's release string has four numbers at most. *)
Fixpoint version_numbers (n : nat) (rel : list Z) : list Z :=
  match n with
  | O => []
  | S n =>
      let (v, e) := strtoul0 rel in
      v :: version_numbers n (skip (fun c => negb (isdigit c)) e)
  end.

(** [is_splice_good]; [None] when [uname] fails. *)
Definition is_splice_good (release : option (list Z)) : bool :=
  match release with
  | None => false
  | Some rel =>
      let v := version_numbers 4 rel in
      let v0 := nth 0 v 0 in let v1 := nth 1 v 0 in let v2 := nth 2 v 0 in let v3 := nth 3 v 0 in
      (2 <? v0) || ((v0 =? 2) && (6 <? v1)) || ((v0 =? 2) && (v1 =? 6) && (27 <? v2))
      || ((v0 =? 2) && (v1 =? 6) && (v2 =? 27) && (13 <=? v3))
  end.

(** [htons] on the value of a port: exchanges its bytes. *)
Definition htons (z : Z) : Z := (z mod 256) * 256 + z / 256.

(** An entry of [redsocks_entries] points into the instance of the open section
    and is [NULL] outside. *)
Definition redsocks_entry (key : list Z) (t : parser_type)
    (set : value -> redsocks_config -> redsocks_config) : parser_entry config_state :=
  Entry key t (fun v u =>
    (fun d => ConfigState (cs_base u) (Some (set v d)) (cs_instances u)) <$> cs_data u).

Definition with_sin_addr (g : Z -> Z) (a : sockaddr_in) : sockaddr_in :=
  SockAddr (sin_family a) (sin_port a) (g (sin_addr a)).
Definition with_sin_port (g : Z -> Z) (a : sockaddr_in) : sockaddr_in :=
  SockAddr (sin_family a) (g (sin_port a)) (sin_addr a).

(** [sin_port] holds the number in host order until the section ends, which is
    the port with its bytes exchanged. *)
Definition raw_port (v : value) (old : Z) : Z := match v with v_u16 z => htons z | _ => old end.

Definition disclose_of (v : value) (old : disclose_src_e) : disclose_src_e :=
  match v with v_disclose d => d | _ => old end.
Definition onfail_of (v : value) (old : on_proxy_fail_e) : on_proxy_fail_e :=
  match v with v_onfail o => o | _ => old end.

Definition redsocks_entries : list (parser_entry config_state) :=
  [redsocks_entry (B# "local_ip") pt_in_addr (fun v => with_bindaddr (with_sin_addr (num_of v)));
   redsocks_entry (B# "local_port") pt_uint16 (fun v => with_bindaddr (with_sin_port (raw_port v)));
   redsocks_entry (B# "ip") pt_in_addr (fun v => with_relayaddr (with_sin_addr (num_of v)));
   redsocks_entry (B# "port") pt_uint16 (fun v => with_relayaddr (with_sin_port (raw_port v)));
   redsocks_entry (B# "type") pt_pchar (fun v => with_cfg_type (str_of v));
   redsocks_entry (B# "login") pt_pchar (fun v => with_login (str_of v));
   redsocks_entry (B# "password") pt_pchar (fun v => with_password (str_of v));
   redsocks_entry (B# "listenq") pt_uint16 (fun v => with_listenq (num_of v));
   redsocks_entry (B# "splice") pt_bool (fun v => with_use_splice (bool_of v));
   redsocks_entry (B# "disclose_src") pt_disclose_src (fun v => with_disclose_src (disclose_of v));
   redsocks_entry (B# "on_proxy_fail") pt_on_proxy_fail (fun v => with_on_proxy_fail (onfail_of v))].

Definition INADDR_LOOPBACK : Z := 0x7f000001.
Definition SOMAXCONN : Z := 128.

Section Redsocks.
Context (release : option (list Z)).

Definition redsocks_onenter : CP Z :=
  do ok <- malloc;
  if negb ok then parser_error ;; pret (-1)
  else
    do u <- get_user;
    let sa := SockAddr AF_INET 0 INADDR_LOOPBACK in
    let c := Config sa sa None None None SOMAXCONN (is_splice_good release) DISCLOSE_NONE
               ONFAIL_CLOSE in
    put_user (ConfigState (cs_base u) (Some c) (cs_instances u)) ;; pret 0.

(** The names of the relay subsystems, in the order of [relay_subsystems]. *)
Definition relay_names : list (list Z * relay_subsys) :=
  [(B# "http-connect", http_connect_subsys); (B# "http-relay", http_relay_subsys);
   (B# "socks4", socks4_subsys); (B# "socks5", socks5_subsys)].

Definition redsocks_onexit : CP Z :=
  do u <- get_user;
  match cs_data u with
  | None => praise NullDeref
  | Some d =>
      let d := with_relayaddr (with_sin_port htons) (with_bindaddr (with_sin_port htons) d) in
      put_user (ConfigState (cs_base u) None (cs_instances u)) ;;
      match cfg_type d with
      | None => parser_error ;; pret (-1)
      | Some t =>
          match find_name relay_names t with
          | None => parser_error ;; pret (-1)
          | Some ss =>
              put_user (ConfigState (cs_base u) None ((ss, d) :: cs_instances u)) ;;
              if negb (bool_decide (disclose_src d = DISCLOSE_NONE)) &&
                 negb (bool_decide (ss = http_connect_subsys)) then parser_error ;; pret (-1)
              else if negb (bool_decide (on_proxy_fail d = ONFAIL_CLOSE)) &&
                 negb (bool_decide (ss = http_connect_subsys)) then parser_error ;; pret (-1)
              else pret 0
          end
      end
  end.

Definition redsocks_conf_section : parser_section config_state :=
  Section_ (B# "redsocks") (Some redsocks_onenter) (Some redsocks_onexit) redsocks_entries.

(** [main] registers the sections one after the other. *)
Definition conf_sections : list (parser_section config_state) :=
  parser_add_section (parser_add_section [] redsocks_conf_section) base_conf_section.

End Redsocks.

(** ** Starting up *)

Inductive init_result := init_returned (r : Z) | init_parent_exits.

(** [base_fini]; the two redirectors of Linux have nothing to close. *)
Definition base_fini : CP Z := put_base base_zero ;; pret 0.

(** A system call: negative is failure. *)
Definition call_ok (needed : bool) : CP bool :=
  if needed then (do r <- psys; pret (0 <=? r)) else pret true.

(** [redsocks_has_splice_instance] on the finished instances. *)
Definition has_splice (u : config_state) : bool := existsb (fun i => use_splice i.2) (cs_instances u).

(** The limit on connections, when the configuration sets none: three quarters of
    the descriptors, two for a connection, six when pipes are used. *)
Definition default_conn_max (nofile : Z) (splice : bool) : Z :=
  u32 (nofile - nofile / 4) / (if splice then 6 else 2).

(** The limits of [base_init]: [RLIMIT_NOFILE] is set or read, then the number of
    connections is computed. *)
Definition base_limits : CP bool :=
  do u <- get_user;
  let b := cs_base u in
  do ok <- call_ok true;
  if negb ok then pret false
  else
    do nofile <- (if negb (rlimit_nofile b =? 0) then pret (rlimit_nofile b)
                  else (do r <- psys; pret (u32 r)));
    let b := with_rlimit_nofile (fun _ => nofile) b in
    put_base (if conn_max b =? 0
              then with_conn_max (fun _ => default_conn_max nofile (has_splice u)) b else b) ;;
    pret true.

(** The descriptors 0, 1 and 2 are replaced one after the other. *)
Definition base_detach : CP bool :=
  do a <- call_ok true; do b <- call_ok a; do c <- call_ok (a && b); do d <- call_ok (a && b && c);
  pret (a && b && c && d).

Definition is_set {A} (o : option A) : bool := negb (bool_decide (o = None)).

(** [base_init]. [fork] answers 0 in the child, the only process that goes on. *)
Definition base_init : CP init_result :=
  do u <- get_user;
  let b := cs_base u in
  let fail := base_fini ;; pret (init_returned (-1)) in
  if negb (configured b) then pret (init_returned (-1))
  else match redirector b with
  | None => praise NullDeref
  | Some _ =>
      do ok <- call_ok (is_set (user b)); if negb ok then fail else
      do ok <- call_ok (is_set (group b)); if negb ok then fail else
      do ok <- call_ok true; if negb ok then fail else
      do ok <- base_limits; if negb ok then fail else
      do ok <- call_ok (daemon b); if negb ok then fail else
      do ok <- call_ok (is_set (chroot b)); if negb ok then fail else
      do ok <- call_ok (daemon b || is_set (chroot b)); if negb ok then fail else
      do ok <- call_ok (is_set (group b)); if negb ok then fail else
      do ok <- call_ok (is_set (user b)); if negb ok then fail else
      do pid <- (if daemon b then psys else pret 0);
      if pid <? 0 then fail
      else if 0 <? pid then pret init_parent_exits
      else
        do ok <- (if daemon b then base_detach else pret true);
        if negb ok then fail else pret (init_returned 0)
  end.

(** What [redsocks.c] reads of [base.c] once the process runs. *)
Definition base_config (b : base_instance) : BaseConfig :=
  Build_BaseConfig (conn_max b) (idle_timeout b) (max_backoff_ms b)
    (keepalive_time b) (keepalive_probes b) (keepalive_intvl b).
