(* ===== verification/ParserSafety.v ===== *)
(** * The parser returns on every file

    [parser_run] on an arbitrary file and in an arbitrary environment: the
    buffer never overflows, the loops end, no null pointer is followed, and the
    only assertion that can fail is the one behind a lone semicolon. The
    sections are known through the interface [SectionsOk] alone. *)

From S2P Require Import Prelude CLib RedWorld Parser.

Open Scope Z_scope.

Notation "'do' x <- m ; k" := (pbind m (fun x => k))
  (at level 200, x pattern, m at level 100, k at level 200, right associativity).
Notation "m ;; k" := (pbind m (fun _ => k)) (at level 100, right associativity).

(** ** A program logic *)

Section Logic.
Context {U : Type} (F : fault -> Prop).

(** [m] neither runs out of fuel nor faults outside [F], and its result
    satisfies [Q]. *)
Definition pwp {A} (m : P U A) (Q : A -> parser_context U -> Prop) (c : parser_context U) : Prop :=
  match m c with
  | POk a c' => Q a c'
  | PFault f _ => F f
  | PFuel _ => False
  end.

Lemma pwp_ret {A} (a : A) (Q : A -> parser_context U -> Prop) c : Q a c -> pwp (pret a) Q c.
Proof. done. Qed.

Lemma pwp_bind {A B} (m : P U A) (k : A -> P U B) Q c :
  pwp m (fun a => pwp (k a) Q) c -> pwp (pbind m k) Q c.
Proof. unfold pwp, pbind. now destruct (m c). Qed.

Lemma pwp_mono {A} (m : P U A) (Q1 Q2 : A -> parser_context U -> Prop) c :
  pwp m Q1 c -> (forall a c', Q1 a c' -> Q2 a c') -> pwp m Q2 c.
Proof. unfold pwp. destruct (m c); auto. Qed.

Lemma pwp_gets {A} (g : parser_context U -> A) (Q : A -> parser_context U -> Prop) c :
  Q (g c) c -> pwp (pgets g) Q c.
Proof. done. Qed.

Lemma pwp_modify g (Q : unit -> parser_context U -> Prop) c : Q tt (g c) -> pwp (pmodify g) Q c.
Proof. done. Qed.

Lemma pwp_when b m (Q : unit -> parser_context U -> Prop) c :
  (b = true -> pwp m Q c) -> (b = false -> Q tt c) -> pwp (pwhen b m) Q c.
Proof. destruct b; cbn; auto. Qed.

(** Everything but the answers of the environment is kept. *)
Definition same (c c' : parser_context U) : Prop :=
  exists s, c' = Ctx (c_rest c) (c_ferror c) (c_eof c) (c_size c) (c_data c) (c_line c)
                  (c_error c) s (c_user c).

Lemma same_refl c : same c c.
Proof. exists (c_script c). now destruct c. Qed.

Lemma pwp_sys (Q : Z -> parser_context U -> Prop) c :
  (forall r c', same c c' -> Q r c') -> pwp psys Q c.
Proof.
  intros H. unfold pwp, psys. destruct (c_script c) as [|r s] eqn:E.
  - apply H, same_refl.
  - apply H. now exists s.
Qed.

Lemma pwp_malloc (Q : bool -> parser_context U -> Prop) c :
  (forall b c', same c c' -> Q b c') -> pwp malloc Q c.
Proof. intros H. apply pwp_bind, pwp_sys. intros r c' Hs. apply pwp_ret, H, Hs. Qed.

(** ** What a section may change *)

(** A callback of a section touches the error flag, which it may only set, the
    environment and the state of the sections. *)
Record called (c c' : parser_context U) : Prop := Called {
  cl_rest : c_rest c' = c_rest c;
  cl_ferror : c_ferror c' = c_ferror c;
  cl_eof : c_eof c' = c_eof c;
  cl_size : c_size c' = c_size c;
  cl_data : c_data c' = c_data c;
  cl_line : c_line c' = c_line c;
  cl_error : c_error c = true -> c_error c' = true;
}.

Lemma called_refl c : called c c.
Proof. now split. Qed.

Lemma called_trans c1 c2 c3 : called c1 c2 -> called c2 c3 -> called c1 c3.
Proof. intros [] []. split; try congruence. auto. Qed.

Lemma same_called c c' : same c c' -> called c c'.
Proof. intros [s ->]. now split. Qed.

Lemma error_called (c : parser_context U) : called c (set_error true c).
Proof. now split. Qed.

Lemma user_called u (c : parser_context U) : called c (set_user u c).
Proof. now split. Qed.

End Logic.

#[export] Hint Resolve called_refl same_called error_called user_called : s2p.

(** ** Tokens *)

Definition not_newline (c : Z) : Prop := c <> 10.

(** The two passes over a quoted string agree: the copy fits in the room that
    was counted and stops behind the closing quote. *)
Lemma cstr_passes p k n :
  cstr_len p k = sc_len n ->
  (k <= n)%nat /\ exists t u rest,
    cstr_copy p (n - k) = Some (t, rest) /\ p = u ++ rest /\ last u = Some 34.
Proof.
  remember (length p) as m eqn:Em. revert p k Em.
  induction m as [m IH] using lt_wf_ind. intros [|c p] k Em H; [done|].
  cbn [length] in Em. cbn [cstr_len] in H. cbn [cstr_copy].
  destruct (c =? 34) eqn:E34.
  - injection H as <-. split; [lia|]. exists [], [c], p.
    replace (k - k)%nat with 0%nat by lia. apply Z.eqb_eq in E34. now subst.
  - assert (forall q (f : Z), (length q < m)%nat -> cstr_len q (k + 1) = sc_len n ->
      (k <= n)%nat /\ exists n' t u rest, (n - k)%nat = S n' /\
        cstr_copy q n' = Some (t, rest) /\ q = u ++ rest /\ last u = Some 34) as Step.
    { intros q f Hq Hn. destruct (IH _ Hq q _ eq_refl Hn) as (Hle & t & u & rest & E & Eq & El).
      split; [lia|]. exists (n - (k + 1))%nat, t, u, rest. split; [lia|done]. }
    destruct (c =? 92) eqn:E92.
    + destruct p as [|e p]; [done|]. destruct (unescape e =? 0) eqn:Ee; cbn [negb] in H; [done|].
      destruct (Step p 0 ltac:(cbn in Em; lia) H) as (Hle & n' & t & u & rest & -> & E & Eq & El).
      split; [done|]. rewrite E. cbn. exists (unescape e :: t), (c :: e :: u), rest.
      rewrite Eq. split; [done|]. split; [done|]. destruct u; [done|]. exact El.
    + destruct (Step p 0 ltac:(lia) H) as (Hle & n' & t & u & rest & -> & E & Eq & El).
      split; [done|]. rewrite E. cbn. exists (c :: t), (c :: u), rest.
      rewrite Eq. split; [done|]. split; [done|]. destruct u; [done|]. exact El.
Qed.

Lemma digit_not_newline c : isdigit c || (c =? 46) = true -> not_newline c.
Proof. unfold isdigit, not_newline. lia. Qed.

Lemma number_len_take p n : number_len p = Some n -> (n <= length p)%nat /\ Forall not_newline (take n p).
Proof.
  revert n. induction p as [|c p IH]; intros n H; [done|]. cbn [number_len] in H.
  assert (forall (Hc : not_newline c), S <$> number_len p = Some n ->
    (n <= length (c :: p))%nat /\ Forall not_newline (take n (c :: p))) as Step.
  { intros Hc Hn. destruct (number_len p) as [k|]; [|done]. injection Hn as <-.
    destruct (IH k eq_refl). cbn. split; [lia|]. now constructor. }
  destruct (isdigit c || (c =? 46)) eqn:E1; [apply Step; [now apply digit_not_newline|done]|].
  destruct (c =? 47) eqn:E2; [|injection H as <-; split; [lia|constructor]].
  destruct (isdigit (peek p)); [apply Step; [unfold not_newline; lia|done]|].
  destruct ((peek p =? 47) || (peek p =? 42)); [|done].
  injection H as <-. split; [lia|constructor].
Qed.

Lemma word_not_newline c : word_char c = true -> not_newline c.
Proof. unfold word_char, isalnum, isalpha, isupper, islower, isdigit, not_newline. lia. Qed.

Lemma word_len_take p n : word_len p = Some n -> (n <= length p)%nat /\ Forall not_newline (take n p).
Proof.
  revert n. induction p as [|c p IH]; intros n H; [done|]. cbn [word_len] in H.
  destruct (word_char c) eqn:E; [|injection H as <-; split; [lia|constructor]].
  destruct (word_len p) as [k|]; [|done]. injection H as <-. destruct (IH k eq_refl).
  cbn. split; [lia|]. constructor; [now apply word_not_newline|done].
Qed.

(** What [gettoken] leaves: a suffix of what it was given, shorter by a part that
    does not end in a newline when there is a token. *)
Record cut (p : list Z) (t : option (list Z)) (rest : list Z) : Prop := Cut {
  cut_suffix : exists u, p = u ++ rest;
  cut_token : t <> None -> (length rest < length p)%nat;
  cut_newline : t <> None -> last p = Some 10 -> last rest = Some 10;
}.

Lemma cut_none p : cut p None (skip_spaces p).
Proof.
  split; [|done..]. exists (span isspace p).1. symmetry. apply span_app.
Qed.

(** A token in front of which only white space was skipped. *)
Lemma cut_some p t u rest x :
  skip_spaces p = u ++ rest -> last u = Some x -> not_newline x -> cut p (Some t) rest.
Proof.
  intros E Hl Hx. pose proof (span_app isspace p) as Hp. unfold skip_spaces, skip in E.
  rewrite E in Hp. set (sp := (span isspace p).1) in *.
  assert (u <> []) as Hu by now intros ->.
  split.
  - exists (sp ++ u). now rewrite <- app_assoc.
  - intros _. rewrite <- Hp, !length_app. destruct u; [done|cbn; lia].
  - intros _. rewrite <- Hp. destruct rest as [|y rest]; [|rewrite !last_app, last_cons; now destruct (last rest)].
    rewrite app_nil_r, last_app, Hl. intros [= ->]. now destruct Hx.
Qed.

Section Gettoken.
Context {U : Type} (F : fault -> Prop).

(** A call that leaves the state of the sections alone, too. *)
Definition stays (c c' : parser_context U) : Prop := called c c' /\ c_user c' = c_user c.

Lemma stays_refl c : stays c c.
Proof. split; auto with s2p. Qed.

Lemma stays_same c c' : same c c' -> stays c c'.
Proof. intros H. split; [auto with s2p|]. now destruct H as [s ->]. Qed.

Lemma stays_error c c' : same c c' -> stays c (set_error true c').
Proof.
  intros H. split; [eapply called_trans; [apply (same_called _ _ H)|auto with s2p]|].
  now destruct H as [s ->].
Qed.

Lemma pwp_plain_token p len (Q : option (list Z) * list Z -> parser_context U -> Prop) c :
  (forall n, len = Some n -> cut p (Some (take n (skip_spaces p))) (drop n (skip_spaces p))) ->
  (forall t rest c', cut p t rest -> stays c c' -> (t <> None -> same c c') -> Q (t, rest) c') ->
  pwp F (plain_token (skip_spaces p) len) Q c.
Proof.
  intros Hc HQ. unfold plain_token. destruct len as [n|].
  - apply pwp_bind, pwp_malloc. intros [] c' Hs.
    + apply pwp_ret, HQ; [now apply Hc|now apply stays_same|done].
    + apply pwp_bind, pwp_modify, pwp_ret, HQ; [apply cut_none|now apply stays_error|done].
  - apply pwp_ret, HQ; [apply cut_none|apply stays_refl|done].
Qed.

Lemma cut_take p n :
  (1 <= n <= length (skip_spaces p))%nat -> Forall not_newline (take n (skip_spaces p)) ->
  cut p (Some (take n (skip_spaces p))) (drop n (skip_spaces p)).
Proof.
  intros Hn Hf. destruct (last (take n (skip_spaces p))) as [x|] eqn:E.
  - apply (cut_some p _ (take n (skip_spaces p)) _ x); [symmetry; apply take_drop|done|].
    apply last_Some in E as [l' El]. rewrite El in Hf. apply Forall_app in Hf as [_ Hf].
    now inversion Hf.
  - apply last_None in E. apply (f_equal length) in E. rewrite length_take in E. cbn in E. lia.
Qed.

Lemma pwp_gettoken p (Q : option (list Z) * list Z -> parser_context U -> Prop) c :
  (forall t rest c', cut p t rest -> stays c c' -> (t <> None -> same c c') -> Q (t, rest) c') ->
  pwp F (gettoken p) Q c.
Proof.
  intros HQ. unfold gettoken.
  pose proof (cut_none p) as Hnone. pose proof (cut_take p) as Htake.
  pose proof (pwp_plain_token p) as Hplain. pose proof (cut_some p) as Hsome.
  destruct (skip_spaces p) as [|x q] eqn:E.
  { apply pwp_ret, HQ; [done|apply stays_refl|done]. }
  assert (forall c', same c c' -> Q (None, x :: q) (set_error true c')) as Herr.
  { intros c' Hs. apply HQ; [done|now apply stays_error|done]. }
  destruct (x =? 34) eqn:E34.
  { destruct (cstr_len q 0) as [| |n] eqn:El.
    - apply pwp_ret, HQ; [done|apply stays_refl|done].
    - apply pwp_bind, pwp_modify, pwp_ret, Herr, same_refl.
    - apply pwp_bind, pwp_malloc. intros [] c' Hs;
        [|now apply pwp_bind, pwp_modify, pwp_ret, Herr].
      destruct (cstr_passes _ _ _ El) as (_ & t & u & rest & Ec & Eq & Hl).
      rewrite Nat.sub_0_r in Ec. rewrite Ec.
      apply pwp_ret, HQ; [|now apply stays_same|done].
      apply (Hsome t (x :: u) rest 34); [now rewrite Eq|rewrite last_cons; now rewrite Hl|done]. }
  destruct (isdigit x) eqn:Ed.
  { apply Hplain; [|done]. intros n Hn.
    destruct (number_len_take _ _ Hn) as [Hle Hf]. apply Htake; [|done].
    cbn [number_len] in Hn. rewrite Ed in Hn. cbn [orb] in Hn.
    destruct (number_len q); [|done]. injection Hn as <-. lia. }
  destruct (isalpha x) eqn:Ea.
  { apply Hplain; [|done]. intros n Hn.
    destruct (word_len_take _ _ Hn) as [Hle Hf]. apply Htake; [|done].
    cbn [word_len] in Hn. unfold word_char, isalnum in Hn. rewrite Ea in Hn. cbn [orb] in Hn.
    destruct (word_len q); [|done]. injection Hn as <-. lia. }
  destruct (punctuation x) eqn:Ep.
  { apply Hplain; [|done]. intros n [= <-]. apply Htake; [cbn; lia|].
    constructor; [|constructor]. unfold punctuation, not_newline in *. lia. }
  destruct ((x =? 47) && ((peek q =? 47) || (peek q =? 42))) eqn:Ec.
  { apply Hplain; [|done]. intros n [= <-]. destruct q as [|y q]; [cbn in Ec; lia|].
    cbn [peek] in Ec. apply Htake; [cbn; lia|].
    repeat constructor; unfold not_newline; lia. }
  apply pwp_bind, pwp_modify, pwp_ret, Herr, same_refl.
Qed.

End Gettoken.

(** ** Values *)

Lemma base_value_nonneg b l : 0 <= b -> Forall (fun c => 0 <= digit_value c) l -> 0 <= base_value b l.
Proof.
  intros Hb Hl. unfold base_value.
  enough (forall v, 0 <= v -> 0 <= foldl (fun v c => b * v + digit_value c) v l) as H by (apply H; lia).
  induction Hl as [|c l Hc Hl IH]; intros v Hv; [done|]. cbn. apply IH. nia.
Qed.

Lemma span_forall (f : Z -> bool) (Q : Z -> Prop) p :
  (forall c, f c = true -> Q c) -> Forall Q (span f p).1.
Proof.
  intros H. induction p as [|c p IH]; [constructor|]. cbn [span]. destruct (f c) eqn:E; [|constructor].
  destruct (span f p). constructor; auto.
Qed.

Lemma isxdigit_value c : isxdigit c = true -> 0 <= digit_value c.
Proof.
  unfold isxdigit, digit_value. destruct (isdigit c) eqn:E; unfold isdigit in E; cbn; lia.
Qed.

Lemma isdigit_isxdigit c : isdigit c = true -> isxdigit c = true.
Proof. unfold isxdigit. now intros ->. Qed.

Lemma isoctal_isxdigit c : isoctal c = true -> isxdigit c = true.
Proof. intros H. apply isdigit_isxdigit. unfold isoctal, isdigit in *. lia. Qed.

Lemma strtoul0_range p : 0 <= (strtoul0 p).1 <= UINT64_MAX.
Proof.
  unfold strtoul0. set (q := if (_ || _) then _ else _). set (neg := peek (skip_spaces p) =? 45).
  assert (forall b l, 0 <= base_value b l ->
    0 <= (if UINT64_MAX <? base_value b l then UINT64_MAX
          else if neg then u64 (- base_value b l) else base_value b l) <= UINT64_MAX) as H.
  { intros b l Hv. destruct (UINT64_MAX <? base_value b l) eqn:E; [unfold UINT64_MAX; lia|].
    destruct neg; [|lia]. unfold u64, UINT64_MAX.
    pose proof (Z.mod_pos_bound (- base_value b l) 18446744073709551616). lia. }
  assert (forall b (f : Z -> bool) r, 0 <= b -> (forall c, f c = true -> isxdigit c = true) ->
    0 <= base_value b (span f r).1) as Hs.
  { intros b f r Hb Hf. apply base_value_nonneg; [done|]. apply span_forall. auto using isxdigit_value. }
  cbv zeta.
  destruct (_ && _); [apply H, Hs; [lia|done]|].
  destruct (peek q =? 48); [apply H, Hs; [lia|apply isoctal_isxdigit]|].
  destruct (isdigit (peek q)); [apply H, Hs; [lia|apply isdigit_isxdigit]|].
  cbn. unfold UINT64_MAX. lia.
Qed.

Definition is_u16 (z : Z) : Prop := 0 <= z < 65536.

(** The values an entry of each type may be given. *)
Definition typed (t : parser_type) (v : value) : Prop :=
  match t, v with
  | pt_bool, v_bool _ | pt_pchar, v_str _ => True
  | pt_uint16, v_u16 z => is_u16 z
  | pt_uint32, v_u32 z | pt_in_addr, v_addr z | pt_in_addr2, v_addr z | pt_in_addr2, v_mask z => is_u32 z
  | pt_disclose_src, v_disclose _ | pt_on_proxy_fail, v_onfail _ => True
  | _, _ => False
  end.

Lemma aton_parts_nonneg n p l : aton_parts n p = Some l -> Forall (fun z => 0 <= z) l.
Proof.
  revert p l. induction n as [|n IH]; intros p l H; [done|]. cbn [aton_parts] in H.
  pose proof (strtoul0_range p) as Hr. destruct (strtoul0 p) as [v e]. cbn [fst] in Hr.
  destruct (length e =? length p)%nat; [done|].
  destruct e as [|c e]; [injection H as <-; repeat constructor; lia|].
  destruct (c =? 46); [|done]. destruct (aton_parts n e) as [l'|] eqn:E; [|done].
  injection H as <-. constructor; [lia|eauto].
Qed.

Lemma inet_aton_range p a : inet_aton p = Some a -> is_u32 a.
Proof.
  unfold inet_aton. destruct (aton_parts 4 p) as [l|] eqn:E; [|done].
  apply aton_parts_nonneg in E. intros H. unfold is_u32.
  destruct l as [|v0 [|v1 [|v2 [|v3 [|]]]]]; try done;
    rewrite ?Forall_cons in E; case_match; try done; injection H as <-; lia.
Qed.

(** ** The interface between the parser and the sections *)

(** [R o u] is the condition the sections keep on their state while the section
    [o] is open: entering and leaving re-establish it or report an error, and
    every pointer of an open section can be written through. *)
Class SectionsOk {U} (sections : list (parser_section U)) (R : option (parser_section U) -> U -> Prop)
  : Prop := {
  onenter_ok : forall p m c,
    p ∈ sections -> s_onenter p = Some m -> R None (c_user c) ->
    pwp (fun _ => False) m
      (fun r c' => called c c' /\ (r = -1 \/ c_error c' = true \/ R (Some p) (c_user c'))) c;
  onexit_ok : forall p m c,
    p ∈ sections -> s_onexit p = Some m -> R (Some p) (c_user c) ->
    pwp (fun _ => False) m
      (fun r c' => called c c' /\ (r = -1 \/ c_error c' = true \/ R None (c_user c'))) c;
  no_onenter_ok : forall p u, p ∈ sections -> s_onenter p = None -> R None u -> R (Some p) u;
  no_onexit_ok : forall p u, p ∈ sections -> s_onexit p = None -> R (Some p) u -> R None u;
  entry_ok : forall p e v u,
    p ∈ sections -> e ∈ s_entries p -> typed (e_type e) v -> R (Some p) u ->
    exists u', e_addr e v u = Some u' /\ R (Some p) u';
}.

(** The documented behaviour of [getaddrinfo]: when it succeeds there is an
    address, and the addresses asked for have four bytes. *)
Class ResolverOk (getaddrinfo : list Z -> option (list Z)) : Prop := {
  resolver_ok : forall name l, getaddrinfo name = Some l -> l <> [] /\ Forall is_u32 l;
}.

Section Run.
Context {U : Type} (getaddrinfo : list Z -> option (list Z)) {GR : ResolverOk getaddrinfo}.
Context (sections : list (parser_section U)) (R : option (parser_section U) -> U -> Prop).
Context {OK : SectionsOk sections R}.

(** The one assertion a file can violate. *)
Definition lone_semicolon (f : fault) : Prop := f = AssertFailed 617.

Notation wp := (pwp lone_semicolon).

Lemma pwp_silent {A} (m : P U A) Q c : pwp (fun _ => False) m Q c -> wp m Q c.
Proof. unfold pwp. now destruct (m c). Qed.

(** The sections are in order, or an error was reported. *)
Definition ok_for (o : option (parser_section U)) (c : parser_context U) : Prop :=
  c_error c = true \/ R o (c_user c).

Definition post (o : option (parser_section U)) (c c' : parser_context U) : Prop :=
  called c c' /\ ok_for o c'.

Lemma post_error o c : post o c (set_error true c).
Proof. split; [auto with s2p|now left]. Qed.

Lemma post_trans o c1 c2 c3 : called c1 c2 -> post o c2 c3 -> post o c1 c3.
Proof. intros H1 [H2 H3]. split; [exact (called_trans _ _ _ H1 H2)|done]. Qed.

Lemma post_same o c c1 c' : same c c1 -> post o c1 c' -> post o c c'.
Proof. intros Hs. apply post_trans. auto with s2p. Qed.

Lemma post_refl o c : ok_for o c -> post o c c.
Proof. split; [auto with s2p|done]. Qed.

Lemma wp_error {A} (a : A) o c : wp (parser_error ;; pret a) (fun _ => post o c) c.
Proof. apply pwp_bind, pwp_modify, pwp_ret, post_error. Qed.

Section Value.
Context (p : parser_section U) (e : parser_entry U) (Hp : p ∈ sections) (He : e ∈ s_entries p).

Lemma wp_store v c :
  typed (e_type e) v -> R (Some p) (c_user c) ->
  wp (store (e_addr e) v) (fun _ c' => called c c' /\ R (Some p) (c_user c')) c.
Proof.
  intros Hv Hr. apply pwp_bind, pwp_gets.
  destruct (entry_ok p e v (c_user c) Hp He Hv Hr) as (u' & -> & Hr').
  apply pwp_modify. split; auto with s2p.
Qed.

Lemma wp_store_ok v c :
  (forall x, v = Some x -> typed (e_type e) x) -> R (Some p) (c_user c) ->
  wp (store_or_fail (e_addr e) v)
    (fun r c' => called c c' /\ R (Some p) (c_user c') /\ (c_error c' = true \/ r = 0)) c.
Proof.
  intros Hv Hr. unfold store_or_fail. destruct v as [v|].
  - apply pwp_bind. eapply pwp_mono; [apply (wp_store v c); auto|]. intros _ c' [H1 H2].
    apply pwp_ret. auto.
  - apply pwp_bind, pwp_modify, pwp_ret. split; [auto with s2p|]. split; [exact Hr|now left].
Qed.

Lemma wp_store_post v c c0 :
  called c0 c -> (forall x, v = Some x -> typed (e_type e) x) -> R (Some p) (c_user c) ->
  wp (store_or_fail (e_addr e) v) (fun _ => post (Some p) c0) c.
Proof.
  intros H0 Hv Hr. eapply pwp_mono; [apply (wp_store_ok v c Hv Hr)|]. intros r c' (H1 & H2 & _).
  apply (post_trans _ _ c); [done|]. split; [done|now right].
Qed.

Lemma wp_vp_in_addr tok c :
  e_type e = pt_in_addr -> R (Some p) (c_user c) ->
  wp (vp_in_addr getaddrinfo (e_addr e) tok) (fun _ => post (Some p) c) c.
Proof.
  intros Ht Hr. unfold vp_in_addr. pose proof wp_store as Hst. rewrite Ht in Hst.
  destruct (inet_aton tok) as [ia|] eqn:E.
  - apply pwp_bind. eapply pwp_mono; [apply Hst; [exact (inet_aton_range _ _ E)|done]|].
    intros _ c' [H1 H2]. apply pwp_ret. split; [done|now right].
  - destruct (getaddrinfo tok) as [l|] eqn:El; [|apply wp_error].
    destruct (resolver_ok _ _ El) as [Hne Hl].
    apply pwp_bind, pwp_sys. intros r c1 Hs.
    assert (Z.to_nat (u32 r mod Z.of_nat (length l)) < length l)%nat as Hlt.
    { destruct l; [done|]. pose proof (Z.mod_pos_bound (u32 r) (Z.of_nat (length (z :: l)))) as Hb.
      cbn [length] in *. lia. }
    destruct (lookup_lt_is_Some_2 _ _ Hlt) as [a Ha]. cbv zeta. rewrite Ha.
    apply pwp_bind. eapply pwp_mono.
    + apply Hst; [exact (Forall_lookup_1 _ _ _ _ Hl Ha)|now destruct Hs as [s ->]].
    + intros _ c' [H1 H2]. apply pwp_ret, (post_same _ _ c1 _ Hs). split; [done|now right].
Qed.

Lemma mask_range uli : 0 <= u32 (Z.shiftl 0xffffffff (32 - uli)) < 4294967296.
Proof. apply (u32_range (Z.shiftl 0xffffffff (32 - uli))). Qed.

Lemma wp_vp_in_addr2 tok c :
  e_type e = pt_in_addr2 -> R (Some p) (c_user c) ->
  wp (vp_in_addr2 (e_addr e) tok) (fun _ => post (Some p) c) c.
Proof.
  intros Ht Hr. unfold vp_in_addr2. pose proof wp_store_ok as Hst. rewrite Ht in Hst.
  apply pwp_bind, pwp_malloc. intros ok c1 Hs. destruct ok; cbn [negb].
  2:{ eapply pwp_mono; [apply wp_error|]. intros a c'. apply post_same, Hs. }
  assert (R (Some p) (c_user c1)) as Hr1 by now destruct Hs as [s ->].
  destruct (span _ tok) as [host m].
  apply pwp_bind. eapply pwp_mono; [apply Hst; [|exact Hr1]|].
  { intros x Hx. destruct (inet_aton host) eqn:E; [|done]. injection Hx as <-.
    exact (inet_aton_range _ _ E). }
  intros r1 c2 (H1 & Hr2 & _). assert (called c c2) as Hc.
  { eapply called_trans; [apply same_called, Hs|done]. }
  destruct m as [|x mask]; [apply pwp_ret; split; [done|now right]|].
  destruct (strtoul0 mask) as [uli end_].
  apply pwp_bind. eapply pwp_mono; [apply Hst; [|exact Hr2]|].
  - intros v Hv. destruct (peek end_ =? 46).
    + destruct (inet_aton mask) eqn:E; [|done]. injection Hv as <-. exact (inet_aton_range _ _ E).
    + destruct (_ && _); [|done]. injection Hv as <-. apply mask_range.
  - intros r2 c3 (H3 & Hr3 & _). apply pwp_ret. split; [|now right].
    exact (called_trans _ _ _ Hc H3).
Qed.

(** Every value parser writes a value of its type, or reports an error. *)
Lemma wp_value tok c :
  R (Some p) (c_user c) ->
  wp (value_parser_by_type getaddrinfo (e_type e) (e_addr e) tok) (fun _ => post (Some p) c) c.
Proof.
  intros Hr. pose proof (strtoul0_range tok) as Hu.
  pose proof wp_store_post as Hst. pose proof wp_vp_in_addr as H1. pose proof wp_vp_in_addr2 as H2.
  destruct (e_type e) eqn:Ht; cbn [value_parser_by_type]; auto.
  - apply Hst; auto with s2p. intros x Hx. now destruct (find_name _ _); [injection Hx as <-|].
  - apply pwp_bind, pwp_malloc. intros ok c1 Hs. apply Hst; [auto with s2p| |now destruct Hs as [s ->]].
    intros x Hx. now destruct ok; [injection Hx as <-|].
  - unfold vp_uint16. destruct (strtoul0 tok) as [uli end_]. cbn [fst] in Hu.
    apply Hst; auto with s2p. intros x Hx. destruct (0xFFFF <? uli) eqn:E; [done|].
    destruct (negb _); [done|]. injection Hx as <-. cbn. unfold is_u16. lia.
  - unfold vp_uint32. destruct (strtoul0 tok) as [uli end_].
    apply Hst; auto with s2p. intros x Hx. destruct (negb _); [done|]. injection Hx as <-.
    apply u32_range.
  - apply Hst; auto with s2p. intros x Hx. now destruct (find_name _ _); [injection Hx as <-|].
  - apply Hst; auto with s2p. intros x Hx. now destruct (find_name _ _); [injection Hx as <-|].
  - apply wp_error.
  - apply wp_error.
Qed.

End Value.

(** ** One token *)

Definition st_ok (st : run_state U) (c : parser_context U) : Prop :=
  ok_for (section st) c /\ (forall p, section st = Some p -> p ∈ sections).

(** What the branches of the token loop that leave the buffer alone promise. *)
Definition branch (st : run_state U) (c : parser_context U) (st' : run_state U)
    (c' : parser_context U) : Prop :=
  called c c' /\ st_ok st' c' /\ in_comment st' = in_comment st.

Lemma ok_no_error o c : c_error c = false -> ok_for o c -> R o (c_user c).
Proof. intros He [H|H]; [congruence|done]. Qed.

Lemma branch_error st c : st_ok st c -> wp (parser_error ;; pret st) (branch st c) c.
Proof.
  intros [H1 H2]. apply pwp_bind, pwp_modify, pwp_ret. split; [auto with s2p|].
  split; [split; [now left|done]|done].
Qed.

(** After a callback an error is reported when it returned [-1]. *)
Lemma wp_callback m o c :
  pwp (fun _ => False) m
    (fun r c' => called c c' /\ (r = -1 \/ c_error c' = true \/ R o (c_user c'))) c ->
  wp (do r <- m; pwhen (r =? -1) parser_error) (fun _ => post o c) c.
Proof.
  intros H. apply pwp_bind. apply pwp_silent. eapply pwp_mono; [exact H|]. intros r c' [H1 H2].
  apply pwp_when; intros Er.
  - apply pwp_modify. apply (post_trans _ _ c'); [done|apply post_error].
  - split; [done|]. destruct H2 as [->|[H2|H2]]; [done|now left|now right].
Qed.

Lemma find_elem {A} (f : A -> bool) l x : List.find f l = Some x -> x ∈ l.
Proof. intros H. apply find_some in H as [H _]. now apply list_elem_of_In. Qed.

Lemma wp_open_section st c :
  c_error c = false -> st_ok st c -> wp (open_section sections st) (branch st c) c.
Proof.
  intros He Hst. pose proof Hst as [Ho Hin]. unfold open_section.
  destruct (section st) as [p|] eqn:Es; [now apply branch_error|].
  destruct (section_token st) as [name|]; [|now apply branch_error].
  apply (ok_no_error _ _ He) in Ho.
  destruct (List.find _ sections) as [p|] eqn:Ef.
  - pose proof (find_elem _ _ _ Ef) as Hp. apply pwp_bind.
    eapply pwp_mono with (Q1 := fun _ => post (Some p) c).
    + destruct (s_onenter p) as [m|] eqn:Em; [apply wp_callback; now apply onenter_ok|].
      apply pwp_ret, post_refl. right. now apply no_onenter_ok.
    + intros _ c' [H1 H2]. apply pwp_ret. split; [done|]. split; [|done].
      split; [done|]. now intros p' [= <-].
  - apply pwp_bind, pwp_modify, pwp_ret. split; [auto with s2p|]. split; [|done].
    split; [now left|done].
Qed.

Lemma wp_close_section st c :
  c_error c = false -> st_ok st c -> wp (close_section st) (branch st c) c.
Proof.
  intros He Hst. pose proof Hst as [Ho Hin]. unfold close_section.
  destruct (section st) as [p|] eqn:Es; [|now apply branch_error].
  apply (ok_no_error _ _ He) in Ho. pose proof (Hin p eq_refl) as Hp. apply pwp_bind.
  eapply pwp_mono with (Q1 := fun _ => post None c).
  - destruct (s_onexit p) as [m|] eqn:Em; [apply wp_callback; now apply (onexit_ok p)|].
    apply pwp_ret, post_refl. right. now apply (no_onexit_ok p).
  - intros _ c' [H1 H2]. apply pwp_ret. split; [done|]. split; [|done]. now split.
Qed.

Lemma wp_end_assignment st c :
  c_error c = false -> st_ok st c -> wp (end_assignment getaddrinfo st) (branch st c) c.
Proof.
  intros He [Ho Hin]. unfold end_assignment. apply pwp_bind.
  eapply pwp_mono with (Q1 := fun _ => post (section st) c).
  - apply (ok_no_error _ _ He) in Ho.
    destruct (section st) as [p|]; [|apply pwp_modify, post_error].
    destruct (key_token st) as [key|]; [|done].
    destruct (value_token st) as [val|]; [|apply pwp_modify, post_error].
    destruct (List.find _ _) as [e|] eqn:Ef; [|apply pwp_modify, post_error].
    pose proof (find_elem _ _ _ Ef) as Hel. apply pwp_bind.
    eapply pwp_mono; [apply (wp_value p e (Hin p eq_refl) Hel val c Ho)|].
    intros r c' Hp. apply pwp_when; intros _; [|done].
    apply pwp_modify. apply (post_trans _ _ c'); [apply Hp|apply post_error].
  - intros _ c' [H1 H2]. apply pwp_ret. split; [done|]. split; [|done]. now split.
Qed.

Lemma wp_name_token st t c : st_ok st c -> wp (name_token st t) (branch st c) c.
Proof.
  intros Hst. pose proof Hst as [Ho Hin]. unfold name_token.
  destruct (section st) as [p|] eqn:Es, (section_token st), (key_token st), (value_token st);
    try (now apply branch_error); apply pwp_ret; (split; [auto with s2p|]; split; [|done]); now split.
Qed.

Lemma wp_branch st t c :
  c_error c = false -> st_ok st c ->
  wp (command getaddrinfo sections st t) (branch st c) c.
Proof.
  intros He Hst. unfold command.
  destruct (strcmp_eq t (B# "{")); [now apply wp_open_section|].
  destruct (strcmp_eq t (B# "}")); [now apply wp_close_section|].
  destruct (strcmp_eq t (B# "=")).
  - destruct (_ || _); cbn [pwhen]; [now apply branch_error|].
    apply pwp_bind, pwp_ret, pwp_ret. split; [auto with s2p|]. now split.
  - destruct (strcmp_eq t (B# ";")); [now apply wp_end_assignment|now apply wp_name_token].
Qed.

(** ** The buffer *)

(** The filled part of the buffer is empty or ends in a newline. *)
Definition lines (p : list Z) : Prop := p = [] \/ last p = Some 10.

Lemma lines_suffix u p : lines (u ++ p) -> lines p.
Proof.
  intros [H|H]; [left; now apply app_eq_nil in H|].
  destruct p as [|x p]; [now left|right].
  rewrite last_app, last_cons in H. rewrite last_cons. now destruct (last p).
Qed.

Lemma lines_drop n p : lines p -> lines (drop n p).
Proof. rewrite <- (take_drop n p) at 1. apply lines_suffix. Qed.

Lemma strstr_suffix p sub r : strstr p sub = Some r -> exists u, p = u ++ r.
Proof.
  induction p as [|x p IH]; cbn [strstr]; destruct (scan_lit sub _); intros H; try done;
    try (injection H as <-; now exists []).
  destruct (IH H) as [u ->]. now exists (x :: u).
Qed.

Lemma strstr_newline p : last p = Some 10 -> strstr p [10] <> None.
Proof.
  induction p as [|x p IH]; intros H; [done|]. cbn [strstr scan_lit].
  destruct (10 =? x) eqn:E; [done|]. apply IH. rewrite last_cons in H.
  destruct (last p); [done|]. injection H as ->. done.
Qed.

Lemma strstr_length p sub r : strstr p sub = Some r -> (length sub <= length r)%nat.
Proof.
  assert (forall sub q q', scan_lit sub q = Some q' -> (length sub <= length q)%nat) as Hs.
  { induction sub0 as [|x sub0 IH]; intros [|y q] q' H; cbn in *; try lia; [done|].
    destruct (x =? y); [|done]. apply IH in H. lia. }
  induction p as [|x p IH]; cbn [strstr]; destruct (scan_lit sub _) eqn:E; intros H; try done;
    try (injection H as <-; exact (Hs _ _ _ E)). now apply IH.
Qed.

Definition buf_ok (c : parser_context U) : Prop := Z.of_nat (length (c_data c)) < c_size c.

(** The file is not touched and the buffer does not grow. *)
Record settles (c c' : parser_context U) : Prop := Settles {
  se_rest : c_rest c' = c_rest c;
  se_eof : c_eof c' = c_eof c;
  se_size : c_size c' = c_size c;
  se_data : (length (c_data c') <= length (c_data c))%nat;
}.

Lemma settles_refl c : settles c c.
Proof. now split. Qed.

Lemma settles_trans c1 c2 c3 : settles c1 c2 -> settles c2 c3 -> settles c1 c3.
Proof. intros [] []. split; try congruence. lia. Qed.

Lemma called_settles c c' : called c c' -> settles c c'.
Proof. intros []. split; try congruence. now rewrite cl_data0. Qed.

Lemma settles_buf c c' : settles c c' -> buf_ok c -> buf_ok c'.
Proof. unfold buf_ok. intros [_ _ -> H]. lia. Qed.

Lemma wp_filled d (Q : unit -> parser_context U -> Prop) c :
  Z.of_nat (length d) < c_size c -> Q tt (set_buf d c) -> wp (context_filled d) Q c.
Proof.
  intros Hd HQ. apply pwp_bind, pwp_gets.
  destruct (Z.of_nat (length d) <? c_size c) eqn:E; [now apply pwp_modify|lia].
Qed.

(** The state of the token loop: where it is in the buffer, and that what is left
    is whole lines. *)
Record at_token (st : run_state U) (iter : nat) (c : parser_context U) : Prop := AtToken {
  at_buf : buf_ok c;
  at_st : st_ok st c;
  at_iter : (iter <= length (c_data c))%nat;
  at_lines : lines (drop iter (c_data c));
}.

Definition left_over (iter : nat) (c : parser_context U) : nat := length (drop iter (c_data c)).

Lemma st_ok_buf st d c : st_ok st c -> st_ok st (set_buf d c).
Proof. done. Qed.

Lemma wp_token_step st t iter c :
  c_error c = false -> at_token st iter c -> last (drop iter (c_data c)) = Some 10 ->
  wp (token_step getaddrinfo sections st t iter)
    (fun '(st', iter') c' => at_token st' iter' c' /\ settles c c' /\
       (left_over iter' c' <= left_over iter c)%nat) c.
Proof.
  intros He [Hb Hst Hi Hl] Hlast. unfold token_step. apply pwp_bind, pwp_gets.
  set (d := c_data c) in *. unfold left_over. fold d.
  destruct (strcmp_eq t (B# "//")).
  { destruct (strstr (drop iter d) [10]) as [r|] eqn:Er; [|now destruct (strstr_newline _ Hlast)].
    destruct (strstr_suffix _ _ _ Er) as [u Eu].
    assert (length (tail r) <= length (drop iter d))%nat as Hlen.
    { rewrite Eu, length_app. destruct r; cbn; lia. }
    assert (length (take (iter - 2) d) = iter - 2)%nat as Ht by (rewrite length_take; lia).
    assert (length (take (iter - 2) d ++ tail r) <= length d)%nat as Hd.
    { rewrite length_app, Ht. rewrite length_drop in Hlen. lia. }
    apply pwp_bind, wp_filled; [unfold buf_ok in Hb; fold d in Hb; lia|]. apply pwp_ret.
    assert (drop (iter - 2) (take (iter - 2) d ++ tail r) = tail r) as Edrop.
    { rewrite drop_app_length'; [done|]. now rewrite Ht. }
    split; [split|split]; cbn [c_data set_buf]; rewrite ?Edrop; try done.
    - unfold buf_ok in *. cbn. fold d in Hb. lia.
    - rewrite length_app. lia.
    - rewrite Eu in Hl. apply lines_suffix in Hl. destruct r as [|y r]; [now left|].
      apply (lines_drop 1) in Hl. exact Hl. }
  destruct (strcmp_eq t (B# "/*")).
  { assert (length (drop iter d) <= length d)%nat by (rewrite length_drop; lia).
    apply pwp_bind, wp_filled; [unfold buf_ok in Hb; fold d in Hb; lia|]. apply pwp_ret.
    split; [split|split]; cbn [c_data set_buf]; rewrite ?drop_0; try done; try lia.
    unfold buf_ok in *. cbn. fold d in Hb. lia. }
  apply pwp_bind. eapply pwp_mono; [apply (wp_branch st t c He Hst)|].
  intros st' c' (H1 & H2 & _). apply pwp_ret. pose proof (called_settles _ _ H1) as Hs.
  destruct H1 as [_ _ _ _ Hd _ _]. fold d in Hd. rewrite Hd.
  split; [split|split]; rewrite ?Hd; try done. now apply (settles_buf c).
Qed.

(** ** The loops *)

Lemma settles_stays c c' : stays c c' -> settles c c'.
Proof. intros [H _]. now apply called_settles. Qed.

Lemma st_ok_stays st c c' : stays c c' -> st_ok st c -> st_ok st c'.
Proof.
  intros [Hc Hu] [H1 H2]. split; [|done]. unfold ok_for in *. rewrite Hu.
  destruct H1 as [H1|H1]; [left; exact (cl_error _ _ Hc H1)|now right].
Qed.

(** What the token loop leaves: it stopped for want of a token, at an error or in
    a comment. *)
Definition after_tokens (n : nat) (c : parser_context U) (st : run_state U) (iter : nat)
    (no_token : bool) (c' : parser_context U) : Prop :=
  at_token st iter c' /\ settles c c' /\ (left_over iter c' <= n)%nat /\
  (no_token = false -> c_error c' = true \/ in_comment st = true).

Lemma wp_token_loop fuel st iter c :
  at_token st iter c -> (left_over iter c < fuel)%nat ->
  wp (token_loop getaddrinfo sections fuel st iter)
    (fun '(st', iter', b) c' => after_tokens (left_over iter c) c st' iter' b c') c.
Proof.
  revert st iter c. induction fuel as [|fuel IH]; intros st iter c Hat Hf; [lia|].
  cbn [token_loop]. apply pwp_bind, pwp_gets. cbn [id].
  destruct (c_error c || in_comment st) eqn:E.
  { apply pwp_ret. split; [done|]. split; [apply settles_refl|]. split; [done|].
    intros _. now apply orb_true_iff in E. }
  apply orb_false_iff in E as [Ee Ec]. destruct Hat as [Hb Hst Hi Hl].
  apply pwp_bind, pwp_gettoken. intros t rest c1 [[u Eu] Ht Hn] Hq Hsame.
  pose proof (f_equal length Eu) as Elen. rewrite length_app, length_drop in Elen.
  assert (c_data c1 = c_data c) as Hd by apply Hq.
  assert (drop (length (c_data c) - length rest) (c_data c) = rest) as Edrop.
  { rewrite <- (take_drop iter (c_data c)) at 2. rewrite Eu, app_assoc.
    rewrite drop_app_length'; [done|]. rewrite length_app, length_take. lia. }
  assert (at_token st (length (c_data c) - length rest) c1) as Hat1.
  { split; rewrite ?Hd, ?Edrop; [exact (settles_buf _ _ (settles_stays _ _ Hq) Hb)| |lia|].
    - now apply (st_ok_stays _ c).
    - rewrite Eu in Hl. now apply lines_suffix in Hl. }
  assert (left_over (length (c_data c) - length rest) c1 = length rest) as El1.
  { unfold left_over. now rewrite Hd, Edrop. }
  assert (length rest <= left_over iter c)%nat as Hle by (unfold left_over; rewrite length_drop; lia).
  destruct t as [t|]; cbv zeta.
  2:{ apply pwp_ret. split; [done|]. split; [now apply settles_stays|]. split; [lia|done]. }
  specialize (Ht ltac:(done)). fold (left_over iter c) in Ht.
  assert (c_error c1 = false) as E1 by (destruct (Hsame ltac:(done)) as [s ->]; exact Ee).
  assert (last rest = Some 10) as Hlr.
  { apply (Hn ltac:(done)). destruct Hl as [Hl|Hl]; [|done].
    unfold left_over in Ht. rewrite Hl in Ht. cbn in Ht. lia. }
  apply pwp_bind. eapply pwp_mono; [apply (wp_token_step st t _ c1 E1 Hat1); now rewrite Hd, Edrop|].
  intros [st2 iter2] c2 (Hat2 & Hs2 & Hle2). eapply pwp_mono; [apply (IH _ _ _ Hat2); lia|].
  intros [[st3 iter3] b] c3 (Hat3 & Hs3 & Hle3 & Hb3). split; [done|]. split; [|split; [lia|done]].
  eapply settles_trans; [apply settles_stays, Hq|]. eapply settles_trans; eauto.
Qed.

(** ** One iteration *)

Lemma fgets_take_spec n l s r e :
  fgets_take n l = (s, r, e) ->
  l = s ++ r /\ (length s <= n)%nat /\ (e = true -> r = []) /\
  (s = [] -> e = false -> n = 0%nat).
Proof.
  revert l s r e. induction n as [|n IH]; intros l s r e H; cbn in H.
  - destruct l; injection H as <- <- <-; cbn; auto with lia.
  - destruct l as [|x l]; [injection H as <- <- <-; cbn; auto with lia|].
    destruct (x =? 10); [injection H as <- <- <-; cbn; repeat split; done || lia|].
    destruct (fgets_take n l) as [[s' r'] e'] eqn:E. injection H as <- <- <-.
    destruct (IH _ _ _ _ E) as (-> & Hl & He & Hn). cbn. repeat split; auto with lia. done.
Qed.

Lemma cstr_length l : (length (cstr l) <= length l)%nat.
Proof. induction l as [|x l IH]; cbn; [lia|]. destruct (x =? 0); cbn; lia. Qed.

(** The invariant of the outer loop: without an error, it goes on without reading
    only to leave a comment. *)
Record loop_ok (l : loop_state U) (c : parser_context U) : Prop := LoopOk {
  lo_buf : buf_ok c;
  lo_st : st_ok (l_run l) c;
  lo_comment : c_error c = false -> l_data l = false ->
    in_comment (l_run l) = true /\ l_space l = false /\ lines (c_data c);
}.

Definition size_of (l : loop_state U) (c : parser_context U) : nat :=
  4 * length (c_rest c) + length (c_data c) +
  (if l_space l then 0 else 1) + (if l_data l then 0 else 1).

(** An iteration ends the loop or brings its end nearer. *)
Definition advances (n : nat) (v : verdict U) (c' : parser_context U) : Prop :=
  match v with
  | returned r => r = -1
  | go_on l' => loop_ok l' c' /\ (c_error c' = true \/ c_eof c' = true \/ (size_of l' c' < n)%nat)
  end.

Lemma wp_skip_comment st c :
  buf_ok c -> st_ok st c -> lines (c_data c) ->
  wp (skip_comment st) (fun o c' =>
    settles c c' /\ lines (c_data c') /\
    match o with
    | Some st' => st_ok st' c' /\
        (length (c_data c') + (if in_comment st then 2 else 0) <= length (c_data c))%nat
    | None => st_ok st c' /\ c_data c' = [] /\ in_comment st = true
    end) c.
Proof.
  intros Hb Hst Hl. unfold skip_comment. destruct (in_comment st) eqn:Ei.
  2:{ apply pwp_ret. split; [apply settles_refl|]. split; [done|]. split; [done|lia]. }
  apply pwp_bind, pwp_gets. unfold buf_ok in Hb.
  destruct (strstr (c_data c) (B# "*/")) as [r|] eqn:Er.
  - destruct (strstr_suffix _ _ _ Er) as [u Eu].
    pose proof (strstr_length _ _ _ Er) as Hr. change (length (B# "*/")) with 2%nat in Hr.
    pose proof (f_equal length Eu) as Elen. rewrite length_app in Elen.
    assert (length (drop 2 r) + 2 <= length (c_data c))%nat as Hd by (rewrite length_drop; lia).
    apply pwp_bind, wp_filled; [lia|]. apply pwp_ret. cbn [c_data set_buf].
    split; [split; cbn; lia || done|]. split; [|done].
    apply lines_drop. rewrite Eu in Hl. now apply lines_suffix in Hl.
  - apply pwp_bind, wp_filled; [cbn; lia|]. apply pwp_ret.
    split; [split; cbn; lia || done|]. split; [now left|done].
Qed.

Lemma wp_process l c :
  buf_ok c -> st_ok (l_run l) c -> lines (c_data c) ->
  wp (process getaddrinfo sections l) (fun v c' => exists l',
    v = go_on l' /\ loop_ok l' c' /\ settles c c' /\ l_space l' = false /\
    (length (c_data c') + (if l_data l' then 0 else 1) +
     (if in_comment (l_run l) then 1 else 0) <= length (c_data c) + 1)%nat) c.
Proof.
  intros Hb Hst Hl. unfold process. apply pwp_bind.
  eapply pwp_mono; [apply (wp_skip_comment _ _ Hb Hst Hl)|]. intros [st1|] c1 (Hs1 & Hl1 & H1).
  - destruct H1 as [Hst1 Hlen]. unfold run_tokens.
    apply pwp_bind, pwp_bind, pwp_gets.
    eapply pwp_mono; [apply (wp_token_loop _ st1 0 c1)|].
    { split; [exact (settles_buf _ _ Hs1 Hb)|done|lia|done]. }
    { unfold left_over. rewrite drop_0. lia. }
    intros [[st2 iter] b] c2 ([Hb2 Hst2 Hi2 Hl2] & Hs2 & Hle & Hnt).
    unfold left_over in Hle. rewrite drop_0 in Hle.
    apply pwp_bind, pwp_gets, pwp_bind, wp_filled.
    { unfold buf_ok in Hb2. rewrite length_drop. lia. }
    apply pwp_ret. eexists. split; [reflexivity|].
    assert (length (drop iter (c_data c2)) <= length (c_data c2))%nat by (rewrite length_drop; lia).
    split; [|split].
    + split; [unfold buf_ok in *; cbn; lia|done|]. cbn. intros He ->.
      destruct (Hnt eq_refl) as [Hn|Hn]; [congruence|done].
    + eapply settles_trans; [exact Hs1|]. eapply settles_trans; [exact Hs2|]. split; cbn; lia || done.
    + split; [done|]. cbn. destruct b, (in_comment (l_run l)); lia.
  - destruct H1 as (Hst1 & Hd & Hi). apply pwp_ret. eexists. split; [reflexivity|].
    split; [|split; [done|split; [done|]]].
    + split; [exact (settles_buf _ _ Hs1 Hb)|done|done].
    + rewrite Hd, Hi. cbn. lia.
Qed.

(** There is room for the terminator only. *)
Definition full (c : parser_context U) : bool :=
  c_size c - Z.of_nat (length (c_data c)) =? 1.

Lemma wp_read_more l c n :
  buf_ok c -> st_ok (l_run l) c -> l_data l = true -> l_space l = false ->
  (4 * length (c_rest c) + length (c_data c) +
     (if full c then 1 else 0) <= n)%nat ->
  wp (read_more l) (fun r c' =>
    match r with
    | inl v => advances n v c'
    | inr _ => buf_ok c' /\ st_ok (l_run l) c' /\ lines (c_data c') /\
        (4 * length (c_rest c') + length (c_data c') + 3 <=
         4 * length (c_rest c) + length (c_data c))%nat
    end) c.
Proof.
  intros Hb Hst Hd Hsp Hn. unfold buf_ok in Hb. apply pwp_bind, pwp_gets. cbn [id].
  apply pwp_bind, pwp_bind, pwp_gets. cbn [id].
  set (room := Z.to_nat (c_size c - Z.of_nat (length (c_data c)) - 1)).
  destruct (fgets_take room (c_rest c)) as [[s r] e] eqn:E.
  destruct (fgets_take_spec _ _ _ _ _ E) as (Er & Hlen & He & Hz).
  pose proof (f_equal length Er) as Elen. rewrite length_app in Elen.
  pose proof (cstr_length s) as Hcs.
  destruct (e && c_ferror c) eqn:Eerr.
  { apply pwp_bind, pwp_modify, pwp_ret, pwp_bind, pwp_modify, pwp_ret. done. }
  apply pwp_bind, pwp_modify, pwp_ret.
  destruct s as [|x s0] eqn:Es; [destruct e|].
  - apply pwp_ret. split; [|right; left; apply orb_true_r].
    split; [done|done|congruence].
  - assert (full c = true) as H1.
    { specialize (Hz eq_refl eq_refl). unfold room in Hz. unfold full. lia. }
    rewrite H1 in Hn. cbn [cstr]. rewrite app_nil_r.
    apply pwp_bind, wp_filled; [done|]. cbn [last]. apply pwp_ret.
    split; [split; done|]. right. right. unfold size_of. cbn in *. lia.
  - rewrite <- Es in *. assert (1 <= length s)%nat as Hs1 by (rewrite Es; cbn; lia). clear Es.
    assert (Z.of_nat (length (c_data c ++ cstr s)) < c_size c) as Hfit.
    { rewrite length_app. unfold room in Hlen. lia. }
    apply pwp_bind, wp_filled; [done|].
    destruct (bool_decide (last (cstr s) = Some 10)) eqn:El.
    + apply bool_decide_eq_true in El. apply pwp_bind, pwp_modify, pwp_ret. cbn.
      split; [done|]. split; [done|]. split; [right; rewrite last_app; now rewrite El|].
      rewrite length_app. lia.
    + apply pwp_ret. split; [split; done|]. right. right. unfold size_of. cbn.
      rewrite length_app. lia.
Qed.

Lemma wp_grow l c :
  buf_ok c -> st_ok (l_run l) c ->
  wp (grow l) (fun ok c' => ok = true ->
    c_rest c' = c_rest c /\ c_data c' = c_data c /\ st_ok (l_run l) c' /\ buf_ok c' /\
    ((if full c' then 1 else 0) <= (if l_space l then 0 else 1))%nat) c.
Proof.
  intros Hb Hst. unfold grow. destruct (l_space l).
  - apply pwp_bind, pwp_malloc. intros [] c1 [s ->].
    + apply pwp_bind, pwp_gets, pwp_bind, pwp_modify, pwp_ret. intros _.
      unfold buf_ok, full in *. cbn. repeat split; try done; [apply Hst|apply Hst|lia|].
      destruct (_ =? 1) eqn:E; lia.
    + now apply pwp_bind, pwp_modify, pwp_ret.
  - apply pwp_ret. intros _. repeat split; try done; [apply Hst|apply Hst|]. destruct (full c); lia.
Qed.

Lemma wp_run_step l c :
  c_error c = false -> loop_ok l c ->
  wp (run_step getaddrinfo sections l) (advances (size_of l c)) c.
Proof.
  intros He [Hb Hst Hc]. specialize (Hc He). unfold run_step. apply pwp_bind, pwp_gets. cbn [id].
  apply pwp_bind. pose proof Hb as Hb'. unfold buf_ok in Hb'. unfold passert.
  replace (Z.of_nat (length (c_data c)) <? c_size c) with true by lia. apply pwp_ret.
  apply pwp_bind. eapply pwp_mono; [apply (wp_grow l c Hb Hst)|].
  intros [] c2 H2; cbn [negb]; [|now apply pwp_ret].
  destruct (H2 eq_refl) as (Er & Ed & Hst2 & Hb2 & Hroom).
  cbn [l_data l_run]. destruct (l_data l) eqn:Eld.
  - apply pwp_bind. eapply pwp_mono;
      [apply (wp_read_more (Loop (l_run l) false true) c2 (size_of l c)); try done|].
    { rewrite Er, Ed in *. unfold size_of. rewrite Eld. lia. }
    intros [v|[]] c3 H3; [now apply pwp_ret|]. destruct H3 as (Hb3 & Hst3 & Hl3 & Hlen3).
    eapply pwp_mono; [apply (wp_process _ _ Hb3 Hst3 Hl3)|].
    intros v c4 (l' & -> & Hlo & Hse & Hsp & Hlen). split; [done|]. right. right.
    unfold size_of. rewrite Hsp, (se_rest _ _ Hse), Eld. rewrite Er, Ed in *.
    destruct (l_data l'), (in_comment _), (l_space l); lia.
  - destruct (Hc eq_refl) as (Hi & Hsp & Hl). apply pwp_bind, pwp_ret.
    eapply pwp_mono; [apply (wp_process _ c2 Hb2 Hst2); now rewrite Ed|].
    intros v c4 (l' & -> & Hlo & Hse & Hsp' & Hlen). split; [done|]. right. right. cbn [l_run] in Hlen.
    unfold size_of. rewrite Hsp', (se_rest _ _ Hse), Eld, Hsp, Er. rewrite Hi, Ed in Hlen.
    destruct (l_data l'); lia.
Qed.

Lemma wp_run_loop fuel l c :
  loop_ok l c -> (size_of l c + 2 <= fuel)%nat ->
  wp (run_loop getaddrinfo sections fuel l) (fun v c' =>
    match v with
    | returned r => r = -1
    | go_on l' => loop_ok l' c' /\ (c_error c' = true \/ c_eof c' = true)
    end) c.
Proof.
  revert l c. induction fuel as [|fuel IH]; intros l c Hlo Hf; [lia|].
  cbn [run_loop]. apply pwp_bind, pwp_gets. cbn [id].
  destruct (c_error c || c_eof c) eqn:E.
  { apply pwp_ret. split; [done|]. now apply orb_true_iff in E. }
  apply orb_false_iff in E as [He _].
  apply pwp_bind. eapply pwp_mono; [apply (wp_run_step l c He Hlo)|].
  intros [l'|r] c' Ha; [|now apply pwp_ret]. destruct Ha as [Hlo' Ha].
  destruct (c_error c' || c_eof c') eqn:E'.
  - destruct fuel as [|fuel]; [lia|]. cbn [run_loop]. apply pwp_bind, pwp_gets. cbn [id].
    rewrite E'. apply pwp_ret. split; [done|]. now apply orb_true_iff in E'.
  - apply orb_false_iff in E' as [E1 E2]. apply (IH _ _ Hlo').
    destruct Ha as [Ha|[Ha|Ha]]; [congruence..|]. lia.
Qed.

(** [parser_run] returns 0 or -1; 0 means that no error was reported, the file
    was read to its end, and no section is open. *)
Lemma wp_parser_run c :
  buf_ok c -> c_data c = [] -> R None (c_user c) ->
  wp (parser_run getaddrinfo sections) (fun r c' =>
    r = -1 \/ (r = 0 /\ c_error c' = false /\ c_eof c' = true /\ R None (c_user c'))) c.
Proof.
  intros Hb Hd Hr. unfold parser_run. apply pwp_bind, pwp_gets, pwp_bind.
  eapply pwp_mono; [apply (wp_run_loop _ (Loop (Run None None None None false) false true) c)|].
  { split; [done| |done]. split; [now right|done]. }
  { unfold run_fuel, size_of. rewrite Hd. cbn. lia. }
  intros [l|r] c1; [|intros ->; apply pwp_ret; now left].
  intros [[_ [Ho _] _] Hend]. apply pwp_bind.
  destruct (section (l_run l)) as [p|] eqn:Es; cbn [bool_decide].
  - apply pwp_modify, pwp_bind, pwp_gets, pwp_ret. now left.
  - eapply pwp_mono with (Q1 := fun _ c' => c_error c' = true \/ c' = c1).
    { apply pwp_when; intros _; [apply pwp_modify; now left|now right]. }
    intros _ c2 H2. apply pwp_bind, pwp_gets, pwp_ret. cbn [id].
    destruct (c_error c2) eqn:E2; [now left|right]. destruct H2 as [H2| -> ]; [done|].
    split; [done|]. split; [done|]. destruct Ho as [Ho|Ho]; [congruence|]. destruct Hend as [He|He]; [congruence|].
    now split.
Qed.

End Run.
