(* ===== verification/ParserFacts.v ===== *)
(** * What a configuration file means

    A configuration is a list of sections with their assignments. Printing one and
    running the parser on the text has the effect of entering each section,
    storing each value and leaving the section, in order. *)

From S2P Require Import Prelude CLib RedWorld Parser ParserSafety.

Open Scope Z_scope.

Notation "'do' x <- m ; k" := (pbind m (fun x => k))
  (at level 200, x pattern, m at level 100, k at level 200, right associativity).
Notation "m ;; k" := (pbind m (fun _ => k)) (at level 100, right associativity).

(** ** Printing *)

(** The escapes a quoted string needs: newline, quote and backslash. *)
Definition escape1 (c : Z) : list Z :=
  if c =? 10 then [92; 110] else if (c =? 34) || (c =? 92) then [92; c] else [c].

Definition print_quoted (v : list Z) : list Z := [34] ++ flat_map escape1 v ++ [34].

Definition assignment : Type := list Z * list Z.

Definition print_assignment (a : assignment) : list Z :=
  a.1 ++ (B# " = ") ++ print_quoted a.2 ++ [59; 10].

Definition print_section (s : list Z * list assignment) : list Z :=
  s.1 ++ [32; 123; 10] ++ flat_map print_assignment s.2 ++ [125; 10].

Definition print_config (l : list (list Z * list assignment)) : list Z := flat_map print_section l.

(** A name: a letter, then the characters of a simple string. *)
Definition is_name (n : list Z) : bool := isalpha (peek n) && forallb word_char n.

(** A value that can be printed: no NUL, and not one of the texts the parser
    takes for punctuation even in quotes. *)
Definition is_value (v : list Z) : bool :=
  forallb (fun c => negb (c =? 0)) v &&
  negb (existsb (strcmp_eq v) [B# "//"; B# "/*"; B# "{"; B# "}"; B# "="; B# ";"]).

(** ** Tokens of the printed text *)

Section Lex.
Context {U : Type}.

(** [gettoken] finds [t] and leaves [rest], as long as memory lasts. *)
Definition gets_token (p t rest : list Z) : Prop :=
  forall c : parser_context U, c_script c = [] -> gettoken p c = POk (Some t, rest) c.

Inductive lexes : list Z -> list (list Z) -> Prop :=
  | lexes_nil p : forallb isspace p = true -> lexes p []
  | lexes_cons p t rest ts : gets_token p t rest -> lexes rest ts -> lexes p (t :: ts).

Lemma malloc_ok (c : parser_context U) : c_script c = [] -> malloc c = POk true c.
Proof. unfold malloc, pbind, psys. now intros ->. Qed.

Lemma plain_token_ok p n (c : parser_context U) :
  c_script c = [] -> plain_token p (Some n) c = POk (Some (take n p), drop n p) c.
Proof. intros H. unfold plain_token, pbind. now rewrite (malloc_ok c H). Qed.

Lemma gets_token_space x p t rest :
  isspace x = true -> gets_token p t rest -> gets_token (x :: p) t rest.
Proof.
  intros Hx H c Hc. specialize (H c Hc). unfold gettoken in *.
  unfold skip_spaces, skip in *. cbn [span]. rewrite Hx. now destruct (span isspace p).
Qed.

Lemma skip_spaces_none x p : isspace x = false -> skip_spaces (x :: p) = x :: p.
Proof. intros H. now apply skip_none. Qed.

Lemma gets_punctuation x rest : punctuation x = true -> gets_token (x :: rest) [x] rest.
Proof.
  intros Hp c Hc. unfold gettoken.
  assert (isspace x = false) as Hs by (unfold punctuation, isspace in *; lia).
  rewrite skip_spaces_none by done. cbn iota.
  replace (x =? 34) with false by (unfold punctuation in *; lia).
  replace (isdigit x) with false by (unfold punctuation, isdigit in *; lia).
  replace (isalpha x) with false by (unfold punctuation, isalpha, isupper, islower in *; lia).
  rewrite Hp. now apply plain_token_ok.
Qed.

Lemma word_len_app n q : forallb word_char n = true -> word_char (peek q) = false -> q <> [] ->
  word_len (n ++ q) = Some (length n).
Proof.
  intros Hn Hq Hne. induction n as [|x n IH]; cbn [app].
  - destruct q as [|y q]; [done|]. cbn [word_len peek] in *. now rewrite Hq.
  - cbn in Hn. apply andb_true_iff in Hn as [Hx Hn]. cbn [word_len]. now rewrite Hx, IH.
Qed.

Lemma gets_name n q : is_name n = true -> word_char (peek q) = false -> q <> [] ->
  gets_token (n ++ q) n q.
Proof.
  intros Hn Hq Hne c Hc. apply andb_true_iff in Hn as [Ha Hn].
  destruct n as [|x n]; [done|]. cbn [peek] in Ha.
  assert (isspace x = false /\ x =? 34 = false /\ isdigit x = false) as (H1 & H2 & H3)
    by (unfold isalpha, isupper, islower, isspace, isdigit in *; lia).
  unfold gettoken. rewrite <- app_comm_cons, skip_spaces_none by done. cbn iota.
  rewrite H2, H3, Ha, app_comm_cons, word_len_app by done.
  rewrite plain_token_ok by done. now rewrite take_app_length, drop_app_length.
Qed.

Lemma escape1_scan x q k : x <> 0 ->
  cstr_len (escape1 x ++ q) k = cstr_len q (k + 1) /\
  (forall n, cstr_copy (escape1 x ++ q) (S n) = (fun r => (x :: r.1, r.2)) <$> cstr_copy q n).
Proof.
  intros H0. unfold escape1. destruct (x =? 10) eqn:E1; [apply Z.eqb_eq in E1; now subst|].
  destruct (x =? 34) eqn:E2; [apply Z.eqb_eq in E2; now subst|].
  destruct (x =? 92) eqn:E3; [apply Z.eqb_eq in E3; now subst|].
  cbn. now rewrite E2, E3.
Qed.

Lemma quoted_scan v rest k : forallb (fun c => negb (c =? 0)) v = true ->
  cstr_len (flat_map escape1 v ++ 34 :: rest) k = sc_len (k + length v) /\
  cstr_copy (flat_map escape1 v ++ 34 :: rest) (length v) = Some (v, rest).
Proof.
  revert k. induction v as [|x v IH]; intros k Hv.
  - cbn. now rewrite Nat.add_0_r.
  - cbn in Hv. apply andb_true_iff in Hv as [Hx Hv]. cbn [flat_map length]. rewrite <- app_assoc.
    assert (x <> 0) as H0 by lia.
    destruct (escape1_scan x (flat_map escape1 v ++ 34 :: rest) k H0) as [-> ->].
    destruct (IH (k + 1)%nat Hv) as [-> ->]. cbn. split; [f_equal; lia|done].
Qed.

Lemma gets_quoted v rest : forallb (fun c => negb (c =? 0)) v = true ->
  gets_token (print_quoted v ++ rest) v rest.
Proof.
  intros Hv c Hc. unfold gettoken, print_quoted. cbn [app]. rewrite skip_spaces_none by done.
  cbn iota. rewrite <- app_assoc. cbn [app]. replace (34 =? 34) with true by done.
  destruct (quoted_scan v rest 0 Hv) as [-> E]. unfold pbind. rewrite (malloc_ok c Hc).
  cbn [Nat.add]. now rewrite E.
Qed.

End Lex.

Section Lines.
Context {U : Type}.

Notation lexes := (lexes (U := U)).

Lemma lexes_opening n : is_name n = true -> lexes (n ++ [32; 123; 10]) [n; B# "{"].
Proof.
  intros Hn. apply (lexes_cons _ _ [32; 123; 10]); [now apply gets_name|].
  apply (lexes_cons _ _ [10]); [now apply gets_token_space, gets_punctuation|].
  now apply lexes_nil.
Qed.

Lemma lexes_closing : lexes [125; 10] [B# "}"].
Proof. apply (lexes_cons _ _ [10]); [now apply gets_punctuation|now apply lexes_nil]. Qed.

Lemma lexes_assignment (a : assignment) :
  is_name a.1 = true -> is_value a.2 = true -> lexes (print_assignment a) [a.1; B# "="; a.2; B# ";"].
Proof.
  destruct a as [k v]. cbn [fst snd]. intros Hk Hv. apply andb_true_iff in Hv as [Hv _].
  apply (lexes_cons _ _ ([32; 61; 32] ++ print_quoted v ++ [59; 10])); [now apply gets_name|].
  apply (lexes_cons _ _ (32 :: print_quoted v ++ [59; 10]));
    [now apply gets_token_space, gets_punctuation|].
  apply (lexes_cons _ _ [59; 10]); [now apply gets_token_space, gets_quoted|].
  apply (lexes_cons _ _ [10]); [now apply gets_punctuation|now apply lexes_nil].
Qed.

Lemma gettoken_shorter p t rest (c c' : parser_context U) :
  gettoken p c = POk (Some t, rest) c' -> exists u, p = u ++ rest /\ (0 < length u)%nat.
Proof.
  intros E.
  pose proof (pwp_gettoken (fun _ => True) p (fun r _ => r.1 <> None ->
    exists u, p = u ++ r.2 /\ (0 < length u)%nat) c) as H.
  unfold pwp in H. rewrite E in H. apply H; [|done].
  intros t' rest' c2 [[u Eu] Ht _] _ _ Hn. exists u. split; [done|].
  specialize (Ht Hn). rewrite Eu, length_app in Ht. lia.
Qed.

Context (getaddrinfo : list Z -> option (list Z)) (sections : list (parser_section U)).

(** The command [t] turns the state [st] with the sections in [u] into [st'] with
    the sections in [u'], and touches nothing else. *)
Definition cmd_ok (st : run_state U) (u : U) (t : list Z) (st' : run_state U) (u' : U) : Prop :=
  in_comment st' = false /\
  forall c : parser_context U, c_script c = [] ->
    command getaddrinfo sections st t (set_user u c) = POk st' (set_user u' c).

Inductive cmds : run_state U -> U -> list (list Z) -> run_state U -> U -> Prop :=
  | cmds_nil st u : cmds st u [] st u
  | cmds_cons st u t st1 u1 ts st2 u2 :
      strcmp_eq t (B# "//") = false -> strcmp_eq t (B# "/*") = false ->
      cmd_ok st u t st1 u1 -> cmds st1 u1 ts st2 u2 -> cmds st u (t :: ts) st2 u2.

Lemma token_loop_cmds p ts st u st' u' c iter fuel :
  lexes p ts -> cmds st u ts st' u' ->
  in_comment st = false -> c_script c = [] -> c_error c = false ->
  (iter <= length (c_data c))%nat -> drop iter (c_data c) = p -> (length p < fuel)%nat ->
  token_loop getaddrinfo sections fuel st iter (set_user u c) =
  POk (st', length (c_data c), true) (set_user u' c).
Proof.
  intros Hl. revert st u iter fuel. induction Hl as [p Hp|p t rest ts Ht Hl IH];
    intros st u iter fuel Hc Hi Hs He Hit Hd Hf; inversion Hc; subst;
    (destruct fuel as [|fuel]; [lia|]); cbn [token_loop]; unfold pbind at 1; cbn [pgets id];
    cbn [c_error set_user]; rewrite He, Hi; cbn [orb].
  - unfold pbind, gettoken. cbn [c_data set_user].
    assert (skip_spaces (drop iter (c_data c)) = []) as E.
    { rewrite <- (app_nil_r (drop _ _)). now apply (skip_all isspace _ []). }
    rewrite E. cbn. now rewrite Nat.sub_0_r.
  - unfold pbind at 1. cbn [c_data set_user].
    rewrite (Ht (set_user u c)) by done.
    destruct (gettoken_shorter _ _ _ _ _ (Ht (set_user u c) Hs)) as (w & Ew & Hw).
    pose proof (f_equal length Ew) as Elen. rewrite length_app, length_drop in Elen.
    assert (drop (length (c_data c) - length rest) (c_data c) = rest) as Edrop.
    { rewrite <- (take_drop iter (c_data c)) at 2. rewrite Ew, app_assoc.
      rewrite drop_app_length'; [done|]. rewrite length_app, length_take. lia. }
    match goal with H : cmd_ok _ _ _ _ _ |- _ => destruct H as [Hi1 Hcmd] end.
    unfold pbind at 1, token_step at 1. unfold pbind at 1. cbn [pgets c_data set_user].
    repeat match goal with H : strcmp_eq t _ = false |- _ => rewrite H; clear H end.
    unfold pbind at 1. rewrite Hcmd by done. cbn.
    apply IH; try done; [lia|]. rewrite length_drop in Hf. lia.
Qed.

(** A whole line in the buffer. *)
Lemma process_line ts st u st' u' c sp :
  lexes (c_data c) ts -> cmds st u ts st' u' -> in_comment st = false ->
  c_script c = [] -> c_error c = false -> 0 < c_size c ->
  process getaddrinfo sections (Loop st sp true) (set_user u c) =
  POk (go_on (Loop st' false true)) (set_buf [] (set_user u' c)).
Proof.
  intros Hl Hc Hi Hs He Hz. unfold process, skip_comment. cbn [l_run]. rewrite Hi.
  unfold pbind at 1. cbn [pret]. unfold pbind at 1, run_tokens at 1, pbind at 1.
  cbn [pgets c_data set_user].
  rewrite (token_loop_cmds (c_data c) ts st u st' u' c 0) by (done || lia).
  unfold pbind. cbn [pgets c_data set_user]. rewrite drop_all.
  unfold context_filled, pbind. cbn [pgets c_size set_user length].
  change (Z.of_nat 0) with 0. apply Z.ltb_lt in Hz. now rewrite Hz.
Qed.

End Lines.

(** ** Reading the text line by line *)

Section Reading.
Context {U : Type} (getaddrinfo : list Z -> option (list Z)) (sections : list (parser_section U)).

(** The context while nothing has gone wrong. *)
Definition ctx (rest : list Z) (size : Z) (data : list Z) (line : Z) (u : U) : parser_context U :=
  Ctx rest false false size data line false [] u.

Definition stepto (x y : loop_state U * parser_context U) : Prop :=
  c_error x.2 = false /\ c_eof x.2 = false /\
  run_step getaddrinfo sections x.1 x.2 = POk (go_on y.1) y.2.

(** Bytes a line may hold. *)
Definition in_line (c : Z) : bool := negb (c =? 10) && negb (c =? 0).

Lemma fgets_take_all s r n : forallb in_line s = true -> (length s < n)%nat ->
  fgets_take n (s ++ 10 :: r) = (s ++ [10], r, false).
Proof.
  revert n. induction s as [|x s IH]; intros n Hs Hn; (destruct n as [|n]; [cbn in Hn; lia|]); [done|].
  cbn in Hs. apply andb_true_iff in Hs as [Hx Hs]. cbn [app fgets_take].
  replace (x =? 10) with false by (unfold in_line in Hx; lia).
  cbn in Hn. now rewrite IH by (done || lia).
Qed.

Lemma fgets_take_some s r n : forallb in_line s = true -> (n <= length s)%nat ->
  fgets_take n (s ++ 10 :: r) = (take n s, drop n s ++ 10 :: r, false).
Proof.
  revert n. induction s as [|x s IH]; intros n Hs Hn.
  - cbn in Hn. now replace n with 0%nat by lia.
  - destruct n as [|n]; [done|]. cbn in Hs. apply andb_true_iff in Hs as [Hx Hs]. cbn [app fgets_take].
    replace (x =? 10) with false by (unfold in_line in Hx; lia).
    cbn in Hn. now rewrite IH by (done || lia).
Qed.

Lemma cstr_line_id s : forallb (fun c => negb (c =? 0)) s = true -> cstr s = s.
Proof.
  induction s as [|x s IH]; intros H; [done|]. cbn in *. apply andb_true_iff in H as [Hx H].
  destruct (x =? 0); [done|]. now rewrite IH.
Qed.

Lemma in_line_nonzero s : forallb in_line s = true -> forallb (fun c => negb (c =? 0)) s = true.
Proof.
  rewrite !forallb_forall. intros H x Hx. specialize (H x Hx). unfold in_line in H. lia.
Qed.

Lemma forallb_take {A} (f : A -> bool) n l : forallb f l = true -> forallb f (take n l) = true.
Proof.
  rewrite <- (take_drop n l) at 1. rewrite forallb_app. now intros [H _]%andb_true_iff.
Qed.

Lemma forallb_drop {A} (f : A -> bool) n l : forallb f l = true -> forallb f (drop n l) = true.
Proof.
  rewrite <- (take_drop n l) at 1. rewrite forallb_app. now intros [_ H]%andb_true_iff.
Qed.

(** The size of the buffer in an iteration that has to grow it. *)
Definition grown (sp : bool) (size : Z) : Z := if sp then size * 2 else size.

(** The first part of an iteration that reads. *)
Lemma run_step_reads st sp rest size data line u :
  Z.of_nat (length data) < size ->
  run_step getaddrinfo sections (Loop st sp true) (ctx rest size data line u) =
  (do r <- read_more (Loop st false true);
   match r with
   | inl v => pret v
   | inr _ => process getaddrinfo sections (Loop st false true)
   end) (ctx rest (grown sp size) data line u).
Proof.
  intros Hs. unfold run_step. unfold pbind at 1. cbn [pgets id c_data c_size ctx].
  unfold passert. apply Z.ltb_lt in Hs. rewrite Hs. unfold pbind at 1. cbn [pret].
  unfold pbind at 1, grow. cbn [l_space]. destruct sp; [|done].
  unfold pbind at 1. now rewrite malloc_ok.
Qed.

Lemma read_more_all st s r size data line u :
  forallb in_line s = true -> Z.of_nat (length data + length s + 1) < size ->
  read_more (Loop st false true) (ctx (s ++ 10 :: r) size data line u) =
  POk (inr tt) (ctx r size (data ++ s ++ [10]) (line + 1) u).
Proof.
  intros Hs Hn. unfold read_more. unfold pbind at 1. cbn [pgets id c_data c_size ctx].
  unfold pbind at 1, fgets. unfold pbind at 1. cbn [pgets id c_rest ctx].
  rewrite fgets_take_all by (done || lia). cbn [andb]. unfold pbind at 1. cbn [pmodify].
  assert (cstr (s ++ [10]) = s ++ [10]) as Ec.
  { apply cstr_line_id. rewrite forallb_app, in_line_nonzero by done. done. }
  replace (match s ++ [10] with [] => fg_line [] | _ :: _ => fg_line (s ++ [10]) end)
    with (fg_line (s ++ [10])) by (now destruct s).
  cbn [pret]. rewrite Ec. unfold pbind at 1, context_filled. unfold pbind at 1. cbn [pgets c_size set_rest ctx].
  assert (Z.of_nat (length (data ++ s ++ [10])) <? size = true) as ->
    by (apply Z.ltb_lt; rewrite !length_app; cbn [length]; lia).
  cbn [pmodify]. rewrite last_snoc. rewrite bool_decide_true by done. done.
Qed.

Lemma read_more_part st s r size data line u :
  forallb in_line s = true -> (Z.to_nat (size - Z.of_nat (length data) - 1) <= length s)%nat ->
  Z.of_nat (length data) < size ->
  let n := Z.to_nat (size - Z.of_nat (length data) - 1) in
  read_more (Loop st false true) (ctx (s ++ 10 :: r) size data line u) =
  POk (inl (go_on (Loop st true true))) (ctx (drop n s ++ 10 :: r) size (data ++ take n s) line u).
Proof.
  intros Hs Hn Hd n. unfold read_more. unfold pbind at 1. cbn [pgets id c_data c_size ctx].
  unfold pbind at 1, fgets. unfold pbind at 1. cbn [pgets id c_rest ctx].
  fold n. rewrite fgets_take_some by done. cbn [andb]. unfold pbind at 1. cbn [pmodify pret].
  pose proof (forallb_take in_line n s Hs) as Ht.
  assert (cstr (take n s) = take n s) as Ec by (apply cstr_line_id, in_line_nonzero, Ht).
  assert (last (take n s) <> Some 10) as Hlast.
  { intros [l El]%last_Some. rewrite El, forallb_app in Ht. apply andb_true_iff in Ht as [_ Ht].
    discriminate Ht. }
  replace (match take n s with [] => fg_line [] | _ :: _ => fg_line (take n s) end)
    with (fg_line (take n s)) by (now destruct (take n s)).
  rewrite Ec. unfold pbind at 1, context_filled. unfold pbind at 1. cbn [pgets c_size set_rest ctx].
  assert (Z.of_nat (length (data ++ take n s)) <? size = true) as ->
    by (apply Z.ltb_lt; rewrite length_app, length_take; lia).
  cbn [pmodify]. rewrite bool_decide_false by done. done.
Qed.

(** A line is read, however often the buffer has to grow, and its commands are
    carried out. *)
Lemma line_steps ts st u st' u' s r sp size data line :
  forallb in_line s = true -> lexes (U := U) (data ++ s ++ [10]) ts ->
  cmds getaddrinfo sections st u ts st' u' -> in_comment st = false ->
  Z.of_nat (length data) < size -> 1 < size ->
  exists size' line', 1 < size' /\
    rtc stepto (Loop st sp true, ctx (s ++ 10 :: r) size data line u)
      (Loop st' false true, ctx r size' [] line' u').
Proof.
  intros Hs Hl Hc Hi. remember (2 * length s + (if sp then 0 else 1))%nat as m eqn:Em.
  revert s sp size data Em Hs Hl. induction m as [m IH] using lt_wf_ind.
  intros s sp size data Em Hs Hl Hd H1.
  assert (size <= grown sp size) as Hg by (destruct sp; cbn; lia).
  destruct (Z_lt_le_dec (Z.of_nat (length data + length s + 1)) (grown sp size)) as [Hfit|Hfit].
  - exists (grown sp size), (line + 1). split; [lia|]. apply rtc_once. split; [done|]. split; [done|].
    cbn [fst snd]. rewrite run_step_reads by done. unfold pbind. rewrite read_more_all by done.
    exact (process_line getaddrinfo sections ts st u st' u'
      (ctx r (grown sp size) (data ++ s ++ [10]) (line + 1) u) false Hl Hc Hi eq_refl eq_refl
      ltac:(cbn; lia)).
  - set (n := Z.to_nat (grown sp size - Z.of_nat (length data) - 1)).
    assert (n <= length s)%nat as Hn by lia.
    destruct (IH (2 * length (drop n s))%nat) with (s := drop n s) (sp := true)
      (size := grown sp size) (data := data ++ take n s) as (size' & line' & H' & Hr).
    + rewrite length_drop, Em. destruct sp; cbn [grown] in *; lia.
    + cbn. lia.
    + now apply forallb_drop.
    + rewrite <- app_assoc, (app_assoc (take n s)), take_drop. exact Hl.
    + rewrite length_app, length_take. lia.
    + lia.
    + exists size', line'. split; [done|]. eapply rtc_l; [|exact Hr].
      split; [done|]. split; [done|]. cbn [fst snd].
      rewrite run_step_reads by done. unfold pbind. rewrite read_more_part by (done || lia). done.
Qed.

(** The end of the file: the loop stops and nothing is left over. *)
Lemma end_step st size line u :
  1 < size -> stepto (Loop st false true, ctx [] size [] line u)
    (Loop st false true, set_rest [] true (ctx [] size [] line u)).
Proof.
  intros H0. split; [done|]. split; [done|]. cbn [fst snd].
  rewrite run_step_reads by (cbn; lia). unfold read_more, fgets, pbind.
  cbn [pgets id c_rest c_data c_size ctx].
  destruct (Z.to_nat _) as [|n] eqn:E; [|done]. cbn [grown length] in E. lia.
Qed.

(** What the loop computes does not depend on the fuel, once there is enough. *)
Lemma run_loop_rtc fuel x y :
  rtc stepto x y -> c_error y.2 || c_eof y.2 = true ->
  (exists c, run_loop getaddrinfo sections fuel x.1 x.2 = PFuel c) \/
  run_loop getaddrinfo sections fuel x.1 x.2 = POk (go_on y.1) y.2.
Proof.
  intros Hr Hy. revert x Hr. induction fuel as [|fuel IH]; intros x Hr; [left; now eexists|].
  cbn [run_loop]. unfold pbind at 1 3. cbn [pgets id].
  inversion Hr as [|x' z y' Hxz Hzy]; subst; [rewrite Hy; now right|].
  destruct Hxz as (He & Ef & Es). rewrite He, Ef. cbn [orb]. unfold pbind. rewrite Es. now apply IH.
Qed.

End Reading.

(** ** The meaning of a configuration *)

(** The value a token stands for, without a resolver. *)
Definition parse_value (t : parser_type) (tok : list Z) : option value :=
  match t with
  | pt_bool => v_bool <$> find_name bool_names tok
  | pt_pchar => Some (v_str tok)
  | pt_uint16 =>
      let (z, e) := strtoul0 tok in
      if (z <=? 0xFFFF) && (length e =? 0)%nat then Some (v_u16 z) else None
  | pt_uint32 => let (z, e) := strtoul0 tok in if (length e =? 0)%nat then Some (v_u32 (u32 z)) else None
  | pt_in_addr => v_addr <$> inet_aton tok
  | pt_disclose_src => v_disclose <$> find_name disclose_names tok
  | pt_on_proxy_fail => v_onfail <$> find_name onfail_names tok
  | pt_in_addr2 | pt_obsolete | pt_redsocks_max_accept_backoff => None
  end.

(** What entering and leaving a section does to the state of the sections, when
    nothing goes wrong. *)
Class Meaning {U} (sections : list (parser_section U)) (enter leave : parser_section U -> U -> option U)
  : Prop := {
  enter_ok : forall p u u', p ∈ sections -> enter p u = Some u' ->
    exists m, s_onenter p = Some m /\
      forall c, c_script c = [] -> m (set_user u c) = POk 0 (set_user u' c);
  leave_ok : forall p u u', p ∈ sections -> leave p u = Some u' ->
    exists m, s_onexit p = Some m /\
      forall c, c_script c = [] -> m (set_user u c) = POk 0 (set_user u' c);
}.

Section Meaning.
Context {U : Type} (getaddrinfo : list Z -> option (list Z)) (sections : list (parser_section U)).
Context (enter leave : parser_section U -> U -> option U) {M : Meaning sections enter leave}.

Definition eval_assignment (p : parser_section U) (u : option U) (a : assignment) : option U :=
  u0 ← u; e ← List.find (fun e => strcmp_eq (e_key e) a.1) (s_entries p);
  x ← parse_value (e_type e) a.2; e_addr e x u0.

Definition eval_section (u : option U) (s : list Z * list assignment) : option U :=
  u0 ← u; p ← List.find (fun p => strcmp_eq (s_name p) s.1) sections;
  u1 ← foldl (eval_assignment p) (enter p u0) s.2; leave p u1.

Definition eval_config (l : list (list Z * list assignment)) (u : U) : option U :=
  foldl eval_section (Some u) l.

Lemma store_ok addr x (u u' : U) c :
  addr x u = Some u' -> store_or_fail addr (Some x) (set_user u c) = POk 0 (set_user u' c).
Proof. intros E. unfold store_or_fail, store, pbind. cbn. now rewrite E. Qed.

Lemma value_parser_ok t addr tok x (u u' : U) c :
  c_script c = [] -> parse_value t tok = Some x -> addr x u = Some u' ->
  value_parser_by_type getaddrinfo t addr tok (set_user u c) = POk 0 (set_user u' c).
Proof.
  intros Hs Hx Hu. pose proof (store_ok addr x u u' c Hu) as St.
  destruct t; cbn [value_parser_by_type parse_value] in *; try done;
    unfold vp_pbool, vp_pchar, vp_uint16, vp_uint32, vp_in_addr, vp_disclose_src, vp_on_proxy_fail;
    try (rewrite Hx; exact St).
  - cbv beta. unfold pbind at 1. rewrite malloc_ok by done. now rewrite Hx.
  - destruct (strtoul0 tok) as [z e]. destruct (z <=? 0xFFFF) eqn:Ez, (length e =? 0)%nat; try done.
    replace (0xFFFF <? z) with false by (symmetry; apply Z.ltb_ge; now apply Z.leb_le).
    cbn [andb negb] in *. now rewrite Hx.
  - destruct (strtoul0 tok) as [z e]. destruct (length e =? 0)%nat; [|done]. cbn [negb]. now rewrite Hx.
  - destruct (inet_aton tok) as [ia|]; [|done]. injection Hx as <-. exact St.
Qed.

Lemma strcmp_name n l : is_name n = true -> isalpha (peek l) = false -> strcmp_eq n l = false.
Proof.
  intros Hn Hx. unfold strcmp_eq. apply bool_decide_eq_false. intros ->.
  unfold is_name in Hn. now rewrite Hx in Hn.
Qed.

Lemma command_name st n : is_name n = true -> command getaddrinfo sections st n = name_token st n.
Proof.
  intros Hn. unfold command. now rewrite !(strcmp_name n) by done.
Qed.

Lemma strcmp_value v l : is_value v = true ->
  l ∈ [B# "//"; B# "/*"; B# "{"; B# "}"; B# "="; B# ";"] -> strcmp_eq v l = false.
Proof.
  intros Hv Hl. apply andb_true_iff in Hv as [_ Hv]. apply negb_true_iff in Hv.
  destruct (strcmp_eq v l) eqn:E; [|done]. rewrite <- Hv. symmetry. apply existsb_exists.
  exists l. split; [now apply list_elem_of_In|done].
Qed.

Lemma command_value st v : is_value v = true -> command getaddrinfo sections st v = name_token st v.
Proof.
  intros Hv. unfold command. now rewrite !(strcmp_value v) by (done || set_solver).
Qed.

Lemma command_punctuation st :
  command getaddrinfo sections st (B# "{") = open_section sections st /\
  command getaddrinfo sections st (B# "}") = close_section st /\
  command getaddrinfo sections st (B# ";") = end_assignment getaddrinfo st.
Proof. now repeat split. Qed.

Notation cmds := (cmds getaddrinfo sections).

(** The states between two lines. *)
Definition outside : run_state U := Run None None None None false.
Definition inside (p : parser_section U) : run_state U := Run (Some p) None None None false.

(** A name, a value or one of the punctuation tokens as a command. *)
Lemma cmds_word st u t st1 ts st2 u2 :
  is_name t = true \/ is_value t = true ->
  (forall c : parser_context U, name_token st t c = POk st1 c) -> in_comment st1 = false ->
  cmds st1 u ts st2 u2 -> cmds st u (t :: ts) st2 u2.
Proof.
  intros Ht Hn Hi Hc. apply (cmds_cons _ _ _ _ _ st1 u); [| | |done].
  - destruct Ht; [now apply strcmp_name|]. apply strcmp_value; [done|set_solver].
  - destruct Ht; [now apply strcmp_name|]. apply strcmp_value; [done|set_solver].
  - split; [done|]. intros c _.
    destruct Ht; [rewrite command_name by done|rewrite command_value by done]; apply Hn.
Qed.

Lemma cmds_opening n p u u' :
  is_name n = true -> List.find (fun p => strcmp_eq (s_name p) n) sections = Some p ->
  enter p u = Some u' -> cmds outside u [n; B# "{"] (inside p) u'.
Proof.
  intros Hn Hf He. apply (cmds_word _ _ _ (Run None (Some n) None None false)); [now left|done|done|].
  eapply cmds_cons; [done|done| |apply cmds_nil]. split; [done|]. intros c Hc.
  destruct (enter_ok p u u' (find_elem _ _ _ Hf) He) as (m & Em & Hm).
  destruct (command_punctuation (Run None (Some n) None None false)) as (-> & _).
  unfold open_section. cbn [section section_token].
  rewrite Hf, Em. unfold pbind. rewrite Hm by done. done.
Qed.

Lemma cmds_closing p u u' : p ∈ sections -> leave p u = Some u' -> cmds (inside p) u [B# "}"] outside u'.
Proof.
  intros Hp He. eapply cmds_cons; [done|done| |apply cmds_nil]. split; [done|]. intros c Hc.
  destruct (leave_ok p u u' Hp He) as (m & Em & Hm).
  destruct (command_punctuation (inside p)) as (_ & -> & _).
  unfold close_section. cbn [section inside].
  rewrite Em. unfold pbind. rewrite Hm by done. done.
Qed.

Lemma cmds_assignment p a u u' :
  is_name a.1 = true -> is_value a.2 = true -> eval_assignment p (Some u) a = Some u' ->
  cmds (inside p) u [a.1; B# "="; a.2; B# ";"] (inside p) u'.
Proof.
  destruct a as [k v]. cbn [fst snd]. intros Hk Hv He. unfold eval_assignment in He. cbn in He.
  destruct (List.find _ _) as [e|] eqn:Ef; [|done]. cbn in He.
  destruct (parse_value (e_type e) v) as [x|] eqn:Ex; [|done]. cbn in He.
  apply (cmds_word _ _ _ (Run (Some p) None (Some k) None false)); [now left|done|done|].
  eapply cmds_cons; [done|done| |].
  { split; [|intros c Hc; unfold command; cbn [strcmp_eq]; reflexivity]. done. }
  apply (cmds_word _ _ _ (Run (Some p) None (Some k) (Some v) false)); [now right|done|done|].
  eapply cmds_cons; [done|done| |apply cmds_nil]. split; [done|]. intros c Hc.
  destruct (command_punctuation (Run (Some p) None (Some k) (Some v) false)) as (_ & _ & ->).
  unfold end_assignment. cbn [section key_token value_token]. rewrite Ef. unfold pbind. rewrite (value_parser_ok _ _ _ _ _ _ _ Hc Ex He). done.
Qed.

(** ** Whole files *)

Notation steps := (rtc (stepto getaddrinfo sections)).
Notation at_ st rest u := (fun size line => (Loop st false true, ctx rest size [] line u)).

(** From the start of a line to the start of the next one. *)
Definition parses (st : run_state U) (u : U) (text : list Z) (st' : run_state U) (u' : U) : Prop :=
  forall rest size line, 1 < size -> exists size' line', 1 < size' /\
    steps (at_ st (text ++ rest) u size line) (at_ st' rest u' size' line').

Lemma parses_nil st u : parses st u [] st u.
Proof. intros rest size line H. exists size, line. split; [done|apply rtc_refl]. Qed.

Lemma parses_app st1 u1 t1 st2 u2 t2 st3 u3 :
  parses st1 u1 t1 st2 u2 -> parses st2 u2 t2 st3 u3 -> parses st1 u1 (t1 ++ t2) st3 u3.
Proof.
  intros H1 H2 rest size line Hs. rewrite <- app_assoc.
  destruct (H1 (t2 ++ rest) size line Hs) as (s1 & l1 & Hs1 & R1).
  destruct (H2 rest s1 l1 Hs1) as (s2 & l2 & Hs2 & R2).
  exists s2, l2. split; [done|]. etrans; [exact R1|exact R2].
Qed.

Lemma parses_line s ts st u st' u' :
  forallb in_line s = true -> lexes (U := U) (s ++ [10]) ts -> cmds st u ts st' u' ->
  in_comment st = false -> parses st u (s ++ [10]) st' u'.
Proof.
  intros Hs Hl Hc Hi rest size line H1. rewrite <- app_assoc. cbn [app].
  eapply line_steps; eauto. cbn. lia.
Qed.

Lemma in_line_name n : is_name n = true -> forallb in_line n = true.
Proof.
  intros Hn. apply andb_true_iff in Hn as [_ Hn]. rewrite forallb_forall in *. intros x Hx.
  specialize (Hn x Hx). unfold word_char, isalnum, isalpha, isupper, islower, isdigit in Hn.
  unfold in_line. lia.
Qed.

Lemma in_line_quoted v : forallb (fun c => negb (c =? 0)) v = true -> forallb in_line (print_quoted v) = true.
Proof.
  intros Hv. unfold print_quoted. rewrite !forallb_app. cbn [forallb].
  change (in_line 34) with true. rewrite !andb_true_r. cbn [andb].
  induction v as [|x v IH]; [done|].
  cbn in Hv. apply andb_true_iff in Hv as [Hx Hv]. cbn [flat_map]. rewrite forallb_app, IH by done.
  rewrite andb_true_r. unfold escape1, in_line.
  destruct (x =? 10) eqn:E1; [done|]. destruct (_ || _) eqn:E2; cbn [forallb]; rewrite E1; cbn;
    now destruct (x =? 0).
Qed.

Lemma parses_assignment p a u u' :
  is_name a.1 = true -> is_value a.2 = true -> eval_assignment p (Some u) a = Some u' ->
  parses (inside p) u (print_assignment a) (inside p) u'.
Proof.
  intros Hk Hv He. pose proof (lexes_assignment (U := U) a Hk Hv) as Hl.
  pose proof (cmds_assignment p a u u' Hk Hv He) as Hc.
  assert (print_assignment a = (a.1 ++ (B# " = ") ++ print_quoted a.2 ++ [59]) ++ [10]) as E.
  { unfold print_assignment. now rewrite <- !app_assoc. }
  rewrite E in *. eapply parses_line; eauto.
  apply andb_true_iff in Hv as [Hv _].
  rewrite !forallb_app, in_line_name, in_line_quoted by done. done.
Qed.

Definition assignment_ok (a : assignment) : bool := is_name a.1 && is_value a.2.
Definition section_ok (s : list Z * list assignment) : bool := is_name s.1 && forallb assignment_ok s.2.

Lemma eval_assignment_none p l : foldl (eval_assignment p) None l = None.
Proof. induction l; done. Qed.

Lemma parses_assignments p l u u' :
  forallb assignment_ok l = true -> foldl (eval_assignment p) (Some u) l = Some u' ->
  parses (inside p) u (flat_map print_assignment l) (inside p) u'.
Proof.
  revert u. induction l as [|a l IH]; intros u Hl He; cbn [flat_map foldl forallb] in *.
  - injection He as <-. apply parses_nil.
  - apply andb_true_iff in Hl as [Ha Hl]. apply andb_true_iff in Ha as [Hk Hv].
    destruct (eval_assignment p (Some u) a) as [u1|] eqn:E; [|now rewrite eval_assignment_none in He].
    exact (parses_app _ _ _ _ _ _ _ _ (parses_assignment _ _ _ _ Hk Hv E) (IH _ Hl He)).
Qed.

Lemma parses_section s u u' :
  section_ok s = true -> eval_section (Some u) s = Some u' ->
  parses outside u (print_section s) outside u'.
Proof.
  destruct s as [n l]. intros Hs He. apply andb_true_iff in Hs as [Hn Hl]. cbn [fst snd] in *.
  unfold eval_section in He. cbn in He. destruct (List.find _ sections) as [p|] eqn:Ef; [|done]. cbn in He.
  destruct (enter p u) as [u0|] eqn:E0; [|now rewrite eval_assignment_none in He].
  destruct (foldl _ _ l) as [u1|] eqn:E1; [|done]. cbn in He.
  assert (print_section (n, l) = ((n ++ [32; 123]) ++ [10]) ++ flat_map print_assignment l ++ ([125] ++ [10])) as ->.
  { unfold print_section. now rewrite <- !app_assoc. }
  apply (parses_app _ _ _ (inside p) u0).
  { eapply parses_line; [|rewrite <- app_assoc; now apply lexes_opening|exact (cmds_opening _ _ _ _ Hn Ef E0)|done].
    rewrite forallb_app, in_line_name by done. done. }
  apply (parses_app _ _ _ (inside p) u1); [now apply parses_assignments|].
  eapply parses_line; [done|apply lexes_closing| |done].
  exact (cmds_closing p u1 u' (find_elem _ _ _ Ef) He).
Qed.

Lemma eval_section_none l : foldl eval_section None l = None.
Proof. induction l; done. Qed.

Lemma parses_config l u u' :
  forallb section_ok l = true -> eval_config l u = Some u' ->
  parses outside u (print_config l) outside u'.
Proof.
  unfold eval_config. revert u. induction l as [|s l IH]; intros u Hl He; cbn [foldl forallb] in *.
  - injection He as <-. apply parses_nil.
  - apply andb_true_iff in Hl as [Hs Hl].
    destruct (eval_section (Some u) s) as [u1|] eqn:E; [|now rewrite eval_section_none in He].
    exact (parses_app _ _ _ _ _ _ _ _ (parses_section _ _ _ Hs E) (IH _ Hl He)).
Qed.

(** The parser on a printed configuration, as long as it does not run out of
    fuel, which it never does. *)
Lemma parser_run_config l u u' :
  forallb section_ok l = true -> eval_config l u = Some u' ->
  (exists c, parser_run getaddrinfo sections (ctx (print_config l) 128 [] 0 u) = PFuel c) \/
  (exists c, parser_run getaddrinfo sections (ctx (print_config l) 128 [] 0 u) = POk 0 c /\
             c_user c = u').
Proof.
  intros Hl He. destruct (parses_config l u u' Hl He [] 128 0 ltac:(lia)) as (size & line & Hs & R).
  rewrite app_nil_r in R. set (c := ctx (print_config l) 128 [] 0 u) in *.
  pose proof (rtc_r _ _ _ R (end_step getaddrinfo sections outside size line u' Hs)) as R'.
  unfold parser_run, pbind. cbn [pgets]. change (Run None None None None false) with outside.
  destruct (run_loop_rtc getaddrinfo sections (run_fuel c) _ _ R' eq_refl) as [[c' E]|E];
    cbn [fst snd] in E; rewrite E; [left; now eexists|right].
  eexists. split; reflexivity.
Qed.

End Meaning.
