(* ===== verification/RedCore.v ===== *)
(** * The connection core of redsocks: [redsocks/redsocks.c]

    Connection pressure and accept back-off, dropping and shutting down a
    client, the helpers the relay subsystems use to read an expected reply and
    to send a message, connecting to the relay ([utils.c]) and the error
    callback. *)

From S2P Require Import Prelude RedWorld.

Open Scope Z_scope.
Open Scope red_scope.

Section Core.
Context `{BC : BaseConfig}.

(** ** Clocks *)

(** [gettimeofday(tv, NULL)], its result read from the environment; the kernel
    returns less than a million microseconds. *)
Definition gettimeofday : M timeval :=
  let! sec := sys in
  let! usec := sys in
  ret (Tv sec (usec mod 1000000)).

(** [redsocks_gettimeofday]: on failure the target is left alone. *)
Definition redsocks_gettimeofday : M (option timeval) :=
  let! retval := sys in
  if negb (retval =? 0) then ret None
  else let! t := gettimeofday in ret (Some t).

Definition redsocks_touch_client (c : nat) : M unit :=
  let! _ := get_client c in
  let! t := redsocks_gettimeofday in
  match t with
  | Some t => upd_client c (with_last_event (fun _ => t))
  | None => ret tt
  end.

(** ** Accepting and backing off *)

Definition upd_listener (i : nat) (g : event -> event) : M unit := upd_inst i (with_listener g).

Definition accept_enable : M unit :=
  let! is_ := gets instances in
  for_each is_ (fun i => let! r := sys_ev in upd_listener i (event_add_ok r)).

Definition conn_pressure_lowered : M unit :=
  let! conn := gets redsocks_conn in
  if redsocks_conn_max <=? conn then ret tt (* lowered... not so much! *)
  else
    let! ev := gets accept_backoff_ev in
    match ev with
    | Some _ =>
        let! r := sys_ev in
        when (r =? 0) (modify (with_accept_backoff_ev (fun _ => None))) ;;
        accept_enable
    | None => ret tt
    end.

(** [redsocks_close_internal]; every [close] is recorded. *)
Definition redsocks_close (fd : Z) : M unit :=
  let! r := sys in
  modify (with_w_closed (fun l => fd :: l)) ;;
  when (r =? 0) conn_pressure_lowered.

(** ** Dropping a client *)

Definition shut_both (c : redsocks_client) : bool :=
  (relay_evshut c =? EV_RDWR) && (client_evshut c =? EV_RDWR).

(** [redsocks_bufferevent_free]: the descriptor is detached and closed. *)
Definition redsocks_bufferevent_free (c : nat) (s : side) : M unit :=
  let! b := get_bev c s in
  let! _ := sys in (* bufferevent_setfd(buffev, -1) *)
  upd_client c (with_bev s (fun _ => None)) ;;
  when (negb (be_fd b =? -1)) (redsocks_close (be_fd b)).

(** [httpr_client_fini] of [http-relay.c], the only [fini] of a subsystem. *)
Definition httpr_client_fini (c : nat) : M unit :=
  upd_client c (with_payload (fun p =>
    match p with
    | httpr_payload h => httpr_payload (Httpr None None (has_host h) None None)
    | p => p
    end)).

Definition ss_fini (ss : relay_subsys) : option (nat -> M unit) :=
  match ss with
  | http_relay_subsys => Some httpr_client_fini
  | http_connect_subsys | socks4_subsys | socks5_subsys => None
  end.

Definition run_fini (c : nat) : M unit :=
  let! x := get_client c in
  let! i := get_inst (c_instance x) in
  match ss_fini (relay_ss i) with Some f => f c | None => ret tt end.

Definition redsocks_conn_list_del (c : nat) : M unit :=
  let! x := get_client c in
  when (c_linked x)
    (modify (with_redsocks_conn (fun n => u32 (n - 1))) ;;
     upd_inst (c_instance x) (with_i_clients (fun l => filter (fun k => k <> c) l)) ;;
     upd_client c (with_c_linked (fun _ => false))) ;;
  conn_pressure_lowered.

(** Deleting an event of the pump ([redsocks_event_del]). *)
Definition pump_del (c : nat) (upd : (event -> event) -> pump_t -> pump_t) : M unit :=
  let! r := sys_ev in
  upd_client c (with_pump (upd (event_del_ok r))).

Definition pump_add (c : nat) (upd : (event -> event) -> pump_t -> pump_t) : M unit :=
  let! r := sys_ev in
  upd_client c (with_pump (upd (event_add_ok r))).

(** The splice part of [redsocks_drop_client]. *)
Definition drop_pump (c : nat) : M unit :=
  let! x := get_client c in
  let p := pump x in
  when (negb (p_read (request p) =? -1)) (redsocks_close (p_read (request p))) ;;
  when (negb (p_write (request p) =? -1)) (redsocks_close (p_write (request p))) ;;
  when (negb (p_read (reply p) =? -1)) (redsocks_close (p_read (reply p))) ;;
  when (negb (p_write (reply p) =? -1)) (redsocks_close (p_write (reply p))) ;;
  when (ev_init (client_read p)) (pump_del c with_client_read) ;;
  when (ev_init (client_write p)) (pump_del c with_client_write) ;;
  let fd := if ev_init (client_read p) then ev_fd (client_read p) else -1 in
  when (negb (fd =? -1)) (redsocks_close fd) ;;
  when (ev_init (relay_read p)) (pump_del c with_relay_read) ;;
  when (ev_init (relay_write p)) (pump_del c with_relay_write) ;;
  let fd := if ev_init (relay_read p) then ev_fd (relay_read p) else -1 in
  when (negb (fd =? -1)) (redsocks_close fd).

Definition redsocks_drop_client (c : nat) : M unit :=
  let! x := get_client c in
  run_fini c ;;
  when (bool_decide (is_Some (c_client x))) (redsocks_bufferevent_free c Sclient) ;;
  when (bool_decide (is_Some (c_relay x))) (redsocks_bufferevent_free c Srelay) ;;
  let! i := get_inst (c_instance x) in
  when (use_splice (config i)) (drop_pump c) ;;
  redsocks_conn_list_del c ;;
  modify (with_w_clients (delete c)). (* free(client) *)

(** ** Idle connections and pressure *)

Definition idle_client (now max_idle : timeval) (best_next : timeval) (c : nat) : M timeval :=
  let! x := get_client c in
  let idle := timersub now (last_event x) in
  if timer_le idle tv_zero || timer_le max_idle idle then
    redsocks_drop_client c ;; ret tv_zero
  else
    let delay := timersub max_idle idle in
    ret (if timer_lt delay best_next then delay else best_next).

Definition idle_instance (now max_idle : timeval) (best_next : timeval) (i : nat) : M timeval :=
  let! x := get_inst i in
  fold_m (idle_client now max_idle) (i_clients x) best_next.

Definition drop_idle_connections : M timeval :=
  assert_ 983 (0 <? connpres_idle_timeout) ;;
  let! now := gettimeofday in
  let max_idle := Tv connpres_idle_timeout 0 in
  let! is_ := gets instances in
  fold_m (idle_instance now max_idle) is_ max_idle.

Definition conn_pressure_ongoing : M bool :=
  let! conn := gets redsocks_conn in
  if redsocks_conn_max <=? conn then ret true
  else
    let! fd := sys in
    if fd =? -1 then ret true
    else modify (with_w_closed (fun l => fd :: l)) ;; ret false.

Definition clamp_value (value min_val max_val : Z) : Z :=
  let value := if value <? min_val then min_val else value in
  if max_val <? value then max_val else value.

(** The part of [conn_pressure] after the idle connections: arm the back-off
    timer and stop listening. *)
Definition back_off (next : timeval) : M unit :=
  modify (with_accept_backoff_ms (fun ms =>
    clamp_value (u32 (u32 (Z.shiftl ms 1) + 1)) 1 max_accept_backoff_ms)) ;;
  let! ms := gets accept_backoff_ms in
  let! rand := sys in (* red_randui32() *)
  let delay := u32 (u32 rand mod ms + 1) in
  let tvdelay := Tv (delay / 1000) ((delay mod 1000) * 1000) in
  let tvdelay := if timerisset next && timer_lt next tvdelay then next else tvdelay in
  let! r := sys_ev in
  when (r =? 0) (modify (with_accept_backoff_ev (fun _ => Some tvdelay))) ;;
  let! is_ := gets instances in
  for_each is_ (fun i => let! r := sys_ev in upd_listener i (event_del_ok r)).

Definition conn_pressure : M unit :=
  if negb (connpres_idle_timeout =? 0) then
    let! next := drop_idle_connections in
    if negb (timerisset next) then ret tt (* pressure solved *)
    else back_off next
  else back_off tv_zero.

(** The timer callback: libevent has made [accept_backoff_ev] non-pending
    before it calls it. *)
Definition redsocks_accept_backoff : M unit :=
  let! ongoing := conn_pressure_ongoing in
  if ongoing then conn_pressure else accept_enable.

Definition redsocks_conn_list_add (i : nat) (c : nat) : M unit :=
  let! x := get_client c in
  assert_ 1136 (negb (c_linked x)) ;;
  let! conn := gets redsocks_conn in
  assert_ 1137 (conn <? redsocks_conn_max) ;;
  upd_inst i (with_i_clients (fun l => c :: l)) ;;
  upd_client c (with_c_linked (fun _ => true)) ;;
  modify (with_redsocks_conn (fun n => u32 (n + 1))) ;;
  let! conn := gets redsocks_conn in
  when (redsocks_conn_max <=? conn) conn_pressure.

(** ** Shutting down one side *)

(** The event bits of a [how] argument. *)
Definition evhow_of (how : Z) : Z :=
  if how =? SHUT_RD then EV_READ
  else if how =? SHUT_WR then EV_WRITE
  else if how =? SHUT_RDWR then EV_RDWR else 0.

Definition redsocks_shutdown (c : nat) (s : side) (how : Z) : M unit :=
  assert_ 747 ((how =? SHUT_RD) || (how =? SHUT_WR) || (how =? SHUT_RDWR)) ;;
  let evhow := evhow_of how in
  let! b := get_bev c s in
  let! x := get_client c in
  let pevshut := evshut_of s x in
  (* shutdown(2) is skipped when a read shutdown only confirms an EOF *)
  when (negb ((how =? SHUT_RD) && negb (Z.land pevshut EV_WRITE =? 0)))
    (let! _ := sys in ret tt) ;;
  let! _ := bufferevent_disable c s evhow in
  upd_client c (with_evshut s (fun e => Z.lor e evhow)) ;;
  let! x := get_client c in
  when (shut_both x) (redsocks_drop_client c).

(** ** The error callback *)

(** [red_socket_geterrno]: [getsockopt(SO_ERROR)]. *)
Definition red_socket_geterrno : M Z :=
  let! error := sys in
  if negb (error =? 0) then ret (-1) else sys.

Definition EVBUFFER_READ : Z := 0x01.
Definition EVBUFFER_EOF : Z := 0x10.
Definition pump_active : Z := -1.

(** [redsocks_event_error]: the socket error read by [SO_ERROR] only selects
    the log message. *)
Definition redsocks_event_error (c : nat) (s : side) (what : Z) : M unit :=
  redsocks_touch_client c ;;
  if what =? Z.lor EVBUFFER_READ EVBUFFER_EOF then
    let! x0 := get_client c in
    let antiev := bev_of (anti s) x0 in
    redsocks_shutdown c s SHUT_RD ;;
    let! x := get_client c in
    if c_state x =? pump_active then
      match antiev with
      | None => ret tt
      | Some _ =>
          let! a := get_bev c (anti s) in
          if Z.of_nat (length (be_output a)) =? 0
          then redsocks_shutdown c (anti s) SHUT_WR else ret tt
      end
    else ret tt
  else
    let! _ := get_bev c s in
    let! _ := red_socket_geterrno in
    redsocks_drop_client c.

(** ** Reading replies and writing requests *)

Definition sizes_equal (a b : Z) : bool := a =? b.
Definition sizes_greater_equal (a b : Z) : bool := b <=? a.

(** [redsocks_read_expected] on the input of the relay: [Some data] for 0,
    [None] for -1 (the client is then dropped). *)
Definition redsocks_read_expected (c : nat) (comparator : Z -> Z -> bool) (expected : Z)
  : M (option (list Z)) :=
  let! b := get_bev c Srelay in
  if comparator (Z.of_nat (length (be_input b))) expected then
    let data := take (Z.to_nat expected) (be_input b) in
    upd_bev c Srelay (with_be_input (drop (Z.to_nat expected))) ;;
    assert_ 860 (Z.of_nat (length data) =? expected) ;;
    ret (Some data)
  else redsocks_drop_client c ;; ret None.

(** [mkevbuffer]: both allocations can fail. *)
Definition mkevbuffer (data : list Z) : M (option (list Z)) :=
  let! r := sys in
  if negb (r =? 0) then ret None
  else let! r := sys in if r <? 0 then ret None else ret (Some data).

(** [redsocks_write_helper_ex]: [mkmessage] is [None] for a NULL maker. *)
Definition redsocks_write_helper_ex (c : nat) (mkmessage : option (nat -> M (option (list Z))))
    (state wm_low wm_high : Z) : M Z :=
  let done_ : M Z :=
    upd_client c (with_c_state (fun _ => state)) ;;
    setwatermark_read c Srelay wm_low wm_high ;;
    let! _ := bufferevent_enable c Srelay EV_READ in
    ret 0 in
  match mkmessage with
  | None => done_
  | Some mk =>
      let! buff := mk c in
      match buff with
      | None => redsocks_drop_client c ;; ret (-1)
      | Some data =>
          let! len := bufferevent_write c Srelay data in
          if len <? 0 then redsocks_drop_client c ;; ret (-1) else done_
      end
  end.

Definition redsocks_write_helper (c : nat) (mkmessage : option (nat -> M (option (list Z))))
    (state wm_only : Z) : M Z :=
  redsocks_write_helper_ex c mkmessage state wm_only wm_only.

(** ** Connecting to the relay: [utils.c] *)

Definition fcntl_nonblock (fd : Z) : M Z :=
  let! flags := sys in
  if flags =? -1 then ret (-1)
  else let! error := sys in ret (if negb (error =? 0) then -1 else 0).

(** [apply_tcp_keepalive] of [base.c]: zero values are skipped. *)
Definition apply_tcp_keepalive (fd : Z) : M Z :=
  fold_m (fun acc value =>
      if negb (acc =? 0) then ret acc
      else if negb (value =? 0) then
        let! error := sys in ret (if negb (error =? 0) then -1 else 0)
      else ret 0)
    [1; tcp_keepalive_time; tcp_keepalive_probes; tcp_keepalive_intvl] 0.

Definition EINPROGRESS : Z := 115.

(** [red_connect_relay]: the new bufferevent, or [None]; the descriptor of a
    failed attempt is closed. *)
Definition red_connect_relay : M (option bufferevent) :=
  let! relay_fd := sys in (* socket() *)
  if relay_fd =? -1 then ret None
  else
    let fail : M (option bufferevent) := redsocks_close relay_fd ;; ret None in
    let! error := fcntl_nonblock relay_fd in
    if negb (error =? 0) then fail
    else
      let! ka := apply_tcp_keepalive relay_fd in
      if negb (ka =? 0) then fail
      else
        let! error := sys in (* connect() *)
        let! errno := (if negb (error =? 0) then sys else ret 0) in
        if negb (error =? 0) && negb (errno =? EINPROGRESS) then fail
        else
          let! alloc := sys in (* bufferevent_new() *)
          if negb (alloc =? 0) then fail
          else
            let b := bufferevent_fresh relay_fd cb_null cb_relay_connected in
            let! error := sys_ev in (* bufferevent_enable(retval, EV_WRITE) *)
            if negb (error =? 0) then
              let! _ := sys in (* redsocks_bufferevent_free: setfd *)
              redsocks_close relay_fd ;; ret None
            else ret (Some b).

Definition redsocks_connect_relay (c : nat) : M unit :=
  let! _ := get_client c in
  let! r := red_connect_relay in
  upd_client c (with_c_relay (fun _ => r)) ;;
  match r with
  | None => redsocks_drop_client c
  | Some _ => ret tt
  end.

Definition red_is_socket_connected_ok : M bool :=
  let! pseudo_errno := red_socket_geterrno in
  ret (pseudo_errno =? 0).

End Core.
