(* ===== verification/RedRelay.v ===== *)
(** * Relaying data: the two pumps of [redsocks/redsocks.c]

    Once a subsystem has finished its handshake, [redsocks_start_relay] starts
    either the buffer pump (bytes move between the two bufferevents) or the
    splice pump (bytes move through a kernel pipe). *)

From S2P Require Import Prelude RedWorld RedCore.

Open Scope Z_scope.
Open Scope red_scope.

Section Relay.
Context `{BC : BaseConfig}.

(** ** Buffer pump *)

Definition REDSOCKS_RELAY_HALFBUFF : Z := 4096.

(** [bufferevent_write_buffer(to, from->input)]: -1 leaves both untouched. *)
Definition move_input (c : nat) (from to : side) : M Z :=
  let! b := get_bev c from in
  let! r := bufferevent_write c to (be_input b) in
  when (r =? 0) (upd_bev c from (with_be_input (fun _ => []))) ;;
  ret r.

Definition redsocks_relay_readcb (c : nat) (from to : side) : M unit :=
  let! t := get_bev c to in
  if Z.of_nat (length (be_output t)) <? wm_write_high t then
    let! _ := move_input c from to in ret tt
  else
    let! f := get_bev c from in
    when (negb (Z.land (be_enabled f) EV_READ =? 0))
      (let! _ := bufferevent_disable c from EV_READ in ret tt).

Definition redsocks_relay_writecb (c : nat) (from to : side) : M unit :=
  let! x := get_client c in
  let from_eof := negb (Z.land (evshut_of from x) EV_READ =? 0) in
  let! f := get_bev c from in
  let! t := get_bev c to in
  if (Z.of_nat (length (be_input f)) =? 0) && from_eof then redsocks_shutdown c to SHUT_WR
  else if Z.of_nat (length (be_output t)) <? wm_write_high t then
    let! _ := move_input c from to in
    when (negb from_eof && (Z.land (be_enabled f) EV_READ =? 0))
      (let! _ := bufferevent_enable c from EV_READ in ret tt)
  else ret tt.

Definition redsocks_relay_relayreadcb (c : nat) : M unit :=
  redsocks_touch_client c ;; redsocks_relay_readcb c Srelay Sclient.

Definition redsocks_relay_relaywritecb (c : nat) : M unit :=
  redsocks_touch_client c ;; redsocks_relay_writecb c Sclient Srelay.

Definition redsocks_relay_clientreadcb (c : nat) : M unit :=
  redsocks_touch_client c ;; redsocks_relay_readcb c Sclient Srelay.

Definition redsocks_relay_clientwritecb (c : nat) : M unit :=
  redsocks_touch_client c ;; redsocks_relay_writecb c Srelay Sclient.

Definition redsocks_start_bufferpump (c : nat) : M Z :=
  setwatermark_rdwr c Sclient 0 REDSOCKS_RELAY_HALFBUFF ;;
  setwatermark_rdwr c Srelay 0 REDSOCKS_RELAY_HALFBUFF ;;
  upd_bev c Sclient (fun b =>
    with_writecb (fun _ => cb_clientwrite) (with_readcb (fun _ => cb_clientread) b)) ;;
  upd_bev c Srelay (fun b =>
    with_writecb (fun _ => cb_relaywrite) (with_readcb (fun _ => cb_relayread) b)) ;;
  let! x := get_client c in
  let! error := bufferevent_enable c Sclient (Z.ldiff EV_RDWR (client_evshut x)) in
  if error =? 0 then bufferevent_enable c Srelay (Z.ldiff EV_RDWR (relay_evshut x))
  else ret error.

(** ** Splice pump *)

Definition EAGAIN : Z := 11.
Definition would_block (e : Z) : bool := e =? EAGAIN. (* EWOULDBLOCK is EAGAIN *)

(** [bufferevent_free_unused] *)
Definition bufferevent_free_unused (c : nat) (s : side) : M unit :=
  upd_client c (with_bev s (fun p =>
    match p with
    | Some b =>
        if (Z.of_nat (length (be_input b)) =? 0) && (Z.of_nat (length (be_output b)) =? 0)
        then None else p
    | None => None
    end)).

Definition redsocks_touch_pump (c : nat) : M unit :=
  redsocks_touch_client c ;;
  bufferevent_free_unused c Sclient ;;
  bufferevent_free_unused c Srelay.

(** The contexts of the four callbacks, selected by the side written to
    ([redsplice_write_ctx]) or read from ([redsplice_read_ctx]). *)
Definition pipe_to (s : side) : pump_t -> splice_pipe :=
  match s with Srelay => request | Sclient => reply end.
Definition with_pipe_to (s : side) : (splice_pipe -> splice_pipe) -> pump_t -> pump_t :=
  match s with Srelay => with_request | Sclient => with_reply end.
Definition read_event (s : side) : pump_t -> event :=
  match s with Sclient => client_read | Srelay => relay_read end.
Definition with_read_event (s : side) : (event -> event) -> pump_t -> pump_t :=
  match s with Sclient => with_client_read | Srelay => with_relay_read end.
Definition write_event (s : side) : pump_t -> event :=
  match s with Sclient => client_write | Srelay => relay_write end.
Definition with_write_event (s : side) : (event -> event) -> pump_t -> pump_t :=
  match s with Sclient => with_client_write | Srelay => with_relay_write end.

(** The result of a write of [avail] bytes: what the kernel took, or -1. *)
Definition sys_write (avail : Z) : M Z :=
  let! r := sys in ret (if r <? 0 then -1 else Z.min r avail).

(** What a write attempt leads to. *)
Inductive wstep := s_next | s_decide (can_write has_data : bool) | s_dropped.

(** Both loops of [redsplice_write_cb] treat an attempt the same way. *)
Definition after_write (c : nat) (avail sent : Z) : M wstep :=
  if sent =? -1 then
    let! e := sys in
    if would_block e then ret (s_decide false true)
    else redsocks_drop_client c ;; ret s_dropped
  else if avail =? sent then ret s_next
  else ret (s_decide false true).

(** One evbuffer of [ebsrc]: [relay->output]/[client->output] is a queue [out]
    of side [s], the other is the input of the opposite side. *)
Definition write_ebsrc (c : nat) (s : side) (is_output : bool) : M wstep :=
  let! x := get_client c in
  let owner := if is_output then s else anti s in
  match bev_of owner x with
  | None => ret s_next
  | Some b =>
      let data := if is_output then be_output b else be_input b in
      let avail := Z.of_nat (length data) in
      if avail =? 0 then ret s_next
      else
        let! sent := sys_write avail in
        when (negb (sent =? -1))
          (upd_bev c owner
             (if is_output then with_be_output (drop (Z.to_nat sent))
              else with_be_input (drop (Z.to_nat sent)))) ;;
        after_write c avail sent
  end.

(** The [do ... while (0)] part: the pipe. *)
Definition write_pisrc (c : nat) (s : side) : M wstep :=
  let! x := get_client c in
  let avail := p_size (pipe_to s (pump x)) in
  if avail =? 0 then ret s_next
  else
    let! sent := sys_write avail in
    when (negb (sent =? -1))
      (upd_client c (with_pump (with_pipe_to s (with_p_size (fun n => n - sent))))) ;;
    after_write c avail sent.

(** From the [decide] label on. *)
Definition splice_decide (c : nat) (s : side) (can_write has_data : bool) : M unit :=
  let! x := get_client c in
  let! can_write :=
    (if negb has_data && negb (Z.land (evshut_of (anti s) x) EV_READ =? 0)
        && (Z.land (evshut_of s x) EV_WRITE =? 0) then
       let! _ := sys in (* shutdown(out, SHUT_WR) *)
       upd_client c (with_evshut s (fun e => Z.lor e EV_WRITE)) ;;
       assert_ 467 (p_size (pipe_to s (pump x)) =? 0) ;;
       redsocks_close (p_read (pipe_to s (pump x))) ;;
       upd_client c (with_pump (with_pipe_to s (with_p_read (fun _ => -1)))) ;;
       redsocks_close (p_write (pipe_to s (pump x))) ;;
       upd_client c (with_pump (with_pipe_to s (with_p_write (fun _ => -1)))) ;;
       let! x := get_client c in
       if shut_both x then redsocks_drop_client c ;; ret None else ret (Some false)
     else ret (Some can_write)) in
  match can_write with
  | None => ret tt
  | Some can_write =>
      assert_ 478 (negb (can_write && has_data)) ;;
      if negb can_write && has_data then
        pump_del c (with_read_event (anti s)) ;; pump_add c (with_write_event s)
      else if can_write && negb has_data then
        pump_add c (with_read_event (anti s)) ;; pump_del c (with_write_event s)
      else if negb can_write && negb has_data then
        pump_del c (with_read_event (anti s)) ;; pump_del c (with_write_event s)
      else ret tt
  end.

(** [redsplice_write_cb], writing to side [s]. *)
Definition redsplice_write_cb (c : nat) (s : side) : M unit :=
  let! st := write_ebsrc c s true in
  match st with
  | s_dropped => ret tt
  | s_decide cw hd => splice_decide c s cw hd
  | s_next =>
      let! st := write_ebsrc c s false in
      match st with
      | s_dropped => ret tt
      | s_decide cw hd => splice_decide c s cw hd
      | s_next =>
          let! st := write_pisrc c s in
          match st with
          | s_dropped => ret tt
          | s_decide cw hd => splice_decide c s cw hd
          | s_next => splice_decide c s true false
          end
      end
  end.

(** [redsplice_read_cb], reading from side [s]. *)
Definition redsplice_read_cb (c : nat) (s : side) : M unit :=
  let! got := sys in
  if got <? 0 then
    let! e := sys in
    if would_block e then pump_del c (with_read_event s)
    else redsocks_drop_client c
  else
    (if got =? 0 then
       let! _ := sys in (* shutdown(in, SHUT_RD) *)
       upd_client c (with_evshut s (fun e => Z.lor e EV_READ)) ;;
       pump_del c (with_read_event s)
     else upd_client c (with_pump (with_pipe_to (anti s) (with_p_size (fun n => n + got))))) ;;
    upd_client c (with_pump (with_write_event (anti s) event_activate)).

Definition redsplice_read (c : nat) (s : side) : M unit :=
  redsocks_touch_pump c ;; redsplice_read_cb c s.

Definition redsplice_write (c : nat) (s : side) : M unit :=
  redsocks_touch_pump c ;; redsplice_write_cb c s.

(** [pipe2(&pipe.read, O_NONBLOCK)] *)
Definition pipe2 (c : nat) (s : side) : M Z :=
  let! error := sys in
  if error =? 0 then
    let! r := sys in
    let! w := sys in
    upd_client c (with_pump (with_pipe_to s (fun p =>
      with_p_write (fun _ => w) (with_p_read (fun _ => r) p)))) ;; ret 0
  else ret error.

Definition event_assign (c : nat) (upd : (event -> event) -> pump_t -> pump_t) (fd : Z) : M Z :=
  let! error := sys_ev in
  when (error =? 0) (upd_client c (with_pump (upd (fun _ => Event true fd false false)))) ;;
  ret error.

(** Runs the calls in order until one reports an error. *)
Fixpoint chain (l : list (M Z)) : M Z :=
  match l with
  | [] => ret 0
  | m :: l => let! error := m in if error =? 0 then chain l else ret error
  end.

Definition redsocks_bufferevent_dropfd (c : nat) (s : side) : M unit :=
  let! r := sys_ev in
  when (r =? 0) (upd_bev c s (with_be_fd (fun _ => -1))).

Definition redsocks_start_splicepump (c : nat) : M Z :=
  let! error := chain [bufferevent_disable c Sclient EV_RDWR; bufferevent_disable c Srelay EV_RDWR] in
  if negb (error =? 0) then ret error
  else
    let! error := chain [pipe2 c Srelay; pipe2 c Sclient] in
    if negb (error =? 0) then ret error
    else
      let! rb := get_bev c Srelay in
      let! cb := get_bev c Sclient in
      let! error := chain [event_assign c with_client_read (be_fd cb);
                           event_assign c with_client_write (be_fd cb);
                           event_assign c with_relay_read (be_fd rb);
                           event_assign c with_relay_write (be_fd rb)] in
      if negb (error =? 0) then ret error
      else
        redsocks_bufferevent_dropfd c Srelay ;;
        redsocks_bufferevent_dropfd c Sclient ;;
        upd_client c (with_pump (with_client_write event_activate)) ;;
        upd_client c (with_pump (with_relay_write event_activate)) ;;
        pump_add c with_client_read ;;
        pump_add c with_relay_read ;;
        ret 0.

(** ** Starting the relay *)

Definition redsocks_start_relay (c : nat) : M unit :=
  run_fini c ;;
  upd_client c (with_c_state (fun _ => pump_active)) ;;
  let! x := get_client c in
  let! i := get_inst (c_instance x) in
  let! error := (if use_splice (config i) then redsocks_start_splicepump c
                 else redsocks_start_bufferpump c) in
  if error =? 0 then ret tt else redsocks_drop_client c.

End Relay.
