(* ===== verification/Socks5.v ===== *)
(** * The SOCKS5 upstream: [redsocks/socks5.c] and [socks5.h] *)

From S2P Require Import Prelude RedWorld RedCore RedRelay.

Open Scope Z_scope.
Open Scope red_scope.

Module Socks5.

(** ** Constants of [socks5.h] *)

Definition socks5_ver : Z := 5.
Definition socks5_auth_none : Z := 0x00.
Definition socks5_auth_password : Z := 0x02.
Definition socks5_auth_invalid : Z := 0xFF.
Definition socks5_password_ver : Z := 0x01.
Definition socks5_password_passed : Z := 0x00.
Definition socks5_addrtype_ipv4 : Z := 1.
Definition socks5_addrtype_domain : Z := 3.
Definition socks5_addrtype_ipv6 : Z := 4.
Definition socks5_status_succeeded : Z := 0.
Definition socks5_cmd_connect : Z := 1.
Definition socks5_cmd_udp_associate : Z := 3.

(** [sizeof] of the packed structures. *)
Definition sizeof_method_reply : Z := 2.
Definition sizeof_auth_reply : Z := 2.
Definition sizeof_reply : Z := 4.
Definition sizeof_addr_ipv4 : Z := 6.
Definition sizeof_addr_ipv6 : Z := 18.

(** [enum socks5_state_t] *)
Definition socks5_new : Z := 0.
Definition socks5_method_sent : Z := 1.
Definition socks5_auth_sent : Z := 2.
Definition socks5_request_sent : Z := 3.
Definition socks5_skip_domain : Z := 4.
Definition socks5_skip_address : Z := 5.

(** ** Messages *)

Definition socks5_is_valid_cred (login password : option (list Z)) : bool :=
  match login, password with
  | Some l, Some p =>
      if 255 <? Z.of_nat (length l) then false
      else if 255 <? Z.of_nat (length p) then false else true
  | _, _ => false
  end.

(** The bytes of [socks5_mkmethods_plain]; [do_password] is 0 or 1. *)
Definition socks5_mkmethods_plain (do_password : Z) : list Z :=
  [socks5_ver; 1 + do_password; socks5_auth_none] ++
  (if do_password =? 0 then [] else [socks5_auth_password]).

(** The bytes of [socks5_mkpassword_plain]: the lengths are stored in a byte. *)
Definition socks5_mkpassword_plain (login password : list Z) : list Z :=
  [socks5_password_ver; u8 (Z.of_nat (length login))] ++ login ++
  [u8 (Z.of_nat (length password))] ++ password.

(** The bytes of [socks5_mkcommand_plain]: address and port are stored in the
    network byte order they have in the [sockaddr_in]. *)
Definition socks5_mkcommand_plain (socks5_cmd : Z) (destaddr : sockaddr_in) : list Z :=
  [socks5_ver; u8 socks5_cmd; 0; socks5_addrtype_ipv4] ++
  be32 (sin_addr destaddr) ++ be16 (sin_port destaddr).

(** [socks5_is_known_auth_method]: [true] when it returns NULL (no error). *)
Definition socks5_is_known_auth_method (ver method do_password : Z) : bool :=
  if negb (ver =? socks5_ver) then false
  else if method =? socks5_auth_invalid then false
  else if negb (method =? socks5_auth_none)
          && negb ((method =? socks5_auth_password) && negb (do_password =? 0)) then false
  else true.

Section Socks5.
Context `{BC : BaseConfig}.

(** ** Handlers *)

Definition socks5_instance_init (i : nat) : M unit :=
  let! x := get_inst i in
  let cfg := config x in
  if bool_decide (is_Some (login cfg)) || bool_decide (is_Some (password cfg)) then
    let deauth :=
      if bool_decide (is_Some (login cfg)) && bool_decide (is_Some (password cfg))
      then negb (socks5_is_valid_cred (login cfg) (password cfg)) else true in
    when deauth
      (upd_inst i (with_config (fun k => with_password (fun _ => None) (with_login (fun _ => None) k))))
  else ret tt.

Definition socks5_client_init (c : nat) : M unit :=
  let! x := get_client c in
  let! i := get_inst (c_instance x) in
  let do_password :=
    if bool_decide (is_Some (login (config i))) && bool_decide (is_Some (password (config i)))
    then 1 else 0 in
  upd_client c (fun x => with_payload (fun _ => socks5_payload do_password 0)
                           (with_c_state (fun _ => socks5_new) x)).

Definition do_password_of (x : redsocks_client) : Z :=
  match payload x with socks5_payload d _ => d | _ => 0 end.

Definition to_skip_of (x : redsocks_client) : Z :=
  match payload x with socks5_payload _ t => t | _ => 0 end.

Definition set_to_skip (c : nat) (n : Z) : M unit :=
  upd_client c (with_payload (fun p =>
    match p with socks5_payload d _ => socks5_payload d n | p => p end)).

Definition socks5_mkmethods (c : nat) : M (option (list Z)) :=
  let! x := get_client c in
  let d := do_password_of x in
  assert_ 115 ((d =? 0) || (d =? 1)) ;;
  mkevbuffer (socks5_mkmethods_plain d).

Definition socks5_mkpassword (c : nat) : M (option (list Z)) :=
  let! x := get_client c in
  let! i := get_inst (c_instance x) in
  match login (config i), password (config i) with
  | Some l, Some p => mkevbuffer (socks5_mkpassword_plain l p)
  | _, _ => raise NullDeref (* strlen(NULL) *)
  end.

Definition socks5_mkconnect (c : nat) : M (option (list Z)) :=
  let! x := get_client c in
  assert_ 158 (sin_family (destaddr x) =? AF_INET) ;;
  mkevbuffer (socks5_mkcommand_plain socks5_cmd_connect (destaddr x)).

Definition socks5_write_cb (c : nat) : M unit :=
  redsocks_touch_client c ;;
  let! x := get_client c in
  if c_state x =? socks5_new then
    let! _ := redsocks_write_helper c (Some socks5_mkmethods) socks5_method_sent
                sizeof_method_reply in
    ret tt
  else ret tt.

Definition socks5_read_auth_methods (c : nat) : M unit :=
  let! r := redsocks_read_expected c sizes_equal sizeof_method_reply in
  match r with
  | None => ret tt
  | Some reply =>
      let ver := nth 0 reply 0 in
      let method := nth 1 reply 0 in
      let! x := get_client c in
      if negb (socks5_is_known_auth_method ver method (do_password_of x)) then
        redsocks_drop_client c
      else if method =? socks5_auth_none then
        let! _ := redsocks_write_helper c (Some socks5_mkconnect) socks5_request_sent
                    sizeof_reply in ret tt
      else if method =? socks5_auth_password then
        let! _ := redsocks_write_helper c (Some socks5_mkpassword) socks5_auth_sent
                    sizeof_auth_reply in ret tt
      else ret tt
  end.

Definition socks5_read_auth_reply (c : nat) : M unit :=
  let! r := redsocks_read_expected c sizes_equal sizeof_auth_reply in
  match r with
  | None => ret tt
  | Some reply =>
      let ver := nth 0 reply 0 in
      let status := nth 1 reply 0 in
      if negb (ver =? socks5_password_ver) then redsocks_drop_client c
      else if status =? socks5_password_passed then
        let! _ := redsocks_write_helper c (Some socks5_mkconnect) socks5_request_sent
                    sizeof_reply in ret tt
      else redsocks_drop_client c
  end.

Definition socks5_read_reply (c : nat) : M unit :=
  let! r := redsocks_read_expected c sizes_greater_equal sizeof_reply in
  match r with
  | None => ret tt
  | Some reply =>
      let ver := nth 0 reply 0 in
      let status := nth 1 reply 0 in
      let addrtype := nth 3 reply 0 in
      if negb (ver =? socks5_ver) then redsocks_drop_client c
      else if status =? socks5_status_succeeded then
        if addrtype =? socks5_addrtype_ipv4 then
          set_to_skip c sizeof_addr_ipv4 ;;
          let! _ := redsocks_write_helper c None socks5_skip_address sizeof_addr_ipv4 in ret tt
        else if addrtype =? socks5_addrtype_ipv6 then
          set_to_skip c sizeof_addr_ipv6 ;;
          let! _ := redsocks_write_helper c None socks5_skip_address sizeof_addr_ipv6 in ret tt
        else if addrtype =? socks5_addrtype_domain then
          let! _ := redsocks_write_helper c None socks5_skip_domain 1 in ret tt
        else redsocks_drop_client c
      else redsocks_drop_client c
  end.

Definition socks5_read_cb (c : nat) : M unit :=
  redsocks_touch_client c ;;
  let! x := get_client c in
  if c_state x =? socks5_method_sent then socks5_read_auth_methods c
  else if c_state x =? socks5_auth_sent then socks5_read_auth_reply c
  else if c_state x =? socks5_request_sent then socks5_read_reply c
  else if c_state x =? socks5_skip_domain then
    let! r := redsocks_read_expected c sizes_greater_equal 1 in
    match r with
    | None => ret tt
    | Some d =>
        let to_skip := nth 0 d 0 + 2 in
        set_to_skip c to_skip ;;
        let! _ := redsocks_write_helper c None socks5_skip_address to_skip in ret tt
    end
  else if c_state x =? socks5_skip_address then
    let! r := redsocks_read_expected c sizes_greater_equal (to_skip_of x) in
    match r with
    | None => ret tt
    | Some _ => redsocks_start_relay c
    end
  else redsocks_drop_client c.

End Socks5.
End Socks5.
