(* ===== verification/Socks4.v ===== *)
(** * The SOCKS4 upstream: [redsocks/socks4.c] *)

From S2P Require Import Prelude RedWorld RedCore RedRelay.

Open Scope Z_scope.
Open Scope red_scope.

Module Socks4.

(** [enum socks4_state_t] *)
Definition socks4_new : Z := 0.
Definition socks4_request_sent : Z := 1.
Definition socks4_reply_came : Z := 2.

Definition socks4_ver : Z := 4.
Definition socks4_cmd_connect : Z := 1.
Definition socks4_status_ok : Z := 90.

(** [sizeof(socks4_reply)] *)
Definition sizeof_reply : Z := 8.

(** The bytes of [socks4_mkconnect]: the packed [socks4_req] and the user name
    with its terminator. *)
Definition socks4_request (login : option (list Z)) (destaddr : sockaddr_in) : list Z :=
  let username := match login with Some l => l | None => [] end in
  [socks4_ver; socks4_cmd_connect] ++ be16 (sin_port destaddr) ++ be32 (sin_addr destaddr)
    ++ username ++ [0].

Section Socks4.
Context `{BC : BaseConfig}.

Definition socks4_client_init (c : nat) : M unit :=
  upd_client c (with_c_state (fun _ => socks4_new)).

Definition socks4_mkconnect (c : nat) : M (option (list Z)) :=
  let! x := get_client c in
  let! i := get_inst (c_instance x) in
  mkevbuffer (socks4_request (login (config i)) (destaddr x)).

Definition socks4_read_cb (c : nat) : M unit :=
  let! x := get_client c in
  assert_ 70 (socks4_request_sent <=? c_state x) ;;
  redsocks_touch_client c ;;
  if c_state x =? socks4_request_sent then
    let! r := redsocks_read_expected c sizes_greater_equal sizeof_reply in
    match r with
    | None => ret tt
    | Some reply =>
        upd_client c (with_c_state (fun _ => socks4_reply_came)) ;;
        let ver := nth 0 reply 0 in
        let status := nth 1 reply 0 in
        if negb (ver =? 0) then redsocks_drop_client c
        else if status =? socks4_status_ok then redsocks_start_relay c
        else redsocks_drop_client c
    end
  else ret tt.

Definition socks4_write_cb (c : nat) : M unit :=
  redsocks_touch_client c ;;
  let! x := get_client c in
  if c_state x =? socks4_new then
    let! _ := redsocks_write_helper c (Some socks4_mkconnect) socks4_request_sent sizeof_reply in
    ret tt
  else if socks4_request_sent <=? c_state x then
    let! _ := bufferevent_disable c Srelay EV_WRITE in ret tt
  else ret tt.

End Socks4.
End Socks4.
