(* ===== verification/HttpConnect.v ===== *)
(** * The HTTP CONNECT upstream: [redsocks/http-connect.c]

    With [http_auth_request_header] of [http-auth.c] and
    [redsocks_evbuffer_readline] of [utils.c]. Allocations whose result the code
    does not check are taken to succeed. *)

From S2P Require Import Prelude CLib Md5 HttpAuth RedWorld RedCore RedRelay.
Import HttpAuth.

Open Scope Z_scope.
Open Scope red_scope.

Module HttpConnect.

(** [enum httpc_state_t] *)
Definition httpc_new : Z := 0.
Definition httpc_request_sent : Z := 1.
Definition httpc_reply_came : Z := 2.
Definition httpc_headers_skipped : Z := 3.
Definition httpc_no_way : Z := 4.

Definition HTTP_HEAD_WM_HIGH : Z := 4096.

Definition auth_request_header : list Z := B# "Proxy-Authenticate:".
Definition auth_response_header : list Z := B# "Proxy-Authorization:".
Definition crlf : list Z := [13; 10].

(** ** Lines *)

(** [evbuffer_readln(buf, NULL, EVBUFFER_EOL_CRLF)]: the text before the first
    LF, without a CR just before it, and what follows. *)
Fixpoint read_line (buf : list Z) : option (list Z * list Z) :=
  match buf with
  | [] => None
  | c :: rest =>
      if c =? 10 then Some ([], rest)
      else if (c =? 13) && (peek rest =? 10) then Some ([], tail rest)
      else match read_line rest with
           | Some (line, rest) => Some (c :: line, rest)
           | None => None
           end
  end.

(** [sscanf(line, "HTTP/%*u.%*u %u", &code) == 1] *)
Definition scan_status (line : list Z) : option Z :=
  match scan_lit (B# "HTTP/") line with
  | None => None
  | Some p =>
  match scan_u p with
  | None => None
  | Some (_, p) =>
  match scan_lit [46] p with
  | None => None
  | Some p =>
  match scan_u p with
  | None => None
  | Some (_, p) =>
  match scan_u (skip_spaces p) with
  | None => None
  | Some (code, _) => Some code
  end end end end end.

Section HttpConnect.
Context `{BC : BaseConfig}.

(** [redsocks_evbuffer_readline(buffev->input)]: the line is used as a C string;
    when its allocation fails the input stays as it is. *)
Definition redsocks_evbuffer_readline (c : nat) (s : side) : M (option (list Z)) :=
  let! b := get_bev c s in
  match read_line (be_input b) with
  | None => ret None
  | Some (line, rest) =>
      let! r := sys in
      if r =? 0 then
        upd_bev c s (with_be_input (fun _ => rest)) ;; ret (Some (cstr line))
      else ret None
  end.

(** [evbuffer_add] and [evbuffer_add_printf]: [None] for a failure. *)
Definition evbuffer_add (buff data : list Z) : M (option (list Z)) :=
  let! r := sys in
  if r =? 0 then ret (Some (buff ++ data)) else ret None.

(** ** [http_auth_request_header] *)

(** The header line and the tee, which has every line read so far. The fuel is
    the number of bytes in the buffer: each line takes at least one. *)
Fixpoint auth_header_loop (fuel : nat) (c : nat) (tee : option (list Z))
  : M (option (list Z) * option (list Z)) :=
  match fuel with
  | O => ret (None, tee)
  | S fuel =>
      let! line := redsocks_evbuffer_readline c Srelay in
      match line with
      | None => ret (None, tee)
      | Some line =>
          let! added :=
            (match tee with
             | None => ret (Some None)
             | Some t =>
                 let! t1 := evbuffer_add t line in
                 match t1 with
                 | None => ret None
                 | Some t1 =>
                     let! t2 := evbuffer_add t1 crlf in
                     ret (match t2 with None => None | Some t2 => Some (Some t2) end)
                 end
             end) in
          match added with
          | None => ret (None, tee) (* evbuffer_add failed *)
          | Some tee =>
              if (peek line =? 0) || negb (strchr_found line 58) then ret (None, tee)
              else if strncasecmp line auth_request_header (length auth_request_header) =? 0
              then ret (Some line, tee)
              else auth_header_loop fuel c tee
          end
      end
  end.

Definition http_auth_request_header (c : nat) (tee : option (list Z))
  : M (option (list Z) * option (list Z)) :=
  let! b := get_bev c Srelay in
  auth_header_loop (S (length (be_input b))) c tee.

(** ** Handlers *)

Definition httpc_client_init (c : nat) : M unit :=
  upd_client c (with_c_state (fun _ => httpc_new)).

Definition httpc_instance_fini (i : nat) : M unit :=
  upd_inst i (with_last_auth_query (fun _ => None)).

Definition set_state (c : nat) (st : Z) : M unit := upd_client c (with_c_state (fun _ => st)).

(** Where the first part of [httpc_read_cb] leaves off: it returned, it jumped
    to [fail], or it goes on; the last two with the tee. *)
Inductive progress := p_returned | p_fail (tee : option (list Z)) | p_go (tee : option (list Z)).

(** The branch for the code 407: [inr tt] when the function returned, else the
    tee. *)
Definition auth_failed (c : nat) (do_errtee : bool) : M (option (list Z) + unit) :=
  let! x := get_client c in
  let! i := get_inst (c_instance x) in
  if bool_decide (is_Some (last_auth_query i)) && (last_auth_count i =? 1) then
    set_state c httpc_no_way ;; ret (inl None)
  else if negb (bool_decide (is_Some (login (config i))))
          || negb (bool_decide (is_Some (password (config i)))) then
    set_state c httpc_no_way ;; ret (inl None)
  else
    let! tee := (if do_errtee then let! r := sys in ret (if r =? 0 then Some [] else None)
                 else ret None) in
    let! r := http_auth_request_header c tee in
    let (auth_request, tee) := r in
    match auth_request with
    | None => set_state c httpc_no_way ;; ret (inl tee)
    | Some auth_request =>
        let ptr := skip_spaces (drop (length auth_request_header) auth_request) in
        upd_inst (c_instance x) (fun i =>
          with_last_auth_count (fun _ => 0) (with_last_auth_query (fun _ => Some ptr) i)) ;;
        let! error := bufferevent_disable c Srelay EV_WRITE in
        if negb (error =? 0) then ret (inr tt)
        else
          redsocks_bufferevent_free c Srelay ;;
          set_state c httpc_new ;;
          redsocks_connect_relay c ;;
          ret (inr tt)
    end.

(** [bufferevent_write(client->client, line); bufferevent_write(..., "\r\n")]:
    [true] when both succeed. *)
Definition write_line_to_client (c : nat) (line : list Z) : M bool :=
  let! r := bufferevent_write c Sclient line in
  if negb (r =? 0) then ret false
  else let! r := bufferevent_write c Sclient crlf in ret (r =? 0).

(** The [if (client->state == httpc_request_sent)] block. *)
Definition httpc_first_line (c : nat) (do_errtee : bool) : M progress :=
  let! b := get_bev c Srelay in
  let len := Z.of_nat (length (be_input b)) in
  let! line := redsocks_evbuffer_readline c Srelay in
  match line with
  | Some line =>
      let! r :=
        (match scan_status line with
         | Some code =>
             if code =? 407 then auth_failed c do_errtee
             else if (200 <=? code) && (code <=? 299) then
               set_state c httpc_reply_came ;; ret (inl None)
             else set_state c httpc_no_way ;; ret (inl None)
         | None => set_state c httpc_no_way ;; ret (inl None)
         end) in
      match r with
      | inr tt => ret p_returned
      | inl tee =>
          let! x := get_client c in
          if do_errtee && (c_state x =? httpc_no_way) then
            let! ok := write_line_to_client c line in
            if ok then ret (p_go tee) else ret (p_fail tee)
          else ret (p_go tee)
      end
  | None =>
      when (HTTP_HEAD_WM_HIGH <=? len) (set_state c httpc_no_way) ;; ret (p_go None)
  end.

(** The [if (do_errtee && client->state == httpc_no_way)] block; it always ends
    at [fail]. *)
Definition httpc_forward_error (c : nat) (tee : option (list Z)) : M unit :=
  let! ok :=
    (match tee with
     | Some t => let! r := bufferevent_write c Sclient t in ret (r =? 0)
     | None => ret true
     end) in
  if negb ok then ret tt
  else
    redsocks_shutdown c Sclient SHUT_RD ;;
    let! b := get_bev c Sclient in
    let avail := Z.of_nat (length (be_input b)) in
    let! drained :=
      (if negb (avail =? 0) then
         let! r := sys in
         when (r =? 0) (upd_bev c Sclient (with_be_input (fun _ => []))) ;; ret (r =? 0)
       else ret true) in
    if negb drained then ret tt
    else redsocks_shutdown c Srelay SHUT_WR ;; set_state c httpc_headers_skipped.

(** [while (client->state == httpc_reply_came)]: [fuel] as above. *)
Fixpoint skip_headers (fuel : nat) (c : nat) : M unit :=
  match fuel with
  | O => ret tt
  | S fuel =>
      let! x := get_client c in
      if c_state x =? httpc_reply_came then
        let! line := redsocks_evbuffer_readline c Srelay in
        match line with
        | Some line =>
            when (Z.of_nat (length line) =? 0) (set_state c httpc_headers_skipped) ;;
            skip_headers fuel c
        | None => ret tt
        end
      else ret tt
  end.

(** From the [fail] label on. *)
Definition httpc_tail (c : nat) : M unit :=
  let! x := get_client c in
  if c_state x =? httpc_no_way then redsocks_drop_client c
  else
    let! b := get_bev c Srelay in
    skip_headers (S (length (be_input b))) c ;;
    let! x := get_client c in
    when (c_state x =? httpc_headers_skipped) (redsocks_start_relay c).

Definition httpc_read_cb (c : nat) : M unit :=
  let! x := get_client c in
  assert_ 69 ((c_state x =? httpc_request_sent) || (c_state x =? httpc_reply_came)) ;;
  redsocks_touch_client c ;;
  let! i := get_inst (c_instance x) in
  let do_errtee := bool_decide (on_proxy_fail (config i) = ONFAIL_FORWARD_HTTP_ERR) in
  let! p := (if c_state x =? httpc_request_sent then httpc_first_line c do_errtee
             else ret (p_go None)) in
  match p with
  | p_returned => ret tt
  | p_fail tee => httpc_tail c
  | p_go tee =>
      let! x := get_client c in
      when (do_errtee && (c_state x =? httpc_no_way)) (httpc_forward_error c tee) ;;
      httpc_tail c
  end.

(** ** The request *)

(** What is on the stack when [digest_authentication_encode] declares its MD5
    context; [md5_init] and the padding make the digest independent of it. *)
Definition stack_ctx : Md5.md5_state := Md5.md5_init (repeat 0 64).

(** The authentication scheme and string, [None] without one. *)
Definition httpc_auth (i : redsocks_instance) (dest : sockaddr_in)
  : M (option (list Z * list Z)) :=
  match last_auth_query i with
  | None => ret None
  | Some query =>
      if strncasecmp query (B# "Basic") 5 =? 0 then
        match login (config i), password (config i) with
        | Some l, Some p =>
            ret (match basic_authentication_encode l p with
                 | Some s => Some (B# "Basic", s)
                 | None => None
                 end)
        | _, _ => raise NullDeref
        end
      else if strncasecmp query (B# "Digest") 6 =? 0 then
        let uri := inet_ntoa (sin_addr dest) ++ [58] ++ format_u (sin_port dest) in
        let! r1 := sys in
        let! r2 := sys in
        let cnounce := hex_digits 8 (u32 r1) ++ hex_digits 8 (u32 r2) in
        if (length query <? 7)%nat then raise OutOfBounds (* last_auth_query + 7 *)
        else
          ret (match digest_authentication_encode stack_ctx (drop 7 query)
                       (login (config i)) (password (config i)) (B# "CONNECT") uri
                       (last_auth_count i) cnounce with
               | Some s => Some (B# "Digest", s)
               | None => None
               end)
      else ret None
  end.

(** The disclosure header, [None] when [inet_ntop] fails. *)
Definition disclosure (d : disclose_src_e) (client : sockaddr_in) : option (list Z) :=
  let ip := inet_ntoa (sin_addr client) in
  if bool_decide (d = DISCLOSE_NONE) then Some []
  else if negb (sin_family client =? AF_INET) then None
  else Some (match d with
             | DISCLOSE_X_FORWARDED_FOR => (B# "X-Forwarded-For: ") ++ ip ++ crlf
             | DISCLOSE_FORWARDED_IP => (B# "Forwarded: for=") ++ ip ++ crlf
             | DISCLOSE_FORWARDED_IPPORT =>
                 (B# "Forwarded: for=") ++ [34] ++ ip ++ [58] ++ format_u (sin_port client)
                   ++ [34] ++ crlf
             | DISCLOSE_NONE => []
             end).

Definition request_line (dest : sockaddr_in) : list Z :=
  (B# "CONNECT ") ++ inet_ntoa (sin_addr dest) ++ [58] ++ format_u (sin_port dest)
    ++ (B# " HTTP/1.0") ++ crlf.

Definition auth_line (a : list Z * list Z) : list Z :=
  auth_response_header ++ [32] ++ a.1 ++ [32] ++ a.2 ++ crlf.

(** Sequencing of additions to the buffer: a failed one ends the function. *)
Definition and_then (m : M (option (list Z))) (k : list Z -> M (option (list Z)))
  : M (option (list Z)) :=
  let! r := m in match r with Some b => k b | None => ret None end.

Definition httpc_mkconnect (c : nat) : M (option (list Z)) :=
  let! x := get_client c in
  let! r := sys in (* evbuffer_new() *)
  if negb (r =? 0) then ret None
  else
    upd_inst (c_instance x) (with_last_auth_count (fun n => s32 (n + 1))) ;;
    let! i := get_inst (c_instance x) in
    let! auth := httpc_auth i (destaddr x) in
    and_then (evbuffer_add [] (request_line (destaddr x))) (fun buff =>
    and_then (match auth with
              | Some a => evbuffer_add buff (auth_line a)
              | None => ret (Some buff)
              end) (fun buff =>
    and_then (match disclosure (disclose_src (config i)) (clientaddr x) with
              | None => ret None
              | Some [] => ret (Some buff)
              | Some h => evbuffer_add buff h
              end) (fun buff =>
    evbuffer_add buff crlf))).

Definition httpc_write_cb (c : nat) : M unit :=
  redsocks_touch_client c ;;
  let! x := get_client c in
  if c_state x =? httpc_new then
    let! _ := redsocks_write_helper_ex c (Some httpc_mkconnect) httpc_request_sent 1
                HTTP_HEAD_WM_HIGH in ret tt
  else if httpc_request_sent <=? c_state x then
    let! _ := bufferevent_disable c Srelay EV_WRITE in ret tt
  else ret tt.

End HttpConnect.
End HttpConnect.
