(* ===== verification/HttpRelay.v ===== *)
(** * The HTTP relay upstream: [redsocks/http-relay.c]

    The request headers of the client are collected, the request line is
    rewritten to an absolute URI, and the connection to the proxy is opened. A
    [httpr_buffer] is the byte string it holds; growing it allocates. *)

From S2P Require Import Prelude CLib HttpAuth RedWorld RedCore RedRelay HttpConnect.
Import HttpAuth HttpConnect.

Open Scope Z_scope.
Open Scope red_scope.

Module HttpRelay.

(** [enum httpr_state_t] *)
Definition httpr_new : Z := 0.
Definition httpr_recv_request_headers : Z := 1.
Definition httpr_request_sent : Z := 2.
Definition httpr_reply_came : Z := 3.
Definition httpr_headers_skipped : Z := 4.

(** [strchr(p, ch)]: the suffix that starts at [ch]. *)
Fixpoint strchr (p : list Z) (ch : Z) : option (list Z) :=
  match p with
  | [] => None
  | c :: q => if c =? ch then Some p else strchr q ch
  end.

(** The text before the first [ch]. *)
Definition before (p : list Z) (ch : Z) : list Z := (span (fun c => negb (c =? ch)) p).1.

(** [fmt_http_host] *)
Definition fmt_http_host (addr : sockaddr_in) : list Z :=
  if sin_port addr =? 80 then inet_ntoa (sin_addr addr)
  else inet_ntoa (sin_addr addr) ++ [58] ++ format_u (sin_port addr).

(** The URI of the digest: the path of an absolute request URI, [None] for
    "malformed request came". *)
Definition digest_uri (line : list Z) : option (list Z) :=
  match strchr line 47 with
  | None => None
  | Some ptr =>
      if negb (peek (tail ptr) =? 47) then None
      else match strchr (tail (tail ptr)) 47 with
           | None => None
           | Some ptr =>
               match strchr ptr 32 with
               | None => None
               | Some _ => Some (before ptr 32)
               end
           end
  end.

Section HttpRelay.
Context `{BC : BaseConfig}.

(** ** The payload *)

Definition get_httpr (c : nat) : M httpr_client :=
  let! x := get_client c in
  match payload x with httpr_payload h => ret h | _ => raise NullDeref end.

Definition upd_httpr (c : nat) (g : httpr_client -> httpr_client) : M unit :=
  upd_client c (with_payload (fun p =>
    match p with httpr_payload h => httpr_payload (g h) | p => p end)).

(** [httpr_buffer_init]: a buffer whose allocation failed is as good as an empty
    one, since [httpr_buffer_append] allocates again. *)
Definition httpr_buffer_init : M Z :=
  let! r := sys in ret (if r =? 0 then 0 else -1).

(** [httpr_buffer_append] on one of the two buffers of the payload. *)
Definition httpr_buffer_append (c : nat) (get : httpr_client -> option (list Z))
    (upd : (option (list Z) -> option (list Z)) -> httpr_client -> httpr_client)
    (data : list Z) : M Z :=
  let! h := get_httpr c in
  match get h with
  | None => raise NullDeref
  | Some buff =>
      let! r := sys in
      if negb (r =? 0) then ret (-1)
      else upd_httpr c (upd (fun _ => Some (buff ++ data))) ;; ret 0
  end.

Definition append_relay (c : nat) (data : list Z) : M Z :=
  httpr_buffer_append c relay_buffer with_relay_buffer data.

Definition append_client (c : nat) (data : list Z) : M Z :=
  httpr_buffer_append c client_buffer with_client_buffer data.

Definition httpr_client_init (c : nat) : M unit :=
  upd_client c (fun x =>
    with_payload (fun _ => httpr_payload (Httpr None None 0 (Some []) (Some [])))
      (with_c_state (fun _ => httpr_new) x)) ;;
  let! _ := httpr_buffer_init in
  let! _ := httpr_buffer_init in
  ret tt.

Definition httpr_instance_fini (i : nat) : M unit :=
  upd_inst i (with_last_auth_query (fun _ => None)).

(** ** The reply of the proxy *)

(** The branch for the code 407; [None] when the function returned, else whether
    the client was dropped. The first line was freed before the header is looked
    for, and is freed again when there is none. *)
Definition httpr_auth_failed (c : nat) : M (option bool) :=
  let! x := get_client c in
  let! i := get_inst (c_instance x) in
  if bool_decide (is_Some (last_auth_query i)) && (last_auth_count i =? 1) then
    redsocks_drop_client c ;; ret (Some true)
  else if negb (bool_decide (is_Some (login (config i))))
          || negb (bool_decide (is_Some (password (config i)))) then
    redsocks_drop_client c ;; ret (Some true)
  else
    let! r := http_auth_request_header c None in
    match r.1 with
    | None => redsocks_drop_client c ;; raise DoubleFree
    | Some auth_request =>
        let ptr := skip_spaces (drop (length auth_request_header) auth_request) in
        upd_inst (c_instance x) (fun i =>
          with_last_auth_count (fun _ => 0) (with_last_auth_query (fun _ => Some ptr) i)) ;;
        upd_httpr c (with_relay_buffer (fun _ => None)) ;;
        let! error := bufferevent_disable c Srelay EV_WRITE in
        if negb (error =? 0) then ret None
        else
          redsocks_bufferevent_free c Srelay ;;
          set_state c httpr_recv_request_headers ;;
          redsocks_connect_relay c ;;
          ret None
    end.

(** The [if (client->state == httpr_request_sent)] block, with the same result. *)
Definition httpr_first_line (c : nat) : M (option bool) :=
  let! b := get_bev c Srelay in
  let len := Z.of_nat (length (be_input b)) in
  let! line := redsocks_evbuffer_readline c Srelay in
  match line with
  | Some line =>
      let! _ := append_relay c line in
      let! _ := append_relay c crlf in
      match scan_status line with
      | Some code =>
          if code =? 407 then httpr_auth_failed c
          else if (100 <=? code) && (code <=? 999) then
            set_state c httpr_reply_came ;; ret (Some false)
          else redsocks_drop_client c ;; ret (Some true)
      | None => redsocks_drop_client c ;; ret (Some true)
      end
  | None =>
      if HTTP_HEAD_WM_HIGH <=? len then redsocks_drop_client c ;; ret (Some true)
      else ret (Some false)
  end.

(** [while (client->state == httpr_reply_came)] *)
Fixpoint httpr_headers (fuel : nat) (c : nat) : M unit :=
  match fuel with
  | O => ret tt
  | S fuel =>
      let! x := get_client c in
      if c_state x =? httpr_reply_came then
        let! line := redsocks_evbuffer_readline c Srelay in
        match line with
        | Some line =>
            let! _ := append_relay c line in
            let! _ := append_relay c crlf in
            when (Z.of_nat (length line) =? 0) (set_state c httpr_headers_skipped) ;;
            httpr_headers fuel c
        | None => ret tt
        end
      else ret tt
  end.

Definition httpr_relay_read_cb (c : nat) : M unit :=
  let! x := get_client c in
  assert_ 140 (httpr_request_sent <=? c_state x) ;;
  redsocks_touch_client c ;;
  let! _ := httpr_buffer_init in
  upd_httpr c (with_relay_buffer (fun _ => Some [])) ;;
  let! r := (if c_state x =? httpr_request_sent then httpr_first_line c else ret (Some false)) in
  match r with
  | None | Some true => ret tt
  | Some false =>
      let! b := get_bev c Srelay in
      httpr_headers (S (length (be_input b))) c ;;
      let! x := get_client c in
      when (c_state x =? httpr_headers_skipped)
        (let! h := get_httpr c in
         let! r := bufferevent_write c Sclient (default [] (relay_buffer h)) in
         if negb (r =? 0) then redsocks_drop_client c else redsocks_start_relay c)
  end.

(** ** The request to the proxy *)

(** The authentication scheme and string; [inr tt] when the client was dropped
    for a malformed request. *)
Definition httpr_auth (c : nat) (i : redsocks_instance) (first : option (list Z))
  : M (option (list Z * list Z) + unit) :=
  match last_auth_query i with
  | None => ret (inl None)
  | Some query =>
      if strncasecmp query (B# "Basic") 5 =? 0 then
        match login (config i), password (config i) with
        | Some l, Some p =>
            ret (inl (match basic_authentication_encode l p with
                      | Some s => Some (B# "Basic", s)
                      | None => None
                      end))
        | _, _ => raise NullDeref
        end
      else
        match first with
        | None => ret (inl None)
        | Some line =>
            if strncasecmp query (B# "Digest") 6 =? 0 then
              match strchr line 32 with
              | None => raise NullDeref
              | Some _ =>
                  match digest_uri line with
                  | None => redsocks_drop_client c ;; ret (inr tt)
                  | Some uri =>
                      let! r1 := sys in
                      let! r2 := sys in
                      let cnounce := hex_digits 8 (u32 r1) ++ hex_digits 8 (u32 r2) in
                      if (length query <? 7)%nat then raise OutOfBounds
                      else
                        ret (inl (match digest_authentication_encode stack_ctx (drop 7 query)
                                          (login (config i)) (password (config i))
                                          (before line 32) uri (last_auth_count i) cnounce with
                                  | Some s => Some (B# "Digest", s)
                                  | None => None
                                  end))
                  end
              end
            else ret (inl None)
        end
  end.

(** [len |= bufferevent_write(...)] over several strings: 0 when all succeed. *)
Definition write_all (c : nat) (l : list (list Z)) : M Z :=
  fold_m (fun len data => let! r := bufferevent_write c Srelay data in ret (Z.lor len r)) l 0.

Definition httpr_relay_write_cb (c : nat) : M unit :=
  let! x := get_client c in
  assert_ 262 (httpr_recv_request_headers <=? c_state x) ;;
  redsocks_touch_client c ;;
  if c_state x =? httpr_recv_request_headers then
    let! h := get_httpr c in
    let! len := (match firstline h with
                 | Some l => bufferevent_write c Srelay l
                 | None => ret 0
                 end) in
    if len <? 0 then redsocks_drop_client c
    else
      upd_inst (c_instance x) (with_last_auth_count (fun n => s32 (n + 1))) ;;
      let! i := get_inst (c_instance x) in
      let! auth := httpr_auth c i (firstline h) in
      match auth with
      | inr _ => ret tt
      | inl auth =>
          let! len := (match auth with
                       | Some a => write_all c [auth_response_header; [32]; a.1; [32]; a.2; crlf]
                       | None => ret 0
                       end) in
          if negb (len =? 0) then redsocks_drop_client c
          else
            let! h := get_httpr c in
            let! len := bufferevent_write c Srelay (default [] (client_buffer h)) in
            if len <? 0 then redsocks_drop_client c
            else
              set_state c httpr_request_sent ;;
              setwatermark_read c Srelay 1 HTTP_HEAD_WM_HIGH ;;
              let! _ := bufferevent_enable c Srelay EV_READ in
              ret tt
      end
  else ret tt.

(** ** The request of the client *)

Definition httpr_append_header (c : nat) (line : list Z) : M Z :=
  let! r := append_client c line in
  if negb (r =? 0) then ret (-1)
  else let! r := append_client c crlf in ret (if negb (r =? 0) then -1 else 0).

(** The rewritten request line of [httpr_toss_http_firstline]. *)
Definition toss (first host : list Z) : option (list Z) :=
  match strchr first 32 with
  | None => None
  | Some p => Some (before first 32 ++ [32] ++ (B# "http://") ++ host ++ tail p ++ crlf)
  end.

(** Its five appends can each run out of memory. *)
Definition httpr_toss_http_firstline (c : nat) : M Z :=
  let! x := get_client c in
  let! h := get_httpr c in
  let! host := (if negb (has_host h =? 0)
                then match host h with Some s => ret s | None => raise NullDeref end
                else ret (fmt_http_host (destaddr x))) in
  match firstline h with
  | None => raise (AssertFailed 392)
  | Some first =>
      match toss first host with
      | None => ret (-1)
      | Some new =>
          let! r := fold_m (fun acc _ => if negb (acc =? 0) then ret acc else sys)
                      [tt; tt; tt; tt; tt; tt] 0 in
          if negb (r =? 0) then ret (-1)
          else upd_httpr c (with_firstline (fun _ => Some new)) ;; ret 0
      end
  end.

Definition post_buffer_len : nat := 64 * 1024.

(** [httpr_client_read_content]: [fuel] bounds the number of chunks. *)
Fixpoint read_content_loop (fuel : nat) (c : nat) : M unit :=
  match fuel with
  | O => ret tt
  | S fuel =>
      let! b := get_bev c Sclient in
      let! r := sys in (* evbuffer_remove *)
      if r <? 0 then redsocks_drop_client c
      else
        let chunk := take post_buffer_len (be_input b) in
        upd_bev c Sclient (with_be_input (drop post_buffer_len)) ;;
        match chunk with
        | [] => ret tt
        | _ =>
            let! _ := append_client c chunk in
            let! x := get_client c in
            if bool_decide (is_Some (c_relay x)) && (httpr_request_sent <=? c_state x) then
              let! r := bufferevent_write c Srelay chunk in
              if negb (r =? 0) then redsocks_drop_client c else read_content_loop fuel c
            else read_content_loop fuel c
        end
  end.

Definition httpr_client_read_content (c : nat) : M unit :=
  let! r := sys in (* calloc *)
  if negb (r =? 0) then redsocks_drop_client c
  else
    let! b := get_bev c Sclient in
    read_content_loop (S (length (be_input b))) c.

(** One header line; whether the request is complete, and whether it failed. *)
Definition request_line_step (c : nat) (line : list Z) : M (bool * bool) :=
  let! h := get_httpr c in
  if negb (Z.of_nat (length line) =? 0) then
    match firstline h with
    | None => upd_httpr c (with_firstline (fun _ => Some line)) ;; ret (false, false)
    | Some _ =>
        if strncasecmp line (B# "Host") 4 =? 0 then
          if (length line <? 5)%nat then raise OutOfBounds (* line + 5 *)
          else
            upd_httpr c (fun h => with_host (fun _ => Some (skip_spaces (drop 5 line)))
                                    (with_has_host (fun _ => 1) h)) ;;
            let! r := httpr_append_header c line in ret (false, r <? 0)
        else if (strncasecmp line (B# "Proxy-Connection") 16 =? 0)
                || (strncasecmp line (B# "Connection") 10 =? 0) then ret (false, false)
        else let! r := httpr_append_header c line in ret (false, r <? 0)
    end
  else
    let! drop1 := (match firstline h with
                   | None => ret true
                   | Some _ => let! r := httpr_toss_http_firstline c in ret (r <? 0)
                   end) in
    let! h := get_httpr c in
    let! drop2 :=
      (if has_host h =? 0 then
         let! x := get_client c in
         let hdr := (B# "Host: ") ++ fmt_http_host (destaddr x) in
         assert_ 515 ((0 <? Z.of_nat (length hdr)) && (Z.of_nat (length hdr) <? 32)) ;;
         let! r := httpr_append_header c hdr in ret (r <? 0)
       else ret false) in
    let! r3 := httpr_append_header c (B# "Proxy-Connection: close") in
    let! r4 := httpr_append_header c (B# "Connection: close") in
    let! r5 := httpr_append_header c line in
    ret (true, drop1 || drop2 || (r3 <? 0) || (r4 <? 0) || (r5 <? 0)).

(** The loop over the lines: [Some connect_relay], or [None] once dropped. *)
Fixpoint request_loop (fuel : nat) (c : nat) : M (option bool) :=
  match fuel with
  | O => ret (Some false)
  | S fuel =>
      let! line := redsocks_evbuffer_readline c Sclient in
      match line with
      | None => ret (Some false)
      | Some line =>
          let! r := request_line_step c line in
          if r.2 then redsocks_drop_client c ;; ret None
          else if r.1 then ret (Some true)
          else request_loop fuel c
      end
  end.

Definition httpr_client_read_cb (c : nat) : M unit :=
  redsocks_touch_client c ;;
  let! x := get_client c in
  if httpr_recv_request_headers <=? c_state x then httpr_client_read_content c
  else
    let! b := get_bev c Sclient in
    let! r := request_loop (S (length (be_input b))) c in
    match r with
    | Some true =>
        set_state c httpr_recv_request_headers ;;
        httpr_client_read_content c ;;
        redsocks_connect_relay c
    | _ => ret tt
    end.

Definition httpr_connect_relay (c : nat) : M unit :=
  upd_bev c Sclient (with_readcb (fun _ => cb_httpr_client_read)) ;;
  let! error := bufferevent_enable c Sclient EV_READ in
  if negb (error =? 0) then redsocks_drop_client c else ret tt.

End HttpRelay.
End HttpRelay.
