(* ===== verification/RedLogic.v ===== *)
(** * A program logic for the redsocks handlers

    [wp E m Q w]: run in world [w], the handler [m] either returns in a world
    that satisfies [Q], or stops with a fault that [E] admits. On top of it, the
    frame discipline of the handlers: a handler of client [c] leaves the other
    clients and the accounting alone, and either keeps [c] or drops it. *)

From S2P Require Import Prelude RedWorld RedCore.

Open Scope Z_scope.
Open Scope red_scope.

(** ** Weakest preconditions *)

Definition wp {A} (E : fault -> Prop) (m : M A) (Q : A -> world -> Prop) (w : world) : Prop :=
  match m w with Ret a w' => Q a w' | Fault f _ => E f end.

(** No fault at all, and any fault. *)
Definition safe (f : fault) : Prop := False.
Definition any (f : fault) : Prop := True.

Section Wp.
Context (E : fault -> Prop).

Lemma wp_ret {A} (a : A) Q w : Q a w -> wp E (ret a) Q w.
Proof. done. Qed.

Lemma wp_bind {A B} (m : M A) (k : A -> M B) Q w :
  wp E m (fun a => wp E (k a) Q) w -> wp E (bind m k) Q w.
Proof. unfold wp, bind. now destruct (m w). Qed.

Lemma wp_mono {A} (m : M A) Q Q' w :
  wp E m Q w -> (forall a w', Q a w' -> Q' a w') -> wp E m Q' w.
Proof. unfold wp. destruct (m w); auto. Qed.

Lemma wp_raise {A} f Q w : E f -> wp E (raise (A := A) f) Q w.
Proof. done. Qed.

Lemma wp_gets {A} (g : world -> A) Q w : Q (g w) w -> wp E (gets g) Q w.
Proof. done. Qed.

Lemma wp_fold_m {A B} (f : B -> A -> M B) (I : list A -> B -> world -> Prop) l : forall b w,
  I l b w ->
  (forall x l b w, I (x :: l) b w -> wp E (f b x) (I l) w) ->
  wp E (fold_m f l b) (I []) w.
Proof.
  induction l as [|x l IH]; intros b w H0 Hs; [done|].
  cbn [fold_m]. apply wp_bind. eapply wp_mono; [exact (Hs _ _ _ _ H0)|]. auto.
Qed.

Lemma wp_for_each {A} (f : A -> M unit) (I : list A -> world -> Prop) l : forall w,
  I l w ->
  (forall x l w, I (x :: l) w -> wp E (f x) (fun _ => I l) w) ->
  wp E (for_each l f) (fun _ => I []) w.
Proof.
  induction l as [|x l IH]; intros w H0 Hs; [done|].
  cbn [for_each]. apply wp_bind. eapply wp_mono; [exact (Hs _ _ _ H0)|]. auto.
Qed.

End Wp.

Section WpWorld.
Context (E : fault -> Prop).

Lemma wp_modify g (Q : unit -> world -> Prop) w : Q tt (g w) -> wp E (modify g) Q w.
Proof. done. Qed.

Lemma wp_when b m (Q : unit -> world -> Prop) w :
  (b = true -> wp E m Q w) -> (b = false -> Q tt w) -> wp E (when b m) Q w.
Proof. destruct b; cbn; auto. Qed.

Lemma wp_assert line b (Q : unit -> world -> Prop) w :
  (b = true -> Q tt w) -> (b = false -> E (AssertFailed line)) -> wp E (assert_ line b) Q w.
Proof. destruct b; cbn; auto. Qed.

Lemma with_w_script_id w : with_w_script (fun _ => w_script w) w = w.
Proof. now destruct w. Qed.

Lemma with_w_evscript_id w : with_w_evscript (fun _ => w_evscript w) w = w.
Proof. now destruct w. Qed.

Lemma wp_sys (Q : Z -> world -> Prop) w :
  (forall r s, Q r (with_w_script (fun _ => s) w)) -> wp E sys Q w.
Proof.
  intros H. unfold wp, sys. destruct (w_script w) as [|r s] eqn:E0; [|apply H].
  specialize (H 0 (w_script w)). now rewrite with_w_script_id in H.
Qed.

Lemma wp_sys_nil (Q : Z -> world -> Prop) w : w_script w = [] -> Q 0 w -> wp E sys Q w.
Proof. intros H HQ. unfold wp, sys. now rewrite H. Qed.

Lemma wp_sys_ev (Q : Z -> world -> Prop) w :
  (forall r s, (w_evscript w = [] -> r = 0 /\ s = []) ->
     Q r (with_w_evscript (fun _ => s) w)) -> wp E sys_ev Q w.
Proof.
  intros H. unfold wp, sys_ev. destruct (w_evscript w) as [|r s] eqn:E0; [|now apply H].
  specialize (H 0 (w_evscript w)). rewrite with_w_evscript_id in H. now apply H.
Qed.

Lemma wp_sys_ev_nil (Q : Z -> world -> Prop) w : w_evscript w = [] -> Q 0 w -> wp E sys_ev Q w.
Proof. intros H HQ. unfold wp, sys_ev. now rewrite H. Qed.

Lemma wp_get_client c (Q : redsocks_client -> world -> Prop) w :
  (forall x, w_clients w !! c = Some x -> Q x w) ->
  (w_clients w !! c = None -> E (UseAfterFree c)) ->
  wp E (get_client c) Q w.
Proof. unfold wp, get_client. destruct (w_clients w !! c); auto. Qed.

Lemma wp_get_client_some c x (Q : redsocks_client -> world -> Prop) w :
  w_clients w !! c = Some x -> Q x w -> wp E (get_client c) Q w.
Proof. unfold wp, get_client. now intros ->. Qed.

Lemma wp_upd_client_some c x g (Q : unit -> world -> Prop) w :
  w_clients w !! c = Some x -> Q tt (with_w_clients (fun m => <[c := g x]> m) w) ->
  wp E (upd_client c g) Q w.
Proof. intros. apply wp_bind. eapply wp_get_client_some; eauto. Qed.

Lemma wp_get_inst i (Q : redsocks_instance -> world -> Prop) w :
  Q (default inst_default (w_inst w !! i)) w -> wp E (get_inst i) Q w.
Proof. done. Qed.

Lemma wp_get_bev_some c s x b (Q : bufferevent -> world -> Prop) w :
  w_clients w !! c = Some x -> bev_of s x = Some b -> Q b w -> wp E (get_bev c s) Q w.
Proof.
  intros H1 H2 H3. apply wp_bind. eapply wp_get_client_some; [done|]. now rewrite H2.
Qed.

Lemma wp_upd_bev_some c s x b g (Q : unit -> world -> Prop) w :
  w_clients w !! c = Some x -> bev_of s x = Some b ->
  Q tt (with_w_clients (fun m => <[c := with_bev s (fun _ => Some (g b)) x]> m) w) ->
  wp E (upd_bev c s g) Q w.
Proof.
  intros H1 H2 H3. apply wp_bind. eapply wp_get_bev_some; [done..|].
  eapply wp_upd_client_some; [exact H1|exact H3].
Qed.

End WpWorld.

(** ** Frames *)

(** Forgets what handlers of a client may change in an instance: whether its
    listener is armed and what the HTTP authentication remembers. *)
Definition erase_inst (x : redsocks_instance) : redsocks_instance :=
  with_listener (fun _ => event_blank)
    (with_last_auth_count (fun _ => 0) (with_last_auth_query (fun _ => None) x)).

(** What the accounting reads of a client. *)
Definition link_of (x : redsocks_client) : bool * nat := (c_linked x, c_instance x).

(** The clock never reports a negative number of microseconds. *)
Definition time_ok (x : redsocks_client) : Prop := 0 <= tv_usec (last_event x).

Section Frame.
Context `{BC : BaseConfig}.

(** No listener is armed or about to run. *)
Definition listeners_off (w : world) : Prop :=
  forall i x, i ∈ instances w -> w_inst w !! i = Some x ->
    ev_added (listener x) = false /\ ev_active (listener x) = false.

(** Connections are accepted only below the limit. *)
Definition listen_ok (w : world) : Prop :=
  redsocks_conn w < redsocks_conn_max \/ listeners_off w.

(** The accounting of [w'] is that of [w], and [fds] were closed in between. *)
Record acct (fds : list Z) (w w' : world) : Prop := Acct {
  a_instances : instances w' = instances w;
  a_inst : erase_inst <$> w_inst w' = erase_inst <$> w_inst w;
  a_next : w_next w' = w_next w;
  a_conn : redsocks_conn w' = redsocks_conn w;
  a_closed : w_closed w' = fds ++ w_closed w;
  a_ev : w_evscript w = [] -> w_evscript w' = [];
  a_listen : w_evscript w = [] -> listen_ok w -> listen_ok w';
}.

(** The clients are untouched as well. *)
Record quiet (fds : list Z) (w w' : world) : Prop := Quiet {
  q_acct : acct fds w w';
  q_clients : w_clients w' = w_clients w;
}.

(** Only client [c] may have changed, and it is still linked the same way. *)
Record frame (c : nat) (fds : list Z) (w w' : world) : Prop := Frame {
  f_acct : acct fds w w';
  f_others : delete c (w_clients w') = delete c (w_clients w);
  f_self : link_of <$> w_clients w' !! c = link_of <$> w_clients w !! c;
  f_time : (forall x, w_clients w !! c = Some x -> time_ok x) ->
           (forall x, w_clients w' !! c = Some x -> time_ok x);
}.

Lemma acct_refl w : acct [] w w.
Proof. now constructor. Qed.

Lemma acct_trans f1 f2 w w1 w2 : acct f1 w w1 -> acct f2 w1 w2 -> acct (f2 ++ f1) w w2.
Proof.
  intros H1 H2.
  destruct H1 as [i1 j1 n1 k1 c1 e1 l1], H2 as [i2 j2 n2 k2 c2 e2 l2].
  constructor; try congruence; [|auto..]. now rewrite c2, c1, app_assoc.
Qed.

Lemma quiet_refl w : quiet [] w w.
Proof. split; [apply acct_refl|done]. Qed.

Lemma quiet_trans f1 f2 w w1 w2 : quiet f1 w w1 -> quiet f2 w1 w2 -> quiet (f2 ++ f1) w w2.
Proof. intros [] []. split; [eapply acct_trans; eauto|congruence]. Qed.

Lemma quiet_frame c fds w w' : quiet fds w w' -> frame c fds w w'.
Proof. intros [H1 H2]. split; rewrite ?H2; auto. Qed.

Lemma frame_refl c w : frame c [] w w.
Proof. apply quiet_frame, quiet_refl. Qed.

Lemma frame_trans c f1 f2 w w1 w2 :
  frame c f1 w w1 -> frame c f2 w1 w2 -> frame c (f2 ++ f1) w w2.
Proof. intros [] []. split; [eapply acct_trans; eauto|congruence..|auto]. Qed.

Lemma quiet_trans_0 fds w w1 w2 : quiet [] w w1 -> quiet fds w1 w2 -> quiet fds w w2.
Proof. intros H1 H2. rewrite <- (app_nil_r fds). eapply quiet_trans; eauto. Qed.

Lemma quiet_script s w : quiet [] w (with_w_script (fun _ => s) w).
Proof. now split. Qed.

Lemma quiet_evscript s w :
  (w_evscript w = [] -> s = []) -> quiet [] w (with_w_evscript (fun _ => s) w).
Proof. intros H. split; [|done]. now constructor. Qed.

Lemma frame_update c g w x :
  w_clients w !! c = Some x -> link_of (g x) = link_of x -> (time_ok x -> time_ok (g x)) ->
  frame c [] w (with_w_clients (fun m => <[c := g x]> m) w).
Proof.
  intros Hx Hg Ht. split; [now constructor| | |]; cbn; rewrite ?lookup_insert_eq.
  - apply delete_insert_eq.
  - now rewrite Hx; cbn; rewrite Hg.
  - intros H y [= <-]. auto.
Qed.

Lemma frame_alive c fds w w' :
  frame c fds w w' -> is_Some (w_clients w !! c) -> is_Some (w_clients w' !! c).
Proof.
  intros [_ _ H] [x Hx]. rewrite Hx in H. destruct (w_clients w' !! c); [eauto|done].
Qed.

Lemma erase_alter (g : redsocks_instance -> redsocks_instance) (i : nat)
    (m : gmap nat redsocks_instance) :
  (forall x, erase_inst (g x) = erase_inst x) -> erase_inst <$> alter g i m = erase_inst <$> m.
Proof.
  intros H. apply map_eq. intros j. rewrite !lookup_fmap, lookup_alter.
  case_decide; [subst|done]. destruct (m !! j); cbn; [now rewrite H|done].
Qed.

(** *** The effects that leave the clients alone *)

Lemma wp_sys_quiet E (Q : Z -> world -> Prop) w :
  (forall r w', quiet [] w w' -> Q r w') -> wp E sys Q w.
Proof. intros H. apply wp_sys. intros r s. apply H, quiet_script. Qed.

Lemma wp_sys_ev_quiet E (Q : Z -> world -> Prop) w :
  (forall r w', quiet [] w w' -> Q r w') -> wp E sys_ev Q w.
Proof. intros H. apply wp_sys_ev. intros r s Hs. apply H, quiet_evscript. naive_solver. Qed.

Lemma accept_enable_quiet E (Q : unit -> world -> Prop) w :
  redsocks_conn w < redsocks_conn_max ->
  (forall w', quiet [] w w' -> Q tt w') -> wp E accept_enable Q w.
Proof.
  intros Hc HQ. apply wp_bind, wp_gets.
  eapply wp_mono; [apply (wp_for_each E _ (fun _ w' => quiet [] w w'))|];
    [apply quiet_refl| |intros []; auto].
  intros i _ w1 H1. apply wp_bind, wp_sys_ev_quiet. intros r w2 H2.
  apply wp_modify. eapply quiet_trans_0; [exact H1|]. eapply quiet_trans_0; [exact H2|].
  split; [|done]. constructor; try done; cbn.
  - now apply erase_alter.
  - intros He _. left. cbn.
    now rewrite (a_conn _ _ _ (q_acct _ _ _ H2)), (a_conn _ _ _ (q_acct _ _ _ H1)).
Qed.

Lemma conn_pressure_lowered_quiet E (Q : unit -> world -> Prop) w :
  (forall w', quiet [] w w' -> Q tt w') -> wp E conn_pressure_lowered Q w.
Proof.
  intros HQ. apply wp_bind, wp_gets.
  destruct (Z.leb_spec redsocks_conn_max (redsocks_conn w)); [apply HQ, quiet_refl|].
  apply wp_bind, wp_gets. destruct (accept_backoff_ev w); [|apply HQ, quiet_refl].
  apply wp_bind, wp_sys_ev_quiet. intros r w1 H1. apply wp_bind.
  assert (forall w2, quiet [] w w2 -> wp E accept_enable Q w2) as Hen.
  { intros w2 H2. apply accept_enable_quiet.
    - now rewrite (a_conn _ _ _ (q_acct _ _ _ H2)).
    - intros w3 H3. apply HQ. eapply quiet_trans_0; eauto. }
  apply wp_when; intros _; [|now apply Hen].
  apply wp_modify, Hen. eapply quiet_trans_0; [exact H1|]. split; [|done]. now constructor.
Qed.

Lemma redsocks_close_quiet E fd (Q : unit -> world -> Prop) w :
  (forall w', quiet [fd] w w' -> Q tt w') -> wp E (redsocks_close fd) Q w.
Proof.
  intros HQ. apply wp_bind, wp_sys_quiet. intros r w1 H1. apply wp_bind, wp_modify.
  assert (quiet [fd] w (with_w_closed (fun l => fd :: l) w1)) as H2.
  { eapply quiet_trans_0; [exact H1|]. split; [|done]. now constructor. }
  apply wp_when; intros _; [|auto].
  apply conn_pressure_lowered_quiet. intros w3 H3. apply HQ.
  exact (quiet_trans _ _ _ _ _ H2 H3).
Qed.

End Frame.
