(* ===== verification/RedFrame.v ===== *)
(** * What the handlers of a client do to the world

    The exact effect of [redsocks_drop_client], and the judgement [does]: a
    handler of client [c] keeps [c] and leaves everything else as it is, or drops
    it. Every handler of the connection core satisfies it. *)

From S2P Require Import Prelude RedWorld RedCore RedLogic.

Open Scope Z_scope.
Open Scope red_scope.

(** ** The descriptors of a client *)

Definition some_fd (fd : Z) : list Z := if fd =? -1 then [] else [fd].

Definition bev_fds (b : option bufferevent) : list Z :=
  match b with Some b => some_fd (be_fd b) | None => [] end.

Definition event_fds (e : event) : list Z := if ev_init e then some_fd (ev_fd e) else [].

(** The descriptors of the splice pump, the last closed first. *)
Definition pump_fds (p : pump_t) : list Z :=
  event_fds (relay_read p) ++ event_fds (client_read p) ++
  some_fd (p_write (reply p)) ++ some_fd (p_read (reply p)) ++
  some_fd (p_write (request p)) ++ some_fd (p_read (request p)).

Definition client_fds (splice : bool) (x : redsocks_client) : list Z :=
  (if splice then pump_fds (pump x) else []) ++ bev_fds (c_relay x) ++ bev_fds (c_client x).

Section Frame.
Context `{BC : BaseConfig}.

(** ** Dropping *)

(** Client [c], linked as [lk] says, is gone and [fds] are closed. *)
Record dropped (c : nat) (lk : bool * nat) (fds : list Z) (w w' : world) : Prop := Dropped {
  d_link : link_of <$> w_clients w !! c = Some lk;
  d_clients : w_clients w' = delete c (w_clients w);
  d_conn : redsocks_conn w' =
    if lk.1 then u32 (redsocks_conn w - 1) else redsocks_conn w;
  d_inst : erase_inst <$> w_inst w' =
    if lk.1 then alter (with_i_clients (filter (fun k => k <> c))) lk.2 (erase_inst <$> w_inst w)
    else erase_inst <$> w_inst w;
  d_instances : instances w' = instances w;
  d_next : w_next w' = w_next w;
  d_closed : w_closed w' = fds ++ w_closed w;
  d_ev : w_evscript w = [] -> w_evscript w' = [];
  d_listen : w_evscript w = [] -> listen_ok w ->
    (lk.1 = true -> 0 < redsocks_conn w < 2 ^ 32) -> listen_ok w';
}.

Lemma frame_dropped c lk f1 f2 w w1 w2 :
  frame c f1 w w1 -> dropped c lk f2 w1 w2 -> dropped c lk (f2 ++ f1) w w2.
Proof.
  intros [[i1 j1 n1 k1 c1 e1 l1] o1 s1 t1] [H1 H2 H3 H4 H5 H6 H7 H8 H9].
  rewrite k1, ?j1, ?o1, ?s1 in *. constructor; try congruence; [|auto..].
  now rewrite H7, c1, app_assoc.
Qed.

Lemma dropped_quiet c lk f1 f2 w w1 w2 :
  dropped c lk f1 w w1 -> quiet f2 w1 w2 -> dropped c lk (f2 ++ f1) w w2.
Proof.
  intros [H1 H2 H3 H4 H5 H6 H7 H8 H9] [[i1 j1 n1 k1 c1 e1 l1] q1].
  rewrite <- k1, <- j1 in *. constructor; try congruence; [|auto..].
  now rewrite c1, H7, app_assoc.
Qed.

Lemma wp_close_when E (b : bool) fd (Q : unit -> world -> Prop) w :
  (forall w', quiet (if b then [fd] else []) w w' -> Q tt w') ->
  wp E (when b (redsocks_close fd)) Q w.
Proof.
  intros HQ. apply wp_when; intros ->; [now apply redsocks_close_quiet|apply HQ, quiet_refl].
Qed.

Lemma wp_update_frame E c g (Q : unit -> world -> Prop) w :
  is_Some (w_clients w !! c) -> (forall x, link_of (g x) = link_of x) ->
  (forall x, time_ok x -> time_ok (g x)) ->
  (forall w', frame c [] w w' -> Q tt w') -> wp E (upd_client c g) Q w.
Proof.
  intros [x Hx] Hg Ht HQ. eapply wp_upd_client_some; [exact Hx|].
  apply HQ. apply frame_update; auto.
Qed.

Lemma pump_del_frame E c upd (Q : unit -> world -> Prop) w :
  is_Some (w_clients w !! c) ->
  (forall w', frame c [] w w' -> Q tt w') -> wp E (pump_del c upd) Q w.
Proof.
  intros Hc HQ. apply wp_bind, wp_sys_ev_quiet. intros r w1 H1.
  apply (quiet_frame c) in H1.
  apply wp_update_frame; [eapply frame_alive; eauto|done..|].
  intros w2 H2. apply HQ. exact (frame_trans _ _ _ _ _ _ H1 H2).
Qed.

Lemma some_fd_when fd : (if negb (fd =? -1) then [fd] else []) = some_fd fd.
Proof. unfold some_fd. now destruct (fd =? -1). Qed.

Lemma close_when_frame E c (b : bool) fd w w1 f1 (Q : unit -> world -> Prop) :
  frame c f1 w w1 ->
  (forall w2, frame c ((if b then [fd] else []) ++ f1) w w2 -> Q tt w2) ->
  wp E (when b (redsocks_close fd)) Q w1.
Proof.
  intros H1 HQ. apply wp_close_when. intros w2 H2. apply HQ.
  eapply frame_trans; [exact H1|now apply quiet_frame].
Qed.

Lemma pump_del_when_frame E c b upd w w1 f1 (Q : unit -> world -> Prop) :
  is_Some (w_clients w !! c) -> frame c f1 w w1 ->
  (forall w2, frame c f1 w w2 -> Q tt w2) ->
  wp E (when b (pump_del c upd)) Q w1.
Proof.
  intros Hc H1 HQ. apply wp_when; intros _; [|auto].
  apply pump_del_frame; [eapply frame_alive; eauto|]. intros w2 H2. apply HQ.
  exact (frame_trans _ _ [] _ _ _ H1 H2).
Qed.

Lemma drop_pump_frame E c x w (Q : unit -> world -> Prop) :
  w_clients w !! c = Some x ->
  (forall w', frame c (pump_fds (pump x)) w w' -> Q tt w') -> wp E (drop_pump c) Q w.
Proof.
  intros Hx HQ. apply wp_bind. eapply wp_get_client_some; [exact Hx|]. cbv zeta.
  set (p := pump x) in *. assert (is_Some (w_clients w !! c)) as Hc by eauto.
  pose proof (frame_refl c w) as H0.
  do 4 (apply wp_bind; eapply close_when_frame; [eassumption|clear H0; intros ? H0]).
  do 2 (apply wp_bind; eapply pump_del_when_frame; [exact Hc|eassumption|clear H0; intros ? H0]).
  apply wp_bind; eapply close_when_frame; [eassumption|clear H0; intros ? H0].
  do 2 (apply wp_bind; eapply pump_del_when_frame; [exact Hc|eassumption|clear H0; intros ? H0]).
  eapply close_when_frame; [eassumption|clear H0; intros ? H0]. apply HQ.
  rewrite !some_fd_when in H0. rewrite app_nil_r in H0. unfold pump_fds, event_fds.
  destruct (ev_init (relay_read p)), (ev_init (client_read p)); exact H0.
Qed.

(** The value of a client survives what leaves the clients alone. *)
Lemma quiet_lookup fds w w' c x :
  quiet fds w w' -> w_clients w !! c = Some x -> w_clients w' !! c = Some x.
Proof. intros [_ ->]. done. Qed.

Lemma bufferevent_free_frame E c s x b w (Q : unit -> world -> Prop) :
  w_clients w !! c = Some x -> bev_of s x = Some b ->
  (forall w', frame c (some_fd (be_fd b)) w w' ->
     w_clients w' !! c = Some (with_bev s (fun _ => None) x) -> Q tt w') ->
  wp E (redsocks_bufferevent_free c s) Q w.
Proof.
  intros Hx Hb HQ. apply wp_bind. eapply wp_get_bev_some; [done..|].
  apply wp_bind, wp_sys_quiet. intros r w1 H1.
  pose proof (quiet_lookup _ _ _ _ _ H1 Hx) as Hx1. apply (quiet_frame c) in H1.
  apply wp_bind. eapply wp_upd_client_some; [exact Hx1|].
  set (g := with_bev s (fun _ => None)).
  assert (frame c [] w1 (with_w_clients (fun m => <[c := g x]> m) w1)) as H2
    by (apply frame_update; [done|now destruct s..]).
  apply wp_close_when. intros w3 H3. rewrite some_fd_when in H3. apply HQ.
  - rewrite <- (app_nil_r (some_fd _)). eapply frame_trans; [|apply quiet_frame, H3].
    exact (frame_trans _ _ _ _ _ _ H1 H2).
  - eapply quiet_lookup; [exact H3|]. cbn. apply lookup_insert_eq.
Qed.

(** [run_fini] only touches the payload. *)
Lemma run_fini_frame E c x w (Q : unit -> world -> Prop) :
  w_clients w !! c = Some x ->
  (forall w' p, frame c [] w w' -> w_inst w' = w_inst w ->
     w_clients w' !! c = Some (with_payload (fun _ => p) x) -> Q tt w') ->
  wp E (run_fini c) Q w.
Proof.
  intros Hx HQ. apply wp_bind. eapply wp_get_client_some; [done|]. apply wp_bind, wp_get_inst.
  assert (Q tt w) as H0.
  { apply (HQ w (payload x)); [apply frame_refl|done|]. rewrite Hx. now destruct x. }
  destruct (ss_fini _) as [f|] eqn:Ef; [|done].
  assert (f = httpr_client_fini) as -> by (destruct (relay_ss _); naive_solver).
  eapply wp_upd_client_some; [done|]. eapply HQ; [now apply frame_update|done|].
  cbn. rewrite lookup_insert_eq. reflexivity.
Qed.

Lemma conn_list_del_dropped E c x w (Q : unit -> world -> Prop) :
  w_clients w !! c = Some x ->
  (forall w', dropped c (link_of x) [] w w' -> Q tt w') ->
  wp E (redsocks_conn_list_del c ;; modify (with_w_clients (delete c))) Q w.
Proof.
  intros Hx HQ. apply wp_bind, wp_bind. eapply wp_get_client_some; [exact Hx|].
  apply wp_bind, wp_when; intros Hl.
  - apply wp_bind, wp_modify, wp_bind, wp_modify.
    eapply wp_upd_client_some; [exact Hx|].
    apply conn_pressure_lowered_quiet. intros w1 H1. apply wp_modify, HQ.
    destruct H1 as [[i1 j1 n1 k1 c1 e1 l1] q1]. cbn in *. unfold link_of. rewrite Hl.
    constructor; cbn; try done.
    + rewrite Hx. cbn. unfold link_of. now rewrite Hl.
    + rewrite q1. apply delete_insert_eq.
    + rewrite j1. apply map_eq. intros j. rewrite lookup_fmap, !lookup_alter, !lookup_fmap.
      case_decide; [subst|done]. now destruct (w_inst w !! _).
    + intros He Ho Hc. apply l1; [done|]. specialize (Hc eq_refl).
      destruct Ho as [Ho|Ho]; [left; cbn; unfold u32; rewrite Z.mod_small by lia; lia|right].
      intros i y Hi Hy. cbn in *. rewrite lookup_alter in Hy. case_decide; [subst|eauto].
      destruct (w_inst w !! _) as [z|] eqn:Ez; [|done]. cbn in Hy. injection Hy as <-.
      exact (Ho _ z Hi Ez).
  - apply conn_pressure_lowered_quiet. intros w1 H1. apply wp_modify, HQ.
    destruct H1 as [[i1 j1 n1 k1 c1 e1 l1] q1]. cbn in *. unfold link_of. rewrite Hl.
    constructor; cbn; try done; [|now rewrite q1|].
    + rewrite Hx. cbn. unfold link_of. now rewrite Hl.
    + intros He Ho _. now apply l1.
Qed.

Lemma frame_link c fds w w' x x' :
  frame c fds w w' -> w_clients w !! c = Some x -> w_clients w' !! c = Some x' ->
  link_of x' = link_of x.
Proof. intros [_ _ H _] H1 H2. rewrite H1, H2 in H. cbn in H. congruence. Qed.

(** The configuration of an instance is not touched either. *)
Lemma acct_config fds w w' i :
  acct fds w w' ->
  config (default inst_default (w_inst w' !! i)) = config (default inst_default (w_inst w !! i)).
Proof.
  intros H. pose proof (f_equal (fun m => m !! i) (a_inst _ _ _ H)) as Hi.
  cbn in Hi. rewrite !lookup_fmap in Hi.
  destruct (w_inst w' !! _), (w_inst w !! _); cbn in Hi; try done.
  injection Hi as Hcfg _ _. exact Hcfg.
Qed.

Lemma free_when_frame E c s x w w1 f1 (Q : unit -> world -> Prop) :
  frame c f1 w w1 -> w_clients w1 !! c = Some x ->
  (forall w2, frame c (bev_fds (bev_of s x) ++ f1) w w2 ->
     w_clients w2 !! c = Some (with_bev s (fun _ => None) x) -> Q tt w2) ->
  wp E (when (bool_decide (is_Some (bev_of s x))) (redsocks_bufferevent_free c s)) Q w1.
Proof.
  intros F Hx HQ. apply wp_when; intros Hb.
  - apply bool_decide_eq_true in Hb as [b Hb].
    eapply bufferevent_free_frame; [done..|]. intros w3 F3 Hx3. apply HQ; [|done].
    rewrite Hb. exact (frame_trans _ _ _ _ _ _ F F3).
  - apply bool_decide_eq_false in Hb. destruct (bev_of s x) eqn:Eb; [now destruct Hb|].
    apply HQ; [done|]. rewrite Hx. f_equal. destruct s, x; cbn in *; now subst.
Qed.

(** The exact effect of [redsocks_drop_client]: it never faults on a connected
    client, whatever the environment answers. *)
Lemma drop_client_dropped E c x w (Q : unit -> world -> Prop) :
  w_clients w !! c = Some x ->
  let splice := use_splice (config (default inst_default (w_inst w !! c_instance x))) in
  (forall w', dropped c (link_of x) (client_fds splice x) w w' -> Q tt w') ->
  wp E (redsocks_drop_client c) Q w.
Proof.
  intros Hx splice HQ. apply wp_bind. eapply wp_get_client_some; [exact Hx|].
  apply wp_bind. eapply run_fini_frame; [exact Hx|]. intros w1 p H1 Hi1 Hx1.
  apply wp_bind. apply (free_when_frame E c Sclient _ w w1 [] _ H1 Hx1). intros w2 H2 Hx2.
  apply wp_bind. apply (free_when_frame E c Srelay _ w w2 _ _ H2 Hx2). intros w3 H3 Hx3.
  apply wp_bind, wp_get_inst, wp_bind. rewrite app_nil_r in H3.
  rewrite (acct_config _ _ _ _ (f_acct _ _ _ _ H3)). fold splice.
  assert (forall w4, frame c (client_fds splice x) w w4 ->
    wp E (redsocks_conn_list_del c ;; modify (with_w_clients (delete c))) Q w4) as Hend.
  { intros w4 H4. destruct (frame_alive _ _ _ _ H4 (ex_intro _ _ Hx)) as [x4 Hx4].
    eapply conn_list_del_dropped; [exact Hx4|]. intros w5 H5.
    rewrite (frame_link _ _ _ _ _ _ H4 Hx Hx4) in H5.
    apply HQ. exact (frame_dropped _ _ _ _ _ _ _ H4 H5). }
  apply wp_when; intros Hsp.
  - eapply drop_pump_frame; [exact Hx3|]. intros w4 H4. apply Hend.
    unfold client_fds. rewrite Hsp. exact (frame_trans _ _ _ _ _ _ H3 H4).
  - apply Hend. unfold client_fds. now rewrite Hsp.
Qed.

(** ** Keeping or dropping *)

(** [m], run for a connected client [c], either keeps it ([P a true] of the
    result) or drops it ([P a false]). *)
Definition does {A} (c : nat) (m : M A) (P : A -> bool -> Prop) : Prop :=
  forall w, is_Some (w_clients w !! c) ->
  wp any m (fun a w' =>
    (P a true /\ exists fds, frame c fds w w') \/
    (P a false /\ exists lk fds, dropped c lk fds w w')) w.

Definition keeps {A} (c : nat) (m : M A) : Prop := does c m (fun _ b => b = true).

(** The typical handler: keeps or drops, no matter which. *)
Definition handler {A} (c : nat) (m : M A) : Prop := does c m (fun _ _ => True).

Lemma does_mono {A} c (m : M A) (P P' : A -> bool -> Prop) :
  does c m P -> (forall a b, P a b -> P' a b) -> does c m P'.
Proof. intros Hm HP w Hw. eapply wp_mono; [now apply Hm|]. naive_solver. Qed.

Lemma does_bind {A B} c (m : M A) (k : A -> M B) P Q :
  does c m P ->
  (forall a, P a true -> does c (k a) Q) ->
  (forall a w, P a false -> w_clients w !! c = None ->
     wp any (k a) (fun b w' => Q b false /\ exists fds, quiet fds w w') w) ->
  does c (bind m k) Q.
Proof.
  intros Hm Hk Hd w Hw. apply wp_bind. eapply wp_mono; [now apply Hm|].
  intros a w1 [[HP [f1 F1]]|[HP (lk & f1 & D1)]].
  - eapply wp_mono; [apply Hk; [done|eapply frame_alive; eauto]|].
    intros b w2 [[HQ [f2 F2]]|[HQ (lk & f2 & D2)]]; [left|right]; split; try done.
    + eexists. eapply frame_trans; eauto.
    + do 2 eexists. eapply frame_dropped; eauto.
  - eapply wp_mono; [apply Hd; [done|]|].
    + rewrite (d_clients _ _ _ _ _ D1). apply lookup_delete_eq.
    + intros b w2 [HQ [f2 F2]]. right. split; [done|].
      do 2 eexists. eapply dropped_quiet; eauto.
Qed.

Lemma keeps_bind {A B} c (m : M A) (k : A -> M B) Q :
  keeps c m -> (forall a, does c (k a) Q) -> does c (bind m k) Q.
Proof. intros Hm Hk. eapply does_bind; [exact Hm|auto|]. done. Qed.

(** After a handler that may have dropped [c], the rest must not touch it. *)
Lemma does_then_ret {A B} c (m : M A) (k : A -> B) P (Q : B -> bool -> Prop) :
  does c m P -> (forall a b, P a b -> Q (k a) b) ->
  does c (let! a := m in ret (k a)) Q.
Proof.
  intros Hm HQ. eapply does_bind; [exact Hm| |].
  - intros a Ha w Hw. left. split; [auto|]. eexists. apply frame_refl.
  - intros a w Ha _. split; [auto|]. eexists. apply quiet_refl.
Qed.

Lemma keeps_quiet {A} c (m : M A) :
  (forall w Q, (forall a fds w', quiet fds w w' -> Q a w') -> wp any m Q w) -> keeps c m.
Proof.
  intros Hm w Hw. apply Hm. intros a fds w' H. left. split; [done|].
  eexists. apply quiet_frame, H.
Qed.

Lemma does_ret {A} c (a : A) (P : A -> bool -> Prop) : P a true -> does c (ret a) P.
Proof. intros Ha w Hw. left. split; [done|]. eexists. apply frame_refl. Qed.

Lemma does_raise {A} c f P : does (A := A) c (raise f) P.
Proof. done. Qed.

Lemma keeps_sys c : keeps c sys.
Proof. apply keeps_quiet. intros w Q HQ. apply wp_sys_quiet; eauto. Qed.

Lemma keeps_sys_ev c : keeps c sys_ev.
Proof. apply keeps_quiet. intros w Q HQ. apply wp_sys_ev_quiet; eauto. Qed.

Lemma keeps_close c fd : keeps c (redsocks_close fd).
Proof. apply keeps_quiet. intros w Q HQ. apply redsocks_close_quiet; eauto. Qed.

Lemma keeps_gets {A} c (g : world -> A) : keeps c (gets g).
Proof. apply keeps_quiet. intros w Q HQ. apply wp_gets. eapply HQ, quiet_refl. Qed.

Lemma keeps_get_inst c i : keeps c (get_inst i).
Proof. apply keeps_quiet. intros w Q HQ. apply wp_get_inst. eapply HQ, quiet_refl. Qed.

Lemma keeps_assert c line b : keeps c (assert_ line b).
Proof. apply keeps_quiet. intros w Q HQ. apply wp_assert; [intros; eapply HQ, quiet_refl|done]. Qed.

Lemma keeps_get_client c c' : keeps c (get_client c').
Proof.
  apply keeps_quiet. intros w Q HQ. apply wp_get_client; [intros; eapply HQ, quiet_refl|done].
Qed.

Lemma keeps_upd_client c g :
  (forall x, link_of (g x) = link_of x) -> (forall x, time_ok x -> time_ok (g x)) ->
  keeps c (upd_client c g).
Proof.
  intros Hg Ht w Hw. apply wp_update_frame; [done..|]. intros w' F. left. eauto.
Qed.

Lemma keeps_drop c : does c (redsocks_drop_client c) (fun _ b => b = false).
Proof.
  intros w [x Hx]. eapply drop_client_dropped; [exact Hx|]. intros w' D. right. eauto.
Qed.

(** An update of an instance that the erased view does not see, and that leaves
    its listener alone. *)
Lemma keeps_upd_inst c i g :
  (forall x, erase_inst (g x) = erase_inst x) -> (forall x, listener (g x) = listener x) ->
  keeps c (upd_inst i g).
Proof.
  intros Hg Hl. apply keeps_quiet. intros w Q HQ. apply wp_modify. apply (HQ tt []).
  split; [|done]. constructor; try done; cbn; [now apply erase_alter|].
  intros He [Ho|Ho]; [now left|right].
  intros j y Hj Hy. cbn in *. rewrite lookup_alter in Hy. case_decide; [subst|eauto].
  destruct (w_inst w !! _) as [z|] eqn:Ez; [|done]. cbn in Hy. injection Hy as <-.
  rewrite Hl. eauto.
Qed.

Lemma does_when c b m (P : unit -> bool -> Prop) :
  does c m P -> P tt true -> does c (when b m) P.
Proof. intros Hm HP. destruct b; [done|now apply does_ret]. Qed.

Lemma does_drop c (P : unit -> bool -> Prop) : P tt false -> does c (redsocks_drop_client c) P.
Proof. intros HP. eapply does_mono; [apply keeps_drop|]. now intros [] ? ->. Qed.

Lemma does_keeps {A} c (m : M A) (P : A -> bool -> Prop) :
  keeps c m -> (forall a, P a true) -> does c m P.
Proof. intros H HP. eapply does_mono; [exact H|]. now intros a b ->. Qed.

Lemma handler_keeps {A} c (m : M A) : keeps c m -> handler c m.
Proof. intros H. eapply does_mono; [exact H|done]. Qed.

Lemma handler_does {A} c (m : M A) : handler c m -> does c m (fun _ _ => True).
Proof. done. Qed.

End Frame.

(** Walks through a handler: steps that keep the client are found in the hint
    database, branches are split, the last step may drop. *)
Create HintDb frames.

#[export] Hint Resolve keeps_sys keeps_sys_ev keeps_close keeps_gets keeps_get_inst keeps_assert
  keeps_get_client : frames.

Ltac same_link := let x := fresh in
  intros x; repeat match goal with s : side |- _ => destruct s end; destruct x;
  first [reflexivity | exact (fun H => H)].

#[export] Hint Extern 1 (keeps _ (upd_client _ _)) => apply keeps_upd_client; same_link : frames.
#[export] Hint Extern 1 (keeps _ (upd_inst _ _)) =>
  apply keeps_upd_inst; let x := fresh in intros x; destruct x; reflexivity : frames.

Ltac frame_base := solve [eauto 3 with frames nocore].
Ltac frame_true := first [done | exact I | exact (fun _ => I)].

Ltac frames := repeat
  match goal with
  | |- keeps _ _ => frame_base || unfold keeps at 1
  | |- handler _ _ => frame_base || unfold handler at 1
  | |- does _ (ret _) _ => apply does_ret; frame_true
  | |- does _ (raise _) _ => apply does_raise
  | |- does _ (redsocks_drop_client _) _ => apply does_drop; frame_true
  | |- does _ (when _ _) _ => apply does_when; [|frame_true]
  | |- does _ (bind _ _) _ =>
      first [ apply keeps_bind; [frame_base|]
            | eapply does_then_ret; [apply keeps_drop|intros ? ? ->; frame_true]
            | apply keeps_bind; [unfold keeps at 1; solve [frames]|] ]
  | |- does _ (match ?x with _ => _ end) _ => destruct x
  | |- does _ _ _ => apply does_keeps; [frame_base|frame_true]
  | |- does _ _ _ => frame_base
  | |- does _ _ (fun _ _ => True) => apply handler_does; frame_base
  | |- forall _, _ => intros ?
  | |- _ => progress cbv zeta
  end.

(** ** The connection core *)

Section Core.
Context `{BC : BaseConfig}.

Lemma keeps_get_bev c s : keeps c (get_bev c s).
Proof. unfold get_bev. frames. Qed.

#[local] Hint Resolve keeps_get_bev : frames.

Lemma keeps_upd_bev c s g : keeps c (upd_bev c s g).
Proof. unfold upd_bev. frames. Qed.

#[local] Hint Resolve keeps_upd_bev : frames.

Lemma keeps_enable c s ev : keeps c (bufferevent_enable c s ev).
Proof. unfold bufferevent_enable. frames. Qed.

Lemma keeps_disable c s ev : keeps c (bufferevent_disable c s ev).
Proof. unfold bufferevent_disable. frames. Qed.

Lemma keeps_write c s data : keeps c (bufferevent_write c s data).
Proof. unfold bufferevent_write. frames. Qed.

Lemma keeps_watermark c s l h : keeps c (setwatermark_read c s l h).
Proof. unfold setwatermark_read. frames. Qed.

Lemma gettimeofday_quiet E (Q : timeval -> world -> Prop) w :
  (forall t w', quiet [] w w' -> 0 <= tv_usec t < 1000000 -> Q t w') -> wp E gettimeofday Q w.
Proof.
  intros HQ. apply wp_bind, wp_sys_quiet. intros sec w1 H1.
  apply wp_bind, wp_sys_quiet. intros usec w2 H2. apply wp_ret, HQ.
  - eapply quiet_trans_0; eauto.
  - cbn. apply Z.mod_pos_bound. lia.
Qed.

Lemma does_gettimeofday c :
  does c redsocks_gettimeofday (fun r b => b = true /\ forall t, r = Some t -> 0 <= tv_usec t).
Proof.
  intros w Hw. apply wp_bind, wp_sys_quiet. intros r w1 H1.
  destruct (negb (r =? 0)).
  - left. split; [naive_solver|]. eexists. apply quiet_frame, H1.
  - apply wp_bind, gettimeofday_quiet. intros t w2 H2 Ht. left. split; [naive_solver lia|].
    eexists. eapply quiet_frame, quiet_trans_0; eauto.
Qed.

Lemma keeps_touch c : keeps c (redsocks_touch_client c).
Proof.
  unfold redsocks_touch_client. apply keeps_bind; [frames|]. intros _.
  eapply does_bind; [apply does_gettimeofday| |naive_solver].
  intros [t|] [_ Ht]; [|frames]. apply keeps_upd_client; [same_link|].
  intros x _. exact (Ht t eq_refl).
Qed.

#[local] Hint Resolve keeps_touch keeps_enable keeps_disable keeps_write keeps_watermark : frames.

Lemma keeps_pump_add c upd : keeps c (pump_add c upd).
Proof. unfold pump_add. frames. Qed.

Lemma keeps_pump_del c upd : keeps c (pump_del c upd).
Proof. unfold pump_del. frames. Qed.

Lemma keeps_run_fini c : keeps c (run_fini c).
Proof.
  intros w [x Hx]. eapply run_fini_frame; [exact Hx|]. intros w' p F _ _. left. eauto.
Qed.

Lemma keeps_bufferevent_free c s : keeps c (redsocks_bufferevent_free c s).
Proof. unfold redsocks_bufferevent_free. frames. Qed.

Lemma keeps_geterrno c : keeps c red_socket_geterrno.
Proof. unfold red_socket_geterrno. frames. Qed.

#[local] Hint Resolve keeps_geterrno : frames.

(** A message that cannot be built or queued drops the client. *)
Lemma does_write_helper_ex c mk state lo hi :
  (forall f, mk = Some f -> keeps c (f c)) ->
  does c (redsocks_write_helper_ex c mk state lo hi) (fun r b => b = (r =? 0)).
Proof.
  intros Hmk. unfold redsocks_write_helper_ex. destruct mk as [f|]; [|frames].
  specialize (Hmk f eq_refl). frames.
Qed.

(** [None] is returned exactly when the client was dropped. *)
Lemma does_read_expected c cmp n :
  does c (redsocks_read_expected c cmp n) (fun r b => b = bool_decide (is_Some r)).
Proof. unfold redsocks_read_expected. frames. Qed.

Lemma handler_shutdown c s how : handler c (redsocks_shutdown c s how).
Proof. unfold redsocks_shutdown. frames. Qed.

Lemma keeps_mkevbuffer c data : keeps c (mkevbuffer data).
Proof. unfold mkevbuffer. frames. Qed.

Lemma keeps_nonblock c fd : keeps c (fcntl_nonblock fd).
Proof. unfold fcntl_nonblock. frames. Qed.

Lemma keeps_fold {A B} c (f : B -> A -> M B) l : forall b,
  (forall b a, keeps c (f b a)) -> keeps c (fold_m f l b).
Proof.
  induction l as [|a l IH]; intros b Hf; cbn [fold_m]; [now apply does_ret|].
  apply keeps_bind; auto. intros b'. now apply IH.
Qed.

Lemma keeps_keepalive c fd : keeps c (apply_tcp_keepalive fd).
Proof. unfold apply_tcp_keepalive. apply keeps_fold. frames. Qed.

#[local] Hint Resolve keeps_nonblock keeps_keepalive : frames.

Lemma keeps_connect c : keeps c red_connect_relay.
Proof. unfold red_connect_relay. frames. Qed.

#[local] Hint Resolve keeps_connect : frames.

Lemma handler_connect_relay c : handler c (redsocks_connect_relay c).
Proof. unfold redsocks_connect_relay. frames. Qed.

End Core.

#[export] Hint Resolve keeps_get_bev keeps_upd_bev keeps_enable keeps_disable keeps_write
  keeps_watermark keeps_touch keeps_pump_add keeps_pump_del keeps_run_fini
  keeps_bufferevent_free keeps_geterrno keeps_mkevbuffer handler_shutdown handler_connect_relay
  : frames.

(** ** The connection table

    An abstract view of the bookkeeping of [redsocks.c]: which clients exist,
    which instance each belongs to, and the counter [redsocks_conn]. Handlers of
    a client refine two abstract operations, doing nothing and removing a client;
    the invariant of the table is that the counter is the number of linked
    clients and never exceeds the configured limit. *)

Open Scope Z_scope.

Record table := Table {
  t_instances : list nat;
  t_lists : gmap nat (list nat);         (** the client list of each instance *)
  t_links : gmap nat (bool * nat);       (** linked or not, and the owner *)
  t_conn : Z;
  t_next : nat;
}.

Definition abs (w : world) : table :=
  Table (instances w) (i_clients <$> w_inst w) (link_of <$> w_clients w) (redsocks_conn w)
    (w_next w).

(** Removing client [c]. *)
Definition t_drop (c : nat) (lk : bool * nat) (t : table) : table :=
  Table (t_instances t)
    (if lk.1 then alter (filter (fun k => k <> c)) lk.2 (t_lists t) else t_lists t)
    (delete c (t_links t))
    (if lk.1 then u32 (t_conn t - 1) else t_conn t)
    (t_next t).

(** Allocating a client of instance [i], not linked yet. *)
Definition t_alloc (i : nat) (t : table) : table :=
  Table (t_instances t) (t_lists t) (<[t_next t := (false, i)]> (t_links t)) (t_conn t)
    (S (t_next t)).

(** Linking it. *)
Definition t_link (c i : nat) (t : table) : table :=
  Table (t_instances t) (alter (fun l => c :: l) i (t_lists t))
    (<[c := (true, i)]> (t_links t)) (u32 (t_conn t + 1)) (t_next t).

(** The number of clients over all instances. *)
Definition t_total (t : table) : nat :=
  sum_list_with (fun i => length (default [] (t_lists t !! i))) (t_instances t).

Section Table.
Context `{BC : BaseConfig}.

Record t_ok (t : table) : Prop := TOk {
  t_nodup : NoDup (t_instances t);
  t_inst : forall i, i ∈ t_instances t <-> is_Some (t_lists t !! i);
  t_unique : forall i l, t_lists t !! i = Some l -> NoDup l;
  t_member : forall i l c, t_lists t !! i = Some l ->
    (c ∈ l <-> t_links t !! c = Some (true, i));
  t_owner : forall c lk, t_links t !! c = Some lk -> is_Some (t_lists t !! lk.2);
  t_count : t_conn t = Z.of_nat (t_total t);
  t_max : t_conn t <= redsocks_conn_max;
  t_fresh : forall c, is_Some (t_links t !! c) -> (c < t_next t)%nat;
}.

(** ** Refinement *)

Lemma erase_lists (m m' : gmap nat redsocks_instance) :
  erase_inst <$> m' = erase_inst <$> m -> i_clients <$> m' = i_clients <$> m.
Proof.
  intros H. apply (f_equal (fmap i_clients)) in H. rewrite <- !map_fmap_compose in H.
  erewrite !(map_fmap_ext (i_clients ∘ erase_inst) i_clients) in H by done. exact H.
Qed.

Lemma frame_links c fds w w' :
  frame c fds w w' -> link_of <$> w_clients w' = link_of <$> w_clients w.
Proof.
  intros [_ Ho Hs _]. apply map_eq. intros k. rewrite !lookup_fmap.
  destruct (decide (k = c)) as [->|Hk]; [done|].
  apply (f_equal (fun m => m !! k)) in Ho. rewrite !lookup_delete_ne in Ho by done.
  now rewrite Ho.
Qed.

(** A handler that keeps its client is a stuttering step of the table. *)
Lemma frame_abs c fds w w' : frame c fds w w' -> abs w' = abs w.
Proof.
  intros F. unfold abs. rewrite (frame_links _ _ _ _ F).
  destruct (f_acct _ _ _ _ F) as [Hi Hl Hn Hc _ _ _].
  now rewrite Hi, Hn, Hc, (erase_lists _ _ Hl).
Qed.

Lemma quiet_abs fds w w' : quiet fds w w' -> abs w' = abs w.
Proof. intros H. exact (frame_abs 0 _ _ _ (quiet_frame _ _ _ _ H)). Qed.

(** Dropping a client refines [t_drop]. *)
Lemma dropped_abs c lk fds w w' : dropped c lk fds w w' -> abs w' = t_drop c lk (abs w).
Proof.
  intros [H1 H2 H3 H4 H5 H6 _ _ _]. unfold abs, t_drop. cbn.
  rewrite H2, H3, H5, H6, fmap_delete. f_equal.
  destruct lk.1; [|now apply erase_lists].
  apply (f_equal (fmap i_clients)) in H4. rewrite <- !map_fmap_compose in H4.
  erewrite !(map_fmap_ext (i_clients ∘ erase_inst) i_clients) in H4 by done. rewrite H4.
  apply map_eq. intros i. rewrite lookup_fmap, !lookup_alter, !lookup_fmap.
  case_decide; [subst|]; now destruct (w_inst w !! _).
Qed.

(** ** The invariant *)

Lemma sum_alter (m : gmap nat (list nat)) (g : list nat -> list nat) is_ i l :
  NoDup is_ -> i ∈ is_ -> m !! i = Some l ->
  (sum_list_with (fun j => length (default [] (alter g i m !! j))) is_ + length l =
   sum_list_with (fun j => length (default [] (m !! j))) is_ + length (g l))%nat.
Proof.
  intros Hn Hi Hl. induction Hn as [|j is_ Hj Hn IH]; [now apply elem_of_nil in Hi|].
  cbn [sum_list_with]. apply elem_of_cons in Hi as [<-|Hi].
  - rewrite lookup_alter_eq, Hl. cbn.
    replace (sum_list_with (fun j => length (default [] (alter g i m !! j))) is_)
      with (sum_list_with (fun j => length (default [] (m !! j))) is_); [lia|].
    clear IH Hn. induction is_ as [|k is_ IH]; [done|]. cbn [sum_list_with].
    apply not_elem_of_cons in Hj as [Hik Hj]. rewrite IH by done.
    now rewrite lookup_alter_ne.
  - rewrite lookup_alter_ne by (intros ->; done). specialize (IH Hi). lia.
Qed.

Lemma t_drop_ok c lk t :
  redsocks_conn_max < 2 ^ 32 -> t_ok t -> t_links t !! c = Some lk -> t_ok (t_drop c lk t).
Proof.
  intros Hmax Ht Hc. pose proof Ht as [H1 H2 H3 H4 H5 H6 H7 H8].
  destruct lk as [[] i]; unfold t_drop; cbn [fst snd]; cycle 1.
  { constructor; cbn; auto.
    - intros j l k Hj. rewrite (H4 _ _ _ Hj).
      destruct (decide (k = c)) as [->|Hk]; [rewrite lookup_delete_eq, Hc|
        now rewrite lookup_delete_ne by done]. naive_solver.
    - intros k lk Hk. apply lookup_delete_Some in Hk as [_ Hk]. eauto.
    - intros k [lk Hk]. apply lookup_delete_Some in Hk as [_ Hk]. eauto. }
  destruct (H5 _ _ Hc) as [l Hl]. cbn in Hl.
  assert (c ∈ l) as Hcl by now apply (H4 _ _ _ Hl).
  assert (i ∈ t_instances t) as Hi by (apply H2; eauto).
  pose proof (filter_remove_length c l (H3 _ _ Hl) Hcl) as Hlen.
  pose proof (sum_alter (t_lists t) (filter (fun k => k <> c)) _ i l H1 Hi Hl) as Hsum.
  fold (t_total t) in Hsum.
  constructor; cbn; auto.
  - intros j. rewrite H2, lookup_alter. case_decide; [subst; now rewrite fmap_is_Some|done].
  - intros j l' Hj. apply lookup_alter_Some in Hj as [(-> & l0 & Hl0 & ->)|[Hj Hl']]; [|eauto].
    apply NoDup_filter. eauto.
  - intros j l' k Hj. apply lookup_alter_Some in Hj as [(-> & l0 & Hl0 & ->)|[Hj Hl']].
    + rewrite list_elem_of_filter, (H4 _ _ _ Hl0), lookup_delete_Some. naive_solver.
    + rewrite (H4 _ _ _ Hl'), lookup_delete_Some. naive_solver.
  - intros k lk Hk. apply lookup_delete_Some in Hk as [_ Hk].
    rewrite lookup_alter. case_decide; subst; rewrite ?fmap_is_Some; eauto.
  - unfold t_total. cbn. unfold u32. rewrite Z.mod_small; lia.
  - unfold u32. rewrite Z.mod_small; lia.
  - intros k [lk Hk]. apply lookup_delete_Some in Hk as [_ Hk]. eauto.
Qed.

Lemma t_alloc_ok i t : t_ok t -> i ∈ t_instances t -> t_ok (t_alloc i t).
Proof.
  intros Ht Hi. pose proof Ht as [H1 H2 H3 H4 H5 H6 H7 H8].
  assert (t_links t !! t_next t = None) as Hc.
  { destruct (t_links t !! t_next t) eqn:E; [|done].
    assert (t_next t < t_next t)%nat by (apply H8; eauto). lia. }
  constructor; cbn; auto.
  - intros j l k Hj. rewrite (H4 _ _ _ Hj), lookup_insert_Some. naive_solver.
  - intros k lk Hk. apply lookup_insert_Some in Hk as [[<- <-]|[_ Hk]]; [now apply H2|eauto].
  - intros k [lk Hk]. apply lookup_insert_Some in Hk as [[<- _]|[_ Hk]]; [lia|].
    assert (k < t_next t)%nat by eauto. lia.
Qed.

Lemma t_link_ok c i t :
  redsocks_conn_max < 2 ^ 32 -> t_ok t -> t_links t !! c = Some (false, i) ->
  t_conn t < redsocks_conn_max -> t_ok (t_link c i t).
Proof.
  intros Hmax Ht Hc Hlt. pose proof Ht as [H1 H2 H3 H4 H5 H6 H7 H8].
  destruct (H5 _ _ Hc) as [l Hl]. cbn in Hl.
  assert (i ∈ t_instances t) as Hi by (apply H2; eauto).
  assert (forall j l', t_lists t !! j = Some l' -> c ∉ l') as Hnew.
  { intros j l' Hj Hin. apply (H4 _ _ _ Hj) in Hin. congruence. }
  pose proof (sum_alter (t_lists t) (fun l => c :: l) _ i l H1 Hi Hl) as Hsum.
  fold (t_total t) in Hsum. cbn [length] in Hsum.
  constructor; cbn; auto.
  - intros j. rewrite H2, lookup_alter. case_decide; [subst; now rewrite fmap_is_Some|done].
  - intros j l' Hj. apply lookup_alter_Some in Hj as [(-> & l0 & Hl0 & ->)|[Hj Hl']]; [|eauto].
    apply NoDup_cons. eauto.
  - intros j l' k Hj. apply lookup_alter_Some in Hj as [(-> & l0 & Hl0 & ->)|[Hj Hl']].
    + rewrite elem_of_cons, (H4 _ _ _ Hl0), lookup_insert_Some. naive_solver.
    + rewrite (H4 _ _ _ Hl'), lookup_insert_Some. naive_solver.
  - intros k lk Hk. rewrite lookup_alter.
    apply lookup_insert_Some in Hk as [[<- <-]|[_ Hk]]; cbn; case_decide;
      rewrite ?fmap_is_Some; subst; eauto.
  - unfold t_total. cbn. unfold u32. rewrite Z.mod_small; lia.
  - unfold u32. rewrite Z.mod_small; lia.
  - intros k [lk Hk]. apply lookup_insert_Some in Hk as [[<- _]|[_ Hk]]; eauto.
Qed.

End Table.
