(* ===== verification/RedPressure.v ===== *)
(** * Connection pressure

    The invariant of a redsocks process and how dropping, connection pressure and
    accept back-off keep it: [redsocks_conn] counts the clients and stays within
    [redsocks_conn_max], and, with a working event backend, the listeners are
    armed only below the limit. *)

From S2P Require Import Prelude RedWorld RedCore RedLogic RedFrame.

Open Scope Z_scope.
Open Scope red_scope.

(** The limits of [base.c]: 32-bit values, with a positive back-off
    ([base_onexit] refuses 0). *)
Class BaseConfigOk `{BC : BaseConfig} : Prop := {
  conn_max_range : 0 <= redsocks_conn_max < 2 ^ 32;
  idle_timeout_range : 0 <= connpres_idle_timeout < 2 ^ 32;
  backoff_range : 1 <= max_accept_backoff_ms < 2 ^ 32;
}.

Section Pressure.
Context `{BC : BaseConfig} {OK : BaseConfigOk}.

Record wf (w : world) : Prop := Wf {
  wf_table : t_ok (abs w);
  wf_time : forall c x, w_clients w !! c = Some x -> time_ok x;
}.

(** ** One client *)

Lemma frame_wf c fds w w' : frame c fds w w' -> wf w -> wf w'.
Proof.
  intros F [Ht Hx]. split; [now rewrite (frame_abs _ _ _ _ F)|].
  intros k x Hk. destruct (decide (k = c)) as [->|Hne].
  - eapply f_time; eauto.
  - pose proof (f_equal (fun m => m !! k) (f_others _ _ _ _ F)) as Ho. cbn in Ho.
    rewrite !lookup_delete_ne in Ho by done. apply (Hx k). congruence.
Qed.

Lemma quiet_wf fds w w' : quiet fds w w' -> wf w -> wf w'.
Proof. intros H. exact (frame_wf 0 _ _ _ (quiet_frame _ _ _ _ H)). Qed.

Lemma dropped_wf c lk fds w w' : dropped c lk fds w w' -> wf w -> wf w'.
Proof.
  intros D [Ht Hx]. split.
  - rewrite (dropped_abs _ _ _ _ _ D). apply t_drop_ok; [apply OK|done|].
    cbn. rewrite lookup_fmap. apply D.
  - intros k x. rewrite (d_clients _ _ _ _ _ D), lookup_delete_Some. naive_solver.
Qed.

(** A linked client is counted. *)
Lemma linked_counted w c i :
  wf w -> link_of <$> w_clients w !! c = Some (true, i) -> 0 < redsocks_conn w < 2 ^ 32.
Proof.
  intros [Ht _] Hc. pose proof Ht as [H1 H2 H3 H4 H5 H6 H7 H8]. rewrite <- lookup_fmap in Hc.
  destruct (H5 c (true, i) Hc) as [l Hl]. cbn [snd] in Hl.
  assert (c ∈ l) as Hin by now apply (H4 i l c Hl).
  assert (i ∈ t_instances (abs w)) as Hi by (apply H2; eauto).
  pose proof (sum_alter _ (fun _ => []) _ i l H1 Hi Hl) as Hsum. cbn [length] in Hsum.
  fold (t_total (abs w)) in Hsum.
  assert (0 < length l)%nat by (destruct l; [now apply elem_of_nil in Hin|cbn; lia]).
  pose proof conn_max_range. change (t_conn (abs w)) with (redsocks_conn w) in *. lia.
Qed.

Lemma dropped_listen c lk fds w w' :
  dropped c lk fds w w' -> wf w -> w_evscript w = [] -> listen_ok w -> listen_ok w'.
Proof.
  intros D Hw He Hl. eapply d_listen; [exact D|done..|]. intros Hlk.
  destruct lk as [[] i]; [|done]. eapply linked_counted; [exact Hw|apply D].
Qed.

(** ** Dropping idle connections *)

(** What dropping idle connections from [w] leads to: [next] is reset exactly
    when a connection was dropped. *)
Record shrunk (w w' : world) : Prop := Shrunk {
  sh_wf : wf w';
  sh_ev : w_evscript w = [] -> w_evscript w' = [];
  sh_listen : w_evscript w = [] -> listen_ok w -> listen_ok w';
  sh_instances : instances w' = instances w;
  sh_clients : w_clients w' ⊆ w_clients w;
  sh_conn : redsocks_conn w' < redsocks_conn w;
}.

Definition idle_post (w : world) (next : timeval) (w' : world) : Prop :=
  if timerisset next then quiet [] w w' else shrunk w w'.

Lemma timerisset_false t : timerisset t = false -> t = tv_zero.
Proof. destruct t as [s u]. unfold timerisset, tv_zero. cbn. intros H. f_equal; lia. Qed.

(** The time left before a connection that is not idle yet becomes idle. *)
Lemma idle_delay m now last :
  0 <= tv_usec now < 1000000 -> 0 <= tv_usec last ->
  timer_le (timersub now last) tv_zero || timer_le (Tv m 0) (timersub now last) = false ->
  timerisset (timersub (Tv m 0) (timersub now last)) = true /\
  timer_lt (timersub (Tv m 0) (timersub now last)) tv_zero = false.
Proof.
  destruct now as [ns nu], last as [ls lu]. cbn [tv_usec]. intros Hn Hl.
  set (idle := timersub _ _). intros H.
  apply orb_false_iff in H as [H1 H2].
  assert (tv_usec idle < 1000000) as Hi.
  { unfold idle, timersub. cbn. destruct (Z.ltb_spec (nu - lu) 0); cbn; lia. }
  clearbody idle. destruct idle as [s u].
  unfold timer_le, timerisset, timer_lt, timersub, tv_zero in *. cbn in *.
  destruct (Z.eqb_spec s 0), (Z.eqb_spec m s), (Z.ltb_spec (0 - u) 0); cbn; split;
    repeat match goal with |- context [?a =? ?b] => destruct (Z.eqb_spec a b) end; cbn; lia.
Qed.

Lemma quiet_shrunk f w w1 w2 : wf w -> quiet f w w1 -> shrunk w1 w2 -> shrunk w w2.
Proof.
  intros Hw [Ha Hc] [H1 He H2 H3 H4 H5]. destruct Ha as [i1 j1 n1 k1 c1 e1 l1].
  constructor; [assumption|auto|auto|congruence|now rewrite <- Hc|lia].
Qed.

Lemma shrunk_quiet f w w1 w2 : shrunk w w1 -> quiet f w1 w2 -> shrunk w w2.
Proof.
  intros [H1 He H2 H3 H4 H5] Hq. pose proof (quiet_wf _ _ _ Hq H1). destruct Hq as [Ha Hc].
  destruct Ha as [i1 j1 n1 k1 c1 e1 l1]. constructor; [assumption|auto|auto|congruence|now rewrite Hc|lia].
Qed.

Lemma shrunk_trans w w1 w2 : shrunk w w1 -> shrunk w1 w2 -> shrunk w w2.
Proof.
  intros [H1 He H2 H3 H4 H5] [K1 Ke K2 K3 K4 K5]. constructor; [assumption|auto|auto|congruence|by etrans|lia].
Qed.

Lemma dropped_shrunk c i fds w w' : wf w -> dropped c (true, i) fds w w' -> shrunk w w'.
Proof.
  intros Hw D. constructor.
  - eapply dropped_wf; eauto.
  - apply D.
  - intros. eapply dropped_listen; eauto.
  - apply D.
  - rewrite (d_clients _ _ _ _ _ D). apply delete_subseteq.
  - pose proof (linked_counted w c i Hw (d_link _ _ _ _ _ D)) as Hc.
    rewrite (d_conn _ _ _ _ _ D). cbn. unfold u32. rewrite Z.mod_small; lia.
Qed.

(** [wf] survives [idle_post]. *)
Lemma idle_post_wf w next w' : wf w -> idle_post w next w' -> wf w'.
Proof.
  unfold idle_post. intros Hw. destruct (timerisset next); [|now intros []].
  intros Hq. exact (quiet_wf _ _ _ Hq Hw).
Qed.

(** One connection. *)
Lemma idle_client_spec E now m best c i w0 w :
  0 <= tv_usec now < 1000000 -> wf w0 -> idle_post w0 best w ->
  link_of <$> w_clients w !! c = Some (true, i) ->
  wp E (idle_client now (Tv m 0) best c) (fun best' w' => idle_post w0 best' w' /\
     delete c (link_of <$> w_clients w') = delete c (link_of <$> w_clients w)) w.
Proof.
  intros Hnow Hw0 Hpost Hc. pose proof (idle_post_wf _ _ _ Hw0 Hpost) as Hw.
  destruct (w_clients w !! c) as [x|] eqn:Hx; [|done].
  assert (link_of x = (true, i)) as Hlk by (cbn in Hc; congruence).
  apply wp_bind. eapply wp_get_client_some; [exact Hx|]. cbv zeta.
  destruct (_ || _) eqn:Hidle.
  - apply wp_bind. eapply drop_client_dropped; [exact Hx|]. intros w1 D. apply wp_ret.
    rewrite Hlk in D. pose proof (dropped_shrunk _ _ _ _ _ Hw D) as Hs. split.
    + unfold idle_post in *. cbn. destruct (timerisset best).
      * eapply quiet_shrunk; eauto.
      * eapply shrunk_trans; eauto.
    + rewrite (d_clients _ _ _ _ _ D), fmap_delete. apply delete_delete_eq.
  - pose proof (wf_time _ Hw _ _ Hx) as Ht.
    destruct (idle_delay m now (last_event x) Hnow Ht Hidle) as [Hset Hpos].
    apply wp_ret. split; [|done]. unfold idle_post in *.
    destruct (timerisset best) eqn:Hb.
    + destruct (timer_lt _ best); now rewrite ?Hset, ?Hb.
    + apply timerisset_false in Hb as ->. now rewrite Hpos.
Qed.

(** One instance. *)
Lemma idle_instance_spec E now m best i w0 w :
  0 <= tv_usec now < 1000000 -> wf w0 -> idle_post w0 best w ->
  wp E (idle_instance now (Tv m 0) best i) (idle_post w0) w.
Proof.
  intros Hnow Hw0 Hpost. apply wp_bind, wp_get_inst.
  eapply wp_mono; [apply (wp_fold_m E _ (fun l b w' => idle_post w0 b w' /\ NoDup l /\
    forall c, c ∈ l -> link_of <$> w_clients w' !! c = Some (true, i)))|naive_solver].
  - split; [done|]. pose proof (idle_post_wf _ _ _ Hw0 Hpost) as [[_ _ Hu Hm _ _ _ _] _].
    destruct (w_inst w !! i) as [x|] eqn:Hi; cbn.
    + assert (t_lists (abs w) !! i = Some (i_clients x)) as Hl
        by (cbn; rewrite lookup_fmap, Hi; done).
      split; [eauto|]. intros c Hc. apply (Hm _ _ _ Hl) in Hc. cbn in Hc.
      now rewrite lookup_fmap in Hc.
    + split; [constructor|]. intros c Hc. now apply elem_of_nil in Hc.
  - intros c l b w1 (Hp & Hnd & Hl). apply NoDup_cons in Hnd as [Hnin Hnd].
    eapply wp_mono; [eapply (idle_client_spec E now m b c i w0 w1 Hnow Hw0 Hp);
      apply Hl; left|].
    intros b' w2 [Hp' Hd]. split; [done|]. split; [done|]. intros k Hk.
    apply (f_equal (fun m => m !! k)) in Hd.
    rewrite !lookup_delete_ne, !lookup_fmap in Hd by (intros ->; done).
    rewrite Hd. apply Hl. now right.
Qed.

Lemma drop_idle_spec E w (Q : timeval -> world -> Prop) :
  0 < connpres_idle_timeout -> wf w ->
  (forall next w', idle_post w next w' -> Q next w') ->
  wp E drop_idle_connections Q w.
Proof.
  intros Hpos Hw HQ. unfold drop_idle_connections.
  apply wp_bind, wp_assert; [intros _|lia].
  apply wp_bind, gettimeofday_quiet. intros now w1 H1 Hnow.
  apply wp_bind, wp_gets.
  eapply wp_mono; [apply (wp_fold_m E _ (fun _ b w' => idle_post w b w'))|apply HQ].
  - unfold idle_post, timerisset. cbn.
    destruct (Z.eqb_spec connpres_idle_timeout 0); [lia|exact H1].
  - intros i l b w2 H2. now apply idle_instance_spec.
Qed.

(** ** Backing off *)

(** The listeners of the instances outside [l] are off. *)
Definition off_except (l : list nat) (w : world) : Prop :=
  forall i x, i ∈ instances w -> i ∉ l -> w_inst w !! i = Some x ->
    ev_added (listener x) = false /\ ev_active (listener x) = false.

(** The second half of [back_off]. *)
Lemma listeners_del_spec E w (Q : unit -> world -> Prop) :
  (forall w', quiet [] w w' ->
     (w_evscript w = [] -> listeners_off w') ->
     accept_backoff_ms w' = accept_backoff_ms w -> accept_backoff_ev w' = accept_backoff_ev w ->
     Q tt w') ->
  wp E (for_each (instances w)
          (fun i => let! r := sys_ev in upd_listener i (event_del_ok r))) Q w.
Proof.
  intros HQ.
  eapply wp_mono; [apply (wp_for_each E _ (fun l w' => quiet [] w w' /\
    (w_evscript w = [] -> off_except l w') /\
    accept_backoff_ms w' = accept_backoff_ms w /\ accept_backoff_ev w' = accept_backoff_ev w))|].
  - split; [apply quiet_refl|]. split; [|done]. intros _ i x Hi Hn. done.
  - intros i l w1 (Hq & Ho & Hms & Hev). apply wp_bind, wp_sys_ev. intros r s Hrs.
    apply wp_modify.
    assert (w_evscript w = [] -> r = 0 /\ s = [] /\ off_except (i :: l) w1) as Hr.
    { intros He. destruct (Hrs (a_ev _ _ _ (q_acct _ _ _ Hq) He)). auto. }
    clear Ho.
    assert (w_evscript w = [] -> off_except l
      (with_w_inst (alter (with_listener (event_del_ok r)) i) w1)) as Hoff.
    { intros He j x Hj Hn Hx. destruct (Hr He) as (-> & _ & Ho). cbn in *.
      rewrite lookup_alter in Hx. case_decide.
      - subst j. destruct (w_inst w1 !! i); [|done]. now injection Hx as <-.
      - apply (Ho j x); [done| |done]. apply not_elem_of_cons. auto. }
    split; [|done]. eapply quiet_trans_0; [exact Hq|]. split; [|done].
    constructor; try done; cbn.
    + now apply erase_alter.
    + intros He. now destruct (Hrs He).
    + intros He [Hl|Hl]; [now left|right]. intros j x Hj Hx. cbn in *.
      rewrite lookup_alter in Hx. case_decide; [subst|eauto].
      destruct (w_inst w1 !! j) as [y|] eqn:Ey; [|done]. cbn in Hx. injection Hx as <-.
      destruct (Hl _ _ Hj Ey). cbn. unfold event_del_ok. now destruct (r =? 0).
  - intros [] w' (Hq & Ho & Hms & Hev). apply HQ; [done| |done..].
    intros He i x Hi Hx. apply (Ho He i x Hi); [|done]. apply not_elem_of_nil.
Qed.

(** What [back_off] establishes. *)
Record backed_off (next : timeval) (w w' : world) : Prop := BackedOff {
  bo_quiet : quiet [] w w';
  bo_off : w_evscript w = [] -> listeners_off w';
  bo_ms : accept_backoff_ms w' =
    clamp_value (u32 (u32 (Z.shiftl (accept_backoff_ms w) 1) + 1)) 1 max_accept_backoff_ms;
  bo_armed : w_evscript w = [] -> exists delay,
    1 <= delay <= accept_backoff_ms w' /\
    let tv := Tv (delay / 1000) (delay mod 1000 * 1000) in
    accept_backoff_ev w' = Some (if timerisset next && timer_lt next tv then next else tv);
}.

Lemma clamp_range v lo hi : lo <= hi -> lo <= clamp_value v lo hi <= hi.
Proof.
  intros. unfold clamp_value. destruct (Z.ltb_spec v lo); cbn;
  match goal with |- context [?a <? ?b] => destruct (Z.ltb_spec a b) end; lia.
Qed.

Lemma back_off_spec E next w (Q : unit -> world -> Prop) :
  (forall w', backed_off next w w' -> Q tt w') -> wp E (back_off next) Q w.
Proof.
  intros HQ. unfold back_off. apply wp_bind, wp_modify, wp_bind, wp_gets.
  set (ms := accept_backoff_ms _).
  assert (1 <= ms <= max_accept_backoff_ms) as Hms by apply clamp_range, OK.
  assert (ms < 2 ^ 32) as Hms' by (pose proof backoff_range; lia).
  apply wp_bind, wp_sys. intros rand s. cbv zeta.
  set (delay := u32 (u32 rand mod ms + 1)).
  assert (1 <= delay <= ms) as Hd.
  { unfold delay. pose proof (Z.mod_pos_bound (u32 rand) ms).
    unfold u32 at 1 3. rewrite Z.mod_small; lia. }
  apply wp_bind, wp_sys_ev. intros r es Hes. apply wp_bind.
  match goal with |- wp _ _ _ ?w1 => set (w1' := w1) end.
  assert (quiet [] w w1') as Hq.
  { split; [|done]. constructor; try done. intros He. now destruct (Hes He). }
  set (tv := if timerisset next && _ then next else _).
  assert (forall w2, quiet [] w w2 -> accept_backoff_ms w2 = ms ->
    (w_evscript w = [] -> accept_backoff_ev w2 = Some tv) ->
    wp E (let! is_ := gets instances in
      for_each is_ (fun i => let! r := sys_ev in upd_listener i (event_del_ok r))) Q w2) as Hend.
  { intros w2 Hq2 Hms2 Hev. apply wp_bind, wp_gets, listeners_del_spec.
    intros w3 Hq3 Hoff Hms3 Hev3. apply HQ. constructor.
    - eapply quiet_trans_0; eauto.
    - intros He. apply Hoff, Hq2, He.
    - now rewrite Hms3, Hms2.
    - intros He. exists delay. split; [rewrite Hms3, Hms2; lia|]. rewrite Hev3. auto. }
  apply wp_when; intros Hr; [apply wp_modify|]; apply Hend; auto.
  - eapply quiet_trans_0; [exact Hq|]. split; [|done]. now constructor.
  - intros He. destruct (Hes He) as [-> _]. done.
Qed.

(** ** Pressure *)

(** [conn_pressure] either drops connections or backs off. *)
Lemma conn_pressure_spec E w (Q : unit -> world -> Prop) :
  wf w ->
  (forall w', shrunk w w' -> Q tt w') ->
  (forall next w1 w', quiet [] w w1 -> backed_off next w1 w' -> Q tt w') ->
  wp E conn_pressure Q w.
Proof.
  intros Hw Hs Hb. unfold conn_pressure.
  destruct (Z.eqb_spec connpres_idle_timeout 0) as [Hz|Hz]; cbn [negb].
  - apply back_off_spec. intros w' H. eapply Hb; [apply quiet_refl|exact H].
  - apply wp_bind, drop_idle_spec; [pose proof idle_timeout_range; lia|done|].
    intros next w1 Hp. unfold idle_post in Hp. destruct (timerisset next); cbn [negb]; [|now apply wp_ret, Hs].
    apply back_off_spec. eauto.
Qed.

(** After pressure the process is well formed, and with a working event backend
    it no longer listens at the limit, whatever it did before. *)
Record relieved (w w' : world) : Prop := Relieved {
  rl_wf : wf w';
  rl_ev : w_evscript w = [] -> w_evscript w' = [];
  rl_listen : w_evscript w = [] -> listen_ok w';
  rl_instances : instances w' = instances w;
  rl_clients : w_clients w' ⊆ w_clients w;
  rl_conn : redsocks_conn w' <= redsocks_conn w;
}.

Lemma shrunk_relieved w w' : wf w -> shrunk w w' -> relieved w w'.
Proof.
  intros Hw [H1 He H2 H3 H4 H5]. constructor; auto; [|lia].
  intros Hev. left. pose proof (t_max _ (wf_table _ Hw)) as Hm. cbn in Hm. lia.
Qed.

Lemma backed_off_relieved next w w1 w' :
  wf w -> quiet [] w w1 -> backed_off next w1 w' -> relieved w w'.
Proof.
  intros Hw Hq Hb. pose proof (quiet_trans_0 _ _ _ _ Hq (bo_quiet _ _ _ Hb)) as Hq'.
  pose proof (quiet_wf _ _ _ Hq' Hw) as Hw'. destruct Hq' as [[i1 j1 n1 k1 c1 e1 l1] Hc].
  constructor; auto; [|now rewrite Hc|lia].
  intros He. right. eapply bo_off; [exact Hb|]. now apply Hq.
Qed.

Lemma conn_pressure_relieved E w (Q : unit -> world -> Prop) :
  wf w -> (forall w', relieved w w' -> Q tt w') -> wp E conn_pressure Q w.
Proof.
  intros Hw HQ. apply conn_pressure_spec; [done|..].
  - intros w' H. now apply HQ, shrunk_relieved.
  - intros next w1 w' H1 H2. eapply HQ, backed_off_relieved; eauto.
Qed.

(** The timer callback. *)
Lemma accept_backoff_relieved E w (Q : unit -> world -> Prop) :
  wf w -> (forall w', relieved w w' -> Q tt w') ->
  wp E redsocks_accept_backoff Q w.
Proof.
  intros Hw HQ. unfold redsocks_accept_backoff, conn_pressure_ongoing.
  assert (forall w', quiet [] w w' \/ (exists fd, quiet [fd] w w') ->
    redsocks_conn w' < redsocks_conn_max ->
    relieved w w') as Hrel.
  { intros w' Hq Hc. assert (exists fds, quiet fds w w') as [fds Hq'] by naive_solver.
    pose proof (quiet_wf _ _ _ Hq' Hw) as Hw'. destruct Hq' as [[i1 j1 n1 k1 c1 e1 l1] Hcl].
    constructor; auto; [now left|now rewrite Hcl|lia]. }
  apply wp_bind, wp_bind, wp_gets.
  destruct (Z.leb_spec redsocks_conn_max (redsocks_conn w)) as [Hm|Hm].
  { apply wp_ret. now apply conn_pressure_relieved. }
  apply wp_bind, wp_sys_quiet. intros fd w1 Hq.
  destruct (fd =? -1).
  - apply wp_ret. apply conn_pressure_relieved; [eapply quiet_wf; eauto|].
    intros w' [H1 H2 H3 H4 H5 H6]. apply HQ.
    destruct Hq as [[i1 j1 n1 k1 c1 e1 l1] Hcl].
    constructor; auto; [congruence|now rewrite <- Hcl|lia].
  - apply wp_bind, wp_modify, wp_ret.
    assert (quiet [fd] w (with_w_closed (fun l => fd :: l) w1)) as Hq1.
    { eapply quiet_trans_0; [exact Hq|]. split; [|done]. now constructor. }
    apply accept_enable_quiet.
    + cbn. now rewrite (a_conn _ _ _ (q_acct _ _ _ Hq)).
    + intros w2 Hq2. apply HQ, Hrel.
      * right. exists fd. exact (quiet_trans _ _ _ _ _ Hq1 Hq2).
      * rewrite (a_conn _ _ _ (q_acct _ _ _ Hq2)). cbn.
        now rewrite (a_conn _ _ _ (q_acct _ _ _ Hq)).
Qed.

End Pressure.
