(* ===== verification/ConfigFacts.v ===== *)
(** * Configuration files that are accepted

    The sections of [base.c] and [redsocks.c] keep the interface [SectionsOk], so
    the parser returns on every file; and when it accepts one, what [redsocks.c]
    relies on holds: the limits are 32-bit values with a positive back-off
    ([BaseConfigOk]) and every instance passed the checks of its section. *)

From S2P Require Import Prelude CLib RedWorld Parser RedConfig ParserSafety ParserFacts.
From S2P Require Import RedCore RedLogic RedFrame RedPressure.

Open Scope Z_scope.

(** ** The condition the sections keep *)

Record cfg_ok (d : redsocks_config) : Prop := CfgOk {
  bind_port_ok : is_u16 (sin_port (bindaddr d));
  bind_addr_ok : is_u32 (sin_addr (bindaddr d));
  relay_port_ok : is_u16 (sin_port (relayaddr d));
  relay_addr_ok : is_u32 (sin_addr (relayaddr d));
  listenq_ok : is_u16 (listenq d);
}.

(** A finished instance: its type names its relay subsystem, and the two options
    that only [http-connect] understands are used with it alone. *)
Record inst_ok (i : relay_subsys * redsocks_config) : Prop := InstOk {
  inst_cfg : cfg_ok i.2;
  inst_type : exists t, cfg_type i.2 = Some t /\ find_name relay_names t = Some i.1;
  inst_disclose : disclose_src i.2 <> DISCLOSE_NONE -> i.1 = http_connect_subsys;
  inst_onfail : on_proxy_fail i.2 <> ONFAIL_CLOSE -> i.1 = http_connect_subsys;
}.

Record base_range (b : base_instance) : Prop := BaseRange {
  nofile_range : is_u32 (rlimit_nofile b);
  max_range : is_u32 (conn_max b);
  idle_range : is_u32 (idle_timeout b);
  ms_range : is_u32 (max_backoff_ms b);
}.

(** A [base] section was read to its end. *)
Definition base_done (b : base_instance) : Prop :=
  configured b = true -> max_backoff_ms b <> 0 /\ redirector b <> None.

Section Facts.
Context (release : option (list Z)).

Notation sections := (conf_sections release).

Definition sections_inv (o : option (parser_section config_state)) (u : config_state) : Prop :=
  base_range (cs_base u) /\ Forall inst_ok (cs_instances u) /\
  (forall p, o = Some p -> s_name p = B# "redsocks" -> exists d, cs_data u = Some d /\ cfg_ok d) /\
  ((forall p, o = Some p -> s_name p <> B# "base") -> base_done (cs_base u)).

Lemma htons_u16 z : is_u16 z -> is_u16 (htons z).
Proof.
  unfold is_u16, htons. intros H. pose proof (Z.mod_pos_bound z 256). 
  assert (0 <= z / 256 < 256) by (split; [apply Z.div_pos; lia|apply Z.div_lt_upper_bound; lia]). lia.
Qed.

Lemma sections_cases p : p ∈ sections -> p = base_conf_section \/ p = redsocks_conf_section release.
Proof. unfold conf_sections, parser_add_section. set_solver. Qed.

Lemma base_entry_range e v u :
  e ∈ base_entries -> typed (e_type e) v -> base_range (cs_base u) ->
  exists u', e_addr e v u = Some u' /\ base_range (cs_base u') /\
    cs_data u' = cs_data u /\ cs_instances u' = cs_instances u.
Proof.
  intros He Ht [H1 H2 H3 H4]. unfold base_entries in He.
  repeat (apply elem_of_cons in He as [->|He]; [eexists; split; [reflexivity|]; cbn in Ht |-*;
    split; [split; cbn; try assumption; destruct v; try done; exact Ht|done]|]).
  now apply not_elem_of_nil in He.
Qed.

Lemma redsocks_entry_ok e v u d :
  e ∈ redsocks_entries -> typed (e_type e) v -> cs_data u = Some d -> cfg_ok d ->
  exists d', e_addr e v u = Some (ConfigState (cs_base u) (Some d') (cs_instances u)) /\ cfg_ok d'.
Proof.
  intros He Ht Hd [H1 H2 H3 H4 H5]. unfold redsocks_entries in He.
  repeat (apply elem_of_cons in He as [->|He]; [eexists; split;
    [cbn; rewrite Hd; reflexivity|]; cbn in Ht |-*;
    split; cbn; try assumption; destruct v; try done; try exact Ht; now apply htons_u16|]).
  now apply not_elem_of_nil in He.
Qed.

Lemma pwp_error_fails {U A} (a : A) Q (c : parser_context U) F :
  Q a (set_error true c) -> pwp F (pbind parser_error (fun _ => pret a)) Q c.
Proof. done. Qed.

(** A section that reports an error. *)
Local Ltac fails :=
  apply pwp_error_fails; split; [solve [auto with s2p | now split]|now left].

Lemma base_onenter_ok c :
  sections_inv None (c_user c) ->
  pwp (fun _ => False) base_onenter (fun r c' => called c c' /\
    (r = -1 \/ c_error c' = true \/ sections_inv (Some base_conf_section) (c_user c'))) c.
Proof.
  intros (Hr & Hi & _ & Hd). apply pwp_bind, pwp_gets.
  destruct (configured (cs_base (c_user c))).
  - fails.
  - apply pwp_bind, pwp_bind, pwp_gets, pwp_modify, pwp_ret. split; [auto with s2p|].
    right. right. split; [|split; [exact Hi|split]].
    + split; cbn; unfold is_u32; lia.
    + intros p [= <-] H. discriminate H.
    + intros H. now destruct (H _ eq_refl).
Qed.

Lemma base_onexit_ok c :
  sections_inv (Some base_conf_section) (c_user c) ->
  pwp (fun _ => False) base_onexit (fun r c' => called c c' /\
    (r = -1 \/ c_error c' = true \/ sections_inv None (c_user c'))) c.
Proof.
  intros (Hr & Hi & _ & _). unfold base_onexit. apply pwp_bind, pwp_gets. cbv zeta.
  destruct (max_backoff_ms (cs_base (c_user c)) =? 0) eqn:E0; [fails|].
  destruct (redirector_name _) as [name|]; [|fails].
  destruct (find_name _ name) as [ss|]; [|fails].
  apply pwp_bind, pwp_bind, pwp_gets, pwp_modify, pwp_ret. split; [auto with s2p|].
  right. right. split; [|split; [exact Hi|split; [done|]]].
  - destruct Hr. now split.
  - intros _ _. cbn. split; [|done]. apply Z.eqb_neq in E0. exact E0.
Qed.

Lemma redsocks_onenter_ok c :
  sections_inv None (c_user c) ->
  pwp (fun _ => False) (redsocks_onenter release) (fun r c' => called c c' /\
    (r = -1 \/ c_error c' = true \/
     sections_inv (Some (redsocks_conf_section release)) (c_user c'))) c.
Proof.
  intros (Hr & Hi & _ & Hd). apply pwp_bind, pwp_malloc. intros ok c1 Hs.
  pose proof (same_called _ _ Hs) as Hc. destruct Hs as [s ->]. destruct ok; cbn [negb].
  - apply pwp_bind, pwp_gets, pwp_bind, pwp_modify, pwp_ret.
    split; [exact (called_trans _ _ _ Hc (user_called _ _))|].
    right. right. split; [exact Hr|]. split; [exact Hi|]. split.
    + intros p [= <-] _. eexists. split; [reflexivity|].
      split; cbn; unfold is_u16, is_u32, INADDR_LOOPBACK, SOMAXCONN; lia.
    + intros _. now apply Hd.
  - apply pwp_error_fails. split; [exact (called_trans _ _ _ Hc (error_called _))|now left].
Qed.

Lemma redsocks_onexit_ok c :
  sections_inv (Some (redsocks_conf_section release)) (c_user c) ->
  pwp (fun _ => False) redsocks_onexit (fun r c' => called c c' /\
    (r = -1 \/ c_error c' = true \/ sections_inv None (c_user c'))) c.
Proof.
  intros (Hr & Hi & Hdata & Hd). destruct (Hdata _ eq_refl eq_refl) as (d & Ed & [H1 H2 H3 H4 H5]).
  assert (base_done (cs_base (c_user c))) as Hb by (apply Hd; intros p [= <-] H; discriminate H).
  unfold redsocks_onexit. apply pwp_bind, pwp_gets. rewrite Ed. cbv zeta. apply pwp_bind, pwp_modify.
  set (d' := with_relayaddr _ _). assert (cfg_ok d') as Hok.
  { split; cbn; auto using htons_u16. }
  clearbody d'.
  destruct (cfg_type d') as [t|] eqn:Et; [|fails].
  destruct (find_name relay_names t) as [ss|] eqn:Ess; [|fails].
  apply pwp_bind, pwp_modify.
  destruct (_ && _) eqn:E1; [fails|].
  destruct (negb (bool_decide (on_proxy_fail d' = _)) && _) eqn:E2; [fails|].
  apply pwp_ret. split; [now split|]. right. right.
  assert (forall a b, negb a && negb b = false -> a = true \/ b = true) as Hab
    by (intros [] [] H; auto; discriminate H).
  apply Hab in E1, E2. rewrite !bool_decide_eq_true in E1, E2.
  split; [exact Hr|]. split; [|now split].
  constructor; [|exact Hi]. split; cbn; [done|eauto|tauto|tauto].
Qed.

#[export] Instance conf_sections_ok : SectionsOk sections sections_inv.
Proof.
  split.
  - intros p m c Hp. destruct (sections_cases _ Hp) as [->| ->]; intros [= <-].
    + apply base_onenter_ok.
    + apply redsocks_onenter_ok.
  - intros p m c Hp. destruct (sections_cases _ Hp) as [->| ->]; intros [= <-].
    + apply base_onexit_ok.
    + apply redsocks_onexit_ok.
  - intros p u Hp. now destruct (sections_cases _ Hp) as [->| ->].
  - intros p u Hp. now destruct (sections_cases _ Hp) as [->| ->].
  - intros p e v u Hp He Ht (Hr & Hi & Hdata & Hd).
    destruct (sections_cases _ Hp) as [->| ->].
    + destruct (base_entry_range e v u He Ht Hr) as (u' & E & Hr' & _ & Ei).
      exists u'. split; [done|]. split; [done|]. split; [now rewrite Ei|]. split.
      * intros p [= <-] H. discriminate H.
      * intros H. now destruct (H _ eq_refl).
    + destruct (Hdata _ eq_refl eq_refl) as (d & Ed & Hok).
      destruct (redsocks_entry_ok e v u d He Ht Ed Hok) as (d' & E & Hok').
      eexists. split; [exact E|]. split; [exact Hr|]. split; [exact Hi|]. split; [|exact Hd].
      intros p _ _. eauto.
Qed.

End Facts.

(** ** Starting up *)

Section Start.
Context (F : fault -> Prop).

Lemma pwp_call_ok needed (Q : bool -> parser_context config_state -> Prop) c :
  (forall b c', c_user c' = c_user c -> Q b c') -> pwp F (call_ok needed) Q c.
Proof.
  intros H. unfold call_ok. destruct needed; [|now apply pwp_ret, H].
  apply pwp_bind, pwp_sys. intros r c' [s ->]. now apply pwp_ret, H.
Qed.

Lemma u32_div_range z d : is_u32 z -> 1 <= d -> is_u32 (z / d).
Proof.
  unfold is_u32. intros H Hd. split; [apply Z.div_pos; lia|].
  apply Z.div_lt_upper_bound; [lia|]. nia.
Qed.

Lemma default_conn_max_range n b : is_u32 (default_conn_max n b).
Proof. apply u32_div_range; [apply u32_range|destruct b; lia]. Qed.

(** What [base_init] leaves behind when it succeeds. *)
Definition started (u u' : config_state) : Prop :=
  base_range (cs_base u') /\ max_backoff_ms (cs_base u') = max_backoff_ms (cs_base u) /\
  cs_instances u' = cs_instances u.

Lemma base_limits_ok c :
  base_range (cs_base (c_user c)) ->
  pwp F base_limits (fun _ c' => started (c_user c) (c_user c')) c.
Proof.
  intros [H1 H2 H3 H4]. unfold base_limits. apply pwp_bind, pwp_gets. cbv zeta.
  set (u := c_user c) in *. apply pwp_bind, pwp_call_ok. intros b c1 E1. fold u in E1.
  destruct b; cbn [negb]; [|apply pwp_ret; rewrite E1; now split].
  apply pwp_bind. eapply pwp_mono with (Q1 := fun n c' => is_u32 n /\ c_user c' = u).
  { destruct (negb _); [now apply pwp_ret|].
    apply pwp_bind, pwp_sys. intros r c2 [s ->]. apply pwp_ret. split; [apply u32_range|exact E1]. }
  intros n c2 [Hn E2]. apply pwp_bind, pwp_bind, pwp_gets, pwp_modify, pwp_ret. rewrite E2.
  unfold started. cbn. destruct (conn_max (cs_base u) =? 0); cbn; (split; [|done]); split; cbn;
    auto using default_conn_max_range.
Qed.

(** A system call of [base_init], which gives up when it fails. *)
Lemma pwp_guard needed (fail k : P config_state init_result) Q u c :
  c_user c = u -> (forall c', pwp F fail Q c') -> (forall c', c_user c' = u -> pwp F k Q c') ->
  pwp F (pbind (call_ok needed) (fun ok => if negb ok then fail else k)) Q c.
Proof.
  intros Hu Hf Hk. apply pwp_bind, pwp_call_ok. intros [] c' E; cbn [negb]; [|apply Hf].
  apply Hk. now rewrite E.
Qed.

Lemma base_init_ok c :
  base_range (cs_base (c_user c)) -> base_done (cs_base (c_user c)) ->
  pwp F base_init (fun r c' => r = init_returned 0 ->
    started (c_user c) (c_user c') /\ configured (cs_base (c_user c)) = true) c.
Proof.
  intros Hr Hd. unfold base_init. apply pwp_bind, pwp_gets. cbv zeta.
  remember (c_user c) as u eqn:Eu. symmetry in Eu.
  destruct (configured (cs_base u)) eqn:Ec; cbn [negb]; [|now apply pwp_ret].
  destruct (Hd Ec) as [_ Hred]. destruct (redirector (cs_base u)) as [ss|]; [|done].
  set (fail := pbind base_fini _). set (Q := fun (r : init_result) c' => _).
  assert (forall c', pwp F fail Q c') as Hfail by done.
  do 3 (apply (pwp_guard _ _ _ _ u); [done|done|]; clear dependent c; intros c Eu).
  apply pwp_bind. eapply pwp_mono; [apply base_limits_ok; now rewrite Eu|]. rewrite Eu.
  intros [] c1 Hst; cbn [negb]; [|done].
  remember (c_user c1) as u1 eqn:E1. symmetry in E1. clear dependent c. rename c1 into c.
  do 5 (apply (pwp_guard _ _ _ _ u1); [done|done|]; clear dependent c; intros c E1).
  apply pwp_bind. eapply pwp_mono with (Q1 := fun _ c' => c_user c' = u1).
  { destruct (daemon _); [|done]. apply pwp_sys. now intros r c' [s ->]. }
  clear dependent c. intros pid c E1. destruct (pid <? 0); [done|]. destruct (0 <? pid); [done|].
  apply pwp_bind. eapply pwp_mono with (Q1 := fun _ c' => c_user c' = u1).
  { destruct (daemon _); [|done]. unfold base_detach.
    do 4 (apply pwp_bind, pwp_call_ok; intros ? ? ?). apply pwp_ret. congruence. }
  clear dependent c. intros [] c E1; cbn [negb]; [|done].
  apply pwp_ret. intros _. now rewrite E1.
Qed.

End Start.

(** ** The theorems *)

Definition config_start : config_state := ConfigState base_zero None [].

Lemma config_start_ok : sections_inv None config_start.
Proof.
  split; [split; cbn; unfold is_u32; lia|]. split; [constructor|]. split; [done|]. now intros _.
Qed.

Lemma parser_start_empty {U} file ferr script (u : U) c :
  parser_start file ferr script u = Some c ->
  buf_ok c /\ c_data c = [] /\ c_user c = u /\ c_rest c = file.
Proof.
  unfold parser_start, malloc, pbind, psys, pret, buf_ok. cbn [c_script].
  destruct script as [|r1 [|r2 s]]; cbn; repeat case_match; intros [= <-]; cbn; done || lia.
Qed.

Lemma parser_run_safe getaddrinfo release file ferr script c :
  ResolverOk getaddrinfo -> parser_start file ferr script config_start = Some c ->
  pwp lone_semicolon (parser_run getaddrinfo (conf_sections release)) (fun r c' =>
    r = -1 \/ (r = 0 /\ c_error c' = false /\ c_eof c' = true /\ sections_inv None (c_user c'))) c.
Proof.
  intros GR Hc. destruct (parser_start_empty _ _ _ _ _ Hc) as (Hb & Hd & Hu & _).
  apply wp_parser_run; [done|apply conf_sections_ok|done|done|]. rewrite Hu. apply config_start_ok.
Qed.


(** What [redsocks.c] relies on holds once the configuration was accepted and
    [base_init] succeeded: the limits of [base.c] meet [BaseConfigOk], and every
    instance has a relay subsystem named by its type, 16-bit ports, and uses
    [disclose_src] and [on_proxy_fail] with [http-connect] only. *)
Lemma accepted_config_ok (getaddrinfo : list Z -> option (list Z)) (release : option (list Z))
    (file : list Z) (ferr : bool) (script : list Z) (c c1 c2 : parser_context config_state) :
  ResolverOk getaddrinfo ->
  parser_start file ferr script config_start = Some c ->
  parser_run getaddrinfo (conf_sections release) c = POk 0 c1 ->
  base_init c1 = POk (init_returned 0) c2 ->
  BaseConfigOk (BC := base_config (cs_base (c_user c2))) /\
  Forall inst_ok (cs_instances (c_user c2)).
Proof.
  intros GR Hc Hrun Hinit. pose proof (parser_run_safe getaddrinfo release _ _ _ c GR Hc) as H.
  unfold pwp in H. rewrite Hrun in H.
  destruct H as [H|(_ & _ & _ & Hr & Hi & _ & Hdone)]; [done|].
  pose proof (base_init_ok (fun _ => True) c1 Hr (Hdone ltac:(done))) as H. unfold pwp in H.
  rewrite Hinit in H. destruct (H eq_refl) as [([H1 H2 H3 H4] & Hms & Ei) Ec].
  destruct (Hdone ltac:(done) Ec) as [Hne _]. unfold is_u32 in *.
  split; [split; cbn; lia|now rewrite Ei].
Qed.

(** ** What an accepted file means *)

Section Meaning.
Context (release : option (list Z)).

(** Entering a section: [base] once, with its defaults; [redsocks] always. *)
Definition conf_enter (p : parser_section config_state) (u : config_state) : option config_state :=
  if strcmp_eq (s_name p) (B# "base") then
    if configured (cs_base u) then None
    else Some (ConfigState
      (Base true None None None None None None false false false 0 0 0 0 0 7440 60000)
      (cs_data u) (cs_instances u))
  else
    let sa := SockAddr AF_INET 0 INADDR_LOOPBACK in
    Some (ConfigState (cs_base u)
      (Some (Config sa sa None None None SOMAXCONN (is_splice_good release) DISCLOSE_NONE ONFAIL_CLOSE))
      (cs_instances u)).

Definition leave_base (u : config_state) : option config_state :=
  let b := cs_base u in
  if max_backoff_ms b =? 0 then None
  else
    name ← redirector_name b; ss ← find_name redirector_subsystems name;
    Some (ConfigState (with_redirector (fun _ => Some ss) b) (cs_data u) (cs_instances u)).

(** The ports are those written in the file. *)
Definition leave_redsocks (u : config_state) : option config_state :=
  d ← cs_data u;
  let d := with_relayaddr (with_sin_port htons) (with_bindaddr (with_sin_port htons) d) in
  t ← cfg_type d; ss ← find_name relay_names t;
  if (bool_decide (disclose_src d = DISCLOSE_NONE) && bool_decide (on_proxy_fail d = ONFAIL_CLOSE))
     || bool_decide (ss = http_connect_subsys)
  then Some (ConfigState (cs_base u) None ((ss, d) :: cs_instances u)) else None.

Definition conf_leave (p : parser_section config_state) (u : config_state) : option config_state :=
  if strcmp_eq (s_name p) (B# "base") then leave_base u else leave_redsocks u.

#[export] Instance conf_meaning : Meaning (conf_sections release) conf_enter conf_leave.
Proof.
  split; intros p u u' Hp; destruct (sections_cases release p Hp) as [->| ->]; intros E.
  - exists base_onenter. split; [done|]. intros c Hc. change (conf_enter base_conf_section u) with
      (if configured (cs_base u) then None else conf_enter base_conf_section (ConfigState base_zero (cs_data u) (cs_instances u))) in E.
    unfold base_onenter, put_base, put_user, get_user, pbind. cbn [pgets c_user set_user].
    destruct (configured (cs_base u)); [discriminate E|]. injection E as <-. done.
  - exists (redsocks_onenter release). split; [done|]. intros c Hc. injection E as <-.
    unfold redsocks_onenter, pbind. now rewrite malloc_ok.
  - exists base_onexit. split; [done|]. intros c Hc. change (leave_base u = Some u') in E.
    unfold leave_base in E. unfold base_onexit, put_base, put_user, get_user, pbind.
    cbn [pgets c_user set_user].
    destruct (max_backoff_ms (cs_base u) =? 0); [discriminate E|].
    destruct (redirector_name (cs_base u)) as [name|]; [|discriminate E]. cbn [mbind option_bind] in E.
    destruct (find_name redirector_subsystems name) as [ss|]; [|discriminate E].
    injection E as <-. done.
  - exists redsocks_onexit. split; [done|]. intros c Hc. change (leave_redsocks u = Some u') in E.
    unfold leave_redsocks in E. unfold redsocks_onexit, put_user, get_user, pbind.
    cbn [pgets c_user set_user].
    destruct (cs_data u) as [d|]; [|discriminate E]. cbn [mbind option_bind] in E. cbv zeta in *.
    set (d' := with_relayaddr _ _) in *. clearbody d'. rename d' into d0.
    destruct (cfg_type d0) as [t|]; [|discriminate E]. cbn [mbind option_bind] in E.
    destruct (find_name relay_names t) as [ss|]; [|discriminate E]. cbn [mbind option_bind] in E.
    cbn [pmodify].
    destruct (bool_decide (disclose_src d0 = _)), (bool_decide (on_proxy_fail d0 = _)),
      (bool_decide (ss = _)); cbn [andb orb negb] in *; try discriminate E; injection E as <-; done.
Qed.

End Meaning.


(** ** Witnesses *)

Definition no_resolver : list Z -> option (list Z) := fun _ => None.

Lemma no_resolver_ok : ResolverOk no_resolver.
Proof. now split. Qed.

(** A configuration with both sections, a long quoted value and an escape. *)
Definition demo_config : list (list Z * list assignment) :=
  [(B# "base", [(B# "log_debug", B# "on"); (B# "redirector", B# "iptables");
                (B# "max_accept_backoff", B# "250")]);
   (B# "redsocks", [(B# "local_port", B# "31338"); (B# "ip", B# "10.0.0.1"); (B# "port", B# "1080");
                    (B# "type", B# "socks5"); (B# "login", [97; 34; 10; 92] ++ repeat 120 300)])].

Definition demo_ctx : parser_context config_state :=
  Ctx (print_config demo_config) false false 128 [] 0 false [] config_start.




Definition run_demo : presult config_state Z :=
  parser_run no_resolver (conf_sections (Some (B# "3.10.1"))) demo_ctx.
Definition context_of {A} (r : presult config_state A) : parser_context config_state :=
  match r with POk _ c => c | PFault _ c => c | PFuel c => c end.

Lemma accepted_config_ok_witness :
  BaseConfigOk (BC := base_config (cs_base (c_user (context_of (base_init (context_of run_demo)))))) /\
  Forall inst_ok (cs_instances (c_user (context_of (base_init (context_of run_demo))))).
Proof.
  apply (accepted_config_ok no_resolver (Some (B# "3.10.1")) (print_config demo_config) false []
    demo_ctx (context_of run_demo)).
  - exact no_resolver_ok.
  - reflexivity.
  - vm_compute. reflexivity.
  - vm_compute. reflexivity.
Defined.

(** ** Findings *)

Definition run_text (file : list Z) : presult config_state Z :=
  parser_run no_resolver (conf_sections None) (Ctx file false false 128 [] 0 false [] config_start).

(** A semicolon that ends no assignment makes the parser fail an assertion
    instead of reporting an error. *)
Lemma lone_semicolon_aborts :
  match run_text ((B# "redsocks { ; }") ++ [10]) with
  | PFault f _ => f = AssertFailed 617
  | _ => False
  end.
Proof. vm_compute. reflexivity. Qed.

(** A quoted value that is the text of a punctuation token is taken for the
    punctuation: the password [";"] is no value, and the file is refused. *)
Lemma quoted_punctuation_is_syntax :
  match run_text ((B# "redsocks { type = socks5; password = ") ++ print_quoted (B# ";") ++ (B# "; }") ++ [10]) with
  | POk r c => r = -1 /\ cs_instances (c_user c) = []
  | _ => False
  end.
Proof. vm_compute. split; reflexivity. Qed.
