(* ===== verification/RedHandlers.v ===== *)
(** * Every handler keeps its client or drops it

    The judgement of [RedFrame] for the error callback, the two pumps and the
    SOCKS and HTTP CONNECT upstreams. *)

From S2P Require Import Prelude RedWorld RedCore RedRelay RedLogic RedFrame Socks4 Socks5.
From S2P Require Import HttpConnect HttpRelay.

Open Scope Z_scope.
Open Scope red_scope.

Section Handlers.
Context `{BC : BaseConfig}.

(** Continues after a step that may have dropped the client: what is left either
    returns or touches the client, which is a fault. *)
Lemma handler_bind {A B} c (m : M A) (k : A -> M B) :
  handler c m -> (forall a, handler c (k a)) ->
  (forall a w, w_clients w !! c = None ->
     wp any (k a) (fun _ w' => exists fds, quiet fds w w') w) ->
  handler c (bind m k).
Proof.
  intros Hm Hk Hd. eapply does_bind; [exact Hm|intros a _; exact (Hk a)|].
  intros a w HI Hw. eapply wp_mono; [exact (Hd a w Hw)|]. auto.
Qed.

Lemma get_client_dropped {A} c (k : redsocks_client -> M A) w Q :
  w_clients w !! c = None -> wp any (let! x := get_client c in k x) Q w.
Proof. intros Hw. apply wp_bind, wp_get_client; [congruence|done]. Qed.

Lemma handler_event_error c s what : handler c (redsocks_event_error c s what).
Proof.
  unfold redsocks_event_error. frames. cbv zeta.
  apply handler_bind; [frames|frames|]. intros _ w Hw. now apply get_client_dropped.
Qed.

(** ** Pumps *)

Lemma keeps_move_input c f t : keeps c (move_input c f t).
Proof. unfold move_input. frames. Qed.

#[local] Hint Resolve keeps_move_input : frames.

Lemma handler_relay_readcb c f t : handler c (redsocks_relay_readcb c f t).
Proof. unfold redsocks_relay_readcb. frames. Qed.

Lemma handler_relay_writecb c f t : handler c (redsocks_relay_writecb c f t).
Proof. unfold redsocks_relay_writecb. frames. Qed.

#[local] Hint Resolve handler_relay_readcb handler_relay_writecb : frames.

Lemma handler_relayreadcb c : handler c (redsocks_relay_relayreadcb c).
Proof. unfold redsocks_relay_relayreadcb. frames. Qed.

Lemma handler_relaywritecb c : handler c (redsocks_relay_relaywritecb c).
Proof. unfold redsocks_relay_relaywritecb. frames. Qed.

Lemma handler_clientreadcb c : handler c (redsocks_relay_clientreadcb c).
Proof. unfold redsocks_relay_clientreadcb. frames. Qed.

Lemma handler_clientwritecb c : handler c (redsocks_relay_clientwritecb c).
Proof. unfold redsocks_relay_clientwritecb. frames. Qed.

Lemma keeps_start_bufferpump c : keeps c (redsocks_start_bufferpump c).
Proof. unfold redsocks_start_bufferpump, setwatermark_rdwr. frames. Qed.

Lemma keeps_free_unused c s : keeps c (bufferevent_free_unused c s).
Proof. unfold bufferevent_free_unused. frames. Qed.

#[local] Hint Resolve keeps_free_unused keeps_start_bufferpump : frames.

Lemma keeps_touch_pump c : keeps c (redsocks_touch_pump c).
Proof. unfold redsocks_touch_pump. frames. Qed.

#[local] Hint Resolve keeps_touch_pump : frames.

(** A write attempt drops the client or says where to go on. *)
Definition alive (st : wstep) : bool := match st with s_dropped => false | _ => true end.

Lemma does_after_write c avail sent : does c (after_write c avail sent) (fun st b => b = alive st).
Proof. unfold after_write. frames. Qed.

Lemma does_write_ebsrc c s o : does c (write_ebsrc c s o) (fun st b => b = alive st).
Proof. unfold write_ebsrc, sys_write. pose proof does_after_write. destruct o; frames; auto. Qed.

Lemma does_write_pisrc c s : does c (write_pisrc c s) (fun st b => b = alive st).
Proof. unfold write_pisrc, sys_write. pose proof does_after_write. frames; auto. Qed.

(** A result that tells whether the client is still there. *)
Lemma does_bind_bool {A} c (m : M A) (k : A -> M unit) (f : A -> bool) :
  does c m (fun a b => b = f a) ->
  (forall a, f a = true -> handler c (k a)) ->
  (forall a, f a = false -> k a = ret tt) ->
  handler c (bind m k).
Proof.
  intros Hm Hk Hd. eapply does_bind; [exact Hm| |].
  - intros a Ha. now apply Hk.
  - intros a w Ha _. rewrite (Hd a) by auto. split; [done|]. eexists. apply quiet_refl.
Qed.

Lemma does_shut_splice c s (x : redsocks_client) cw hd :
  does c
    (if negb hd && negb (Z.land (evshut_of (anti s) x) EV_READ =? 0)
        && (Z.land (evshut_of s x) EV_WRITE =? 0) then
       let! _ := sys in
       upd_client c (with_evshut s (fun e => Z.lor e EV_WRITE)) ;;
       assert_ 467 (p_size (pipe_to s (pump x)) =? 0) ;;
       redsocks_close (p_read (pipe_to s (pump x))) ;;
       upd_client c (with_pump (with_pipe_to s (with_p_read (fun _ => -1)))) ;;
       redsocks_close (p_write (pipe_to s (pump x))) ;;
       upd_client c (with_pump (with_pipe_to s (with_p_write (fun _ => -1)))) ;;
       let! x := get_client c in
       if shut_both x then redsocks_drop_client c ;; ret None else ret (Some false)
     else ret (Some cw)) (fun r b => b = bool_decide (is_Some r)).
Proof. frames. Qed.

Lemma handler_splice_decide c s cw hd : handler c (splice_decide c s cw hd).
Proof.
  unfold splice_decide. apply keeps_bind; [frames|]. intros x.
  eapply does_bind_bool; [apply does_shut_splice|..].
  - frames.
  - intros [b|] H; [done|reflexivity].
Qed.

#[local] Hint Resolve handler_splice_decide : frames.

Lemma handler_redsplice_write_cb c s : handler c (redsplice_write_cb c s).
Proof.
  unfold redsplice_write_cb.
  eapply does_bind_bool; [apply does_write_ebsrc|intros [] _; frames|now intros []].
  eapply does_bind_bool; [apply does_write_ebsrc|intros [] _; frames|now intros []].
  eapply does_bind_bool; [apply does_write_pisrc|intros [] _; frames|now intros []].
Qed.

Lemma handler_redsplice_read_cb c s : handler c (redsplice_read_cb c s).
Proof. unfold redsplice_read_cb. frames. Qed.

#[local] Hint Resolve handler_redsplice_write_cb handler_redsplice_read_cb : frames.

Lemma handler_redsplice_read c s : handler c (redsplice_read c s).
Proof. unfold redsplice_read. frames. Qed.

Lemma handler_redsplice_write c s : handler c (redsplice_write c s).
Proof. unfold redsplice_write. frames. Qed.

Lemma keeps_chain c l : Forall (keeps c) l -> keeps c (chain l).
Proof.
  induction 1 as [|m l Hm Hl IH]; cbn [chain]; [now apply does_ret|].
  apply keeps_bind; [done|]. intros e. destruct (e =? 0); [done|now apply does_ret].
Qed.

Lemma keeps_pipe2 c s : keeps c (pipe2 c s).
Proof. unfold pipe2. frames. Qed.

Lemma keeps_event_assign c upd fd : keeps c (event_assign c upd fd).
Proof. unfold event_assign. frames. Qed.

Lemma keeps_dropfd c s : keeps c (redsocks_bufferevent_dropfd c s).
Proof. unfold redsocks_bufferevent_dropfd. frames. Qed.

#[local] Hint Resolve keeps_pipe2 keeps_event_assign keeps_dropfd : frames.
#[local] Hint Extern 2 (keeps _ (chain _)) => apply keeps_chain; repeat constructor; frames
  : frames.

Lemma keeps_start_splicepump c : keeps c (redsocks_start_splicepump c).
Proof. unfold redsocks_start_splicepump. frames. Qed.

#[local] Hint Resolve keeps_start_splicepump : frames.

Lemma handler_start_relay c : handler c (redsocks_start_relay c).
Proof. unfold redsocks_start_relay. frames. Qed.

End Handlers.

#[export] Hint Resolve handler_start_relay handler_event_error handler_relayreadcb
  handler_relaywritecb handler_clientreadcb handler_clientwritecb handler_redsplice_read
  handler_redsplice_write : frames.

(** ** Upstreams *)

Section Upstreams.
Context `{BC : BaseConfig}.

(** The two helpers at the end of a handler. *)
Lemma handler_write_helper c mk state wm :
  (forall f, mk = Some f -> keeps c (f c)) ->
  handler c (let! _ := redsocks_write_helper c mk state wm in ret tt).
Proof.
  intros Hmk. eapply does_then_ret; [apply does_write_helper_ex, Hmk|done].
Qed.

Lemma handler_read_expected c cmp n k :
  (forall d, handler c (k d)) ->
  handler c (let! r := redsocks_read_expected c cmp n in
             match r with None => ret tt | Some d => k d end).
Proof.
  intros Hk. eapply does_bind_bool; [apply does_read_expected|..].
  - intros [d|] H; [apply Hk|done].
  - now intros [d|] H.
Qed.

Ltac upstream := repeat first
  [ progress frames
  | apply handler_write_helper; intros ? [= <-]; frames
  | apply handler_write_helper; intros ? [=]
  | apply handler_read_expected; intros ? ].

Lemma handler_socks4_write c : handler c (Socks4.socks4_write_cb c).
Proof. unfold Socks4.socks4_write_cb. upstream. unfold Socks4.socks4_mkconnect. frames. Qed.

Lemma handler_socks4_read c : handler c (Socks4.socks4_read_cb c).
Proof. unfold Socks4.socks4_read_cb. upstream. Qed.

Lemma keeps_socks5_mkmethods c : keeps c (Socks5.socks5_mkmethods c).
Proof. unfold Socks5.socks5_mkmethods. frames. Qed.

Lemma keeps_socks5_mkpassword c : keeps c (Socks5.socks5_mkpassword c).
Proof. unfold Socks5.socks5_mkpassword. frames. Qed.

Lemma keeps_socks5_mkconnect c : keeps c (Socks5.socks5_mkconnect c).
Proof. unfold Socks5.socks5_mkconnect. frames. Qed.

Lemma keeps_set_to_skip c n : keeps c (Socks5.set_to_skip c n).
Proof. unfold Socks5.set_to_skip. frames. Qed.

#[local] Hint Resolve keeps_socks5_mkmethods keeps_socks5_mkpassword keeps_socks5_mkconnect
  keeps_set_to_skip : frames.

Lemma handler_socks5_write c : handler c (Socks5.socks5_write_cb c).
Proof. unfold Socks5.socks5_write_cb. upstream. Qed.

Lemma handler_socks5_read c : handler c (Socks5.socks5_read_cb c).
Proof.
  unfold Socks5.socks5_read_cb, Socks5.socks5_read_auth_methods, Socks5.socks5_read_auth_reply,
    Socks5.socks5_read_reply.
  upstream.
Qed.

(** *** HTTP CONNECT *)

Lemma keeps_readline c s : keeps c (HttpConnect.redsocks_evbuffer_readline c s).
Proof. unfold HttpConnect.redsocks_evbuffer_readline. frames. Qed.

Lemma keeps_evbuffer_add c b d : keeps c (HttpConnect.evbuffer_add b d).
Proof. unfold HttpConnect.evbuffer_add. frames. Qed.

Lemma keeps_set_state c st : keeps c (HttpConnect.set_state c st).
Proof. unfold HttpConnect.set_state. frames. Qed.

#[local] Hint Resolve keeps_readline keeps_evbuffer_add keeps_set_state : frames.

Lemma keeps_auth_header_loop fuel c : forall tee, keeps c (HttpConnect.auth_header_loop fuel c tee).
Proof. induction fuel as [|fuel IH]; intros tee; cbn [HttpConnect.auth_header_loop]; frames. Qed.

Lemma keeps_skip_headers fuel c : keeps c (HttpConnect.skip_headers fuel c).
Proof. induction fuel as [|fuel IH]; cbn [HttpConnect.skip_headers]; frames. Qed.

#[local] Hint Resolve keeps_auth_header_loop keeps_skip_headers : frames.

Lemma keeps_auth_request_header c tee : keeps c (HttpConnect.http_auth_request_header c tee).
Proof. unfold HttpConnect.http_auth_request_header. frames. Qed.

Lemma keeps_write_line c line : keeps c (HttpConnect.write_line_to_client c line).
Proof. unfold HttpConnect.write_line_to_client. frames. Qed.

Lemma keeps_httpc_auth c i d : keeps c (HttpConnect.httpc_auth i d).
Proof. unfold HttpConnect.httpc_auth. frames. Qed.

#[local] Hint Resolve keeps_auth_request_header keeps_write_line keeps_httpc_auth : frames.

Lemma keeps_httpc_mkconnect c : keeps c (HttpConnect.httpc_mkconnect c).
Proof. unfold HttpConnect.httpc_mkconnect, HttpConnect.and_then. frames. Qed.

Lemma handler_httpc_write c : handler c (HttpConnect.httpc_write_cb c).
Proof.
  unfold HttpConnect.httpc_write_cb. frames.
  eapply does_then_ret; [apply does_write_helper_ex|done].
  intros f [= <-]. apply keeps_httpc_mkconnect.
Qed.

(** The reply to a 407 either reconnects, which may drop the client, or goes on
    with the client connected. *)
Lemma does_auth_failed c e :
  does c (HttpConnect.auth_failed c e)
    (fun r b => match r with inl _ => b = true | inr _ => True end).
Proof.
  unfold HttpConnect.auth_failed. frames.
  eapply does_then_ret; [apply handler_connect_relay|done].
Qed.

Lemma does_first_line c e :
  does c (HttpConnect.httpc_first_line c e)
    (fun r b => match r with HttpConnect.p_returned => True | _ => b = true end).
Proof.
  unfold HttpConnect.httpc_first_line. do 2 (apply keeps_bind; [frames|]; intros ?).
  match goal with |- does c (match ?o with _ => _ end) _ => destruct o as [line|] end; [|frames].
  eapply (does_bind c _ _ (fun r b => match r with inl _ => b = true | inr _ => True end)).
  - destruct (HttpConnect.scan_status line) as [code|]; [|frames].
    destruct (code =? 407); [apply does_auth_failed|frames].
  - intros [tee|[]] _; frames.
  - intros [tee|[]] w H _; [done|]. split; [done|]. eexists. apply quiet_refl.
Qed.

Lemma handler_forward_error c tee : handler c (HttpConnect.httpc_forward_error c tee).
Proof.
  unfold HttpConnect.httpc_forward_error. frames.
  apply handler_bind; [frames| |].
  - frames. apply handler_bind; [frames|frames|]. intros _ w Hw. now apply get_client_dropped.
  - intros _ w Hw. now apply wp_bind, get_client_dropped.
Qed.

Lemma handler_httpc_tail c : handler c (HttpConnect.httpc_tail c).
Proof. unfold HttpConnect.httpc_tail. frames. Qed.

#[local] Hint Resolve handler_httpc_tail handler_forward_error : frames.

Lemma handler_httpc_read c : handler c (HttpConnect.httpc_read_cb c).
Proof.
  unfold HttpConnect.httpc_read_cb.
  do 4 (apply keeps_bind; [frames|]; intros ?). cbv zeta.
  eapply (does_bind c _ _ (fun r b =>
    match r with HttpConnect.p_returned => True | _ => b = true end)).
  - match goal with |- does c (if ?b then _ else _) _ => destruct b end;
      [apply does_first_line|frames].
  - intros p _. destruct p; frames.
    apply handler_bind; [apply does_when; [frames|done]|intros _; frames|].
    intros _ w Hw. now apply get_client_dropped.
  - intros [| |] w H _; [|done..]. split; [done|]. eexists. apply quiet_refl.
Qed.

(** *** HTTP relay *)

Import HttpRelay.

Lemma keeps_get_httpr c : keeps c (get_httpr c).
Proof. unfold get_httpr. frames. Qed.

Lemma keeps_upd_httpr c g : keeps c (upd_httpr c g).
Proof. unfold upd_httpr. frames. Qed.

Lemma keeps_buffer_init c : keeps c httpr_buffer_init.
Proof. unfold httpr_buffer_init. frames. Qed.

#[local] Hint Resolve keeps_get_httpr keeps_upd_httpr keeps_buffer_init : frames.

Lemma keeps_buffer_append c g u d : keeps c (httpr_buffer_append c g u d).
Proof. unfold httpr_buffer_append. frames. Qed.

#[local] Hint Resolve keeps_buffer_append : frames.

Lemma keeps_append_relay c d : keeps c (append_relay c d).
Proof. unfold append_relay. frames. Qed.

Lemma keeps_append_client c d : keeps c (append_client c d).
Proof. unfold append_client. frames. Qed.

#[local] Hint Resolve keeps_append_relay keeps_append_client : frames.

Lemma keeps_append_header c d : keeps c (httpr_append_header c d).
Proof. unfold httpr_append_header. frames. Qed.

Lemma keeps_httpr_headers fuel c : keeps c (httpr_headers fuel c).
Proof. induction fuel as [|fuel IH]; cbn [httpr_headers]; frames. Qed.

Lemma keeps_write_all c l : keeps c (write_all c l).
Proof. unfold write_all. apply keeps_fold. frames. Qed.

Lemma keeps_toss c : keeps c (httpr_toss_http_firstline c).
Proof.
  unfold httpr_toss_http_firstline. frames. apply keeps_bind; [|frames].
  apply keeps_fold. frames.
Qed.

#[local] Hint Resolve keeps_append_header keeps_httpr_headers keeps_write_all keeps_toss : frames.

Lemma keeps_request_line_step c line : keeps c (request_line_step c line).
Proof. unfold request_line_step. frames. Qed.

#[local] Hint Resolve keeps_request_line_step : frames.

Lemma does_request_loop fuel c :
  does c (request_loop fuel c) (fun r b => b = bool_decide (is_Some r)).
Proof. induction fuel as [|fuel IH]; cbn [request_loop]; frames; auto. Qed.

(** The result says whether the client was dropped, unless it reconnected. *)
Definition httpr_alive (r : option bool) (b : bool) : Prop :=
  match r with Some d => b = negb d | None => True end.

Lemma does_httpr_auth_failed c : does c (httpr_auth_failed c) httpr_alive.
Proof.
  unfold httpr_auth_failed. frames.
  - eapply does_then_ret; [apply handler_connect_relay|done].
  - eapply does_bind; [apply keeps_drop|done|done].
Qed.

Lemma does_httpr_first_line c : does c (httpr_first_line c) httpr_alive.
Proof. unfold httpr_first_line. pose proof (does_httpr_auth_failed c). frames. Qed.

Lemma handler_httpr_relay_read c : handler c (httpr_relay_read_cb c).
Proof.
  unfold httpr_relay_read_cb. do 5 (apply keeps_bind; [frames|]; intros ?).
  eapply (does_bind c _ _ httpr_alive).
  - match goal with |- does c (if ?b then _ else _) _ => destruct b end;
      [apply does_httpr_first_line|frames].
  - intros [[]|] H; frames.
  - intros [[]|] w H Hw; [|done|]; (split; [done|]; eexists; apply quiet_refl).
Qed.

Lemma does_httpr_auth c i f :
  does c (httpr_auth c i f) (fun r b => b = match r with inl _ => true | inr _ => false end).
Proof. unfold httpr_auth. frames. Qed.

Lemma handler_httpr_relay_write c : handler c (httpr_relay_write_cb c).
Proof.
  unfold httpr_relay_write_cb. frames.
  eapply does_bind_bool; [apply does_httpr_auth| |].
  - intros [au|]; [frames|done].
  - now intros [au|].
Qed.

Lemma handler_read_content_loop fuel c : handler c (read_content_loop fuel c).
Proof. induction fuel as [|fuel IH]; cbn [read_content_loop]; frames. Qed.

#[local] Hint Resolve handler_read_content_loop : frames.

Lemma handler_read_content c : handler c (httpr_client_read_content c).
Proof. unfold httpr_client_read_content. frames. Qed.

#[local] Hint Resolve handler_read_content : frames.

Lemma handler_httpr_client_read c : handler c (httpr_client_read_cb c).
Proof.
  unfold httpr_client_read_cb. frames.
  eapply does_bind_bool; [apply does_request_loop| |now intros [[]|]].
  intros [[]|] _; frames. apply handler_bind; [frames|frames|].
  intros _ w Hw. now apply get_client_dropped.
Qed.

Lemma handler_httpr_connect c : handler c (httpr_connect_relay c).
Proof. unfold httpr_connect_relay. frames. Qed.

End Upstreams.

#[export] Hint Resolve handler_socks4_write handler_socks4_read handler_socks5_write
  handler_socks5_read handler_httpc_write handler_httpc_read handler_httpr_relay_read
  handler_httpr_relay_write handler_httpr_client_read handler_httpr_connect : frames.
