(* ===== verification/RedMain.v ===== *)
(** * The redsocks process: [redsocks/redsocks.c]

    Accepting connections, the relay subsystems behind one interface, starting
    and stopping instances, and the event loop as a step relation: one libevent
    callback, or one action of the network, per step. *)

From S2P Require Import Prelude RedWorld RedCore RedRelay Socks4 Socks5 HttpConnect HttpRelay.
Import Socks4 Socks5 HttpConnect HttpRelay.

Open Scope Z_scope.
Open Scope red_scope.

(** ** Relay subsystems *)

(** [struct relay_subsys_t], without [fini], which [redsocks_drop_client] needs
    already. *)
Record relay_ops := RelayOps {
  ro_init : nat -> M unit;
  ro_readcb : nat -> M unit;
  ro_writecb : nat -> M unit;
  ro_connect_relay : option (nat -> M unit);
  ro_instance_init : option (nat -> M unit);
  ro_instance_fini : option (nat -> M unit);
}.

Section Main.
Context `{BC : BaseConfig}.

Definition ops_of (ss : relay_subsys) : relay_ops :=
  match ss with
  | http_connect_subsys =>
      RelayOps httpc_client_init httpc_read_cb httpc_write_cb None None (Some httpc_instance_fini)
  | http_relay_subsys =>
      RelayOps httpr_client_init httpr_relay_read_cb httpr_relay_write_cb
        (Some httpr_connect_relay) (Some (fun _ => ret tt)) (Some httpr_instance_fini)
  | socks4_subsys => RelayOps socks4_client_init socks4_read_cb socks4_write_cb None None None
  | socks5_subsys =>
      RelayOps socks5_client_init socks5_read_cb socks5_write_cb None (Some socks5_instance_init)
        None
  end.

(** The operations of the subsystem of client [c]. *)
Definition client_ops (c : nat) : M relay_ops :=
  let! x := get_client c in
  let! i := get_inst (c_instance x) in
  ret (ops_of (relay_ss i)).

Definition redsocks_relay_connected (c : nat) : M unit :=
  redsocks_touch_client c ;;
  let! _ := get_bev c Srelay in
  let! ok := red_is_socket_connected_ok in
  if negb ok then redsocks_drop_client c
  else
    let! o := client_ops c in
    upd_bev c Srelay (fun b =>
      with_writecb (fun _ => cb_subsys_write) (with_readcb (fun _ => cb_subsys_read) b)) ;;
    ro_writecb o c.

(** ** Accepting *)

Definition ENFILE : Z := 23.
Definition EMFILE : Z := 24.
Definition ENOBUFS : Z := 105.
Definition ENOMEM : Z := 12.

Definition read_sockaddr : M sockaddr_in :=
  let! port := sys in
  let! addr := sys in
  ret (SockAddr AF_INET (u16 port) (u32 addr)).

(** The zeroed client of [calloc], with the pump of a splice instance. *)
Definition new_client (i : nat) (splice : bool) (clientaddr destaddr : sockaddr_in)
  : redsocks_client :=
  let pipe := if splice then Pipe (-1) (-1) 0 else Pipe 0 0 0 in
  Client false i None None clientaddr destaddr 0 0 0 tv_zero tv_zero no_payload
    (Pump pipe pipe event_blank event_blank event_blank event_blank).

(** The checks between [accept] and the allocation of the client: the
    destination address, or [None] for [goto fail]. *)
Definition accept_checks (client_fd : Z) : M (option sockaddr_in) :=
  let! error := sys in (* getsockname *)
  if negb (error =? 0) then ret None
  else
    let! error := sys in (* getdestaddr *)
    if negb (error =? 0) then ret None
    else
      let! destaddr := read_sockaddr in
      let! error := fcntl_nonblock client_fd in
      if negb (error =? 0) then ret None
      else
        let! error := apply_tcp_keepalive client_fd in
        if negb (error =? 0) then ret None else ret (Some destaddr).

(** The rest of [redsocks_accept_client], once the client is allocated as [c]. *)
Definition accept_client_tail (i c : nat) (o : relay_ops) (client_fd : Z) : M unit :=
  let fail : M unit := redsocks_drop_client c ;; redsocks_close client_fd in
  ro_init o c ;;
  let! t := redsocks_gettimeofday in
  match t with
  | None => fail
  | Some t =>
      upd_client c (with_first_event (fun _ => t)) ;;
      redsocks_touch_client c ;;
      let! r := sys in (* bufferevent_new *)
      if negb (r =? 0) then fail
      else
        upd_client c (with_c_client (fun _ => Some (bufferevent_fresh client_fd cb_null cb_null))) ;;
        redsocks_conn_list_add i c ;;
        let! error := bufferevent_enable c Sclient EV_READ in
        if negb (error =? 0) then redsocks_drop_client c
        else match ro_connect_relay o with
             | Some connect => connect c
             | None => redsocks_connect_relay c
             end
  end.

Definition redsocks_accept_client (i : nat) : M unit :=
  let! conn := gets redsocks_conn in
  assert_ 1166 (conn <? redsocks_conn_max) ;;
  let! client_fd := sys in
  if client_fd =? -1 then
    let! e := sys in
    when ((e =? ENFILE) || (e =? EMFILE) || (e =? ENOBUFS) || (e =? ENOMEM)) conn_pressure
  else
    let! clientaddr := read_sockaddr in
    modify (with_accept_backoff_ms (fun _ => 0)) ;;
    let! d := accept_checks client_fd in
    match d with
    | None => redsocks_close client_fd
    | Some destaddr =>
        let! r := sys in (* calloc *)
        if negb (r =? 0) then redsocks_close client_fd
        else
          let! self := get_inst i in
          let! c := gets w_next in
          modify (with_w_next S) ;;
          modify (with_w_clients
            (fun m => <[c := new_client i (use_splice (config self)) clientaddr destaddr]> m)) ;;
          accept_client_tail i c (ops_of (relay_ss self)) client_fd
    end.

(** ** Instances *)

Definition redsocks_fini_instance (i : nat) : M unit :=
  let! x := get_inst i in
  for_each (i_clients x) redsocks_drop_client ;;
  match ro_instance_fini (ops_of (relay_ss x)) with Some f => f i | None => ret tt end ;;
  let! x := get_inst i in
  when (ev_init (listener x))
    (let! r := sys_ev in
     upd_listener i (event_del_ok r) ;;
     redsocks_close (ev_fd (listener x)) ;;
     upd_listener i (fun _ => event_blank)) ;;
  modify (with_instances (filter (fun k => k <> i))) ;;
  modify (with_w_inst (delete i)).

(** The checks up to [listen]: the descriptor, which [fail] closes. *)
Definition listen_socket : M (Z + Z) :=
  let! fd := sys in
  if fd =? -1 then ret (inr (-1))
  else
    let! error := sys in (* setsockopt *)
    if negb (error =? 0) then ret (inr fd)
    else
      let! error := sys in (* bind *)
      if negb (error =? 0) then ret (inr fd)
      else
        let! error := fcntl_nonblock fd in
        if negb (error =? 0) then ret (inr fd)
        else
          let! error := sys in (* listen *)
          if negb (error =? 0) then ret (inr fd) else ret (inl fd).

Definition redsocks_init_instance (i : nat) : M Z :=
  let! x := get_inst i in
  let! s := listen_socket in
  match s with
  | inr fd =>
      redsocks_fini_instance i ;;
      when (negb (fd =? -1)) (redsocks_close fd) ;;
      ret (-1)
  | inl fd =>
      upd_listener i (fun _ => Event true fd false false) ;;
      let! error := sys_ev in
      upd_listener i (event_add_ok error) ;;
      if negb (error =? 0) then redsocks_fini_instance i ;; ret (-1)
      else
        match ro_instance_init (ops_of (relay_ss x)) with Some f => f i | None => ret tt end ;;
        ret 0
  end.

Definition redsocks_fini : M unit :=
  let! is_ := gets instances in
  for_each is_ redsocks_fini_instance ;;
  let! conn := gets redsocks_conn in
  assert_ 1511 (conn =? 0).

(** Initialises the instances in order, up to the first failure. *)
Fixpoint init_instances (l : list nat) : M Z :=
  match l with
  | [] => ret 0
  | i :: l =>
      let! r := redsocks_init_instance i in
      if negb (r =? 0) then ret (-1) else init_instances l
  end.

Definition redsocks_init : M Z :=
  modify (with_redsocks_conn (fun _ => 0)) ;;
  let! r := sys in (* sigaction *)
  if r =? -1 then ret (-1)
  else
    let! r := sys_ev in (* signal_add *)
    if negb (r =? 0) then redsocks_fini ;; ret (-1)
    else
      let! is_ := gets instances in
      let! r := init_instances is_ in
      if negb (r =? 0) then redsocks_fini ;; ret (-1) else ret 0.

(** [redsocks_debug_dump]: the number of clients over the instances. *)
Definition redsocks_debug_dump : M unit :=
  let! is_ := gets instances in
  let! total := fold_m (fun acc i =>
                  let! x := get_inst i in
                  ret (u32 (acc + u32 (Z.of_nat (length (i_clients x)))))) is_ 0 in
  let! conn := gets redsocks_conn in
  assert_ 1350 (total =? conn).

Definition redsocks_has_splice_instance : M bool :=
  let! is_ := gets instances in
  fold_m (fun acc i => let! x := get_inst i in ret (acc || use_splice (config x))) is_ false.

(** ** The event loop *)

Inductive loop_event :=
  | ev_accept (i : nat)                    (** a listener is readable *)
  | ev_backoff                             (** the back-off timer fires *)
  | ev_readable (c : nat) (s : side)       (** read callback of a bufferevent *)
  | ev_writable (c : nat) (s : side)       (** write callback of a bufferevent *)
  | ev_failed (c : nat) (s : side) (what : Z)
  | ev_splice_read (c : nat) (s : side)
  | ev_splice_write (c : nat) (s : side)
  | ev_dump                                (** SIGUSR1 *)
  | net_input (c : nat) (s : side) (data : list Z)   (** bytes arrive *)
  | net_output (c : nat) (s : side) (n : nat).       (** bytes leave *)

Definition call (cb : evcb) (c : nat) : M unit :=
  match cb with
  | cb_null => ret tt
  | cb_subsys_read => let! o := client_ops c in ro_readcb o c
  | cb_subsys_write => let! o := client_ops c in ro_writecb o c
  | cb_relay_connected => redsocks_relay_connected c
  | cb_clientread => redsocks_relay_clientreadcb c
  | cb_clientwrite => redsocks_relay_clientwritecb c
  | cb_relayread => redsocks_relay_relayreadcb c
  | cb_relaywrite => redsocks_relay_relaywritecb c
  | cb_httpr_client_read => httpr_client_read_cb c
  end.

Definition handle (e : loop_event) : M unit :=
  match e with
  | ev_accept i => redsocks_accept_client i
  | ev_backoff => modify (with_accept_backoff_ev (fun _ => None)) ;; redsocks_accept_backoff
  | ev_readable c s => let! b := get_bev c s in call (readcb b) c
  | ev_writable c s => let! b := get_bev c s in call (writecb b) c
  | ev_failed c s what => redsocks_event_error c s what
  | ev_splice_read c s => redsplice_read c s
  | ev_splice_write c s => redsplice_write c s
  | ev_dump => redsocks_debug_dump
  | net_input c s data => upd_bev c s (with_be_input (fun i => i ++ data))
  | net_output c s n => upd_bev c s (with_be_output (drop n))
  end.

(** When libevent runs a callback. *)
Definition bev_ready (w : world) (c : nat) (s : side) (f : bufferevent -> bool) : bool :=
  match w_clients w !! c with
  | Some x => match bev_of s x with Some b => f b | None => false end
  | None => false
  end.

Definition has_bit (flags bit : Z) : bool := negb (Z.land flags bit =? 0).

Definition ready (w : world) (e : loop_event) : bool :=
  match e with
  | ev_accept i =>
      bool_decide (i ∈ instances w) &&
      match w_inst w !! i with Some x => ev_added (listener x) | None => false end
  | ev_backoff => bool_decide (is_Some (accept_backoff_ev w))
  | ev_readable c s =>
      bev_ready w c s (fun b => has_bit (be_enabled b) EV_READ &&
        (wm_read_low b <=? Z.of_nat (length (be_input b))) &&
        (0 <? Z.of_nat (length (be_input b))))
  | ev_writable c s =>
      bev_ready w c s (fun b => has_bit (be_enabled b) EV_WRITE &&
        (Z.of_nat (length (be_output b)) =? 0))
  | ev_failed c s _ => bev_ready w c s (fun _ => true)
  | ev_splice_read c s =>
      match w_clients w !! c with
      | Some x => ev_added (read_event s (pump x)) || ev_active (read_event s (pump x))
      | None => false
      end
  | ev_splice_write c s =>
      match w_clients w !! c with
      | Some x => ev_added (write_event s (pump x)) || ev_active (write_event s (pump x))
      | None => false
      end
  | ev_dump => true
  | net_input c s _ => bev_ready w c s (fun b => has_bit (be_enabled b) EV_READ)
  | net_output c s _ => bev_ready w c s (fun b => has_bit (be_enabled b) EV_WRITE)
  end.

(** One step: the environment picks its answers, then a ready event is handled. *)
Inductive step (w w' : world) : Prop :=
  Step e script (Hready : ready w e = true)
    (Hrun : handle e (with_w_script (fun _ => script) w) = Ret tt w').

End Main.
