(* ===== verification/RedSafety.v ===== *)
(** * Safety of the redsocks event loop

    The invariant of the process over all its steps, whatever the environment
    answers: the connection table is consistent, the counter is the number of
    clients and stays within its limit, and, with a working event backend, a
    listener is armed only below the limit. *)

From S2P Require Import Prelude RedWorld RedCore RedRelay Socks4 Socks5 HttpConnect HttpRelay.
From S2P Require Import RedLogic RedFrame RedPressure RedHandlers RedMain.

Open Scope Z_scope.
Open Scope red_scope.

(** What the core expects of a relay subsystem: its callbacks only touch their
    own client, and keep or drop it. *)
Class UpstreamOk `{BC : BaseConfig} (o : relay_ops) : Prop := {
  up_init : forall c, keeps c (ro_init o c);
  up_read : forall c, handler c (ro_readcb o c);
  up_write : forall c, handler c (ro_writecb o c);
  up_connect : forall c f, ro_connect_relay o = Some f -> handler c (f c);
}.

Section Safety.
Context `{BC : BaseConfig} {OK : BaseConfigOk}.

#[export] Instance http_connect_ok : UpstreamOk (ops_of http_connect_subsys).
Proof. constructor; cbn; [|frames..|done]. intros c. unfold HttpConnect.httpc_client_init. frames. Qed.

#[export] Instance http_relay_ok : UpstreamOk (ops_of http_relay_subsys).
Proof.
  constructor; cbn; [|frames..|intros c f [= <-]; frames].
  intros c. unfold HttpRelay.httpr_client_init, HttpRelay.httpr_buffer_init. frames.
Qed.

#[export] Instance socks4_ok : UpstreamOk (ops_of socks4_subsys).
Proof. constructor; cbn; [|frames..|done]. intros c. unfold Socks4.socks4_client_init. frames. Qed.

#[export] Instance socks5_ok : UpstreamOk (ops_of socks5_subsys).
Proof. constructor; cbn; [|frames..|done]. intros c. unfold Socks5.socks5_client_init. frames. Qed.

#[export] Instance upstreams_ok ss : UpstreamOk (ops_of ss).
Proof. destruct ss; apply _. Qed.

(** ** Callbacks of a client *)

Lemma keeps_client_ops c : keeps c (client_ops c).
Proof. unfold client_ops. frames. Qed.

(** Runs a callback of the subsystem of [c]. *)
Lemma handler_ops {A} c (f : relay_ops -> M A) :
  (forall ss, handler c (f (ops_of ss))) -> handler c (let! o := client_ops c in f o).
Proof.
  intros Hf. unfold client_ops. intros w Hw.
  apply wp_bind, wp_bind, wp_get_client; [|done]. intros x Hx.
  apply wp_bind, wp_get_inst, wp_ret. exact (Hf _ w Hw).
Qed.

Lemma handler_relay_connected c : handler c (redsocks_relay_connected c).
Proof.
  unfold redsocks_relay_connected, red_is_socket_connected_ok. frames.
  apply handler_ops. intros ss. apply keeps_bind; [frames|]. intros _. apply up_write.
Qed.

Lemma handler_call cb c : handler c (call cb c).
Proof.
  destruct cb; cbn [call]; try frames.
  - apply handler_ops. intros ss. apply up_read.
  - apply handler_ops. intros ss. apply up_write.
  - apply handler_relay_connected.
Qed.

(** ** The invariant *)

Record inv (w : world) : Prop := Inv {
  inv_wf : wf w;
  inv_linked : forall c lk, t_links (abs w) !! c = Some lk -> lk.1 = true;
}.

(** A well-formed process goes to a well-formed process that still listens only
    below the limit. *)
Definition stable (w w' : world) : Prop :=
  inv w' /\ (w_evscript w = [] -> w_evscript w' = []) /\
  (w_evscript w = [] -> listen_ok w -> listen_ok w').

Lemma stable_refl w : inv w -> stable w w.
Proof. now unfold stable. Qed.

Lemma stable_trans w w1 w2 : stable w w1 -> stable w1 w2 -> stable w w2.
Proof. unfold stable. naive_solver. Qed.

Lemma frame_stable c fds w w' : inv w -> frame c fds w w' -> stable w w'.
Proof.
  intros [Hw Hl] F. split; [|split].
  - split; [eapply frame_wf; eauto|]. now rewrite (frame_abs _ _ _ _ F).
  - apply F.
  - apply F.
Qed.

Lemma quiet_stable fds w w' : inv w -> quiet fds w w' -> stable w w'.
Proof. intros Hw Hq. exact (frame_stable 0 _ _ _ Hw (quiet_frame 0 _ _ _ Hq)). Qed.

Lemma dropped_stable c lk fds w w' : inv w -> dropped c lk fds w w' -> stable w w'.
Proof.
  intros [Hw Hl] D. split; [|split].
  - split; [eapply dropped_wf; eauto|]. rewrite (dropped_abs _ _ _ _ _ D).
    intros k lk'. cbn. rewrite lookup_delete_Some. intros [_ Hk]. exact (Hl k lk' Hk).
  - apply D.
  - intros He. eapply dropped_listen; eauto.
Qed.

Lemma relieved_stable w w' : inv w -> relieved w w' -> stable w w'.
Proof.
  intros [Hw Hl] [H1 H2 H3 H4 H5 H6]. split; [|split; [done|auto]]. split; [done|].
  intros c lk. cbn. rewrite lookup_fmap. destruct (w_clients w' !! c) as [x|] eqn:Ex; [|done].
  intros [= <-]. apply (Hl c). cbn. rewrite lookup_fmap.
  now rewrite (lookup_weaken _ _ _ _ Ex H5).
Qed.

Lemma handler_stable {A} c (m : M A) w :
  handler c m -> inv w -> is_Some (w_clients w !! c) -> wp any m (fun _ => stable w) w.
Proof.
  intros Hm Hw Hc. eapply wp_mono; [now apply Hm|].
  intros a w' [[_ [fds F]]|[_ (lk & fds & D)]]; [eapply frame_stable|eapply dropped_stable]; eauto.
Qed.

(** ** Accepting a connection *)

(** Client [c] of instance [i] was allocated and is not linked yet; all others
    are, and there is room for one more. *)
Record pending (c i : nat) (w : world) : Prop := Pending {
  pe_wf : wf w;
  pe_self : t_links (abs w) !! c = Some (false, i);
  pe_others : forall k lk, t_links (abs w) !! k = Some lk -> k <> c -> lk.1 = true;
  pe_room : redsocks_conn w < redsocks_conn_max;
}.

Lemma frame_pending c i fds w w' : frame c fds w w' -> pending c i w -> pending c i w'.
Proof.
  intros F [H1 H2 H3 H4]. pose proof (frame_abs _ _ _ _ F) as Ha.
  constructor; rewrite ?Ha; [eapply frame_wf; eauto|done..|].
  now rewrite (a_conn _ _ _ (f_acct _ _ _ _ F)).
Qed.

Lemma pending_alive c i w : pending c i w -> is_Some (w_clients w !! c).
Proof.
  intros [_ H _ _]. cbn in H. rewrite lookup_fmap in H.
  destruct (w_clients w !! c); [eauto|done].
Qed.

(** A step that keeps the client keeps it pending. *)
Lemma keeps_pending {A} c i (m : M A) (Q : A -> world -> Prop) w0 w :
  keeps c m -> pending c i w ->
  (w_evscript w0 = [] -> w_evscript w = []) ->
  (forall a w', pending c i w' -> (w_evscript w0 = [] -> w_evscript w' = []) -> Q a w') ->
  wp any m Q w.
Proof.
  intros Hm Hp He HQ. eapply wp_mono; [apply Hm; eapply pending_alive; eauto|].
  intros a w' [[_ [fds F]]|[? _]]; [|done].
  apply HQ; [eapply frame_pending; eauto|]. intros H0. apply F. auto.
Qed.

(** Dropping a pending client leaves a well-formed process. *)
Lemma pending_dropped c i lk fds w w' : pending c i w -> dropped c lk fds w w' -> inv w'.
Proof.
  intros [H1 H2 H3 H4] D. split; [eapply dropped_wf; eauto|].
  rewrite (dropped_abs _ _ _ _ _ D). intros k lk'. cbn.
  rewrite lookup_delete_Some. intros [Hk Hlk]. exact (H3 k lk' Hlk (not_eq_sym Hk)).
Qed.

(** A pending process below the limit listens rightly. *)
Lemma pending_drop_stable c i w0 w w' :
  pending c i w -> (w_evscript w0 = [] -> w_evscript w = []) ->
  (forall lk fds, dropped c lk fds w w' -> stable w0 w').
Proof.
  intros Hp He lk fds D. split; [eapply pending_dropped; eauto|]. split.
  - intros H0. apply D. auto.
  - intros H0 _. eapply dropped_listen; [exact D|apply Hp|auto|left; apply Hp].
Qed.

(** What [redsocks_conn_list_add] does to a pending client: it never fails an
    assertion. *)
Lemma conn_list_add_spec E c i w0 w (Q : unit -> world -> Prop) :
  pending c i w -> (w_evscript w0 = [] -> w_evscript w = []) ->
  (forall w', stable w0 w' -> Q tt w') -> wp E (redsocks_conn_list_add i c) Q w.
Proof.
  intros Hp Hev HQ. pose proof Hp as [Hw Hs Ho Hroom].
  destruct (pending_alive _ _ _ Hp) as [x Hx].
  assert (link_of x = (false, i)) as Hlk.
  { cbn in Hs. rewrite lookup_fmap, Hx in Hs. cbn in Hs. congruence. }
  unfold redsocks_conn_list_add. apply wp_bind. eapply wp_get_client_some; [exact Hx|].
  injection Hlk as Hx1 Hx2.
  apply wp_bind, wp_assert; [intros _|rewrite Hx1; done].
  apply wp_bind, wp_gets, wp_bind, wp_assert; [intros _|lia].
  apply wp_bind, wp_modify, wp_bind.
  eapply wp_upd_client_some; [exact Hx|]. apply wp_bind, wp_modify, wp_bind, wp_gets.
  match goal with |- wp _ _ _ ?v => set (w1 := v) end.
  assert (abs w1 = t_link c i (abs w)) as Habs.
  { unfold w1, abs, t_link. cbn. rewrite fmap_insert. f_equal.
    - apply map_eq. intros j. rewrite lookup_fmap, !lookup_alter, !lookup_fmap.
      case_decide; [subst|done]. now destruct (w_inst w !! _).
    - unfold link_of at 1. cbn. now rewrite Hx2. }
  assert (inv w1) as Hw1.
  { split; [split|].
    - rewrite Habs. apply t_link_ok; [apply OK|apply Hw|done|done].
    - intros k y. cbn. rewrite lookup_insert_Some. intros [[<- <-]|[_ Hk]].
      + exact (wf_time _ Hw _ _ Hx).
      + exact (wf_time _ Hw _ _ Hk).
    - rewrite Habs. intros k lk. cbn. rewrite lookup_insert_Some.
      intros [[<- <-]|[Hk Hl]]; [done|]. exact (Ho k lk Hl (not_eq_sym Hk)). }
  assert (w_evscript w1 = w_evscript w) as He1 by done.
  apply wp_when; intros Hfull.
  - apply conn_pressure_relieved; [apply Hw1|]. intros w2 Hr. apply HQ.
    split; [eapply relieved_stable; eauto|]. destruct Hr as [H1 H2 H3 H4 H5 H6].
    rewrite He1 in *. auto.
  - apply HQ. split; [done|]. split; [rewrite He1; auto|]. intros _ _. left. lia.
Qed.

(** Dropping a pending client and closing its descriptor. *)
Lemma pending_fail c i fd w0 w (Q : unit -> world -> Prop) :
  pending c i w -> (w_evscript w0 = [] -> w_evscript w = []) ->
  (forall w', stable w0 w' -> Q tt w') ->
  wp any (redsocks_drop_client c ;; redsocks_close fd) Q w.
Proof.
  intros Hp He HQ. destruct (pending_alive _ _ _ Hp) as [x Hx].
  apply wp_bind. eapply drop_client_dropped; [exact Hx|]. intros w1 D.
  pose proof (pending_drop_stable _ _ _ _ _ Hp He _ _ D) as Hs.
  apply redsocks_close_quiet. intros w2 Hq. apply HQ.
  eapply stable_trans; [exact Hs|]. eapply quiet_stable; [apply Hs|exact Hq].
Qed.

(** After linking: the client may be gone already, which the code does not
    check, or the last steps keep or drop it. *)
Lemma linked_tail {A} c (m : M A) w0 w :
  handler c m -> stable w0 w ->
  (w_clients w !! c = None -> wp any m (fun _ => stable w0) w) ->
  wp any m (fun _ => stable w0) w.
Proof.
  intros Hm Hs Hn. destruct (w_clients w !! c) as [x|] eqn:Hx; [|now apply Hn].
  eapply wp_mono; [apply (handler_stable c); [done|apply Hs|eauto]|].
  intros a w' H. eapply stable_trans; eauto.
Qed.

Lemma accept_tail_spec i c o fd w0 w :
  UpstreamOk o -> pending c i w -> (w_evscript w0 = [] -> w_evscript w = []) ->
  wp any (accept_client_tail i c o fd) (fun _ => stable w0) w.
Proof.
  intros Ho Hp He. unfold accept_client_tail.
  apply wp_bind. eapply keeps_pending; [apply up_init|exact Hp|exact He|].
  clear w Hp He. intros _ w Hp He. apply wp_bind.
  eapply keeps_pending; [eapply does_mono; [apply does_gettimeofday|naive_solver]
                        |exact Hp|exact He|].
  clear w Hp He. intros t w Hp He. destruct t as [t|]; [|eapply pending_fail; eauto].
  apply wp_bind. eapply keeps_pending; [frames|exact Hp|exact He|].
  clear w Hp He. intros _ w Hp He. apply wp_bind.
  eapply keeps_pending; [apply keeps_touch|exact Hp|exact He|].
  clear w Hp He. intros _ w Hp He. apply wp_bind.
  eapply keeps_pending; [apply keeps_sys|exact Hp|exact He|].
  clear w Hp He. intros r w Hp He. destruct (negb (r =? 0)); [eapply pending_fail; eauto|].
  apply wp_bind. eapply keeps_pending; [frames|exact Hp|exact He|].
  clear w Hp He. intros _ w Hp He. apply wp_bind.
  eapply conn_list_add_spec; [exact Hp|exact He|]. intros w1 Hs.
  apply (linked_tail c); [|exact Hs|].
  - apply keeps_bind; [frames|]. intros error. destruct (negb (error =? 0)); [frames|].
    destruct (ro_connect_relay o) as [f|] eqn:Ef; [eapply up_connect; eauto|frames].
  - intros Hn. now apply wp_bind, wp_bind, wp_bind, get_client_dropped.
Qed.

(** The steps before the client is allocated leave the process alone. *)
Definition calm {A} (m : M A) : Prop :=
  forall w (Q : A -> world -> Prop), (forall a w', quiet [] w w' -> Q a w') -> wp any m Q w.

Lemma calm_ret {A} (a : A) : calm (ret a).
Proof. intros w Q HQ. apply HQ, quiet_refl. Qed.

Lemma calm_sys : calm sys.
Proof. intros w Q HQ. now apply wp_sys_quiet. Qed.

Lemma calm_bind {A B} (m : M A) (k : A -> M B) : calm m -> (forall a, calm (k a)) -> calm (bind m k).
Proof.
  intros Hm Hk w Q HQ. apply wp_bind, Hm. intros a w1 H1. apply Hk. intros b w2 H2.
  eapply HQ, quiet_trans_0; eauto.
Qed.

Lemma calm_fold {A B} (f : B -> A -> M B) l : forall b,
  (forall b a, calm (f b a)) -> calm (fold_m f l b).
Proof.
  induction l as [|a l IH]; intros b Hf; cbn [fold_m]; [apply calm_ret|].
  apply calm_bind; auto.
Qed.

Ltac calm := repeat
  match goal with
  | |- calm (bind _ _) => apply calm_bind; [|intros ?]
  | |- calm (ret _) => apply calm_ret
  | |- calm sys => apply calm_sys
  | |- calm (fold_m _ _ _) => apply calm_fold; intros ? ?
  | |- calm (if ?b then _ else _) => destruct b
  end.

Lemma calm_read_sockaddr : calm read_sockaddr.
Proof. unfold read_sockaddr. calm. Qed.

Lemma calm_accept_checks fd : calm (accept_checks fd).
Proof. unfold accept_checks, read_sockaddr, fcntl_nonblock, apply_tcp_keepalive. calm. Qed.

(** Allocating the client. *)
Lemma alloc_pending w i x :
  inv w -> i ∈ instances w -> redsocks_conn w < redsocks_conn_max ->
  link_of x = (false, i) -> time_ok x ->
  pending (w_next w) i (with_w_clients (fun m => <[w_next w := x]> m) (with_w_next S w)).
Proof.
  intros [[Ht Htime] Hl] Hi Hroom Hx Hxt.
  set (w1 := with_w_clients _ _).
  assert (abs w1 = t_alloc i (abs w)) as Habs.
  { unfold w1, abs, t_alloc. cbn. now rewrite fmap_insert, Hx. }
  constructor; rewrite ?Habs.
  - split; [rewrite Habs; now apply t_alloc_ok|]. intros k y. cbn. rewrite lookup_insert_Some.
    intros [[_ <-]|[_ Hk]]; eauto.
  - cbn. apply lookup_insert_eq.
  - intros k lk. cbn. rewrite lookup_insert_Some. intros [[<- _]|[_ Hk]]; [done|]. eauto.
  - done.
Qed.

(** Once [accept] succeeded. *)
Lemma accepted_spec i fd w0 w :
  stable w0 w -> i ∈ instances w -> redsocks_conn w < redsocks_conn_max ->
  wp any
    (let! clientaddr := read_sockaddr in
     modify (with_accept_backoff_ms (fun _ => 0)) ;;
     let! d := accept_checks fd in
     match d with
     | None => redsocks_close fd
     | Some destaddr =>
         let! r := sys in
         if negb (r =? 0) then redsocks_close fd
         else
           let! self := get_inst i in
           let! c := gets w_next in
           modify (with_w_next S) ;;
           modify (with_w_clients
             (fun m => <[c := new_client i (use_splice (config self)) clientaddr destaddr]> m)) ;;
           accept_client_tail i c (ops_of (relay_ss self)) fd
     end) (fun _ => stable w0) w.
Proof.
  intros Hs Hi Hroom.
  assert (forall w', quiet [] w w' -> stable w0 w' /\ i ∈ instances w' /\
    redsocks_conn w' < redsocks_conn_max) as Hq.
  { intros w' Hq. split; [eapply stable_trans; [exact Hs|eapply quiet_stable; [apply Hs|done]]|].
    destruct Hq as [[i1 j1 n1 k1 c1 e1 l1] Hcl]. now rewrite i1, k1. }
  assert (forall w', quiet [] w w' -> wp any (redsocks_close fd) (fun _ => stable w0) w') as Hclose.
  { intros w' Hw'. apply redsocks_close_quiet. intros w2 H2.
    eapply stable_trans; [apply Hq, Hw'|]. eapply quiet_stable; [apply Hq, Hw'|exact H2]. }
  apply wp_bind, calm_read_sockaddr. intros ca w1 H1. apply wp_bind, wp_modify.
  apply wp_bind, calm_accept_checks. intros d w2 H2.
  assert (quiet [] w w2) as H02.
  { eapply quiet_trans_0; [exact H1|]. eapply quiet_trans_0; [|exact H2].
    split; [|done]. now constructor. }
  destruct d as [da|]; [|now apply Hclose].
  apply wp_bind, wp_sys_quiet. intros r w3 H3.
  pose proof (quiet_trans_0 _ _ _ _ H02 H3) as H03.
  destruct (negb (r =? 0)); [now apply Hclose|].
  apply wp_bind, wp_get_inst, wp_bind, wp_gets, wp_bind, wp_modify, wp_bind, wp_modify.
  destruct (Hq _ H03) as (Hs3 & Hi3 & Hr3).
  apply accept_tail_spec; [apply _| |exact (proj1 (proj2 Hs3))].
  apply alloc_pending; [apply Hs3|done..].
Qed.

Lemma accept_spec i w :
  inv w -> i ∈ instances w -> wp any (redsocks_accept_client i) (fun _ => stable w) w.
Proof.
  intros Hw Hi. unfold redsocks_accept_client.
  apply wp_bind, wp_gets, wp_bind, wp_assert; [intros Hroom|done].
  apply wp_bind, wp_sys_quiet. intros fd w1 H1.
  pose proof (quiet_stable _ _ _ Hw H1) as Hs1.
  destruct (fd =? -1).
  - apply wp_bind, wp_sys_quiet. intros e w2 H2.
    assert (stable w w2) as Hs2
      by (eapply stable_trans; [exact Hs1|eapply quiet_stable; [apply Hs1|exact H2]]).
    apply wp_when; intros _; [|done].
    apply conn_pressure_relieved; [apply Hs2|]. intros w3 Hrel.
    eapply stable_trans; [exact Hs2|]. apply relieved_stable; [apply Hs2|done].
  - destruct H1 as [[i1 j1 n1 k1 c1 e1 l1] Hcl].
    apply accepted_spec; [done|now rewrite i1|rewrite k1; lia].
Qed.

(** ** The debug dump *)

Lemma u32_add a b : u32 (u32 a + u32 b) = u32 (a + b).
Proof. unfold u32. now rewrite <- Z.add_mod by lia. Qed.

Lemma t_total_lookup w :
  t_total (abs w) =
    sum_list_with (fun i => length (i_clients (default inst_default (w_inst w !! i)))) (instances w).
Proof.
  unfold t_total. cbn. induction (instances w) as [|i l IH]; [done|]. cbn [sum_list_with].
  rewrite IH. f_equal. rewrite lookup_fmap. now destruct (w_inst w !! i).
Qed.

(** [assert(conn == redsocks_conn)] holds: the dump never faults. *)
Lemma debug_dump_spec E w (Q : unit -> world -> Prop) :
  inv w -> Q tt w -> wp E redsocks_debug_dump Q w.
Proof.
  intros [[Ht _] _] HQ. unfold redsocks_debug_dump. apply wp_bind, wp_gets, wp_bind.
  set (len := fun i => length (i_clients (default inst_default (w_inst w !! i)))).
  eapply wp_mono.
  - apply (wp_fold_m E _ (fun l acc w' => w' = w /\
      u32 (acc + Z.of_nat (sum_list_with len l)) = u32 (Z.of_nat (sum_list_with len (instances w)))
      /\ acc = u32 acc)).
    + split; [done|]. now rewrite Z.add_0_l.
    + intros i l acc w' (-> & Hacc & Hu). apply wp_bind, wp_get_inst, wp_ret.
      split; [done|]. fold (len i). cbn [sum_list_with] in Hacc.
      rewrite Hu, u32_add. split.
      * rewrite <- Hacc. unfold u32. rewrite Zplus_mod_idemp_l. f_equal. lia.
      * unfold u32. now rewrite Z.mod_mod.
  - intros acc w' (-> & Hacc & Hu). apply wp_bind, wp_gets, wp_assert; [done|].
    cbn [sum_list_with] in Hacc. rewrite Z.add_0_r in Hacc.
    pose proof (t_count _ Ht) as Hc. rewrite t_total_lookup in Hc. fold len in Hc. cbn in Hc.
    pose proof (t_max _ Ht) as Hm. cbn in Hm. pose proof conn_max_range.
    assert (redsocks_conn w = u32 (redsocks_conn w)) as Hid
      by (unfold u32; rewrite Z.mod_small; lia).
    rewrite Hid, Hu, Hacc, <- Hc, <- Hid. lia.
Qed.

(** ** Every step *)

Lemma handle_stable e w :
  inv w -> ready w e = true -> wp any (handle e) (fun _ => stable w) w.
Proof.
  intros Hw Hr.
  assert (forall c s f, bev_ready w c s f = true -> is_Some (w_clients w !! c)) as Hbev.
  { unfold bev_ready. intros c s f. destruct (w_clients w !! c); [eauto|done]. }
  destruct e; cbn [handle]; cbn [ready] in Hr.
  - apply andb_true_iff in Hr as [Hi _]. apply bool_decide_eq_true in Hi. now apply accept_spec.
  - apply wp_bind, wp_modify. set (w1 := with_accept_backoff_ev _ w).
    assert (quiet [] w w1) as Hq by (split; [now constructor|done]).
    pose proof (quiet_stable _ _ _ Hw Hq) as Hs.
    apply accept_backoff_relieved; [apply Hs|]. intros w2 Hrel.
    eapply stable_trans; [exact Hs|]. apply relieved_stable; [apply Hs|done].
  - apply (handler_stable c); [|done|eauto]. apply keeps_bind; [frames|].
    intros b. apply handler_call.
  - apply (handler_stable c); [|done|eauto]. apply keeps_bind; [frames|].
    intros b. apply handler_call.
  - apply (handler_stable c); [frames|done|eauto].
  - apply (handler_stable c); [frames|done|]. destruct (w_clients w !! c); [eauto|done].
  - apply (handler_stable c); [frames|done|]. destruct (w_clients w !! c); [eauto|done].
  - apply debug_dump_spec; [done|]. now apply stable_refl.
  - apply (handler_stable c); [frames|done|eauto].
  - apply (handler_stable c); [frames|done|eauto].
Qed.

Lemma step_stable w w' : inv w -> step w w' -> stable w w'.
Proof.
  intros Hw [e script Hr Hrun].
  pose proof (quiet_script script w) as Hq. pose proof (quiet_stable _ _ _ Hw Hq) as Hs.
  assert (ready (with_w_script (fun _ => script) w) e = true) as Hr' by (destruct e; exact Hr).
  pose proof (handle_stable e _ (proj1 Hs) Hr') as H. unfold wp in H. rewrite Hrun in H.
  eapply stable_trans; [exact Hs|exact H].
Qed.

Lemma reachable_stable w w' : inv w -> rtc step w w' -> stable w w'.
Proof.
  intros Hw H. induction H as [w|w w1 w2 H1 H2 IH]; [now apply stable_refl|].
  pose proof (step_stable _ _ Hw H1) as Hs. eapply stable_trans; [exact Hs|]. apply IH, Hs.
Qed.

(** ** The counter is the number of clients *)

Lemma lists_disjoint t (is_ : list nat) :
  t_ok t -> NoDup is_ ->
  NoDup (flat_map (fun i => default [] (t_lists t !! i)) is_).
Proof.
  intros Ht. induction 1 as [|i l Hi Hn IH]; [constructor|]. cbn [flat_map].
  apply NoDup_app. split; [|split; [|done]].
  - destruct (t_lists t !! i) as [li|] eqn:Hl; [eapply t_unique; eauto|constructor].
  - intros c Hc Hin. destruct (t_lists t !! i) as [li|] eqn:Hl; [|now apply elem_of_nil in Hc].
    cbn in Hc. apply (t_member _ Ht _ _ _ Hl) in Hc.
    apply list_elem_of_In, in_flat_map in Hin as (j & Hj & Hin). apply list_elem_of_In in Hj, Hin.
    destruct (t_lists t !! j) as [lj|] eqn:Hlj; [|now apply elem_of_nil in Hin].
    apply (t_member _ Ht _ _ _ Hlj) in Hin. rewrite Hc in Hin. injection Hin as ->. done.
Qed.

Lemma total_size t :
  t_ok t -> (forall c lk, t_links t !! c = Some lk -> lk.1 = true) ->
  t_total t = size (t_links t).
Proof.
  intros Ht Hl. set (cs := flat_map (fun i => default [] (t_lists t !! i)) (t_instances t)).
  assert (t_total t = length cs) as ->.
  { unfold t_total, cs. induction (t_instances t) as [|i l IH]; [done|].
    cbn [sum_list_with flat_map]. now rewrite length_app, IH. }
  rewrite <- size_dom. erewrite <- (size_list_to_set (C := gset nat) cs)
    by (apply lists_disjoint; [done|apply Ht]).
  f_equal. apply set_eq. intros c. rewrite elem_of_list_to_set, elem_of_dom. split.
  - intros Hc. apply list_elem_of_In, in_flat_map in Hc as (i & Hi & Hc).
    apply list_elem_of_In in Hc. destruct (t_lists t !! i) as [li|] eqn:Hli;
      [|now apply elem_of_nil in Hc]. apply (t_member _ Ht _ _ _ Hli) in Hc. eauto.
  - intros [[b i] Hc]. pose proof (Hl _ _ Hc) as Hb. cbn in Hb. subst b.
    destruct (t_owner _ Ht _ _ Hc) as [li Hli]. cbn in Hli.
    apply list_elem_of_In, in_flat_map. exists i. split.
    + apply list_elem_of_In, (t_inst _ Ht). eauto.
    + rewrite Hli. apply list_elem_of_In. cbn. now apply (t_member _ Ht _ _ _ Hli).
Qed.

(** ** Theorems *)

(** A process whose instances are configured and which has no client yet. *)
Record configured (w : world) : Prop := Configured {
  cf_nodup : NoDup (instances w);
  cf_inst : forall i, i ∈ instances w <-> is_Some (w_inst w !! i);
  cf_lists : forall i x, w_inst w !! i = Some x -> i_clients x = [];
  cf_clients : w_clients w = ∅;
  cf_conn : redsocks_conn w = 0;
}.

Lemma configured_inv w : configured w -> inv w.
Proof.
  intros [H1 H2 H3 H4 H5].
  assert (forall i l, t_lists (abs w) !! i = Some l -> l = []) as Hl.
  { intros i l. cbn. rewrite lookup_fmap. destruct (w_inst w !! i) eqn:E; [|done].
    intros [= <-]. eauto. }
  assert (t_total (abs w) = 0%nat) as Htot.
  { unfold t_total. induction (t_instances (abs w)) as [|i l IH]; [done|]. cbn [sum_list_with].
    rewrite IH. destruct (t_lists (abs w) !! i) as [li|] eqn:E; [|done].
    now rewrite (Hl _ _ E). }
  assert (t_links (abs w) = ∅) as Hlinks by (cbn; now rewrite H4, fmap_empty).
  split; [split; [constructor|]|]; rewrite ?Hlinks; cbn.
  - done.
  - intros i. now rewrite H2, lookup_fmap, fmap_is_Some.
  - intros i l Hi. rewrite (Hl _ _ Hi). constructor.
  - intros i l c Hi. rewrite (Hl _ _ Hi), elem_of_nil. done.
  - done.
  - rewrite H5. exact (eq_sym (f_equal Z.of_nat Htot)).
  - rewrite H5. apply conn_max_range.
  - intros c [lk Hc]. done.
  - intros c x. now rewrite H4.
  - done.
Qed.

(** C1. In every reachable state of the process the counter [redsocks_conn] is
    the number of connected clients, summed over the instances or counted in the
    store, and it does not exceed [redsocks_conn_max]; every client is in the
    list of its instance exactly once. *)
Theorem conn_counts_clients (w w' : world) :
  configured w -> rtc step w w' ->
  redsocks_conn w' = Z.of_nat (size (w_clients w')) /\
  redsocks_conn w' = Z.of_nat (t_total (abs w')) /\
  redsocks_conn w' <= redsocks_conn_max /\
  forall c x, w_clients w' !! c = Some x ->
    exists i, w_inst w' !! c_instance x = Some i /\ c ∈ i_clients i /\ NoDup (i_clients i).
Proof.
  intros Hc Hr. destruct (reachable_stable _ _ (configured_inv _ Hc) Hr) as [[[Ht _] Hl] _].
  pose proof (t_count _ Ht) as Hn. pose proof (total_size _ Ht Hl) as Hs. cbn in Hn, Hs.
  rewrite map_size_fmap in Hs. split; [now rewrite <- Hs|]. split; [done|].
  split; [exact (t_max _ Ht)|]. intros c x Hx.
  assert (t_links (abs w') !! c = Some (link_of x)) as Hlk by (cbn; now rewrite lookup_fmap, Hx).
  destruct (t_owner _ Ht _ _ Hlk) as [l Hi]. pose proof (Hl _ _ Hlk) as Hlinked.
  pose proof (t_unique _ Ht _ _ Hi) as Hu. pose proof (t_member _ Ht _ _ c Hi) as Hm.
  cbn in Hi. rewrite lookup_fmap in Hi. destruct (w_inst w' !! c_instance x) as [i|]; [|done].
  injection Hi as <-. exists i. split; [done|]. split; [|done]. apply Hm. rewrite Hlk.
  unfold link_of in *. cbn in *. now rewrite Hlinked.
Qed.

(** C27. With a working event backend, a listener is armed only while there is
    room: when libevent calls [redsocks_accept_client] in a reachable state, the
    assertions [redsocks_conn < redsocks_conn_max()] hold. *)
Theorem accept_only_below_limit (w w' : world) (i : nat) :
  configured w -> w_evscript w = [] -> listen_ok w -> rtc step w w' ->
  ready w' (ev_accept i) = true -> redsocks_conn w' < redsocks_conn_max.
Proof.
  intros Hc He Hl Hr Hi. destruct (reachable_stable _ _ (configured_inv _ Hc) Hr) as (_ & _ & Hs).
  destruct (Hs He Hl) as [H|H]; [done|]. cbn in Hi. apply andb_true_iff in Hi as [Hi Ha].
  apply bool_decide_eq_true in Hi. destruct (w_inst w' !! i) as [x|] eqn:Hx; [|done].
  destruct (H i x Hi Hx). congruence.
Qed.

(** The debug dump counts the clients of the instances in 32 bits and
    compares the sum with [redsocks_conn]: in a reachable state its assertion
    holds and it changes nothing. *)
Lemma debug_dump_agrees (w w' : world) :
  configured w -> rtc step w w' -> redsocks_debug_dump w' = Ret tt w'.
Proof.
  intros Hc Hr. destruct (reachable_stable _ _ (configured_inv _ Hc) Hr) as [Hi _].
  pose proof (debug_dump_spec safe w' (fun _ w2 => w2 = w') Hi eq_refl) as H.
  unfold wp in H. destruct (redsocks_debug_dump w') as [[] w2|]; [now subst|done].
Qed.

(** [redsocks_drop_client] on a connected client never faults, closes
    exactly the descriptors of the client, the last one first, forgets the client
    and nothing else, and decrements the counter. *)
Lemma drop_client_exact (w : world) (c : nat) (x : redsocks_client) :
  wf w -> w_clients w !! c = Some x -> c_linked x = true ->
  let splice := use_splice (config (default inst_default (w_inst w !! c_instance x))) in
  exists w', redsocks_drop_client c w = Ret tt w' /\
    w_clients w' = delete c (w_clients w) /\
    w_closed w' = client_fds splice x ++ w_closed w /\
    redsocks_conn w' = redsocks_conn w - 1 /\
    instances w' = instances w /\
    (forall i, i_clients (default inst_default (w_inst w' !! i)) =
       filter (fun k => k <> c) (i_clients (default inst_default (w_inst w !! i)))) /\
    wf w'.
Proof.
  intros Hw Hx Hl splice.
  assert (wp safe (redsocks_drop_client c)
    (fun _ w' => dropped c (link_of x) (client_fds splice x) w w') w) as H
    by (eapply drop_client_dropped; [exact Hx|done]).
  unfold wp in H. destruct (redsocks_drop_client c w) as [[] w'|]; [|done].
  exists w'. pose proof (dropped_wf _ _ _ _ _ H Hw) as Hw'.
  pose proof (dropped_abs _ _ _ _ _ H) as Ha. destruct H as [H1 H2 H3 H4 H5 H6 H7 H8 H9].
  assert (link_of x = (true, c_instance x)) as Hlk by (unfold link_of; now rewrite Hl).
  rewrite Hlk in *. cbn in H3. rewrite Hx in H1. cbn in H1.
  pose proof (linked_counted w c (c_instance x) Hw) as Hcnt. rewrite Hx in Hcnt. cbn in Hcnt.
  rewrite Hlk in Hcnt. specialize (Hcnt eq_refl).
  split; [done|]. split; [done|]. split; [done|]. split.
  { rewrite H3. unfold u32. rewrite Z.mod_small; lia. }
  split; [done|]. split; [|done]. intros i.
  assert (forall v, i_clients (default inst_default (w_inst v !! i)) =
    default [] (t_lists (abs v) !! i)) as Hd
    by (intros v; cbn; rewrite lookup_fmap; now destruct (w_inst v !! i)).
  rewrite !Hd, Ha. cbn [t_drop fst snd t_lists]. rewrite lookup_alter. case_decide as Hci.
  - subst i. now destruct (t_lists (abs w) !! _).
  - destruct (t_lists (abs w) !! i) as [l|] eqn:El; [|done]. cbn. symmetry.
    apply filter_absent. intros Hk.
    apply (t_member _ (wf_table _ Hw) _ _ _ El) in Hk. cbn in Hk.
    rewrite lookup_fmap, Hx in Hk. cbn in Hk. rewrite Hlk in Hk. congruence.
Qed.

End Safety.

(** ** A concrete process

    One SOCKS5 instance, at most two connections, no idle timeout. *)

Definition demo_base : BaseConfig := Build_BaseConfig 2 0 60000 0 0 0.

Lemma demo_base_ok : @BaseConfigOk demo_base.
Proof. constructor; cbn; lia. Qed.

Definition demo_cfg : redsocks_config :=
  Config (SockAddr AF_INET 12345 0x7f000001) (SockAddr AF_INET 1080 0x7f000001) None None None
    128 false DISCLOSE_NONE ONFAIL_CLOSE.

Definition demo_world : world :=
  World [] [] [0%nat]
    {[ 0%nat := Instance demo_cfg (Event true 3 true false) [] socks5_subsys None 0 ]}
    ∅ 0 0 0 None [].

(** The world after a computation. *)
Definition after (m : M unit) (w : world) : world :=
  match m w with Ret _ w' | Fault _ w' => w' end.

(** One client is accepted on descriptor 10, its relay is descriptor 11. *)
Definition demo_script : list Z :=
  [10; 4000; 0x0a000001; 0; 0; 80; 0x08080808; 0; 0; 0; 0; 0; 100; 0; 0; 100; 0; 0; 11].

Definition demo_accepted : world :=
  after (@handle demo_base (ev_accept 0)) (with_w_script (fun _ => demo_script) demo_world).

Lemma demo_configured : configured demo_world.
Proof.
  constructor; cbn.
  - apply NoDup_singleton.
  - intros i. rewrite list_elem_of_singleton. split.
    + intros ->. eauto.
    + intros [x Hx]. now apply lookup_singleton_Some in Hx as [-> _].
  - intros i x Hx. apply lookup_singleton_Some in Hx as [_ <-]. done.
  - done.
  - done.
Qed.

Lemma demo_steps : rtc (@step demo_base) demo_world demo_accepted.
Proof.
  eapply rtc_once, (Step _ _ (ev_accept 0) demo_script); vm_compute; reflexivity.
Qed.

Lemma demo_listen : @listen_ok demo_base demo_world.
Proof. left. cbn. lia. Qed.

Lemma conn_counts_clients_witness : redsocks_conn demo_accepted = 1.
Proof.
  destruct (@conn_counts_clients demo_base demo_base_ok demo_world demo_accepted
              demo_configured demo_steps) as [H _].
  rewrite H. vm_compute. reflexivity.
Defined.

Lemma accept_only_below_limit_witness : redsocks_conn demo_accepted < 2.
Proof.
  apply (@accept_only_below_limit demo_base demo_base_ok demo_world demo_accepted 0
           demo_configured eq_refl demo_listen demo_steps).
  vm_compute. reflexivity.
Defined.

Lemma debug_dump_agrees_witness :
  redsocks_debug_dump demo_accepted = Ret tt demo_accepted.
Proof.
  exact (@debug_dump_agrees demo_base demo_base_ok demo_world demo_accepted
           demo_configured demo_steps).
Defined.

Lemma demo_accepted_wf : wf (BC := demo_base) demo_accepted.
Proof.
  exact (inv_wf _ (proj1 (@reachable_stable demo_base demo_base_ok _ _
    (@configured_inv demo_base demo_base_ok _ demo_configured) demo_steps))).
Qed.

Lemma drop_client_exact_witness :
  exists w', @redsocks_drop_client demo_base 0 demo_accepted = Ret tt w' /\
    w_closed w' = [11; 10] /\ redsocks_conn w' = 0.
Proof.
  destruct (@drop_client_exact demo_base demo_base_ok demo_accepted 0
    (default (new_client 0 false (SockAddr 0 0 0) (SockAddr 0 0 0)) (w_clients demo_accepted !! 0%nat))
    demo_accepted_wf) as (w' & H1 & _ & H3 & H4 & _).
  - vm_compute. reflexivity.
  - vm_compute. reflexivity.
  - exists w'. split; [exact H1|]. rewrite H3, H4. vm_compute. split; reflexivity.
Defined.
