(* ===== verification/RedRun.v ===== *)
(** * Running a handler when every call succeeds

    [runs c w x m a x']: with an environment that answers 0 to every call, [m]
    returns [a] and takes client [c] from [x] to [x'], leaving the rest of the
    world [w] alone. *)

From S2P Require Import Prelude RedWorld RedCore RedRelay.

Open Scope Z_scope.
Open Scope red_scope.

(** The world with client [c] set to [x]. *)
Definition setc (c : nat) (x : redsocks_client) (w : world) : world :=
  with_w_clients (fun m => <[c := x]> m) w.

(** All calls succeed. *)
Record lucky (w : world) : Prop := Lucky {
  l_script : w_script w = [];
  l_evscript : w_evscript w = [];
}.

Definition runs {A} (c : nat) (w : world) (x : redsocks_client) (m : M A) (a : A)
    (x' : redsocks_client) : Prop :=
  m (setc c x w) = Ret a (setc c x' w).

Lemma setc_setc c x y w : setc c x (setc c y w) = setc c x w.
Proof. unfold setc, with_w_clients. cbn. now rewrite insert_insert_eq. Qed.

Lemma setc_id c x w : w_clients w !! c = Some x -> setc c x w = w.
Proof. intros H. unfold setc, with_w_clients. destruct w. cbn in *. now rewrite insert_id. Qed.

Section Runs.
Context `{BC : BaseConfig} (c : nat) (w : world) (L : lucky w).

Lemma runs_ret {A} x (a : A) : runs c w x (ret a) a x.
Proof. done. Qed.

Lemma runs_bind {A B} x x1 x2 (m : M A) (k : A -> M B) a b :
  runs c w x m a x1 -> runs c w x1 (k a) b x2 -> runs c w x (bind m k) b x2.
Proof. unfold runs, bind. now intros -> ->. Qed.

Lemma runs_sys x : runs c w x sys 0 x.
Proof. unfold runs, sys. cbn. now rewrite (l_script _ L). Qed.

Lemma runs_sys_ev x : runs c w x sys_ev 0 x.
Proof. unfold runs, sys_ev. cbn. now rewrite (l_evscript _ L). Qed.

Lemma runs_get_client x : runs c w x (get_client c) x x.
Proof. unfold runs, get_client, setc. cbn. now rewrite lookup_insert_eq. Qed.

Lemma runs_upd_client x g : runs c w x (upd_client c g) tt (g x).
Proof.
  eapply runs_bind; [apply runs_get_client|]. unfold runs, modify.
  f_equal. apply (setc_setc c (g x) x w).
Qed.

Lemma runs_get_inst x i : runs c w x (get_inst i) (default inst_default (w_inst w !! i)) x.
Proof. done. Qed.

Lemma runs_assert x line b : b = true -> runs c w x (assert_ line b) tt x.
Proof. now intros ->. Qed.

Lemma runs_when_true x x' b m : b = true -> runs c w x m tt x' -> runs c w x (when b m) tt x'.
Proof. now intros ->. Qed.

Lemma runs_when_false x b m : b = false -> runs c w x (when b m) tt x.
Proof. now intros ->. Qed.

Lemma runs_get_bev x s b : bev_of s x = Some b -> runs c w x (get_bev c s) b x.
Proof. intros H. eapply runs_bind; [apply runs_get_client|]. now rewrite H. Qed.

Lemma runs_upd_bev x s b g :
  bev_of s x = Some b -> runs c w x (upd_bev c s g) tt (with_bev s (fun _ => Some (g b)) x).
Proof.
  intros H. eapply runs_bind; [exact (runs_get_bev _ _ _ H)|]. apply runs_upd_client.
Qed.

Lemma runs_enable x s b ev :
  bev_of s x = Some b ->
  runs c w x (bufferevent_enable c s ev) 0
    (with_bev s (fun _ => Some (with_be_enabled (fun e => Z.lor e ev) b)) x).
Proof. intros H. eapply runs_bind; [exact (runs_upd_bev _ _ _ _ H)|]. apply runs_sys_ev. Qed.

Lemma runs_disable x s b ev :
  bev_of s x = Some b ->
  runs c w x (bufferevent_disable c s ev) 0
    (with_bev s (fun _ => Some (with_be_enabled (fun e => Z.ldiff e ev) b)) x).
Proof. intros H. eapply runs_bind; [exact (runs_upd_bev _ _ _ _ H)|]. apply runs_sys_ev. Qed.

Lemma runs_write x s b data :
  bev_of s x = Some b ->
  runs c w x (bufferevent_write c s data) 0
    (with_bev s (fun _ => Some (with_be_output (fun o => o ++ data) b)) x).
Proof.
  intros H. eapply runs_bind; [apply runs_sys|].
  eapply runs_bind; [exact (runs_upd_bev _ _ _ _ H)|]. apply runs_ret.
Qed.

(** The clock reads 0. *)
Lemma runs_touch x : runs c w x (redsocks_touch_client c) tt (with_last_event (fun _ => tv_zero) x).
Proof.
  eapply runs_bind; [apply runs_get_client|].
  eapply runs_bind; [eapply runs_bind; [apply runs_sys|]|].
  - eapply runs_bind; [|apply runs_ret].
    do 2 (eapply runs_bind; [apply runs_sys|]). apply runs_ret.
  - apply runs_upd_client.
Qed.

Lemma runs_mkevbuffer x data : runs c w x (mkevbuffer data) (Some data) x.
Proof. do 2 (eapply runs_bind; [apply runs_sys|]; cbn). apply runs_ret. Qed.

(** *** Reading a reply and sending a message *)

(** What a handshake step leaves alone. *)
Record talked (x x' : redsocks_client) : Prop := Talked {
  tk_instance : c_instance x' = c_instance x;
  tk_client : c_client x' = c_client x;
  tk_dest : destaddr x' = destaddr x;
  tk_source : clientaddr x' = clientaddr x;
  tk_cshut : client_evshut x' = client_evshut x;
  tk_rshut : relay_evshut x' = relay_evshut x;
}.

Lemma talked_refl x : talked x x.
Proof. now constructor. Qed.

Lemma talked_trans x y z : talked x y -> talked y z -> talked x z.
Proof. intros [] []. constructor; congruence. Qed.

(** The relay bufferevent: [inp] is left to read and [out] is queued. *)
Definition relay_at (x : redsocks_client) (inp out : list Z) : Prop :=
  exists b, c_relay x = Some b /\ be_input b = inp /\ be_output b = out.

(** The next read callback comes once [wm] bytes are there. *)
Definition waits (x : redsocks_client) (wm : Z) : Prop :=
  exists b, c_relay x = Some b /\ wm_read_low b = wm /\ Z.land (be_enabled b) EV_READ = EV_READ.

Lemma runs_read_expected x inp out cmp n :
  relay_at x inp out -> cmp (Z.of_nat (length inp)) n = true -> 0 <= n <= Z.of_nat (length inp) ->
  exists x', runs c w x (redsocks_read_expected c cmp n) (Some (take (Z.to_nat n) inp)) x' /\
    relay_at x' (drop (Z.to_nat n) inp) out /\ talked x x' /\
    c_state x' = c_state x /\ payload x' = payload x.
Proof.
  intros (b & Hb & <- & <-) Hcmp Hn. eexists. split; [|split; [|split; [|split]]].
  - eapply runs_bind; [apply (runs_get_bev x Srelay b Hb)|]. rewrite Hcmp.
    eapply runs_bind; [apply (runs_upd_bev x Srelay b _ Hb)|].
    eapply runs_bind; [apply runs_assert|apply runs_ret].
    rewrite length_take. apply Z.eqb_eq. lia.
  - eexists. split; [reflexivity|done].
  - now constructor.
  - done.
  - done.
Qed.

(** [redsocks_write_helper_ex] with a message, or without one ([data = []]). *)
Lemma runs_write_helper_ex x inp out mk st lo hi data :
  relay_at x inp out ->
  match mk with
  | Some f => runs c w x (f c) (Some data) x
  | None => data = []
  end ->
  exists x', runs c w x (redsocks_write_helper_ex c mk st lo hi) 0 x' /\
    relay_at x' inp (out ++ data) /\ waits x' lo /\ talked x x' /\
    c_state x' = st /\ payload x' = payload x.
Proof.
  intros (b & Hb & <- & <-) Hmk.
  assert (forall y yb, c_relay y = Some yb -> be_input yb = be_input b ->
    be_output yb = be_output b ++ data -> talked x y -> payload y = payload x ->
    exists x', runs c w y
      (upd_client c (with_c_state (fun _ => st)) ;;
       setwatermark_read c Srelay lo hi ;;
       let! _ := bufferevent_enable c Srelay EV_READ in ret 0) 0 x' /\
      relay_at x' (be_input b) (be_output b ++ data) /\ waits x' lo /\ talked x x' /\
      c_state x' = st /\ payload x' = payload x) as Hdone.
  { intros y yb Hy Hi Ho Ht Hp. eexists. split; [|split; [|split; [|split; [|split]]]].
    - eapply runs_bind; [apply runs_upd_client|].
      eapply runs_bind; [apply (runs_upd_bev _ Srelay yb); exact Hy|].
      eapply runs_bind; [apply (runs_enable _ Srelay); reflexivity|]. apply runs_ret.
    - eexists. split; [reflexivity|]. split; [exact Hi|exact Ho].
    - eexists. split; [reflexivity|]. split; [reflexivity|]. cbn.
      apply Z.bits_inj'. intros k _. rewrite Z.land_spec, Z.lor_spec.
      now destruct (Z.testbit EV_READ k); rewrite ?orb_true_r, ?andb_false_r.
    - destruct Ht. now constructor.
    - done.
    - exact Hp. }
  destruct mk as [f|].
  - destruct (Hdone (with_bev Srelay (fun _ => Some (with_be_output (fun o => o ++ data) b)) x)
                (with_be_output (fun o => o ++ data) b)) as (x' & Hr & H');
      [done..|now constructor|done|].
    exists x'. split; [|exact H']. unfold redsocks_write_helper_ex.
    eapply runs_bind; [exact Hmk|]. eapply runs_bind; [apply (runs_write x Srelay b data Hb)|].
    exact Hr.
  - subst data. destruct (Hdone x b) as (x' & Hr & H'); [done|done|now rewrite app_nil_r|
      apply talked_refl|done|]. exists x'. split; [exact Hr|exact H'].
Qed.

(** *** Starting the buffer pump *)

(** The state in which the buffer pump runs: all callbacks are those of the pump,
    and both directions are enabled unless they were shut down. *)
Record pumping (x : redsocks_client) : Prop := Pumping {
  pu_state : c_state x = pump_active;
  pu_client : exists b, c_client x = Some b /\ readcb b = cb_clientread /\
    writecb b = cb_clientwrite /\ wm_write_high b = REDSOCKS_RELAY_HALFBUFF;
  pu_relay : exists b, c_relay x = Some b /\ readcb b = cb_relayread /\
    writecb b = cb_relaywrite /\ wm_write_high b = REDSOCKS_RELAY_HALFBUFF;
}.

(** The queues of the client side. *)
Definition client_at (x : redsocks_client) (inp out : list Z) : Prop :=
  exists b, c_client x = Some b /\ be_input b = inp /\ be_output b = out.

Lemma runs_start_relay x inp out cinp cout :
  let i := default inst_default (w_inst w !! c_instance x) in
  use_splice (config i) = false -> ss_fini (relay_ss i) = None ->
  relay_at x inp out -> client_at x cinp cout ->
  exists x', runs c w x (redsocks_start_relay c) tt x' /\
    pumping x' /\ relay_at x' inp out /\ client_at x' cinp cout /\
    destaddr x' = destaddr x /\ c_instance x' = c_instance x.
Proof.
  intros i Hs Hf (b & Hb & <- & <-) (cb & Hcb & <- & <-).
  eexists. split; [|split; [|split; [|split]]].
  - unfold redsocks_start_relay. eapply runs_bind.
    { eapply runs_bind; [apply runs_get_client|]. eapply runs_bind; [apply runs_get_inst|].
      fold i. rewrite Hf. apply runs_ret. }
    eapply runs_bind; [apply runs_upd_client|]. eapply runs_bind; [apply runs_get_client|].
    eapply runs_bind; [apply runs_get_inst|]. cbn [c_instance with_c_state]. fold i. rewrite Hs.
    eapply runs_bind with (a := 0); [|apply runs_ret]. unfold redsocks_start_bufferpump, setwatermark_rdwr,
      setwatermark_read.
    eapply runs_bind; [eapply runs_bind; [apply (runs_upd_bev _ Sclient cb); exact Hcb|
      apply (runs_upd_bev _ Sclient); reflexivity]|].
    eapply runs_bind; [eapply runs_bind; [apply (runs_upd_bev _ Srelay b); exact Hb|
      apply (runs_upd_bev _ Srelay); reflexivity]|].
    eapply runs_bind; [apply (runs_upd_bev _ Sclient); reflexivity|].
    eapply runs_bind; [apply (runs_upd_bev _ Srelay); reflexivity|].
    eapply runs_bind; [apply runs_get_client|].
    eapply runs_bind; [apply (runs_enable _ Sclient); reflexivity|]. cbn [Z.eqb].
    apply (runs_enable _ Srelay); reflexivity.
  - constructor; [done|eexists; split; [reflexivity|done]|eexists; split; [reflexivity|done]].
  - eexists. split; [reflexivity|done].
  - eexists. split; [reflexivity|done].
  - done.
Qed.

End Runs.
