(* ===== verification/SocksFacts.v ===== *)
(** * The SOCKS upstreams talk to a conforming server

    What redsocks sends is what RFC 1928, RFC 1929 and the SOCKS4 protocol ask
    for, as read by a server, and with a server that accepts, the handshake ends
    in the relay with the bytes behind the reply untouched. *)

From S2P Require Import Prelude RedWorld RedCore RedRelay RedLogic RedFrame RedRun Socks4.
From S2P Require Import Socks5 RedHandlers.

Open Scope Z_scope.
Open Scope red_scope.

(** ** The messages, as a server reads them *)

(** RFC 1928 section 3: the offered methods. *)
Definition parse_methods (m : list Z) : option (list Z) :=
  match m with
  | ver :: n :: ms => if (ver =? 5) && (Z.of_nat (length ms) =? n) then Some ms else None
  | _ => None
  end.

(** RFC 1929 section 2: user name and password. *)
Definition parse_userpass (m : list Z) : option (list Z * list Z) :=
  match m with
  | ver :: ulen :: r =>
      let u := take (Z.to_nat ulen) r in
      match drop (Z.to_nat ulen) r with
      | plen :: p =>
          if (ver =? 1) && (Z.of_nat (length u) =? ulen) && (Z.of_nat (length p) =? plen)
          then Some (u, p) else None
      | [] => None
      end
  | _ => None
  end.

(** RFC 1928 section 4, for an IPv4 destination: command, address, port. *)
Definition parse_command (m : list Z) : option (Z * Z * Z) :=
  match m with
  | [ver; cmd; rsv; atyp; a; b; c; d; p; q] =>
      if (ver =? 5) && (rsv =? 0) && (atyp =? 1)
      then Some (cmd, of_be [a; b; c; d], of_be [p; q]) else None
  | _ => None
  end.

(** SOCKS4: port, address, user name up to the terminator, which ends the
    message. *)
Fixpoint until_nul (m : list Z) : option (list Z * list Z) :=
  match m with
  | [] => None
  | c :: m => if c =? 0 then Some ([], m)
              else match until_nul m with Some (u, r) => Some (c :: u, r) | None => None end
  end.

Definition parse_socks4 (m : list Z) : option (Z * Z * list Z) :=
  match m with
  | ver :: cmd :: p :: q :: a :: b :: c :: d :: u =>
      match until_nul u with
      | Some (user, []) =>
          if (ver =? 4) && (cmd =? 1) then Some (of_be [p; q], of_be [a; b; c; d], user) else None
      | _ => None
      end
  | _ => None
  end.

Lemma until_nul_app u r : forallb (fun c => negb (c =? 0)) u = true ->
  until_nul (u ++ 0 :: r) = Some (u, r).
Proof.
  induction u as [|c u IH]; [done|]. cbn [forallb app until_nul]. intros H.
  apply andb_true_iff in H as [Hc Hu]. apply negb_true_iff in Hc. now rewrite Hc, IH.
Qed.

(** The CONNECT command redsocks sends is read by an RFC 1928 server as the
    destination of the intercepted connection. *)
Lemma socks5_command_read (cmd : Z) (dest : sockaddr_in) :
  0 <= cmd < 256 -> 0 <= sin_addr dest < 2 ^ 32 -> 0 <= sin_port dest < 2 ^ 16 ->
  parse_command (Socks5.socks5_mkcommand_plain cmd dest) =
    Some (cmd, sin_addr dest, sin_port dest).
Proof.
  intros Hc Ha Hp. unfold Socks5.socks5_mkcommand_plain, u8. rewrite Z.mod_small by lia.
  pose proof (of_be_be32 (sin_addr dest) Ha) as H1. pose proof (of_be_be16 (sin_port dest) Hp) as H2.
  unfold be32, be16 in *. cbn [app parse_command]. now rewrite H1, H2.
Qed.

Lemma socks5_command_read_witness :
  parse_command (Socks5.socks5_mkcommand_plain 1 (SockAddr AF_INET 443 0x08080404)) =
    Some (1, 0x08080404, 443).
Proof. apply (socks5_command_read 1 (SockAddr AF_INET 443 0x08080404)); cbn; lia. Defined.

(** Credentials that pass [socks5_is_valid_cred] are read back by an RFC
    1929 server: no length is truncated to a byte. *)
Lemma socks5_password_read (login password : list Z) :
  Socks5.socks5_is_valid_cred (Some login) (Some password) = true ->
  parse_userpass (Socks5.socks5_mkpassword_plain login password) = Some (login, password).
Proof.
  unfold Socks5.socks5_is_valid_cred. intros H.
  destruct (Z.ltb_spec 255 (Z.of_nat (length login))); [done|].
  destruct (Z.ltb_spec 255 (Z.of_nat (length password))); [done|].
  unfold Socks5.socks5_mkpassword_plain, u8. rewrite !Z.mod_small by lia.
  cbn [app parse_userpass]. rewrite Nat2Z.id, take_app_length, drop_app_length.
  now rewrite !Z.eqb_refl.
Qed.

Lemma socks5_password_read_witness :
  parse_userpass (Socks5.socks5_mkpassword_plain (B# "joe") (B# "secret")) =
    Some (B# "joe", B# "secret").
Proof. apply (socks5_password_read (B# "joe") (B# "secret")). reflexivity. Defined.

(** The SOCKS4 request is read as the destination and the configured user
    name, empty without one. *)
Lemma socks4_request_read (login : option (list Z)) (dest : sockaddr_in) :
  0 <= sin_addr dest < 2 ^ 32 -> 0 <= sin_port dest < 2 ^ 16 ->
  forallb (fun c => negb (c =? 0)) (default [] login) = true ->
  parse_socks4 (Socks4.socks4_request login dest) =
    Some (sin_port dest, sin_addr dest, default [] login).
Proof.
  intros Ha Hp Hl. unfold Socks4.socks4_request.
  pose proof (of_be_be32 (sin_addr dest) Ha) as H1. pose proof (of_be_be16 (sin_port dest) Hp) as H2.
  unfold be32, be16 in *. cbn [app parse_socks4].
  change (match login with Some l => l | None => [] end) with (default [] login).
  rewrite until_nul_app by done. now rewrite H1, H2.
Qed.

Lemma socks4_request_read_witness :
  parse_socks4 (Socks4.socks4_request (Some (B# "bob")) (SockAddr AF_INET 80 0x01020304)) =
    Some (80, 0x01020304, B# "bob").
Proof.
  apply (socks4_request_read (Some (B# "bob")) (SockAddr AF_INET 80 0x01020304)); cbn; lia || reflexivity.
Defined.

(** ** The SOCKS5 handshake *)

Section Handshake5.
Context `{BC : BaseConfig} (c : nat) (w : world) (L : lucky w).
Import Socks5.

Lemma runs_write_helper x inp out mk st wm data :
  relay_at x inp out ->
  match mk with Some f => runs c w x (f c) (Some data) x | None => data = [] end ->
  exists x', runs c w x (let! _ := redsocks_write_helper c mk st wm in ret tt) tt x' /\
    relay_at x' inp (out ++ data) /\ waits x' wm /\ talked x x' /\
    c_state x' = st /\ payload x' = payload x.
Proof.
  intros Hr Hmk. destruct (runs_write_helper_ex c w L x inp out mk st wm wm data Hr Hmk)
    as (x' & H & H'). exists x'. split; [|done].
  eapply runs_bind; [exact H|apply runs_ret].
Qed.

(** Touching the client changes nothing the handshake reads. *)
Lemma runs_touched {A} x (m : M A) a (P : redsocks_client -> Prop) :
  (forall y, c_relay y = c_relay x -> talked x y -> c_state y = c_state x ->
     payload y = payload x -> exists x', runs c w y m a x' /\ P x') ->
  exists x', runs c w x (redsocks_touch_client c ;; m) a x' /\ P x'.
Proof.
  intros H. destruct (H (with_last_event (fun _ => tv_zero) x)) as (x' & Hm & HP);
    [done|now constructor|done|done|].
  exists x'. split; [|done]. eapply runs_bind; [apply runs_touch, L|exact Hm].
Qed.

(** Bytes from the server. *)
Definition receive (data : list Z) : M unit :=
  upd_bev c Srelay (with_be_input (fun i => i ++ data)).

Lemma runs_receive x inp out data :
  relay_at x inp out ->
  exists x', runs c w x (receive data) tt x' /\ relay_at x' (inp ++ data) out /\ talked x x' /\
    c_state x' = c_state x /\ payload x' = payload x.
Proof.
  intros (b & Hb & <- & <-). eexists. split; [apply (runs_upd_bev c w x Srelay b _ Hb)|].
  split; [eexists; split; [reflexivity|done]|]. split; [now constructor|done].
Qed.

Lemma relay_at_eq x y inp out : c_relay y = c_relay x -> relay_at x inp out -> relay_at y inp out.
Proof. unfold relay_at. now intros ->. Qed.


Definition inst_of (x : redsocks_client) : redsocks_instance :=
  default inst_default (w_inst w !! c_instance x).





















End Handshake5.


(** A client of the instance that was just connected to its relay. *)
Definition demo_client (pl : payload_t) : redsocks_client :=
  Client true 0 (Some (Bev 10 (B# "GET") [] EV_RDWR 0 0 0 cb_null cb_null))
    (Some (Bev 11 [] [] EV_WRITE 0 0 0 cb_subsys_read cb_subsys_write))
    (SockAddr AF_INET 4000 0x0a000001) (SockAddr AF_INET 80 0x08080808) 0 0 0 tv_zero tv_zero pl
    (Pump (Pipe 0 0 0) (Pipe 0 0 0) event_blank event_blank event_blank event_blank).

Definition demo_instance (ss : relay_subsys) : redsocks_instance :=
  Instance (Config (SockAddr AF_INET 12345 0) (SockAddr AF_INET 1080 0) None (Some (B# "joe"))
    (Some (B# "secret")) 128 false DISCLOSE_NONE ONFAIL_CLOSE)
    (Event true 3 true false) [0%nat] ss None 0.

Definition demo_world (ss : relay_subsys) : world :=
  World [] [] [0%nat] {[ 0%nat := demo_instance ss ]} ∅ 1 1 0 None [].


(** ** The SOCKS4 handshake *)

(** The same for SOCKS4: the request is sent, a granted reply of eight bytes
    is consumed and the relay starts with what follows it. *)
Lemma socks4_handshake_relays `{BC : BaseConfig} (c : nat) (w : world) (x : redsocks_client)
    (reply rest cinp cout : list Z) :
  let i := inst_of w x in
  lucky w -> c_state x = Socks4.socks4_new -> relay_at x [] [] -> client_at x cinp cout ->
  use_splice (config i) = false -> relay_ss i = socks4_subsys -> length reply = 6%nat ->
  exists x',
    (Socks4.socks4_write_cb c ;; receive c ([0; 90] ++ reply ++ rest) ;; Socks4.socks4_read_cb c)
      (setc c x w) = Ret tt (setc c x' w) /\
    pumping x' /\ client_at x' cinp cout /\
    relay_at x' rest (Socks4.socks4_request (login (config i)) (destaddr x)).
Proof.
  intros i L Hst Hr Hc Hs Hss Hl.
  assert (exists x1, runs c w x (Socks4.socks4_write_cb c) tt x1 /\
    relay_at x1 [] (Socks4.socks4_request (login (config i)) (destaddr x)) /\ talked x x1 /\
    c_state x1 = Socks4.socks4_request_sent) as (x1 & R1 & A1 & T1 & S1).
  { unfold Socks4.socks4_write_cb. apply (runs_touched c w L x). intros y Ey Ty Sy Py.
    pose proof (relay_at_eq _ _ _ _ Ey Hr) as Hy.
    destruct (runs_write_helper c w L y [] [] (Some Socks4.socks4_mkconnect)
      Socks4.socks4_request_sent Socks4.sizeof_reply
      (Socks4.socks4_request (login (config i)) (destaddr x)) Hy)
      as (x1 & Hw & K1 & _ & K2 & K3 & K4).
    { eapply runs_bind; [apply runs_get_client|]. eapply runs_bind; [apply runs_get_inst|].
      rewrite (tk_instance _ _ Ty), (tk_dest _ _ Ty). apply runs_mkevbuffer, L. }
    exists x1. split; [|split; [done|split; [eapply talked_trans; eauto|done]]].
    eapply runs_bind; [apply runs_get_client|]. rewrite Sy, Hst. exact Hw. }
  destruct (runs_receive c w x1 [] _ ([0; 90] ++ reply ++ rest) A1) as (x2 & R2 & A2 & T2 & S2 & _).
  cbn [app] in A2. rewrite S1 in S2.
  set (y := with_last_event (fun _ => tv_zero) x2).
  destruct (runs_read_expected c w y _ _ sizes_greater_equal 8 A2) as (x3 & R3 & A3 & T3 & S3 & _);
    [apply Z.leb_le; cbn [length]; rewrite length_app, Hl; lia|
     cbn [length]; rewrite length_app, Hl; lia|].
  replace (drop (Z.to_nat 8) (0 :: 90 :: reply ++ rest)) with rest in A3
    by (change (rest = drop 6 (reply ++ rest)); now rewrite <- Hl, drop_app_length).
  set (x4 := with_c_state (fun _ => Socks4.socks4_reply_came) x3).
  assert (talked x x4) as T4.
  { assert (talked x2 y) as T2y by now constructor.
    destruct (talked_trans _ _ _ T1 (talked_trans _ _ _ T2 (talked_trans _ _ _ T2y T3))).
    now constructor. }
  destruct (runs_start_relay c w L x4 rest (Socks4.socks4_request (login (config i)) (destaddr x))
    cinp cout) as (x' & Hx & X1 & X2 & X3 & _).
  - rewrite (tk_instance _ _ T4). exact Hs.
  - rewrite (tk_instance _ _ T4). unfold i, inst_of in Hss. now rewrite Hss.
  - exact A3.
  - destruct Hc as (b & Hb & Hc). exists b. now rewrite (tk_client _ _ T4).
  - exists x'. split; [|done].
    eapply runs_bind; [exact R1|]. eapply runs_bind; [exact R2|].
    eapply runs_bind; [apply runs_get_client|].
    eapply runs_bind; [apply runs_assert; now rewrite S2|].
    eapply runs_bind; [apply runs_touch, L|]. rewrite S2.
    eapply runs_bind; [exact R3|]. eapply runs_bind; [apply runs_upd_client|]. exact Hx.
Qed.

Lemma socks4_handshake_relays_witness :
  exists x',
    (Socks4.socks4_write_cb (BC := Build_BaseConfig 10 0 1000 0 0 0) 0 ;;
     receive 0 ([0; 90] ++ [0; 80; 8; 8; 8; 8] ++ B# "HTTP") ;;
     Socks4.socks4_read_cb (BC := Build_BaseConfig 10 0 1000 0 0 0) 0)
      (setc 0 (demo_client no_payload) (demo_world socks4_subsys)) =
      Ret tt (setc 0 x' (demo_world socks4_subsys)) /\
    pumping x' /\ client_at x' (B# "GET") [] /\
    relay_at x' (B# "HTTP") ([4; 1; 0; 80; 8; 8; 8; 8; 106; 111; 101; 0]).
Proof.
  apply (socks4_handshake_relays (BC := Build_BaseConfig 10 0 1000 0 0 0) 0
    (demo_world socks4_subsys) (demo_client no_payload) [0; 80; 8; 8; 8; 8] (B# "HTTP") (B# "GET") []).
  - split; reflexivity.
  - reflexivity.
  - eexists. split; [reflexivity|]. split; reflexivity.
  - eexists. split; [reflexivity|]. split; reflexivity.
  - reflexivity.
  - reflexivity.
  - reflexivity.
Defined.

(** ** Replies that are refused *)

Section Refusal.
Context `{BC : BaseConfig}.

(** The client [x] is dropped: its descriptors are closed, nothing else is
    touched. *)
Definition gives_up (c : nat) (x : redsocks_client) (w w' : world) : Prop :=
  dropped c (link_of x)
    (client_fds (use_splice (config (default inst_default (w_inst w !! c_instance x)))) x) w w'.

Lemma touch_wp E c x w (Q : unit -> world -> Prop) :
  w_clients w !! c = Some x ->
  (forall w' t, frame c [] w w' -> w_clients w' !! c = Some (with_last_event (fun _ => t) x) ->
     Q tt w') ->
  wp E (redsocks_touch_client c) Q w.
Proof.
  intros Hx HQ.
  apply wp_bind. eapply wp_get_client_some; [exact Hx|]. apply wp_bind, wp_bind, wp_sys_quiet.
  intros r w1 H1. pose proof (quiet_lookup _ _ _ _ _ H1 Hx) as Hx1.
  destruct (negb (r =? 0)).
  - apply wp_ret. apply (HQ w1 (last_event x)); [now apply quiet_frame|].
    rewrite Hx1. now destruct x.
  - apply wp_bind, gettimeofday_quiet. intros t w2 H2 Ht.
    pose proof (quiet_lookup _ _ _ _ _ H2 Hx1) as Hx2. apply wp_ret.
    eapply wp_upd_client_some; [exact Hx2|]. apply (HQ _ t).
    + eapply (frame_trans _ [] []); [apply quiet_frame, (quiet_trans_0 _ _ _ _ H1 H2)|].
      apply frame_update; [done|done|]. intros _. exact (proj1 Ht).
    + cbn. apply lookup_insert_eq.
Qed.

(** Dropping after the client was touched in ways that leave its descriptors. *)
Lemma drop_touched E c x y w w1 (Q : unit -> world -> Prop) :
  frame c [] w w1 -> w_clients w !! c = Some x -> w_clients w1 !! c = Some y ->
  (forall b, client_fds b y = client_fds b x) -> (forall w', gives_up c x w w' -> Q tt w') ->
  wp E (redsocks_drop_client c) Q w1.
Proof.
  intros F Hx Hy Hfds HQ. pose proof (frame_link _ _ _ _ _ _ F Hx Hy) as Hlk.
  eapply drop_client_dropped; [exact Hy|]. intros w2 D. apply HQ. unfold gives_up.
  assert (c_instance y = c_instance x) as Hi by (unfold link_of in Hlk; congruence).
  rewrite Hfds, Hi, (acct_config _ _ _ _ (f_acct _ _ _ _ F)), Hlk in D.
  rewrite <- (app_nil_r (client_fds _ x)). exact (frame_dropped _ _ _ _ _ _ _ F D).
Qed.

(** [redsocks_read_expected] on a relay whose input is [inp]. *)
Lemma read_expected_wp E c x y b w w1 cmp n (Q : option (list Z) -> world -> Prop) :
  frame c [] w w1 -> w_clients w !! c = Some x -> w_clients w1 !! c = Some y ->
  (forall b, client_fds b y = client_fds b x) -> c_relay y = Some b ->
  0 <= n -> (cmp (Z.of_nat (length (be_input b))) n = true -> n <= Z.of_nat (length (be_input b))) ->
  (cmp (Z.of_nat (length (be_input b))) n = true -> forall w2 z, frame c [] w w2 ->
     w_clients w2 !! c = Some z -> (forall s, client_fds s z = client_fds s x) ->
     payload z = payload y -> Q (Some (take (Z.to_nat n) (be_input b))) w2) ->
  (cmp (Z.of_nat (length (be_input b))) n = false -> forall w', gives_up c x w w' -> Q None w') ->
  wp E (redsocks_read_expected c cmp n) Q w1.
Proof.
  intros F Hx Hy Hfds Hb Hn Hcmp Hok Hbad. unfold redsocks_read_expected.
  apply wp_bind. eapply (wp_get_bev_some E c Srelay y b); [exact Hy|exact Hb|].
  destruct (cmp _ n) eqn:Hc.
  - apply wp_bind. eapply (wp_upd_bev_some E c Srelay y b); [exact Hy|exact Hb|].
    apply wp_bind, wp_assert; [intros _|intros Hf; exfalso; specialize (Hcmp eq_refl);
      apply Z.eqb_neq in Hf; apply Hf; rewrite length_take_le; lia].
    apply wp_ret. eapply Hok; [done| | | |].
    + eapply (frame_trans _ [] []); [exact F|]. now apply frame_update.
    + cbn. apply lookup_insert_eq.
    + intros s. rewrite <- Hfds. unfold client_fds. cbn. now rewrite Hb.
    + done.
  - apply wp_bind. eapply drop_touched; [exact F|exact Hx|exact Hy|exact Hfds|].
    intros w' H. now apply wp_ret, Hbad.
Qed.

Import Socks5.

Lemma two_bytes (l : list Z) : (Z.of_nat (length l) =? 2) = true -> exists a b, l = [a; b].
Proof.
  intros H. apply Z.eqb_eq in H. destruct l as [|a [|b [|]]]; cbn in H; try lia. eauto.
Qed.

(** The replies a client in state [st] goes on with. *)
Definition acceptable (st d : Z) (inp : list Z) : bool :=
  if st =? socks5_method_sent then
    (Z.of_nat (length inp) =? 2) && socks5_is_known_auth_method (nth 0 inp 0) (nth 1 inp 0) d
  else if st =? socks5_auth_sent then
    (Z.of_nat (length inp) =? 2) && (nth 0 inp 0 =? 1) && (nth 1 inp 0 =? 0)
  else if st =? socks5_request_sent then
    (4 <=? Z.of_nat (length inp)) && (nth 0 inp 0 =? 5) && (nth 1 inp 0 =? 0) &&
    ((nth 3 inp 0 =? 1) || (nth 3 inp 0 =? 3) || (nth 3 inp 0 =? 4))
  else true.

(** In any environment, a reply a conforming server would not send (too
    short, wrong version, refused method, credentials or command, unknown
    address type) drops the client, and nothing else happens. *)
Lemma socks5_refused_drops (c : nat) (w : world) (x : redsocks_client) (b : bufferevent) :
  w_clients w !! c = Some x -> c_relay x = Some b ->
  acceptable (c_state x) (do_password_of x) (be_input b) = false ->
  exists w', socks5_read_cb c w = Ret tt w' /\ gives_up c x w w'.
Proof.
  intros Hx Hb Hacc.
  assert (wp safe (socks5_read_cb c) (fun _ => gives_up c x w) w) as H.
  2:{ unfold wp in H. destruct (socks5_read_cb c w) as [[] w'|]; [eauto|done]. }
  unfold socks5_read_cb. apply wp_bind. eapply touch_wp; [exact Hx|]. intros w1 t F1 Hy.
  set (y := with_last_event (fun _ => t) x) in *.
  apply wp_bind. eapply wp_get_client_some; [exact Hy|].
  change (c_state y) with (c_state x). unfold acceptable in Hacc.
  destruct (c_state x =? socks5_method_sent); [|destruct (c_state x =? socks5_auth_sent);
    [|destruct (c_state x =? socks5_request_sent); [|done]]].
  - apply wp_bind. eapply (read_expected_wp safe c x y b w w1 sizes_equal 2);
      [done..|lia|unfold sizes_equal; lia| |].
    + unfold sizes_equal. intros Hc w2 z F2 Hz Hfds Hp.
      destruct (two_bytes _ Hc) as (a0 & a1 & Hin). rewrite Hc in Hacc. rewrite Hin in *.
      change (take (Z.to_nat 2) [a0; a1]) with [a0; a1]. cbn [nth andb] in Hacc |- *.
      apply wp_bind. eapply wp_get_client_some; [exact Hz|].
      unfold do_password_of in *. rewrite Hp. change (payload y) with (payload x). rewrite Hacc.
      cbn [negb]. eapply drop_touched; eauto.
    + intros _ w' Hw'. exact Hw'.
  - apply wp_bind. eapply (read_expected_wp safe c x y b w w1 sizes_equal 2);
      [done..|lia|unfold sizes_equal; lia| |].
    + unfold sizes_equal. intros Hc w2 z F2 Hz Hfds Hp.
      destruct (two_bytes _ Hc) as (a0 & a1 & Hin). rewrite Hc in Hacc. rewrite Hin in *.
      change (take (Z.to_nat 2) [a0; a1]) with [a0; a1]. cbn [nth andb] in Hacc |- *.
      unfold socks5_password_ver, socks5_password_passed.
      destruct (a0 =? 1); cbn [negb andb] in *; [rewrite Hacc|]; eapply drop_touched; eauto.
    + intros _ w' Hw'. exact Hw'.
  - apply wp_bind. eapply (read_expected_wp safe c x y b w w1 sizes_greater_equal 4);
      [done..|lia|unfold sizes_greater_equal; lia| |].
    + intros Hc w2 z F2 Hz Hfds Hp.
      assert (exists a0 a1 a2 a3 r, be_input b = a0 :: a1 :: a2 :: a3 :: r) as
        (a0 & a1 & a2 & a3 & r & Hin).
      { apply Z.leb_le in Hc. destruct (be_input b) as [|a0 [|a1 [|a2 [|a3 r]]]]; cbn in Hc; try lia.
        eauto 6. }
      unfold sizes_greater_equal in Hc. rewrite Hc in Hacc. rewrite Hin in *.
      change (take (Z.to_nat 4) (a0 :: a1 :: a2 :: a3 :: r)) with [a0; a1; a2; a3].
      cbn [nth andb] in Hacc |- *.
      unfold socks5_ver, socks5_status_succeeded, socks5_addrtype_ipv4, socks5_addrtype_ipv6,
        socks5_addrtype_domain.
      destruct (a0 =? 5); cbn [negb andb] in *; [|eapply drop_touched; eauto].
      destruct (a1 =? 0); cbn [negb andb] in *; [|eapply drop_touched; eauto].
      destruct (a3 =? 1), (a3 =? 3), (a3 =? 4); try done. eapply drop_touched; eauto.
    + intros _ w' Hw'. exact Hw'.
Qed.

End Refusal.

(** A refused command ([status] 1, general failure). *)
Lemma socks5_refused_drops_witness :
  let x := with_c_state (fun _ => Socks5.socks5_request_sent)
    (with_bev Srelay (fun _ => Some (Bev 11 [5; 1; 0; 1; 0; 0; 0; 0; 0; 0] [] EV_RDWR 4 4 0
                                       cb_subsys_read cb_subsys_write))
       (demo_client (socks5_payload 0 0))) in
  exists w',
    Socks5.socks5_read_cb (BC := Build_BaseConfig 10 0 1000 0 0 0) 0
      (setc 0 x (demo_world socks5_subsys)) = Ret tt w' /\ w_closed w' = [11; 10].
Proof.
  destruct (socks5_refused_drops (BC := Build_BaseConfig 10 0 1000 0 0 0) 0
    (setc 0 (with_c_state (fun _ => Socks5.socks5_request_sent)
      (with_bev Srelay (fun _ => Some (Bev 11 [5; 1; 0; 1; 0; 0; 0; 0; 0; 0] [] EV_RDWR 4 4 0
                                         cb_subsys_read cb_subsys_write))
         (demo_client (socks5_payload 0 0)))) (demo_world socks5_subsys))
    (with_c_state (fun _ => Socks5.socks5_request_sent)
      (with_bev Srelay (fun _ => Some (Bev 11 [5; 1; 0; 1; 0; 0; 0; 0; 0; 0] [] EV_RDWR 4 4 0
                                         cb_subsys_read cb_subsys_write))
         (demo_client (socks5_payload 0 0))))
    (Bev 11 [5; 1; 0; 1; 0; 0; 0; 0; 0; 0] [] EV_RDWR 4 4 0 cb_subsys_read cb_subsys_write))
    as (w' & H & D); [reflexivity..|].
  exists w'. split; [exact H|]. rewrite (d_closed _ _ _ _ _ D). reflexivity.
Defined.
