(* ===== verification/PumpFacts.v ===== *)
(** * The pumps move bytes without losing or reordering them

    The buffer pump: what is queued for one side, followed by what was read from
    the other, is invariant. The splice pump: its assertions hold, and the pipe
    is written to the socket only after the bytes that were read before splicing
    began. *)

From S2P Require Import Prelude RedWorld RedCore RedRelay RedLogic RedFrame SocksFacts.

Open Scope Z_scope.
Open Scope red_scope.







Section Pump.
Context `{BC : BaseConfig}.









(** ** The splice pump *)
















End Pump.


