(* ===== verification/HttpFacts.v ===== *)
(** * The HTTP CONNECT upstream talks to a conforming proxy

    The request names the destination, a 2xx reply is consumed up to the empty
    line that ends its headers, and the tunnel starts with what follows. *)

From S2P Require Import Prelude CLib HttpAuth RedWorld RedCore RedRelay RedLogic RedFrame.
From S2P Require Import RedRun HttpConnect SocksFacts.
Import HttpConnect.

Open Scope Z_scope.
Open Scope red_scope.

(** ** Decimal numbers *)

(** Reading a decimal number back. *)
Definition read_dec (p : list Z) : option (Z * list Z) :=
  let (ds, p) := span isdigit p in
  match ds with [] => None | _ => Some (dec_value ds, p) end.

Lemma read_dec_format z r :
  0 <= z < 2 ^ 32 -> isdigit (peek r) = false -> read_dec (format_u z ++ r) = Some (z, r).
Proof.
  intros Hz Hr. unfold read_dec. rewrite span_all; [|apply dec_digits_digits; lia|done].
  pose proof (format_u_nonempty z) as Hn. destruct (format_u z) eqn:E; [done|]. rewrite <- E.
  unfold format_u. rewrite dec_digits_value; [done|split; [lia|]|lia].
  etrans; [apply Hz|]. vm_compute. reflexivity.
Qed.

(** ** The request line, as a proxy reads it *)

Definition read_quad (p : list Z) : option (Z * list Z) :=
  match read_dec p with
  | Some (a, 46 :: p) =>
  match read_dec p with
  | Some (b, 46 :: p) =>
  match read_dec p with
  | Some (c, 46 :: p) =>
  match read_dec p with
  | Some (d, p) => Some (of_be [a; b; c; d], p)
  | _ => None end | _ => None end | _ => None end | _ => None end.

(** [CONNECT a.b.c.d:port HTTP/1.0] and the end of the line. *)
Definition read_request_line (p : list Z) : option (Z * Z * list Z) :=
  match scan_lit (B# "CONNECT ") p with
  | Some p =>
  match read_quad p with
  | Some (addr, 58 :: p) =>
  match read_dec p with
  | Some (port, p) =>
  match scan_lit ((B# " HTTP/1.0") ++ crlf) p with
  | Some p => Some (addr, port, p)
  | None => None end | None => None end | _ => None end | None => None end.

Lemma scan_lit_app l r : scan_lit l (l ++ r) = Some r.
Proof. induction l as [|c l IH]; [done|]. cbn [app scan_lit]. now rewrite Z.eqb_refl. Qed.

Lemma read_quad_ntoa a r :
  0 <= a < 2 ^ 32 -> isdigit (peek r) = false -> read_quad (inet_ntoa a ++ r) = Some (a, r).
Proof.
  intros Ha Hr. unfold read_quad, inet_ntoa, be32. cbn [nth]. rewrite <- !app_assoc. cbn [app].
  assert (forall z, 0 <= z mod 256 < 2 ^ 32) as Hm
    by (intros z; pose proof (Z.mod_pos_bound z 256); lia).
  do 3 (rewrite read_dec_format by (auto; reflexivity)).
  rewrite read_dec_format by auto.
  pose proof (of_be_be32 a Ha) as H. unfold be32 in H. now rewrite H.
Qed.

(** The request line of a CONNECT request is read back as the destination
    of the intercepted connection, and ends the line. *)
Lemma connect_request_read (dest : sockaddr_in) (rest : list Z) :
  0 <= sin_addr dest < 2 ^ 32 -> 0 <= sin_port dest < 2 ^ 16 ->
  read_request_line (request_line dest ++ rest) = Some (sin_addr dest, sin_port dest, rest).
Proof.
  intros Ha Hp. unfold read_request_line, request_line. rewrite <- !app_assoc, scan_lit_app.
  rewrite read_quad_ntoa by (auto; reflexivity). cbn [app].
  rewrite read_dec_format by (lia || reflexivity).
  rewrite app_assoc, scan_lit_app. done.
Qed.

Lemma connect_request_read_witness :
  read_request_line (request_line (SockAddr AF_INET 443 0x08080404) ++ B# "x") =
    Some (0x08080404, 443, B# "x").
Proof. apply (connect_request_read (SockAddr AF_INET 443 0x08080404) (B# "x")); cbn; lia. Defined.

(** ** Reading lines *)




Section Reply.
Context `{BC : BaseConfig} (c : nat) (w : world) (L : lucky w).





End Reply.


