(* ===== verification/RedFindings.v ===== *)
(** * Where redsocks does not do what it means to

    Runs of the model, on concrete inputs, that end in a fault or in a state the
    code means to exclude. *)

From S2P Require Import Prelude CLib RedWorld RedCore RedRelay RedRun HttpConnect HttpRelay.
From S2P Require Import RedLogic RedMain RedSafety SocksFacts.

Open Scope Z_scope.
Open Scope red_scope.

(** One connection at most, idle after ten seconds. *)
Definition small_base : BaseConfig := Build_BaseConfig 1 10 60000 0 0 0.

(** Accepts a client at time 100 s; the clock reads [now] when the limit is
    checked. *)
Definition accept_script (now : Z) : list Z :=
  [10; 4000; 0x0a000001; 0; 0; 80; 0x08080808; 0; 0; 0; 0; 0; 100; 0; 0; 100; 0; 0; now; 0].

Definition full_world : world :=
  after (@handle small_base (ev_accept 0))
    (with_w_script (fun _ => accept_script 103) RedSafety.demo_world).

(** Sixty seconds later the back-off timer fires. *)
Definition stuck_world : world :=
  after (@handle small_base ev_backoff) (with_w_script (fun _ => [163; 0]) full_world).

(** When the back-off timer fires and idle connections are dropped, the
    timer is not armed again and no listener is: the process, below its limit,
    accepts no connection any more. *)
Lemma backoff_stops_accepting :
  configured RedSafety.demo_world /\ rtc (@step small_base) RedSafety.demo_world stuck_world /\
  redsocks_conn stuck_world < @redsocks_conn_max small_base /\
  accept_backoff_ev stuck_world = None /\ ready stuck_world (ev_accept 0) = false /\
  ready RedSafety.demo_world (ev_accept 0) = true.
Proof.
  split; [exact demo_configured|]. split.
  - eapply (rtc_l _ _ full_world).
    + apply (Step _ _ (ev_accept 0) (accept_script 103)); vm_compute; reflexivity.
    + apply rtc_once. apply (Step _ _ ev_backoff [163; 0]); vm_compute; reflexivity.
  - vm_compute. repeat split.
Qed.

(** When the connection that reaches the limit is accepted and checked at
    the same clock reading, it is dropped as idle, and [redsocks_accept_client]
    goes on with the freed client. *)
Lemma accept_uses_freed_client :
  exists w', @handle small_base (ev_accept 0)
    (with_w_script (fun _ => accept_script 100) RedSafety.demo_world) = Fault (UseAfterFree 0) w'.
Proof. eexists. vm_compute. reflexivity. Qed.

(** A client of an HTTP relay instance that waits for the reply. *)
Definition relay_client (inp : list Z) : redsocks_client :=
  with_c_state (fun _ => HttpRelay.httpr_request_sent)
    (with_bev Srelay (fun _ => Some (Bev 11 inp [] EV_RDWR 1 4096 0 cb_subsys_read cb_subsys_write))
       (demo_client (httpr_payload (Httpr None None 0 (Some []) (Some []))))).

(** The bytes queued for the client after the reply arrives in two parts. *)
Definition forwarded (part1 part2 : list Z) : option (list Z) :=
  match (HttpRelay.httpr_relay_read_cb (BC := small_base) 0 ;;
         receive 0 part2 ;;
         HttpRelay.httpr_relay_read_cb (BC := small_base) 0)
          (setc 0 (relay_client part1) (SocksFacts.demo_world http_relay_subsys)) with
  | Ret _ w' =>
      match w_clients w' !! 0%nat with
      | Some x => match c_client x with Some b => Some (be_output b) | None => None end
      | None => None
      end
  | Fault _ _ => None
  end.

(** [httpr_relay_read_cb] empties its buffer at every call, so the lines of
    a reply that were read by an earlier call never reach the client: here the
    status line is lost. *)
Lemma split_reply_loses_lines :
  forwarded ((B# "HTTP/1.0 200 OK") ++ HttpConnect.crlf)
            ((B# "A: b") ++ HttpConnect.crlf ++ HttpConnect.crlf) =
    Some ((B# "A: b") ++ HttpConnect.crlf ++ HttpConnect.crlf).
Proof. vm_compute. reflexivity. Qed.

(** A 407 reply without a [Proxy-Authenticate] header makes the HTTP relay
    free the status line twice. *)
Lemma missing_challenge_double_free :
  exists w', HttpRelay.httpr_relay_read_cb (BC := small_base) 0
    (setc 0 (relay_client ((B# "HTTP/1.0 407 Auth") ++ HttpConnect.crlf ++ HttpConnect.crlf))
       (SocksFacts.demo_world http_relay_subsys)) = Fault DoubleFree w'.
Proof. eexists. vm_compute. reflexivity. Qed.

(** A challenge that is only the word [Digest] makes [httpc_mkconnect] read
    behind the stored string ([last_auth_query + 7]). *)
Lemma bare_digest_out_of_bounds (i : redsocks_instance) (dest : sockaddr_in) (w : world) :
  exists w', HttpConnect.httpc_auth (with_last_auth_query (fun _ => Some (B# "Digest")) i) dest w =
    Fault OutOfBounds w'.
Proof.
  assert (wp (fun f => f = OutOfBounds)
    (HttpConnect.httpc_auth (with_last_auth_query (fun _ => Some (B# "Digest")) i) dest)
    (fun _ _ => False) w) as H.
  2:{ unfold wp in H. destruct (HttpConnect.httpc_auth _ _ w) as [|f w']; [done|].
      exists w'. now rewrite H. }
  unfold HttpConnect.httpc_auth. cbn [last_auth_query with_last_auth_query].
  change (strncasecmp (B# "Digest") (B# "Basic") 5 =? 0) with false.
  change (strncasecmp (B# "Digest") (B# "Digest") 6 =? 0) with true. cbv iota zeta.
  apply wp_bind, wp_sys. intros r1 s1. apply wp_bind, wp_sys. intros r2 s2.
  now apply wp_raise.
Qed.
