(* ===== verification/Mem.v ===== *)
(** * Byte memory

    A buffer is a list of bytes; reading and writing at an offset, and the
    little-endian integers kept there. *)

From S2P Require Import Prelude.

Open Scope Z_scope.

Definition mem_read (m : list Z) (off n : nat) : list Z := take n (drop off m).
Definition mem_write (m : list Z) (off : nat) (d : list Z) : list Z :=
  take off m ++ d ++ drop (off + length d) m.

Definition le16 (z : Z) : list Z := [z mod 256; z / 256 mod 256].
Definition le32 (z : Z) : list Z :=
  [z mod 256; z / 256 mod 256; z / 65536 mod 256; z / 16777216 mod 256].
Definition of_le (l : list Z) : Z := foldr (fun b acc => b + 256 * acc) 0 l.

Lemma of_le_le16 z : 0 <= z < 65536 -> of_le (le16 z) = z.
Proof. intros. unfold of_le, le16. cbn [foldr]. Z.div_mod_to_equations; lia. Qed.

Lemma of_le_le32 z : 0 <= z < 4294967296 -> of_le (le32 z) = z.
Proof. intros. unfold of_le, le32. cbn [foldr]. Z.div_mod_to_equations; lia. Qed.

Lemma mem_write_length m off d :
  (off + length d <= length m)%nat -> length (mem_write m off d) = length m.
Proof.
  intros H. unfold mem_write. rewrite !length_app, length_take, length_drop. lia.
Qed.

Lemma mem_read_length m off n : (off + n <= length m)%nat -> length (mem_read m off n) = n.
Proof. intros H. unfold mem_read. rewrite length_take, length_drop. lia. Qed.

Lemma mem_read_write m off d :
  (off + length d <= length m)%nat -> mem_read (mem_write m off d) off (length d) = d.
Proof.
  intros H. unfold mem_read, mem_write.
  rewrite drop_app_length' by (rewrite length_take; lia). apply take_app_length.
Qed.

Lemma mem_read_before m off d off' n :
  (off' + n <= off)%nat -> (off <= length m)%nat ->
  mem_read (mem_write m off d) off' n = mem_read m off' n.
Proof.
  intros H Hm. unfold mem_read, mem_write.
  rewrite drop_app_le by (rewrite length_take; lia).
  rewrite take_app_le by (rewrite length_drop, length_take; lia).
  rewrite skipn_firstn_comm, take_take. f_equal. lia.
Qed.

Lemma mem_read_after m off d off' n :
  (off + length d <= off')%nat -> (off + length d <= length m)%nat ->
  mem_read (mem_write m off d) off' n = mem_read m off' n.
Proof.
  intros H Hm. unfold mem_read, mem_write.
  rewrite drop_app_ge by (rewrite length_take; lia). rewrite length_take.
  rewrite drop_app_ge by lia. rewrite drop_drop. f_equal. f_equal. lia.
Qed.

(** Reading outside the part that was written. *)
Lemma mem_read_other m off d off' n :
  (off' + n <= off \/ off + length d <= off')%nat -> (off + length d <= length m)%nat ->
  mem_read (mem_write m off d) off' n = mem_read m off' n.
Proof. intros [H|H] Hm; [apply mem_read_before; lia|now apply mem_read_after]. Qed.

Lemma mem_read_split m off a b : mem_read m off (a + b) = mem_read m off a ++ mem_read m (off + a) b.
Proof. unfold mem_read. rewrite <- drop_drop. now rewrite take_take_drop. Qed.

Lemma mem_read_0 m off : mem_read m off 0 = [].
Proof. done. Qed.
