(* ===== verification/ChunkBuffer.v ===== *)
(** * The circular packet buffer ([badvpn/structure/ChunkBuffer2.h])

    Packets are stored in an array of four-byte blocks: a block with the length,
    then the data. A packet is never split at the end of the array: when a packet
    of maximal size does not fit behind the last one, the array is taken to end
    there ([wrap]) and writing goes on at its beginning. Functions return [None]
    when one of their assertions fails. *)

From S2P Require Import Prelude Mem.

Open Scope Z_scope.

Module ChunkBuffer2.

(** ** Data *)

Definition sizeof_block : Z := 4.

(** [bdivide_up] *)
Definition bdivide_up (a b : Z) : Z := let r := a mod b in if 0 <? r then a / b + 1 else a / b.

(** [ChunkBuffer2]; the two pointers into the array are byte offsets. *)
Record ChunkBuffer2 := CB {
  buffer : list Z;
  size : Z;
  wrap : Z;
  start : Z;
  used : Z;
  mtu : Z;
  input_dest : option Z;
  input_avail : Z;
  output_dest : option Z;
  output_avail : Z;
}.

(** ** Operations *)

Definition cb_end (b : ChunkBuffer2) : Z :=
  if used b >=? wrap b - start b then used b - (wrap b - start b) else start b + used b.

(** [buf->buffer[i].len] *)
Definition block_len (b : ChunkBuffer2) (i : Z) : Z :=
  s32 (of_le (mem_read (buffer b) (Z.to_nat (4 * i)) 4)).

Definition set_block_len (b : ChunkBuffer2) (i len : Z) : ChunkBuffer2 :=
  CB (mem_write (buffer b) (Z.to_nat (4 * i)) (le32 len)) (size b) (wrap b) (start b) (used b) (mtu b)
    (input_dest b) (input_avail b) (output_dest b) (output_avail b).

Definition assert_buffer (b : ChunkBuffer2) : bool :=
  (0 <? size b) && (0 <? wrap b) && (wrap b <=? size b) && (0 <=? start b) && (start b <? wrap b) &&
  (0 <=? used b) && (used b <=? wrap b) &&
  ((wrap b =? size b) || (used b >=? wrap b - start b)) && (0 <=? mtu b).

(** The number of free blocks behind the last packet. *)
Definition free_blocks (b : ChunkBuffer2) : Z :=
  if used b >=? wrap b - start b then start b - cb_end b else size b - cb_end b.

(** What [input_dest] and [input_avail] have to be. *)
Definition input_of (b : ChunkBuffer2) : option Z * Z :=
  if size b - cb_end b - 1 <? mtu b then (None, -1)
  else if 0 <? free_blocks b then
    (Some (4 * (cb_end b + 1)), s32 ((free_blocks b - 1) * sizeof_block))
  else (None, -1).

Definition blocks_of (len : Z) : Z := bdivide_up len sizeof_block.

Definition assert_output (b : ChunkBuffer2) : bool :=
  let datalen := block_len b (start b) in
  (0 <=? datalen) && (blocks_of datalen <=? used b - 1) && (blocks_of datalen <=? wrap b - start b - 1).

Definition assert_io (b : ChunkBuffer2) : bool :=
  bool_decide ((input_dest b, input_avail b) = input_of b) &&
  (if 0 <? used b then
     assert_output b && bool_decide (output_dest b = Some (4 * (start b + 1))) &&
     (output_avail b =? block_len b (start b))
   else bool_decide (output_dest b = None) && (output_avail b =? -1)).

Definition update_input (b : ChunkBuffer2) : ChunkBuffer2 :=
  CB (buffer b) (size b) (wrap b) (start b) (used b) (mtu b)
    (input_of b).1 (input_of b).2 (output_dest b) (output_avail b).

Definition update_output (b : ChunkBuffer2) : option ChunkBuffer2 :=
  if 0 <? used b then
    if assert_output b then
      Some (CB (buffer b) (size b) (wrap b) (start b) (used b) (mtu b)
              (input_dest b) (input_avail b) (Some (4 * (start b + 1))) (block_len b (start b)))
    else None
  else Some (CB (buffer b) (size b) (wrap b) (start b) (used b) (mtu b)
               (input_dest b) (input_avail b) None (-1)).

(** [ChunkBuffer2_calc_blocks]; -1 when the number does not fit in an [int]. *)
Definition ChunkBuffer2_calc_blocks (chunk_len num : Z) : Z :=
  let chunk_data_blocks := s32 (bdivide_up chunk_len sizeof_block) in
  if chunk_data_blocks >? INT_MAX - 1 then -1
  else
    let chunk_blocks := 1 + chunk_data_blocks in
    if num >? INT_MAX - 1 then -1
    else
      let num_chunks := num + 1 in
      if chunk_blocks >? INT_MAX / num_chunks then -1 else chunk_blocks * num_chunks.

Definition checked (ok : bool) (b : option ChunkBuffer2) : option ChunkBuffer2 := if ok then b else None.

(** The assertions at the end of an operation. *)
Definition checked_io (b : ChunkBuffer2) : option ChunkBuffer2 := checked (assert_io b) (Some b).

Definition ChunkBuffer2_Init (buf : list Z) (blocks mtu_bytes : Z) : option ChunkBuffer2 :=
  checked ((0 <? blocks) && (0 <=? mtu_bytes))
    (let b := CB buf blocks blocks 0 0 (s32 (bdivide_up mtu_bytes sizeof_block)) None 0 None 0 in
     checked (assert_buffer b) (b ← update_output (update_input b); checked_io b)).

Definition with_used (u : Z) (b : ChunkBuffer2) : ChunkBuffer2 :=
  CB (buffer b) (size b) (wrap b) (start b) u (mtu b) (input_dest b) (input_avail b) (output_dest b)
    (output_avail b).
Definition with_wrap (w : Z) (b : ChunkBuffer2) : ChunkBuffer2 :=
  CB (buffer b) (size b) w (start b) (used b) (mtu b) (input_dest b) (input_avail b) (output_dest b)
    (output_avail b).
Definition with_start (s : Z) (b : ChunkBuffer2) : ChunkBuffer2 :=
  CB (buffer b) (size b) (wrap b) s (used b) (mtu b) (input_dest b) (input_avail b) (output_dest b)
    (output_avail b).

Definition ChunkBuffer2_SubmitPacket (b : ChunkBuffer2) (len : Z) : option ChunkBuffer2 :=
  checked (bool_decide (input_dest b <> None) && (0 <=? len) && (len <=? input_avail b))
    (checked (assert_buffer b && assert_io b)
      (let e := cb_end b in
       let blocklen := blocks_of len in
       checked ((blocklen <=? size b - e - 1) &&
                ((used b <? wrap b - start b) || (blocklen <=? start b - e - 1)))
         (let b := set_block_len b e len in
          let b := with_used (used b + (1 + blocklen)) b in
          let b := if (used b <=? wrap b - start b) && (mtu b >? size b - (e + 1 + blocklen) - 1)
                   then with_wrap (e + 1 + blocklen) b else b in
          checked (assert_buffer b)
            (let b := update_input b in
             b ← (if used b =? 1 + blocklen then update_output b else Some b);
             checked_io b)))).

Definition ChunkBuffer2_ConsumePacket (b : ChunkBuffer2) : option ChunkBuffer2 :=
  checked (bool_decide (output_dest b <> None))
    (checked (assert_buffer b && assert_io b)
      (checked ((1 <=? wrap b - start b) && (1 <=? used b))
        (let blocklen := blocks_of (block_len b (start b)) in
         checked ((blocklen <=? wrap b - start b - 1) && (blocklen <=? used b - 1))
           (let data_wrapped := used b >=? wrap b - start b in
            let b := with_used (used b - (1 + blocklen)) (with_start (start b + (1 + blocklen)) b) in
            let b := if start b =? wrap b then with_wrap (size b) (with_start 0 b) else b in
            checked (assert_buffer b)
              (let b := if data_wrapped then update_input b else b in
               b ← update_output b; checked_io b))))).

(** The producer writes a packet to [input_dest] before it is submitted. *)
Definition fill_input (b : ChunkBuffer2) (p : list Z) : ChunkBuffer2 :=
  match input_dest b with
  | None => b
  | Some d =>
      CB (mem_write (buffer b) (Z.to_nat d) p) (size b) (wrap b) (start b) (used b) (mtu b)
        (input_dest b) (input_avail b) (output_dest b) (output_avail b)
  end.

(** What the consumer finds at [output_dest]. *)
Definition output_packet (b : ChunkBuffer2) : option (list Z) :=
  (fun d => mem_read (buffer b) (Z.to_nat d) (Z.to_nat (output_avail b))) <$> output_dest b.

(** ** The packets in the buffer *)

(** The blocks a packet takes, with its header. *)
Definition packet_blocks (p : list Z) : Z := 1 + blocks_of (Z.of_nat (length p)).

Definition total_blocks (q : list (list Z)) : Z := foldr (fun p n => packet_blocks p + n) 0 q.

(** The packets [q] are stored one behind the other from the block [pos] on, none
    of them starting behind the block [lim]. *)
Fixpoint stored (lim : Z) (m : list Z) (pos : Z) (q : list (list Z)) : Prop :=
  match q with
  | [] => True
  | p :: q =>
      pos <= lim /\
      mem_read m (Z.to_nat (4 * pos)) 4 = le32 (Z.of_nat (length p)) /\
      mem_read m (Z.to_nat (4 * (pos + 1))) (length p) = p /\
      stored lim m (pos + packet_blocks p) q
  end.

Lemma blocks_of_bounds n : 0 <= n -> n <= 4 * blocks_of n < n + 4.
Proof.
  intros H. unfold blocks_of, bdivide_up, sizeof_block.
  pose proof (Z.mod_pos_bound n 4). pose proof (Z.div_mod n 4).
  destruct (0 <? n mod 4) eqn:E; lia.
Qed.

Lemma packet_blocks_bounds p :
  1 <= packet_blocks p /\ Z.of_nat (length p) <= 4 * (packet_blocks p - 1) < Z.of_nat (length p) + 4.
Proof. unfold packet_blocks. pose proof (blocks_of_bounds (Z.of_nat (length p))). lia. Qed.

Lemma total_blocks_cons p q : total_blocks (p :: q) = packet_blocks p + total_blocks q.
Proof. done. Qed.

Lemma total_blocks_nonneg q : 0 <= total_blocks q.
Proof.
  induction q as [|p q IH]; [done|]. rewrite total_blocks_cons.
  pose proof (packet_blocks_bounds p). lia.
Qed.

Lemma total_blocks_app q1 q2 : total_blocks (q1 ++ q2) = total_blocks q1 + total_blocks q2.
Proof.
  induction q1 as [|p q1 IH]; [done|]. rewrite <- app_comm_cons, !total_blocks_cons, IH. lia.
Qed.

Lemma total_blocks_pos q : q <> [] -> 0 < total_blocks q.
Proof.
  destruct q as [|p q]; [done|]. intros _. rewrite total_blocks_cons. pose proof (packet_blocks_bounds p).
  pose proof (total_blocks_nonneg q). lia.
Qed.

Lemma stored_app lim m pos q1 q2 :
  stored lim m pos (q1 ++ q2) <-> stored lim m pos q1 /\ stored lim m (pos + total_blocks q1) q2.
Proof.
  revert pos. induction q1 as [|p q1 IH]; intros pos.
  - cbn. rewrite Z.add_0_r. tauto.
  - rewrite <- app_comm_cons, total_blocks_cons, Z.add_assoc. cbn [stored]. rewrite IH. tauto.
Qed.

(** A write outside the blocks of the packets leaves them alone. *)
Lemma stored_frame lim m pos q off d :
  0 <= pos -> stored lim m pos q -> (off + length d <= length m)%nat ->
  4 * (pos + total_blocks q) <= Z.of_nat off \/ Z.of_nat (off + length d) <= 4 * pos ->
  stored lim (mem_write m off d) pos q.
Proof.
  revert pos. induction q as [|p q IH]; intros pos Hp Hs Hm Ho; [done|].
  destruct Hs as (H0 & H1 & H2 & H3). rewrite total_blocks_cons in Ho.
  pose proof (packet_blocks_bounds p) as [Hb1 Hb2]. pose proof (total_blocks_nonneg q).
  split; [done|]. split; [rewrite mem_read_other; [done|lia|done]|].
  split; [rewrite mem_read_other; [done|lia|done]|]. apply IH; [lia|done|done|lia].
Qed.

Lemma of_le_header n : 0 <= n <= INT_MAX -> s32 (of_le (le32 n)) = n.
Proof. unfold INT_MAX. intros H. rewrite of_le_le32, s32_small; lia. Qed.

(** Writing a packet and its header. *)
Lemma stored_write lim m e p :
  0 <= e <= lim -> 4 * (e + packet_blocks p) <= Z.of_nat (length m) ->
  stored lim
    (mem_write (mem_write m (Z.to_nat (4 * (e + 1))) p) (Z.to_nat (4 * e)) (le32 (Z.of_nat (length p)))) e [p].
Proof.
  intros He Hm. pose proof (packet_blocks_bounds p) as [Hb1 Hb2].
  assert (length (mem_write m (Z.to_nat (4 * (e + 1))) p) = length m) as Hl
    by (apply mem_write_length; lia).
  split; [lia|]. split; [|split; [|done]].
  - change 4%nat with (length (le32 (Z.of_nat (length p)))). apply mem_read_write.
    rewrite Hl. cbn. lia.
  - rewrite mem_read_after; [apply mem_read_write; lia|cbn; lia|rewrite Hl; cbn; lia].
Qed.

(** ** The invariant *)

(** The last block a packet may start at. *)
Definition lim_of (b : ChunkBuffer2) : Z := size b - mtu b - 1.

(** The numbers are in range; four times the size fits in an [int]. *)
Record geometry (b : ChunkBuffer2) : Prop := Geometry {
  g_size : 0 < size b /\ 4 * size b <= INT_MAX;
  g_mtu : 0 <= mtu b;
  g_wrap : 0 < wrap b <= size b /\ size b - mtu b <= wrap b;
  g_start : 0 <= start b < wrap b;
  g_used : 0 <= used b <= wrap b;
  g_wrapped : wrap b = size b \/ wrap b - start b <= used b;
}.

(** [q1] is stored from [start] on, [q2] from the beginning of the array; the
    second part is there only when the first one reaches up to [wrap]. *)
Record layout (b : ChunkBuffer2) (q1 q2 : list (list Z)) : Prop := Layout {
  l_geo : geometry b;
  l_buf : Z.of_nat (length (buffer b)) = 4 * size b;
  l_first : stored (lim_of b) (buffer b) (start b) q1;
  l_second : stored (lim_of b) (buffer b) 0 q2;
  l_parts : (used b < wrap b - start b /\ q2 = [] /\ total_blocks q1 = used b /\
               start b + used b <= lim_of b) \/
            (wrap b - start b <= used b /\ total_blocks q1 = wrap b - start b /\
               total_blocks q2 = used b - (wrap b - start b) /\ total_blocks q2 <= start b);
}.

Definition io_ok (b : ChunkBuffer2) (q : list (list Z)) : Prop :=
  (input_dest b, input_avail b) = input_of b /\
  match q with
  | [] => output_dest b = None /\ output_avail b = -1
  | p :: _ => output_dest b = Some (4 * (start b + 1)) /\ output_avail b = Z.of_nat (length p)
  end.

(** The buffer holds the packets [q], the oldest one first. *)
Definition repr (b : ChunkBuffer2) (q : list (list Z)) : Prop :=
  exists q1 q2, q = q1 ++ q2 /\ layout b q1 q2 /\ io_ok b q.

Lemma geometry_assert b : geometry b -> assert_buffer b = true.
Proof. intros [[] ? [[] ?] [] [] ?]. unfold assert_buffer. lia. Qed.

Lemma layout_used b q1 q2 : layout b q1 q2 -> used b = total_blocks (q1 ++ q2).
Proof.
  intros [_ _ _ _ H]. rewrite total_blocks_app.
  destruct H as [(_ & -> & H & _)|(_ & H1 & H2 & _)]; cbn; lia.
Qed.

Lemma layout_empty b q1 q2 : layout b q1 q2 -> (used b = 0 <-> q1 ++ q2 = []).
Proof.
  intros H. rewrite (layout_used _ _ _ H). split; [|now intros ->].
  destruct (q1 ++ q2) as [|p q] eqn:E; [done|]. pose proof (total_blocks_pos (p :: q)) as Hp.
  intros H0. specialize (Hp ltac:(done)). lia.
Qed.

(** The oldest packet is at [start]. *)
Lemma layout_first b q1 q2 p q :
  layout b q1 q2 -> q1 ++ q2 = p :: q -> exists q1', q1 = p :: q1' /\ q = q1' ++ q2.
Proof.
  intros [[_ _ _ Hs _ _] _ _ _ H] E. destruct q1 as [|p' q1]; [|injection E as -> <-; eauto].
  exfalso. cbn in E, H. destruct H as [(_ & -> & _)|(_ & H & _)]; [done|lia].
Qed.

Lemma first_fits b q1 q2 p : layout b (p :: q1) q2 ->
  packet_blocks p <= used b /\ packet_blocks p <= wrap b - start b /\
  block_len b (start b) = Z.of_nat (length p).
Proof.
  intros [[[] ? [[] ?] [] [] ?] Hb Hs _ Hp]. rewrite total_blocks_cons in Hp.
  pose proof (total_blocks_nonneg q1). pose proof (total_blocks_nonneg q2).
  pose proof (packet_blocks_bounds p). split; [lia|]. split; [lia|].
  destruct Hs as (_ & Hh & _). unfold block_len. rewrite Hh. apply of_le_header. lia.
Qed.

Lemma first_assert b q1 q2 p : layout b (p :: q1) q2 -> assert_output b = true.
Proof.
  intros H. destruct (first_fits _ _ _ _ H) as (H1 & H2 & H3). unfold assert_output. rewrite H3.
  unfold packet_blocks in *. lia.
Qed.

Lemma repr_assert b q : repr b q -> assert_buffer b = true /\ assert_io b = true.
Proof.
  intros (q1 & q2 & -> & Hl & Hi & Ho). split; [apply geometry_assert, Hl|].
  unfold assert_io. rewrite bool_decide_true by done. cbn [andb].
  pose proof (layout_empty _ _ _ Hl) as He.
  destruct (q1 ++ q2) as [|p q] eqn:E.
  - assert (used b = 0) as -> by now apply He. destruct Ho as [-> ->]. done.
  - destruct (layout_first _ _ _ _ _ Hl E) as (q1' & -> & _).
    destruct (first_fits _ _ _ _ Hl) as (H1 & _ & H3). pose proof (packet_blocks_bounds p).
    replace (0 <? used b) with true by lia. rewrite (first_assert _ _ _ _ Hl).
    destruct Ho as [-> ->]. rewrite bool_decide_true by done. rewrite H3. cbn [andb]. lia.
Qed.

(** [update_output] finds the oldest packet. *)
Lemma update_output_ok b q1 q2 :
  layout b q1 q2 -> (input_dest b, input_avail b) = input_of b ->
  exists b', update_output b = Some b' /\ repr b' (q1 ++ q2) /\
    size b' = size b /\ mtu b' = mtu b /\ start b' = start b /\
    input_dest b' = input_dest b /\ input_avail b' = input_avail b.
Proof.
  intros Hl Hi. unfold update_output. pose proof (layout_empty _ _ _ Hl) as He.
  destruct (q1 ++ q2) as [|p q] eqn:E.
  - assert (used b = 0) as Hu by now apply He. replace (0 <? used b) with false by lia.
    eexists. split; [reflexivity|].
    split; [|done]. exists q1, q2. split; [done|]. split; [|split; [exact Hi|done]].
    destruct Hl as [[] ? ? ? ?]. split; [split|..]; done.
  - destruct (layout_first _ _ _ _ _ Hl E) as (q1' & -> & _).
    destruct (first_fits _ _ _ _ Hl) as (H1 & _ & H3). pose proof (packet_blocks_bounds p).
    replace (0 <? used b) with true by lia. rewrite (first_assert _ _ _ _ Hl).
    eexists. split; [reflexivity|]. split; [|done]. exists (p :: q1'), q2.
    split; [done|]. split; [|split; [exact Hi|split; [done|exact H3]]].
    destruct Hl as [[] ? ? ? ?]. split; [split|..]; done.
Qed.

Lemma checked_repr b q : repr b q -> checked_io b = Some b.
Proof. intros H. unfold checked_io. now destruct (repr_assert _ _ H) as [_ ->]. Qed.

(** The free blocks begin behind the newest packet and meet no other. *)
Lemma layout_free b q1 q2 : layout b q1 q2 ->
  0 <= cb_end b /\ cb_end b + free_blocks b <= size b /\ 0 <= free_blocks b /\
  (start b + total_blocks q1 <= cb_end b \/ cb_end b + free_blocks b <= start b) /\
  total_blocks q2 <= cb_end b.
Proof.
  intros [[[] ? [[] ?] [] [] ?] _ _ _ Hp]. unfold free_blocks, cb_end.
  pose proof (total_blocks_nonneg q1). pose proof (total_blocks_nonneg q2).
  destruct Hp as [(Hu & -> & Hp & _)|(Hu & Hp1 & Hp2 & Hp3)].
  - replace (used b >=? wrap b - start b) with false by lia. cbn. lia.
  - replace (used b >=? wrap b - start b) with true by lia. lia.
Qed.

Lemma input_of_some b d a : geometry b -> 0 <= cb_end b -> input_of b = (Some d, a) ->
  mtu b <= size b - cb_end b - 1 /\ 0 < free_blocks b /\ d = 4 * (cb_end b + 1) /\
  (free_blocks b <= size b -> a = 4 * (free_blocks b - 1)).
Proof.
  intros Hg He. unfold input_of. destruct (_ <? mtu b) eqn:E1; [done|].
  destruct (0 <? free_blocks b) eqn:E2; [|done]. intros [= <- <-].
  split; [lia|]. split; [lia|]. split; [done|]. intros Hf. destruct (g_size b Hg). unfold INT_MAX in *.
  rewrite s32_small; unfold sizeof_block; lia.
Qed.

(** A packet that fits goes into the free blocks. *)
Lemma room_ok b q1 q2 p : layout b q1 q2 -> (input_dest b, input_avail b) = input_of b ->
  input_dest b <> None -> Z.of_nat (length p) <= input_avail b ->
  mtu b <= size b - cb_end b - 1 /\ packet_blocks p <= free_blocks b /\
  input_dest b = Some (4 * (cb_end b + 1)).
Proof.
  intros Hl Hi Hd Hp. destruct (layout_free _ _ _ Hl) as (H0 & H1 & H2 & _).
  destruct (input_dest b) as [d|] eqn:Ed; [|done].
  destruct (input_of_some b d (input_avail b) (l_geo _ _ _ Hl) H0) as (E1 & E2 & E3 & E4); [done|].
  rewrite E4 in Hp by lia. pose proof (packet_blocks_bounds p) as [Hb1 Hb2].
  split; [done|]. split; [lia|]. now rewrite E3.
Qed.

(** The layout does not depend on the interface fields. *)
Lemma layout_same b b' q1 q2 :
  buffer b' = buffer b -> size b' = size b -> wrap b' = wrap b -> start b' = start b ->
  used b' = used b -> mtu b' = mtu b -> layout b q1 q2 -> layout b' q1 q2.
Proof.
  intros E1 E2 E3 E4 E5 E6 [[] ? ? ? ?].
  split; [split|..]; unfold lim_of in *; rewrite ?E1, ?E2, ?E3, ?E4, ?E5, ?E6; done.
Qed.

(** A write to free blocks keeps the layout. *)
Lemma layout_write b q1 q2 off d :
  layout b q1 q2 -> 4 * cb_end b <= Z.of_nat off ->
  Z.of_nat (off + length d) <= 4 * (cb_end b + free_blocks b) ->
  layout (CB (mem_write (buffer b) off d) (size b) (wrap b) (start b) (used b) (mtu b)
            (input_dest b) (input_avail b) (output_dest b) (output_avail b)) q1 q2.
Proof.
  intros Hl Ho Hd. destruct (layout_free _ _ _ Hl) as (H0 & H1 & H2 & H3 & H4).
  destruct Hl as [Hg Hb Hs1 Hs2 Hp]. assert (off + length d <= length (buffer b))%nat by lia.
  split; cbn; try done.
  - destruct Hg. now split.
  - now rewrite mem_write_length.
  - apply stored_frame; try done; [apply Hg|]. destruct H3; [left|right]; lia.
  - apply stored_frame; try done. left. lia.
Qed.

Lemma fill_repr b q p : repr b q -> input_dest b <> None -> Z.of_nat (length p) <= input_avail b ->
  repr (fill_input b p) q /\
  mem_read (buffer (fill_input b p)) (Z.to_nat (4 * (cb_end b + 1))) (length p) = p /\
  fill_input b p = CB (mem_write (buffer b) (Z.to_nat (4 * (cb_end b + 1))) p) (size b) (wrap b)
    (start b) (used b) (mtu b) (input_dest b) (input_avail b) (output_dest b) (output_avail b).
Proof.
  intros (q1 & q2 & -> & Hl & Hi & Ho) Hd Hp.
  destruct (room_ok _ _ _ p Hl Hi Hd Hp) as (H1 & H2 & H3).
  destruct (layout_free _ _ _ Hl) as (F0 & F1 & F2 & _). pose proof (packet_blocks_bounds p).
  unfold fill_input. rewrite H3. split; [|split; [|done]].
  - exists q1, q2. split; [done|]. split; [|split; [rewrite <- H3; exact Hi|exact Ho]].
    rewrite <- H3. apply (layout_write b); [done|lia|lia].
  - cbn. apply mem_read_write. rewrite <- Nat2Z.id with (length (buffer b)).
    rewrite (l_buf _ _ _ Hl). lia.
Qed.

(** Storing the header and moving the end, and [wrap] when no packet of maximal
    size fits behind the new one. *)
Definition appended (b : ChunkBuffer2) (p : list Z) : ChunkBuffer2 :=
  let e := cb_end b in
  let b := with_used (used b + packet_blocks p) (set_block_len b e (Z.of_nat (length p))) in
  if (used b <=? wrap b - start b) && (mtu b >? size b - (e + packet_blocks p) - 1)
  then with_wrap (e + packet_blocks p) b else b.

Lemma append_layout b q1 q2 p :
  layout b q1 q2 -> mtu b <= size b - cb_end b - 1 -> packet_blocks p <= free_blocks b ->
  mem_read (buffer b) (Z.to_nat (4 * (cb_end b + 1))) (length p) = p ->
  exists q1' q2', q1' ++ q2' = (q1 ++ q2) ++ [p] /\ layout (appended b p) q1' q2'.
Proof.
  intros Hl Hm Hf Hr. pose proof (packet_blocks_bounds p) as [Hb1 Hb2].
  destruct (layout_free _ _ _ Hl) as (F0 & F1 & F2 & F3 & F4).
  pose proof (layout_write b q1 q2 (Z.to_nat (4 * cb_end b)) (le32 (Z.of_nat (length p))) Hl
    ltac:(lia) ltac:(cbn [length le32]; lia)) as [_ Hb Hs1 Hs2 _].
  assert (stored (lim_of b) (buffer (set_block_len b (cb_end b) (Z.of_nat (length p)))) (cb_end b) [p]) as Hp.
  { pose proof (l_buf _ _ _ Hl) as Hbuf. split; [unfold lim_of; lia|]. cbn [buffer set_block_len].
    split; [|split; [|done]].
    - change 4%nat with (length (le32 (Z.of_nat (length p)))). apply mem_read_write. cbn. lia.
    - rewrite mem_read_after; [exact Hr|cbn; lia|cbn; lia]. }
  pose proof (l_geo _ _ _ Hl) as [[] ? [[] ?] [] [] ?]. pose proof (l_parts _ _ _ Hl) as Hparts.
  cbn [buffer lim_of size mtu start] in Hs1, Hs2, Hb.
  unfold appended. cbn [used wrap start mtu size with_used set_block_len].
  destruct Hparts as [(Hu & -> & Ht & Hlim)|(Hu & Ht1 & Ht2 & Hle)].
  - assert (cb_end b = start b + used b /\ free_blocks b = size b - cb_end b) as [Ee Ef].
    { unfold free_blocks, cb_end. now replace (used b >=? wrap b - start b) with false by lia. }
    assert (wrap b = size b) as Hw by lia. rewrite Ef, Ee in *.
    exists (q1 ++ [p]), []. split; [now rewrite !app_nil_r|].
    assert (stored (lim_of b) (mem_write (buffer b) (Z.to_nat (4 * (start b + used b)))
      (le32 (Z.of_nat (length p)))) (start b) (q1 ++ [p])) as Hs.
    { apply stored_app. split; [exact Hs1|]. rewrite Ht. exact Hp. }
    replace (used b + packet_blocks p <=? wrap b - start b) with true by lia. cbn [andb].
    destruct (mtu b >? _) eqn:E; (split; [split; cbn; lia|exact Hb|exact Hs|done|]);
      rewrite total_blocks_app, total_blocks_cons; change (total_blocks []) with 0;
      unfold lim_of; cbn [used wrap start mtu size with_used with_wrap set_block_len];
      [right|left]; repeat split; lia.
  - assert (cb_end b = used b - (wrap b - start b) /\ free_blocks b = start b - cb_end b) as [Ee Ef].
    { unfold free_blocks, cb_end. now replace (used b >=? wrap b - start b) with true by lia. }
    rewrite Ef, Ee in *.
    exists q1, (q2 ++ [p]). split; [now rewrite app_assoc|].
    replace (used b + packet_blocks p <=? wrap b - start b) with false by lia. cbn [andb].
    split; [split; cbn; lia|exact Hb|exact Hs1| |].
    + apply stored_app. split; [exact Hs2|]. rewrite Ht2, Z.add_0_l. exact Hp.
    + right. rewrite total_blocks_app, total_blocks_cons. change (total_blocks []) with 0.
      cbn [used wrap start with_used set_block_len]. lia.
Qed.

(** ** The operations keep the invariant *)

Lemma appended_fields b p :
  size (appended b p) = size b /\ mtu (appended b p) = mtu b /\ start (appended b p) = start b /\
  used (appended b p) = used b + packet_blocks p /\
  output_dest (appended b p) = output_dest b /\ output_avail (appended b p) = output_avail b.
Proof. unfold appended. now destruct (_ && _). Qed.

Lemma update_input_ok b :
  (input_dest (update_input b), input_avail (update_input b)) = input_of (update_input b).
Proof. change (input_of (update_input b)) with (input_of b). cbn. now destruct (input_of b). Qed.

(** The interface fields after a packet was appended: the output changes only
    when the buffer was empty. *)
Lemma finish_append b q1 q2 p q1' q2' :
  layout b q1 q2 -> io_ok b (q1 ++ q2) -> q1' ++ q2' = (q1 ++ q2) ++ [p] ->
  layout (appended b p) q1' q2' ->
  let b2 := update_input (appended b p) in
  exists b', (b3 ← (if used b2 =? packet_blocks p then update_output b2 else Some b2); checked_io b3)
    = Some b' /\ repr b' ((q1 ++ q2) ++ [p]) /\ size b' = size b /\ mtu b' = mtu b /\ start b' = start b.
Proof.
  intros Hl [_ Ho] Eq Hl' b2. destruct (appended_fields b p) as (S1 & S2 & S3 & S4 & S5 & S6).
  assert (layout b2 q1' q2') as Hl2 by (now apply (layout_same (appended b p))).
  pose proof (packet_blocks_bounds p) as [Hb1 Hb2].
  change (used b2) with (used (appended b p)). rewrite S4.
  destruct (used b + packet_blocks p =? packet_blocks p) eqn:E.
  - destruct (update_output_ok b2 q1' q2' Hl2 (update_input_ok _)) as (b' & -> & Hr' & Es1 & Es2 & Es3 & _).
    exists b'. cbn [mbind option_bind]. rewrite (checked_repr _ _ Hr'), Es1, Es2, Es3, <- Eq.
    split; [done|]. split; [done|]. split; [exact S1|]. split; [exact S2|exact S3].
  - assert (repr b2 ((q1 ++ q2) ++ [p])) as Hr'.
    { exists q1', q2'. split; [done|]. split; [done|]. split; [apply update_input_ok|].
      destruct (q1 ++ q2) as [|x q] eqn:Ex; [apply (layout_empty _ _ _ Hl) in Ex; lia|].
      cbn [app]. change (output_dest b2) with (output_dest (appended b p)).
      change (output_avail b2) with (output_avail (appended b p)).
      change (start b2) with (start (appended b p)). now rewrite S3, S5, S6. }
    exists b2. cbn [mbind option_bind]. rewrite (checked_repr _ _ Hr').
    split; [done|]. split; [done|]. split; [exact S1|]. split; [exact S2|exact S3].
Qed.

Lemma submit_filled b q p :
  repr b q -> input_dest b <> None -> Z.of_nat (length p) <= input_avail b ->
  mem_read (buffer b) (Z.to_nat (4 * (cb_end b + 1))) (length p) = p ->
  exists b', ChunkBuffer2_SubmitPacket b (Z.of_nat (length p)) = Some b' /\
    repr b' (q ++ [p]) /\ size b' = size b /\ mtu b' = mtu b /\ start b' = start b.
Proof.
  intros H0 Hd Hp Hr. destruct (repr_assert _ _ H0) as [A1 A2].
  destruct H0 as (q1 & q2 & -> & Hl & Hio). pose proof Hio as [Hi _].
  destruct (room_ok _ _ _ p Hl Hi Hd Hp) as (R1 & R2 & R3).
  destruct (append_layout b q1 q2 p Hl R1 R2 Hr) as (q1' & q2' & Eq & Hl').
  destruct (layout_free _ _ _ Hl) as (F0 & F1 & F2 & _).
  unfold ChunkBuffer2_SubmitPacket. rewrite A1, A2, bool_decide_true by done.
  replace (0 <=? Z.of_nat (length p)) with true by lia.
  replace (Z.of_nat (length p) <=? input_avail b) with true by lia. cbn [andb checked]. cbv zeta.
  replace ((blocks_of (Z.of_nat (length p)) <=? size b - cb_end b - 1) &&
    ((used b <? wrap b - start b) || (blocks_of (Z.of_nat (length p)) <=? start b - cb_end b - 1)))
    with true.
  2:{ symmetry. unfold free_blocks in *. unfold packet_blocks in *.
      destruct (used b >=? wrap b - start b) eqn:Eu; lia. }
  cbn [checked].
  replace (cb_end b + 1 + blocks_of (Z.of_nat (length p))) with (cb_end b + packet_blocks p)
    by (unfold packet_blocks; lia).
  change (1 + blocks_of (Z.of_nat (length p))) with (packet_blocks p).
  change (used (set_block_len b (cb_end b) (Z.of_nat (length p)))) with (used b).
  fold (appended b p). rewrite (geometry_assert _ (l_geo _ _ _ Hl')). cbn [checked].
  exact (finish_append b q1 q2 p q1' q2' Hl Hio Eq Hl').
Qed.

(** Writing a packet to [input_dest] and submitting it appends it. *)
Lemma submit_ok b q p :
  repr b q -> input_dest b <> None -> Z.of_nat (length p) <= input_avail b ->
  exists b', ChunkBuffer2_SubmitPacket (fill_input b p) (Z.of_nat (length p)) = Some b' /\
    repr b' (q ++ [p]) /\ size b' = size b /\ mtu b' = mtu b /\ start b' = start b.
Proof.
  intros Hb Hd Hp. destruct (fill_repr _ _ _ Hb Hd Hp) as (H0 & Hr & Efill).
  rewrite Efill in *. exact (submit_filled _ q p H0 Hd Hp Hr).
Qed.

(** ** Consuming *)

(** The oldest packet is dropped; at the end of the first part the array is whole
    again. *)
Definition consumed (b : ChunkBuffer2) (p : list Z) : ChunkBuffer2 :=
  let b := with_used (used b - packet_blocks p) (with_start (start b + packet_blocks p) b) in
  if start b =? wrap b then with_wrap (size b) (with_start 0 b) else b.

Lemma consume_layout b p q1 q2 :
  layout b (p :: q1) q2 ->
  exists q1' q2', q1' ++ q2' = q1 ++ q2 /\ layout (consumed b p) q1' q2'.
Proof.
  intros Hl. destruct (first_fits _ _ _ _ Hl) as (Hf1 & Hf2 & _).
  pose proof (packet_blocks_bounds p) as [Hb1 _].
  destruct Hl as [[[] ? [[] ?] [] [] ?] Hbuf Hs1 Hs2 Hparts]. rewrite total_blocks_cons in Hparts.
  destruct Hs1 as (Hlim & _ & _ & Hs1). pose proof (total_blocks_nonneg q1).
  unfold consumed. cbn [start wrap with_used with_start].
  destruct (start b + packet_blocks p =? wrap b) eqn:E.
  - (* the first part is used up *)
    destruct Hparts as [(Hu & -> & Ht & _)|(Hu & Ht1 & Ht2 & Hle)]; [lia|].
    assert (q1 = []) as ->.
    { destruct q1 as [|x q1]; [done|]. pose proof (total_blocks_pos (x :: q1) ltac:(done)). lia. }
    exists q2, []. split; [now rewrite app_nil_r|].
    split; [split; cbn; lia|exact Hbuf|exact Hs2|done|]. left. unfold lim_of in *. cbn.
    repeat split; lia.
  - exists q1, q2. split; [done|].
    destruct Hparts as [(Hu & -> & Ht & Hl)|(Hu & Ht1 & Ht2 & Hle)];
      (split; [split; cbn; lia|exact Hbuf|exact Hs1|exact Hs2|]); [left|right];
      unfold lim_of in *; cbn; repeat split; lia.
Qed.

Lemma consumed_input b p q1 q2 :
  layout b (p :: q1) q2 -> used b < wrap b - start b -> input_of (consumed b p) = input_of b.
Proof.
  intros Hl Hu. destruct (first_fits _ _ _ _ Hl) as (Hf1 & Hf2 & _).
  pose proof (packet_blocks_bounds p) as [Hb1 _].
  assert (consumed b p = with_used (used b - packet_blocks p) (with_start (start b + packet_blocks p) b))
    as ->.
  { unfold consumed. cbn [start wrap with_used with_start].
    now replace (start b + packet_blocks p =? wrap b) with false by lia. }
  unfold input_of, free_blocks, cb_end. cbn [used wrap start size mtu with_used with_start].
  replace (used b - packet_blocks p >=? wrap b - (start b + packet_blocks p)) with false by lia.
  replace (used b >=? wrap b - start b) with false by lia.
  now replace (start b + packet_blocks p + (used b - packet_blocks p)) with (start b + used b) by lia.
Qed.

Lemma consumed_fields b p : size (consumed b p) = size b /\ mtu (consumed b p) = mtu b /\
  input_dest (consumed b p) = input_dest b /\ input_avail (consumed b p) = input_avail b.
Proof. unfold consumed. now destruct (_ =? _). Qed.

(** Consuming leaves the place of the next packet where it is, and as much room. *)
Lemma consumed_room b p q1 q2 : layout b (p :: q1) q2 ->
  cb_end (consumed b p) = cb_end b /\ free_blocks b <= free_blocks (consumed b p).
Proof.
  intros Hl. destruct (first_fits _ _ _ _ Hl) as (Hf1 & Hf2 & _).
  destruct Hl as [[[] ? [[] ?] [] [] ?] _ _ _ Hparts]. rewrite total_blocks_cons in Hparts.
  pose proof (packet_blocks_bounds p) as [Hb1 _]. pose proof (total_blocks_nonneg q1).
  unfold consumed. cbn [start wrap with_used with_start].
  destruct (start b + packet_blocks p =? wrap b) eqn:E; unfold free_blocks, cb_end;
    cbn [used wrap start size with_used with_start with_wrap];
    destruct (used b >=? wrap b - start b) eqn:E1;
    destruct (used b - packet_blocks p >=? _) eqn:E2; lia.
Qed.

Lemma input_monotone b b' d :
  geometry b -> 0 <= cb_end b -> free_blocks b <= size b -> free_blocks b' <= size b ->
  size b' = size b -> mtu b' = mtu b ->
  cb_end b' = cb_end b -> free_blocks b <= free_blocks b' -> (input_of b).1 = Some d ->
  (input_of b').1 = Some d /\ (input_of b).2 <= (input_of b').2.
Proof.
  intros Hg H0 Hf Hf' Es Em Ee Hle Hd. destruct (input_of b) as [d' a] eqn:E. cbn [fst snd] in *. subst d'.
  destruct (input_of_some _ _ _ Hg H0 E) as (E1 & E2 & -> & E4). rewrite (E4 Hf).
  unfold input_of. rewrite Es, Em, Ee. replace (_ <? mtu b) with false by lia.
  replace (0 <? free_blocks b') with true by lia. cbn [fst snd]. split; [done|].
  destruct (g_size _ Hg). unfold INT_MAX in *. rewrite s32_small; unfold sizeof_block; lia.
Qed.

(** Consuming removes the oldest packet; a place that was offered for the next
    packet stays on offer. *)
Lemma consume_ok b p q :
  repr b (p :: q) ->
  exists b', ChunkBuffer2_ConsumePacket b = Some b' /\ repr b' q /\ size b' = size b /\ mtu b' = mtu b /\
    (forall d, input_dest b = Some d -> input_dest b' = Some d /\ input_avail b <= input_avail b').
Proof.
  intros H0. destruct (repr_assert _ _ H0) as [A1 A2].
  destruct H0 as (q1 & q2 & Eq & Hl & Hi & Ho1 & Ho2).
  destruct (layout_first _ _ _ _ _ Hl (eq_sym Eq)) as (q1' & -> & ->). clear Eq.
  destruct (first_fits _ _ _ _ Hl) as (Hf1 & Hf2 & Hf3).
  pose proof (packet_blocks_bounds p) as [Hb1 _].
  destruct (consume_layout _ _ _ _ Hl) as (r1 & r2 & <- & Hl').
  destruct (consumed_fields b p) as (S1 & S2 & S3 & S4).
  unfold ChunkBuffer2_ConsumePacket. rewrite A1, A2, Ho1, Hf3. cbn [andb checked]. cbv zeta.
  rewrite bool_decide_true by done. cbn [checked].
  replace ((1 <=? wrap b - start b) && (1 <=? used b)) with true by lia. cbn [checked].
  replace ((blocks_of (Z.of_nat (length p)) <=? wrap b - start b - 1) &&
           (blocks_of (Z.of_nat (length p)) <=? used b - 1)) with true by (unfold packet_blocks in *; lia).
  cbn [checked]. change (1 + blocks_of (Z.of_nat (length p))) with (packet_blocks p).
  fold (consumed b p). rewrite (geometry_assert _ (l_geo _ _ _ Hl')). cbn [checked].
  set (b2 := if used b >=? wrap b - start b then update_input (consumed b p) else consumed b p).
  assert (layout b2 r1 r2 /\ (input_dest b2, input_avail b2) = input_of b2 /\
    size b2 = size b /\ mtu b2 = mtu b) as (Hl2 & Hi2 & Es & Em).
  { unfold b2. destruct (used b >=? wrap b - start b) eqn:E.
    - split; [now apply (layout_same (consumed b p))|]. split; [apply update_input_ok|].
      split; [exact S1|exact S2].
    - split; [done|]. split; [|done]. rewrite S3, S4, (consumed_input b p q1' q2 Hl) by lia. done. }
  destruct (update_output_ok b2 r1 r2 Hl2 Hi2) as (b' & -> & Hr' & E1 & E2 & _ & E3 & E4).
  exists b'. cbn [mbind option_bind]. rewrite (checked_repr _ _ Hr').
  split; [done|]. split; [done|]. split; [congruence|]. split; [congruence|].
  intros d Hd. rewrite E3, E4. destruct (layout_free _ _ _ Hl) as (F0 & F1 & F2 & _).
  destruct (layout_free _ _ _ Hl') as (G0 & G1 & G2 & _).
  destruct (consumed_room _ _ _ _ Hl) as [C1 C2].
  destruct (input_monotone b (consumed b p) d (l_geo _ _ _ Hl)) as [M1 M2];
    try done; try lia; [now rewrite <- Hi|].
  assert (input_of b2 = input_of (consumed b p)) as Eb by (unfold b2; now destruct (_ >=? _)).
  rewrite Eb in Hi2. destruct (input_of (consumed b p)). injection Hi2 as -> ->.
  rewrite <- Hi in M2. split; [exact M1|exact M2].
Qed.

(** The consumer is given the oldest packet. *)
Lemma output_ok b q : repr b q -> output_packet b = hd_error q /\
  output_avail b = match q with [] => -1 | p :: _ => Z.of_nat (length p) end.
Proof.
  intros (q1 & q2 & -> & Hl & _ & Ho). unfold output_packet.
  destruct (q1 ++ q2) as [|p q] eqn:E; [now destruct Ho as [-> ->]|].
  destruct (layout_first _ _ _ _ _ Hl E) as (q1' & -> & _).
  destruct Ho as [-> ->]. split; [|done]. cbn.
  destruct (l_first _ _ _ Hl) as (_ & _ & Hd & _). rewrite Nat2Z.id. now f_equal.
Qed.

(** ** Room *)

Lemma total_blocks_le k q :
  Forall (fun p => packet_blocks p <= k) q -> total_blocks q <= k * Z.of_nat (length q).
Proof.
  induction 1 as [|p q Hp Hq IH]; [cbn; lia|]. rewrite total_blocks_cons. cbn [length]. nia.
Qed.

(** As long as fewer than [num] packets of at most [mtu] blocks are stored in an
    array made for [num] of them, one more of that size can be written. *)
Lemma room_for_more b q num :
  repr b q -> size b = (1 + mtu b) * (num + 1) -> Z.of_nat (length q) < num ->
  Forall (fun p => packet_blocks p <= 1 + mtu b) q ->
  input_dest b <> None /\ 4 * mtu b <= input_avail b.
Proof.
  intros (q1 & q2 & -> & Hl & Hi & _) Hsize Hn Hf.
  assert (used b <= (1 + mtu b) * (num - 1)) as Hu.
  { rewrite (layout_used _ _ _ Hl). pose proof (g_mtu _ (l_geo _ _ _ Hl)).
    pose proof (total_blocks_le _ _ Hf). nia. }
  destruct (layout_free _ _ _ Hl) as (F0 & F1 & F2 & _).
  assert (mtu b <= size b - cb_end b - 1 /\ 1 + mtu b <= free_blocks b) as [H1 H2].
  { destruct Hl as [[[] ? [[] ?] [] [] ?] _ Hs1 _ Hparts]. unfold free_blocks, cb_end, lim_of in *.
    destruct Hparts as [(Hw & -> & Ht & Hlim)|(Hw & Ht1 & Ht2 & Hle)].
    - replace (used b >=? wrap b - start b) with false by lia. lia.
    - replace (used b >=? wrap b - start b) with true by lia.
      destruct q1 as [|p q1]; [cbn in Ht1; lia|]. destruct Hs1 as [Hlim _]. split; [lia|]. nia. }
  pose proof (l_geo _ _ _ Hl) as [[Hs0 Hs1] Hm _ _ _ _]. unfold INT_MAX in *.
  unfold input_of in Hi. replace (size b - cb_end b - 1 <? mtu b) with false in Hi by lia.
  replace (0 <? free_blocks b) with true in Hi by lia. injection Hi as -> ->.
  split; [done|]. rewrite s32_small; unfold sizeof_block; lia.
Qed.

(** An empty buffer can always take a packet. *)
Lemma room_when_empty b : repr b [] -> input_dest b <> None /\ 4 * mtu b <= input_avail b.
Proof.
  intros (q1 & q2 & Eq & Hl & Hi & _). destruct (app_eq_nil _ _ (eq_sym Eq)) as [-> ->].
  destruct (layout_free _ _ _ Hl) as (F0 & F1 & F2 & _).
  pose proof (l_geo _ _ _ Hl) as [[Hs0 Hs1] Hm _ Hst _ _]. unfold INT_MAX in *.
  destruct (l_parts _ _ _ Hl) as [(Hw & _ & Ht & Hlim)|(Hw & Ht1 & _)]; [|cbn in Ht1; lia].
  assert (cb_end b = start b + used b /\ free_blocks b = size b - cb_end b) as [Ee Ef].
  { unfold free_blocks, cb_end. now replace (used b >=? wrap b - start b) with false by lia. }
  unfold lim_of in Hlim. unfold input_of in Hi.
  replace (size b - cb_end b - 1 <? mtu b) with false in Hi by lia.
  replace (0 <? free_blocks b) with true in Hi by lia. injection Hi as -> ->.
  split; [done|]. rewrite s32_small; unfold sizeof_block; lia.
Qed.

(** [ChunkBuffer2_calc_blocks] computes the size of the array without overflow. *)
Lemma calc_blocks_ok chunk_len num :
  0 <= chunk_len <= INT_MAX -> 0 <= num <= INT_MAX ->
  let n := ChunkBuffer2_calc_blocks chunk_len num in
  n = -1 \/ (n = (1 + blocks_of chunk_len) * (num + 1) /\ 0 < n <= INT_MAX).
Proof.
  intros Hc Hn. unfold ChunkBuffer2_calc_blocks. pose proof (blocks_of_bounds chunk_len) as Hb.
  fold (blocks_of chunk_len). unfold INT_MAX in *. rewrite s32_small by lia. cbv zeta.
  destruct (_ >? _) eqn:E1; [now left|]. destruct (num >? _) eqn:E2; [now left|].
  destruct (1 + blocks_of chunk_len >? _) eqn:E3; [now left|]. right. split; [done|].
  assert (1 + blocks_of chunk_len <= 2147483647 / (num + 1)) as H by lia.
  pose proof (Z.mul_div_le 2147483647 (num + 1)). nia.
Qed.

Lemma init_ok buf blocks mtu_bytes :
  Z.of_nat (length buf) = 4 * blocks -> 4 * blocks <= INT_MAX -> 0 <= mtu_bytes <= INT_MAX ->
  1 + blocks_of mtu_bytes <= blocks ->
  exists b, ChunkBuffer2_Init buf blocks mtu_bytes = Some b /\ repr b [] /\
    size b = blocks /\ mtu b = blocks_of mtu_bytes.
Proof.
  intros Hb Hs Hm Hfit. pose proof (blocks_of_bounds mtu_bytes) as Hbl. unfold INT_MAX in *.
  unfold ChunkBuffer2_Init. replace ((0 <? blocks) && (0 <=? mtu_bytes)) with true by lia.
  fold (blocks_of mtu_bytes). rewrite s32_small by lia. cbn [checked]. cbv zeta.
  set (b := CB buf blocks blocks 0 0 (blocks_of mtu_bytes) None 0 None 0).
  assert (layout b [] []) as Hl.
  { split; [split; unfold INT_MAX; cbn; lia|exact Hb|done|done|].
    left. unfold lim_of. cbn. repeat split; lia. }
  rewrite (geometry_assert _ (l_geo _ _ _ Hl)). cbn [checked].
  assert (layout (update_input b) [] []) as Hl2 by (now apply (layout_same b)).
  destruct (update_output_ok _ _ _ Hl2 (update_input_ok b)) as (b' & -> & Hr & E1 & E2 & _).
  exists b'. cbn [mbind option_bind]. rewrite (checked_repr _ _ Hr). done.
Qed.

End ChunkBuffer2.
