(* ===== verification/PacketBuffer.v ===== *)
(** * The packet queue ([badvpn/flow/PacketBuffer.c])

    The object between a source of packets and a sink: while there is room it asks
    its input for a packet, while it holds packets it hands the oldest one to its
    output. The two interfaces are the calls still under way; a call made while
    one is under way, or any other failed assertion, makes a handler return
    [None]. *)

From S2P Require Import Prelude Mem ChunkBuffer.
Import ChunkBuffer2.

Open Scope Z_scope.

Module PacketBuffer.

(** [recv]: where the input was told to write the next packet; [send]: where the
    packet the output is busy with is, and its length. *)
Record PacketBuffer := PB {
  buf : ChunkBuffer2;
  input_mtu : Z;
  output_mtu : Z;
  recv : option (option Z);
  send : option (option Z * Z);
}.

(** [PacketRecvInterface_Receiver_Recv] *)
Definition Receiver_Recv (o : PacketBuffer) : option PacketBuffer :=
  if bool_decide (recv o = None) && ((input_mtu o <=? 0) || bool_decide (input_dest (buf o) <> None))
  then Some (PB (buf o) (input_mtu o) (output_mtu o) (Some (input_dest (buf o))) (send o))
  else None.

(** [PacketPassInterface_Sender_Send] *)
Definition Sender_Send (o : PacketBuffer) : option PacketBuffer :=
  let len := output_avail (buf o) in
  if bool_decide (send o = None) && (0 <=? len) && (len <=? output_mtu o) &&
     ((len <=? 0) || bool_decide (output_dest (buf o) <> None))
  then Some (PB (buf o) (input_mtu o) (output_mtu o) (recv o) (Some (output_dest (buf o), len)))
  else None.

Definition with_buf (b : ChunkBuffer2) (o : PacketBuffer) : PacketBuffer :=
  PB b (input_mtu o) (output_mtu o) (recv o) (send o).

Definition input_handler_done (o : PacketBuffer) (in_len : Z) : option PacketBuffer :=
  if (0 <=? in_len) && (in_len <=? input_mtu o) then
    let was_empty := output_avail (buf o) <? 0 in
    b ← ChunkBuffer2_SubmitPacket (buf o) in_len;
    let o := with_buf b o in
    o ← (if input_mtu o <=? input_avail b then Receiver_Recv o else Some o);
    if was_empty then Sender_Send o else Some o
  else None.

Definition output_handler_done (o : PacketBuffer) : option PacketBuffer :=
  let was_full := input_avail (buf o) <? input_mtu o in
  b ← ChunkBuffer2_ConsumePacket (buf o);
  let o := with_buf b o in
  o ← (if was_full && (input_mtu o <=? input_avail b) then Receiver_Recv o else Some o);
  if 0 <=? output_avail b then Sender_Send o else Some o.

(** [PacketBuffer_Init]; [data] is what the allocator returned for the number of
    blocks asked for. The result is [Some None] when the size does not fit. *)
Definition PacketBuffer_Init (imtu omtu num_packets : Z) (data : Z -> list Z)
  : option (option PacketBuffer) :=
  if (imtu <=? omtu) && (0 <? num_packets) then
    let num_blocks := ChunkBuffer2_calc_blocks imtu num_packets in
    if num_blocks <? 0 then Some None
    else
      b ← ChunkBuffer2_Init (data num_blocks) num_blocks imtu;
      Some <$> Receiver_Recv (PB b imtu omtu None None)
  else None.

(** ** The two sides *)

(** The input writes the packet [p] where it was told to and reports that it is
    done: the call is over before the handler runs. *)
Definition input_delivers (o : PacketBuffer) (p : list Z) : option PacketBuffer :=
  d ← recv o;
  let b := buf o in
  let m := match d with Some d => mem_write (buffer b) (Z.to_nat d) p | None => buffer b end in
  let b := CB m (size b) (wrap b) (start b) (used b) (mtu b) (input_dest b) (input_avail b)
             (output_dest b) (output_avail b) in
  input_handler_done (PB b (input_mtu o) (output_mtu o) None (send o)) (Z.of_nat (length p)).

(** What the output has read by the time it reports that it is done. *)
Definition in_flight (o : PacketBuffer) : option (list Z) :=
  (fun s => match s.1 with
            | Some d => mem_read (buffer (buf o)) (Z.to_nat d) (Z.to_nat s.2)
            | None => []
            end) <$> send o.

Definition output_accepts (o : PacketBuffer) : option PacketBuffer :=
  match send o with
  | None => None
  | Some _ => output_handler_done (PB (buf o) (input_mtu o) (output_mtu o) (recv o) None)
  end.

(** The states reached from an initial one, with the packets the input has
    delivered and those the output has taken. *)
Inductive reached (imtu omtu num : Z) : PacketBuffer -> list (list Z) -> list (list Z) -> Prop :=
  | reached_init data o :
      (forall n, 0 <= n -> Z.of_nat (length (data n)) = 4 * n) ->
      PacketBuffer_Init imtu omtu num data = Some (Some o) -> reached imtu omtu num o [] []
  | reached_input o o' rcvd sent p :
      reached imtu omtu num o rcvd sent -> Z.of_nat (length p) <= imtu ->
      input_delivers o p = Some o' -> reached imtu omtu num o' (rcvd ++ [p]) sent
  | reached_output o o' rcvd sent p :
      reached imtu omtu num o rcvd sent -> in_flight o = Some p ->
      output_accepts o = Some o' -> reached imtu omtu num o' rcvd (sent ++ [p]).

(** ** The invariant *)

Section Invariant.
Context (imtu omtu num : Z).

(** The buffer holds [q], each interface is busy exactly when it can be, and with
    the right place. *)
Record holds (o : PacketBuffer) (q : list (list Z)) : Prop := Holds {
  h_repr : repr (buf o) q;
  h_imtu : input_mtu o = imtu;
  h_omtu : output_mtu o = omtu;
  h_range : 0 <= imtu <= omtu;
  h_mtu : mtu (buf o) = blocks_of imtu;
  h_size : size (buf o) = (1 + mtu (buf o)) * (num + 1);
  h_packets : Forall (fun p => Z.of_nat (length p) <= imtu) q;
  h_recv : recv o = if imtu <=? input_avail (buf o) then Some (input_dest (buf o)) else None;
  h_send : send o = match q with [] => None | _ => Some (output_dest (buf o), output_avail (buf o)) end;
}.

(** Room of a packet's size means a place to write it to. *)
Lemma avail_dest b q : repr b q -> 0 <= input_avail b -> input_dest b <> None.
Proof.
  intros (q1 & q2 & _ & _ & Hi & _) Ha Hd. rewrite Hd in Hi. unfold input_of in Hi.
  destruct (_ <? mtu b); [injection Hi as Ha'; lia|].
  destruct (0 <? free_blocks b); [done|injection Hi as Ha'; lia].
Qed.

Lemma output_dest_ok b q : repr b q -> q <> [] -> output_dest b = Some (4 * (start b + 1)).
Proof. intros (q1 & q2 & -> & _ & _ & Ho) Hq. now destruct (q1 ++ q2); [done|destruct Ho]. Qed.

(** Asking the input for a packet, when there is room. *)
Lemma recv_ok b q s :
  repr b q -> 0 <= imtu ->
  (if imtu <=? input_avail b then Receiver_Recv (PB b imtu omtu None s)
   else Some (PB b imtu omtu None s)) =
  Some (PB b imtu omtu (if imtu <=? input_avail b then Some (input_dest b) else None) s).
Proof.
  intros Hr Hi. destruct (imtu <=? input_avail b) eqn:E; [|done].
  pose proof (avail_dest b q Hr ltac:(lia)) as Hd.
  unfold Receiver_Recv. cbn [recv input_mtu output_mtu send buf].
  rewrite !bool_decide_true by done. now rewrite orb_true_r.
Qed.

(** Handing the oldest packet to the output. *)
Lemma send_ok b p q r :
  repr b (p :: q) -> Z.of_nat (length p) <= omtu ->
  Sender_Send (PB b imtu omtu r None) =
  Some (PB b imtu omtu r (Some (output_dest b, output_avail b))).
Proof.
  intros Hr Hp. destruct (output_ok _ _ Hr) as [_ Ha].
  unfold Sender_Send. cbn [send output_mtu input_mtu recv buf]. rewrite Ha.
  rewrite (output_dest_ok _ _ Hr) by done. rewrite !bool_decide_true by done.
  replace (0 <=? Z.of_nat (length p)) with true by lia.
  replace (Z.of_nat (length p) <=? omtu) with true by lia.
  cbn [andb]. now rewrite orb_true_r.
Qed.

Lemma input_ok o q p :
  holds o q -> recv o <> None -> Z.of_nat (length p) <= imtu ->
  exists o', input_delivers o p = Some o' /\ holds o' (q ++ [p]).
Proof.
  intros [Hr E1 E2 Hrange Hm Hs Hq Hrecv Hsend] Hn Hp. destruct o as [b im om rc sd].
  cbn [buf input_mtu output_mtu recv send] in *. subst im om.
  destruct (imtu <=? input_avail b) eqn:Ea; [|congruence].
  pose proof (avail_dest b q Hr ltac:(lia)) as Hd.
  destruct (submit_ok b q p Hr Hd ltac:(lia)) as (b' & Esub & Hr' & Es & Em & Est).
  unfold input_delivers. cbn [recv buf]. rewrite Hrecv. cbn [mbind option_bind].
  unfold fill_input in Esub. destruct (input_dest b) as [d|] eqn:Ed; [|done]. rewrite <- Ed in Esub |- *.
  unfold input_handler_done. cbn [input_mtu output_mtu buf send output_avail].
  replace ((0 <=? Z.of_nat (length p)) && (Z.of_nat (length p) <=? imtu)) with true by lia.
  rewrite Esub. cbn [mbind option_bind]. unfold with_buf. cbn [input_mtu output_mtu recv send].
  rewrite (recv_ok b' (q ++ [p]) sd Hr') by lia. cbn [mbind option_bind].
  destruct (output_ok _ _ Hr) as [_ Hav]. destruct (output_ok _ _ Hr') as [_ Hav'].
  assert (Forall (fun p => Z.of_nat (length p) <= imtu) (q ++ [p])) as Hq'
    by (apply Forall_app; auto).
  destruct q as [|x q]; cbn [app] in *.
  - rewrite Hav, Hsend. cbn [Z.ltb Z.compare]. rewrite (send_ok b' p []) by (done || lia).
    eexists. split; [reflexivity|]. split; cbn; try done; congruence.
  - rewrite Hav. replace (Z.of_nat (length x) <? 0) with false by lia.
    eexists. split; [reflexivity|]. split; cbn; try done; try congruence.
    rewrite Hsend, Hav, Hav'.
    now rewrite (output_dest_ok _ _ Hr), (output_dest_ok _ _ Hr'), Est by done.
Qed.

Lemma output_step_ok o p q :
  holds o (p :: q) ->
  in_flight o = Some p /\ exists o', output_accepts o = Some o' /\ holds o' q.
Proof.
  intros [Hr E1 E2 Hrange Hm Hs Hq Hrecv Hsend]. destruct o as [b im om rc sd].
  cbn [buf input_mtu output_mtu recv send] in *. subst im om. rewrite Hsend.
  destruct (output_ok _ _ Hr) as [Hout Hav]. split.
  { unfold in_flight. cbn [send buf fmap option_fmap option_map]. cbn.
    unfold output_packet in Hout. rewrite (output_dest_ok _ _ Hr) in * by done. cbn in Hout. exact Hout. }
  destruct (consume_ok b p q Hr) as (b' & Ec & Hr' & Es & Em & Hin).
  unfold output_accepts. cbn [send buf input_mtu output_mtu recv]. unfold output_handler_done.
  cbn [buf input_mtu output_mtu recv send]. rewrite Ec. cbn [mbind option_bind].
  unfold with_buf. cbn [input_mtu output_mtu recv send].
  assert ((if (input_avail b <? imtu) && (imtu <=? input_avail b')
           then Receiver_Recv (PB b' imtu omtu rc None) else Some (PB b' imtu omtu rc None)) =
    Some (PB b' imtu omtu (if imtu <=? input_avail b' then Some (input_dest b') else None) None)) as ->.
  { destruct (imtu <=? input_avail b) eqn:Ea.
    - replace (input_avail b <? imtu) with false by lia. cbn [andb]. rewrite Hrecv.
      pose proof (avail_dest b (p :: q) Hr ltac:(lia)) as Hd.
      destruct (input_dest b) as [d|]; [|done]. destruct (Hin d eq_refl) as [-> Hle].
      now replace (imtu <=? input_avail b') with true by lia.
    - replace (input_avail b <? imtu) with true by lia. cbn [andb]. rewrite Hrecv.
      apply (recv_ok b' q None Hr'). lia. }
  cbn [mbind option_bind]. destruct (output_ok _ _ Hr') as [_ Hav'].
  inversion Hq as [|? ? Hp Hq']; subst.
  destruct q as [|x q]; rewrite Hav'.
  - cbn [Z.leb Z.compare]. eexists. split; [reflexivity|]. split; cbn; try done; congruence.
  - replace (0 <=? Z.of_nat (length x)) with true by lia.
    inversion Hq' as [|? ? Hx _]; subst. rewrite (send_ok b' x q) by (done || lia).
    eexists. split; [reflexivity|]. split; cbn; try done; congruence.
Qed.

End Invariant.

(** ** From the first state on *)

Section Runs.
Context (imtu omtu num : Z).

(** The array of blocks for [num] packets fits in an [int] when counted in bytes. *)
Hypothesis mtu_nonneg : 0 <= imtu.
Hypothesis fits : 4 * ((1 + blocks_of imtu) * (num + 1)) <= INT_MAX.

Lemma initial_holds data o :
  (forall n, 0 <= n -> Z.of_nat (length (data n)) = 4 * n) ->
  PacketBuffer_Init imtu omtu num data = Some (Some o) -> holds imtu omtu num o [].
Proof.
  intros Hdata. unfold PacketBuffer_Init. destruct (_ && _) eqn:Eg; [|done].
  pose proof (blocks_of_bounds imtu mtu_nonneg). unfold INT_MAX in *.
  assert (0 < num) as Hnum by lia.
  destruct (calc_blocks_ok imtu num ltac:(unfold INT_MAX; nia) ltac:(unfold INT_MAX; nia)) as [-> |[-> Hn]];
    [done|].
  replace (_ <? 0) with false by lia.
  destruct (init_ok (data ((1 + blocks_of imtu) * (num + 1))) ((1 + blocks_of imtu) * (num + 1)) imtu)
    as (b & -> & Hr & Es & Em); [apply Hdata; lia|unfold INT_MAX; nia..|].
  cbn [mbind option_bind]. destruct (room_when_empty _ Hr) as [Hd Ha].
  pose proof (recv_ok imtu omtu b [] None Hr mtu_nonneg) as Hrecv.
  replace (imtu <=? input_avail b) with true in Hrecv by (symmetry; apply Z.leb_le; lia).
  rewrite Hrecv. cbn. intros [= <-].
  split; cbn; try done; try lia; [].
  replace (imtu <=? input_avail b) with true; [done|]. symmetry; apply Z.leb_le; lia.
Qed.

Lemma reached_holds o rcvd sent :
  reached imtu omtu num o rcvd sent -> exists q, rcvd = sent ++ q /\ holds imtu omtu num o q.
Proof.
  induction 1 as [data o Hd Hi|o o' rcvd sent p _ (q & -> & Hh) Hp Hin|o o' rcvd sent p _ (q & -> & Hh) Hf Hout].
  - exists []. split; [done|]. now apply (initial_holds data).
  - exists (q ++ [p]). split; [now rewrite app_assoc|].
    assert (recv o <> None) as Hn by (intros E; unfold input_delivers in Hin; now rewrite E in Hin).
    destruct (input_ok _ _ _ _ _ _ Hh Hn Hp) as (o1 & E & Hh'). congruence.
  - destruct q as [|x q].
    + unfold in_flight in Hf. now rewrite (h_send _ _ _ _ _ Hh) in Hf.
    + destruct (output_step_ok _ _ _ _ _ _ Hh) as [Hx (o1 & E & Hh')].
      assert (x = p) as -> by congruence. exists q. rewrite <- app_assoc. split; [done|congruence].
Qed.

(** A packet within the limit takes no more blocks than one of maximal size. *)
Lemma small_packet_blocks p : Z.of_nat (length p) <= imtu -> packet_blocks p <= 1 + blocks_of imtu.
Proof.
  intros Hp. unfold packet_blocks. pose proof (blocks_of_bounds (Z.of_nat (length p))).
  pose proof (blocks_of_bounds imtu mtu_nonneg). lia.
Qed.

Lemma holds_room o q :
  holds imtu omtu num o q -> Z.of_nat (length q) < num \/ q = [] -> recv o <> None.
Proof.
  intros [Hr _ _ _ Hm Hs Hq Hrecv _] Hroom.
  assert (4 * mtu (buf o) <= input_avail (buf o)) as Ha.
  { destruct Hroom as [Hlen| -> ]; [|apply (room_when_empty _ Hr)].
    apply (room_for_more _ _ _ Hr Hs Hlen). rewrite Hm.
    eapply Forall_impl; [exact Hq|]. exact small_packet_blocks. }
  pose proof (blocks_of_bounds imtu mtu_nonneg). rewrite Hrecv.
  replace (imtu <=? input_avail (buf o)) with true; [done|]. symmetry. apply Z.leb_le. lia.
Qed.

End Runs.

(** C37. The packet queue is a bounded FIFO. In every state reached by any
    interleaving of deliveries of the input and completions of the output: the
    packets delivered are those handed over so far followed by a queue [q]; the
    packet the output is working on is the oldest of [q], byte for byte; while an
    interface is busy its next completion is handled without a failed assertion;
    the output is idle only when nothing is queued, and the input is asked for a
    packet at least while fewer than [num] packets are queued, so that the object
    is never stuck. *)
Theorem packet_buffer_fifo imtu omtu num o rcvd sent :
  0 <= imtu -> 4 * ((1 + blocks_of imtu) * (num + 1)) <= INT_MAX ->
  reached imtu omtu num o rcvd sent ->
  exists q,
    rcvd = sent ++ q /\ in_flight o = head q /\
    (recv o <> None -> forall p, Z.of_nat (length p) <= imtu -> is_Some (input_delivers o p)) /\
    (q <> [] -> is_Some (output_accepts o)) /\
    (Z.of_nat (length q) < num \/ q = [] -> recv o <> None).
Proof.
  intros Hi Hfit Hreach. destruct (reached_holds _ _ _ Hi Hfit _ _ _ Hreach) as (q & -> & Hh).
  exists q. split; [done|]. split; [|split; [|split]].
  - destruct q as [|p q]; [|apply (output_step_ok _ _ _ _ _ _ Hh)].
    unfold in_flight. now rewrite (h_send _ _ _ _ _ Hh).
  - intros Hn p Hp. destruct (input_ok _ _ _ _ _ _ Hh Hn Hp) as (o' & -> & _). eauto.
  - destruct q as [|p q]; [done|]. intros _.
    destruct (output_step_ok _ _ _ _ _ _ Hh) as [_ (o' & -> & _)]. eauto.
  - exact (holds_room _ _ _ Hi _ _ Hh).
Qed.

(** Three packets of up to five bytes, room for two: two deliveries, a completion
    and one more delivery, which wraps around the end of the array. *)
Definition demo_state : option PacketBuffer :=
  o ← PacketBuffer_Init 5 8 2 (fun n => replicate (Z.to_nat (4 * n)) 0) ≫= id;
  o ← input_delivers o [1; 2; 3; 4; 5];
  o ← input_delivers o [6];
  o ← output_accepts o;
  input_delivers o [7; 8; 9; 10; 11].

Lemma packet_buffer_fifo_witness :
  exists o q, demo_state = Some o /\
    [[1; 2; 3; 4; 5]; [6]; [7; 8; 9; 10; 11]] = [[1; 2; 3; 4; 5]] ++ q /\ in_flight o = head q.
Proof.
  destruct demo_state as [o|] eqn:E; [|vm_compute in E; discriminate]. unfold demo_state in E.
  destruct (PacketBuffer_Init 5 8 2 _ ≫= id) as [o0|] eqn:E0; [|discriminate E]. cbn [mbind option_bind] in E.
  destruct (input_delivers o0 [1; 2; 3; 4; 5]) as [o1|] eqn:E1; [|discriminate E]. cbn [mbind option_bind] in E.
  destruct (input_delivers o1 [6]) as [o2|] eqn:E2; [|discriminate E]. cbn [mbind option_bind] in E.
  destruct (output_accepts o2) as [o3|] eqn:E3; [|discriminate E]. cbn [mbind option_bind] in E.
  destruct (packet_buffer_fifo 5 8 2 o [[1; 2; 3; 4; 5]; [6]; [7; 8; 9; 10; 11]] [[1; 2; 3; 4; 5]])
    as (q & Hq & Hf & _).
  - lia.
  - vm_compute. discriminate.
  - refine (reached_input 5 8 2 o3 o [[1; 2; 3; 4; 5]; [6]] _ [7; 8; 9; 10; 11] _ _ E); [|cbn; lia].
    refine (reached_output 5 8 2 o2 o3 _ [] [1; 2; 3; 4; 5] _ _ E3).
    + refine (reached_input 5 8 2 o1 o2 [[1; 2; 3; 4; 5]] _ [6] _ _ E2); [|cbn; lia].
      refine (reached_input 5 8 2 o0 o1 [] _ [1; 2; 3; 4; 5] _ _ E1); [|cbn; lia].
      refine (reached_init 5 8 2 (fun n => replicate (Z.to_nat (4 * n)) 0) o0 _ _).
      * intros n Hn. rewrite length_replicate. lia.
      * destruct (PacketBuffer_Init 5 8 2 _) as [[?|]|] eqn:Ei in E0 |- *; cbn in E0; congruence.
    + vm_compute in E0. injection E0 as <-. vm_compute in E1. injection E1 as <-.
      vm_compute in E2. injection E2 as <-. vm_compute. reflexivity.
  - exists o, q. split; [reflexivity|]. split; [exact Hq|exact Hf].
Defined.

End PacketBuffer.
