(* ===== verification/Effect.v ===== *)
(** * Stateful C code that can fail

    The code of badvpn is modelled as computations over an explicit state that
    either return or stop because an assertion fails or freed memory is used;
    [Bad] carries the number of the source line. The monad is an instance of
    stdpp's classes, so that its notations can be used. *)

From S2P Require Import Prelude.

Open Scope Z_scope.

Inductive res (S A : Type) := Done (a : A) (s : S) | Bad (line : Z).
Arguments Done {S A} a s.
Arguments Bad {S A} line.

Definition eff (S A : Type) : Type := S -> res S A.

#[export] Instance eff_mret {S} : MRet (eff S) := fun A a s => Done a s.
#[export] Instance eff_mbind {S} : MBind (eff S) := fun A B k m s =>
  match m s with Done a s' => k a s' | Bad line => Bad line end.

Definition bad {S A} (line : Z) : eff S A := fun _ => Bad line.
Definition get_st {S} : eff S S := fun s => Done s s.
Definition put_st {S} (s : S) : eff S unit := fun _ => Done tt s.
Definition upd_st {S} (g : S -> S) : eff S unit := fun s => Done tt (g s).

(** [ASSERT] *)
Definition assert_at {S} (line : Z) (b : bool) : eff S unit := if b then mret tt else bad line.

Definition whenever {S} (b : bool) (m : eff S unit) : eff S unit := if b then m else mret tt.

(** ** Specifications

    [runs m Q s]: from [s] the computation returns, in a state that satisfies [Q]. *)

Definition runs {S A} (m : eff S A) (Q : A -> S -> Prop) (s : S) : Prop :=
  match m s with Done a s' => Q a s' | Bad _ => False end.

Section Runs.
Context {S : Type}.

Lemma eff_ret {A} (a : A) Q (s : S) : Q a s -> runs (mret a) Q s.
Proof. done. Qed.

Lemma eff_bind {A B} (m : eff S A) (k : A -> eff S B) Q s :
  runs m (fun a => runs (k a) Q) s -> runs (m ≫= k) Q s.
Proof. unfold runs, mbind, eff_mbind. now destruct (m s). Qed.

Lemma eff_mono {A} (m : eff S A) (Q Q' : A -> S -> Prop) s :
  runs m Q s -> (forall a s', Q a s' -> Q' a s') -> runs m Q' s.
Proof. unfold runs. destruct (m s); [auto|done]. Qed.

Lemma eff_conj {A} (m : eff S A) (Q Q' : A -> S -> Prop) s :
  runs m Q s -> runs m Q' s -> runs m (fun a s' => Q a s' /\ Q' a s') s.
Proof. unfold runs. destruct (m s); auto. Qed.

Lemma eff_get Q (s : S) : Q s s -> runs get_st Q s.
Proof. done. Qed.

Lemma eff_upd g Q (s : S) : Q tt (g s) -> runs (upd_st g) Q s.
Proof. done. Qed.

Lemma eff_assert line b Q (s : S) : b = true -> Q tt s -> runs (assert_at line b) Q s.
Proof. now intros ->. Qed.

Lemma eff_whenever b m Q (s : S) :
  (b = true -> runs m Q s) -> (b = false -> Q tt s) -> runs (whenever b m) Q s.
Proof. destruct b; cbn; auto. Qed.

(** The result of a run that returns. *)
Lemma eff_done {A} (m : eff S A) Q s : runs m Q s -> exists a s', m s = Done a s' /\ Q a s'.
Proof. unfold runs. destruct (m s); [eauto|done]. Qed.

Lemma eff_at {A} (m : eff S A) Q s a s' : runs m Q s -> m s = Done a s' -> Q a s'.
Proof. unfold runs. intros H E. now rewrite E in H. Qed.

End Runs.

(** Symbolic execution: the next step of a computation. *)
Ltac step_eff :=
  cbv beta;
  lazymatch goal with
  | |- runs (mret _) _ _ => apply eff_ret
  | |- runs (mbind _ _) _ _ => apply eff_bind
  | |- runs get_st _ _ => apply eff_get
  | |- runs (upd_st _) _ _ => apply eff_upd
  | |- runs (assert_at _ _) _ _ => apply eff_assert
  end.
