(* ===== verification/BAddr.v ===== *)
(** * Addresses ([badvpn/system/BAddr.h])

    An address is kept the way it is in memory: the bytes of the address and of
    the port in network byte order. *)

From S2P Require Import Prelude.

Open Scope Z_scope.

Inductive BAddr :=
  | BADDR_NONE
  | BADDR_IPV4 (ip port : list Z)
  | BADDR_IPV6 (ip port : list Z).

#[export] Instance BAddr_eq_dec : EqDecision BAddr.
Proof. solve_decision. Defined.

Definition BAddr_InitIPv4 (ip port : list Z) : BAddr := BADDR_IPV4 ip port.
Definition BAddr_InitIPv6 (ip port : list Z) : BAddr := BADDR_IPV6 ip port.

(** The number of bytes of each part. *)
Definition baddr_ok (a : BAddr) : Prop :=
  match a with
  | BADDR_NONE => True
  | BADDR_IPV4 ip port => length ip = 4%nat /\ length port = 2%nat /\ bytes ip /\ bytes port
  | BADDR_IPV6 ip port => length ip = 16%nat /\ length port = 2%nat /\ bytes ip /\ bytes port
  end.

(** ** Comparison *)

Definition BADDR_TYPE (a : BAddr) : Z :=
  match a with BADDR_NONE => 0 | BADDR_IPV4 _ _ => 1 | BADDR_IPV6 _ _ => 2 end.

Definition BAddr_IsInvalid (a : BAddr) : bool := BADDR_TYPE a =? 0.

(** Two memory areas of the same size; only the sign of the result is specified. *)
Fixpoint memcmp (l l' : list Z) : Z :=
  match l, l' with
  | x :: l, y :: l' => if x <? y then -1 else if y <? x then 1 else memcmp l l'
  | _, _ => 0
  end.

Definition B_COMPARE (a b : Z) : Z := (if a >? b then 1 else 0) - (if a <? b then 1 else 0).

Definition BAddr_Compare (a1 a2 : BAddr) : bool :=
  match a1, a2 with
  | BADDR_IPV4 ip1 port1, BADDR_IPV4 ip2 port2 => bool_decide (ip1 = ip2) && bool_decide (port1 = port2)
  | BADDR_IPV6 ip1 port1, BADDR_IPV6 ip2 port2 => (memcmp ip1 ip2 =? 0) && bool_decide (port1 = port2)
  | _, _ => false
  end.

Definition BAddr_CompareOrder (a1 a2 : BAddr) : Z :=
  let cmp := B_COMPARE (BADDR_TYPE a1) (BADDR_TYPE a2) in
  if negb (cmp =? 0) then cmp
  else
    match a1, a2 with
    | BADDR_IPV4 ip1 port1, BADDR_IPV4 ip2 port2 =>
        let cmp := B_COMPARE (of_be ip1) (of_be ip2) in
        if negb (cmp =? 0) then cmp else B_COMPARE (of_be port1) (of_be port2)
    | BADDR_IPV6 ip1 port1, BADDR_IPV6 ip2 port2 =>
        let cmp := memcmp ip1 ip2 in
        if negb (cmp =? 0) then B_COMPARE cmp 0 else B_COMPARE (of_be port1) (of_be port2)
    | _, _ => 0
    end.
