(* ===== verification/TunClient.v ===== *)
(** * The TCP clients of tun2socks ([badvpn/tun2socks/tun2socks.c])

    lwIP terminates the TCP connections of the applications; for each of them
    there is a [tcp_client] that moves the bytes between lwIP and a connection to
    the SOCKS server. This file has the object and its callbacks, whole.

    The state of a callback is the client it is about together with the variables
    it shares with the others. A freed client is absent, and using it is a fault,
    as is a call on a pcb that lwIP has freed. The results of the lwIP calls are
    drawn from a list ([answers], 0 or [ERR_OK] once it is exhausted); what lwIP
    knows of the connection is kept in the pcb. The SOCKS side is the pair of
    stream interfaces of [BSocksClient]: the operation under way on each. Logging
    is left out. [log] is not in the program: it records what the callbacks did. *)

From S2P Require Import Prelude Mem Effect BAddr.

Open Scope Z_scope.

(** ** Constants *)

Definition ERR_OK : Z := 0.
Definition ERR_MEM : Z := -1.
Definition ERR_ABRT : Z := -13.

(** [lwipopts.h] and lwIP's [opt.h] *)
Definition TCP_MSS : Z := 1460.
Definition TCP_WND : Z := 4 * TCP_MSS.
Definition TCP_SND_BUF : Z := 16384.
Definition CLIENT_SOCKS_RECV_BUF_SIZE : Z := 8192.

(** ** Data *)

(** What lwIP keeps of a connection. *)
Record tcp_pcb := Pcb {
  p_live : bool;  (** not closed, aborted or freed by lwIP *)
  p_err : bool;  (** client_err_func is installed *)
  p_recv : bool;  (** client_recv_func is installed *)
  p_sent : bool;  (** client_sent_func is installed *)
  p_sndbuf : Z;  (** free space of the send queue *)
  p_unacked : Z;  (** bytes written and not yet reported as sent *)
}.

Definition with_p_live (g : bool -> bool) (r : tcp_pcb) : tcp_pcb :=
  Pcb (g (p_live r)) (p_err r) (p_recv r) (p_sent r) (p_sndbuf r) (p_unacked r).
Definition with_p_err (g : bool -> bool) (r : tcp_pcb) : tcp_pcb :=
  Pcb (p_live r) (g (p_err r)) (p_recv r) (p_sent r) (p_sndbuf r) (p_unacked r).
Definition with_p_recv (g : bool -> bool) (r : tcp_pcb) : tcp_pcb :=
  Pcb (p_live r) (p_err r) (g (p_recv r)) (p_sent r) (p_sndbuf r) (p_unacked r).
Definition with_p_sent (g : bool -> bool) (r : tcp_pcb) : tcp_pcb :=
  Pcb (p_live r) (p_err r) (p_recv r) (g (p_sent r)) (p_sndbuf r) (p_unacked r).
Definition with_p_sndbuf (g : Z -> Z) (r : tcp_pcb) : tcp_pcb :=
  Pcb (p_live r) (p_err r) (p_recv r) (p_sent r) (g (p_sndbuf r)) (p_unacked r).
Definition with_p_unacked (g : Z -> Z) (r : tcp_pcb) : tcp_pcb :=
  Pcb (p_live r) (p_err r) (p_recv r) (p_sent r) (p_sndbuf r) (g (p_unacked r)).

(** [struct tcp_client] *)
Record tcp_client := TcpClient {
  aborted : bool;
  dead_aborted : bool;  (** not the null pointer *)
  list_node : nat;  (** identifies the object in tcp_clients *)
  local_addr : BAddr;
  remote_addr : BAddr;
  pcb : tcp_pcb;
  client_closed : bool;
  buf : list Z;  (** TCP_WND bytes *)
  buf_used : Z;
  socks_up : bool;
  socks_closed : bool;
  send_if : option Z;  (** length of the send operation under way *)
  recv_if : option Z;  (** size of the receive operation under way *)
  socks_recv_buf : list Z;
  socks_recv_buf_used : Z;
  socks_recv_buf_sent : Z;
  socks_recv_waiting : bool;
  socks_recv_tcp_pending : Z;
}.

Definition with_aborted (g : bool -> bool) (r : tcp_client) : tcp_client :=
  TcpClient (g (aborted r)) (dead_aborted r) (list_node r) (local_addr r) (remote_addr r) (pcb r) (client_closed r) (buf r) (buf_used r) (socks_up r) (socks_closed r) (send_if r) (recv_if r) (socks_recv_buf r) (socks_recv_buf_used r) (socks_recv_buf_sent r) (socks_recv_waiting r) (socks_recv_tcp_pending r).
Definition with_dead_aborted (g : bool -> bool) (r : tcp_client) : tcp_client :=
  TcpClient (aborted r) (g (dead_aborted r)) (list_node r) (local_addr r) (remote_addr r) (pcb r) (client_closed r) (buf r) (buf_used r) (socks_up r) (socks_closed r) (send_if r) (recv_if r) (socks_recv_buf r) (socks_recv_buf_used r) (socks_recv_buf_sent r) (socks_recv_waiting r) (socks_recv_tcp_pending r).
Definition with_list_node (g : nat -> nat) (r : tcp_client) : tcp_client :=
  TcpClient (aborted r) (dead_aborted r) (g (list_node r)) (local_addr r) (remote_addr r) (pcb r) (client_closed r) (buf r) (buf_used r) (socks_up r) (socks_closed r) (send_if r) (recv_if r) (socks_recv_buf r) (socks_recv_buf_used r) (socks_recv_buf_sent r) (socks_recv_waiting r) (socks_recv_tcp_pending r).
Definition with_local_addr (g : BAddr -> BAddr) (r : tcp_client) : tcp_client :=
  TcpClient (aborted r) (dead_aborted r) (list_node r) (g (local_addr r)) (remote_addr r) (pcb r) (client_closed r) (buf r) (buf_used r) (socks_up r) (socks_closed r) (send_if r) (recv_if r) (socks_recv_buf r) (socks_recv_buf_used r) (socks_recv_buf_sent r) (socks_recv_waiting r) (socks_recv_tcp_pending r).
Definition with_remote_addr (g : BAddr -> BAddr) (r : tcp_client) : tcp_client :=
  TcpClient (aborted r) (dead_aborted r) (list_node r) (local_addr r) (g (remote_addr r)) (pcb r) (client_closed r) (buf r) (buf_used r) (socks_up r) (socks_closed r) (send_if r) (recv_if r) (socks_recv_buf r) (socks_recv_buf_used r) (socks_recv_buf_sent r) (socks_recv_waiting r) (socks_recv_tcp_pending r).
Definition with_pcb (g : tcp_pcb -> tcp_pcb) (r : tcp_client) : tcp_client :=
  TcpClient (aborted r) (dead_aborted r) (list_node r) (local_addr r) (remote_addr r) (g (pcb r)) (client_closed r) (buf r) (buf_used r) (socks_up r) (socks_closed r) (send_if r) (recv_if r) (socks_recv_buf r) (socks_recv_buf_used r) (socks_recv_buf_sent r) (socks_recv_waiting r) (socks_recv_tcp_pending r).
Definition with_client_closed (g : bool -> bool) (r : tcp_client) : tcp_client :=
  TcpClient (aborted r) (dead_aborted r) (list_node r) (local_addr r) (remote_addr r) (pcb r) (g (client_closed r)) (buf r) (buf_used r) (socks_up r) (socks_closed r) (send_if r) (recv_if r) (socks_recv_buf r) (socks_recv_buf_used r) (socks_recv_buf_sent r) (socks_recv_waiting r) (socks_recv_tcp_pending r).
Definition with_buf (g : list Z -> list Z) (r : tcp_client) : tcp_client :=
  TcpClient (aborted r) (dead_aborted r) (list_node r) (local_addr r) (remote_addr r) (pcb r) (client_closed r) (g (buf r)) (buf_used r) (socks_up r) (socks_closed r) (send_if r) (recv_if r) (socks_recv_buf r) (socks_recv_buf_used r) (socks_recv_buf_sent r) (socks_recv_waiting r) (socks_recv_tcp_pending r).
Definition with_buf_used (g : Z -> Z) (r : tcp_client) : tcp_client :=
  TcpClient (aborted r) (dead_aborted r) (list_node r) (local_addr r) (remote_addr r) (pcb r) (client_closed r) (buf r) (g (buf_used r)) (socks_up r) (socks_closed r) (send_if r) (recv_if r) (socks_recv_buf r) (socks_recv_buf_used r) (socks_recv_buf_sent r) (socks_recv_waiting r) (socks_recv_tcp_pending r).
Definition with_socks_up (g : bool -> bool) (r : tcp_client) : tcp_client :=
  TcpClient (aborted r) (dead_aborted r) (list_node r) (local_addr r) (remote_addr r) (pcb r) (client_closed r) (buf r) (buf_used r) (g (socks_up r)) (socks_closed r) (send_if r) (recv_if r) (socks_recv_buf r) (socks_recv_buf_used r) (socks_recv_buf_sent r) (socks_recv_waiting r) (socks_recv_tcp_pending r).
Definition with_socks_closed (g : bool -> bool) (r : tcp_client) : tcp_client :=
  TcpClient (aborted r) (dead_aborted r) (list_node r) (local_addr r) (remote_addr r) (pcb r) (client_closed r) (buf r) (buf_used r) (socks_up r) (g (socks_closed r)) (send_if r) (recv_if r) (socks_recv_buf r) (socks_recv_buf_used r) (socks_recv_buf_sent r) (socks_recv_waiting r) (socks_recv_tcp_pending r).
Definition with_send_if (g : option Z -> option Z) (r : tcp_client) : tcp_client :=
  TcpClient (aborted r) (dead_aborted r) (list_node r) (local_addr r) (remote_addr r) (pcb r) (client_closed r) (buf r) (buf_used r) (socks_up r) (socks_closed r) (g (send_if r)) (recv_if r) (socks_recv_buf r) (socks_recv_buf_used r) (socks_recv_buf_sent r) (socks_recv_waiting r) (socks_recv_tcp_pending r).
Definition with_recv_if (g : option Z -> option Z) (r : tcp_client) : tcp_client :=
  TcpClient (aborted r) (dead_aborted r) (list_node r) (local_addr r) (remote_addr r) (pcb r) (client_closed r) (buf r) (buf_used r) (socks_up r) (socks_closed r) (send_if r) (g (recv_if r)) (socks_recv_buf r) (socks_recv_buf_used r) (socks_recv_buf_sent r) (socks_recv_waiting r) (socks_recv_tcp_pending r).
Definition with_socks_recv_buf (g : list Z -> list Z) (r : tcp_client) : tcp_client :=
  TcpClient (aborted r) (dead_aborted r) (list_node r) (local_addr r) (remote_addr r) (pcb r) (client_closed r) (buf r) (buf_used r) (socks_up r) (socks_closed r) (send_if r) (recv_if r) (g (socks_recv_buf r)) (socks_recv_buf_used r) (socks_recv_buf_sent r) (socks_recv_waiting r) (socks_recv_tcp_pending r).
Definition with_socks_recv_buf_used (g : Z -> Z) (r : tcp_client) : tcp_client :=
  TcpClient (aborted r) (dead_aborted r) (list_node r) (local_addr r) (remote_addr r) (pcb r) (client_closed r) (buf r) (buf_used r) (socks_up r) (socks_closed r) (send_if r) (recv_if r) (socks_recv_buf r) (g (socks_recv_buf_used r)) (socks_recv_buf_sent r) (socks_recv_waiting r) (socks_recv_tcp_pending r).
Definition with_socks_recv_buf_sent (g : Z -> Z) (r : tcp_client) : tcp_client :=
  TcpClient (aborted r) (dead_aborted r) (list_node r) (local_addr r) (remote_addr r) (pcb r) (client_closed r) (buf r) (buf_used r) (socks_up r) (socks_closed r) (send_if r) (recv_if r) (socks_recv_buf r) (socks_recv_buf_used r) (g (socks_recv_buf_sent r)) (socks_recv_waiting r) (socks_recv_tcp_pending r).
Definition with_socks_recv_waiting (g : bool -> bool) (r : tcp_client) : tcp_client :=
  TcpClient (aborted r) (dead_aborted r) (list_node r) (local_addr r) (remote_addr r) (pcb r) (client_closed r) (buf r) (buf_used r) (socks_up r) (socks_closed r) (send_if r) (recv_if r) (socks_recv_buf r) (socks_recv_buf_used r) (socks_recv_buf_sent r) (g (socks_recv_waiting r)) (socks_recv_tcp_pending r).
Definition with_socks_recv_tcp_pending (g : Z -> Z) (r : tcp_client) : tcp_client :=
  TcpClient (aborted r) (dead_aborted r) (list_node r) (local_addr r) (remote_addr r) (pcb r) (client_closed r) (buf r) (buf_used r) (socks_up r) (socks_closed r) (send_if r) (recv_if r) (socks_recv_buf r) (socks_recv_buf_used r) (socks_recv_buf_sent r) (socks_recv_waiting r) (g (socks_recv_tcp_pending r)).

Inductive event :=
  | Copied (d : list Z)   (** taken from lwIP into [buf] *)
  | Sent (d : list Z)     (** taken by the SOCKS connection from [buf] *)
  | Confirmed (n : Z)     (** [tcp_recved] *)
  | Got (d : list Z)      (** put by the SOCKS connection into [socks_recv_buf] *)
  | Wrote (d : list Z)    (** accepted by [tcp_write] *)
  | Closed                (** [tcp_close] succeeded *)
  | Aborted               (** [tcp_abort] *)
  | SocksFreed            (** [BSocksClient_Free] *)
  | Deallocated.

(** The state of a callback. *)
Record st := St {
  client : option tcp_client;  (** the object the callback is about; None once it is freed *)
  tcp_clients : list nat;
  num_clients : Z;
  auth_username : option nat;  (** whose user name socks_auth_info[1] points to; None for that of the options *)
  answers : list Z;  (** results of the calls to come *)
  dead : option Z;  (** badvpn__dead of the callback that is running, if one watches the client *)
  log : list event;  (** what happened to this client, oldest first *)
}.

Definition with_client (g : option tcp_client -> option tcp_client) (r : st) : st :=
  St (g (client r)) (tcp_clients r) (num_clients r) (auth_username r) (answers r) (dead r) (log r).
Definition with_tcp_clients (g : list nat -> list nat) (r : st) : st :=
  St (client r) (g (tcp_clients r)) (num_clients r) (auth_username r) (answers r) (dead r) (log r).
Definition with_num_clients (g : Z -> Z) (r : st) : st :=
  St (client r) (tcp_clients r) (g (num_clients r)) (auth_username r) (answers r) (dead r) (log r).
Definition with_auth_username (g : option nat -> option nat) (r : st) : st :=
  St (client r) (tcp_clients r) (num_clients r) (g (auth_username r)) (answers r) (dead r) (log r).
Definition with_answers (g : list Z -> list Z) (r : st) : st :=
  St (client r) (tcp_clients r) (num_clients r) (auth_username r) (g (answers r)) (dead r) (log r).
Definition with_dead (g : option Z -> option Z) (r : st) : st :=
  St (client r) (tcp_clients r) (num_clients r) (auth_username r) (answers r) (g (dead r)) (log r).
Definition with_log (g : list event -> list event) (r : st) : st :=
  St (client r) (tcp_clients r) (num_clients r) (auth_username r) (answers r) (dead r) (g (log r)).

(** ** Access *)

Definition this (line : Z) : eff st tcp_client :=
  s ← get_st; match client s with Some x => mret x | None => bad line end.

Definition set_this (line : Z) (g : tcp_client -> tcp_client) : eff st unit :=
  x ← this line; upd_st (with_client (fun _ => Some (g x))).

Definition note (e : event) : eff st unit := upd_st (with_log (fun l => l ++ [e])).

Definition answer : eff st Z :=
  s ← get_st;
  match answers s with
  | [] => mret 0
  | r :: l => upd_st (with_answers (fun _ => l)) ;; mret r
  end.

(** ** lwIP *)

(** A call on the pcb of the client. *)
Definition on_pcb (line : Z) (g : tcp_pcb -> tcp_pcb) : eff st unit :=
  x ← this line; assert_at line (p_live (pcb x)) ;; set_this line (with_pcb g).

Definition tcp_err (line : Z) (b : bool) : eff st unit := on_pcb line (with_p_err (fun _ => b)).
Definition tcp_recv (line : Z) (b : bool) : eff st unit := on_pcb line (with_p_recv (fun _ => b)).
Definition tcp_sent (line : Z) (b : bool) : eff st unit := on_pcb line (with_p_sent (fun _ => b)).

(** The pcb is gone when this succeeds. *)
Definition tcp_close (line : Z) : eff st Z :=
  on_pcb line id ;; r ← answer;
  whenever (r =? ERR_OK) (on_pcb line (with_p_live (fun _ => false)) ;; note Closed) ;;
  mret r.

(** [tcp_abort] calls the error callback if one is installed, which must not be. *)
Definition tcp_abort (line : Z) : eff st unit :=
  x ← this line;
  assert_at line (negb (p_err (pcb x))) ;;
  on_pcb line (with_p_live (fun _ => false)) ;; note Aborted.

Definition tcp_recved (line n : Z) : eff st unit := on_pcb line id ;; note (Confirmed n).

Definition tcp_sndbuf (line : Z) : eff st Z := on_pcb line id ;; x ← this line; mret (p_sndbuf (pcb x)).

Definition tcp_write (line : Z) (d : list Z) : eff st Z :=
  on_pcb line id ;; r ← answer;
  whenever (r =? ERR_OK)
    (on_pcb line (fun p => with_p_sndbuf (fun n => n - Z.of_nat (length d))
                      (with_p_unacked (fun n => n + Z.of_nat (length d)) p)) ;;
     note (Wrote d)) ;;
  mret r.

Definition tcp_output (line : Z) : eff st Z := on_pcb line id ;; answer.

(** ** The stream interfaces of the SOCKS client *)

(** [StreamPassInterface_Sender_Send] *)
Definition Sender_Send (len : Z) : eff st unit :=
  assert_at 150 (0 <? len) ;;
  x ← this 152;
  assert_at 152 (bool_decide (send_if x = None)) ;;
  set_this 152 (with_send_if (fun _ => Some len)).

(** [StreamRecvInterface_Receiver_Recv] *)
Definition Receiver_Recv (len : Z) : eff st unit :=
  assert_at 150 (0 <? len) ;;
  x ← this 152;
  assert_at 152 (bool_decide (recv_if x = None)) ;;
  set_this 152 (with_recv_if (fun _ => Some len)).

(** The interfaces disappear with the SOCKS client. *)
Definition BSocksClient_Free (line : Z) : eff st unit :=
  set_this line (fun x => with_send_if (fun _ => None) (with_recv_if (fun _ => None) x)) ;;
  note SocksFreed.

(** ** Freeing a client *)

(** [DEAD_KILL_WITH(client->dead_aborted, v)]; the variable must still be there. *)
Definition kill_dead (line v : Z) : eff st unit :=
  x ← this line;
  whenever (dead_aborted x)
    (s ← get_st;
     match dead s with None => bad line | Some _ => upd_st (with_dead (fun _ => Some v)) end).

Definition client_dealloc : eff st unit :=
  x ← this 1870;
  assert_at 1870 (client_closed x) ;;
  assert_at 1871 (socks_closed x) ;;
  s ← get_st;
  assert_at 1874 (0 <? num_clients s) ;;
  upd_st (with_num_clients (fun n => n - 1)) ;;
  upd_st (with_tcp_clients (filter (fun k => k <> list_node x))) ;;
  whenever (negb (aborted x)) (kill_dead 1882 (-1)) ;;
  note Deallocated ;;
  upd_st (with_client (fun _ => None)).

Definition client_abort_pcb : eff st unit :=
  x ← this 1795;
  assert_at 1795 (negb (aborted x)) ;;
  tcp_abort 1798 ;;
  set_this 1801 (with_aborted (fun _ => true)) ;;
  kill_dead 1806 1.

(** Removing the three callbacks. *)
Definition remove_callbacks (line : Z) : eff st unit :=
  tcp_err line false ;; tcp_recv (line + 1) false ;; tcp_sent (line + 2) false.

(** The three functions call each other; the first argument bounds the depth of
    the calls, and running out of it is a fault. *)
Fixpoint client_handle_freed_client (n : nat) : eff st unit :=
  match n with
  | O => bad 1738
  | S n =>
      x ← this 1740;
      assert_at 1740 (negb (client_closed x)) ;;
      set_this 1745 (with_client_closed (fun _ => true)) ;;
      if (0 <? buf_used x) && negb (socks_closed x) then mret tt
      else if negb (socks_closed x) then client_free_socks n
      else client_dealloc
  end
with client_free_client (n : nat) : eff st unit :=
  match n with
  | O => bad 1759
  | S n =>
      x ← this 1761;
      assert_at 1761 (negb (client_closed x)) ;;
      remove_callbacks 1764 ;;
      err ← tcp_close 1769;
      whenever (negb (err =? ERR_OK)) client_abort_pcb ;;
      client_handle_freed_client n
  end
with client_free_socks (n : nat) : eff st unit :=
  match n with
  | O => bad 1809
  | S n =>
      x ← this 1811;
      assert_at 1811 (negb (socks_closed x)) ;;
      whenever (socks_up x && negb (client_closed x)) (tcp_recv 1817 false) ;;
      BSocksClient_Free 1822 ;;
      set_this 1825 (with_socks_closed (fun _ => true)) ;;
      if socks_up x && ((socks_recv_buf_used x >=? 0) || (socks_recv_tcp_pending x >? 0)) &&
         negb (client_closed x)
      then mret tt
      else if negb (client_closed x) then client_free_client n
      else client_dealloc
  end.

Definition depth : nat := 4.

Definition client_abort_client : eff st unit :=
  x ← this 1780;
  assert_at 1780 (negb (client_closed x)) ;;
  remove_callbacks 1783 ;;
  client_abort_pcb ;;
  client_handle_freed_client depth.

Definition client_murder : eff st unit :=
  x ← this 1842;
  whenever (negb (client_closed x))
    (remove_callbacks 1844 ;;
     client_abort_pcb ;;
     set_this 1852 (with_client_closed (fun _ => true))) ;;
  x ← this 1856;
  whenever (negb (socks_closed x))
    (BSocksClient_Free 1858 ;; set_this 1861 (with_socks_closed (fun _ => true))) ;;
  client_dealloc.

(** ** Client to SOCKS *)

Definition client_send_to_socks : eff st unit :=
  x ← this 2006;
  assert_at 2006 (negb (socks_closed x)) ;;
  assert_at 2007 (socks_up x) ;;
  assert_at 2008 (0 <? buf_used x) ;;
  Sender_Send (buf_used x).

Definition client_socks_send_handler_done (data_len : Z) : eff st unit :=
  x ← this 2016;
  assert_at 2016 (negb (socks_closed x)) ;;
  assert_at 2017 (socks_up x) ;;
  assert_at 2018 (0 <? buf_used x) ;;
  assert_at 2019 (0 <? data_len) ;;
  assert_at 2020 (data_len <=? buf_used x) ;;
  set_this 2023 (fun x =>
    with_buf (fun m => mem_write m 0 (mem_read m (Z.to_nat data_len) (Z.to_nat (buf_used x - data_len))))
      (with_buf_used (fun n => n - data_len) x)) ;;
  whenever (negb (client_closed x)) (tcp_recved 2028 data_len) ;;
  x ← this 2031;
  if 0 <? buf_used x then Sender_Send (buf_used x)
  else if client_closed x then client_free_socks depth
  else mret tt.

(** ** SOCKS to client *)

Definition client_socks_recv_initiate : eff st unit :=
  x ← this 2045;
  assert_at 2045 (negb (client_closed x)) ;;
  assert_at 2046 (negb (socks_closed x)) ;;
  assert_at 2047 (socks_up x) ;;
  assert_at 2048 (socks_recv_buf_used x =? -1) ;;
  Receiver_Recv CLIENT_SOCKS_RECV_BUF_SIZE.

(** The loop of [client_socks_recv_send_out]; [false] when the client was aborted. *)
Fixpoint write_loop (n : nat) : eff st bool :=
  match n with
  | O => bad 2093
  | S n =>
      x ← this 2094;
      sndbuf ← tcp_sndbuf 2094;
      let to_write := Z.min (socks_recv_buf_used x - socks_recv_buf_sent x) sndbuf in
      if to_write =? 0 then mret true
      else
        err ← tcp_write 2099
                (mem_read (socks_recv_buf x) (Z.to_nat (socks_recv_buf_sent x)) (Z.to_nat to_write));
        if negb (err =? ERR_OK) then
          if err =? ERR_MEM then mret true else client_abort_client ;; mret false
        else
          set_this 2111 (fun x => with_socks_recv_buf_sent (fun k => k + to_write)
            (with_socks_recv_tcp_pending (fun k => k + to_write) x)) ;;
          x ← this 2113;
          if socks_recv_buf_sent x <? socks_recv_buf_used x then write_loop n else mret true
  end.

(** Every turn of the loop writes something. *)
Definition loop_bound (x : tcp_client) : nat :=
  S (Z.to_nat (socks_recv_buf_used x - socks_recv_buf_sent x)).

Definition client_socks_recv_send_out : eff st Z :=
  x ← this 2084;
  assert_at 2084 (negb (client_closed x)) ;;
  assert_at 2085 (socks_up x) ;;
  assert_at 2086 (0 <? socks_recv_buf_used x) ;;
  assert_at 2087 (socks_recv_buf_sent x <? socks_recv_buf_used x) ;;
  assert_at 2088 (negb (socks_recv_waiting x)) ;;
  go_on ← write_loop (loop_bound x);
  if negb go_on then mret (-1)
  else
    err ← tcp_output 2116;
    if negb (err =? ERR_OK) then client_abort_client ;; mret (-1)
    else
      x ← this 2125;
      if socks_recv_buf_sent x <? socks_recv_buf_used x then
        if socks_recv_tcp_pending x =? 0 then client_abort_client ;; mret (-1)
        else set_this 2134 (with_socks_recv_waiting (fun _ => true)) ;; mret 0
      else set_this 2139 (with_socks_recv_buf_used (fun _ => -1)) ;; mret 0.

Definition client_socks_recv_handler_done (data_len : Z) : eff st unit :=
  x ← this 2055;
  assert_at 2055 (0 <? data_len) ;;
  assert_at 2056 (data_len <=? CLIENT_SOCKS_RECV_BUF_SIZE) ;;
  assert_at 2057 (negb (socks_closed x)) ;;
  assert_at 2058 (socks_up x) ;;
  assert_at 2059 (socks_recv_buf_used x =? -1) ;;
  if client_closed x then mret tt
  else
    set_this 2067 (fun x => with_socks_recv_buf_used (fun _ => data_len)
      (with_socks_recv_buf_sent (fun _ => 0) (with_socks_recv_waiting (fun _ => false) x))) ;;
    r ← client_socks_recv_send_out;
    if r <? 0 then mret tt
    else
      x ← this 2077;
      whenever (socks_recv_buf_used x =? -1) client_socks_recv_initiate.

(** ** Events of the SOCKS client *)

Inductive socks_event := EVENT_ERROR | EVENT_UP | EVENT_ERROR_CLOSED.

Definition client_socks_handler (ev : socks_event) : eff st unit :=
  x ← this 1950;
  assert_at 1950 (negb (socks_closed x)) ;;
  match ev with
  | EVENT_ERROR => client_free_socks depth
  | EVENT_UP =>
      assert_at 1960 (negb (socks_up x)) ;;
      set_this 1972 (fun x => with_socks_recv_buf_used (fun _ => -1)
        (with_socks_recv_tcp_pending (fun _ => 0) x)) ;;
      whenever (negb (client_closed x)) (tcp_sent 1975 true) ;;
      set_this 1979 (with_socks_up (fun _ => true)) ;;
      whenever (0 <? buf_used x) client_send_to_socks ;;
      whenever (negb (client_closed x)) client_socks_recv_initiate
  | EVENT_ERROR_CLOSED =>
      assert_at 1992 (socks_up x) ;;
      client_free_socks depth
  end.

(** What the SOCKS client can report: an event, the end of a send operation, the
    end of a receive operation with the bytes it has put into the buffer. *)
Inductive job :=
  | SocksEvent (ev : socks_event)
  | SendDone (n : Z)
  | RecvDone (d : list Z).

(** The contract of the interfaces: only an operation under way ends, with a
    number of bytes it allows, and the SOCKS client comes up once. *)
Definition job_enabled (x : tcp_client) (j : job) : bool :=
  negb (socks_closed x) &&
  match j with
  | SocksEvent EVENT_ERROR => true
  | SocksEvent EVENT_UP => negb (socks_up x)
  | SocksEvent EVENT_ERROR_CLOSED => socks_up x
  | SendDone n => match send_if x with Some len => (0 <? n) && (n <=? len) | None => false end
  | RecvDone d =>
      match recv_if x with
      | Some len => (0 <? Z.of_nat (length d)) && (Z.of_nat (length d) <=? len)
      | None => false
      end
  end.

Definition run_job (j : job) : eff st unit :=
  match j with
  | SocksEvent ev => client_socks_handler ev
  | SendDone n =>
      x ← this 0;
      note (Sent (mem_read (buf x) 0 (Z.to_nat n))) ;;
      set_this 0 (with_send_if (fun _ => None)) ;;
      client_socks_send_handler_done n
  | RecvDone d =>
      note (Got d) ;;
      set_this 0 (fun x => with_recv_if (fun _ => None)
        (with_socks_recv_buf (fun m => mem_write m 0 d) x)) ;;
      client_socks_recv_handler_done (Z.of_nat (length d))
  end.

(** [SYNC_COMMIT]: the jobs scheduled since [SYNC_FROMHERE] run before the
    callback goes on. Which ones there are depends on the SOCKS connection: [js]
    is a schedule, and what is not possible when its turn comes is passed over. *)
Fixpoint sync (js : list job) : eff st unit :=
  match js with
  | [] => mret tt
  | j :: js =>
      s ← get_st;
      match client s with
      | None => mret tt
      | Some x => whenever (job_enabled x j) (run_job j) ;; sync js
      end
  end.

(** ** Callbacks of lwIP *)

(** [DEAD_ENTER] and [DEAD_LEAVE2] around a piece of code: the previous value of
    the pointer comes back unless it was killed. The callbacks of one client do
    not nest, so that one variable is enough. *)
Definition dead_enter (line : Z) : eff st bool :=
  x ← this line;
  upd_st (with_dead (fun _ => Some 0)) ;;
  set_this line (with_dead_aborted (fun _ => true)) ;;
  mret (dead_aborted x).

Definition dead_leave (line : Z) (prev : bool) : eff st unit :=
  s ← get_st;
  whenever (bool_decide (dead s = Some 0)) (set_this line (with_dead_aborted (fun _ => prev))).

(** The variable goes out of scope when the callback returns. *)
Definition dead_end (r : Z) : eff st Z := upd_st (with_dead (fun _ => None)) ;; mret r.

(** [(DEAD_KILLED > 0) ? ERR_ABRT : ERR_OK] *)
Definition dead_result : eff st Z :=
  s ← get_st; dead_end (if 0 <? default 0 (dead s) then ERR_ABRT else ERR_OK).

Definition client_err_func : eff st unit :=
  x ← this 1893;
  assert_at 1893 (negb (client_closed x)) ;;
  client_handle_freed_client depth.

(** [None] is the null pbuf that reports the end of the stream. *)
Definition client_recv_func (p : option (list Z)) (js : list job) : eff st Z :=
  x ← this 1904;
  assert_at 1904 (negb (client_closed x)) ;;
  prev ← dead_enter 1908;
  match p with
  | None =>
      client_free_client depth ;; dead_leave 1941 prev ;; dead_result
  | Some d =>
      let tot_len := Z.of_nat (length d) in
      assert_at 1914 (0 <? tot_len) ;;
      if tot_len >? TCP_WND - buf_used x then dead_leave 1919 prev ;; dead_end ERR_MEM
      else
        set_this 1924 (fun x => with_buf (fun m => mem_write m (Z.to_nat (buf_used x)) d)
          (with_buf_used (fun n => n + tot_len) x)) ;;
        note (Copied d) ;;
        x ← this 1932;
        whenever ((buf_used x =? tot_len) && socks_up x)
          (assert_at 1933 (negb (socks_closed x)) ;; client_send_to_socks ;; sync js) ;;
        dead_leave 1941 prev ;; dead_result
  end.

Definition client_sent_func (len : Z) (js : list job) : eff st Z :=
  x ← this 2148;
  assert_at 2148 (negb (client_closed x)) ;;
  assert_at 2149 (socks_up x) ;;
  assert_at 2150 (0 <? len) ;;
  assert_at 2151 (len <=? socks_recv_tcp_pending x) ;;
  prev ← dead_enter 2153;
  set_this 2156 (with_socks_recv_tcp_pending (fun n => n - len)) ;;
  x ← this 2159;
  (if 0 <? socks_recv_buf_used x then
     assert_at 2160 (socks_recv_waiting x) ;;
     assert_at 2161 (socks_recv_buf_sent x <? socks_recv_buf_used x) ;;
     set_this 2164 (with_socks_recv_waiting (fun _ => false)) ;;
     r ← client_socks_recv_send_out;
     if r <? 0 then mret tt
     else
       x ← this 2172;
       assert_at 2172 (0 <? socks_recv_tcp_pending x) ;;
       whenever ((socks_recv_buf_used x =? -1) && negb (socks_closed x))
         (client_socks_recv_initiate ;; sync js)
   else
     whenever (socks_closed x && (socks_recv_tcp_pending x =? 0)) (client_free_client depth)) ;;
  dead_leave 2190 prev ;; dead_result.

(** ** Accepting a connection *)

(** A connection lwIP has accepted. *)
Definition fresh_pcb : tcp_pcb := Pcb true false false false TCP_SND_BUF 0.

Definition new_client (id : nat) (local remote : BAddr) : tcp_client :=
  TcpClient false false id local remote fresh_pcb false (repeat 0 (Z.to_nat TCP_WND)) 0 false false None None
    (repeat 0 (Z.to_nat CLIENT_SOCKS_RECV_BUF_SIZE)) 0 0 false 0.

(** [with_source]: a user name was given and the source address is to be added
    to it. The calls that can fail are [malloc], [concat_strings] and
    [BSocksClient_Init]; an answer of 0 is success. [id] names the new object. *)
Definition listener_accept_func (with_source : bool) (id : nat) (local remote : BAddr) (js : list job)
  : eff st Z :=
  malloc ← answer;
  if negb (malloc =? 0) then mret ERR_MEM
  else
    name ← (if with_source then
              r ← answer;
              if negb (r =? 0) then mret false
              else upd_st (with_auth_username (fun _ => Some id)) ;; mret true
            else mret true);
    if negb name then mret ERR_MEM
    else
      r ← answer;
      if negb (r =? 0) then mret ERR_MEM
      else
        upd_st (with_client (fun _ => Some (new_client id local remote))) ;;
        upd_st (with_tcp_clients (fun l => l ++ [id])) ;;
        s ← get_st;
        assert_at 1695 (0 <=? num_clients s) ;;
        upd_st (with_num_clients (fun n => n + 1)) ;;
        tcp_err 1711 true ;;
        tcp_recv 1712 true ;;
        prev ← dead_enter 1723;
        sync js ;;
        dead_leave 1725 prev ;;
        dead_result.
