(* ===== verification/TunInv.v ===== *)
(** * The invariant of a TCP client of tun2socks

    What holds of a [tcp_client] between any two callbacks, in terms of its
    fields and of what has happened to it so far. *)

From S2P Require Import Prelude Mem Effect BAddr TunClient.

Open Scope Z_scope.

(** ** The byte streams of a log *)

Definition stream (f : event -> list Z) (l : list event) : list Z := flat_map f l.

Definition up_in (l : list event) : list Z := stream (fun e => match e with Copied d => d | _ => [] end) l.
Definition up_out (l : list event) : list Z := stream (fun e => match e with Sent d => d | _ => [] end) l.
Definition down_in (l : list event) : list Z := stream (fun e => match e with Got d => d | _ => [] end) l.
Definition down_out (l : list event) : list Z := stream (fun e => match e with Wrote d => d | _ => [] end) l.

Definition confirmed (l : list event) : Z :=
  foldr (fun e n => match e with Confirmed k => k + n | _ => n end) 0 l.

Definition has_aborted (l : list event) : bool :=
  existsb (fun e => match e with Aborted => true | _ => false end) l.

Arguments up_in : simpl never.
Arguments up_out : simpl never.
Arguments down_in : simpl never.
Arguments down_out : simpl never.
Arguments confirmed : simpl never.
Arguments has_aborted : simpl never.

Lemma stream_app f l e : stream f (l ++ [e]) = stream f l ++ f e.
Proof. unfold stream. rewrite flat_map_app. cbn. now rewrite app_nil_r. Qed.

Lemma confirmed_app l e : confirmed (l ++ [e]) = confirmed l + match e with Confirmed k => k | _ => 0 end.
Proof.
  unfold confirmed. induction l as [|x l IH]; cbn; [destruct e; lia|].
  cbn in IH. rewrite IH. destruct x; lia.
Qed.

Lemma has_aborted_app l e :
  has_aborted (l ++ [e]) = has_aborted l || match e with Aborted => true | _ => false end.
Proof. unfold has_aborted. rewrite existsb_app. cbn. now rewrite orb_false_r. Qed.

(** ** The object *)

(** The bytes from lwIP that are not sent yet. *)
Definition up_rest (x : tcp_client) : list Z := mem_read (buf x) 0 (Z.to_nat (buf_used x)).

(** The bytes from the SOCKS server that are not written yet. *)
Definition down_rest (x : tcp_client) : list Z :=
  if socks_up x && (0 <? socks_recv_buf_used x) then
    mem_read (socks_recv_buf x) (Z.to_nat (socks_recv_buf_sent x))
      (Z.to_nat (socks_recv_buf_used x - socks_recv_buf_sent x))
  else [].

(** Nothing is lost, repeated or out of order, and lwIP is told how much was sent. *)
Record core (x : tcp_client) (l : list event) : Prop := Core {
  c_buf : length (buf x) = Z.to_nat TCP_WND;
  c_used : 0 <= buf_used x <= TCP_WND;
  c_rbuf : length (socks_recv_buf x) = Z.to_nat CLIENT_SOCKS_RECV_BUF_SIZE;
  c_up : up_in l = up_out l ++ up_rest x;
  c_conf : confirmed l <= Z.of_nat (length (up_out l));
  c_down : down_out l `prefix_of` down_in l;
  c_aborted : aborted x = has_aborted l;
}.

(** While the client is open. *)
Record open_streams (x : tcp_client) (l : list event) : Prop := OpenStreams {
  o_conf : confirmed l = Z.of_nat (length (up_out l));
  o_down : down_in l = down_out l ++ down_rest x;
}.

(** ** Control *)

(** The send interface is busy exactly while there is something to send. *)
Definition send_side (x : tcp_client) : Prop :=
  match send_if x with
  | None => socks_up x = false \/ buf_used x = 0
  | Some len => socks_up x = true /\ 0 < len <= buf_used x
  end.

(** A receive operation under way finds the buffer free. *)
Definition recv_side (x : tcp_client) : Prop :=
  recv_if x = None \/
  (recv_if x = Some CLIENT_SOCKS_RECV_BUF_SIZE /\ socks_up x = true /\ socks_recv_buf_used x = -1).

(** A chunk waits for lwIP to have room again. *)
Definition waiting (x : tcp_client) : Prop :=
  0 <= socks_recv_buf_sent x < socks_recv_buf_used x /\
  socks_recv_buf_used x <= CLIENT_SOCKS_RECV_BUF_SIZE /\
  socks_recv_waiting x = true /\ 0 < socks_recv_tcp_pending x.

(** The pcb of an open client. *)
Record open_pcb (x : tcp_client) : Prop := OpenPcb {
  p_is_live : p_live (pcb x) = true;
  p_room : 0 <= p_sndbuf (pcb x) /\ 0 <= p_unacked (pcb x) /\
    p_sndbuf (pcb x) + p_unacked (pcb x) = TCP_SND_BUF;
  p_pending : p_unacked (pcb x) = if socks_up x then socks_recv_tcp_pending x else 0;
}.

(** The callbacks of an open client. *)
Record open_callbacks (x : tcp_client) : Prop := OpenCallbacks {
  cb_err : p_err (pcb x) = true;
  cb_recv : p_recv (pcb x) = negb (socks_closed x);
  cb_sent : p_sent (pcb x) = socks_up x;
}.

(** The direction from the SOCKS server of an open client. *)
Definition down_side (x : tcp_client) : Prop :=
  if socks_up x then
    (socks_recv_buf_used x = -1 /\
       recv_if x = (if socks_closed x then None else Some CLIENT_SOCKS_RECV_BUF_SIZE)) \/
    (waiting x /\ recv_if x = None)
  else recv_if x = None.

Record open_shape (x : tcp_client) (l : list event) : Prop := OpenShape {
  os_streams : open_streams x l;
  os_pcb : open_pcb x;
  os_callbacks : open_callbacks x;
  os_alive : aborted x = false;
  os_down : down_side x;
  os_socks : if socks_closed x
             then socks_up x = true /\ send_if x = None /\ 0 < socks_recv_tcp_pending x
             else send_side x;
}.

Record closed_shape (x : tcp_client) : Prop := ClosedShape {
  cs_pcb : p_live (pcb x) = false;
  cs_buf : 0 < buf_used x;
  cs_socks : socks_closed x = false;
  cs_send : send_side x;
  cs_recv : recv_side x;
}.

Definition shape (x : tcp_client) (l : list event) : Prop :=
  if client_closed x then closed_shape x else open_shape x l.

(** ** A callback under way

    [s0] is the state it started in; [cb] tells whether it watches for the end
    of the client ([DEAD_ENTER]). The pointer of an aborted client may be left
    over from an earlier callback; it is not used any more. *)

Record mid (cb : bool) (s0 s : st) (x : tcp_client) : Prop := Mid {
  m_client : client s = Some x;
  m_core : core x (log s);
  m_dead : aborted x = false -> dead_aborted x = cb;
  m_killed : cb = true -> dead s = Some (if aborted x then 1 else 0);
  m_list : tcp_clients s = tcp_clients s0;
  m_num : num_clients s = num_clients s0;
  m_pos : 0 < num_clients s0;
  m_auth : auth_username s = auth_username s0;
  m_log : log s0 `prefix_of` log s;
  m_node : list_node x = default 0%nat (list_node <$> client s0);
}.

(** The client is freed and has been taken off the list. *)
Record gone (cb : bool) (s0 s : st) : Prop := Gone {
  g_client : client s = None;
  g_up : up_out (log s) `prefix_of` up_in (log s);
  g_down : down_out (log s) `prefix_of` down_in (log s);
  g_conf : confirmed (log s) <= Z.of_nat (length (up_out (log s)));
  g_killed : cb = true -> dead s = Some (if has_aborted (log s) then 1 else -1);
  g_list : tcp_clients s =
    filter (fun k => k <> default 0%nat (list_node <$> client s0)) (tcp_clients s0);
  g_num : num_clients s = num_clients s0 - 1;
  g_auth : auth_username s = auth_username s0;
  g_log : log s0 `prefix_of` log s;
}.

Definition fine (cb : bool) (s0 s : st) : Prop :=
  (exists x, mid cb s0 s x /\ shape x (log s)) \/ gone cb s0 s.

(** ** Freeing a TCP client of tun2socks

    The functions that take a client down: with the object in any state they are
    called in, none of their assertions fails, nothing freed is touched, the
    depth of their mutual calls is bounded, and they leave either a freed client
    or one that satisfies its invariant. *)

Open Scope Z_scope.

(** ** Primitive steps *)

Lemma runs_this line s x Q : client s = Some x -> Q x s -> runs (this line) Q s.
Proof. intros H HQ. unfold this. step_eff. step_eff. now rewrite H. Qed.

Lemma runs_set_this line g s x (Q : unit -> st -> Prop) :
  client s = Some x -> Q tt (with_client (fun _ => Some (g x)) s) -> runs (set_this line g) Q s.
Proof. intros H HQ. unfold set_this. step_eff. eapply runs_this; [exact H|exact HQ]. Qed.

Lemma runs_note e s (Q : unit -> st -> Prop) : Q tt (with_log (fun l => l ++ [e]) s) -> runs (note e) Q s.
Proof. done. Qed.

Lemma with_answers_id s : with_answers (fun _ => answers s) s = s.
Proof. now destruct s. Qed.

Lemma runs_answer s (Q : Z -> st -> Prop) :
  (forall r l, Q r (with_answers (fun _ => l) s)) -> runs answer Q s.
Proof.
  intros H. unfold answer. step_eff. step_eff. destruct (answers s) as [|r l] eqn:E; [|apply H].
  specialize (H 0 (answers s)). now rewrite with_answers_id in H.
Qed.

(** ** What the primitive steps keep *)

Section Mid.
Context (cb : bool) (s0 : st).
Implicit Types (s : st) (x : tcp_client).

Lemma mid_set s x g :
  mid cb s0 s x -> core (g x) (log s) -> dead_aborted (g x) = dead_aborted x ->
  aborted (g x) = aborted x -> list_node (g x) = list_node x ->
  mid cb s0 (with_client (fun _ => Some (g x)) s) (g x).
Proof. intros [] Hc H1 H2 H3. split; cbn; rewrite ?H1, ?H2, ?H3; done. Qed.

Lemma mid_note s x e :
  mid cb s0 s x -> core x (log s ++ [e]) -> mid cb s0 (with_log (fun l => l ++ [e]) s) x.
Proof. intros [] Hc. split; cbn; try done. now apply prefix_app_r. Qed.

Lemma mid_answers s x l : mid cb s0 s x -> mid cb s0 (with_answers (fun _ => l) s) x.
Proof. intros []. now split. Qed.

(** A pcb that lwIP has not freed can be used. *)
Lemma mid_on_pcb line g s x (Q : unit -> st -> Prop) :
  mid cb s0 s x -> p_live (pcb x) = true ->
  (forall s', mid cb s0 s' (with_pcb g x) -> log s' = log s -> answers s' = answers s -> Q tt s') ->
  runs (on_pcb line g) Q s.
Proof.
  intros Hm Hl HQ. unfold on_pcb. step_eff. eapply runs_this; [apply Hm|]. step_eff. step_eff; [done|].
  eapply runs_set_this; [apply Hm|]. apply HQ; [|done..].
  apply (mid_set s x (with_pcb g)); try done. destruct (m_core _ _ _ _ Hm). now split.
Qed.

(** Events other than those of the streams. *)
Lemma core_silent x l e :
  match e with Closed | SocksFreed | Deallocated => True | _ => False end ->
  core x l -> core x (l ++ [e]).
Proof.
  intros He []. destruct e; try done; split; try done;
    unfold up_in, up_out, down_in, down_out in *; rewrite ?stream_app, ?confirmed_app, ?has_aborted_app;
    cbn; rewrite ?app_nil_r, ?Z.add_0_r, ?orb_false_r; done.
Qed.

Lemma open_streams_silent x l e :
  match e with Closed | SocksFreed | Deallocated => True | _ => False end ->
  open_streams x l -> open_streams x (l ++ [e]).
Proof.
  intros He []. destruct e; try done; split;
    unfold up_in, up_out, down_in, down_out in *; rewrite ?stream_app, ?confirmed_app;
    cbn; rewrite ?app_nil_r, ?Z.add_0_r; done.
Qed.

Lemma core_abort x l : core x l -> core (with_aborted (fun _ => true) x) (l ++ [Aborted]).
Proof.
  intros []. split; try done;
    unfold up_in, up_out, down_in, down_out in *; rewrite ?stream_app, ?confirmed_app, ?has_aborted_app;
    cbn; rewrite ?app_nil_r, ?Z.add_0_r, ?orb_true_r; done.
Qed.

(** ** Freeing the object *)

Lemma dealloc_ok s x :
  mid cb s0 s x -> client_closed x = true -> socks_closed x = true ->
  runs client_dealloc (fun _ s' => gone cb s0 s') s.
Proof.
  intros Hm Hc Hs. pose proof Hm as [E Hcore Hd Hk Hl Hn Hp Ha Hlog Hnode].
  unfold client_dealloc. step_eff. eapply runs_this; [done|]. step_eff. step_eff; [done|]. step_eff.
  step_eff; [done|]. step_eff. step_eff. step_eff. step_eff; [apply Z.ltb_lt; lia|]. do 4 step_eff.
  assert (runs (whenever (negb (aborted x)) (kill_dead 1882 (-1)))
    (fun _ s' => client s' = client s /\ log s' = log s /\ tcp_clients s' = filter (fun k => k <> list_node x) (tcp_clients s) /\
       num_clients s' = num_clients s - 1 /\ auth_username s' = auth_username s /\
       (cb = true -> dead s' = Some (if aborted x then 1 else -1)))
    (with_tcp_clients (filter (fun k => k <> list_node x)) (with_num_clients (fun n => n - 1) s))) as Hkill.
  { apply eff_whenever; intros Hab.
    - apply negb_true_iff in Hab. unfold kill_dead. step_eff. eapply runs_this; [done|]. apply eff_whenever; intros Hdd.
      + rewrite (Hd Hab) in Hdd. specialize (Hk Hdd). step_eff. step_eff. cbn. rewrite Hk. cbn. rewrite Hab. repeat split.
      + rewrite (Hd Hab) in Hdd. cbn. repeat split. congruence.
    - apply negb_false_iff in Hab. cbn. repeat split. rewrite Hab in *. auto. }
  step_eff. eapply eff_mono; [exact Hkill|]. clear Hkill. intros _ s1 (E1 & E2 & E3 & E4 & E5 & E6).
  step_eff. apply runs_note. step_eff.
  assert (core x (log s ++ [Deallocated])) as [_ _ _ Hup Hcf Hdn Hab] by (now apply core_silent).
  split; cbn; rewrite ?E2, ?E3, ?E4, ?E5; try done.
  - rewrite Hup. now apply prefix_app_r.
  - intros Hcb. rewrite (E6 Hcb). now rewrite Hab.
  - now rewrite Hnode, Hl.
  - lia.
  - now apply prefix_app_r.
Qed.

(** ** The pcb *)

Definition muted (x : tcp_client) : tcp_client :=
  with_pcb (fun p => Pcb (p_live p) false false false (p_sndbuf p) (p_unacked p)) x.
Definition dropped (x : tcp_client) : tcp_client := with_pcb (with_p_live (fun _ => false)) x.

Lemma remove_callbacks_ok line s x :
  mid cb s0 s x -> p_live (pcb x) = true ->
  runs (remove_callbacks line) (fun _ s' => mid cb s0 s' (muted x) /\ log s' = log s) s.
Proof.
  intros Hm Hl. unfold remove_callbacks, tcp_err, tcp_recv, tcp_sent.
  step_eff. eapply mid_on_pcb; [exact Hm|done|]. intros s1 H1 L1 _.
  step_eff. eapply mid_on_pcb; [exact H1|done|]. intros s2 H2 L2 _.
  eapply mid_on_pcb; [exact H2|done|]. intros s3 H3 L3 _.
  split; [exact H3|congruence].
Qed.

Lemma abort_pcb_ok s x :
  mid cb s0 s x -> aborted x = false -> p_live (pcb x) = true -> p_err (pcb x) = false ->
  runs client_abort_pcb
    (fun _ s' => mid cb s0 s' (with_aborted (fun _ => true) (dropped x)) /\ log s' = log s ++ [Aborted]) s.
Proof.
  intros Hm Ha Hl He. pose proof Hm as [E Hcore Hd Hk Hls Hn Hp Hau Hlog Hnode].
  unfold client_abort_pcb, tcp_abort.
  step_eff. eapply runs_this; [done|]. step_eff. step_eff; [now rewrite Ha|]. do 2 step_eff.
  eapply runs_this; [done|]. step_eff. step_eff; [now rewrite He|]. step_eff.
  eapply mid_on_pcb; [exact Hm|done|]. intros s1 H1 L1 _. apply runs_note. step_eff.
  eapply runs_set_this; [apply H1|]. unfold kill_dead. step_eff. eapply runs_this; [done|].
  pose proof H1 as [E1 Hcore1 Hd1 Hk1 Hls1 Hn1 Hp1 Hau1 Hlog1 Hnode1].
  assert (core (with_aborted (fun _ => true) (dropped x)) (log s1 ++ [Aborted])) as Hc'
    by (now apply core_abort).
  cbn in Hd1. specialize (Hd1 Ha).
  apply eff_whenever; intros Hdd; cbn in Hdd; rewrite Hd1 in Hdd; [do 2 step_eff; cbn; rewrite (Hk1 Hdd)|];
    (split; [|cbn; now rewrite L1]); split; cbn; try done; try congruence; now apply prefix_app_r.
Qed.

(** ** The functions that call each other *)

(** The SOCKS side of a client that is closed goes down, and the object with it. *)
Lemma free_socks_closed n s x :
  mid cb s0 s x -> client_closed x = true -> socks_closed x = false ->
  runs (client_free_socks (S n)) (fun _ s' => gone cb s0 s') s.
Proof.
  intros Hm Hc Hs. cbn [client_free_socks]. step_eff. eapply runs_this; [apply Hm|].
  step_eff. step_eff; [now rewrite Hs|]. step_eff. rewrite Hc. rewrite andb_false_r. cbn [negb whenever].
  step_eff. step_eff. unfold BSocksClient_Free. step_eff. eapply runs_set_this; [apply Hm|].
  apply runs_note. step_eff. eapply runs_set_this; [done|]. rewrite andb_false_r.
  pose proof Hm as [E Hcore Hd Hk Hls Hn Hp Hau Hlog Hnode].
  eapply dealloc_ok with (x := with_socks_closed (fun _ => true)
    (with_send_if (fun _ => None) (with_recv_if (fun _ => None) x))); [|done..].
  assert (core x (log s ++ [SocksFreed])) as [] by (now apply core_silent).
  split; cbn; try done. now apply prefix_app_r.
Qed.

(** lwIP has freed the pcb. A closed client stays as long as it has bytes to send. *)
Lemma handle_freed_ok n s x :
  mid cb s0 s x -> client_closed x = false -> p_live (pcb x) = false ->
  (socks_closed x = false -> send_side x /\ recv_side x) ->
  runs (client_handle_freed_client (S (S n))) (fun _ s' => fine cb s0 s') s.
Proof.
  intros Hm Hc Hl Hside. cbn [client_handle_freed_client]. step_eff. eapply runs_this; [apply Hm|].
  step_eff. step_eff; [now rewrite Hc|]. step_eff. eapply runs_set_this; [apply Hm|].
  assert (mid cb s0 (with_client (fun _ => Some (with_client_closed (fun _ => true) x)) s)
            (with_client_closed (fun _ => true) x)) as Hm'.
  { apply mid_set; try done. destruct (m_core _ _ _ _ Hm). now split. }
  destruct (socks_closed x) eqn:Es.
  { rewrite andb_false_r. cbn [negb]. eapply eff_mono; [eapply dealloc_ok; [exact Hm'|done..]|].
    intros [] s' H. now right. }
  rewrite andb_true_r. cbn [negb]. destruct (Z.ltb_spec 0 (buf_used x)) as [Hb|Hb].
  - step_eff. left. exists (with_client_closed (fun _ => true) x). split; [exact Hm'|].
    unfold shape. cbn. destruct (Hside eq_refl). now split.
  - eapply eff_mono; [eapply free_socks_closed; [exact Hm'|done..]|]. intros [] s' H. now right.
Qed.

(** Closing an open client. *)
Lemma free_client_ok n s x :
  mid cb s0 s x -> client_closed x = false -> aborted x = false -> p_live (pcb x) = true ->
  (socks_closed x = false -> send_side x /\ recv_side x) ->
  runs (client_free_client (S (S (S n)))) (fun _ s' => fine cb s0 s') s.
Proof.
  intros Hm Hc Ha Hl Hside. cbn [client_free_client]. step_eff. eapply runs_this; [apply Hm|].
  step_eff. step_eff; [now rewrite Hc|]. step_eff.
  eapply eff_mono; [eapply remove_callbacks_ok; [exact Hm|done]|]. intros _ s1 [H1 L1].
  step_eff. unfold tcp_close. step_eff. eapply mid_on_pcb; [exact H1|done|]. intros s2 H2 L2 _.
  step_eff. apply runs_answer. intros r l. apply mid_answers with (l := l) in H2.
  assert (forall x' s', mid cb s0 s' x' -> client_closed x' = false -> p_live (pcb x') = false ->
    send_if x' = send_if x -> recv_if x' = recv_if x -> socks_closed x' = socks_closed x ->
    socks_up x' = socks_up x -> buf_used x' = buf_used x -> socks_recv_buf_used x' = socks_recv_buf_used x ->
    runs (client_handle_freed_client (S (S n))) (fun _ s' => fine cb s0 s') s') as Hrest.
  { intros x' s' Hm' Hc' Hl' E1 E2 E3 E4 E5 E6. eapply handle_freed_ok; [exact Hm'|done..|].
    unfold send_side, recv_side. now rewrite E1, E2, E3, E4, E5, E6. }
  unfold ERR_OK. destruct (Z.eqb_spec r 0) as [-> |Hr]; cbn [whenever negb].
  - step_eff. step_eff. eapply mid_on_pcb; [exact H2|done|]. intros s3 H3 L3 _. apply runs_note.
    do 2 step_eff. cbn [Z.eqb negb whenever]. step_eff. eapply Hrest;
      [apply mid_note; [exact H3|apply core_silent; [done|apply H3]]|done..].
  - do 3 step_eff. replace (r =? 0) with false by lia. cbn [negb whenever]. step_eff.
    eapply eff_mono; [eapply abort_pcb_ok; [exact H2|done..]|]. intros _ s3 [H3 L3].
    eapply Hrest; [exact H3|done..].
Qed.

Lemma core_control x y l :
  core x l -> buf y = buf x -> buf_used y = buf_used x -> socks_recv_buf y = socks_recv_buf x ->
  aborted y = aborted x -> core y l.
Proof.
  intros [] E1 E2 E3 E4. unfold up_rest in *. split; unfold up_rest; rewrite ?E1, ?E2, ?E3, ?E4; done.
Qed.

(** The client after [BSocksClient_Free]. *)
Definition socks_gone (x : tcp_client) : tcp_client :=
  with_socks_closed (fun _ => true) (with_send_if (fun _ => None) (with_recv_if (fun _ => None) x)).

(** An open client without SOCKS connection stays while lwIP has bytes to deliver. *)
Lemma socks_gone_shape x l :
  open_shape x l -> socks_up x = true ->
  (socks_recv_buf_used x >=? 0) || (socks_recv_tcp_pending x >? 0) = true ->
  open_shape (socks_gone (with_pcb (with_p_recv (fun _ => false)) x)) (l ++ [SocksFreed]).
Proof.
  intros [Hst [Hl Hr Hp] [He Hcr Hcs] Ha Hd Hs] Hup Hw.
  assert (0 < socks_recv_tcp_pending x /\
    (socks_recv_buf_used x = -1 \/ waiting x)) as [Hpend Hcase].
  { unfold down_side in Hd. rewrite Hup in Hd. destruct Hd as [[Hu _]|[Hwait _]].
    - split; [|now left]. apply orb_prop in Hw as [Hw|Hw]; lia.
    - split; [apply Hwait|now right]. }
  split; cbn; try done.
  - apply open_streams_silent; [done|]. now destruct Hst.
  - unfold down_side. cbn. rewrite Hup. destruct Hcase as [?|?]; [now left|now right].
Qed.

Lemma free_socks_ok n s x :
  mid cb s0 s x -> shape x (log s) -> socks_closed x = false ->
  runs (client_free_socks (S (S (S (S n))))) (fun _ s' => fine cb s0 s') s.
Proof.
  intros Hm Hsh Hs. destruct (client_closed x) eqn:Hc.
  { eapply eff_mono; [eapply free_socks_closed; [exact Hm|done..]|]. intros [] s' H. now right. }
  unfold shape in Hsh. rewrite Hc in Hsh. pose proof Hsh as [Hst [Hl _ _] _ Ha _ _].
  assert (forall x' s', mid cb s0 s' x' -> client_closed x' = false -> p_live (pcb x') = true ->
    aborted x' = false -> socks_closed x' = false ->
    (socks_up x && ((socks_recv_buf_used x >=? 0) || (socks_recv_tcp_pending x >? 0)) = true ->
     open_shape (socks_gone x') (log s' ++ [SocksFreed])) ->
    runs (BSocksClient_Free 1822 ;; set_this 1825 (with_socks_closed (fun _ => true)) ;;
      (if socks_up x && ((socks_recv_buf_used x >=? 0) || (socks_recv_tcp_pending x >? 0))
       then mret tt else client_free_client (S (S (S n))))) (fun _ s' => fine cb s0 s') s') as Hrest.
  { intros x' s' Hm' Hc' Hl' Ha' Hs' Hopen. step_eff. unfold BSocksClient_Free. step_eff.
    eapply runs_set_this; [apply Hm'|]. apply runs_note. step_eff. eapply runs_set_this; [done|].
    assert (mid cb s0 (with_client (fun _ => Some (socks_gone x'))
      (with_log (fun l => l ++ [SocksFreed])
         (with_client (fun _ => Some (with_send_if (fun _ => None) (with_recv_if (fun _ => None) x'))) s')))
      (socks_gone x')) as Hm''.
    { destruct Hm'. split; cbn; try done; [|now apply prefix_app_r].
      eapply core_control; [apply core_silent; [done|eassumption]|done..]. }
    destruct (socks_up x && _) eqn:Ew.
    - step_eff. left. exists (socks_gone x'). split; [exact Hm''|]. unfold shape. cbn. rewrite Hc'. now apply Hopen.
    - eapply free_client_ok; [exact Hm''|done..]. }
  cbn [client_free_socks]. step_eff. eapply runs_this; [apply Hm|].
  step_eff. step_eff; [now rewrite Hs|]. rewrite Hc. cbn [negb]. rewrite !andb_true_r. step_eff.
  apply eff_whenever; intros Hup.
  - unfold tcp_recv. eapply mid_on_pcb; [exact Hm|done|]. intros s1 H1 L1 _.
    eapply Hrest; [exact H1|done..|]. rewrite L1, Hup. intros Hw. now apply socks_gone_shape.
  - eapply Hrest; [exact Hm|done..|]. now rewrite Hup.
Qed.

Lemma abort_client_ok s x :
  mid cb s0 s x -> client_closed x = false -> aborted x = false -> p_live (pcb x) = true ->
  (socks_closed x = false -> send_side x /\ recv_side x) ->
  runs client_abort_client (fun _ s' => fine cb s0 s') s.
Proof.
  intros Hm Hc Ha Hl Hside. unfold client_abort_client. step_eff. eapply runs_this; [apply Hm|].
  step_eff. step_eff; [now rewrite Hc|]. step_eff.
  eapply eff_mono; [eapply remove_callbacks_ok; [exact Hm|done]|]. intros _ s1 [H1 L1].
  step_eff. eapply eff_mono; [eapply abort_pcb_ok; [exact H1|done..]|]. intros _ s2 [H2 L2].
  eapply handle_freed_ok; [exact H2|done..].
Qed.

(** [client_murder] frees the client whatever it is doing. *)
Lemma murder_ok s x :
  mid cb s0 s x -> shape x (log s) -> runs client_murder (fun _ s' => gone cb s0 s') s.
Proof.
  intros Hm Hsh. unfold client_murder. step_eff. eapply runs_this; [apply Hm|]. step_eff.
  assert (runs (whenever (negb (client_closed x)) (remove_callbacks 1844 ;; client_abort_pcb ;;
      set_this 1852 (with_client_closed (fun _ => true))))
    (fun _ s' => exists x', mid cb s0 s' x' /\ client_closed x' = true) s) as Hfirst.
  { destruct (client_closed x) eqn:Hc; cbn [negb whenever]; [step_eff; eauto|].
    unfold shape in Hsh. rewrite Hc in Hsh. destruct Hsh as [_ [Hl _ _] _ Ha _ _]. step_eff.
    eapply eff_mono; [eapply remove_callbacks_ok; [exact Hm|done]|]. intros _ s1 [H1 L1]. step_eff.
    eapply eff_mono; [eapply abort_pcb_ok; [exact H1|done..]|]. intros _ s2 [H2 L2].
    eapply runs_set_this; [apply H2|]. eexists.
    split; [eapply (mid_set _ _ (with_client_closed (fun _ => true))); [exact H2| |done..]|done].
    eapply core_control; [apply H2|done..]. }
  eapply eff_mono; [exact Hfirst|]. clear Hfirst. intros _ s1 (x1 & H1 & Hc1).
  step_eff. eapply runs_this; [apply H1|]. step_eff.
  apply eff_whenever; intros Hs; [|eapply dealloc_ok; [exact H1|done|now destruct (socks_closed x1)]].
  unfold BSocksClient_Free. step_eff. step_eff. eapply runs_set_this; [apply H1|]. apply runs_note.
  eapply runs_set_this; [done|]. eapply (dealloc_ok _ (socks_gone x1)); [|done..].
  destruct H1. split; cbn; try done; [|now apply prefix_app_r].
  eapply core_control; [apply core_silent; [done|eassumption]|done..].
Qed.

End Mid.
