(* ===== verification/TunStep.v ===== *)
(** * The callbacks of a TCP client of tun2socks keep its invariant *)

From S2P Require Import Prelude Mem Effect BAddr TunClient TunInv.

Open Scope Z_scope.

Section Steps.
Context (cb : bool) (s0 : st).
Implicit Types (s : st) (x : tcp_client) (l : list event).

(** ** Client to SOCKS *)

(** The object after [n] bytes of its buffer were taken. *)
Definition taken (n : Z) (x : tcp_client) : tcp_client :=
  with_buf (fun m => mem_write m 0 (mem_read m (Z.to_nat n) (Z.to_nat (buf_used x - n))))
    (with_buf_used (fun k => k - n) x).

Lemma taken_core n x l :
  core x l -> 0 < n <= buf_used x ->
  core (taken n x) (l ++ [Sent (mem_read (buf x) 0 (Z.to_nat n))]).
Proof.
  intros [Hb Hu Hr Hup Hc Hd Ha] Hn. unfold TCP_WND, TCP_MSS in *.
  assert (length (mem_read (buf x) (Z.to_nat n) (Z.to_nat (buf_used x - n))) =
    Z.to_nat (buf_used x - n)) as Hlen by (apply mem_read_length; lia).
  split; unfold up_in, up_out, down_in, down_out in *;
    rewrite ?stream_app, ?confirmed_app, ?has_aborted_app; cbn [taken with_buf with_buf_used buf buf_used
      socks_recv_buf aborted].
  - rewrite mem_write_length; [exact Hb|lia].
  - unfold TCP_WND, TCP_MSS. lia.
  - exact Hr.
  - rewrite app_nil_r, Hup, <- app_assoc. f_equal. unfold up_rest, taken. cbn [with_buf with_buf_used buf buf_used].
    rewrite <- Hlen at 2. rewrite mem_read_write by lia.
    replace (Z.to_nat (buf_used x)) with (Z.to_nat n + Z.to_nat (buf_used x - n))%nat by lia.
    now rewrite mem_read_split.
  - rewrite length_app, Z.add_0_r. lia.
  - now rewrite !app_nil_r.
  - now rewrite orb_false_r.
Qed.

Lemma sender_send_ok s x :
  mid cb s0 s x -> send_if x = None -> 0 < buf_used x ->
  runs (Sender_Send (buf_used x))
    (fun _ s' => mid cb s0 s' (with_send_if (fun _ => Some (buf_used x)) x) /\ log s' = log s) s.
Proof.
  intros Hm Hn Hb. unfold Sender_Send. step_eff. step_eff; [apply Z.ltb_lt; lia|]. step_eff.
  eapply runs_this; [apply Hm|]. step_eff. step_eff; [now apply bool_decide_eq_true|].
  eapply runs_set_this; [apply Hm|]. split; [|done].
  apply (mid_set _ _ _ _ (with_send_if (fun _ => Some (buf_used x)))); try done.
  eapply core_control; [apply Hm|done..].
Qed.

(** An event that is not about the bytes from the SOCKS server. *)
Lemma confirm_streams n x y l d :
  core x l -> open_streams x l -> 0 < n <= buf_used x -> d = mem_read (buf x) 0 (Z.to_nat n) ->
  down_rest y = down_rest x ->
  open_streams y ((l ++ [Sent d]) ++ [Confirmed n]).
Proof.
  intros Hcore [Hc Hd] Hn -> E. pose proof (c_used _ _ Hcore). pose proof (c_buf _ _ Hcore) as Hb.
  unfold TCP_WND, TCP_MSS in *.
  split; unfold up_in, up_out, down_in, down_out in *; rewrite ?stream_app, ?confirmed_app; cbn;
    rewrite ?app_nil_r, ?E; [|exact Hd].
  rewrite Hc, length_app, mem_read_length; [|rewrite Hb]; lia.
Qed.

Lemma core_confirm x l n :
  core x l -> confirmed l + n <= Z.of_nat (length (up_out l)) -> core x (l ++ [Confirmed n]).
Proof.
  intros [] Hn. split; try done; unfold up_in, up_out, down_in, down_out in *;
    rewrite ?stream_app, ?confirmed_app, ?has_aborted_app; cbn; rewrite ?app_nil_r, ?orb_false_r; done.
Qed.

(** The rest of [client_socks_send_handler_done] once the sent bytes are gone. *)
Lemma send_rest_ok s x :
  mid cb s0 s x -> socks_closed x = false -> socks_up x = true -> send_if x = None ->
  0 <= buf_used x ->
  (if client_closed x then p_live (pcb x) = false /\ recv_side x
   else open_streams x (log s) /\ open_pcb x /\ open_callbacks x /\ aborted x = false /\ down_side x) ->
  runs (x ← this 2031;
        if 0 <? buf_used x then Sender_Send (buf_used x)
        else if client_closed x then client_free_socks depth else mret tt)
    (fun _ s' => fine cb s0 s') s.
Proof.
  intros Hm Hs Hup Hn Hu Hrest. step_eff. eapply runs_this; [apply Hm|].
  destruct (Z.ltb_spec 0 (buf_used x)) as [Hb|Hb].
  - eapply eff_mono; [eapply sender_send_ok; [exact Hm|done..]|]. intros _ s' [H' L']. left. eexists.
    split; [exact H'|]. unfold shape. cbn. rewrite L'. destruct (client_closed x).
    + destruct Hrest. split; cbn; try done.
    + destruct Hrest as (Ho & Hp & Hc & Ha & Hd).
      split; [now destruct Ho|now destruct Hp|now destruct Hc|done|done|].
      cbn. rewrite Hs. unfold send_side. cbn. split; [done|lia].
  - destruct (client_closed x) eqn:Ec.
    + eapply eff_mono; [eapply free_socks_closed; [exact Hm|done..]|]. intros [] s' H. now right.
    + step_eff. left. exists x. split; [exact Hm|]. unfold shape. rewrite Ec.
      destruct Hrest as (Ho & Hp & Hc & Ha & Hd). split; try done. rewrite Hs.
      unfold send_side. rewrite Hn. right. lia.
Qed.

Lemma send_done_ok s x n :
  mid cb s0 s x -> shape x (log s) -> job_enabled x (SendDone n) = true ->
  runs (run_job (SendDone n)) (fun _ s' => fine cb s0 s') s.
Proof.
  intros Hm Hsh He. cbn in He. apply andb_prop in He as [Hs He]. apply negb_true_iff in Hs.
  destruct (send_if x) as [len|] eqn:Hsend; [|done].
  assert (send_side x) as Hside.
  { unfold shape in Hsh. destruct (client_closed x); [apply Hsh|]. pose proof (os_socks _ _ Hsh) as H.
    now rewrite Hs in H. }
  unfold send_side in Hside. rewrite Hsend in Hside. destruct Hside as [Hup Hlen].
  assert (0 < n <= buf_used x) as Hn by lia. pose proof (m_core _ _ _ _ Hm) as Hcore.
  cbn [run_job]. step_eff. eapply runs_this; [apply Hm|]. step_eff. apply runs_note. step_eff.
  eapply runs_set_this; [apply Hm|]. unfold client_socks_send_handler_done. step_eff.
  eapply runs_this; [done|]. do 5 (step_eff; step_eff; [cbn; rewrite ?Hs; (done || (apply Z.ltb_lt; lia) || (apply Z.leb_le; lia))|]).
  step_eff. eapply runs_set_this; [done|]. cbn [client_closed with_send_if].
  set (x2 := taken n (with_send_if (fun _ => None) x)).
  assert (mid cb s0 (with_client (fun _ => Some x2) (with_client (fun _ => Some (with_send_if (fun _ => None) x))
    (with_log (fun l => l ++ [Sent (mem_read (buf x) 0 (Z.to_nat n))]) s))) x2) as Hm2.
  { destruct Hm. split; cbn [client log dead tcp_clients num_clients auth_username with_client with_log]; try done.
    - apply (taken_core n (with_send_if (fun _ => None) x)); [|done]. eapply core_control; [exact Hcore|done..].
    - now apply prefix_app_r. }
  step_eff. apply eff_whenever; intros Hc.
  - apply negb_true_iff in Hc. unfold shape in Hsh. rewrite Hc in Hsh.
    destruct Hsh as [Ho [Hl Hroom Hp] [E1 E2 E3] Ha Hd _].
    unfold tcp_recved. step_eff. eapply mid_on_pcb; [exact Hm2|done|]. intros s3 H3 L3 _. apply runs_note.
    cbn [log with_client with_log] in L3.
    assert (open_streams (with_pcb id x2) (log s3 ++ [Confirmed n])) as Ho'.
    { rewrite L3. now apply (confirm_streams n x). }
    apply (send_rest_ok _ (with_pcb id x2)); try done.
    + apply mid_note; [exact H3|]. apply core_confirm; [apply H3|].
      destruct Ho' as [Ho' _]. rewrite confirmed_app in Ho'. rewrite Ho'.
      unfold up_out. rewrite stream_app. cbn. now rewrite app_nil_r.
    + cbn. lia.
    + cbn [client_closed with_pcb x2 taken with_buf with_buf_used with_send_if]. rewrite Hc. done.
  - apply negb_false_iff in Hc. unfold shape in Hsh. rewrite Hc in Hsh. destruct Hsh as [Hl _ _ _ Hr].
    eapply send_rest_ok; [exact Hm2|done..|cbn; lia|].
    cbn [client_closed x2 taken with_buf with_buf_used with_send_if]. rewrite Hc. done.
Qed.

(** ** SOCKS to client *)

(** While the bytes in [socks_recv_buf] are handed to lwIP. *)
Record sending (x : tcp_client) (l : list event) : Prop := Sending {
  sd_open : client_closed x = false /\ aborted x = false /\ socks_up x = true /\ recv_if x = None;
  sd_streams : open_streams x l;
  sd_pcb : open_pcb x;
  sd_callbacks : open_callbacks x;
  sd_range : 0 <= socks_recv_buf_sent x <= socks_recv_buf_used x /\
    0 < socks_recv_buf_used x <= CLIENT_SOCKS_RECV_BUF_SIZE;
  sd_pending : 0 <= socks_recv_tcp_pending x /\
    (0 < socks_recv_tcp_pending x \/ socks_recv_buf_sent x < socks_recv_buf_used x);
  sd_socks : if socks_closed x then send_if x = None else send_side x;
}.

Lemma sending_abort s x :
  mid cb s0 s x -> sending x (log s) -> runs client_abort_client (fun _ s' => fine cb s0 s') s.
Proof.
  intros Hm [(Hc & Ha & Hup & Hr) _ [Hl _ _] _ _ _ Hs]. eapply abort_client_ok; [exact Hm|done..|].
  intros E. rewrite E in Hs. split; [done|now left].
Qed.

(** The object after [k] bytes were accepted by [tcp_write]. *)
Definition written (k : Z) (x : tcp_client) : tcp_client :=
  with_socks_recv_buf_sent (fun n => n + k)
    (with_socks_recv_tcp_pending (fun n => n + k)
       (with_pcb (fun p => with_p_sndbuf (fun n => n - k) (with_p_unacked (fun n => n + k) p)) x)).

Definition chunk (k : Z) (x : tcp_client) : list Z :=
  mem_read (socks_recv_buf x) (Z.to_nat (socks_recv_buf_sent x)) (Z.to_nat k).

Lemma written_streams k x l :
  open_streams x l -> socks_up x = true -> 0 < socks_recv_buf_used x ->
  0 < k <= socks_recv_buf_used x - socks_recv_buf_sent x -> 0 <= socks_recv_buf_sent x ->
  open_streams (written k x) (l ++ [Wrote (chunk k x)]).
Proof.
  intros [Hc Hd] Hup Hu Hk Hs. split; unfold up_in, up_out, down_in, down_out in *;
    rewrite ?stream_app, ?confirmed_app; rewrite ?app_nil_r, ?Z.add_0_r; [exact Hc|].
  rewrite Hd, <- app_assoc. f_equal. unfold down_rest, chunk. cbn. rewrite Hup.
  replace (0 <? socks_recv_buf_used x) with true by lia. cbn [andb].
  replace (Z.to_nat (socks_recv_buf_used x - socks_recv_buf_sent x)) with
    (Z.to_nat k + Z.to_nat (socks_recv_buf_used x - (socks_recv_buf_sent x + k)))%nat by lia.
  rewrite mem_read_split. do 3 f_equal. lia.
Qed.

Lemma written_core k x l :
  core x l -> open_streams (written k x) (l ++ [Wrote (chunk k x)]) ->
  core (written k x) (l ++ [Wrote (chunk k x)]).
Proof.
  intros [] [_ Hd']. split; try done; unfold up_in, up_out, down_in, down_out in *;
    rewrite ?stream_app, ?confirmed_app, ?has_aborted_app in *; rewrite ?app_nil_r in *;
    rewrite ?orb_false_r, ?Z.add_0_r; try done.
  exists (down_rest (written k x)). exact Hd'.
Qed.

Lemma written_sending k x l :
  sending x l -> 0 < k <= socks_recv_buf_used x - socks_recv_buf_sent x -> k <= p_sndbuf (pcb x) ->
  sending (written k x) (l ++ [Wrote (chunk k x)]).
Proof.
  intros [(Hc & Ha & Hup & Hr) Hst [Hl Hroom Hp] [E1 E2 E3] Hrange Hpend Hs] Hk Hb. split; cbn; try done.
  - apply written_streams; [done|done|lia..].
  - split; cbn; try done; [lia|]. rewrite Hup in *. lia.
  - lia.
  - lia.
Qed.

(** [tcp_write] takes all it is given or nothing. *)
Lemma tcp_write_ok {A} line k s x (failed : Z -> eff st A) (go_on : eff st A) Q :
  mid cb s0 s x -> sending x (log s) ->
  0 < k <= socks_recv_buf_used x - socks_recv_buf_sent x -> k <= p_sndbuf (pcb x) ->
  (forall err s', mid cb s0 s' (with_pcb id x) -> log s' = log s -> runs (failed err) Q s') ->
  (forall s', mid cb s0 s' (written k x) -> sending (written k x) (log s') -> runs go_on Q s') ->
  runs (err ← tcp_write line (chunk k x);
        if negb (err =? ERR_OK) then failed err
        else set_this 2111 (fun x => with_socks_recv_buf_sent (fun n => n + k)
               (with_socks_recv_tcp_pending (fun n => n + k) x)) ;; go_on) Q s.
Proof.
  intros Hm Hsd Hk Hb Hfail Hgo. pose proof Hsd as [_ Hst [Hl _ _] _ Hrange _ _].
  assert (Z.of_nat (length (chunk k x)) = k) as Hlen.
  { unfold chunk. rewrite mem_read_length; [lia|]. rewrite (c_rbuf _ _ (m_core _ _ _ _ Hm)). lia. }
  unfold tcp_write. step_eff. step_eff. eapply mid_on_pcb; [exact Hm|done|]. intros s1 H1 L1 _.
  step_eff. apply runs_answer. intros r a. apply mid_answers with (l := a) in H1. unfold ERR_OK.
  destruct (Z.eqb_spec r 0) as [-> |Hr]; cbn [whenever].
  - step_eff. step_eff. eapply mid_on_pcb; [exact H1|done|]. intros s2 H2 L2 _. apply runs_note. step_eff.
    cbn [Z.eqb negb]. step_eff. eapply runs_set_this; [apply H2|]. rewrite Hlen in *.
    assert (sending (written k x) (log s2 ++ [Wrote (chunk k x)])) as Hsd'.
    { rewrite L2. cbn [log with_answers]. rewrite L1. now apply written_sending. }
    assert (core (written k x) (log s2 ++ [Wrote (chunk k x)])) as Hcore.
    { apply written_core; [|apply Hsd']. eapply core_control; [apply H2|done..]. }
    apply Hgo; [|exact Hsd']. destruct H2. split; cbn; try done. now apply prefix_app_r.
  - step_eff. step_eff. step_eff. replace (r =? 0) with false by lia. cbn [negb]. now apply Hfail.
Qed.

Lemma write_loop_ok n : forall s x,
  mid cb s0 s x -> sending x (log s) -> socks_recv_buf_sent x < socks_recv_buf_used x ->
  (Z.to_nat (socks_recv_buf_used x - socks_recv_buf_sent x) < n)%nat ->
  runs (write_loop n) (fun b s' =>
    if b then exists x', mid cb s0 s' x' /\ sending x' (log s') /\ socks_closed x' = socks_closed x
    else fine cb s0 s') s.
Proof.
  induction n as [|n IH]; intros s x Hm Hsd Hlt Hn; [lia|]. pose proof Hsd as [_ _ [Hl Hroom _] _ Hrange _ _].
  cbn [write_loop]. step_eff. eapply runs_this; [apply Hm|]. step_eff. unfold tcp_sndbuf. step_eff.
  eapply mid_on_pcb; [exact Hm|done|]. intros s1 H1 L1 _. step_eff. eapply runs_this; [apply H1|]. step_eff.
  cbn [p_sndbuf pcb with_pcb id]. assert (sending (with_pcb id x) (log s1)) as Hsd1.
  { rewrite L1. destruct Hsd as [? [] [] [] ? ? ?]. now split. }
  cbv zeta. destruct (Z.eqb_spec (Z.min (socks_recv_buf_used x - socks_recv_buf_sent x) (p_sndbuf (pcb x))) 0)
    as [E|E]; [step_eff; eauto|].
  apply (tcp_write_ok 2099 _ s1 (with_pcb id x)
    (fun err => if err =? ERR_MEM then mret true else client_abort_client ;; mret false)); try done.
  - cbn. lia.
  - cbn. lia.
  - intros err s2 H2 L2. destruct (err =? ERR_MEM); [step_eff; exists (with_pcb id (with_pcb id x))|].
    + split; [exact H2|]. split; [|done]. rewrite L2. destruct Hsd1 as [? [] [] [] ? ? ?]. now split.
    + step_eff. eapply eff_mono; [eapply sending_abort; [exact H2|]|].
      * rewrite L2. destruct Hsd1 as [? [] [] [] ? ? ?]. now split.
      * intros [] s3 H3. now step_eff.
  - intros s2 H2 Hsd2. step_eff. eapply runs_this; [apply H2|].
    destruct (Z.ltb_spec (socks_recv_buf_sent (written (Z.min (socks_recv_buf_used x - socks_recv_buf_sent x)
      (p_sndbuf (pcb x))) (with_pcb id x))) (socks_recv_buf_used x)) as [Hlt'|Hlt'].
    + replace (_ <? _) with true by (symmetry; apply Z.ltb_lt; exact Hlt').
      refine (IH _ _ H2 Hsd2 Hlt' _). cbn in *. lia.
    + replace (_ <? _) with false by (symmetry; apply Z.ltb_ge; exact Hlt'). step_eff. eauto.
Qed.

(** When [client_socks_recv_send_out] has left the client up. *)
Record sent_out (x : tcp_client) (l : list event) : Prop := SentOut {
  so_open : client_closed x = false /\ aborted x = false /\ socks_up x = true /\ recv_if x = None;
  so_streams : open_streams x l;
  so_pcb : open_pcb x;
  so_callbacks : open_callbacks x;
  so_pending : 0 < socks_recv_tcp_pending x;
  so_buffer : socks_recv_buf_used x = -1 \/ waiting x;
  so_socks : if socks_closed x then send_if x = None else send_side x;
}.

(** All of the buffer was queued. *)
Lemma all_queued x l :
  sending x l -> socks_recv_buf_used x <= socks_recv_buf_sent x ->
  sent_out (with_socks_recv_buf_used (fun _ => -1) x) l.
Proof.
  intros [(Hc & Ha & Hup & Hr) [Hcf Hd] [Hl Hroom Hp] [E1 E2 E3] Hrange Hpend Hs] Hall.
  split; cbn; try done; [|lia|now left]. split; [exact Hcf|]. rewrite Hd. f_equal.
  unfold down_rest. cbn. rewrite Hup. replace (0 <? socks_recv_buf_used x) with true by lia. cbn [andb].
  now replace (Z.to_nat (socks_recv_buf_used x - socks_recv_buf_sent x)) with 0%nat by lia.
Qed.

(** lwIP has no room for the rest. *)
Lemma some_queued x l :
  sending x l -> socks_recv_buf_sent x < socks_recv_buf_used x -> socks_recv_tcp_pending x <> 0 ->
  sent_out (with_socks_recv_waiting (fun _ => true) x) l.
Proof.
  intros [(Hc & Ha & Hup & Hr) [Hcf Hd] [Hl Hroom Hp] [E1 E2 E3] Hrange Hpend Hs] Hlt Hp0.
  split; cbn; try done; [lia|right]. unfold waiting. cbn. lia.
Qed.

Lemma sending_same x l : sending x l -> sending (with_pcb id x) l.
Proof. intros [? [] [] [] ? ? ?]. now split. Qed.

Lemma send_out_ok s x :
  mid cb s0 s x -> sending x (log s) -> socks_recv_buf_sent x < socks_recv_buf_used x ->
  socks_recv_waiting x = false ->
  runs client_socks_recv_send_out (fun r s' =>
    (r = -1 /\ fine cb s0 s') \/
    (r = 0 /\ exists x', mid cb s0 s' x' /\ sent_out x' (log s') /\ socks_closed x' = socks_closed x)) s.
Proof.
  intros Hm Hsd Hlt Hw. pose proof Hsd as [(Hc & Ha & Hup & Hr) _ _ _ Hrange _ _].
  unfold client_socks_recv_send_out. step_eff. eapply runs_this; [apply Hm|].
  do 5 (step_eff; step_eff; [rewrite ?Hc, ?Hw; (done || (apply Z.ltb_lt; lia))|]). step_eff.
  eapply eff_mono; [eapply (write_loop_ok _ s x); [exact Hm|exact Hsd|exact Hlt|unfold loop_bound; lia]|].
  intros [|] s1 H1; cbn [negb]; [destruct H1 as (x1 & H1 & Hsd1 & Hcl1)|step_eff; now left].
  step_eff. unfold tcp_output. step_eff. eapply mid_on_pcb; [exact H1|apply Hsd1|]. intros s2 H2 L2 _.
  apply runs_answer. intros r a. apply mid_answers with (l := a) in H2.
  apply sending_same in Hsd1. rewrite <- L2 in Hsd1.
  change (log s2) with (log (with_answers (fun _ => a) s2)) in Hsd1.
  assert (runs (client_abort_client ;; mret (-1)) (fun r s' => (r = -1 /\ fine cb s0 s') \/
    (r = 0 /\ exists x', mid cb s0 s' x' /\ sent_out x' (log s') /\ socks_closed x' = socks_closed x))
    (with_answers (fun _ => a) s2)) as Habort.
  { step_eff. eapply eff_mono; [eapply sending_abort; [exact H2|exact Hsd1]|]. intros [] s3 H3. step_eff. now left. }
  destruct (negb (r =? ERR_OK)); [exact Habort|]. step_eff. eapply runs_this; [apply H2|].
  destruct (Z.ltb_spec (socks_recv_buf_sent (with_pcb id x1)) (socks_recv_buf_used (with_pcb id x1))) as [H|H].
  - destruct (Z.eqb_spec (socks_recv_tcp_pending (with_pcb id x1)) 0) as [E|E]; [exact Habort|].
    step_eff. eapply runs_set_this; [apply H2|]. step_eff. right. split; [done|]. eexists. split.
    + eapply (mid_set _ _ _ _ (with_socks_recv_waiting (fun _ => true))); [exact H2| |done..].
      eapply core_control; [apply H2|done..].
    + split; [now apply some_queued|exact Hcl1].
  - step_eff. eapply runs_set_this; [apply H2|]. step_eff. right. split; [done|]. eexists. split.
    + eapply (mid_set _ _ _ _ (with_socks_recv_buf_used (fun _ => -1))); [exact H2| |done..].
      eapply core_control; [apply H2|done..].
    + split; [now apply all_queued|exact Hcl1].
Qed.

Lemma recv_initiate_ok s x :
  mid cb s0 s x -> client_closed x = false -> socks_closed x = false -> socks_up x = true ->
  socks_recv_buf_used x = -1 -> recv_if x = None ->
  runs client_socks_recv_initiate (fun _ s' =>
    mid cb s0 s' (with_recv_if (fun _ => Some CLIENT_SOCKS_RECV_BUF_SIZE) x) /\ log s' = log s) s.
Proof.
  intros Hm Hc Hs Hup Hu Hr. unfold client_socks_recv_initiate, Receiver_Recv. step_eff.
  eapply runs_this; [apply Hm|].
  do 4 (step_eff; step_eff; [rewrite ?Hc, ?Hs, ?Hu; done|]). step_eff. step_eff; [done|]. step_eff.
  eapply runs_this; [apply Hm|]. step_eff. step_eff; [now apply bool_decide_eq_true|].
  eapply runs_set_this; [apply Hm|]. split; [|done].
  eapply (mid_set _ _ _ _ (with_recv_if (fun _ => Some CLIENT_SOCKS_RECV_BUF_SIZE))); [exact Hm| |done..].
  eapply core_control; [apply Hm|done..].
Qed.

(** The client after sending out, when nothing more is to be received for now. *)
Lemma sent_out_waiting s x :
  mid cb s0 s x -> sent_out x (log s) -> socks_recv_buf_used x <> -1 \/ socks_closed x = true ->
  fine cb s0 s.
Proof.
  intros Hm [(Hc & Ha & Hup & Hr) Hst Hpc Hcb Hp Hb Hs] Hno. left. exists x. split; [exact Hm|].
  unfold shape. rewrite Hc. split; try done.
  - unfold down_side. rewrite Hup. destruct Hb as [Hb|Hb]; [|now right]. left. split; [done|].
    destruct Hno as [?| -> ]; done.
  - destruct (socks_closed x); done.
Qed.

Lemma sent_out_initiate s x :
  mid cb s0 s x -> sent_out x (log s) -> socks_recv_buf_used x = -1 -> socks_closed x = false ->
  runs client_socks_recv_initiate (fun _ s' => exists x', mid cb s0 s' x' /\ shape x' (log s')) s.
Proof.
  intros Hm [(Hc & Ha & Hup & Hr) [] [] [] Hp _ Hs] Hu Hcl.
  eapply eff_mono; [eapply recv_initiate_ok; done|]. intros _ s' [H' L']. eexists. split; [exact H'|].
  unfold shape. cbn. rewrite Hc, L'. split; try done.
  - unfold down_side. cbn. rewrite Hup, Hcl. now left.
  - cbn. rewrite Hcl in *. exact Hs.
Qed.

End Steps.

(** ** The jobs and callbacks of a TCP client of tun2socks, whole

    Each of them, run from a state of the invariant in which the SOCKS client or
    lwIP may call it, returns, and leaves the invariant or a freed client. *)

Open Scope Z_scope.

(** The two interfaces of an open client with a SOCKS connection. *)
Lemma open_sides x l : open_shape x l -> socks_closed x = false -> send_side x /\ recv_side x.
Proof.
  intros [_ _ _ _ Hd Hs] E. rewrite E in Hs. split; [exact Hs|]. unfold down_side in Hd. unfold recv_side.
  rewrite E in Hd. destruct (socks_up x); [|now left]. destruct Hd as [[? ->]|[? ->]]; [right|left]; done.
Qed.

Section Jobs.
Context (cb : bool) (s0 : st).
Implicit Types (s : st) (x : tcp_client) (l : list event).

(** ** Jobs *)

Definition filled (d : list Z) (x : tcp_client) : tcp_client :=
  with_recv_if (fun _ => None) (with_socks_recv_buf (fun m => mem_write m 0 d) x).

Lemma filled_core d x l :
  core x l -> Z.of_nat (length d) <= CLIENT_SOCKS_RECV_BUF_SIZE -> core (filled d x) (l ++ [Got d]).
Proof.
  intros [Hb Hu Hr Hup Hc Hd Ha] Hlen. unfold CLIENT_SOCKS_RECV_BUF_SIZE in *.
  split; try done; unfold up_in, up_out, down_in, down_out in *;
    rewrite ?stream_app, ?confirmed_app, ?has_aborted_app; rewrite ?app_nil_r, ?orb_false_r, ?Z.add_0_r; try done.
  - cbn. rewrite mem_write_length; [exact Hr|]. rewrite Hr. unfold CLIENT_SOCKS_RECV_BUF_SIZE. lia.
  - now apply prefix_app_r.
Qed.

(** The bytes received become the bytes to hand to lwIP. *)
Definition loaded (d : list Z) (x : tcp_client) : tcp_client :=
  with_socks_recv_buf_used (fun _ => Z.of_nat (length d))
    (with_socks_recv_buf_sent (fun _ => 0) (with_socks_recv_waiting (fun _ => false) (filled d x))).

Lemma loaded_sending d x l :
  core x l -> open_shape x l -> client_closed x = false -> socks_closed x = false ->
  socks_up x = true -> socks_recv_buf_used x = -1 -> 0 < Z.of_nat (length d) <= CLIENT_SOCKS_RECV_BUF_SIZE ->
  sending (loaded d x) (l ++ [Got d]).
Proof.
  intros Hcore [[Hcf Hd] [Hl Hroom Hp] [E1 E2 E3] Ha Hds Hs] Hc Hcl Hup Hu Hlen. unfold CLIENT_SOCKS_RECV_BUF_SIZE in *.
  assert (0 <= socks_recv_tcp_pending x) as Hpend by (rewrite Hup in Hp; lia).
  split; cbn; try done.
  - split; unfold up_in, up_out, down_in, down_out in *; rewrite ?stream_app, ?confirmed_app;
      rewrite ?app_nil_r, ?Z.add_0_r; [exact Hcf|].
    rewrite Hd, <- app_assoc. unfold down_rest at 1. rewrite Hu, andb_false_r. cbn [app]. f_equal.
    unfold down_rest. cbn. rewrite Hup. replace (0 <? Z.of_nat (length d)) with true by lia. cbn [andb].
    rewrite Z.sub_0_r, Nat2Z.id, mem_read_write; [done|].
    rewrite (c_rbuf _ _ Hcore). unfold CLIENT_SOCKS_RECV_BUF_SIZE. lia.
  - unfold CLIENT_SOCKS_RECV_BUF_SIZE. lia.
  - lia.
  - rewrite Hcl in *. exact Hs.
Qed.

Lemma recv_done_ok s x d :
  mid cb s0 s x -> shape x (log s) -> job_enabled x (RecvDone d) = true ->
  runs (run_job (RecvDone d)) (fun _ s' => fine cb s0 s') s.
Proof.
  intros Hm Hsh He. cbn in He. apply andb_prop in He as [Hs He]. apply negb_true_iff in Hs.
  assert (recv_side x) as Hside.
  { unfold shape in Hsh. destruct (client_closed x); [apply Hsh|apply (open_sides _ _ Hsh Hs)]. }
  destruct Hside as [Hside|(Hside & Hup & Hu)]; rewrite Hside in He; [done|].
  apply andb_prop in He as [Hd0 Hd1]. apply Z.ltb_lt in Hd0. apply Z.leb_le in Hd1.
  cbn [run_job]. step_eff. apply runs_note. step_eff. eapply runs_set_this; [apply Hm|].
  assert (mid cb s0 (with_client (fun _ => Some (filled d x)) (with_log (fun l => l ++ [Got d]) s)) (filled d x)) as H1.
  { destruct Hm. split; cbn [client log dead tcp_clients num_clients auth_username with_client with_log]; try done.
    - now apply filled_core.
    - now apply prefix_app_r. }
  unfold client_socks_recv_handler_done. step_eff. eapply runs_this; [apply H1|].
  do 5 (step_eff; step_eff;
    [cbn [socks_closed socks_up socks_recv_buf_used filled with_recv_if with_socks_recv_buf]; rewrite ?Hs, ?Hu;
     (done || (apply Z.ltb_lt; lia) || (apply Z.leb_le; lia))|]).
  change (client_closed (filled d x)) with (client_closed x). unfold shape in Hsh.
  destruct (client_closed x) eqn:Hc.
  { step_eff. left. exists (filled d x). split; [exact H1|]. unfold shape. cbn. rewrite Hc.
    destruct Hsh. split; cbn; try done. now left. }
  step_eff. eapply runs_set_this; [apply H1|].
  assert (mid cb s0 (with_client (fun _ => Some (loaded d x)) (with_client (fun _ => Some (filled d x))
    (with_log (fun l => l ++ [Got d]) s))) (loaded d x)) as H2.
  { apply (mid_set cb s0 _ (filled d x) (fun y => with_socks_recv_buf_used (fun _ => Z.of_nat (length d))
      (with_socks_recv_buf_sent (fun _ => 0) (with_socks_recv_waiting (fun _ => false) y)))); try done.
    eapply core_control; [apply H1|done..]. }
  assert (sending (loaded d x) (log s ++ [Got d])) as H3 by (apply loaded_sending; try done; apply Hm).
  step_eff. eapply eff_mono; [eapply send_out_ok; [exact H2|exact H3|cbn; lia|done]|].
  intros r s3 [[-> Hf]|[-> (x3 & Hm3 & Hso & Hcl3)]]; cbn [Z.ltb Z.compare]; [now step_eff|].
  step_eff. eapply runs_this; [apply Hm3|]. apply eff_whenever; intros Hu3.
  - eapply eff_mono; [eapply sent_out_initiate; [exact Hm3|exact Hso|lia|]|].
    + now rewrite Hcl3.
    + intros [] s4 H4. now left.
  - eapply sent_out_waiting; [exact Hm3|exact Hso|left; lia].
Qed.

(** The SOCKS connection is established. *)
Definition upped (x : tcp_client) : tcp_client :=
  with_socks_up (fun _ => true) (with_socks_recv_buf_used (fun _ => -1)
    (with_socks_recv_tcp_pending (fun _ => 0) x)).

Lemma not_up_sides x l :
  shape x l -> socks_up x = false -> socks_closed x = false -> send_if x = None /\ recv_if x = None.
Proof.
  intros Hsh Hup Hs. unfold shape in Hsh. destruct (client_closed x).
  - destruct Hsh as [_ _ _ H1 H2]. unfold send_side, recv_side in *. rewrite Hup in *.
    destruct (send_if x); [now destruct H1|]. destruct H2 as [?|(? & ? & ?)]; done.
  - destruct Hsh as [_ _ _ _ H1 H2]. rewrite Hs in H2. unfold send_side, down_side in *. rewrite Hup in *.
    destruct (send_if x); [now destruct H2|done].
Qed.

Lemma start_sending s x :
  mid cb s0 s x -> socks_closed x = false -> socks_up x = true -> send_if x = None ->
  runs (whenever (0 <? buf_used x) client_send_to_socks)
    (fun _ s' => mid cb s0 s' (with_send_if (fun _ => if 0 <? buf_used x then Some (buf_used x) else None) x) /\
                 log s' = log s) s.
Proof.
  intros Hm Hs Hup Hn. destruct (Z.ltb_spec 0 (buf_used x)) as [Hb|Hb]; cbn [whenever].
  - unfold client_send_to_socks. step_eff. eapply runs_this; [apply Hm|]. step_eff. step_eff; [now rewrite Hs|].
    step_eff. step_eff; [done|]. step_eff. step_eff; [apply Z.ltb_lt; lia|]. now apply sender_send_ok.
  - step_eff. split; [|done]. replace (with_send_if (fun _ => None) x) with x; [done|].
    destruct x; cbn in Hn |- *. now rewrite Hn.
Qed.

Lemma send_side_start x :
  socks_up x = true -> 0 <= buf_used x ->
  send_side (with_send_if (fun _ => if 0 <? buf_used x then Some (buf_used x) else None) x).
Proof.
  intros Hup Hb. unfold send_side. cbn. destruct (Z.ltb_spec 0 (buf_used x)); [split; [done|lia]|right; lia].
Qed.

Lemma up_ok s x :
  mid cb s0 s x -> shape x (log s) -> socks_closed x = false -> socks_up x = false ->
  runs (client_socks_handler EVENT_UP) (fun _ s' => fine cb s0 s') s.
Proof.
  intros Hm Hsh Hs Hup. destruct (not_up_sides _ _ Hsh Hup Hs) as [Hsend Hrecv].
  pose proof (c_used _ _ (m_core _ _ _ _ Hm)) as Hused.
  unfold client_socks_handler. step_eff. eapply runs_this; [apply Hm|]. step_eff. step_eff; [now rewrite Hs|].
  step_eff. step_eff; [now rewrite Hup|]. step_eff. eapply runs_set_this; [apply Hm|].
  set (x1 := with_socks_recv_buf_used (fun _ => -1) (with_socks_recv_tcp_pending (fun _ => 0) x)).
  assert (mid cb s0 (with_client (fun _ => Some x1) s) x1) as H1.
  { apply (mid_set cb s0 s x (fun x => with_socks_recv_buf_used (fun _ => -1)
      (with_socks_recv_tcp_pending (fun _ => 0) x))); try done. eapply core_control; [apply Hm|done..]. }
  unfold shape in Hsh. step_eff. destruct (client_closed x) eqn:Hc; cbn [negb whenever].
  - step_eff. step_eff. eapply runs_set_this; [apply H1|]. step_eff.
    eapply eff_mono; [eapply (start_sending _ (upped x)); try done|].
    + apply (mid_set cb s0 _ x1 (with_socks_up (fun _ => true))); try done. eapply core_control; [apply H1|done..].
    + intros _ s2 [H2 L2]. step_eff. left. eexists. split; [exact H2|]. unfold shape. cbn. rewrite Hc.
      destruct Hsh as [Hl Hb Hcl _ _]. split; try done; [|now left].
      apply (send_side_start (upped x)); [done|cbn; lia].
  - destruct Hsh as [[Hcf Hd] [Hl Hroom Hp] [E1 E2 E3] Ha _ _]. unfold tcp_sent.
    eapply mid_on_pcb; [exact H1|done|]. intros s2 H2 L2 _. step_eff. eapply runs_set_this; [apply H2|]. step_eff.
    set (x3 := with_socks_up (fun _ => true) (with_pcb (with_p_sent (fun _ => true)) x1)).
    eapply eff_mono; [eapply (start_sending _ x3); try done|].
    + apply (mid_set cb s0 _ (with_pcb (with_p_sent (fun _ => true)) x1) (with_socks_up (fun _ => true))); try done.
      eapply core_control; [apply H2|done..].
    + cbn. intros _ s4 [H4 L4]. cbn in L4. rewrite L2 in L4. cbn in L4.
      eapply eff_mono; [eapply recv_initiate_ok; try exact H4; done|].
      intros _ s5 [H5 L5]. left. eexists. split; [exact H5|]. unfold shape. cbn. rewrite Hc. rewrite L5, L4.
      split; try done.
      * split; [exact Hcf|]. rewrite Hd. unfold down_rest. cbn. now rewrite Hup.
      * rewrite Hup in Hp. split; cbn; try done.
      * unfold down_side. cbn. rewrite Hs. now left.
      * cbn. rewrite Hs. apply (send_side_start x3); [done|cbn; lia].
Qed.

Lemma run_job_ok s x j :
  mid cb s0 s x -> shape x (log s) -> job_enabled x j = true ->
  runs (run_job j) (fun _ s' => fine cb s0 s') s.
Proof.
  intros Hm Hsh He. destruct j as [[]|n|d]; [| | |exact (send_done_ok _ _ _ _ _ Hm Hsh He)|exact (recv_done_ok _ _ _ Hm Hsh He)];
    cbn in He; apply andb_prop in He as [Hs He]; apply negb_true_iff in Hs; cbn [run_job].
  - unfold client_socks_handler. step_eff. eapply runs_this; [apply Hm|]. step_eff.
    step_eff; [now rewrite Hs|]. exact (free_socks_ok _ _ _ _ _ Hm Hsh Hs).
  - apply negb_true_iff in He. exact (up_ok _ _ Hm Hsh Hs He).
  - unfold client_socks_handler. step_eff. eapply runs_this; [apply Hm|]. step_eff.
    step_eff; [now rewrite Hs|]. step_eff. step_eff; [done|]. exact (free_socks_ok _ _ _ _ _ Hm Hsh Hs).
Qed.

Lemma sync_ok js : forall s, fine cb s0 s -> runs (sync js) (fun _ s' => fine cb s0 s') s.
Proof.
  induction js as [|j js IH]; intros s Hf; cbn [sync]; [now step_eff|]. do 2 step_eff.
  destruct Hf as [(x & Hm & Hsh)|Hg].
  - rewrite (m_client _ _ _ _ Hm). step_eff. apply eff_whenever; intros He; [|apply IH; left; eauto].
    eapply eff_mono; [exact (run_job_ok _ _ _ Hm Hsh He)|]. intros [] s1 H1. now apply IH.
  - rewrite (g_client _ _ _ Hg). step_eff. now right.
Qed.

End Jobs.

(** ** Callbacks of lwIP *)

(** lwIP updates the pcb before it calls back. *)
Definition lwip_err : eff st unit :=
  set_this 0 (with_pcb (with_p_live (fun _ => false))) ;; client_err_func.

Definition lwip_sent (len : Z) (js : list job) : eff st Z :=
  set_this 0 (with_pcb (fun p => with_p_sndbuf (fun n => n + len) (with_p_unacked (fun n => n - len) p))) ;;
  client_sent_func len js.

(** Between callbacks. *)
Record resting (s : st) (x : tcp_client) : Prop := Resting {
  r_client : client s = Some x;
  r_core : core x (log s);
  r_shape : shape x (log s);
  r_dead : aborted x = false -> dead_aborted x = false;
  r_num : 0 < num_clients s;
}.

Lemma resting_mid s x : resting s x -> mid false s s x.
Proof. intros []. split; try done. by rewrite r_client0. Qed.

(** What a callback leaves, with its result: [ERR_ABRT] tells lwIP that the pcb
    was aborted, which is so when the callback called [tcp_abort]. *)
Record returned (s0 : st) (r : Z) (s : st) : Prop := Returned {
  ret_fine : fine false s0 s;
  ret_dead : dead s = None;
  ret_abrt : r = ERR_ABRT <-> has_aborted (log s) = true;
  ret_value : r = ERR_OK \/ r = ERR_ABRT;
}.

Section Callbacks.
Context (s0 : st).
Implicit Types (s : st) (x : tcp_client).

Lemma shape_dead b x l : shape x l -> shape (with_dead_aborted (fun _ => b) x) l.
Proof.
  unfold shape. cbn. destruct (client_closed x); [now intros []|]. intros [[] [] [] ? ? ?]. now split.
Qed.

Lemma enter_ok line s x :
  mid false s0 s x -> aborted x = false ->
  runs (dead_enter line) (fun prev s' =>
    prev = false /\ mid true s0 s' (with_dead_aborted (fun _ => true) x) /\ log s' = log s) s.
Proof.
  intros Hm Ha. unfold dead_enter. step_eff. eapply runs_this; [apply Hm|]. step_eff. step_eff. step_eff.
  eapply runs_set_this; [apply Hm|]. step_eff. split; [now apply (m_dead _ _ _ _ Hm)|]. split; [|done].
  destruct Hm. split; cbn; try done; [|now rewrite Ha]. eapply core_control; [eassumption|done..].
Qed.

Lemma leave_ok line s : fine true s0 s -> runs (dead_leave line false ;; dead_result) (returned s0) s.
Proof.
  intros Hf. unfold dead_leave, dead_result, dead_end. do 2 step_eff. step_eff.
  destruct Hf as [(x & Hm & Hsh)|Hg].
  - pose proof (m_killed _ _ _ _ Hm eq_refl) as Hk. pose proof (c_aborted _ _ (m_core _ _ _ _ Hm)) as Hab.
    destruct (aborted x) eqn:Ea; rewrite Hk.
    + rewrite bool_decide_false by done. cbn [whenever]. do 3 step_eff. rewrite Hk. cbn. do 2 step_eff. step_eff.
      split; cbn; [|done|now rewrite <- Hab|now right]. left. exists x. split; [|exact Hsh].
      destruct Hm. split; cbn; try done. congruence.
    + rewrite bool_decide_true by done. cbn [whenever]. eapply runs_set_this; [apply Hm|]. do 2 step_eff. cbn.
      rewrite Hk. cbn. do 2 step_eff. step_eff.
      split; cbn; [|done|now rewrite <- Hab|now left]. left. exists (with_dead_aborted (fun _ => false) x).
      split; [|now apply shape_dead]. destruct Hm. split; cbn; try done. eapply core_control; [eassumption|done..].
  - pose proof (g_killed _ _ _ Hg eq_refl) as Hk. rewrite Hk. rewrite bool_decide_false by (now destruct (has_aborted _)).
    cbn [whenever]. do 3 step_eff. rewrite Hk. do 2 step_eff. step_eff.
    split; cbn; [|done|now destruct (has_aborted (log s))|destruct (has_aborted (log s)); [now right|now left]].
    right. now destruct Hg.
Qed.

(** Bytes from lwIP are appended to the buffer. *)
Definition appended (d : list Z) (x : tcp_client) : tcp_client :=
  with_buf (fun m => mem_write m (Z.to_nat (buf_used x)) d) (with_buf_used (fun n => n + Z.of_nat (length d)) x).

Lemma appended_core d x l :
  core x l -> Z.of_nat (length d) <= TCP_WND - buf_used x -> core (appended d x) (l ++ [Copied d]).
Proof.
  intros [Hb Hu Hr Hup Hc Hd Ha] Hlen. unfold TCP_WND, TCP_MSS in *.
  split; try done; unfold up_in, up_out, down_in, down_out in *;
    rewrite ?stream_app, ?confirmed_app, ?has_aborted_app; rewrite ?app_nil_r, ?orb_false_r, ?Z.add_0_r; try done.
  - cbn. rewrite mem_write_length; [exact Hb|]. rewrite Hb. lia.
  - cbn. unfold TCP_WND, TCP_MSS. lia.
  - rewrite Hup, <- app_assoc. f_equal. unfold up_rest, appended. cbn [buf buf_used with_buf with_buf_used].
    replace (Z.to_nat (buf_used x + Z.of_nat (length d))) with (Z.to_nat (buf_used x) + length d)%nat by lia.
    rewrite mem_read_split. f_equal; [|rewrite Nat.add_0_l, mem_read_write; [done|lia]].
    symmetry. apply mem_read_before; lia.
Qed.

Lemma copied_streams d x y l :
  open_streams x l -> down_rest y = down_rest x -> open_streams y (l ++ [Copied d]).
Proof.
  intros [Hc Hd] E. split; unfold up_in, up_out, down_in, down_out in *; rewrite ?stream_app, ?confirmed_app;
    rewrite ?app_nil_r, ?Z.add_0_r, ?E; done.
Qed.

(** The body of [client_recv_func] once the data has been copied. *)
Lemma recv_body_ok s x js n :
  mid true s0 s x -> client_closed x = false -> socks_closed x = false -> aborted x = false ->
  open_streams x (log s) -> open_pcb x -> open_callbacks x -> down_side x ->
  0 < n <= buf_used x ->
  (buf_used x = n -> send_if x = None) -> (buf_used x <> n -> send_side x) ->
  runs (whenever ((buf_used x =? n) && socks_up x)
          (assert_at 1933 (negb (socks_closed x)) ;; client_send_to_socks ;; sync js))
    (fun _ s' => fine true s0 s') s.
Proof.
  intros Hm Hc Hs Ha Ho Hp Hcb Hd Hn H1 H2. apply eff_whenever; intros E.
  - apply andb_prop in E as [E Hup]. apply Z.eqb_eq in E. step_eff. step_eff; [now rewrite Hs|]. step_eff.
    pose proof (start_sending true s0 s x Hm Hs Hup (H1 E)) as Hstart.
    replace (0 <? buf_used x) with true in Hstart by (symmetry; apply Z.ltb_lt; lia). cbn [whenever] in Hstart.
    eapply eff_mono; [exact Hstart|]. intros _ s1 [Hm1 L1]. apply sync_ok. left. eexists. split; [exact Hm1|].
    unfold shape. cbn. rewrite Hc, L1. split; [now destruct Ho|now destruct Hp|now destruct Hcb|done|done|].
    cbn. rewrite Hs. unfold send_side. cbn. split; [done|lia].
  - left. exists x. split; [exact Hm|]. unfold shape. rewrite Hc. split; try done. rewrite Hs.
    apply andb_false_iff in E as [E|E]; [apply H2; lia|].
    destruct (decide (buf_used x = n)) as [E'|E']; [|now apply H2]. unfold send_side. rewrite (H1 E'). now left.
Qed.

(** A packet that does not fit is refused and nothing changes. *)
Lemma recv_refused s x d js :
  mid false s0 s x -> client_closed x = false -> aborted x = false -> shape x (log s) ->
  d <> [] -> TCP_WND - buf_used x < Z.of_nat (length d) ->
  runs (client_recv_func (Some d) js) (fun r s' =>
    r = ERR_MEM /\ fine false s0 s' /\ dead s' = None /\ log s' = log s /\ client s' = client s) s.
Proof.
  intros Hm Hc Ha Hsh Hd Hbig. pose proof (m_dead _ _ _ _ Hm Ha) as Hda.
  unfold client_recv_func. step_eff. eapply runs_this; [apply Hm|]. step_eff. step_eff; [now rewrite Hc|]. step_eff.
  unfold dead_enter. step_eff. eapply runs_this; [apply Hm|]. step_eff. step_eff. step_eff.
  eapply runs_set_this; [apply Hm|]. step_eff. step_eff. step_eff; [destruct d; [done|apply Z.ltb_lt; cbn; lia]|].
  replace (_ >? _) with true by (symmetry; apply Z.gtb_lt; lia). step_eff.
  unfold dead_leave. do 2 step_eff. cbn [dead with_client with_dead]. rewrite bool_decide_true by done.
  cbn [whenever]. eapply runs_set_this; [done|]. unfold dead_end. do 3 step_eff.
  assert (with_dead_aborted (fun _ => dead_aborted x) (with_dead_aborted (fun _ => true) x) = x) as E
    by (now destruct x). rewrite E. split; [done|]. split; [|cbn; split; [done|split; [done|symmetry; apply Hm]]].
  left. exists x. split; [|exact Hsh]. destruct Hm. now split.
Qed.

End Callbacks.

Lemma err_ok s x :
  resting s x -> client_closed x = false -> runs lwip_err (fun _ s' => fine false s s') s.
Proof.
  intros Hr Hc. pose proof (resting_mid _ _ Hr) as Hm. unfold lwip_err. step_eff.
  eapply runs_set_this; [apply Hm|]. set (x1 := with_pcb (with_p_live (fun _ => false)) x).
  assert (mid false s (with_client (fun _ => Some x1) s) x1) as H1.
  { apply (mid_set false s s x (with_pcb (with_p_live (fun _ => false)))); try done. eapply core_control; [apply Hm|done..]. }
  unfold client_err_func. step_eff. eapply runs_this; [apply H1|]. step_eff. step_eff; [cbn; now rewrite Hc|].
  eapply handle_freed_ok; [exact H1|done..|]. cbn. intros Hs.
  pose proof (r_shape _ _ Hr) as Hsh. unfold shape in Hsh. rewrite Hc in Hsh. exact (open_sides _ _ Hsh Hs).
Qed.

Lemma recv_call_ok s x p js :
  resting s x -> client_closed x = false -> p_recv (pcb x) = true ->
  match p with Some d => d <> [] /\ Z.of_nat (length d) <= TCP_WND - buf_used x | None => True end ->
  runs (client_recv_func p js) (returned s) s.
Proof.
  intros Hr Hc Hp Hd. pose proof (resting_mid _ _ Hr) as Hm. pose proof (r_shape _ _ Hr) as Hsh.
  unfold shape in Hsh. rewrite Hc in Hsh. pose proof Hsh as [Ho Hpc Hcb Ha Hdn Hso].
  assert (socks_closed x = false) as Hs by (rewrite (cb_recv _ Hcb) in Hp; now apply negb_true_iff).
  destruct (open_sides _ _ Hsh Hs) as [Hside Hrside].
  unfold client_recv_func. step_eff. eapply runs_this; [apply Hm|]. step_eff. step_eff; [now rewrite Hc|]. step_eff.
  eapply eff_mono; [eapply enter_ok; [exact Hm|exact Ha]|]. intros prev s1 (-> & H1 & L1). destruct p as [d|].
  - destruct Hd as [Hne Hfit]. step_eff. step_eff; [destruct d; [done|apply Z.ltb_lt; cbn; lia]|].
    replace (_ >? _) with false by (symmetry; rewrite Z.gtb_ltb; apply Z.ltb_ge; lia).
    step_eff. eapply runs_set_this; [apply H1|]. step_eff. apply runs_note. step_eff. eapply runs_this; [done|].
    step_eff. set (x2 := appended d (with_dead_aborted (fun _ => true) x)).
    eapply eff_mono; [eapply (recv_body_ok s _ x2)|intros [] s3 H3; apply leave_ok; exact H3].
    + destruct H1. split; cbn [client log dead tcp_clients num_clients auth_username with_client with_log]; try done.
      * now apply appended_core.
      * now apply prefix_app_r.
    + exact Hc.
    + exact Hs.
    + exact Ha.
    + cbn [log with_client with_log]. rewrite L1. now apply (copied_streams d x).
    + now destruct Hpc.
    + now destruct Hcb.
    + exact Hdn.
    + pose proof (c_used _ _ (m_core _ _ _ _ Hm)). destruct d; [done|]. cbn in *. lia.
    + cbn. intros E. assert (buf_used x = 0) as E0 by lia. unfold send_side in Hside.
      destruct (send_if x); [lia|done].
    + cbn. intros E. unfold send_side in *. cbn. pose proof (c_used _ _ (m_core _ _ _ _ Hm)).
      destruct (send_if x); [split; [apply Hside|lia]|]. left. destruct Hside as [?|?]; [done|lia].
  - step_eff. eapply eff_mono; [eapply free_client_ok; [exact H1|done..| |]|].
    + apply Hpc.
    + done.
    + intros [] s2 H2. apply leave_ok. exact H2.
Qed.

(** ** Acknowledged bytes *)

(** The client after lwIP has reported [len] bytes as sent. *)
Definition acked (len : Z) (x : tcp_client) : tcp_client :=
  with_socks_recv_tcp_pending (fun n => n - len)
    (with_dead_aborted (fun _ => true)
       (with_pcb (fun p => with_p_sndbuf (fun n => n + len) (with_p_unacked (fun n => n - len) p)) x)).

Lemma acked_pcb len x :
  open_pcb x -> socks_up x = true -> 0 < len <= p_unacked (pcb x) -> open_pcb (acked len x).
Proof.
  intros [Hl Hr Hp] Hup Hlen. rewrite Hup in Hp. split; cbn; [done|lia|]. rewrite Hup. lia.
Qed.

(** More of a waiting chunk is handed to lwIP. *)
Lemma more_ok s0 s x js :
  mid true s0 s x -> sending x (log s) -> socks_recv_buf_sent x < socks_recv_buf_used x ->
  socks_recv_waiting x = false ->
  runs (r ← client_socks_recv_send_out;
        if r <? 0 then mret tt
        else
          x ← this 2172;
          assert_at 2172 (0 <? socks_recv_tcp_pending x) ;;
          whenever ((socks_recv_buf_used x =? -1) && negb (socks_closed x))
            (client_socks_recv_initiate ;; sync js)) (fun _ s' => fine true s0 s') s.
Proof.
  intros Hm Hsd Hlt Hw. step_eff. eapply eff_mono; [exact (send_out_ok _ _ _ _ Hm Hsd Hlt Hw)|].
  intros r s1 [[-> Hf]|[-> (x1 & H1 & Hso & _)]]; cbn [Z.ltb Z.compare]; [now step_eff|].
  step_eff. eapply runs_this; [apply H1|]. step_eff. step_eff; [apply Z.ltb_lt; apply (so_pending _ _ Hso)|].
  apply eff_whenever; intros E.
  - apply andb_prop in E as [E1 E2]. apply Z.eqb_eq in E1. apply negb_true_iff in E2. step_eff.
    eapply eff_mono; [exact (sent_out_initiate _ _ _ _ H1 Hso E1 E2)|]. intros [] s2 H2. apply sync_ok. now left.
  - apply andb_false_iff in E. apply (sent_out_waiting _ _ _ _ H1 Hso).
    destruct E as [E|E]; [left; lia|right; now apply negb_false_iff].
Qed.

Lemma sent_ok s x len js :
  resting s x -> client_closed x = false -> p_sent (pcb x) = true -> 0 < len <= p_unacked (pcb x) ->
  runs (lwip_sent len js) (returned s) s.
Proof.
  intros Hr Hc Hp Hlen. pose proof (resting_mid _ _ Hr) as Hm. pose proof (r_shape _ _ Hr) as Hsh.
  unfold shape in Hsh. rewrite Hc in Hsh. pose proof Hsh as [[Hcf Hdr] Hpc [E1 E2 E3] Ha Hdn Hso].
  assert (socks_up x = true) as Hup by congruence. pose proof (p_pending _ Hpc) as Hpe. rewrite Hup in Hpe.
  unfold lwip_sent. step_eff. eapply runs_set_this; [apply Hm|].
  match goal with |- runs _ _ (with_client (fun _ => Some ?y) s) => set (x1 := y) end.
  assert (mid false s (with_client (fun _ => Some x1) s) x1) as H1.
  { eapply (mid_set false s s x); [exact Hm| |done..]. eapply core_control; [apply Hm|done..]. }
  unfold client_sent_func. step_eff. eapply runs_this; [apply H1|].
  do 4 (step_eff; step_eff; [cbn; rewrite ?Hc; (done || (apply Z.ltb_lt; lia) || (apply Z.leb_le; lia))|]).
  step_eff. eapply eff_mono; [eapply enter_ok; [exact H1|exact Ha]|]. intros prev s2 (-> & H2 & L2). cbn in L2.
  step_eff. eapply runs_set_this; [apply H2|].
  assert (mid true s (with_client (fun _ => Some (acked len x)) s2) (acked len x)) as H3.
  { eapply (mid_set true s s2 _ (with_socks_recv_tcp_pending (fun n => n - len))); [exact H2| |done..].
    eapply core_control; [apply H2|done..]. }
  assert (open_pcb (acked len x)) as Hpc3 by (now apply acked_pcb).
  step_eff. eapply runs_this; [apply H3|]. step_eff.
  eapply (eff_mono _ (fun _ s' => fine true s s')); [|intros [] s4 H4; apply leave_ok; exact H4].
  cbn [socks_recv_buf_used acked with_socks_recv_tcp_pending with_dead_aborted with_pcb].
  unfold down_side in Hdn. rewrite Hup in Hdn. destruct Hdn as [[Hu Hri]|[Hw Hri]].
  - rewrite Hu. cbn [Z.ltb Z.compare]. apply eff_whenever; intros E.
    + apply andb_prop in E as [Es Ep]. eapply free_client_ok; [exact H3|done| |apply Hpc3|].
      * exact Ha.
      * intros Hs. cbn in Hs, Es. congruence.
    + left. eexists. split; [exact H3|]. unfold shape. cbn. rewrite Hc, L2.
      split; [now split|exact Hpc3|now split|exact Ha| |].
      * unfold down_side. cbn. rewrite Hup. now left.
      * cbn in E |- *. destruct (socks_closed x) eqn:Es; [|exact Hso]. destruct Hso as (? & ? & ?).
        split; [done|]. split; [done|]. cbn in E. pose proof (p_room _ Hpc3) as Hroom. cbn in Hroom. lia.
  - destruct Hw as (Hrange & Hmax & Hwait & Hpend). replace (0 <? socks_recv_buf_used x) with true by lia.
    step_eff. step_eff; [exact Hwait|]. step_eff. step_eff; [apply Z.ltb_lt; cbn; lia|]. step_eff.
    eapply runs_set_this; [apply H3|]. eapply more_ok with (x := with_socks_recv_waiting (fun _ => false) (acked len x)).
    + eapply (mid_set true s _ _ (with_socks_recv_waiting (fun _ => false))); [exact H3| |done..].
      eapply core_control; [apply H3|done..].
    + cbn [log with_client]. rewrite L2. destruct Hpc3. split; cbn; try done; [lia|lia|].
      destruct (socks_closed x); [apply Hso|exact Hso].
    + cbn. lia.
    + done.
Qed.

(** A job that runs from the event loop. *)
Lemma job_ok s x j :
  resting s x -> job_enabled x j = true -> runs (run_job j) (fun _ s' => fine false s s') s.
Proof. intros Hr He. exact (run_job_ok false s s x j (resting_mid _ _ Hr) (r_shape _ _ Hr) He). Qed.

(** ** Accepting *)

Lemma new_client_resting id local remote :
  core (new_client id local remote) [] /\
  open_shape (with_pcb (with_p_recv (fun _ => true)) (with_pcb (with_p_err (fun _ => true))
    (new_client id local remote))) [].
Proof.
  split; [split; cbn [new_client buf buf_used socks_recv_buf aborted]; try done; try apply repeat_length|].
  split; [split|split|split|done|done|]; try done; cbn. now left.
Qed.

(** [s] has the shared variables and the client to come is not there yet. *)
Lemma accept_ok ws id local remote js s :
  client s = None -> log s = [] -> 0 <= num_clients s -> dead s = None ->
  runs (listener_accept_func ws id local remote js) (fun r s' =>
    (r = ERR_MEM /\ client s' = None /\ log s' = [] /\ dead s' = None /\
       tcp_clients s' = tcp_clients s /\ num_clients s' = num_clients s) \/
    (exists s0, client s0 = Some (new_client id local remote) /\ log s0 = [] /\
       tcp_clients s0 = tcp_clients s ++ [id] /\ num_clients s0 = num_clients s + 1 /\
       auth_username s0 = (if ws then Some id else auth_username s) /\ returned s0 r s')) s.
Proof.
  intros Hc Hl Hn Hd. unfold listener_accept_func. step_eff. apply runs_answer. intros r0 a0.
  destruct (negb (r0 =? 0)); [step_eff; now left|]. step_eff.
  assert (runs (if ws then r ← answer; if negb (r =? 0) then mret false
                else upd_st (with_auth_username (fun _ => Some id)) ;; mret true else mret true)
    (fun b s' => client s' = None /\ log s' = [] /\ dead s' = None /\ tcp_clients s' = tcp_clients s /\
       num_clients s' = num_clients s /\ (b = true -> auth_username s' = (if ws then Some id else auth_username s)))
    (with_answers (fun _ => a0) s)) as Hname.
  { destruct ws; [|now step_eff]. step_eff. apply runs_answer. intros r a.
    destruct (negb (r =? 0)); [now step_eff|]. step_eff. step_eff. now step_eff. }
  eapply eff_mono; [exact Hname|]. clear Hname. intros b s1 (C1 & L1 & D1 & T1 & N1 & A1).
  destruct b; cbn [negb]; [|step_eff; left; done]. step_eff. apply runs_answer. intros r a.
  destruct (negb (r =? 0)); [step_eff; left; done|]. do 4 step_eff. step_eff. step_eff.
  step_eff; step_eff; [apply Z.leb_le; cbn; lia|]. step_eff. step_eff.
  set (s2 := with_num_clients _ _).
  assert (mid false s2 s2 (new_client id local remote)) as H2.
  { split; try done. change (log s2) with (log s1). rewrite L1. apply new_client_resting. cbn. lia. }
  step_eff. eapply mid_on_pcb; [exact H2|done|]. intros s3 H3 L3 _. step_eff.
  eapply mid_on_pcb; [exact H3|done|]. intros s4 H4 L4 _. step_eff.
  eapply eff_mono; [eapply enter_ok; [exact H4|done]|]. intros prev s5 (-> & H5 & L5). step_eff.
  eapply eff_mono; [eapply (sync_ok true s2)|].
  - left. eexists. split; [exact H5|]. apply shape_dead. rewrite L5, L4, L3.
    change (log s2) with (log s1). rewrite L1. apply new_client_resting.
  - intros [] s6 H6. eapply eff_mono; [exact (leave_ok s2 1725 s6 H6)|]. intros r7 s7 H7. right. exists s2.
    split; [done|]. split; [exact L1|]. split; [cbn; now rewrite T1|]. split; [cbn; now rewrite N1|].
    split; [now apply A1|exact H7].
Qed.
