(* ===== verification/TunRun.v ===== *)
(** * The TCP clients of tun2socks together

    All clients and the variables they share. The event loop runs one callback at
    a time: of lwIP for a connection whose callbacks are installed, of the SOCKS
    client for an operation that is under way, or the acceptance of a new
    connection. Which one, with which data and with which results of the calls it
    makes, is arbitrary. *)

From S2P Require Import Prelude Mem Effect BAddr TunClient TunInv TunStep.

Open Scope Z_scope.

(** ** The process *)

Record world := World {
  w_clients : gmap nat tcp_client;
  w_logs : gmap nat (list event);
  w_list : list nat;
  w_num : Z;
  w_next : nat;
  w_auth : option nat;
}.

Definition initial : world := World ∅ ∅ [] 0 0 None.

Definition log_of (c : nat) (w : world) : list event := default [] (w_logs w !! c).

(** A callback works on one client and the shared variables. *)
Definition enter (c : nat) (ans : list Z) (w : world) : st :=
  St (w_clients w !! c) (w_list w) (w_num w) (w_auth w) ans None (log_of c w).

Definition leave (c : nat) (s : st) (w : world) : world :=
  World (partial_alter (fun _ => client s) c (w_clients w)) (<[c := log s]> (w_logs w)) (tcp_clients s)
    (num_clients s) (w_next w) (auth_username s).

Definition run_on {A} (c : nat) (ans : list Z) (m : eff st A) (w : world) : option (A * world) :=
  match m (enter c ans w) with Done r s => Some (r, leave c s w) | Bad _ => None end.

(** ** The event loop *)

Inductive call :=
  | Accept (local remote : BAddr) (js : list job)
  | LwipErr
  | LwipRecv (p : option (list Z)) (js : list job)
  | LwipSent (len : Z) (js : list job)
  | Job (j : job).

(** lwIP calls the callbacks that are installed on a live pcb; it reports data
    that is there, and not more bytes as sent than were written. *)
Definition call_enabled (w : world) (c : nat) (k : call) : bool :=
  match k with
  | Accept _ _ _ => bool_decide (c = w_next w)
  | _ =>
      match w_clients w !! c with
      | None => false
      | Some x =>
          match k with
          | Accept _ _ _ => false
          | LwipErr => p_live (pcb x) && p_err (pcb x)
          | LwipRecv p _ => p_live (pcb x) && p_recv (pcb x) && bool_decide (p <> Some [])
          | LwipSent len _ => p_live (pcb x) && p_sent (pcb x) && (0 <? len) && (len <=? p_unacked (pcb x))
          | Job j => job_enabled x j
          end
      end
  end.

(** The return value of the callback; 0 for those that return nothing. *)
Definition call_body (ws : bool) (c : nat) (k : call) : eff st Z :=
  match k with
  | Accept local remote js => listener_accept_func ws c local remote js
  | LwipErr => lwip_err ;; mret 0
  | LwipRecv p js => client_recv_func p js
  | LwipSent len js => lwip_sent len js
  | Job j => run_job j ;; mret 0
  end.

Definition bump (k : call) (w : world) : world :=
  match k with
  | Accept _ _ _ =>
      World (w_clients w) (w_logs w) (w_list w) (w_num w) (S (w_next w)) (w_auth w)
  | _ => w
  end.

Definition perform (ws : bool) (c : nat) (k : call) (ans : list Z) (w : world) : option (Z * world) :=
  run_on c ans (call_body ws c k) (bump k w).

Inductive reachable (ws : bool) : world -> Prop :=
  | reach_init : reachable ws initial
  | reach_step w c k ans r w' :
      reachable ws w -> call_enabled w c k = true -> perform ws c k ans w = Some (r, w') -> reachable ws w'.

(** ** The invariant *)

Record client_inv (w : world) (c : nat) (x : tcp_client) : Prop := ClientInv {
  ci_core : core x (log_of c w);
  ci_shape : shape x (log_of c w);
  ci_dead : aborted x = false -> dead_aborted x = false;
  ci_node : list_node x = c;
}.

(** What remains true of a client that was freed. *)
Definition log_inv (l : list event) : Prop :=
  up_out l `prefix_of` up_in l /\ down_out l `prefix_of` down_in l /\
  confirmed l <= Z.of_nat (length (up_out l)).

Record world_inv (w : world) : Prop := WorldInv {
  wi_clients : forall c x, w_clients w !! c = Some x -> client_inv w c x;
  wi_list : forall c, c ∈ w_list w <-> is_Some (w_clients w !! c);
  wi_nodup : NoDup (w_list w);
  wi_num : w_num w = Z.of_nat (length (w_list w));
  wi_next : forall c, is_Some (w_logs w !! c) \/ is_Some (w_clients w !! c) -> (c < w_next w)%nat;
  wi_logs : forall c, log_inv (log_of c w);
}.

Lemma core_log x l : core x l -> log_inv l.
Proof. intros []. split; [|done]. rewrite c_up. now apply prefix_app_r. Qed.

Lemma enter_resting w c x ans :
  world_inv w -> w_clients w !! c = Some x -> resting (enter c ans w) x.
Proof.
  intros Hw Hx. destruct (wi_clients _ Hw _ _ Hx) as [Hc Hs Hd Hn]. split; cbn; try done.
  rewrite (wi_num _ Hw). assert (c ∈ w_list w) as Hin by (apply (wi_list _ Hw); eauto).
  destruct (w_list w); [now apply not_elem_of_nil in Hin|cbn; lia].
Qed.

Lemma log_of_leave c s w c' : log_of c' (leave c s w) = if decide (c' = c) then log s else log_of c' w.
Proof.
  unfold log_of, leave. cbn. destruct (decide (c' = c)) as [-> |Hne]; [now rewrite lookup_insert_eq|].
  now rewrite lookup_insert_ne.
Qed.

Lemma clients_leave c s w c' :
  w_clients (leave c s w) !! c' = if decide (c' = c) then client s else w_clients w !! c'.
Proof.
  unfold leave. cbn. destruct (decide (c' = c)) as [-> |Hne]; [now rewrite lookup_partial_alter_eq|].
  now rewrite lookup_partial_alter_ne.
Qed.

(** The clients a callback is not about. *)
Lemma client_inv_leave c s w c' x :
  c' <> c -> client_inv w c' x -> client_inv (leave c s w) c' x.
Proof. intros Hne []. split; try done; rewrite log_of_leave, decide_False by done; done. Qed.

Lemma fine_inv w w0 c x0 s :
  world_inv w -> client w0 = Some x0 -> list_node x0 = c -> (c < w_next w)%nat ->
  tcp_clients w0 = (if decide (c ∈ w_list w) then w_list w else w_list w ++ [c]) ->
  num_clients w0 = Z.of_nat (length (tcp_clients w0)) ->
  fine false w0 s -> world_inv (leave c s w).
Proof.
  intros Hw Hx0 Hnode Hnext Hlist Hnum Hf.
  assert (NoDup (tcp_clients w0)) as Hnd.
  { rewrite Hlist. destruct (decide _) as [|Hin]; [apply Hw|]. apply NoDup_app. split; [apply Hw|].
    split; [|apply NoDup_singleton]. intros y Hy Hy'. apply list_elem_of_singleton in Hy'. congruence. }
  assert (forall c', c' ∈ tcp_clients w0 <-> c' = c \/ is_Some (w_clients w !! c')) as Hmem.
  { intros c'. rewrite Hlist. rewrite <- (wi_list _ Hw). destruct (decide _) as [Hin|Hin].
    - split; [now right|]. intros [-> |?]; done.
    - rewrite elem_of_app, list_elem_of_singleton. tauto. }
  assert (log_inv (log s)) as Hlog.
  { destruct Hf as [(x & Hm & _)|Hg]; [apply (core_log x), Hm|]. destruct Hg. done. }
  split.
  - intros c' x Hx. rewrite clients_leave in Hx. destruct (decide (c' = c)) as [-> |Hne].
    + destruct Hf as [(y & Hm & Hsh)|Hg]; [|rewrite (g_client _ _ _ Hg) in Hx; done].
      rewrite (m_client _ _ _ _ Hm) in Hx. injection Hx as <-.
      split; rewrite ?log_of_leave, ?decide_True by done; try done; [apply Hm|apply Hm|].
      rewrite (m_node _ _ _ _ Hm), Hx0. done.
    + apply client_inv_leave; [done|]. now apply Hw.
  - intros c'. rewrite clients_leave. cbn [w_list leave].
    destruct Hf as [(y & Hm & Hsh)|Hg].
    + rewrite (m_list _ _ _ _ Hm), Hmem. destruct (decide (c' = c)) as [-> |Hne].
      * rewrite (m_client _ _ _ _ Hm). split; [eauto|now left].
      * split; [intros [?|?]; done|now right].
    + rewrite (g_list _ _ _ Hg), Hx0. cbn. rewrite Hnode, list_elem_of_filter, Hmem.
      destruct (decide (c' = c)) as [-> |Hne].
      * rewrite (g_client _ _ _ Hg). split; [intros [? _]; done|intros [? ?]; done].
      * split; [intros [_ [?|?]]; done|intros ?; split; [done|now right]].
  - cbn [w_list leave]. destruct Hf as [(y & Hm & Hsh)|Hg]; [now rewrite (m_list _ _ _ _ Hm)|].
    rewrite (g_list _ _ _ Hg). now apply NoDup_filter.
  - cbn [w_list w_num leave]. destruct Hf as [(y & Hm & Hsh)|Hg].
    + now rewrite (m_list _ _ _ _ Hm), (m_num _ _ _ _ Hm).
    + rewrite (g_list _ _ _ Hg), (g_num _ _ _ Hg), Hx0, Hnum. cbn. rewrite Hnode.
      assert (c ∈ tcp_clients w0) as Hin by (apply Hmem; now left).
      pose proof (filter_remove_length c _ Hnd Hin). lia.
  - intros c'. rewrite clients_leave. cbn [w_logs w_next leave]. destruct (decide (c' = c)) as [-> |Hne]; [done|].
    rewrite lookup_insert_ne by done. apply Hw.
  - intros c'. rewrite log_of_leave. destruct (decide (c' = c)); [done|apply Hw].
Qed.

(** ** One callback *)

(** The result of a callback lwIP waits for: [ERR_ABRT] exactly when the pcb was
    aborted, [ERR_MEM] when the data was refused, and then nothing has changed. *)
Definition result_ok (k : call) (c : nat) (r : Z) (w w' : world) : Prop :=
  match k with
  | LwipErr | Job _ => True
  | LwipSent _ _ => r = if has_aborted (log_of c w') then ERR_ABRT else ERR_OK
  | LwipRecv _ _ | Accept _ _ _ =>
      (r = ERR_MEM /\ w_clients w' !! c = w_clients w !! c /\ log_of c w' = log_of c w) \/
      r = if has_aborted (log_of c w') then ERR_ABRT else ERR_OK
  end.

Lemma returned_result s0 r s :
  returned s0 r s -> r = if has_aborted (log s) then ERR_ABRT else ERR_OK.
Proof.
  intros [_ _ Ha Hv]. destruct (has_aborted (log s)); [now apply Ha|]. destruct Hv as [?|Hv]; [done|].
  now apply Ha in Hv.
Qed.

(** A callback on a client that is there. *)
Lemma existing_inv w c x ans s :
  world_inv w -> w_clients w !! c = Some x -> fine false (enter c ans w) s -> world_inv (leave c s w).
Proof.
  intros Hw Hx Hf. assert (c ∈ w_list w) as Hin by (apply (wi_list _ Hw); eauto).
  apply (fine_inv w (enter c ans w) c x); try done.
  - now apply (wi_clients _ Hw).
  - apply (wi_next _ Hw). right. eauto.
  - cbn. now rewrite decide_True.
  - cbn. apply Hw.
Qed.

Lemma bump_inv k w : world_inv w -> world_inv (bump k w).
Proof.
  destruct k; try done. intros []. split; try done.
  - intros c x Hx. destruct (wi_clients0 c x Hx). now split.
  - intros c H. specialize (wi_next0 c H). cbn. lia.
Qed.

Lemma run_on_runs {A} c ans (m : eff st A) w Q :
  runs m Q (enter c ans w) -> exists r s, run_on c ans m w = Some (r, leave c s w) /\ Q r s.
Proof.
  intros H. apply eff_done in H as (r & s & E & HQ). exists r, s. split; [|done]. unfold run_on. now rewrite E.
Qed.

Lemma accept_inv ws w c local remote js ans :
  world_inv w -> c = w_next w ->
  exists r w', perform ws c (Accept local remote js) ans w = Some (r, w') /\ world_inv w' /\
    result_ok (Accept local remote js) c r w w'.
Proof.
  intros Hw ->. set (c := w_next w). set (w1 := bump (Accept local remote js) w).
  assert (w_logs w !! c = None /\ w_clients w !! c = None) as [Hlog Hcl].
  { split; apply eq_None_not_Some; intros H;
      [pose proof (wi_next _ Hw c (or_introl H))|pose proof (wi_next _ Hw c (or_intror H))]; unfold c in *; lia. }
  assert (log_of c w = []) as Hl0 by (unfold log_of; now rewrite Hlog).
  assert (world_inv w1) as Hw1 by (now apply bump_inv).
  destruct (run_on_runs c ans (call_body ws c (Accept local remote js)) w1 _
    (accept_ok ws c local remote js (enter c ans w1) Hcl Hl0 ltac:(cbn; rewrite (wi_num _ Hw); lia) eq_refl))
    as (r & s & E & [(-> & Hc & Hl & Hd & Ht & Hn)|(s0 & Hc & Hl & Ht & Hn & Ha & Hret)]).
  - exists ERR_MEM, (leave c s w1). split; [exact E|]. split.
    + split.
      * intros c' x Hx. rewrite clients_leave in Hx. destruct (decide (c' = c)) as [-> |Hne]; [congruence|].
        apply client_inv_leave; [done|]. now apply Hw1.
      * intros c'. rewrite clients_leave. cbn [w_list leave]. rewrite Ht. cbn [tcp_clients enter].
        destruct (decide (c' = c)) as [-> |Hne]; [|apply Hw1]. rewrite (wi_list _ Hw1). cbn.
        rewrite Hcl, Hc. done.
      * cbn. rewrite Ht. apply Hw.
      * cbn. rewrite Ht, Hn. apply Hw.
      * intros c'. rewrite clients_leave. cbn [w_logs w_next leave w1 bump].
        destruct (decide (c' = c)) as [-> |Hne]; [unfold c; lia|]. rewrite lookup_insert_ne by done.
        intros H. specialize (wi_next _ Hw c' H). lia.
      * intros c'. rewrite log_of_leave. destruct (decide (c' = c)); [rewrite Hl; done|apply Hw1].
    + left. split; [done|]. rewrite clients_leave, log_of_leave, !decide_True by done. now rewrite Hc, Hcl, Hl, Hl0.
  - exists r, (leave c s w1). split; [exact E|]. split.
    + apply (fine_inv w1 s0 c (new_client c local remote)); try done.
      * cbn. unfold c. lia.
      * rewrite decide_False; [exact Ht|]. cbn. rewrite (wi_list _ Hw), Hcl. now intros [].
      * rewrite Hn, Ht, length_app. cbn. rewrite (wi_num _ Hw). lia.
      * apply Hret.
    + right. rewrite log_of_leave, decide_True by done. now apply (returned_result s0).
Qed.

Lemma open_of_live w c x : client_inv w c x -> p_live (pcb x) = true -> client_closed x = false.
Proof.
  intros [_ Hsh _ _] Hl. unfold shape in Hsh. destruct (client_closed x); [|done].
  rewrite (cs_pcb _ Hsh) in Hl. done.
Qed.

Lemma perform_ok ws w c k ans :
  world_inv w -> call_enabled w c k = true ->
  exists r w', perform ws c k ans w = Some (r, w') /\ world_inv w' /\ result_ok k c r w w'.
Proof.
  intros Hw He. destruct k as [local remote js| |p js|len js|j]; unfold call_enabled in He.
  { apply accept_inv; [done|]. now apply bool_decide_eq_true in He. }
  all: destruct (w_clients w !! c) as [x|] eqn:Hx; [|done].
  all: pose proof (enter_resting w c x ans Hw Hx) as Hr; pose proof (wi_clients _ Hw _ _ Hx) as Hci.
  - apply andb_prop in He as [Hl He].
    destruct (run_on_runs c ans (call_body ws c LwipErr) w (fun _ s => fine false (enter c ans w) s))
      as (r & s & E & Hf).
    { cbn. step_eff. eapply eff_mono; [apply (err_ok _ x Hr), (open_of_live _ _ _ Hci Hl)|]. intros [] s H. now step_eff. }
    exists r, (leave c s w). split; [exact E|]. split; [|done]. exact (existing_inv _ _ _ _ _ Hw Hx Hf).
  - apply andb_prop in He as [He Hp]. apply andb_prop in He as [Hl He]. apply bool_decide_eq_true in Hp.
    pose proof (open_of_live _ _ _ Hci Hl) as Hc.
    assert (match p with Some d => Z.of_nat (length d) <= TCP_WND - buf_used x | None => True end \/
            match p with Some d => TCP_WND - buf_used x < Z.of_nat (length d) | None => False end) as [Hfit|Hbig]
      by (destruct p; [lia|now left]).
    + destruct (run_on_runs c ans (call_body ws c (LwipRecv p js)) w (returned (enter c ans w))) as (r & s & E & Hret).
      { apply (recv_call_ok _ x); try done. destruct p as [d|]; [|done]. split; [congruence|done]. }
      exists r, (leave c s w). split; [exact E|]. split; [exact (existing_inv _ _ _ _ _ Hw Hx (ret_fine _ _ _ Hret))|].
      right. rewrite log_of_leave, decide_True by done. now apply (returned_result (enter c ans w)).
    + destruct p as [d|]; [|done]. pose proof (resting_mid _ _ Hr) as Hm. pose proof (ci_shape _ _ _ Hci) as Hsh.
      assert (aborted x = false) as Ha by (unfold shape in Hsh; rewrite Hc in Hsh; apply Hsh).
      destruct (run_on_runs c ans (call_body ws c (LwipRecv (Some d) js)) w _
        (recv_refused (enter c ans w) _ x d js Hm Hc Ha Hsh ltac:(congruence) Hbig))
        as (r & s & E & -> & Hf & _ & Hlog & Hcl).
      exists ERR_MEM, (leave c s w). split; [exact E|]. split; [exact (existing_inv _ _ _ _ _ Hw Hx Hf)|].
      left. split; [done|]. rewrite clients_leave, log_of_leave, !decide_True by done. now rewrite Hcl, Hlog.
  - repeat (apply andb_prop in He as [He ?]).
    pose proof (open_of_live _ _ _ Hci He) as Hc.
    destruct (run_on_runs c ans (call_body ws c (LwipSent len js)) w (returned (enter c ans w))) as (r & s & E & Hret).
    { apply (sent_ok _ x); try done. split; [now apply Z.ltb_lt|now apply Z.leb_le]. }
    exists r, (leave c s w). split; [exact E|]. split; [exact (existing_inv _ _ _ _ _ Hw Hx (ret_fine _ _ _ Hret))|].
    cbn. rewrite log_of_leave, decide_True by done. now apply (returned_result (enter c ans w)).
  - destruct (run_on_runs c ans (call_body ws c (Job j)) w (fun _ s => fine false (enter c ans w) s))
      as (r & s & E & Hf).
    { cbn. step_eff. eapply eff_mono; [exact (job_ok _ x j Hr He)|]. intros [] s H. now step_eff. }
    exists r, (leave c s w). split; [exact E|]. split; [|done]. exact (existing_inv _ _ _ _ _ Hw Hx Hf).
Qed.

Lemma initial_inv : world_inv initial.
Proof.
  split; try done.
  - intros c. cbn. rewrite lookup_empty. split; [now intros ?%elem_of_nil|now intros []].
  - apply NoDup_nil_2.
  - intros c. cbn. rewrite !lookup_empty. now intros [[]|[]].
Qed.

Lemma reachable_inv ws w : reachable ws w -> world_inv w.
Proof.
  induction 1 as [|w c k ans r w' _ IH He Hp]; [apply initial_inv|].
  destruct (perform_ok ws w c k ans IH He) as (r1 & w1 & E & Hw & _). congruence.
Qed.

(** A sequence of callbacks, each of which is possible when its turn comes. *)
Fixpoint run_calls (ws : bool) (ks : list (nat * call * list Z)) (w : world) : option world :=
  match ks with
  | [] => Some w
  | (c, k, ans) :: ks =>
      if call_enabled w c k then '(_, w) ← perform ws c k ans w; run_calls ws ks w else None
  end.

Lemma run_calls_reachable ws ks : forall w w',
  reachable ws w -> run_calls ws ks w = Some w' -> reachable ws w'.
Proof.
  induction ks as [|[[c k] ans] ks IH]; intros w w' Hw E; cbn in E; [congruence|].
  destruct (call_enabled w c k) eqn:He; [|done].
  destruct (perform ws c k ans w) as [[r w1]|] eqn:Ep; [|done]. cbn in E.
  eapply IH; [|exact E]. eapply reach_step; eauto.
Qed.

(** ** Shutting down: the loop of [main] over the clients *)

Fixpoint free_clients (n : nat) (w : world) : option world :=
  match w_list w with
  | [] => Some w
  | c :: _ =>
      match n with
      | O => None
      | S n => '(_, w) ← run_on c [] client_murder w; free_clients n w
      end
  end.

Lemma murder_world w c l :
  world_inv w -> w_list w = c :: l ->
  exists w', run_on c [] client_murder w = Some (tt, w') /\ world_inv w' /\ w_list w' = l.
Proof.
  intros Hw Hl. destruct (proj1 (wi_list _ Hw c)) as [x Hx]; [rewrite Hl; apply elem_of_cons; now left|].
  pose proof (enter_resting w c x [] Hw Hx) as Hr.
  destruct (run_on_runs c [] client_murder w _ (murder_ok false _ _ x (resting_mid _ _ Hr) (r_shape _ _ Hr)))
    as ([] & s & E & Hg).
  exists (leave c s w). split; [exact E|]. split; [exact (existing_inv _ _ _ _ _ Hw Hx (or_intror Hg))|].
  cbn [w_list leave]. rewrite (g_list _ _ _ Hg).
  assert (default 0%nat (list_node <$> client (enter c [] w)) = c) as ->
    by (cbn; rewrite Hx; apply (wi_clients _ Hw _ _ Hx)).
  change (tcp_clients (enter c [] w)) with (w_list w). rewrite Hl, filter_cons, decide_False by auto. apply filter_absent.
  pose proof (wi_nodup _ Hw) as Hnd. rewrite Hl in Hnd. now inversion Hnd.
Qed.

Lemma free_clients_ok n w :
  world_inv w -> (length (w_list w) <= n)%nat ->
  exists w', free_clients n w = Some w' /\ world_inv w' /\ w_list w' = [].
Proof.
  revert w. induction n as [|n IH]; intros w Hw Hn; destruct (w_list w) as [|c l] eqn:Hl; cbn [free_clients];
    rewrite Hl; [eauto|cbn in Hn; lia|eauto|].
  destruct (murder_world w c l Hw Hl) as (w1 & E & Hw1 & Hl1). rewrite E. cbn [mbind option_bind].
  apply IH; [done|]. rewrite Hl1. cbn in Hn. lia.
Qed.
