(* ===== verification/TunFacts.v ===== *)
(** * Theorems about the TCP clients of tun2socks *)

From S2P Require Import Prelude Mem Effect BAddr TunClient TunInv TunStep TunRun.

Open Scope Z_scope.

(** ** Draining a closed client *)

Section Drain.
Context (s0 : st).

(** The SOCKS connection takes [n] more bytes of a client that is closed. *)
Lemma closed_send_done s x n :
  mid false s0 s x -> closed_shape x -> client_closed x = true ->
  job_enabled x (SendDone n) = true ->
  runs (run_job (SendDone n)) (fun _ s' =>
    let d := mem_read (buf x) 0 (Z.to_nat n) in
    if n =? buf_used x then client s' = None /\ log s' = log s ++ [Sent d; SocksFreed; Deallocated]
    else exists x', client s' = Some x' /\ client_closed x' = true /\ socks_up x' = true /\
           buf_used x' = buf_used x - n /\ log s' = log s ++ [Sent d]) s.
Proof.
  intros Hm [_ _ Hs Hside _] Hc He. unfold job_enabled in He. rewrite Hs in He. cbn [negb andb] in He.
  destruct (send_if x) as [len|] eqn:Hsend; [|done]. unfold send_side in Hside. rewrite Hsend in Hside.
  destruct Hside as [Hup Hlen]. assert (0 < n <= buf_used x) as Hn by lia.
  cbn [run_job]. step_eff. eapply runs_this; [apply Hm|]. step_eff. apply runs_note. step_eff.
  eapply runs_set_this; [apply Hm|]. unfold client_socks_send_handler_done. step_eff.
  eapply runs_this; [done|].
  do 5 (step_eff; step_eff; [cbn; rewrite ?Hs; (done || (apply Z.ltb_lt; lia) || (apply Z.leb_le; lia))|]).
  step_eff. eapply runs_set_this; [done|]. cbn [client_closed with_send_if]. rewrite Hc. cbn [negb whenever].
  step_eff. step_eff. step_eff. eapply runs_this; [done|]. cbn [buf_used with_buf with_buf_used with_send_if].
  destruct (Z.eqb_spec n (buf_used x)) as [E|E].
  - replace (0 <? buf_used x - n) with false by (symmetry; apply Z.ltb_ge; lia).
    cbn [client_closed with_buf with_buf_used with_send_if]. rewrite Hc. unfold depth.
    cbn [client_free_socks]. step_eff. eapply runs_this; [done|].
    step_eff. step_eff; [cbn; now rewrite Hs|]. cbn [client_closed with_buf with_buf_used with_send_if]. rewrite Hc.
    step_eff. rewrite andb_false_r. cbn [negb whenever]. step_eff. step_eff. unfold BSocksClient_Free. step_eff.
    eapply runs_set_this; [done|]. apply runs_note. step_eff. eapply runs_set_this; [done|]. rewrite andb_false_r.
    match goal with |- runs client_dealloc _ ?t => set (s1 := t) end.
    assert (runs client_dealloc (fun _ s' => client s' = None /\ log s' = log s1 ++ [Deallocated]) s1) as Hd.
    { unfold client_dealloc. step_eff. eapply runs_this; [done|]. step_eff. step_eff; [done|]. step_eff.
      step_eff; [done|]. do 2 step_eff. step_eff. step_eff; [apply Z.ltb_lt; cbn; destruct Hm; lia|].
      do 4 step_eff. step_eff. apply eff_whenever.
      - intros Ha. apply negb_true_iff in Ha. unfold kill_dead. step_eff. eapply runs_this; [done|].
        cbn in Ha |- *. rewrite (m_dead _ _ _ _ Hm Ha). cbn. done.
      - intros _. done. }
    eapply eff_mono; [exact Hd|]. intros [] s2 [H1 H2]. split; [done|]. rewrite H2. cbn. now rewrite <- !app_assoc.
  - replace (0 <? buf_used x - n) with true by (symmetry; apply Z.ltb_lt; lia).
    unfold Sender_Send. step_eff. step_eff; [apply Z.ltb_lt; lia|]. step_eff. eapply runs_this; [done|]. step_eff.
    step_eff; [now apply bool_decide_eq_true|]. eapply runs_set_this; [done|]. eexists. split; [reflexivity|]. done.
Qed.

End Drain.

(** The SOCKS connection takes chunk after chunk. *)
Fixpoint drain (ws : bool) (c : nat) (ns : list Z) (w : world) : option world :=
  match ns with
  | [] => Some w
  | n :: ns =>
      if call_enabled w c (Job (SendDone n)) then
        '(_, w) ← perform ws c (Job (SendDone n)) [] w; drain ws c ns w
      else None
  end.

Definition sum_list (ns : list Z) : Z := foldr Z.add 0 ns.

Lemma stream_sent l d :
  up_in (l ++ [Sent d]) = up_in l /\ up_out (l ++ [Sent d]) = up_out l ++ d.
Proof. unfold up_in, up_out. rewrite !stream_app. now rewrite app_nil_r. Qed.

Lemma stream_freed l :
  up_in (l ++ [SocksFreed; Deallocated]) = up_in l /\ up_out (l ++ [SocksFreed; Deallocated]) = up_out l.
Proof. unfold up_in, up_out, stream. rewrite !flat_map_app. cbn. now rewrite !app_nil_r. Qed.

Lemma drain_ok ws c ns : forall w w' x,
  world_inv w -> w_clients w !! c = Some x -> client_closed x = true -> socks_up x = true ->
  drain ws c ns w = Some w' -> sum_list ns = buf_used x ->
  w_clients w' !! c = None /\ up_out (log_of c w') = up_in (log_of c w') /\
  up_in (log_of c w') = up_in (log_of c w).
Proof.
  induction ns as [|n ns IH]; intros w w' x Hw Hx Hc Hup Hd Hsum.
  { pose proof (ci_shape _ _ _ (wi_clients _ Hw _ _ Hx)) as Hsh. unfold shape in Hsh. rewrite Hc in Hsh.
    pose proof (cs_buf _ Hsh). cbn in Hsum. lia. }
  cbn [drain] in Hd. destruct (call_enabled w c (Job (SendDone n))) eqn:He; [|done].
  destruct (perform_ok ws w c _ [] Hw He) as (r & w1 & E & Hw1 & _). rewrite E in Hd. cbn in Hd.
  pose proof (wi_clients _ Hw _ _ Hx) as [Hcore Hsh _ _]. unfold shape in Hsh. rewrite Hc in Hsh.
  unfold call_enabled in He. rewrite Hx in He.
  assert (0 < n <= buf_used x) as Hn.
  { cbn in He. apply andb_prop in He as [_ He]. pose proof (cs_send _ Hsh) as Hs. unfold send_side in Hs.
    destruct (send_if x); [lia|done]. }
  pose proof (closed_send_done (enter c [] w) _ x n (resting_mid _ _ (enter_resting w c x [] Hw Hx)) Hsh Hc He) as Hrun.
  apply eff_done in Hrun as (u & s & Es & HQ).
  assert (perform ws c (Job (SendDone n)) [] w = Some (0, leave c s w)) as E'
    by (unfold perform, run_on; cbn [call_body bump]; unfold mbind, eff_mbind; now rewrite Es).
  rewrite E' in E. injection E as <- <-. clear E'.
  set (d := mem_read (buf x) 0 (Z.to_nat n)) in *. change (log (enter c [] w)) with (log_of c w) in HQ.
  assert (log_of c (leave c s w) = log s /\ w_clients (leave c s w) !! c = client s) as [El Ec]
    by (rewrite log_of_leave, clients_leave, !decide_True by done; done).
  destruct (Z.eqb_spec n (buf_used x)) as [En|En].
  - destruct HQ as [Hnone Hlog]. destruct ns as [|n' ns].
    + injection Hd as <-. rewrite Ec, El, Hlog. split; [done|]. rewrite (app_assoc _ [Sent d] [SocksFreed; Deallocated]).
      destruct (stream_freed (log_of c w ++ [Sent d])) as [-> ->]. destruct (stream_sent (log_of c w) d) as [-> ->].
      split; [|done]. rewrite (c_up _ _ Hcore). unfold up_rest. now rewrite <- En.
    + cbn [drain] in Hd. unfold call_enabled in Hd. now rewrite Ec, Hnone in Hd.
  - destruct HQ as (x' & Hx' & Hc' & Hup' & Hb' & Hlog). rewrite Hx' in Ec.
    cbn in Hsum. destruct (IH _ w' x' Hw1 Ec Hc' Hup' Hd ltac:(unfold sum_list; lia)) as (H1 & H2 & H3).
    split; [done|]. split; [done|]. rewrite H3, El, Hlog. apply stream_sent.
Qed.

(** ** Claims *)

(** C4. In every state the process can reach, every callback lwIP or a SOCKS
    client can make returns, whatever the calls it makes return and whatever the
    SOCKS client does while the callback synchronises with it: none of the
    assertions of the source fails and nothing that was freed is used. Afterwards
    [num_clients] is the length of the list of clients, the list has no
    duplicates, and it names exactly the clients that are not freed. A callback
    returns [ERR_ABRT] exactly when the pcb was aborted, and [ERR_MEM] only when
    it took nothing. *)
Theorem tun_callbacks_safe ws w c k ans :
  reachable ws w -> call_enabled w c k = true ->
  exists r w', perform ws c k ans w = Some (r, w') /\
    w_num w' = Z.of_nat (length (w_list w')) /\ NoDup (w_list w') /\
    (forall c', c' ∈ w_list w' <-> is_Some (w_clients w' !! c')) /\ result_ok k c r w w'.
Proof.
  intros Hreach He. destruct (perform_ok ws w c k ans (reachable_inv _ _ Hreach) He) as (r & w' & E & Hw & Hr).
  exists r, w'. destruct Hw. auto 10.
Qed.

(** C5. The bytes of each connection keep their order and none is lost or
    repeated: what the SOCKS connection was given is a prefix of what the
    application sent, and what lwIP was given is a prefix of what the SOCKS server
    sent. While the client is there the missing part of the first is what is in
    its buffer, which never overflows; while it is open the missing part of the
    second is the unwritten part of [socks_recv_buf], and lwIP has been told of
    exactly the bytes that were passed on. *)
Theorem tun_streams_in_order ws w c :
  reachable ws w ->
  let l := log_of c w in
  up_out l `prefix_of` up_in l /\ down_out l `prefix_of` down_in l /\
  confirmed l <= Z.of_nat (length (up_out l)) /\
  match w_clients w !! c with
  | None => True
  | Some x =>
      up_in l = up_out l ++ up_rest x /\ 0 <= buf_used x <= TCP_WND /\
      (client_closed x = false ->
       down_in l = down_out l ++ down_rest x /\ confirmed l = Z.of_nat (length (up_out l)))
  end.
Proof.
  intros Hreach l. pose proof (reachable_inv _ _ Hreach) as Hw. destruct (wi_logs _ Hw c) as (H1 & H2 & H3).
  split; [done|]. split; [done|]. split; [done|]. destruct (w_clients w !! c) as [x|] eqn:Hx; [|done].
  destruct (wi_clients _ Hw _ _ Hx) as [Hcore Hsh _ _]. split; [apply Hcore|]. split; [apply Hcore|].
  intros Hc. unfold shape in Hsh. rewrite Hc in Hsh. destruct (os_streams _ _ Hsh). done.
Qed.

(** C29. What an application sent before it closed its connection is delivered:
    a client that is closed while bytes are buffered always has a send operation
    under way, and when the SOCKS connection has taken the buffered bytes, in
    whatever portions, the client is freed and everything the application sent
    has been passed on. *)
Theorem closed_client_drains ws w c x :
  reachable ws w -> w_clients w !! c = Some x -> client_closed x = true -> socks_up x = true ->
  call_enabled w c (Job (SendDone 1)) = true /\
  (forall ns w', drain ws c ns w = Some w' -> sum_list ns = buf_used x ->
     w_clients w' !! c = None /\ up_out (log_of c w') = up_in (log_of c w') /\
     up_in (log_of c w') = up_in (log_of c w)).
Proof.
  intros Hreach Hx Hc Hup. pose proof (reachable_inv _ _ Hreach) as Hw. split; [|intros; eapply drain_ok; eauto].
  pose proof (ci_shape _ _ _ (wi_clients _ Hw _ _ Hx)) as Hsh. unfold shape in Hsh. rewrite Hc in Hsh.
  destruct Hsh as [_ Hb Hs Hside _]. unfold call_enabled, job_enabled. rewrite Hx, Hs. cbn [negb andb].
  unfold send_side in Hside. destruct (send_if x) as [len|]; [|destruct Hside; [congruence|lia]].
  apply andb_true_intro. split; [done|]. apply Z.leb_le. lia.
Qed.

(** At shutdown the loop over the clients ends and frees every one of them,
    whatever they are doing. *)
Lemma tun_shutdown_frees_all ws w :
  reachable ws w ->
  exists w', free_clients (length (w_list w)) w = Some w' /\ w_list w' = [] /\ w_num w' = 0 /\ w_clients w' = ∅.
Proof.
  intros Hreach. destruct (free_clients_ok _ w (reachable_inv _ _ Hreach) (le_n _)) as (w' & E & Hw & Hl).
  exists w'. split; [done|]. split; [done|]. split; [now rewrite (wi_num _ Hw), Hl|].
  apply map_empty. intros c. apply eq_None_not_Some. rewrite <- (wi_list _ Hw), Hl. apply not_elem_of_nil.
Qed.

(** ** Concrete runs *)

Definition here : BAddr := BADDR_IPV4 [10; 0; 0; 1] [0; 80].
Definition there : BAddr := BADDR_IPV4 [10; 0; 0; 2] [4; 210].

(** A client is accepted, its application sends five bytes and closes, and then
    the SOCKS connection comes up. *)
Definition closing_run : list (nat * call * list Z) :=
  [(0%nat, Accept here there [], []);
   (0%nat, LwipRecv (Some [1; 2; 3; 4; 5]) [], []);
   (0%nat, LwipRecv None [], []);
   (0%nat, Job (SocksEvent EVENT_UP), [])].

(** The SOCKS connection is up at once and delivers three bytes; then the
    application sends two, of which one is passed on before the callback returns. *)
Definition relaying_run : list (nat * call * list Z) :=
  [(0%nat, Accept here there [SocksEvent EVENT_UP; RecvDone [7; 8; 9]], []);
   (0%nat, LwipRecv (Some [1; 2]) [SendDone 1], [])].

Lemma tun_callbacks_safe_witness :
  match run_calls false relaying_run initial with
  | Some w => exists r w', perform false 0 (LwipRecv (Some [3]) []) [] w = Some (r, w') /\
                           w_num w' = Z.of_nat (length (w_list w'))
  | None => False
  end.
Proof.
  destruct (run_calls false relaying_run initial) as [w|] eqn:E; [|vm_compute in E; discriminate].
  destruct (tun_callbacks_safe false w 0 (LwipRecv (Some [3]) []) []) as (r & w' & Ep & Hn & _).
  - exact (run_calls_reachable _ _ _ _ (reach_init false) E).
  - assert (match run_calls false relaying_run initial with
            | Some w => call_enabled w 0 (LwipRecv (Some [3]) []) | None => false end = true) as H
      by (vm_compute; reflexivity).
    now rewrite E in H.
  - exists r, w'. split; assumption.
Defined.

Lemma tun_streams_in_order_witness :
  match run_calls false relaying_run initial with
  | Some w => up_out (log_of 0 w) `prefix_of` up_in (log_of 0 w) /\ up_in (log_of 0 w) = [1; 2]
  | None => False
  end.
Proof.
  destruct (run_calls false relaying_run initial) as [w|] eqn:E; [|vm_compute in E; discriminate].
  split; [exact (proj1 (tun_streams_in_order false w 0 (run_calls_reachable _ _ _ _ (reach_init false) E)))|].
  assert (match run_calls false relaying_run initial with
          | Some w => up_in (log_of 0 w) = [1; 2] | None => False end) as H by (vm_compute; reflexivity).
  now rewrite E in H.
Defined.

Lemma closed_client_drains_witness :
  match run_calls false closing_run initial ≫= drain false 0 [2; 3] with
  | Some w => w_clients w !! 0%nat = None /\ up_out (log_of 0 w) = [1; 2; 3; 4; 5]
  | None => False
  end.
Proof.
  destruct (run_calls false closing_run initial) as [w|] eqn:E; [|vm_compute in E; discriminate].
  cbn [mbind option_bind].
  assert (match run_calls false closing_run initial with
          | Some w => match w_clients w !! 0%nat with
                      | Some x => client_closed x = true /\ socks_up x = true /\ buf_used x = 5
                      | None => False end /\ up_in (log_of 0 w) = [1; 2; 3; 4; 5] /\ is_Some (drain false 0 [2; 3] w)
          | None => False end) as H by (vm_compute; eauto 10).
  rewrite E in H. destruct (w_clients w !! 0%nat) as [x|] eqn:Hx; [|now destruct H].
  destruct H as ((Hc & Hup & Hb) & Hin & [w' Hw']). rewrite Hw'.
  destruct (closed_client_drains false w 0 x (run_calls_reachable _ _ _ _ (reach_init false) E) Hx Hc Hup)
    as [_ Hdrain].
  destruct (Hdrain [2; 3] w' Hw' (eq_sym Hb)) as (H1 & H2 & H3). split; [exact H1|]. now rewrite H2, H3.
Defined.

Lemma tun_shutdown_frees_all_witness :
  match run_calls false closing_run initial with
  | Some w => length (w_list w) = 1%nat /\ exists w', free_clients 1 w = Some w' /\ w_num w' = 0
  | None => False
  end.
Proof.
  destruct (run_calls false closing_run initial) as [w|] eqn:E; [|vm_compute in E; discriminate].
  assert (match run_calls false closing_run initial with
          | Some w => length (w_list w) = 1%nat | None => False end) as Hlen by (vm_compute; reflexivity).
  rewrite E in Hlen. split; [exact Hlen|].
  destruct (tun_shutdown_frees_all false w (run_calls_reachable _ _ _ _ (reach_init false) E)) as (w' & H1 & _ & H2 & _).
  rewrite Hlen in H1. exists w'. split; assumption.
Defined.

(** With --append-source-to-username all SOCKS clients read their user name
    through the one shared [socks_auth_info], which the next accepted connection
    overwrites and which is left pointing to the name of a client that is freed:
    there is a run in which the first client is still waiting for its SOCKS
    connection while the shared entry points to the freed name of the second. *)
Lemma username_dangles :
  exists w x, reachable true w /\ w_clients w !! 0%nat = Some x /\ socks_up x = false /\ socks_closed x = false /\
    w_auth w = Some 1%nat /\ w_clients w !! 1%nat = None.
Proof.
  set (ks := [(0%nat, Accept here there [], []); (1%nat, Accept here there [], []);
              (1%nat, LwipErr, [])] : list (nat * call * list Z)).
  destruct (run_calls true ks initial) as [w|] eqn:E; [|vm_compute in E; discriminate].
  assert (match run_calls true ks initial with
          | Some w => match w_clients w !! 0%nat with
                      | Some x => socks_up x = false /\ socks_closed x = false
                      | None => False end /\ w_auth w = Some 1%nat /\ w_clients w !! 1%nat = None
          | None => False end) as H by (vm_compute; auto).
  rewrite E in H. destruct (w_clients w !! 0%nat) as [x|] eqn:Hx; [|now destruct H].
  exists w, x. destruct H as ((H1 & H2) & H3 & H4).
  split; [exact (run_calls_reachable _ _ _ _ (reach_init true) E)|]. auto.
Qed.
