(* ===== verification/UdpPacket.v ===== *)
(** * UDP packets ([ipv4_proto.h], [ipv6_proto.h], [udp_proto.h], [tun2socks.c])

    tun2socks takes the UDP packets off the TUN device itself and builds the
    packets of the answers. A packet is a list of bytes; the fields of the header
    structures that are wider than a byte are kept as they are in memory, in
    network byte order, so that [hton16] is [be16] and [ntoh16] is [of_be]. Every
    read of the packet goes through [rd], which is [None] outside of it. *)

From S2P Require Import Prelude Mem BAddr.

Open Scope Z_scope.

Definition UINT16_MAX : Z := 65535.
Definition IPV4_PROTOCOL_UDP : Z := 17.
Definition IPV6_NEXT_UDP : Z := 17.

(** ** Headers *)

Record ipv4_header := Ipv4 {
  version4_ihl4 : Z;
  ds : Z;
  total_length : list Z;
  identification : list Z;
  flags3_fragmentoffset13 : list Z;
  ttl : Z;
  protocol : Z;
  ip_checksum : list Z;
  source_address : list Z;
  destination_address : list Z;
}.

Record ipv6_header := Ipv6 {
  version4_tc4 : Z;
  tc4_fl4 : Z;
  fl : list Z;
  payload_length : list Z;
  next_header : Z;
  hop_limit : Z;
  source_address6 : list Z;
  destination_address6 : list Z;
}.

Record udp_header := Udp {
  source_port : list Z;
  dest_port : list Z;
  udp_length : list Z;
  udp_sum : list Z;
}.

(** The structures in memory. *)
Definition ipv4_bytes (h : ipv4_header) : list Z :=
  [version4_ihl4 h; ds h] ++ total_length h ++ identification h ++ flags3_fragmentoffset13 h ++
  [ttl h; protocol h] ++ ip_checksum h ++ source_address h ++ destination_address h.
Definition ipv6_bytes (h : ipv6_header) : list Z :=
  [version4_tc4 h; tc4_fl4 h] ++ fl h ++ payload_length h ++ [next_header h; hop_limit h] ++
  source_address6 h ++ destination_address6 h.
Definition udp_bytes (h : udp_header) : list Z :=
  source_port h ++ dest_port h ++ udp_length h ++ udp_sum h.

Definition ipv4_of_bytes (d : list Z) : ipv4_header :=
  Ipv4 (nth 0 d 0) (nth 1 d 0) (mem_read d 2 2) (mem_read d 4 2) (mem_read d 6 2) (nth 8 d 0) (nth 9 d 0)
    (mem_read d 10 2) (mem_read d 12 4) (mem_read d 16 4).
Definition ipv6_of_bytes (d : list Z) : ipv6_header :=
  Ipv6 (nth 0 d 0) (nth 1 d 0) (mem_read d 2 2) (mem_read d 4 2) (nth 6 d 0) (nth 7 d 0)
    (mem_read d 8 16) (mem_read d 24 16).
Definition udp_of_bytes (d : list Z) : udp_header :=
  Udp (mem_read d 0 2) (mem_read d 2 2) (mem_read d 4 2) (mem_read d 6 2).

Definition sizeof_ipv4 : Z := 20.
Definition sizeof_ipv6 : Z := 40.
Definition sizeof_udp : Z := 8.

Definition with_ip_checksum (c : list Z) (h : ipv4_header) : ipv4_header :=
  Ipv4 (version4_ihl4 h) (ds h) (total_length h) (identification h) (flags3_fragmentoffset13 h) (ttl h)
    (protocol h) c (source_address h) (destination_address h).
Definition with_udp_sum (c : list Z) (h : udp_header) : udp_header :=
  Udp (source_port h) (dest_port h) (udp_length h) c.

(** ** Checksums *)

(** Adding up 16-bit words in a [uint32_t]. *)
Fixpoint add_words (t : Z) (l : list Z) : Z :=
  match l with
  | a :: b :: l => add_words (u32 (t + of_be [a; b])) l
  | _ => t
  end.

(** [while (t >> 16) t = (t & 0xFFFF) + (t >> 16);] *)
Fixpoint carry_loop (n : nat) (t : Z) : Z :=
  match n with
  | O => t
  | S n =>
      if Z.shiftr t 16 =? 0 then t
      else carry_loop n (u32 (Z.land t 0xFFFF + Z.shiftr t 16))
  end.

(** Enough for any value of [t]; see [carry_loop_done]. *)
Definition carry_bound : nat := 4.

Definition ipv4_checksum (h : ipv4_header) (extra : list Z) : list Z :=
  be16 (u16 (Z.lnot (carry_loop carry_bound (add_words (add_words 0 (ipv4_bytes h)) extra)))).

(** The end of the two UDP checksums; [t] stays a [uint32_t]. *)
Definition udp_finish (t : Z) : list Z :=
  let t := u32 (Z.lnot (carry_loop carry_bound t)) in
  let t := if t =? 0 then UINT16_MAX else t in
  be16 (u16 t).

Definition add_payload (t : Z) (payload : list Z) : Z :=
  let len := Z.of_nat (length payload) in
  if len mod 2 =? 0 then u32 (t + add_words 0 payload)
  else
    let t := u32 (t + add_words 0 (take (length payload - 1) payload)) in
    u32 (t + add_words 0 (be16 (u16 (Z.shiftl (List.last payload 0) 8)))).

Definition udp_checksum (h : udp_header) (payload source dest : list Z) : list Z :=
  let t := u32 (0 + add_words 0 source) in
  let t := u32 (t + add_words 0 dest) in
  let t := u32 (t + add_words 0 (be16 IPV4_PROTOCOL_UDP)) in
  let t := u32 (t + add_words 0 (be16 (u16 (sizeof_udp + Z.of_nat (length payload))))) in
  let t := u32 (t + add_words 0 (udp_bytes h)) in
  udp_finish (add_payload t payload).

Definition udp_ip6_checksum (h : udp_header) (payload source dest : list Z) : list Z :=
  let t := u32 (0 + add_words 0 source) in
  let t := u32 (t + add_words 0 dest) in
  let t := u32 (t + add_words 0 (be32 (sizeof_udp + Z.of_nat (length payload)))) in
  let t := u32 (t + add_words 0 (be32 IPV6_NEXT_UDP)) in
  let t := u32 (t + add_words 0 (udp_bytes h)) in
  udp_finish (add_payload t payload).

(** ** Parsing *)

(** [n] bytes at [off]; [None] outside of the packet. *)
Definition rd (data : list Z) (off n : Z) : option (list Z) :=
  if (0 <=? off) && (0 <=? n) && (off + n <=? Z.of_nat (length data))
  then Some (mem_read data (Z.to_nat off) (Z.to_nat n)) else None.

Definition rd1 (data : list Z) (off : Z) : option Z := (fun l => nth 0 l 0) <$> rd data off 1.

Definition IPV4_GET_VERSION (h : ipv4_header) : Z := Z.shiftr (Z.land (version4_ihl4 h) 0xF0) 4.
Definition IPV4_GET_IHL (h : ipv4_header) : Z := Z.land (version4_ihl4 h) 0x0F.
Definition IPV4_MAKE_VERSION_IHL (size : Z) : Z := size / 4 + Z.shiftl 4 4.

(** The outer [option] is a read outside of the packet, the inner one the answer:
    the header, and the offset and length of the payload. *)
Definition ipv4_check (data : list Z) : option (option (ipv4_header * Z * Z)) :=
  let data_len := Z.of_nat (length data) in
  if data_len <? sizeof_ipv4 then Some None
  else
    hdr ← rd data 0 sizeof_ipv4;
    let h := ipv4_of_bytes hdr in
    if negb (IPV4_GET_VERSION h =? 4) then Some None
    else
      let header_len := u16 (IPV4_GET_IHL h * 4) in
      if header_len <? sizeof_ipv4 then Some None
      else if header_len >? data_len then Some None
      else
        let total := of_be (total_length h) in
        if total <? header_len then Some None
        else if total >? data_len then Some None
        else
          extra ← rd data sizeof_ipv4 (header_len - sizeof_ipv4);
          let computed := ipv4_checksum (with_ip_checksum (be16 0) h) extra in
          if negb (bool_decide (ip_checksum h = computed)) then Some None
          else Some (Some (h, header_len, total - header_len)).

Definition ipv6_check (data : list Z) : option (option (ipv6_header * Z * Z)) :=
  let data_len := Z.of_nat (length data) in
  if data_len <? sizeof_ipv6 then Some None
  else
    hdr ← rd data 0 sizeof_ipv6;
    let h := ipv6_of_bytes hdr in
    if negb (Z.shiftr (version4_tc4 h) 4 =? 6) then Some None
    else
      let len := of_be (payload_length h) in
      if len >? data_len - sizeof_ipv6 then Some None
      else Some (Some (h, sizeof_ipv6, len)).

Definition udp_check (data : list Z) : option (option (udp_header * list Z)) :=
  let data_len := Z.of_nat (length data) in
  if data_len <? sizeof_udp then Some None
  else
    hdr ← rd data 0 sizeof_udp;
    let h := udp_of_bytes hdr in
    let data_len := data_len - sizeof_udp in
    let len := of_be (udp_length h) in
    if len <? sizeof_udp then Some None
    else if len >? sizeof_udp + data_len then Some None
    else
      payload ← rd data sizeof_udp (len - sizeof_udp);
      Some (Some (h, payload)).

(** ** From the device *)

Section Device.

(** [options.udpgw_remote_server_addr], [options.dnsgw] and
    [options.netif_ip6addr] were given; [udp_mtu] *)
Context (udpgw dnsgw netif_ip6addr : bool) (udp_mtu : Z).

(** What is passed to [SocksUdpGwClient_SubmitPacket]. *)
Record submission := Submission {
  sub_local : BAddr;
  sub_remote : BAddr;
  sub_is_dns : bool;
  sub_data : list Z;
}.

(** The part of a DNS header that tells a query: [qr], [rcode], [ans_count] and
    [auth_count]. *)
Definition sizeof_dns : Z := 12.
Definition is_dns_query (data : list Z) : option bool :=
  if Z.of_nat (length data) <? sizeof_dns then Some false
  else
    b2 ← rd1 data 2;
    b3 ← rd1 data 3;
    ans ← rd data 6 2;
    auth ← rd data 8 2;
    Some ((Z.shiftr b2 7 =? 0) && (Z.land b3 0x0F =? 0) && bool_decide (ans = [0; 0]) && bool_decide (auth = [0; 0])).

(** Submitting, once the headers are parsed. *)
Definition submit (local remote : BAddr) (is_dns : bool) (data : list Z) : option (option submission) :=
  if Z.of_nat (length data) >? udp_mtu then Some None else Some (Some (Submission local remote is_dns data)).

Definition process_ipv4 (data : list Z) : option (option submission) :=
  if Z.of_nat (length data) <? sizeof_ipv4 then Some None
  else
    proto ← rd1 data 9;
    if negb (proto =? IPV4_PROTOCOL_UDP) then Some None
    else
      ip ← ipv4_check data;
      match ip with
      | None => Some None
      | Some (iph, off, len) =>
          data ← rd data off len;
          u ← udp_check data;
          match u with
          | None => Some None
          | Some (udph, data) =>
              let computed := udp_checksum (with_udp_sum (be16 0) udph) data (source_address iph) (destination_address iph) in
              if negb (bool_decide (udp_sum udph = computed)) then Some None
              else
                is_dns ← (if dnsgw && bool_decide (dest_port udph = be16 53) then is_dns_query data else Some false);
                submit (BAddr_InitIPv4 (source_address iph) (source_port udph))
                  (BAddr_InitIPv4 (destination_address iph) (dest_port udph)) is_dns data
          end
      end.

Definition process_ipv6 (data : list Z) : option (option submission) :=
  if negb netif_ip6addr then Some None
  else if Z.of_nat (length data) <? sizeof_ipv6 then Some None
  else
    next ← rd1 data 6;
    if negb (next =? IPV6_NEXT_UDP) then Some None
    else
      ip ← ipv6_check data;
      match ip with
      | None => Some None
      | Some (iph, off, len) =>
          data ← rd data off len;
          u ← udp_check data;
          match u with
          | None => Some None
          | Some (udph, data) =>
              let computed := udp_ip6_checksum (with_udp_sum (be16 0) udph) data (source_address6 iph) (destination_address6 iph) in
              if negb (bool_decide (udp_sum udph = computed)) then Some None
              else
                submit (BAddr_InitIPv6 (source_address6 iph) (source_port udph))
                  (BAddr_InitIPv6 (destination_address6 iph) (dest_port udph)) false data
          end
      end.

(** [Some None] leaves the packet to lwIP. *)
Definition process_device_udp_packet (data : list Z) : option (option submission) :=
  if negb udpgw then Some None
  else
    ip_version ← (if 0 <? Z.of_nat (length data) then (fun b => Z.shiftr b 4) <$> rd1 data 0 else Some 0);
    if ip_version =? 4 then process_ipv4 data
    else if ip_version =? 6 then process_ipv6 data
    else Some None.

(** ** To the device *)

(** The MTU of the device. *)
Context (device_mtu : Z).

Definition ipv4_header_for (source dest : list Z) (data_len : Z) : ipv4_header :=
  let iph := Ipv4 (IPV4_MAKE_VERSION_IHL sizeof_ipv4) 0 (be16 (u16 (sizeof_ipv4 + sizeof_udp + data_len)))
               (be16 0) (be16 0) 64 IPV4_PROTOCOL_UDP (be16 0) source dest in
  with_ip_checksum (ipv4_checksum iph []) iph.

Definition ipv6_header_for (source dest : list Z) (data_len : Z) : ipv6_header :=
  Ipv6 (Z.shiftl 6 4) 0 (be16 0) (be16 (u16 (sizeof_udp + data_len))) IPV6_NEXT_UDP 64 source dest.

Definition udp_header_for (source dest : list Z) (data_len : Z) : udp_header :=
  Udp source dest (be16 (u16 (sizeof_udp + data_len))) (be16 0).

(** The packet written to the device, if any; [None] is a failed assertion. *)
Definition udpgw_client_handler_received (local remote : BAddr) (data : list Z) : option (option (list Z)) :=
  let data_len := Z.of_nat (length data) in
  if negb udpgw then None
  else
    match local, remote with
    | BADDR_IPV4 lip lport, BADDR_IPV4 rip rport =>
        if (data_len >? UINT16_MAX - (sizeof_ipv4 + sizeof_udp)) ||
           (data_len >? device_mtu - (sizeof_ipv4 + sizeof_udp)) then Some None
        else
          let iph := ipv4_header_for rip lip data_len in
          let udph := udp_header_for rport lport data_len in
          let udph := with_udp_sum (udp_checksum udph data (source_address iph) (destination_address iph)) udph in
          Some (Some (ipv4_bytes iph ++ udp_bytes udph ++ data))
    | BADDR_IPV6 lip lport, BADDR_IPV6 rip rport =>
        if negb netif_ip6addr then Some None
        else if (data_len >? UINT16_MAX - sizeof_udp) ||
                (data_len >? device_mtu - (sizeof_ipv6 + sizeof_udp)) then Some None
        else
          let iph := ipv6_header_for rip lip data_len in
          let udph := udp_header_for rport lport data_len in
          let udph := with_udp_sum (udp_ip6_checksum udph data (source_address6 iph) (destination_address6 iph)) udph in
          Some (Some (ipv6_bytes iph ++ udp_bytes udph ++ data))
    | _, _ => None
    end.

End Device.
