(* ===== verification/UdpFacts.v ===== *)
(** * Theorems about the UDP packets of tun2socks *)

From S2P Require Import Prelude Mem BAddr UdpPacket.

Open Scope Z_scope.

(** ** The Internet checksum (RFC 1071) *)

(** Addition with end-around carry. *)
Definition oc_add (x y : Z) : Z := if UINT16_MAX <? x + y then x + y - UINT16_MAX else x + y.

(** The one's complement sum of the 16-bit words of a byte string, padded with a
    zero byte. *)
Fixpoint oc_sum (l : list Z) : Z :=
  match l with
  | a :: b :: l => oc_add (of_be [a; b]) (oc_sum l)
  | [a] => of_be [a; 0]
  | [] => 0
  end.

Definition rfc1071 (l : list Z) : list Z := be16 (UINT16_MAX - oc_sum l).

(** The plain sum. *)
Fixpoint word_sum (l : list Z) : Z :=
  match l with
  | a :: b :: l => of_be [a; b] + word_sum l
  | [a] => of_be [a; 0]
  | [] => 0
  end.

Lemma list_ind_2 {A} (P : list A -> Prop) :
  P [] -> (forall a, P [a]) -> (forall a b l, P l -> P (a :: b :: l)) -> forall l, P l.
Proof.
  intros H0 H1 H2. fix IH 1. intros [|a [|b l]]; [exact H0|exact (H1 a)|exact (H2 a b l (IH l))].
Qed.

Lemma of_be_word a b : is_byte a -> is_byte b -> 0 <= of_be [a; b] <= 65535.
Proof. unfold is_byte, of_be. cbn. lia. Qed.

Lemma word_sum_bounds l : bytes l -> 0 <= word_sum l <= 65535 * (Z.of_nat (length l) + 1) / 2.
Proof.
  induction l as [|a|a b l IH] using list_ind_2; intros Hb; split_bytes.
  - cbn [word_sum]. split; [lia|]. apply Z.div_pos; cbn; lia.
  - cbn [word_sum length]. pose proof (of_be_word a 0 ltac:(done) ltac:(unfold is_byte; lia)).
    change (65535 * (Z.of_nat 1 + 1) / 2) with 65535. lia.
  - specialize (IH Hb). cbn [word_sum length]. pose proof (of_be_word a b ltac:(done) ltac:(done)).
    replace (65535 * (Z.of_nat (S (S (length l))) + 1)) with (65535 * (Z.of_nat (length l) + 1) + 65535 * 2) by lia.
    rewrite Z.div_add by lia. lia.
Qed.

Lemma even_ind_list {A} (P : list A -> Prop) :
  P [] -> (forall a b l, P l -> P (a :: b :: l)) -> forall l, Nat.Even (length l) -> P l.
Proof.
  intros H0 H2. fix IH 1. intros [|a [|b l]] He; [exact H0|destruct He as [k Hk]; cbn in Hk; lia|].
  apply H2, IH. destruct He as [k Hk]. cbn in Hk. exists (k - 1)%nat. lia.
Qed.

Lemma word_sum_app l1 l2 : Nat.Even (length l1) -> word_sum (l1 ++ l2) = word_sum l1 + word_sum l2.
Proof.
  revert l1. apply even_ind_list; [done|]. intros a b l IH. cbn [app word_sum]. lia.
Qed.

(** The 32-bit accumulator of the source. *)

Lemma add_words_even l :
  Nat.Even (length l) -> forall t, 0 <= t < 4294967296 -> add_words t l = u32 (t + word_sum l).
Proof.
  revert l. apply (even_ind_list (fun l => forall t, 0 <= t < 4294967296 -> add_words t l = u32 (t + word_sum l))).
  - intros t Ht. cbn. rewrite Z.add_0_r. symmetry. now apply u32_small.
  - intros a b l IH t Ht. cbn [add_words word_sum]. rewrite IH by apply u32_range.
    unfold u32. rewrite Z.add_mod_idemp_l by lia. f_equal. lia.
Qed.

(** ** The end-around carry *)

Definition canonical (t r : Z) : Prop := 0 <= r <= UINT16_MAX /\ r mod UINT16_MAX = t mod UINT16_MAX /\ (r = 0 <-> t = 0).

Lemma canonical_unique t r1 r2 : canonical t r1 -> canonical t r2 -> r1 = r2.
Proof.
  unfold canonical, UINT16_MAX. intros (H1 & H2 & H3) (H4 & H5 & H6).
  assert (r1 mod 65535 = r2 mod 65535) as E by congruence.
  Z.div_mod_to_equations. nia.
Qed.

Lemma oc_sum_canonical l : bytes l -> canonical (word_sum l) (oc_sum l).
Proof.
  induction l as [|a|a b l IH] using list_ind_2; intros Hb; split_bytes.
  - done.
  - pose proof (of_be_word a 0 ltac:(done) ltac:(unfold is_byte; lia)). cbn [word_sum oc_sum].
    split; [unfold UINT16_MAX; lia|done].
  - destruct (IH Hb) as (H1 & H2 & H3). pose proof (of_be_word a b ltac:(done) ltac:(done)) as Hw.
    pose proof (word_sum_bounds l Hb) as [Hws _].
    cbn [word_sum oc_sum]. unfold oc_add. split; [|split].
    + unfold UINT16_MAX in *. destruct (65535 <? _) eqn:E; lia.
    + rewrite Z.add_mod, <- H2, <- Z.add_mod by (unfold UINT16_MAX; lia).
      destruct (UINT16_MAX <? _); [|done]. unfold UINT16_MAX.
      rewrite <- (Z_mod_plus_full (of_be [a; b] + oc_sum l - 65535) 1). f_equal. lia.
    + unfold UINT16_MAX in *. destruct (65535 <? _) eqn:E; lia.
Qed.

Lemma carry_step t : 0 <= t < 4294967296 ->
  u32 (Z.land t 0xFFFF + Z.shiftr t 16) = t mod 65536 + t / 65536.
Proof.
  intros Ht. change 0xFFFF with (Z.ones 16). rewrite Z.land_ones, Z.shiftr_div_pow2 by lia.
  change (2 ^ 16) with 65536. apply u32_small. unfold is_u32. Z.div_mod_to_equations. lia.
Qed.

Lemma carry_loop_canonical n : forall t b,
  0 <= t < 4294967296 -> t <= b ->
  (match n with O => b <= 65535 | 1%nat => b <= 65536 | 2%nat => b <= 131070 | _ => True end) ->
  canonical t (carry_loop n t).
Proof.
  induction n as [|n IH]; intros t b Ht Hb Hn; cbn [carry_loop].
  - split; [unfold UINT16_MAX; lia|done].
  - destruct (Z.eqb_spec (Z.shiftr t 16) 0) as [E|E]; rewrite Z.shiftr_div_pow2 in E by lia; change (2 ^ 16) with 65536 in E.
    + split; [unfold UINT16_MAX; Z.div_mod_to_equations; lia|done].
    + rewrite carry_step by done. set (t' := t mod 65536 + t / 65536).
      assert (0 <= t' /\ t' mod 65535 = t mod 65535 /\ (t' = 0 <-> t = 0) /\
        t' <= match n with O => 65535 | 1%nat => 65536 | _ => 131070 end) as (H1 & H2 & H3 & H4).
      { unfold t'. clear IH. destruct n as [|[|n]]; Z.div_mod_to_equations; nia. }
      assert (canonical t' (carry_loop n t')) as (G1 & G2 & G3).
      { assert (t' <= 131070) by (destruct n as [|[|n]]; lia).
        apply (IH t' (match n with O => 65535 | 1%nat => 65536 | _ => 131070 end)); [lia|lia|].
        destruct n as [|[|[|n]]]; done. }
      unfold canonical, UINT16_MAX in *. split; [exact G1|]. split; [congruence|tauto].
Qed.

(** The bound of the loop is enough for every [uint32_t]. *)
Lemma carry_loop_done l t :
  bytes l -> t = word_sum l -> t < 4294967296 -> carry_loop carry_bound t = oc_sum l.
Proof.
  intros Hb -> Hs. pose proof (word_sum_bounds l Hb) as [H0 _]. apply (canonical_unique (word_sum l)).
  - apply (carry_loop_canonical 4 _ (word_sum l)); [lia|lia|done].
  - now apply oc_sum_canonical.
Qed.

(** ** The checksums of the source *)

Lemma u16_lnot r : 0 <= r <= UINT16_MAX -> u16 (Z.lnot r) = UINT16_MAX - r.
Proof.
  unfold u16, Z.lnot, UINT16_MAX. intros H. rewrite <- (Z_mod_plus_full (Z.pred (- r)) 1), Z.mod_small; lia.
Qed.

Lemma oc_sum_range l : bytes l -> 0 <= oc_sum l <= UINT16_MAX.
Proof. intros Hb. apply (oc_sum_canonical l Hb). Qed.

(** No byte string of fewer than 120000 bytes overflows the accumulator. *)
Lemma word_sum_small l : bytes l -> Z.of_nat (length l) <= 120000 -> word_sum l < 4294967296.
Proof.
  intros Hb Hl. pose proof (word_sum_bounds l Hb) as [_ H].
  assert (65535 * (Z.of_nat (length l) + 1) / 2 <= 65535 * 120001 / 2) as H2 by (apply Z.div_le_mono; lia).
  assert (65535 * 120001 / 2 < 4294967296) by (now vm_compute). lia.
Qed.

Lemma ipv4_checksum_ok h extra :
  bytes (ipv4_bytes h ++ extra) -> length (ipv4_bytes h) = 20%nat -> Nat.Even (length extra) ->
  Z.of_nat (length extra) <= 65535 ->
  ipv4_checksum h extra = rfc1071 (ipv4_bytes h ++ extra).
Proof.
  intros Hb Hl He Hs. unfold ipv4_checksum, rfc1071.
  assert (Nat.Even (length (ipv4_bytes h))) as He1 by (rewrite Hl; now exists 10%nat).
  pose proof (word_sum_small _ Hb ltac:(rewrite length_app; lia)) as Hsmall.
  rewrite word_sum_app in Hsmall by done. pose proof (proj1 (bytes_app _ _) Hb) as [Hb1 Hb2].
  pose proof (word_sum_bounds _ Hb1) as [H1 _]. pose proof (word_sum_bounds _ Hb2) as [H2 _].
  rewrite (add_words_even _ He1) by lia. rewrite (add_words_even _ He) by apply u32_range.
  rewrite (u32_small (0 + word_sum (ipv4_bytes h))) by (unfold is_u32; lia).
  rewrite u32_small by (unfold is_u32; lia).
  rewrite (carry_loop_done (ipv4_bytes h ++ extra)); [|done|rewrite word_sum_app by done; lia|lia].
  now rewrite u16_lnot by (now apply oc_sum_range).
Qed.

Lemma add_payload_sum t payload :
  bytes payload -> 0 <= t < 4294967296 -> add_payload t payload = u32 (t + word_sum payload).
Proof.
  intros Hb Ht. unfold add_payload. destruct (Z.eqb_spec (Z.of_nat (length payload) mod 2) 0) as [E|E].
  - rewrite add_words_even by (try lia; exists (length payload / 2)%nat; apply Nat2Z.inj;
      rewrite Nat2Z.inj_mul, Nat2Z.inj_div; cbn; Z.div_mod_to_equations; lia).
    unfold u32. rewrite Z.add_mod_idemp_r by lia. do 2 f_equal.
  - destruct payload as [|p payload] using rev_ind; [done|]. clear IHpayload.
    rewrite length_app in *. cbn [length] in *.
    assert (Nat.Even (length payload)) as He.
    { exists (length payload / 2)%nat. apply Nat2Z.inj. rewrite Nat2Z.inj_mul, Nat2Z.inj_div. cbn.
      rewrite Nat2Z.inj_add in E. cbn in E. Z.div_mod_to_equations; lia. }
    apply bytes_app in Hb as [Hb1 Hb2]. split_bytes.
    replace (length payload + 1 - 1)%nat with (length payload) by lia. rewrite take_app_length, List.last_last.
    rewrite (add_words_even payload) by (done || lia). rewrite word_sum_app by done.
    assert (add_words 0 (be16 (u16 (Z.shiftl p 8))) = word_sum [p]) as ->.
    { unfold is_byte in *. rewrite add_words_even by (try lia; now exists 1%nat).
      rewrite Z.shiftl_mul_pow2 by lia. unfold u16. change (2 ^ 8) with 256. rewrite (Z.mod_small (p * 256)) by lia.
      unfold be16, word_sum, of_be. cbn [foldl]. rewrite u32_small; unfold is_u32; Z.div_mod_to_equations; lia. }
    unfold u32. rewrite Z.add_mod_idemp_r, Z.add_mod_idemp_l by lia. f_equal. lia.
Qed.

(** The pseudo headers of RFC 768 and RFC 8200. *)
Definition pseudo4 (source dest : list Z) (len : Z) : list Z := source ++ dest ++ be16 IPV4_PROTOCOL_UDP ++ be16 len.
Definition pseudo6 (source dest : list Z) (len : Z) : list Z := source ++ dest ++ be32 len ++ be32 IPV6_NEXT_UDP.

Lemma udp_finish_ok l t :
  bytes l -> t = word_sum l -> t < 4294967296 -> udp_finish t = rfc1071 l.
Proof.
  intros Hb Ht Hs. unfold udp_finish, rfc1071. rewrite (carry_loop_done l t Hb Ht Hs).
  pose proof (oc_sum_range l Hb) as Hr. unfold UINT16_MAX in *.
  assert (u32 (Z.lnot (oc_sum l)) = 4294967295 - oc_sum l) as ->.
  { unfold u32, Z.lnot. rewrite <- (Z_mod_plus_full (Z.pred (- oc_sum l)) 1), Z.mod_small; lia. }
  replace (4294967295 - oc_sum l =? 0) with false by lia. f_equal. unfold u16.
  rewrite <- (Z_mod_plus_full (4294967295 - oc_sum l) (- 65535)), Z.mod_small; lia.
Qed.

Lemma even_length {A} (l : list A) n : length l = (2 * n)%nat -> Nat.Even (length l).
Proof. intros ->. now exists n. Qed.

Lemma add_part t l :
  Nat.Even (length l) -> bytes l -> 0 <= t -> t + word_sum l < 4294967296 ->
  u32 (t + add_words 0 l) = t + word_sum l.
Proof.
  intros He Hb Ht Hs. pose proof (word_sum_bounds l Hb) as [H _]. rewrite add_words_even by (done || lia).
  rewrite (u32_small (0 + _)) by (unfold is_u32; lia). apply u32_small. unfold is_u32. lia.
Qed.

(** Five even parts and the payload, added up one after the other. *)
Lemma add_parts p1 p2 p3 p4 p5 payload :
  Nat.Even (length p1) -> Nat.Even (length p2) -> Nat.Even (length p3) -> Nat.Even (length p4) ->
  Nat.Even (length p5) -> bytes (p1 ++ p2 ++ p3 ++ p4 ++ p5 ++ payload) ->
  Z.of_nat (length (p1 ++ p2 ++ p3 ++ p4 ++ p5 ++ payload)) <= 120000 ->
  udp_finish (add_payload (u32 (u32 (u32 (u32 (u32 (0 + add_words 0 p1) + add_words 0 p2) + add_words 0 p3) +
    add_words 0 p4) + add_words 0 p5)) payload) = rfc1071 (p1 ++ p2 ++ p3 ++ p4 ++ p5 ++ payload).
Proof.
  intros E1 E2 E3 E4 E5 Hb Hl. pose proof (word_sum_small _ Hb Hl) as Hs. split_bytes.
  assert (forall l, bytes l -> 0 <= word_sum l) as Hpos by (intros l Hbl; apply (word_sum_bounds l Hbl)).
  pose proof (Hpos p1 ltac:(done)). pose proof (Hpos p2 ltac:(done)). pose proof (Hpos p3 ltac:(done)).
  pose proof (Hpos p4 ltac:(done)). pose proof (Hpos p5 ltac:(done)). pose proof (Hpos payload ltac:(done)).
  assert (word_sum (p1 ++ p2 ++ p3 ++ p4 ++ p5 ++ payload) = word_sum p1 + word_sum p2 + word_sum p3 +
    word_sum p4 + word_sum p5 + word_sum payload) as Hsum by (rewrite !word_sum_app by done; lia).
  rewrite Hsum in Hs. clear Hsum Hpos.
  rewrite (add_part 0 p1) by (done || lia). rewrite (add_part _ p2) by (done || lia).
  rewrite (add_part _ p3) by (done || lia). rewrite (add_part _ p4) by (done || lia).
  rewrite (add_part _ p5) by (done || lia). rewrite add_payload_sum by (done || lia).
  rewrite u32_small by (unfold is_u32; lia). apply udp_finish_ok; [rewrite !bytes_app; tauto| |lia].
  rewrite !word_sum_app by done. lia.
Qed.

Lemma udp_bytes_length h :
  length (source_port h) = 2%nat -> length (dest_port h) = 2%nat -> length (udp_length h) = 2%nat ->
  length (udp_sum h) = 2%nat -> length (udp_bytes h) = 8%nat.
Proof. intros H1 H2 H3 H4. unfold udp_bytes. rewrite !length_app. lia. Qed.

Section UdpChecksum.
Context (h : udp_header) (payload source dest : list Z).
Hypothesis header_length : length (udp_bytes h) = 8%nat.
Hypothesis header_bytes : bytes (udp_bytes h).
Hypothesis payload_bytes : bytes payload.
Hypothesis payload_short : Z.of_nat (length payload) <= 65527.
Hypothesis addresses : bytes source /\ bytes dest.

Lemma udp_checksum_ok :
  length source = 4%nat -> length dest = 4%nat ->
  udp_checksum h payload source dest =
  rfc1071 (pseudo4 source dest (8 + Z.of_nat (length payload)) ++ udp_bytes h ++ payload).
Proof.
  intros Hs Hd. destruct addresses as [Bs Bd]. unfold udp_checksum, pseudo4, sizeof_udp.
  rewrite <- !app_assoc. unfold u16. rewrite (Z.mod_small (8 + _)) by lia. apply add_parts.
  - rewrite Hs. now exists 2%nat.
  - rewrite Hd. now exists 2%nat.
  - now exists 1%nat.
  - now exists 1%nat.
  - rewrite header_length. now exists 4%nat.
  - rewrite !bytes_app. repeat split; auto using be16_bytes.
  - rewrite !length_app, Hs, Hd, header_length. cbn [length be16]. lia.
Qed.

Lemma udp_ip6_checksum_ok :
  length source = 16%nat -> length dest = 16%nat ->
  udp_ip6_checksum h payload source dest =
  rfc1071 (pseudo6 source dest (8 + Z.of_nat (length payload)) ++ udp_bytes h ++ payload).
Proof.
  intros Hs Hd. destruct addresses as [Bs Bd]. unfold udp_ip6_checksum, pseudo6, sizeof_udp.
  rewrite <- !app_assoc. apply add_parts.
  - rewrite Hs. now exists 8%nat.
  - rewrite Hd. now exists 8%nat.
  - now exists 2%nat.
  - now exists 2%nat.
  - rewrite header_length. now exists 4%nat.
  - rewrite !bytes_app. repeat split; auto using be32_bytes.
  - rewrite !length_app, Hs, Hd, header_length. cbn [length be32]. lia.
Qed.

End UdpChecksum.

(** ** Reading stays inside of the packet *)

Lemma rd_in data off n :
  0 <= off -> 0 <= n -> off + n <= Z.of_nat (length data) ->
  rd data off n = Some (mem_read data (Z.to_nat off) (Z.to_nat n)).
Proof.
  intros H1 H2 H3. unfold rd.
  replace ((0 <=? off) && (0 <=? n) && (off + n <=? Z.of_nat (length data))) with true by lia. done.
Qed.

Lemma rd1_in data off : 0 <= off < Z.of_nat (length data) -> rd1 data off = Some (nth (Z.to_nat off) data 0).
Proof.
  intros H. unfold rd1. rewrite rd_in by lia. cbn. f_equal. unfold mem_read. change (Z.to_nat 1) with 1%nat.
  assert (Z.to_nat off < length data)%nat as Hlt by lia. generalize (Z.to_nat off) as n, Hlt. clear.
  intros n. revert data. induction n as [|n IH]; intros [|b data] Hl; cbn in Hl; try lia; [done|].
  cbn [drop skipn nth]. apply IH. lia.
Qed.

Lemma rd_bytes data off n l : bytes data -> rd data off n = Some l -> bytes l /\ Z.of_nat (length l) = n.
Proof.
  unfold rd. intros Hb. destruct (_ && _) eqn:E; [|done]. intros [= <-]. split.
  - unfold mem_read. auto using bytes_take, bytes_drop.
  - rewrite mem_read_length; lia.
Qed.

Lemma of_be_nonneg l : bytes l -> 0 <= of_be l.
Proof.
  unfold of_be. assert (forall acc, 0 <= acc -> bytes l -> 0 <= foldl (fun acc b => acc * 256 + b) acc l) as H.
  { induction l as [|b l IH]; intros acc Ha Hb; cbn; [done|]. split_bytes. apply IH; [|done]. unfold is_byte in *. lia. }
  intros Hb. now apply H.
Qed.

(** A contiguous part. *)
Definition part_of (p d : list Z) : Prop := exists a b, d = a ++ p ++ b.

Lemma part_of_trans p d e : part_of p d -> part_of d e -> part_of p e.
Proof. intros (a & b & ->) (a' & b' & ->). exists (a' ++ a), (b ++ b'). now rewrite <- !app_assoc. Qed.

Lemma mem_read_part data off n : part_of (mem_read data off n) data.
Proof.
  exists (take off data), (drop n (drop off data)). unfold mem_read. now rewrite !take_drop.
Qed.

(** The packet is not taken. *)
Ltac rejected := eexists; split; [reflexivity|exact I].

Lemma ipv4_check_total data : exists r, ipv4_check data = Some r /\
  match r with Some (_, off, len) => 0 <= off /\ 0 <= len /\ off + len <= Z.of_nat (length data) | None => True end.
Proof.
  unfold ipv4_check. destruct (_ <? _) eqn:E0; [rejected|]. unfold sizeof_ipv4 in *. rewrite rd_in by lia.
  cbn [mbind option_bind]. set (h := ipv4_of_bytes _). destruct (negb _); [rejected|].
  assert (0 <= u16 (IPV4_GET_IHL h * 4)) as Hh by (apply Z.mod_pos_bound; lia).
  destruct (u16 _ <? 20) eqn:E1; [rejected|]. destruct (_ >? _) eqn:E2; [rejected|]. destruct (_ <? u16 _) eqn:E3; [rejected|].
  destruct (of_be _ >? _) eqn:E4; [rejected|]. rewrite rd_in by lia. cbn [mbind option_bind].
  destruct (negb _); [rejected|]. eexists. split; [reflexivity|]. cbv iota beta. lia.
Qed.

Lemma ipv6_check_total data : bytes data -> exists r, ipv6_check data = Some r /\
  match r with Some (_, off, len) => 0 <= off /\ 0 <= len /\ off + len <= Z.of_nat (length data) | None => True end.
Proof.
  intros Hb. unfold ipv6_check. destruct (_ <? _) eqn:E0; [rejected|]. unfold sizeof_ipv6 in *.
  destruct (rd data 0 40) as [hdr|] eqn:Er; [|rewrite rd_in in Er by lia; done]. cbn [mbind option_bind].
  apply rd_bytes in Er as [Hhb _]; [|done]. destruct (negb _); [rejected|].
  assert (0 <= of_be (payload_length (ipv6_of_bytes hdr))) as Hp.
  { apply of_be_nonneg. cbn. unfold mem_read. auto using bytes_take, bytes_drop. }
  destruct (_ >? _) eqn:E1; [rejected|]. eexists. split; [reflexivity|]. cbv iota beta. lia.
Qed.

Lemma udp_check_total data : exists r, udp_check data = Some r /\
  match r with Some (_, payload) => part_of payload data | None => True end.
Proof.
  unfold udp_check. destruct (_ <? _) eqn:E0; [rejected|]. unfold sizeof_udp in *. rewrite rd_in by lia.
  cbn [mbind option_bind]. destruct (of_be _ <? 8) eqn:E1; [rejected|]. destruct (of_be _ >? _) eqn:E2; [rejected|].
  rewrite rd_in by lia. cbn [mbind option_bind]. eexists. split; [reflexivity|]. cbv iota beta.
  apply mem_read_part.
Qed.

Lemma is_dns_query_total data : is_Some (is_dns_query data).
Proof.
  unfold is_dns_query, sizeof_dns. destruct (_ <? _) eqn:E; [eauto|]. rewrite !rd1_in, !rd_in by lia. cbn. eauto.
Qed.

Lemma submit_in_bounds mtu local remote q payload data off len :
  part_of payload (mem_read data off len) ->
  exists r, submit mtu local remote q payload = Some r /\
    match r with
    | Some s => part_of (sub_data s) data /\ Z.of_nat (length (sub_data s)) <= mtu
    | None => True
    end.
Proof.
  intros Hs. unfold submit. destruct (_ >? _) eqn:E; [rejected|]. eexists. split; [reflexivity|]. cbn.
  split; [|lia]. eapply part_of_trans; [exact Hs|]. apply mem_read_part.
Qed.

(** ** Reading back what was built *)

Lemma len2 {A} (l : list A) : length l = 2%nat -> exists a b, l = [a; b].
Proof. destruct l as [|a [|b [|]]]; try done. eauto. Qed.

Lemma len4 {A} (l : list A) : length l = 4%nat -> exists a b c d, l = [a; b; c; d].
Proof. destruct l as [|a [|b [|c [|d [|]]]]]; try done. eauto 10. Qed.

Lemma rd_front l r n : Z.of_nat (length l) = n -> rd (l ++ r) 0 n = Some l.
Proof.
  intros <-. rewrite rd_in by (rewrite ?length_app; lia). unfold mem_read.
  change (Z.to_nat 0) with 0%nat. rewrite drop_0, Nat2Z.id. now rewrite take_app_length.
Qed.

Lemma rd_back l r n : Z.of_nat (length l) = n -> rd (l ++ r) n (Z.of_nat (length r)) = Some r.
Proof.
  intros <-. rewrite rd_in by (rewrite ?length_app; lia). unfold mem_read.
  rewrite !Nat2Z.id, drop_app_length. now rewrite firstn_all.
Qed.

Lemma of_be_be16_u16 n : 0 <= n < 65536 -> of_be (be16 (u16 n)) = n.
Proof. intros H. unfold u16. rewrite Z.mod_small by lia. now apply of_be_be16. Qed.

(** The UDP part of a packet. *)
Lemma udp_check_built sport dport sum data :
  length sport = 2%nat -> length dport = 2%nat -> length sum = 2%nat -> Z.of_nat (length data) <= 65527 ->
  let u := Udp sport dport (be16 (u16 (sizeof_udp + Z.of_nat (length data)))) sum in
  udp_check (udp_bytes u ++ data) = Some (Some (u, data)).
Proof.
  intros Hs Hd Hc Hl u. pose proof (len2 _ Hs) as (s1 & s2 & ->). pose proof (len2 _ Hd) as (d1 & d2 & ->).
  pose proof (len2 _ Hc) as (c1 & c2 & ->). assert (length (udp_bytes u) = 8%nat) as Hu by done.
  unfold udp_check. unfold sizeof_udp at 1. rewrite length_app, Hu, Nat2Z.inj_add. change (Z.of_nat 8) with 8.
  replace (8 + Z.of_nat (length data) <? 8) with false by lia.
  rewrite rd_front by done. cbn [mbind option_bind]. change (udp_of_bytes (udp_bytes u)) with u.
  cbn [udp_length u]. unfold sizeof_udp. rewrite of_be_be16_u16 by lia.
  replace (8 + Z.of_nat (length data) <? 8) with false by lia.
  replace (8 + Z.of_nat (length data) >? 8 + (8 + Z.of_nat (length data) - 8)) with false by lia.
  replace (8 + Z.of_nat (length data) - 8) with (Z.of_nat (length data)) by lia.
  now rewrite rd_back.
Qed.

(** An IPv4 header without options in memory and back. *)
Lemma ipv4_decode v t tl c source dest :
  length tl = 2%nat -> length c = 2%nat -> length source = 4%nat -> length dest = 4%nat ->
  let h := Ipv4 v t tl (be16 0) (be16 0) 64 IPV4_PROTOCOL_UDP c source dest in
  length (ipv4_bytes h) = 20%nat /\ ipv4_of_bytes (ipv4_bytes h) = h.
Proof.
  intros Ht Hc Hs Hd. pose proof (len2 _ Ht) as (t1 & t2 & ->). pose proof (len2 _ Hc) as (c1 & c2 & ->).
  pose proof (len4 _ Hs) as (s1 & s2 & s3 & s4 & ->). pose proof (len4 _ Hd) as (d1 & d2 & d3 & d4 & ->). done.
Qed.

Lemma ipv4_check_built source dest rest :
  length source = 4%nat -> length dest = 4%nat -> 8 <= Z.of_nat (length rest) <= 65515 ->
  let h := ipv4_header_for source dest (Z.of_nat (length rest) - sizeof_udp) in
  length (ipv4_bytes h) = 20%nat /\
  ipv4_check (ipv4_bytes h ++ rest) = Some (Some (h, 20, Z.of_nat (length rest))).
Proof.
  intros Hs Hd Hl h. set (h0 := Ipv4 (IPV4_MAKE_VERSION_IHL sizeof_ipv4) 0
    (be16 (u16 (sizeof_ipv4 + sizeof_udp + (Z.of_nat (length rest) - sizeof_udp)))) (be16 0) (be16 0) 64
    IPV4_PROTOCOL_UDP (be16 0) source dest).
  assert (h = with_ip_checksum (ipv4_checksum h0 []) h0) as Eh by reflexivity. clearbody h. subst h.
  assert (length (ipv4_checksum h0 []) = 2%nat) as Hc by reflexivity. generalize (eq_refl (ipv4_checksum h0 [])) as Ec.
  revert Hc. generalize (ipv4_checksum h0 []) at 1 2 4 5 6 as c. intros c Hc Ec. set (h := with_ip_checksum c h0).
  destruct (ipv4_decode (IPV4_MAKE_VERSION_IHL sizeof_ipv4) 0 (total_length h0) c source dest) as [Hh Hdec]; [done..|].
  change (Ipv4 (IPV4_MAKE_VERSION_IHL sizeof_ipv4) 0 (total_length h0) (be16 0) (be16 0) 64 IPV4_PROTOCOL_UDP c source dest)
    with h in Hh, Hdec. split; [done|].
  unfold ipv4_check. unfold sizeof_ipv4 at 1. rewrite length_app, Hh, Nat2Z.inj_add. change (Z.of_nat 20) with 20.
  replace (20 + Z.of_nat (length rest) <? 20) with false by lia.
  rewrite rd_front by (rewrite Hh; done). cbn [mbind option_bind]. rewrite Hdec.
  replace (IPV4_GET_VERSION h) with 4 by done. replace (u16 (IPV4_GET_IHL h * 4)) with 20 by done.
  replace (of_be (total_length h)) with (20 + Z.of_nat (length rest))
    by (cbn [total_length h h0 with_ip_checksum]; unfold sizeof_ipv4, sizeof_udp; rewrite of_be_be16_u16; lia).
  change (negb (4 =? 4)) with false. change (20 <? sizeof_ipv4) with false. cbv iota.
  replace (20 >? 20 + Z.of_nat (length rest)) with false by lia.
  replace (20 + Z.of_nat (length rest) <? 20) with false by lia.
  replace (20 + Z.of_nat (length rest) >? 20 + Z.of_nat (length rest)) with false by lia.
  rewrite rd_in by (rewrite ?length_app; unfold sizeof_ipv4; lia). cbn [mbind option_bind].
  replace (Z.to_nat (20 - sizeof_ipv4)) with 0%nat by done. rewrite mem_read_0.
  change (with_ip_checksum (be16 0) h) with h0. change (ip_checksum h) with c. rewrite <- Ec.
  rewrite bool_decide_true by done. cbn [negb]. do 3 f_equal. lia.
Qed.

Lemma ipv6_check_built source dest rest :
  length source = 16%nat -> length dest = 16%nat -> 8 <= Z.of_nat (length rest) <= 65535 ->
  let h := ipv6_header_for source dest (Z.of_nat (length rest) - sizeof_udp) in
  ipv6_check (ipv6_bytes h ++ rest) = Some (Some (h, 40, Z.of_nat (length rest))).
Proof.
  intros Hs Hd Hl h. assert (length (ipv6_bytes h) = 40%nat) as Hh.
  { unfold h, ipv6_bytes. cbn [fl payload_length source_address6 destination_address6 ipv6_header_for].
    rewrite !length_app, Hs, Hd. done. }
  unfold ipv6_check, sizeof_ipv6. rewrite length_app, Hh, Nat2Z.inj_add. change (Z.of_nat 40) with 40.
  replace (40 + Z.of_nat (length rest) <? 40) with false by lia.
  rewrite rd_front by (rewrite Hh; done). cbn [mbind option_bind].
  assert (ipv6_of_bytes (ipv6_bytes h) = h) as ->.
  { unfold ipv6_of_bytes. transitivity (Ipv6 (version4_tc4 h) (tc4_fl4 h) (fl h) (payload_length h) (next_header h)
      (hop_limit h) (take 16 (source ++ dest)) (take 16 (drop 16 (source ++ dest)))); [reflexivity|].
    rewrite take_app_length' by done. rewrite drop_app_length' by done. rewrite <- Hd, firstn_all. reflexivity. }
  change (Z.shiftr (version4_tc4 h) 4 =? 6) with true. cbn [negb].
  assert (of_be (payload_length h) = Z.of_nat (length rest)) as ->.
  { unfold h, ipv6_header_for. cbn [payload_length]. unfold sizeof_udp. rewrite of_be_be16_u16; lia. }
  replace (Z.of_nat (length rest) >? 40 + Z.of_nat (length rest) - 40) with false by lia. done.
Qed.

(** ** Claims *)

Lemma device_packet_parsed udpgw dnsgw ip6 mtu data :
  bytes data ->
  exists r, process_device_udp_packet udpgw dnsgw ip6 mtu data = Some r /\
    match r with
    | Some s => part_of (sub_data s) data /\ Z.of_nat (length (sub_data s)) <= mtu
    | None => True
    end.
Proof.
  intros Hb. unfold process_device_udp_packet. destruct (negb udpgw); [rejected|].
  assert (exists v, (if 0 <? Z.of_nat (length data) then (fun b => Z.shiftr b 4) <$> rd1 data 0 else Some 0) = Some v)
    as [v ->] by (destruct (0 <? _) eqn:E; [rewrite rd1_in by lia|]; cbn; eauto).
  cbn [mbind option_bind]. destruct (v =? 4); [|destruct (v =? 6); [|rejected]].
  - unfold process_ipv4. destruct (_ <? _) eqn:E; [rejected|]. unfold sizeof_ipv4 in E. rewrite rd1_in by lia.
    cbn [mbind option_bind]. destruct (negb _); [rejected|].
    destruct (ipv4_check_total data) as (r & -> & Hr). cbn [mbind option_bind].
    destruct r as [[[iph off] len]|]; [|rejected]. destruct Hr as (H1 & H2 & H3).
    rewrite rd_in by done. cbn [mbind option_bind].
    destruct (udp_check_total (mem_read data (Z.to_nat off) (Z.to_nat len))) as (u & -> & Hu).
    cbn [mbind option_bind]. destruct u as [[udph payload]|]; [|rejected]. destruct (negb _); [rejected|].
    assert (exists q, (if dnsgw && bool_decide (dest_port udph = be16 53) then is_dns_query payload else Some false) =
      Some q) as [q ->] by (destruct (_ && _); [apply is_dns_query_total|eauto]).
    cbn [mbind option_bind]. eapply submit_in_bounds; exact Hu.
  - unfold process_ipv6. destruct (negb ip6); [rejected|]. destruct (_ <? _) eqn:E; [rejected|].
    unfold sizeof_ipv6 in E. rewrite rd1_in by lia. cbn [mbind option_bind]. destruct (negb _); [rejected|].
    destruct (ipv6_check_total data Hb) as (r & -> & Hr). cbn [mbind option_bind].
    destruct r as [[[iph off] len]|]; [|rejected]. destruct Hr as (H1 & H2 & H3).
    rewrite rd_in by done. cbn [mbind option_bind].
    destruct (udp_check_total (mem_read data (Z.to_nat off) (Z.to_nat len))) as (u & -> & Hu).
    cbn [mbind option_bind]. destruct u as [[udph payload]|]; [|rejected]. destruct (negb _); [rejected|].
    eapply submit_in_bounds; exact Hu.
Qed.

(** C31. Whatever bytes the TUN device delivers, the packet is examined without
    reading outside of it; when its payload is passed on to the UDP relay, the
    payload is a part of the packet and not longer than the relay allows. *)
Theorem udp_parse_in_bounds udpgw dnsgw ip6 mtu data :
  bytes data ->
  exists r, process_device_udp_packet udpgw dnsgw ip6 mtu data = Some r /\
    match r with
    | Some s => part_of (sub_data s) data /\ Z.of_nat (length (sub_data s)) <= mtu
    | None => True
    end.
Proof. apply device_packet_parsed. Qed.

Lemma rfc1071_length l : length (rfc1071 l) = 2%nat.
Proof. done. Qed.

Lemma udp_checksum_length h p s d : length (udp_checksum h p s d) = 2%nat /\ length (udp_ip6_checksum h p s d) = 2%nat.
Proof. done. Qed.

(** The UDP header that is sent. *)
Definition sent_udp (sum sport dport : list Z) (n : Z) : udp_header :=
  with_udp_sum sum (udp_header_for sport dport n).

(** The bytes that are looked at before a header is parsed. *)
Lemma ipv4_version_byte h r : nth (Z.to_nat 0) (ipv4_bytes h ++ r) 0 = version4_ihl4 h.
Proof. done. Qed.

Lemma ipv4_protocol_byte h r :
  length (total_length h) = 2%nat -> length (identification h) = 2%nat -> length (flags3_fragmentoffset13 h) = 2%nat ->
  nth (Z.to_nat 9) (ipv4_bytes h ++ r) 0 = protocol h.
Proof.
  destruct h as [v t tl ident frag tt p c sa da]. cbn [total_length identification flags3_fragmentoffset13]. intros H1 H2 H3.
  pose proof (len2 _ H1) as (? & ? & ->). pose proof (len2 _ H2) as (? & ? & ->). pose proof (len2 _ H3) as (? & ? & ->).
  done.
Qed.

Lemma ipv6_version_byte h r : nth (Z.to_nat 0) (ipv6_bytes h ++ r) 0 = version4_tc4 h.
Proof. done. Qed.

Lemma ipv6_next_byte h r :
  length (fl h) = 2%nat -> length (payload_length h) = 2%nat -> nth (Z.to_nat 6) (ipv6_bytes h ++ r) 0 = next_header h.
Proof.
  destruct h as [v t f pl nh hl sa da]. cbn [fl payload_length]. intros H1 H2.
  pose proof (len2 _ H1) as (? & ? & ->). pose proof (len2 _ H2) as (? & ? & ->). done.
Qed.

Lemma process_built4 dnsgw mtu ip6 lip lport rip rport data sum :
  baddr_ok (BADDR_IPV4 lip lport) -> baddr_ok (BADDR_IPV4 rip rport) ->
  Z.of_nat (length data) <= 65507 -> Z.of_nat (length data) <= mtu ->
  let n := Z.of_nat (length data) in
  let iph := ipv4_header_for rip lip n in
  let udph0 := udp_header_for rport lport n in
  let udph := with_udp_sum sum udph0 in
  let packet := ipv4_bytes iph ++ udp_bytes udph ++ data in
  sum = udp_checksum udph0 data rip lip -> length sum = 2%nat ->
  Z.of_nat (length packet) = 28 + n /\
  exists q, process_device_udp_packet true dnsgw ip6 mtu packet =
    Some (Some (Submission (BADDR_IPV4 rip rport) (BADDR_IPV4 lip lport) q data)).
Proof.
  intros (L1 & L2 & _ & _) (R1 & R2 & _ & _) Hn Hm n iph udph0 udph packet Es Hsum.
  assert (length (udp_bytes udph) = 8%nat) as Hu by (apply udp_bytes_length; done).
  assert (Z.of_nat (length (udp_bytes udph ++ data)) = 8 + n) as Hrest by (rewrite length_app, Hu; unfold n; lia).
  assert (ipv4_header_for rip lip (Z.of_nat (length (udp_bytes udph ++ data)) - sizeof_udp) = iph) as Eh.
  { rewrite Hrest. unfold sizeof_udp, iph. f_equal. lia. }
  destruct (ipv4_check_built rip lip (udp_bytes udph ++ data) R1 L1 ltac:(unfold n in *; lia)) as [Hh Hck].
  cbv zeta in Hh, Hck. rewrite Eh, Hrest in *.
  assert (Z.of_nat (length packet) = 28 + n) as Hp by (unfold packet; rewrite length_app, Hh; lia).
  split; [done|]. unfold process_device_udp_packet. cbn [negb].
  replace (0 <? Z.of_nat (length packet)) with true by (unfold n in *; lia).
  rewrite rd1_in by (unfold n in *; lia). cbn [fmap option_fmap option_map mbind option_bind].
  unfold packet at 1. rewrite ipv4_version_byte. replace (Z.shiftr (version4_ihl4 iph) 4) with 4 by done. cbn [Z.eqb Pos.eqb].
  unfold process_ipv4. replace (Z.of_nat (length packet) <? sizeof_ipv4) with false by (unfold sizeof_ipv4, n in *; lia).
  rewrite rd1_in by (unfold n in *; lia). cbn [mbind option_bind].
  unfold packet at 1. rewrite ipv4_protocol_byte by done. change (protocol iph) with IPV4_PROTOCOL_UDP.
  change (negb (IPV4_PROTOCOL_UDP =? IPV4_PROTOCOL_UDP)) with false.
  cbv iota. unfold packet. rewrite Hck. cbn [mbind option_bind].
  rewrite <- Hrest, rd_back by (rewrite Hh; done). cbn [mbind option_bind].
  assert (udp_check (udp_bytes udph ++ data) = Some (Some (udph, data))) as ->.
  { apply (udp_check_built rport lport (udp_sum udph) data); try done. lia. }
  cbn [mbind option_bind]. change (source_address iph) with rip. change (destination_address iph) with lip.
  change (with_udp_sum (be16 0) udph) with udph0. change (udp_sum udph) with sum.
  rewrite bool_decide_true by done. cbn [negb].
  assert (exists q, (if dnsgw && bool_decide (dest_port udph = be16 53) then is_dns_query data else Some false) =
    Some q) as [q ->] by (destruct (_ && _); [apply is_dns_query_total|eauto]).
  exists q. cbn [mbind option_bind]. unfold submit.
  replace (Z.of_nat (length data) >? mtu) with false by lia. done.
Qed.

Lemma process_built6 dnsgw mtu lip lport rip rport data sum :
  baddr_ok (BADDR_IPV6 lip lport) -> baddr_ok (BADDR_IPV6 rip rport) ->
  Z.of_nat (length data) <= 65527 -> Z.of_nat (length data) <= mtu ->
  let n := Z.of_nat (length data) in
  let iph := ipv6_header_for rip lip n in
  let udph0 := udp_header_for rport lport n in
  let udph := with_udp_sum sum udph0 in
  let packet := ipv6_bytes iph ++ udp_bytes udph ++ data in
  sum = udp_ip6_checksum udph0 data rip lip -> length sum = 2%nat ->
  Z.of_nat (length packet) = 48 + n /\
  process_device_udp_packet true dnsgw true mtu packet =
    Some (Some (Submission (BADDR_IPV6 rip rport) (BADDR_IPV6 lip lport) false data)).
Proof.
  intros (L1 & L2 & _ & _) (R1 & R2 & _ & _) Hn Hm n iph udph0 udph packet Es Hsum.
  assert (length (udp_bytes udph) = 8%nat) as Hu by (apply udp_bytes_length; done).
  assert (Z.of_nat (length (udp_bytes udph ++ data)) = 8 + n) as Hrest by (rewrite length_app, Hu; unfold n; lia).
  assert (ipv6_header_for rip lip (Z.of_nat (length (udp_bytes udph ++ data)) - sizeof_udp) = iph) as Eh.
  { rewrite Hrest. unfold sizeof_udp, iph. f_equal. lia. }
  pose proof (ipv6_check_built rip lip (udp_bytes udph ++ data) R1 L1 ltac:(unfold n in *; lia)) as Hck.
  cbv zeta in Hck. rewrite Eh, Hrest in Hck.
  assert (length (ipv6_bytes iph) = 40%nat) as Hh.
  { unfold iph, ipv6_bytes. cbn [fl payload_length source_address6 destination_address6 ipv6_header_for].
    rewrite !length_app, R1, L1. done. }
  assert (Z.of_nat (length packet) = 48 + n) as Hp by (unfold packet; rewrite length_app, Hh; lia).
  split; [done|]. unfold process_device_udp_packet. cbn [negb].
  replace (0 <? Z.of_nat (length packet)) with true by (unfold n in *; lia).
  rewrite rd1_in by (unfold n in *; lia). cbn [fmap option_fmap option_map mbind option_bind].
  unfold packet at 1. rewrite ipv6_version_byte. replace (Z.shiftr (version4_tc4 iph) 4) with 6 by done. cbn [Z.eqb Pos.eqb].
  unfold process_ipv6. cbn [negb].
  replace (Z.of_nat (length packet) <? sizeof_ipv6) with false by (unfold sizeof_ipv6, n in *; lia).
  rewrite rd1_in by (unfold n in *; lia). cbn [mbind option_bind].
  unfold packet. rewrite ipv6_next_byte by done. change (next_header iph) with IPV6_NEXT_UDP.
  change (negb (IPV6_NEXT_UDP =? IPV6_NEXT_UDP)) with false.
  cbv iota. rewrite Hck. cbn [mbind option_bind].
  rewrite <- Hrest, rd_back by (rewrite Hh; done). cbn [mbind option_bind].
  assert (udp_check (udp_bytes udph ++ data) = Some (Some (udph, data))) as ->.
  { apply (udp_check_built rport lport (udp_sum udph) data); try done. }
  cbn [mbind option_bind]. change (source_address6 iph) with rip. change (destination_address6 iph) with lip.
  change (with_udp_sum (be16 0) udph) with udph0. change (udp_sum udph) with sum.
  rewrite bool_decide_true by done. cbn [negb].
  unfold submit. replace (Z.of_nat (length data) >? mtu) with false by lia. done.
Qed.

Lemma built_packet_parsed dnsgw ip6 mtu device_mtu local remote data packet :
  baddr_ok local -> baddr_ok remote ->
  udpgw_client_handler_received true ip6 device_mtu local remote data = Some (Some packet) ->
  Z.of_nat (length data) <= mtu ->
  Z.of_nat (length packet) <= device_mtu /\
  exists q, process_device_udp_packet true dnsgw ip6 mtu packet = Some (Some (Submission remote local q data)).
Proof.
  intros Hl Hr E Hm. unfold udpgw_client_handler_received in E. cbn [negb] in E.
  destruct local as [|lip lport|lip lport], remote as [|rip rport|rip rport]; try done.
  - destruct (_ || _) eqn:Ef; [done|]. apply orb_false_iff in Ef as [E1 E2]. unfold UINT16_MAX, sizeof_ipv4, sizeof_udp in E1, E2.
    apply Some_inj, Some_inj in E. rewrite <- E. clear E. destruct (process_built4 dnsgw mtu ip6 lip lport rip rport data _ Hl Hr ltac:(lia) Hm eq_refl
      (proj1 (udp_checksum_length _ _ _ _))) as [H1 H2]. split; [|exact H2]. etransitivity; [apply Z.eq_le_incl; exact H1|lia].
  - destruct ip6; [|done]. cbn [negb] in E. destruct (_ || _) eqn:Ef; [done|]. apply orb_false_iff in Ef as [E1 E2].
    unfold UINT16_MAX, sizeof_ipv6, sizeof_udp in E1, E2.
    apply Some_inj, Some_inj in E. rewrite <- E. clear E. destruct (process_built6 dnsgw mtu lip lport rip rport data _ Hl Hr ltac:(lia) Hm eq_refl
      (proj2 (udp_checksum_length _ _ _ _))) as [H1 H2]. split; [|eauto]. etransitivity; [apply Z.eq_le_incl; exact H1|lia].
Qed.

(** C30. A packet built for the device is understood by the code that reads packets
    from the device: it is taken for UDP, its checksums are accepted, and its
    payload and the two addresses, in the roles they have for the sender of that
    packet, are recovered exactly. It is not longer than the MTU of the device. *)
Theorem udp_packet_roundtrip dnsgw ip6 mtu device_mtu local remote data packet :
  baddr_ok local -> baddr_ok remote ->
  udpgw_client_handler_received true ip6 device_mtu local remote data = Some (Some packet) ->
  Z.of_nat (length data) <= mtu ->
  Z.of_nat (length packet) <= device_mtu /\
  exists q, process_device_udp_packet true dnsgw ip6 mtu packet = Some (Some (Submission remote local q data)).
Proof. apply built_packet_parsed. Qed.

(** C32. The three checksum routines, with their 32-bit accumulators, their
    special case for a payload of odd length and their carry loops, compute the
    Internet checksum of RFC 1071: of the IPv4 header with its options, and of
    the pseudo header, the UDP header and the payload. *)
Theorem checksums_rfc1071 iph extra udph payload s4 d4 s6 d6 :
  bytes (ipv4_bytes iph ++ extra) -> length (ipv4_bytes iph) = 20%nat -> Nat.Even (length extra) ->
  Z.of_nat (length extra) <= 65535 ->
  bytes (udp_bytes udph) -> length (udp_bytes udph) = 8%nat ->
  bytes payload -> Z.of_nat (length payload) <= 65527 ->
  bytes s4 /\ length s4 = 4%nat -> bytes d4 /\ length d4 = 4%nat ->
  bytes s6 /\ length s6 = 16%nat -> bytes d6 /\ length d6 = 16%nat ->
  let n := 8 + Z.of_nat (length payload) in
  ipv4_checksum iph extra = rfc1071 (ipv4_bytes iph ++ extra) /\
  udp_checksum udph payload s4 d4 = rfc1071 (pseudo4 s4 d4 n ++ udp_bytes udph ++ payload) /\
  udp_ip6_checksum udph payload s6 d6 = rfc1071 (pseudo6 s6 d6 n ++ udp_bytes udph ++ payload).
Proof.
  intros Hb1 Hl1 He Hl2 Hb2 Hl3 Hb3 Hl4 [? ?] [? ?] [? ?] [? ?] n. split; [now apply ipv4_checksum_ok|].
  split; [now apply udp_checksum_ok|now apply udp_ip6_checksum_ok].
Qed.

(** ** Concrete packets *)

Definition ip_a : BAddr := BADDR_IPV4 [10; 0; 0; 1] [4; 210].
Definition ip_b : BAddr := BADDR_IPV4 [8; 8; 8; 8] [0; 53].

Lemma udp_parse_in_bounds_witness :
  exists r, process_device_udp_packet true true false 1472 [69; 0; 0; 200; 1] = Some r.
Proof.
  destruct (udp_parse_in_bounds true true false 1472 [69; 0; 0; 200; 1]) as (r & H & _).
  - apply bytesb_bytes. reflexivity.
  - exists r. exact H.
Defined.

Lemma udp_packet_roundtrip_witness :
  match udpgw_client_handler_received true false 1500 ip_a ip_b [1; 2; 3] with
  | Some (Some packet) =>
      exists q, process_device_udp_packet true true false 1472 packet = Some (Some (Submission ip_b ip_a q [1; 2; 3]))
  | _ => False
  end.
Proof.
  destruct (udpgw_client_handler_received true false 1500 ip_a ip_b [1; 2; 3]) as [[packet|]|] eqn:E;
    [|vm_compute in E; discriminate..].
  apply (udp_packet_roundtrip true false 1472 1500 ip_a ip_b [1; 2; 3] packet).
  - split; [reflexivity|]. split; [reflexivity|]. split; apply bytesb_bytes; reflexivity.
  - split; [reflexivity|]. split; [reflexivity|]. split; apply bytesb_bytes; reflexivity.
  - exact E.
  - vm_compute. discriminate.
Defined.

Lemma checksums_rfc1071_witness :
  udp_checksum (Udp [0; 53] [4; 210] [0; 11] [0; 0]) [1; 2; 3] [8; 8; 8; 8] [10; 0; 0; 1] =
  rfc1071 (pseudo4 [8; 8; 8; 8] [10; 0; 0; 1] 11 ++ [0; 53; 4; 210; 0; 11; 0; 0] ++ [1; 2; 3]).
Proof.
  apply (checksums_rfc1071 (ipv4_header_for [8; 8; 8; 8] [10; 0; 0; 1] 3) [] (Udp [0; 53] [4; 210] [0; 11] [0; 0])
    [1; 2; 3] [8; 8; 8; 8] [10; 0; 0; 1] (repeat 0 16) (repeat 1 16)).
  - apply bytesb_bytes. vm_compute. reflexivity.
  - vm_compute. reflexivity.
  - exists 0%nat. reflexivity.
  - vm_compute. discriminate.
  - apply bytesb_bytes. reflexivity.
  - reflexivity.
  - apply bytesb_bytes. reflexivity.
  - vm_compute. discriminate.
  - split; [apply bytesb_bytes|]; reflexivity.
  - split; [apply bytesb_bytes|]; reflexivity.
  - split; [apply bytesb_bytes|]; reflexivity.
  - split; [apply bytesb_bytes|]; reflexivity.
Defined.

(** A UDP checksum that comes out as zero is sent as zero. RFC 768 and RFC 8200
    ask for all ones instead, and the source means to do so, but it compares the
    complement of the sum as a 32-bit number, which is never zero; a receiver
    discards such an IPv6 packet. *)
Lemma udp_zero_checksum_sent :
  exists packet,
    udpgw_client_handler_received true true 1500 (BADDR_IPV6 (repeat 0 16) [0; 0]) (BADDR_IPV6 (repeat 0 16) [0; 0])
      [255; 218] = Some (Some packet) /\
    mem_read packet 46 2 = [0; 0].
Proof. eexists. split; [vm_compute; reflexivity|reflexivity]. Qed.
