(* ===== verification/BAVL.v ===== *)
(** * The AVL tree ([badvpn/structure/BAVL.h])

    The tree is intrusive: a node is a part of the object it indexes and is known
    by its address, here a number. The memory of the nodes is a map from addresses
    to nodes; following a pointer that is null or leads to no node is a fault, as
    is a failed assertion. The value a node is ordered by is read from the object
    around it, by the function [value]. [BAVL_COUNT] is not defined in this
    program, so the counts are left out. *)

From S2P Require Import Prelude Effect.

Open Scope Z_scope.

Record BAVLNode := Node {
  parent : option nat;
  link0 : option nat;
  link1 : option nat;
  balance : Z;
}.

Record BAVL := Tree {
  root : option nat;
  memory : gmap nat BAVLNode;
}.

(** [n->link[side]] *)
Definition link (side : bool) (n : BAVLNode) : option nat := if side then link1 n else link0 n.

Definition with_parent (p : option nat) (n : BAVLNode) : BAVLNode := Node p (link0 n) (link1 n) (balance n).
Definition with_balance (b : Z) (n : BAVLNode) : BAVLNode := Node (parent n) (link0 n) (link1 n) b.
Definition with_link (side : bool) (p : option nat) (n : BAVLNode) : BAVLNode :=
  if side then Node (parent n) (link0 n) p (balance n) else Node (parent n) p (link1 n) (balance n).

(** [n] is the node [p] points to. *)
Definition points_to (p : option nat) (n : nat) : bool := bool_decide (p = Some n).

(** ** Access to the memory *)

Definition node (line : Z) (p : nat) : eff BAVL BAVLNode :=
  t ← get_st;
  match memory t !! p with Some n => mret n | None => bad line end.

Definition set_node (line : Z) (p : nat) (f : BAVLNode -> BAVLNode) : eff BAVL unit :=
  n ← node line p;
  upd_st (fun t => Tree (root t) (<[p := f n]> (memory t))).

Definition set_root (p : option nat) : eff BAVL unit := upd_st (fun t => Tree p (memory t)).

Definition deref (line : Z) (p : option nat) : eff BAVL nat :=
  match p with Some p => mret p | None => bad line end.

(** [if (p) p->parent = q] *)
Definition reparent (line : Z) (p : option nat) (q : nat) : eff BAVL unit :=
  match p with Some p => set_node line p (with_parent (Some q)) | None => mret tt end.

(** [if (q) q->link[side] = p; else tree->root = p;] *)
Definition hang (line : Z) (q : option nat) (side : BAVLNode -> bool) (p : option nat) : eff BAVL unit :=
  match q with
  | Some q => n ← node line q; set_node line q (with_link (side n) p)
  | None => set_root p
  end.

(** ** Rotation *)

Definition BAVL_rotate (r : nat) (dir : bool) : eff BAVL unit :=
  rn ← node 282 r;
  nr ← deref 284 (link (negb dir) rn);
  nrn ← node 284 nr;
  set_node 284 r (with_link (negb dir) (link dir nrn)) ;;
  reparent 286 (link dir nrn) r ;;
  set_node 288 nr (with_link dir (Some r)) ;;
  rn ← node 289 r;
  set_node 289 nr (with_parent (parent rn)) ;;
  hang 291 (parent rn) (fun q => points_to (link1 q) r) (Some nr) ;;
  set_node 295 r (with_parent (Some nr)).

(** ** Rebalancing *)

Definition BAVL_OPTNEG (val : Z) (neg : bool) : Z := if neg then - val else val.

(** The transformation of a node that is out of balance: the new top of the subtree
    and the new [delta]. *)
Definition restore (p : nat) (delta : Z) : eff BAVL (nat * Z) :=
  n ← node 444 p;
  let bside := balance n =? 2 in
  let bsidef := if bside then 1 else -1 in
  child ← deref 452 (link bside n);
  cn ← node 454 child;
  if balance cn * bsidef =? 1 then
    BAVL_rotate p (negb bside) ;;
    set_node 457 p (with_balance 0) ;;
    set_node 458 child (with_balance 0) ;;
    mret (child, delta - 1)
  else if balance cn * bsidef =? 0 then
    BAVL_rotate p (negb bside) ;;
    set_node 464 p (with_balance (1 * bsidef)) ;;
    set_node 465 child (with_balance (-1 * bsidef)) ;;
    mret (child, delta)
  else if balance cn * bsidef =? -1 then
    gchild ← deref 469 (link (negb bside) cn);
    BAVL_rotate child bside ;;
    BAVL_rotate p (negb bside) ;;
    gn ← node 473 gchild;
    set_node 473 p (with_balance (- Z.max 0 (balance gn * bsidef) * bsidef)) ;;
    set_node 474 child (with_balance (Z.max 0 (- balance gn * bsidef) * bsidef)) ;;
    set_node 475 gchild (with_balance 0) ;;
    mret (gchild, delta - 1)
  else bad 480.

(** Lines 430 to 482: a child on [side] has changed its height by [deltac]. *)
Definition adjust (p : nat) (side : bool) (deltac : Z) : eff BAVL (nat * Z) :=
  n ← node 431 p;
  let delta := Z.max deltac (BAVL_OPTNEG (balance n) side) - Z.max 0 (BAVL_OPTNEG (balance n) side) in
  assert_at 432 ((-1 <=? delta) && (delta <=? 1)) ;;
  set_node 435 p (with_balance (balance n - BAVL_OPTNEG deltac side)) ;;
  n ← node 441 p;
  if (balance n =? 2) || (balance n =? -2) then restore p delta else mret (p, delta).

(** The function calls itself on the parent; [fuel] bounds the length of the path to
    the root, and running out of it is a fault. *)
Fixpoint BAVL_rebalance (fuel : nat) (p : nat) (side : bool) (deltac : Z) : eff BAVL unit :=
  match fuel with
  | O => bad 419
  | S fuel =>
      assert_at 422 ((-1 <=? deltac) && (deltac <=? 1)) ;;
      n ← node 423 p;
      assert_at 423 ((-1 <=? balance n) && (balance n <=? 1)) ;;
      if deltac =? 0 then mret tt
      else
        top ← adjust p side deltac;
        assert_at 484 ((-1 <=? snd top) && (snd top <=? 1)) ;;
        n ← node 495 (fst top);
        match parent n with
        | Some q => qn ← node 496 q; BAVL_rebalance fuel q (points_to (link1 qn) (fst top)) (snd top)
        | None => mret tt
        end
  end.

(** No path has more nodes than the memory. *)
Definition depth (t : BAVL) : nat := S (size (memory t)).

(** ** Insertion and lookup *)

Section Operations.
Context {K : Type} (comparator : K -> K -> Z) (value : nat -> K).

Definition BAVL_compare_values (line : Z) (v1 v2 : K) : eff BAVL Z :=
  let res := comparator v1 v2 in
  assert_at line ((res =? -1) || (res =? 0) || (res =? 1)) ;;
  mret res.

Definition BAVL_Init : BAVL := Tree None ∅.

(** The loop that looks for [v] below [c]: the node that compares equal, or the
    node and the side where there is none. *)
Fixpoint descend (fuel : nat) (v : K) (c : nat) : eff BAVL (nat + nat * bool) :=
  match fuel with
  | O => bad 534
  | S fuel =>
      comp ← BAVL_compare_values 208 v (value c);
      if comp =? 0 then mret (inl c)
      else
        let side := comp =? 1 in
        n ← node 549 c;
        match link side n with
        | None => mret (inr (c, side))
        | Some c => descend fuel v c
        end
  end.

(** The result of the function and the node it stores in [*ref]. *)
Definition BAVL_Insert (p : nat) : eff BAVL (Z * option nat) :=
  t ← get_st;
  match root t with
  | None =>
      set_root (Some p) ;;
      upd_st (fun t => Tree (root t) (<[p := Node None None None 0]> (memory t))) ;;
      mret (1, None)
  | Some c =>
      found ← descend (depth t) (value p) c;
      match found with
      | inl c => mret (0, Some c)
      | inr (c, side) =>
          set_node 557 c (with_link side (Some p)) ;;
          upd_st (fun t => Tree (root t) (<[p := Node (Some c) None None 0]> (memory t))) ;;
          BAVL_rebalance (depth t) c side 1 ;;
          mret (1, Some c)
      end
  end.

Definition BAVL_Lookup (v : K) : eff BAVL (option nat) :=
  t ← get_st;
  match root t with
  | None => mret None
  | Some c =>
      found ← descend (depth t) v c;
      match found with inl c => mret (Some c) | inr (c, _) => mret (Some c) end
  end.

Definition BAVL_LookupExact (v : K) : eff BAVL (option nat) :=
  t ← get_st;
  match root t with
  | None => mret None
  | Some c =>
      found ← descend (depth t) v c;
      match found with inl c => mret (Some c) | inr _ => mret None end
  end.

(** ** Removal *)

Fixpoint subtree_end (fuel : nat) (side : bool) (p : nat) : eff BAVL nat :=
  match fuel with
  | O => bad 307
  | S fuel =>
      n ← node 307 p;
      match link side n with Some q => subtree_end fuel side q | None => mret p end
  end.

Definition BAVL_subtree_max (fuel : nat) (p : nat) : eff BAVL nat := subtree_end fuel true p.

Definition BAVL_replace_subtree (dest : nat) (p : option nat) : eff BAVL unit :=
  d ← node 317 dest;
  hang 318 (parent d) (fun q => points_to (link1 q) dest) p ;;
  match p with Some p => set_node 323 p (with_parent (parent d)) | None => mret tt end.

(** [n1->link[side] = n2->link[side]; n2->link[side] = temp;] with the parents of
    the children. *)
Definition swap_children (line : Z) (side : bool) (n1 n2 : nat) : eff BAVL unit :=
  m1 ← node line n1;
  m2 ← node line n2;
  set_node line n1 (with_link side (link side m2)) ;;
  reparent (line + 1) (link side m2) n1 ;;
  set_node (line + 3) n2 (with_link side (link side m1)) ;;
  reparent (line + 4) (link side m1) n2.

(** [n1] is the parent of [n2]. *)
Definition swap_connected (n1 n2 : nat) : eff BAVL unit :=
  m1 ← node 350 n1;
  let side := points_to (link1 m1) n2 in
  let c := link (negb side) m1 in
  m2 ← node 353 n2;
  set_node 353 n1 (with_link false (link false m2)) ;;
  reparent 354 (link false m2) n1 ;;
  set_node 356 n1 (with_link true (link true m2)) ;;
  reparent 357 (link true m2) n1 ;;
  m1 ← node 360 n1;
  set_node 360 n2 (with_parent (parent m1)) ;;
  hang 361 (parent m1) (fun q => points_to (link1 q) n1) (Some n2) ;;
  set_node 366 n2 (with_link side (Some n1)) ;;
  set_node 367 n1 (with_parent (Some n2)) ;;
  set_node 368 n2 (with_link (negb side) c) ;;
  reparent 369 c n2.

Definition swap_apart (n1 n2 : nat) : eff BAVL unit :=
  m1 ← node 375 n1;
  m2 ← node 376 n2;
  set_node 376 n1 (with_parent (parent m2)) ;;
  hang 377 (parent m2) (fun q => points_to (link1 q) n2) (Some n1) ;;
  set_node 381 n2 (with_parent (parent m1)) ;;
  hang 382 (parent m1) (fun q => points_to (link1 q) n1) (Some n2) ;;
  swap_children 388 false n1 n2 ;;
  swap_children 397 true n1 n2.

Definition BAVL_swap_nodes (n1 n2 : nat) : eff BAVL unit :=
  m1 ← node 341 n1;
  m2 ← node 341 n2;
  (if points_to (parent m2) n1 then swap_connected n1 n2
   else if points_to (parent m1) n2 then swap_connected n2 n1
   else swap_apart n1 n2) ;;
  m1 ← node 407 n1;
  m2 ← node 408 n2;
  set_node 408 n1 (with_balance (balance m2)) ;;
  set_node 409 n2 (with_balance (balance m1)).

Definition BAVL_Remove (p : nat) : eff BAVL unit :=
  t ← get_st;
  n ← node 589 p;
  match link0 n, link1 n with
  | Some l, Some _ => max ← BAVL_subtree_max (depth t) l; BAVL_swap_nodes p max
  | _, _ => mret tt
  end ;;
  n ← node 597 p;
  assert_at 597 (match link0 n, link1 n with Some _, Some _ => false | _, _ => true end) ;;
  let child := match link0 n with Some c => Some c | None => link1 n end in
  match parent n with
  | Some q =>
      qn ← node 604 q;
      let side := points_to (link1 qn) p in
      BAVL_replace_subtree p child ;;
      BAVL_rebalance (depth t) q side (-1)
  | None => BAVL_replace_subtree p child
  end.

(** ** Traversal *)

Definition BAVL_IsEmpty (t : BAVL) : bool := match root t with None => true | Some _ => false end.

Definition BAVL_GetFirst : eff BAVL (option nat) :=
  t ← get_st;
  match root t with None => mret None | Some p => q ← subtree_end (depth t) false p; mret (Some q) end.

Definition BAVL_GetLast : eff BAVL (option nat) :=
  t ← get_st;
  match root t with None => mret None | Some p => q ← subtree_end (depth t) true p; mret (Some q) end.

(** [while (n->parent && n == n->parent->link[side]) n = n->parent; n = n->parent;] *)
Fixpoint climb (fuel : nat) (side : bool) (p : nat) : eff BAVL (option nat) :=
  match fuel with
  | O => bad 712
  | S fuel =>
      n ← node 712 p;
      match parent n with
      | None => mret None
      | Some q => qn ← node 712 q; if points_to (link side qn) p then climb fuel side q else mret (Some q)
      end
  end.

Definition BAVL_GetNext (p : nat) : eff BAVL (option nat) :=
  t ← get_st;
  n ← node 706 p;
  match link1 n with
  | Some q => r ← subtree_end (depth t) false q; mret (Some r)
  | None => climb (depth t) true p
  end.

Definition BAVL_GetPrev (p : nat) : eff BAVL (option nat) :=
  t ← get_st;
  n ← node 723 p;
  match link0 n with
  | Some q => r ← subtree_end (depth t) true q; mret (Some r)
  | None => climb (depth t) false p
  end.

(** ** The self check of the tree *)

(** The two blocks of [_BAVL_assert_recurser] that check a child: the height of the
    subtree. *)
Definition check_child (line : Z) (recurser : nat -> eff BAVL Z) (p : nat) (order : Z) (c : option nat) : eff BAVL Z :=
  match c with
  | None => mret 0
  | Some c =>
      cn ← node line c;
      assert_at line (points_to (parent cn) p) ;;
      assert_at (line + 2) (comparator (value c) (value p) =? order) ;;
      recurser c
  end.

Fixpoint BAVL_assert_recurser (fuel : nat) (p : nat) : eff BAVL Z :=
  match fuel with
  | O => bad 224
  | S fuel =>
      n ← node 226 p;
      assert_at 226 (-1 <=? balance n) ;;
      assert_at 227 (balance n <=? 1) ;;
      height_left ← check_child 239 (BAVL_assert_recurser fuel) p (-1) (link0 n);
      height_right ← check_child 252 (BAVL_assert_recurser fuel) p 1 (link1 n);
      assert_at 263 (balance n =? height_right - height_left) ;;
      mret (Z.max height_left height_right + 1)
  end.

Definition BAVL_Verify : eff BAVL unit :=
  t ← get_st;
  match root t with
  | None => mret tt
  | Some p =>
      n ← node 792 p;
      assert_at 792 (match parent n with None => true | Some _ => false end) ;;
      BAVL_assert_recurser (depth t) p ;;
      mret tt
  end.

End Operations.
