(* ===== verification/BAVLRep.v ===== *)
(** * Trees in memory

    What the memory of a BAVL tree holds, as an inductive tree: [rep] for a subtree
    and [rep_seg] for a piece of the path above one, so that a position in the tree
    is a path and a subtree. The lemmas say which of these survive a write. *)

From S2P Require Import Prelude Effect BAVL.

Open Scope Z_scope.

Inductive tree := Leaf | Br (l : tree) (i : nat) (b : Z) (r : tree).

(** The addresses of the nodes, in order. *)
Fixpoint ids (t : tree) : list nat :=
  match t with Leaf => [] | Br l i _ r => ids l ++ i :: ids r end.

Definition rt (t : tree) : option nat := match t with Leaf => None | Br _ i _ _ => Some i end.

(** A node above the position: the side the position is on, the address and the
    balance of the node, and its other subtree. *)
Inductive frame := Frame (side : bool) (i : nat) (b : Z) (sib : tree).

Definition plug1 (f : frame) (t : tree) : tree :=
  let 'Frame s i b sib := f in if s then Br sib i b t else Br t i b sib.
Fixpoint plug (q : list frame) (t : tree) : tree :=
  match q with [] => t | f :: q => plug q (plug1 f t) end.

Definition fid (f : frame) : nat := let 'Frame _ i _ _ := f in i.
Definition frame_ids (f : frame) : list nat := let 'Frame _ i _ sib := f in i :: ids sib.
Fixpoint path_ids (q : list frame) : list nat :=
  match q with [] => [] | f :: q => frame_ids f ++ path_ids q end.

(** What is in order before and after the position. *)
Fixpoint pre (q : list frame) : list nat :=
  match q with [] => [] | Frame s i _ sib :: q => pre q ++ if s then ids sib ++ [i] else [] end.
Fixpoint post (q : list frame) : list nat :=
  match q with [] => [] | Frame s i _ sib :: q => (if s then [] else i :: ids sib) ++ post q end.

(** The parent of what is at the bottom of a path, and the top of the path. *)
Definition pid (par : option nat) (q : list frame) : option nat :=
  match q with [] => par | f :: _ => Some (fid f) end.
Fixpoint top (q : list frame) (hole : option nat) : option nat :=
  match q with [] => hole | f :: q => top q (Some (fid f)) end.

Notation mem := (gmap nat BAVLNode).

Fixpoint rep (h : mem) (par : option nat) (t : tree) : Prop :=
  match t with
  | Leaf => True
  | Br l i b r => h !! i = Some (Node par (rt l) (rt r) b) /\ rep h (Some i) l /\ rep h (Some i) r
  end.

Fixpoint rep_seg (h : mem) (par : option nat) (q : list frame) (hole : option nat) : Prop :=
  match q with
  | [] => True
  | Frame s i b sib :: q =>
      h !! i = Some (Node (pid par q) (if s then rt sib else hole) (if s then hole else rt sib) b) /\
      rep h (Some i) sib /\ rep_seg h par q (Some i)
  end.

(** The tree is [plug q t]. *)
Record holds (T : BAVL) (q : list frame) (t : tree) : Prop := Holds {
  holds_root : root T = top q (rt t);
  holds_path : rep_seg (memory T) None q (rt t);
  holds_tree : rep (memory T) (pid None q) t;
  holds_nodup : NoDup (path_ids q ++ ids t);
}.

(** ** Positions *)

Lemma ids_plug1 f t : ids (plug1 f t) ≡ₚ frame_ids f ++ ids t.
Proof. destruct f as [[] i b sib]; cbn; [|solve_Permutation]. rewrite (cons_middle i). solve_Permutation. Qed.

Lemma ids_plug1_eq f t t' : ids t = ids t' -> ids (plug1 f t) = ids (plug1 f t').
Proof. intros E. destruct f as [[] i b sib]; cbn; now rewrite E. Qed.

Lemma ids_plug_perm q t : ids (plug q t) ≡ₚ path_ids q ++ ids t.
Proof.
  revert t. induction q as [|f q IH]; intros t; cbn; [done|]. rewrite IH, ids_plug1.
  solve_Permutation.
Qed.

Lemma ids_plug q t : ids (plug q t) = pre q ++ ids t ++ post q.
Proof.
  revert t. induction q as [|[[] i b sib] q IH]; intros t; cbn; rewrite ?app_nil_r; [done| |]; rewrite IH; cbn;
    now rewrite <- !app_assoc.
Qed.

Lemma ids_plug_eq q t t' : ids t = ids t' -> ids (plug q t) = ids (plug q t').
Proof. intros E. now rewrite !ids_plug, E. Qed.

Lemma plug_app q q' t : plug (q ++ q') t = plug q' (plug q t).
Proof. revert t. induction q as [|f q IH]; intros t; cbn; auto. Qed.

Lemma path_ids_app q q' : path_ids (q ++ q') = path_ids q ++ path_ids q'.
Proof. induction q as [|f q IH]; cbn; [done|]. now rewrite IH, app_assoc. Qed.

Lemma holds_up T f q t : holds T (f :: q) t <-> holds T q (plug1 f t).
Proof.
  assert (Hp : NoDup (path_ids (f :: q) ++ ids t) <-> NoDup (path_ids q ++ ids (plug1 f t))).
  { apply NoDup_Permutation_proper. rewrite ids_plug1. cbn. solve_Permutation. }
  destruct f as [[] i b sib]; cbn in *; split; intros [H1 H2 H3 H4]; cbn in *; split; cbn; try tauto; naive_solver.
Qed.

Lemma holds_plug T q q' t : holds T (q ++ q') t <-> holds T q' (plug q t).
Proof. revert t. induction q as [|f q IH]; intros t; cbn; [done|]. rewrite holds_up. apply IH. Qed.

Lemma holds_all T q t : holds T q t <-> holds T [] (plug q t).
Proof. rewrite <- holds_plug, app_nil_r. done. Qed.

(** Every node of the tree is at some position. *)
Lemma ids_position t i : i ∈ ids t -> exists q l b r, t = plug q (Br l i b r).
Proof.
  induction t as [|l IHl j b r IHr]; cbn; [now intros ?%elem_of_nil|].
  rewrite elem_of_app, elem_of_cons. intros [H|[ -> |H]].
  - destruct (IHl H) as (q & l' & b' & r' & -> ). exists (q ++ [Frame false j b r]), l', b', r'. now rewrite plug_app.
  - now exists [], l, b, r.
  - destruct (IHr H) as (q & l' & b' & r' & -> ). exists (q ++ [Frame true j b l]), l', b', r'. now rewrite plug_app.
Qed.

Lemma rep_seg_app h par q q' hole :
  rep_seg h par (q ++ q') hole <-> rep_seg h (pid par q') q hole /\ rep_seg h par q' (top q hole).
Proof.
  revert hole. induction q as [|[s i b sib] q IH]; intros hole; cbn; [tauto|]. rewrite IH.
  replace (pid par (q ++ q')) with (pid (pid par q') q) by now destruct q. tauto.
Qed.

(** Every node is in the memory. *)
Lemma rep_is_Some h par t i : rep h par t -> i ∈ ids t -> is_Some (h !! i).
Proof.
  revert par. induction t as [|l IHl j b r IHr]; intros par; cbn; [now intros _ ?%elem_of_nil|].
  intros (E & Hl & Hr). rewrite elem_of_app, elem_of_cons. intros [H|[ -> |H]]; [eauto|rewrite E; eauto|eauto].
Qed.

Lemma seg_is_Some h par q hole i : rep_seg h par q hole -> i ∈ path_ids q -> is_Some (h !! i).
Proof.
  revert hole. induction q as [|[s j b sib] q IH]; intros hole; cbn; [now intros _ ?%elem_of_nil|].
  intros (E & Hs & Hq). rewrite elem_of_cons, elem_of_app. intros [ -> |[H|H]]; [rewrite E; eauto|eauto using rep_is_Some|eauto].
Qed.

Lemma holds_is_Some T q t i : holds T q t -> i ∈ path_ids q ++ ids t -> is_Some (memory T !! i).
Proof. intros [_ H1 H2 _] [H|H]%elem_of_app; eauto using rep_is_Some, seg_is_Some. Qed.

(** ** Writes *)

Lemma rep_frame h par t i f : i ∉ ids t -> rep h par t -> rep (alter f i h) par t.
Proof.
  revert par. induction t as [|l IHl j b r IHr]; intros par; cbn; [done|].
  rewrite not_elem_of_app, not_elem_of_cons. intros (Hl & Hj & Hr) (E & H1 & H2).
  rewrite lookup_alter_ne by congruence. auto.
Qed.

Lemma seg_frame h par q hole i f : i ∉ path_ids q -> rep_seg h par q hole -> rep_seg (alter f i h) par q hole.
Proof.
  revert hole. induction q as [|[s j b sib] q IH]; intros hole; cbn; [done|].
  rewrite not_elem_of_cons, not_elem_of_app. intros (Hj & Hs & Hq) (E & H1 & H2).
  rewrite lookup_alter_ne by congruence. auto using rep_frame.
Qed.

(** A subtree is hung below another node. *)
Lemma rep_reparent h par par' l i b r :
  NoDup (ids (Br l i b r)) -> rep h par (Br l i b r) -> rep (alter (with_parent par') i h) par' (Br l i b r).
Proof.
  cbn. rewrite NoDup_app, NoDup_cons. intros (_ & Hl & Hi & _) (E & H1 & H2).
  rewrite lookup_alter_eq, E. split; [done|]. split; apply rep_frame; set_solver.
Qed.

(** Something else is hung below a path. *)
Lemma seg_relink h par s i b sib q hole hole' :
  NoDup (path_ids (Frame s i b sib :: q)) ->
  rep_seg h par (Frame s i b sib :: q) hole ->
  rep_seg (alter (with_link s hole') i h) par (Frame s i b sib :: q) hole'.
Proof.
  cbn. rewrite NoDup_cons. intros (Hi & _) (E & H1 & H2).
  rewrite lookup_alter_eq, E. split; [now destruct s|].
  split; [apply rep_frame|apply seg_frame]; (done || set_solver).
Qed.

(** The top of a piece of a path is hung below another node. *)
Lemma seg_reparent h par par' q s i b sib hole :
  NoDup (path_ids (q ++ [Frame s i b sib])) ->
  rep_seg h par (q ++ [Frame s i b sib]) hole ->
  rep_seg (alter (with_parent par') i h) par' (q ++ [Frame s i b sib]) hole.
Proof.
  rewrite path_ids_app, !rep_seg_app. cbn. rewrite app_nil_r, NoDup_app, !NoDup_cons.
  intros (_ & Hd & Hi & _) (H1 & E & H2 & _).
  split; [apply seg_frame; [set_solver|done]|].
  rewrite lookup_alter_eq, E. split; [done|]. split; [now apply rep_frame|done].
Qed.

(** ** Running the primitives *)

Lemma runs_node T line p n Q : memory T !! p = Some n -> Q n T -> runs (node line p) Q T.
Proof. intros E H. unfold node. step_eff. step_eff. now rewrite E. Qed.

Lemma alter_known (h : mem) i f n : h !! i = Some n -> <[i := f n]> h = alter f i h.
Proof.
  intros E. apply map_eq. intros j. destruct (decide (i = j)) as [ <- |Hj].
  - now rewrite lookup_insert_eq, lookup_alter_eq, E.
  - now rewrite lookup_insert_ne, lookup_alter_ne.
Qed.

Lemma runs_set_node T line p n f Q :
  memory T !! p = Some n -> Q tt (Tree (root T) (alter f p (memory T))) -> runs (set_node line p f) Q T.
Proof.
  intros E H. unfold set_node. step_eff. apply (runs_node _ _ _ n); [done|]. step_eff. now rewrite (alter_known _ _ _ _ E).
Qed.

Lemma runs_deref T line p Q : Q p T -> runs (deref line (Some p)) Q T.
Proof. done. Qed.

(** Writing the link above a position. *)
Definition relinked (q : list frame) (hole : option nat) (h : mem) : mem :=
  match q with [] => h | Frame s i _ _ :: _ => alter (with_link s hole) i h end.

Lemma runs_hang T line q old hole Q :
  rep_seg (memory T) None q (Some old) -> old ∉ path_ids q -> root T = top q (Some old) ->
  Q tt (Tree (top q hole) (relinked q hole (memory T))) ->
  runs (hang line (pid None q) (fun n => points_to (link1 n) old) hole) Q T.
Proof.
  intros Hq Ho Hr H. destruct q as [|[s i b sib] q]; cbn in *; [done|].
  destruct Hq as (E & _). step_eff. apply (runs_node _ _ _ _ _ E). apply (runs_set_node _ _ _ _ _ _ E).
  rewrite Hr. replace (points_to _ old) with s; [done|]. unfold points_to; cbn. destruct s.
  - now rewrite bool_decide_true.
  - rewrite bool_decide_false; [done|]. destruct sib; cbn in *; [done|]. set_solver.
Qed.

Lemma seg_relinked h q old hole :
  NoDup (path_ids q) -> rep_seg h None q old -> rep_seg (relinked q hole h) None q hole.
Proof. destruct q as [|[s i b sib] q]; cbn [relinked]; [done|]. apply seg_relink. Qed.

Lemma relinked_rep h q hole par t :
  (forall i, i ∈ path_ids q -> i ∉ ids t) -> rep h par t -> rep (relinked q hole h) par t.
Proof.
  destruct q as [|[s i b sib] q]; cbn [relinked]; [done|]. intros Hd. apply rep_frame, Hd. cbn. set_solver.
Qed.

Lemma relinked_lookup h q hole j : j ∉ path_ids q -> relinked q hole h !! j = h !! j.
Proof.
  destruct q as [|[s i b sib] q]; cbn [relinked]; [done|]. cbn. intros Hj.
  rewrite lookup_alter_ne; [done|]. set_solver.
Qed.

(** The balance of a node. *)
Lemma set_balance_ok T line q l i b b' r :
  holds T q (Br l i b r) ->
  runs (set_node line i (with_balance b')) (fun _ T' => holds T' q (Br l i b' r)) T.
Proof.
  intros [H1 H2 H3 H4]. cbn in H3. destruct H3 as (E & H5 & H6).
  apply (runs_set_node _ _ _ _ _ _ E). pose proof H4 as H4'. cbn in H4.
  rewrite !NoDup_app, NoDup_cons in H4. destruct H4 as (_ & Hd & _ & Hl & Hi & _).
  split; cbn; [done| | |done].
  - apply seg_frame; [|done]. set_solver.
  - rewrite lookup_alter_eq, E. split; [done|]. split; apply rep_frame; set_solver.
Qed.

(** ** Rotation

    [_BAVL_rotate] on the trees of [BAVLRep], with the tactics that run the
    operations of the tree. *)

Open Scope Z_scope.

Lemma runs_reparent T line par p t Q :
  rep (memory T) par t ->
  Q tt (match rt t with Some i => Tree (root T) (alter (with_parent (Some p)) i (memory T)) | None => T end) ->
  runs (reparent line (rt t) p) Q T.
Proof. destruct t as [|l i b r]; cbn; [done|]. intros (E & _) H. now apply (runs_set_node _ _ _ _ _ _ E). Qed.

(** The memory after [reparent]. *)
Definition reparented (t : tree) (p : nat) (h : mem) : mem :=
  match rt t with Some i => alter (with_parent (Some p)) i h | None => h end.

Lemma reparented_rep h par p t : NoDup (ids t) -> rep h par t -> rep (reparented t p h) (Some p) t.
Proof. destruct t; [done|]. apply rep_reparent. Qed.

Lemma reparented_frame h par p t t' :
  (forall i, i ∈ ids t -> i ∉ ids t') -> rep h par t' -> rep (reparented t p h) par t'.
Proof. unfold reparented. destruct t; cbn; [done|]. intros Hd. apply rep_frame, Hd. set_solver. Qed.

Lemma reparented_seg h par p t q hole :
  (forall i, i ∈ ids t -> i ∉ path_ids q) -> rep_seg h par q hole -> rep_seg (reparented t p h) par q hole.
Proof. unfold reparented. destruct t; cbn; [done|]. intros Hd. apply seg_frame, Hd. set_solver. Qed.

Lemma reparented_lookup h p t j : j ∉ ids t -> reparented t p h !! j = h !! j.
Proof. unfold reparented. destruct t; cbn; [done|]. intros Hj. rewrite lookup_alter_ne; [done|set_solver]. Qed.

Lemma runs_reparented T line par p t Q :
  rep (memory T) par t -> Q tt (Tree (root T) (reparented t p (memory T))) -> runs (reparent line (rt t) p) Q T.
Proof. intros H HQ. apply (runs_reparent _ _ par); [done|]. unfold reparented in HQ. destruct t, T; done. Qed.

(** Lookups in a memory after a few writes. *)
Ltac peek :=
  cbn [memory root link link0 link1 parent balance with_link with_parent with_balance];
  repeat first
    [ rewrite lookup_alter_eq | rewrite lookup_alter_ne by congruence
    | rewrite relinked_lookup by set_solver | rewrite reparented_lookup by set_solver ];
  try eassumption; try reflexivity;
  repeat match goal with E : _ !! _ = Some _ |- _ => rewrite E; clear E end; try reflexivity.

(** One step of a computation on a tree. *)
Ltac run :=
  repeat (cbn [negb link link0 link1 parent balance with_link with_parent with_balance memory root];
    step_eff || lazymatch goal with
    | |- runs (node _ _) _ _ => eapply runs_node; [solve [peek]|]
    | |- runs (set_node _ _ _) _ _ => eapply runs_set_node; [solve [peek]|]
    | |- runs (deref _ (Some _)) _ _ => apply runs_deref
    end); cbn [memory root].

(** What the writes of an operation leave as it is. *)
Ltac keep :=
  repeat first
    [ eassumption
    | eapply reparented_rep; [assumption|]
    | apply rep_frame; [set_solver|]
    | apply relinked_rep; [set_solver|]
    | apply reparented_frame; [set_solver|]
    | apply seg_frame; [set_solver|]
    | eapply seg_relinked; [assumption|]
    | apply reparented_seg; [set_solver|] ].

Lemma rotate_ok T q dir r br C nr bnr A B :
  holds T q (plug1 (Frame (negb dir) r br C) (plug1 (Frame dir nr bnr A) B)) ->
  runs (BAVL_rotate r dir)
    (fun _ T' => holds T' q (plug1 (Frame dir nr bnr A) (plug1 (Frame (negb dir) r br C) B))) T.
Proof.
  intros [H1 H2 H3 H4].
  assert (H5 : NoDup (path_ids q ++ r :: nr :: ids A ++ ids B ++ ids C)).
  { revert H4. apply NoDup_Permutation_proper. apply Permutation_app_head. rewrite !ids_plug1. cbn. solve_Permutation. }
  assert (H6 : NoDup (path_ids q ++ ids (plug1 (Frame dir nr bnr A) (plug1 (Frame (negb dir) r br C) B)))).
  { revert H4. apply NoDup_Permutation_proper, Permutation_app_head. rewrite !ids_plug1. cbn. solve_Permutation. }
  clear H4. rewrite !NoDup_app, !NoDup_cons, !NoDup_app in H5.
  destruct H5 as (Hq & Hdq & Hr & Hnr & HA & HAB & HB & HBC & HC).
  assert (Hne : r <> nr) by set_solver.
  destruct T as [rt0 h].
  destruct dir; cbn in *;
    [destruct H3 as (E & (E' & HrA & HrB) & HrC)|destruct H3 as (E & HrC & E' & HrB & HrA)]; unfold BAVL_rotate; run.
  all: apply (runs_reparented _ _ (Some nr) _ B); [now keep|]; run.
  all: apply (runs_hang _ _ q r (Some nr)); cbn [memory root]; [now keep|set_solver|done|]; run.
  all: split; cbn; [done|now keep| |done]; repeat split; solve [keep|peek].
Qed.
