(* ===== verification/BAVLBal.v ===== *)
(** * Rebalancing

    [_BAVL_rebalance] on the trees of [BAVLRep]: after a subtree has changed its
    height by one, rebalancing gives a tree that is balanced again and has the same
    nodes in the same order. *)

From S2P Require Import Prelude Effect BAVL BAVLRep.

Open Scope Z_scope.

(** ** Balance *)

Fixpoint height (t : tree) : Z := match t with Leaf => 0 | Br l _ _ r => 1 + Z.max (height l) (height r) end.

Fixpoint avl (t : tree) : Prop :=
  match t with
  | Leaf => True
  | Br l _ b r => avl l /\ avl r /\ b = height r - height l /\ -1 <= b <= 1
  end.

(** A path is balanced when a subtree of height [h] is at its bottom. *)
Fixpoint path_avl (q : list frame) (h : Z) : Prop :=
  match q with
  | [] => True
  | Frame s _ b sib :: q =>
      avl sib /\ b = (if s then h - height sib else height sib - h) /\ -1 <= b <= 1 /\
      path_avl q (1 + Z.max h (height sib))
  end.

Lemma height_nonneg t : 0 <= height t.
Proof. induction t; cbn; lia. Qed.

Lemma plug_avl q t : avl t -> path_avl q (height t) -> avl (plug q t).
Proof.
  revert t. induction q as [|[s i b sib] q IH]; intros t Ht; cbn; [done|].
  intros (H1 & H2 & H3 & H4). apply IH.
  - destruct s; cbn; repeat split; auto; lia.
  - destruct s; cbn; [now rewrite Z.max_comm|done].
Qed.

Lemma avl_path q t : avl (plug q t) -> avl t /\ path_avl q (height t).
Proof.
  revert t. induction q as [|[s i b sib] q IH]; intros t; cbn; [done|].
  intros (H1 & H2)%IH. destruct s; cbn in *; destruct H1 as (? & ? & ? & ?); [rewrite Z.max_comm in H2|]; repeat split; auto; lia.
Qed.

(** The result of a transformation that leaves [j] at the top of the subtree. *)
Definition restored (q : list frame) (t : tree) (delta : Z) (r : nat * Z) (T' : BAVL) : Prop :=
  exists l' b' r', let t' := Br l' (fst r) b' r' in
    holds T' q t' /\ avl t' /\ ids t' = ids t /\ snd r - delta = height t' - height t /\
    -1 <= snd r - delta <= 0.

(** [bsidef] *)
Definition sgn (s : bool) : Z := if s then 1 else -1.

Lemma avl_plug1 s i b sib t :
  avl (plug1 (Frame s i b sib) t) <-> avl t /\ avl sib /\ b = sgn s * (height t - height sib) /\ -1 <= b <= 1.
Proof. destruct s; cbn; intuition lia. Qed.

Lemma height_plug1 s i b sib t : height (plug1 (Frame s i b sib) t) = 1 + Z.max (height t) (height sib).
Proof. destruct s; cbn; lia. Qed.

Lemma plug1_shape s i b sib t : exists l r, plug1 (Frame s i b sib) t = Br l i b r.
Proof. destruct s; cbn; eauto. Qed.

Lemma ids_rotate dir r br C nr bnr A B b1 b2 :
  ids (plug1 (Frame dir nr b1 A) (plug1 (Frame (negb dir) r b2 C) B)) =
  ids (plug1 (Frame (negb dir) r br C) (plug1 (Frame dir nr bnr A) B)).
Proof. destruct dir; cbn; now rewrite <- app_assoc. Qed.

(** The balance of the node at the top, or one or two steps below it. *)
Lemma set_balance_at T line q s i b sib t b' :
  holds T q (plug1 (Frame s i b sib) t) ->
  runs (set_node line i (with_balance b')) (fun _ T' => holds T' q (plug1 (Frame s i b' sib) t)) T.
Proof. destruct s; cbn; apply set_balance_ok. Qed.

Lemma set_balance_below T line q f s i b sib t b' :
  holds T q (plug1 f (plug1 (Frame s i b sib) t)) ->
  runs (set_node line i (with_balance b')) (fun _ T' => holds T' q (plug1 f (plug1 (Frame s i b' sib) t))) T.
Proof.
  intros H. apply holds_up in H. eapply eff_mono; [exact (set_balance_at _ _ _ _ _ _ _ _ _ H)|].
  intros [] T' H'. now apply holds_up.
Qed.

(** ** Transformations *)

Lemma flip s i b x y : plug1 (Frame s i b x) y = plug1 (Frame (negb s) i b y) x.
Proof. now destruct s. Qed.

Lemma flip' s i b x y : plug1 (Frame (negb s) i b x) y = plug1 (Frame s i b y) x.
Proof. now destruct s. Qed.

(** What is read from the memory at a position. *)
Lemma holds_at T q s i b sib t :
  holds T q (plug1 (Frame s i b sib) t) ->
  exists n, memory T !! i = Some n /\ parent n = pid None q /\ link s n = rt t /\ link (negb s) n = rt sib /\ balance n = b.
Proof. intros [_ _ H _]. destruct s; cbn in H; destruct H as (E & _); (eexists; split; [exact E|done]). Qed.

Lemma holds_at_below T q f s i b sib t :
  holds T q (plug1 f (plug1 (Frame s i b sib) t)) ->
  exists n, memory T !! i = Some n /\ parent n = Some (fid f) /\ link s n = rt t /\ link (negb s) n = rt sib /\ balance n = b.
Proof. intros H%holds_up. exact (holds_at _ _ _ _ _ _ _ H). Qed.

Lemma rt_plug1 s i b sib t : rt (plug1 (Frame s i b sib) t) = Some i.
Proof. now destruct s. Qed.

(** The children of a tree, seen from one side. *)
Lemma seen_from s t : t <> Leaf -> exists i b A B, t = plug1 (Frame s i b A) B.
Proof. destruct t as [|l i b r]; [done|]. destruct s; [exists i, b, l, r|exists i, b, r, l]; done. Qed.

Lemma height_leaf t : 0 < height t -> t <> Leaf.
Proof. now destruct t. Qed.

Section Restore.
Context (T : BAVL) (q : list frame) (s : bool) (p c : nat) (bc : Z) (A B C : tree) (delta : Z).

Let child := plug1 (Frame (negb s) c bc A) B.
Let before := plug1 (Frame s p (2 * sgn s) C) child.

Context (HT : holds T q before) (HC : avl C) (Hchild : avl child) (Hh : height child = height C + 2).

Lemma single_ok line b1 b2 delta' :
  b1 = sgn s * (height B - height C) -> -1 <= b1 <= 1 ->
  b2 = - sgn s * (1 + Z.max (height B) (height C) - height A) -> -1 <= b2 <= 1 ->
  delta' - delta = Z.max (1 + Z.max (height B) (height C)) (height A) - (height C + 2) ->
  runs (BAVL_rotate p (negb s) ;; set_node line p (with_balance b1) ;;
        set_node (line + 1) c (with_balance b2) ;; mret (c, delta')) (restored q before delta) T.
Proof.
  intros H1 H1' H2 H2' Hd. apply avl_plug1 in Hchild as (HB & HA & _).
  step_eff. eapply eff_mono.
  { apply (rotate_ok T q (negb s) p (2 * sgn s) C c bc A B). now rewrite negb_involutive. }
  rewrite negb_involutive. intros [] T1 HT1. step_eff.
  eapply eff_mono; [exact (set_balance_below _ _ _ _ _ _ _ _ _ _ HT1)|]. intros [] T2 HT2. step_eff.
  eapply eff_mono; [exact (set_balance_at _ _ _ _ _ _ _ _ _ HT2)|]. intros [] T3 HT3. step_eff.
  unfold restored. cbn [fst snd].
  assert (E : exists l r, plug1 (Frame (negb s) c b2 A) (plug1 (Frame s p b1 C) B) = Br l c b2 r) by apply plug1_shape.
  destruct E as (l & r & E). exists l, b2, r. rewrite <- E. split; [exact HT3|].
  split; [|split].
  - rewrite !avl_plug1, height_plug1. destruct s; cbn [sgn negb] in *; intuition lia.
  - pose proof (ids_rotate (negb s) p (2 * sgn s) C c bc A B b2 b1) as E'. now rewrite negb_involutive in E'.
  - unfold before. rewrite !height_plug1, Hh. unfold child in Hh. rewrite height_plug1 in Hh. lia.
Qed.

Lemma double_ok g bg D E0 :
  B = plug1 (Frame s g bg D) E0 -> height B = height A + 1 ->
  runs (BAVL_rotate c s ;; BAVL_rotate p (negb s) ;;
        gn ← node 473 g;
        set_node 473 p (with_balance (- Z.max 0 (balance gn * sgn s) * sgn s)) ;;
        set_node 474 c (with_balance (Z.max 0 (- balance gn * sgn s) * sgn s)) ;;
        set_node 475 g (with_balance 0) ;;
        mret (g, delta - 1)) (restored q before delta) T.
Proof.
  intros EB Hhb. subst B. apply avl_plug1 in Hchild as (HB & HA & Hbc & _). apply avl_plug1 in HB as (HE & HD & Hbg & Hbg').
  unfold before, child in *. rewrite height_plug1 in Hhb, Hh. rewrite (height_plug1 s g bg) in Hh.
  apply holds_up in HT. step_eff. eapply eff_mono; [exact (rotate_ok _ _ _ _ _ _ _ _ _ _ HT)|].
  intros [] T1 HT1. apply (proj1 (holds_up _ _ _ _)) in HT1. step_eff. rewrite (flip s g) in HT1. eapply eff_mono.
  { apply (rotate_ok T1 q (negb s) p). rewrite negb_involutive. exact HT1. }
  rewrite negb_involutive. intros [] T2 HT2. step_eff.
  destruct (holds_at _ _ _ _ _ _ _ HT2) as (n & En & _ & _ & _ & Hn). apply (runs_node _ _ _ _ _ En). rewrite Hn. step_eff.
  eapply eff_mono; [exact (set_balance_below _ _ _ _ _ _ _ _ _ _ HT2)|]. intros [] T3 HT3. step_eff.
  rewrite flip', (flip' s c) in HT3. rewrite <- (flip' s c) in HT3.
  eapply eff_mono; [exact (set_balance_below _ _ _ _ _ _ _ _ _ _ HT3)|]. intros [] T4 HT4. step_eff.
  eapply eff_mono; [exact (set_balance_at _ _ _ _ _ _ _ _ _ HT4)|]. intros [] T5 HT5. step_eff.
  unfold restored. cbn [fst snd].
  match type of HT5 with holds _ _ (plug1 (Frame ?s ?g ?b ?x) ?t) => destruct (plug1_shape s g b x t) as (l & r & E) end.
  exists l, 0, r. rewrite <- E. split; [exact HT5|]. split; [|split].
  - rewrite !avl_plug1, !height_plug1. destruct s; cbn [sgn negb] in *; intuition lia.
  - destruct s; cbn; rewrite <- !app_assoc; cbn; now rewrite <- ?app_assoc.
  - rewrite !height_plug1. destruct s; cbn [sgn] in *; lia.
Qed.

End Restore.

Lemma restore_ok T q s p C X delta :
  holds T q (plug1 (Frame s p (2 * sgn s) C) X) -> avl C -> avl X -> height X = height C + 2 ->
  runs (restore p delta) (restored q (plug1 (Frame s p (2 * sgn s) C) X) delta) T.
Proof.
  intros HT HC HX Hh. pose proof (height_nonneg C) as Hpos.
  destruct (seen_from (negb s) X) as (c & bc & A & B & -> ); [apply height_leaf; lia|].
  destruct (holds_at _ _ _ _ _ _ _ HT) as (n & En & _ & Hl & _ & Hb). rewrite rt_plug1 in Hl.
  unfold restore. step_eff. apply (runs_node _ _ _ _ _ En). rewrite Hb.
  replace (2 * sgn s =? 2) with s by now destruct s. rewrite Hl. step_eff. apply runs_deref.
  destruct (holds_at_below _ _ _ _ _ _ _ _ HT) as (cn & Ec & _ & Hcl & _ & Hcb). step_eff. apply (runs_node _ _ _ _ _ Ec).
  rewrite Hcb. change (if s then 1 else -1) with (sgn s).
  pose proof HX as HX'. apply avl_plug1 in HX' as (HB & HA & Hbc & Hbc'). pose proof Hh as Hh'. rewrite height_plug1 in Hh'.
  assert (Hbs : bc * sgn s = height A - height B) by (destruct s; cbn [sgn negb] in *; lia).
  destruct (Z.eqb_spec (bc * sgn s) 1); [|destruct (Z.eqb_spec (bc * sgn s) 0); [|destruct (Z.eqb_spec (bc * sgn s) (-1))]].
  - apply (single_ok _ _ _ _ _ _ _ _ _ _ HT HC HX Hh 457); destruct s; cbn [sgn negb] in *; lia.
  - apply (single_ok _ _ _ _ _ _ _ _ _ _ HT HC HX Hh 464); destruct s; cbn [sgn negb] in *; lia.
  - destruct (seen_from s B) as (g & bg & D & E0 & EB); [apply height_leaf; pose proof (height_nonneg A); lia|].
    subst B. rewrite rt_plug1 in Hcl. rewrite Hcl. step_eff. apply runs_deref.
    apply (double_ok _ _ _ _ _ _ _ _ _ _ HT HC HX Hh g bg D E0); [done|lia].
  - destruct s; cbn [sgn negb] in *; lia.
Qed.

(** ** Going up *)

Lemma adjust_ok T q s i b sib c old d :
  holds T (Frame s i b sib :: q) c -> avl c -> avl sib -> b = sgn s * (old - height sib) -> -1 <= b <= 1 ->
  height c = old + d -> d = 1 \/ d = -1 ->
  runs (adjust i s d)
    (fun top T' => exists l' b' r', let t' := Br l' (fst top) b' r' in
       holds T' q t' /\ avl t' /\ ids t' = ids (plug1 (Frame s i b sib) c) /\
       height t' = 1 + Z.max old (height sib) + snd top /\ -1 <= snd top <= 1) T.
Proof.
  intros HT Hc Hs Eb Hb Hh Hd. apply holds_up in HT.
  destruct (holds_at _ _ _ _ _ _ _ HT) as (n & En & _ & _ & _ & Hn). unfold adjust.
  step_eff. apply (runs_node _ _ _ _ _ En). rewrite Hn. set (delta := Z.max d _ - _).
  assert (Hdelta : delta = Z.max (height c) (height sib) - Z.max old (height sib))
    by (unfold delta; destruct s; cbn [BAVL_OPTNEG sgn] in *; lia).
  clearbody delta. step_eff. step_eff; [destruct s; cbn [sgn] in *; lia|].
  step_eff. eapply eff_mono; [exact (set_balance_at _ _ _ _ _ _ _ _ _ HT)|]. intros [] T1 HT1.
  set (b1 := b - BAVL_OPTNEG d s) in *.
  assert (Eb1 : b1 = sgn s * (height c - height sib)) by (unfold b1; destruct s; cbn [BAVL_OPTNEG sgn] in *; lia).
  clearbody b1. destruct (holds_at _ _ _ _ _ _ _ HT1) as (n1 & En1 & _ & _ & _ & Hn1).
  step_eff. apply (runs_node _ _ _ _ _ En1). rewrite Hn1.
  assert (Hids : ids (plug1 (Frame s i b1 sib) c) = ids (plug1 (Frame s i b sib) c)) by now destruct s.
  assert (Hheight : height (plug1 (Frame s i b1 sib) c) = 1 + Z.max old (height sib) + delta)
    by (rewrite height_plug1; lia).
  assert (Hfix : forall top T', restored q (plug1 (Frame s i b1 sib) c) delta top T' ->
    b1 = 2 * sgn s \/ b1 = - 2 * sgn s ->
    exists l' b' r', let t' := Br l' (fst top) b' r' in
      holds T' q t' /\ avl t' /\ ids t' = ids (plug1 (Frame s i b sib) c) /\
      height t' = 1 + Z.max old (height sib) + snd top /\ -1 <= snd top <= 1).
  { intros top T' (l' & b' & r' & H1 & H2 & H3 & H4 & H4') H5. exists l', b', r'. cbn zeta.
    split; [done|]. split; [done|]. split; [congruence|]. split; [lia|].
    destruct s; cbn [sgn] in *; lia. }
  destruct (Z.eq_dec b1 (2 * sgn s)) as [E2|N2]; [|destruct (Z.eq_dec b1 (-2 * sgn s)) as [E2|N2']].
  - replace ((b1 =? 2) || (b1 =? -2)) with true by (destruct s; cbn [sgn] in *; lia).
    subst b1. eapply eff_mono; [|intros top T' Ht; apply (Hfix top T' Ht); lia]. rewrite E2 in *.
    apply restore_ok; auto. destruct s; cbn [sgn] in *; lia.
  - replace ((b1 =? 2) || (b1 =? -2)) with true by (destruct s; cbn [sgn] in *; lia).
    eapply eff_mono; [|intros top T' Ht; apply (Hfix top T' Ht); lia].
    rewrite flip in HT1 |- *. replace b1 with (2 * sgn (negb s)) in * by (destruct s; cbn [sgn negb] in *; lia).
    apply restore_ok; auto. destruct s; cbn [sgn] in *; lia.
  - replace ((b1 =? 2) || (b1 =? -2)) with false by (destruct s; cbn [sgn] in *; lia).
    step_eff. destruct (plug1_shape s i b1 sib c) as (l & r & E). exists l, b1, r. cbn [fst snd]. rewrite <- E.
    cbn zeta. rewrite <- Hids. split; [done|]. split; [|split; [done|split; [done|]]].
    + apply avl_plug1. destruct s; cbn [sgn] in *; intuition lia.
    + destruct s; cbn [sgn] in *; lia.
Qed.

Lemma rebalance_ok q : forall fuel T s i b sib c old d,
  holds T (Frame s i b sib :: q) c -> (length q < fuel)%nat ->
  avl c -> path_avl (Frame s i b sib :: q) old -> height c = old + d -> -1 <= d <= 1 ->
  runs (BAVL_rebalance fuel i s d)
    (fun _ T' => exists t', holds T' [] t' /\ avl t' /\ ids t' = ids (plug (Frame s i b sib :: q) c)) T.
Proof.
  induction q as [|[s' i' b' sib'] q IH]; intros fuel T s i b sib c old d HT Hfuel Hc Hpath Hh Hd;
    (destruct fuel as [|fuel]; [cbn in *; lia|]); cbn [BAVL_rebalance].
  all: pose proof (proj1 (holds_up _ _ _ _) HT) as HT0; destruct (holds_at _ _ _ _ _ _ _ HT0) as (n & En & _ & _ & _ & Hb).
  all: pose proof Hpath as (Hsib & Eb & Hb1 & Hpath1).
  all: step_eff; step_eff; [lia|]; step_eff; apply (runs_node _ _ _ _ _ En); rewrite Hb; step_eff; step_eff; [lia|].
  all: (destruct (Z.eqb_spec d 0) as [ -> |Hd0];
    [step_eff; eexists; split; [exact (proj1 (holds_all _ _ _) HT)|]; split; [|done];
     apply plug_avl; [done|]; now rewrite Hh, Z.add_0_r|]).
  all: assert (Es : b = sgn s * (old - height sib)) by (destruct s; cbn [sgn]; lia).
  all: step_eff; eapply eff_mono; [apply (adjust_ok _ _ _ _ _ _ _ _ _ HT Hc Hsib Es Hb1 Hh); lia|].
  all: intros [j delta] T' (l' & b1 & r' & HT' & Ht' & Hids & Hht & Hdelta); cbn [fst snd] in *.
  all: step_eff; step_eff; [lia|]; pose proof (holds_tree _ _ _ HT') as (Ej & _).
  all: step_eff; apply (runs_node _ _ _ _ _ Ej); cbn [parent pid fid].
  - step_eff. eexists. split; [exact HT'|]. split; [done|]. now rewrite Hids.
  - destruct (holds_path _ _ _ HT') as (Ei' & _). step_eff. apply (runs_node _ _ _ _ _ Ei').
    assert (Hside : points_to (link1 (Node (pid None q) (if s' then rt sib' else Some j) (if s' then Some j else rt sib') b')) j = s').
    { unfold points_to; cbn. destruct s'; [now apply bool_decide_true|]. apply bool_decide_false.
      destruct sib' as [|l0 k b0 r0]; [done|]. intros [= ->]. pose proof (holds_nodup _ _ _ HT') as Hn. cbn in Hn.
      apply NoDup_cons in Hn as [_ Hn]. apply NoDup_app in Hn as (_ & Hn & _). set_solver. }
    cbn [rt] in *. rewrite Hside. eapply eff_mono; [eapply (IH fuel T' s' i' b' sib' _ _ delta HT')|].
    + cbn in Hfuel. lia.
    + done.
    + exact Hpath1.
    + lia.
    + lia.
    + intros [] T2 (t2 & H1 & H2 & H3). exists t2. split; [done|]. split; [done|]. rewrite H3.
      cbn [plug]. apply ids_plug_eq, ids_plug1_eq, Hids.
Qed.
