(* ===== verification/BAVLFind.v ===== *)
(** * Lookup and insertion

    The order of the tree, the descent to the place of a value, and [BAVL_Insert],
    [BAVL_Lookup] and [BAVL_LookupExact]. *)

From stdpp Require Import sorting.
From S2P Require Import Prelude Effect BAVL BAVLRep BAVLBal.

Open Scope Z_scope.

(** What the tree needs of its comparator, for the values that satisfy [ok]: the
    documented contract of [BAVL_comparator]. *)
Class Comparator {K : Type} (cmp : K -> K -> Z) (ok : K -> Prop) : Prop := {
  cmp_range a b : ok a -> ok b -> cmp a b = -1 \/ cmp a b = 0 \/ cmp a b = 1;
  cmp_flip a b : ok a -> ok b -> cmp b a = - cmp a b;
  cmp_trans a b c : ok a -> ok b -> ok c -> cmp a b = -1 -> cmp b c = -1 -> cmp a c = -1;
  cmp_same a b c : ok a -> ok b -> ok c -> cmp a b = 0 -> cmp a c = cmp b c;
}.

(** ** Nodes and memory *)

Lemma holds_size T q t : holds T q t -> (length (path_ids q) + length (ids t) <= size (memory T))%nat.
Proof.
  intros HT. rewrite <- length_app, <- (size_dom (D := gset nat)), <- (size_list_to_set (C := gset nat) (path_ids q ++ ids t)) by exact (holds_nodup _ _ _ HT).
  apply subseteq_size. intros i [Hi]%elem_of_list_to_set%(holds_is_Some _ _ _ _ HT). now apply elem_of_dom.
Qed.

Lemma path_length q : (length q <= length (path_ids q))%nat.
Proof. induction q as [|[s i b sib] q IH]; cbn; [done|]. rewrite length_app. lia. Qed.

Lemma path_depth T q t : holds T q t -> (length q < depth T)%nat.
Proof. intros H%holds_size. pose proof (path_length q). unfold depth. lia. Qed.

Lemma height_ids t : height t <= Z.of_nat (length (ids t)).
Proof. induction t; cbn; [done|]. rewrite length_app. cbn. lia. Qed.

(** The memory outside of the tree does not matter. *)
Lemma rep_insert_frame h par t i n : i ∉ ids t -> rep h par t -> rep (<[i := n]> h) par t.
Proof.
  revert par. induction t as [|l IHl j b r IHr]; intros par; cbn; [done|].
  rewrite not_elem_of_app, not_elem_of_cons. intros (Hl & Hj & Hr) (E & H1 & H2).
  rewrite lookup_insert_ne by congruence. auto.
Qed.

Lemma seg_insert_frame h par q hole i n : i ∉ path_ids q -> rep_seg h par q hole -> rep_seg (<[i := n]> h) par q hole.
Proof.
  revert hole. induction q as [|[s j b sib] q IH]; intros hole; cbn; [done|].
  rewrite not_elem_of_cons, not_elem_of_app. intros (Hj & Hs & Hq) (E & H1 & H2).
  rewrite lookup_insert_ne by congruence. auto using rep_insert_frame.
Qed.

Section Find.
Context {K : Type} (cmp : K -> K -> Z) (value : nat -> K) (ok : K -> Prop) {C : Comparator cmp ok}.

(** The nodes of a tree, in order. *)
Definition ordered (l : list nat) : Prop :=
  StronglySorted (fun i j => cmp (value i) (value j) = -1) l /\ Forall (fun i => ok (value i)) l.

Lemma ordered_app l l' :
  ordered (l ++ l') <-> ordered l /\ ordered l' /\ (forall i j, i ∈ l -> j ∈ l' -> cmp (value i) (value j) = -1).
Proof. unfold ordered. rewrite StronglySorted_app, Forall_app. naive_solver. Qed.

Lemma ordered_cons i l :
  ordered (i :: l) <-> ok (value i) /\ ordered l /\ (forall j, j ∈ l -> cmp (value i) (value j) = -1).
Proof.
  unfold ordered. rewrite Forall_cons. split.
  - intros [[H1 H2]%StronglySorted_inv [H3 H4]]. rewrite Forall_forall in H2. auto.
  - intros (H1 & [H2 H3] & H4). split; [constructor; [done|]|done]. now apply Forall_forall.
Qed.

(** Where [v] belongs: after [l] and before [r]. *)
Definition between (v : K) (l r : list nat) : Prop :=
  (forall i, i ∈ l -> cmp v (value i) = 1) /\ (forall i, i ∈ r -> cmp v (value i) = -1).

Lemma between_left v i l q r :
  ok v -> ordered (l ++ i :: r) -> cmp v (value i) = -1 -> between v (pre q) (post q) ->
  between v (pre q) (i :: r ++ post q).
Proof.
  intros Hv Ho Hc [H1 H2]. split; [done|]. intros j. rewrite elem_of_cons, elem_of_app.
  apply ordered_app in Ho as (_ & Ho & _). apply ordered_cons in Ho as (Hi & [_ Hr] & Ho).
  rewrite Forall_forall in Hr. intros [ -> |[Hj|Hj]]; [done| |auto]. eapply (cmp_trans v (value i)); eauto.
Qed.

Lemma between_right v i l q r :
  ok v -> ordered (l ++ i :: r) -> cmp v (value i) = 1 -> between v (pre q) (post q) ->
  between v (pre q ++ l ++ [i]) (post q).
Proof.
  intros Hv Ho Hc [H1 H2]. split; [|done]. intros j. rewrite !elem_of_app, list_elem_of_singleton.
  apply ordered_app in Ho as ([_ Hl] & Hi & Ho). apply ordered_cons in Hi as (Hi & _).
  rewrite Forall_forall in Hl. intros [Hj|[Hj| -> ]]; [auto| |done].
  assert (E : cmp (value j) v = -1).
  { eapply (cmp_trans (value j) (value i)); eauto; [apply Ho; [done|apply list_elem_of_here]|].
    rewrite (cmp_flip v (value i)) by auto. lia. }
  rewrite (cmp_flip (value j) v) by auto. lia.
Qed.

(** ** The descent *)

Lemma descend_ok v t : forall fuel T q c,
  ok v -> holds T q t -> rt t = Some c -> height t <= Z.of_nat fuel -> ordered (ids t) ->
  between v (pre q) (post q) ->
  runs (descend cmp value fuel v c)
    (fun res T' => T' = T /\
       match res with
       | inl j => j ∈ ids t /\ cmp v (value j) = 0
       | inr (j, s) => exists q' b sib, let q1 := Frame s j b sib :: q' in
           holds T q1 Leaf /\ plug q1 Leaf = plug q t /\ between v (pre q1) (post q1)
       end) T.
Proof.
  induction t as [|l IHl j b r IHr]; intros fuel T q c Hv HT Hc Hfuel Ho Hb; [done|]. injection Hc as <-.
  pose proof (height_nonneg l) as Hhl. pose proof (height_nonneg r) as Hhr.
  cbn in Hfuel. destruct fuel as [|fuel]; [lia|]. cbn [descend].
  pose proof Ho as (Hol & (Hj & Hor & _)%ordered_cons & _)%ordered_app.
  pose proof (holds_tree _ _ _ HT) as (E & _).
  unfold BAVL_compare_values. step_eff. step_eff. step_eff; [destruct (cmp_range v (value j)) as [->|[->| ->]]; auto|]. step_eff.
  destruct (Z.eqb_spec (cmp v (value j)) 0) as [E0|N0].
  { step_eff. split; [done|]. split; [cbn; set_solver|done]. }
  step_eff. apply (runs_node _ _ _ _ _ E).
  destruct (Z.eqb_spec (cmp v (value j)) 1) as [E1|N1].
  - pose proof (between_right _ _ _ _ _ Hv Ho E1 Hb) as Hb'.
    apply (holds_up T (Frame true j b l)) in HT. cbn [link link1]. destruct r as [|rl k rb rr]; cbn [rt].
    + step_eff. split; [done|]. now exists q, b, l.
    + eapply eff_mono; [apply (IHr fuel T _ k Hv HT)|]; [done|lia|done|exact Hb'|].
      intros res T' (-> & H). split; [done|]. destruct res as [i|[i s]]; [|done].
      destruct H as [H ?]. split; [|done]. cbn in *. set_solver.
  - assert (E1 : cmp v (value j) = -1) by (destruct (cmp_range v (value j)) as [?|[?|?]]; auto; lia).
    pose proof (between_left _ _ _ _ _ Hv Ho E1 Hb) as Hb'.
    apply (holds_up T (Frame false j b r)) in HT. cbn [link link0]. destruct l as [|ll k lb lr]; cbn [rt].
    + step_eff. split; [done|]. exists q, b, r. split; [done|]. split; [done|]. cbn. now rewrite app_nil_r.
    + eapply eff_mono; [apply (IHl fuel T _ k Hv HT)|]; [done|lia|done|cbn; now rewrite app_nil_r|].
      intros res T' (-> & H). split; [done|]. destruct res as [i|[i s]]; [|done].
      destruct H as [H ?]. split; [|done]. cbn in *. set_solver.
Qed.

(** ** The operations *)

(** The tree has the nodes [l], in order, and is balanced. *)
Definition represents (T : BAVL) (l : list nat) : Prop :=
  exists t, holds T [] t /\ avl t /\ ids t = l /\ ordered l.

Lemma between_nil v : between v [] [].
Proof. split; now intros i ?%elem_of_nil. Qed.

Lemma ordered_insert p l r : ok (value p) -> ordered (l ++ r) -> between (value p) l r -> ordered (l ++ p :: r).
Proof.
  intros Hp (Hl & Hr & Hlr)%ordered_app [H1 H2]. apply ordered_app. split; [done|]. split; [now apply ordered_cons|].
  intros i j Hi. rewrite elem_of_cons. intros [ -> |Hj]; [|auto].
  destruct Hl as [_ Hl]. rewrite Forall_forall in Hl.
  rewrite (cmp_flip (value p) (value i)) by auto. rewrite H1; [lia|done].
Qed.

(** What the descent from the root finds. *)
Lemma find_ok T t c v :
  ok v -> holds T [] t -> rt t = Some c -> ordered (ids t) ->
  runs (descend cmp value (depth T) v c)
    (fun res T' => T' = T /\
       match res with
       | inl j => j ∈ ids t /\ cmp v (value j) = 0
       | inr (j, s) => exists q b sib, let q1 := Frame s j b sib :: q in
           holds T q1 Leaf /\ plug q1 Leaf = t /\ between v (pre q1) (post q1)
       end) T.
Proof.
  intros Hv HT Hc Ho. apply (descend_ok v t _ T [] c); auto using between_nil.
  pose proof (holds_size _ _ _ HT). pose proof (height_ids t). cbn in *. unfold depth. lia.
Qed.

Lemma insert_leaf {A} T line q s c b sib p (k : eff BAVL A) Q :
  holds T (Frame s c b sib :: q) Leaf -> p ∉ path_ids (Frame s c b sib :: q) ->
  (forall T', holds T' (Frame s c b sib :: q) (Br Leaf p 0 Leaf) -> runs k Q T') ->
  runs (set_node line c (with_link s (Some p)) ;;
        upd_st (fun t => Tree (root t) (<[p := Node (Some c) None None 0]> (memory t))) ;; k) Q T.
Proof.
  intros [H1 H2 H3 H4] Hp Hk. rewrite app_nil_r in H4. pose proof H2 as (E & _).
  step_eff. apply (runs_set_node _ _ _ _ _ _ E). step_eff. step_eff. apply Hk. split; cbn [memory root].
  - exact H1.
  - apply seg_insert_frame; [done|]. now apply (seg_relink _ _ _ _ _ _ _ None).
  - cbn. now rewrite lookup_insert_eq.
  - apply NoDup_app. split; [done|]. cbn [ids app]. split; [|apply NoDup_singleton]. set_solver.
Qed.

Lemma insert_ok T l p :
  represents T l -> p ∉ l -> ok (value p) ->
  runs (BAVL_Insert cmp value p)
    (fun res T' =>
       (fst res = 1 /\ exists l1 l2, l = l1 ++ l2 /\ between (value p) l1 l2 /\ represents T' (l1 ++ p :: l2)) \/
       (fst res = 0 /\ T' = T /\ exists j, snd res = Some j /\ j ∈ l /\ cmp (value p) (value j) = 0)) T.
Proof.
  intros (t & HT & Ht & Hl & Ho) Hp Hok. unfold BAVL_Insert. step_eff. step_eff. rewrite (holds_root _ _ _ HT). cbn [top].
  destruct t as [|tl c b tr]; cbn [rt].
  - step_eff. unfold set_root. step_eff. step_eff. step_eff. step_eff. left. split; [done|].
    exists [], []. cbn in Hl. subst l. split; [done|]. split; [apply between_nil|].
    exists (Br Leaf p 0 Leaf). split; [split; cbn; [done|done|now rewrite lookup_insert_eq|apply NoDup_singleton]|].
    split; [cbn; lia|]. split; [done|]. apply ordered_cons. split; [done|]. split; [repeat constructor|].
    now intros j ?%elem_of_nil.
  - step_eff. rewrite <- Hl in *. eapply eff_mono; [exact (find_ok _ _ _ _ Hok HT eq_refl Ho)|].
    intros [j|[j s]] T' [ -> H].
    + step_eff. right. cbn [fst snd]. eauto.
    + destruct H as (q & b' & sib & H1 & H2 & H3). cbn zeta in *.
      assert (Hids : ids (plug (Frame s j b' sib :: q) Leaf) = pre (Frame s j b' sib :: q) ++ post (Frame s j b' sib :: q))
        by apply ids_plug.
      assert (Hp' : p ∉ path_ids (Frame s j b' sib :: q)).
      { intros Hin. apply Hp. rewrite <- H2, ids_plug_perm, app_nil_r. exact Hin. }
      pose proof (path_depth _ _ _ H1) as Hdepth. cbn [length] in Hdepth.
      rewrite <- H2 in Ht. apply avl_path in Ht as [_ Hpath].
      apply (insert_leaf _ _ _ _ _ _ _ _ _ _ H1 Hp'). intros T1 HT1. step_eff.
      eapply eff_mono; [apply (rebalance_ok _ _ _ _ _ _ _ _ 0 1 HT1)|]; [lia|cbn; lia|exact Hpath|done|lia|].
      intros [] T2 (t2 & HT2 & Ht2 & Hids2). step_eff. left. split; [done|].
      exists (pre (Frame s j b' sib :: q)), (post (Frame s j b' sib :: q)). rewrite <- H2 in *.
      split; [done|]. split; [done|]. exists t2. split; [done|]. split; [done|].
      split; [rewrite Hids2; apply ids_plug|]. apply ordered_insert; [done| |done]. now rewrite <- Hids.
Qed.

Lemma lookup_exact_ok T l v :
  represents T l -> ok v ->
  runs (BAVL_LookupExact cmp value v)
    (fun res T' => T' = T /\
       match res with
       | Some j => j ∈ l /\ cmp v (value j) = 0
       | None => forall j, j ∈ l -> cmp v (value j) <> 0
       end) T.
Proof.
  intros (t & HT & Ht & Hl & Ho) Hok. unfold BAVL_LookupExact. step_eff. step_eff. rewrite (holds_root _ _ _ HT). cbn [top].
  rewrite <- Hl in *. destruct t as [|tl c b tr]; cbn [rt].
  - step_eff. split; [done|]. now intros j ?%elem_of_nil.
  - step_eff. eapply eff_mono; [exact (find_ok _ _ _ _ Hok HT eq_refl Ho)|].
    intros [j|[j s]] T' [ -> H]; step_eff; split; [done|exact H|done|].
    destruct H as (q & b' & sib & _ & <- & [H1 H2]). cbn zeta in *.
    intros i. rewrite ids_plug, !elem_of_app. intros [Hi|[Hi|Hi]]; [rewrite H1 by done; lia|now apply elem_of_nil in Hi|rewrite H2 by done; lia].
Qed.

(** [BAVL_Lookup] finds an equal node or else a neighbour of the place of [v]. *)
Lemma lookup_ok T l v :
  represents T l -> ok v ->
  runs (BAVL_Lookup cmp value v)
    (fun res T' => T' = T /\
       match res with
       | None => l = []
       | Some j => j ∈ l /\ (cmp v (value j) = 0 \/
           exists l1 l2, l = l1 ++ l2 /\ between v l1 l2 /\ (last l1 = Some j \/ head l2 = Some j))
       end) T.
Proof.
  intros (t & HT & Ht & Hl & Ho) Hok. unfold BAVL_Lookup. step_eff. step_eff. rewrite (holds_root _ _ _ HT). cbn [top].
  rewrite <- Hl in *. destruct t as [|tl c b tr]; cbn [rt].
  - step_eff. done.
  - step_eff. eapply eff_mono; [exact (find_ok _ _ _ _ Hok HT eq_refl Ho)|].
    intros [j|[j s]] T' [ -> H]; step_eff; (split; [done|]); [tauto|].
    destruct H as (q & b' & sib & _ & <- & Hb). cbn zeta in *. rewrite ids_plug. cbn [ids app].
    split; [destruct s; cbn; set_solver|]. right.
    exists (pre (Frame s j b' sib :: q)), (post (Frame s j b' sib :: q)). split; [done|]. split; [done|].
    destruct s; cbn; [left|now right]. now rewrite !last_app.
Qed.

End Find.
