(* ===== verification/BAVLRemove.v ===== *)
(** * Exchanging two nodes

    [_BAVL_swap_nodes] as [BAVL_Remove] calls it: a node and the largest node of its
    left subtree, which may be its child, change places. *)

From stdpp Require Import sorting.
From S2P Require Import Prelude Effect BAVL BAVLRep BAVLBal BAVLFind.

Open Scope Z_scope.

(** Writing a link in the middle of a path. *)
Lemma runs_hang_seg T line par q old hole Q :
  q <> [] -> rep_seg (memory T) par q (Some old) -> old ∉ path_ids q ->
  Q tt (Tree (root T) (relinked q hole (memory T))) ->
  runs (hang line (pid par q) (fun n => points_to (link1 n) old) hole) Q T.
Proof.
  intros Hne Hq Ho H. destruct q as [|[s i b sib] q]; cbn in *; [done|].
  destruct Hq as (E & _). step_eff. apply (runs_node _ _ _ _ _ E). apply (runs_set_node _ _ _ _ _ _ E).
  replace (points_to _ old) with s; [done|]. unfold points_to; cbn. destruct s.
  - now rewrite bool_decide_true.
  - rewrite bool_decide_false; [done|]. destruct sib; cbn in *; [done|]. set_solver.
Qed.

Lemma seg_relinked' h par q old hole :
  NoDup (path_ids q) -> rep_seg h par q old -> rep_seg (relinked q hole h) par q hole.
Proof. destruct q as [|[s i b sib] q]; cbn [relinked]; [done|]. apply seg_relink. Qed.

Lemma relinked_seg h q hole par q' hole' :
  (forall i, i ∈ path_ids q -> i ∉ path_ids q') -> rep_seg h par q' hole' -> rep_seg (relinked q hole h) par q' hole'.
Proof.
  destruct q as [|[s i b sib] q]; cbn [relinked]; [done|]. intros Hd. apply seg_frame, Hd. cbn. set_solver.
Qed.

(** The nodes around the two: [p] at the top of [q], [m] at the bottom of [q'], the
    path between them. *)
Section Swap.
Context (q' q : list frame) (p m : nat) (r lm : tree).

(** All these nodes are different. *)
Record disjoint_parts : Prop := Disjoint {
  dp_q : NoDup (path_ids q);
  dp_q' : NoDup (path_ids q');
  dp_r : NoDup (ids r);
  dp_lm : NoDup (ids lm);
  dp_pm : p <> m;
  dp_p : p ∉ path_ids q /\ p ∉ path_ids q' /\ p ∉ ids r /\ p ∉ ids lm;
  dp_m : m ∉ path_ids q /\ m ∉ path_ids q' /\ m ∉ ids r /\ m ∉ ids lm;
  dp_qq' : forall i, i ∈ path_ids q -> i ∉ path_ids q';
  dp_q'q : forall i, i ∈ path_ids q' -> i ∉ path_ids q;
  dp_qr : forall i, i ∈ path_ids q -> i ∉ ids r;
  dp_rq : forall i, i ∈ ids r -> i ∉ path_ids q;
  dp_ql : forall i, i ∈ path_ids q -> i ∉ ids lm;
  dp_lq : forall i, i ∈ ids lm -> i ∉ path_ids q;
  dp_q'r : forall i, i ∈ path_ids q' -> i ∉ ids r;
  dp_rq' : forall i, i ∈ ids r -> i ∉ path_ids q';
  dp_q'l : forall i, i ∈ path_ids q' -> i ∉ ids lm;
  dp_lq' : forall i, i ∈ ids lm -> i ∉ path_ids q';
  dp_rl : forall i, i ∈ ids r -> i ∉ ids lm;
  dp_lr : forall i, i ∈ ids lm -> i ∉ ids r;
}.

Lemma disjoint_nodup b bm :
  NoDup (path_ids (q' ++ Frame false p b r :: q) ++ ids (plug1 (Frame true m bm lm) Leaf)) -> disjoint_parts.
Proof.
  intros H. assert (H' : NoDup (p :: m :: path_ids q ++ path_ids q' ++ ids r ++ ids lm)).
  { revert H. apply NoDup_Permutation_proper. rewrite path_ids_app. cbn. solve_Permutation. }
  rewrite !NoDup_cons, !NoDup_app in H'. destruct H' as (H1 & H2 & H3 & H4 & H5 & H6 & H7 & H8 & H9).
  split; try done; set_solver.
Qed.

End Swap.

(** Lookups and what the writes leave, with the facts about [disjoint_parts] at hand. *)
Ltac apart := first [assumption | congruence | solve [eauto]].

Ltac peek' :=
  cbn [memory root link link0 link1 parent balance with_link with_parent with_balance];
  repeat first
    [ rewrite lookup_alter_eq | rewrite lookup_alter_ne by congruence
    | rewrite relinked_lookup by apart | rewrite reparented_lookup by apart ];
  try eassumption; try reflexivity;
  repeat match goal with E : _ !! _ = Some _ |- _ => rewrite E; clear E end; try reflexivity.

Ltac run' :=
  repeat (cbn [negb link link0 link1 parent balance with_link with_parent with_balance memory root];
    step_eff || lazymatch goal with
    | |- runs (node _ _) _ _ => eapply runs_node; [solve [peek']|]
    | |- runs (set_node _ _ _) _ _ => eapply runs_set_node; [solve [peek']|]
    end); cbn [memory root].

Ltac keep' :=
  repeat first
    [ eassumption
    | eapply reparented_rep; [apart|]
    | eapply seg_relinked'; [apart|]
    | apply rep_frame; [apart|]
    | apply relinked_rep; [apart|]
    | apply reparented_frame; [apart|]
    | apply seg_frame; [apart|]
    | apply relinked_seg; [apart|]
    | apply reparented_seg; [apart|] ].

(** The parts of the memory the exchange works on. *)
Record parts (T : BAVL) (q' q : list frame) (p m : nat) (b bm : Z) (r lm : tree) : Prop := Parts {
  pt_root : root T = top q (Some p);
  pt_p : memory T !! p = Some (Node (pid None q) (top q' (Some m)) (rt r) b);
  pt_m : memory T !! m = Some (Node (pid (Some p) q') (rt lm) None bm);
  pt_q : rep_seg (memory T) None q (Some p);
  pt_q' : rep_seg (memory T) (Some p) q' (Some m);
  pt_r : rep (memory T) (Some p) r;
  pt_lm : rep (memory T) (Some m) lm;
}.

Lemma top_app q q' hole : top (q ++ q') hole = top q' (top q hole).
Proof. revert hole. induction q as [|f q IH]; intros hole; cbn; auto. Qed.

Lemma holds_parts T q' q p m b bm r lm :
  holds T (q' ++ Frame false p b r :: q) (plug1 (Frame true m bm lm) Leaf) <->
  parts T q' q p m b bm r lm /\
  NoDup (path_ids (q' ++ Frame false p b r :: q) ++ ids (plug1 (Frame true m bm lm) Leaf)).
Proof.
  split.
  - intros [H1 H2 H3 H4]. split; [|done]. apply rep_seg_app in H2 as [H2 (H5 & H6 & H7)]. cbn in *.
    destruct H3 as (H8 & H9 & _). rewrite top_app in H1. split; try done.
    rewrite H8. now destruct q'.
  - intros [[H1 H2 H3 H4 H5 H6 H7] H8]. split; [now rewrite top_app| | |done].
    + apply rep_seg_app. cbn. tauto.
    + cbn. rewrite H3. now destruct q'.
Qed.

Lemma swap_children_ok T line s n1 n2 m1 m2 t1 t2 par1 par2 Q :
  memory T !! n1 = Some m1 -> memory T !! n2 = Some m2 -> n1 <> n2 ->
  link s m1 = rt t1 -> link s m2 = rt t2 ->
  rep (memory T) par1 t1 -> rep (memory T) par2 t2 ->
  n1 ∉ ids t1 -> n1 ∉ ids t2 -> n2 ∉ ids t1 -> n2 ∉ ids t2 -> (forall i, i ∈ ids t2 -> i ∉ ids t1) ->
  Q tt (Tree (root T) (reparented t1 n2 (alter (with_link s (rt t1)) n2 (reparented t2 n1 (alter (with_link s (rt t2)) n1 (memory T)))))) ->
  runs (swap_children line s n1 n2) Q T.
Proof.
  intros E1 E2 Hne L1 L2 R1 R2 H1 H2 H3 H4 Hd HQ. unfold swap_children. run'. rewrite L1, L2.
  apply (runs_reparented _ _ par2); [keep'|]. run'. apply (runs_reparented _ _ par1); [keep'|]. exact HQ.
Qed.

Lemma swap_apart_ok T q0 s1 k1 b1 sk1 q p m b bm r lm :
  let q' := q0 ++ [Frame s1 k1 b1 sk1] in
  parts T q' q p m b bm r lm -> disjoint_parts q' q p m r lm ->
  runs (swap_apart p m) (fun _ T' => parts T' q' q m p bm b r lm) T.
Proof.
  intros q' [H1 H2 H3 H4 H5 H6 H7] [].
  assert (Hk : k1 ∈ path_ids q') by (unfold q'; rewrite path_ids_app; cbn; set_solver).
  assert (Hkp : k1 <> p) by (destruct dp_p0 as (_ & ? & _); congruence).
  assert (Hkm : k1 <> m) by (destruct dp_m0 as (_ & ? & _); congruence).
  assert (Htop : forall h, top q' h = Some k1) by (intros h; unfold q'; now rewrite top_app).
  assert (Hq' : q' <> []) by (unfold q'; now destruct q0).
  destruct dp_p0 as (? & ? & ? & ?), dp_m0 as (? & ? & ? & ?).
  unfold swap_apart. run'.
  apply (runs_hang_seg _ _ (Some p) q' m (Some p)); [done|keep'|done|]. run'.
  apply (runs_hang _ _ q p (Some m)); cbn [memory root]; [keep'|done|done|]. run'.
  unfold swap_children at 1. run'. rewrite Htop.
  apply (runs_reparented _ _ (Some m) p lm); [keep'|]. run'.
  match goal with |- runs _ _ (Tree _ ?h) => assert (Hseg : rep_seg h (Some p) q' (Some p)) by keep' end.
  destruct (seg_is_Some _ _ _ _ _ Hseg Hk) as [n En].
  cbn [reparent]. eapply runs_set_node; [exact En|]. clear n En. cbn [memory root].
  assert (Hkr : k1 ∉ ids r) by auto. assert (Hkl : k1 ∉ ids lm) by auto. assert (Hkq : k1 ∉ path_ids q) by auto.
  eapply (swap_children_ok _ _ true p m _ _ r Leaf (Some p) None);
    [solve [peek']|solve [peek']|done|done|done|keep'|done|done|now apply not_elem_of_nil|done|now apply not_elem_of_nil|..].
  { intros i Hi. now apply elem_of_nil in Hi. }
  cbn [reparented rt]. split; cbn [memory root].
  - done.
  - peek'. now rewrite Htop.
  - peek'. now destruct q0.
  - keep'.
  - apply reparented_seg; [apart|]. do 2 (apply seg_frame; [apart|]). now apply (seg_reparent _ (Some p)).
  - keep'.
  - keep'.
Qed.

Lemma not_root n t : n ∉ ids t -> points_to (rt t) n = false.
Proof. intros H. apply bool_decide_false. destruct t; cbn in *; [done|]. set_solver. Qed.

Lemma swap_connected_ok T q p m b bm r lm :
  parts T [] q p m b bm r lm -> disjoint_parts [] q p m r lm ->
  runs (swap_connected p m) (fun _ T' => parts T' [] q m p bm b r lm) T.
Proof.
  intros [H1 H2 H3 H4 H5 H6 H7] []. destruct dp_p0 as (? & ? & ? & ?), dp_m0 as (? & ? & ? & ?). cbn [top pid] in *.
  unfold swap_connected. run'. rewrite (not_root m r) by done. run'.
  apply (runs_reparented _ _ (Some m) p lm); [keep'|]. run'. cbn [reparent]. run'.
  apply (runs_hang _ _ q p (Some m)); cbn [memory root]; [keep'|done|done|]. run'.
  apply (runs_reparented _ _ (Some p) m r); [keep'|].
  split; cbn [memory root top pid]; [done|peek'|peek'|keep'|done|keep'|keep'].
Qed.

(** The exchange, at the positions of the tree. *)
Lemma swap_nodes_ok T q' q p m b bm r lm :
  holds T (q' ++ Frame false p b r :: q) (plug1 (Frame true m bm lm) Leaf) ->
  runs (BAVL_swap_nodes p m)
    (fun _ T' => holds T' (q' ++ Frame false m b r :: q) (plug1 (Frame true p bm lm) Leaf)) T.
Proof.
  intros HT. apply holds_parts in HT as [HT Hnd]. pose proof (disjoint_nodup _ _ _ _ _ _ _ _ Hnd) as Hd.
  assert (Hd' : disjoint_parts q' q m p r lm) by (destruct Hd; split; auto).
  assert (Hnd' : NoDup (path_ids (q' ++ Frame false m b r :: q) ++ ids (plug1 (Frame true p bm lm) Leaf))).
  { revert Hnd. apply NoDup_Permutation_proper. rewrite !path_ids_app. cbn. solve_Permutation. }
  unfold BAVL_swap_nodes. step_eff. apply (runs_node _ _ _ _ _ (pt_p _ _ _ _ _ _ _ _ _ HT)).
  step_eff. apply (runs_node _ _ _ _ _ (pt_m _ _ _ _ _ _ _ _ _ HT)). cbn [parent].
  assert (Hswap : runs (if points_to (pid (Some p) q') p then swap_connected p m
      else if points_to (pid None q) m then swap_connected m p else swap_apart p m)
      (fun _ T' => parts T' q' q m p bm b r lm) T).
  { destruct q' as [|[s1 k1 b1 sk1] q0 _] using rev_ind.
    - cbn. unfold points_to. rewrite bool_decide_true by done. now apply swap_connected_ok.
    - replace (points_to (pid (Some p) (q0 ++ [Frame s1 k1 b1 sk1])) p) with false; [|symmetry].
      + replace (points_to (pid None q) m) with false; [now apply swap_apart_ok|symmetry].
        apply bool_decide_false. destruct Hd as [_ _ _ _ _ _ Hm]. destruct q as [|[s k kb sk] q]; cbn in *; [done|set_solver].
      + apply bool_decide_false. destruct Hd as [_ _ _ _ _ (_ & Hp & _)]. rewrite path_ids_app in Hp.
        destruct q0 as [|[s k kb sk] q0]; cbn in *; set_solver. }
  step_eff. eapply eff_mono; [exact Hswap|]. intros [] T1 HT1.
  step_eff. apply (runs_node _ _ _ _ _ (pt_m _ _ _ _ _ _ _ _ _ HT1)).
  step_eff. apply (runs_node _ _ _ _ _ (pt_p _ _ _ _ _ _ _ _ _ HT1)). cbn [balance].
  destruct HT1 as [H1 H2 H3 H4 H5 H6 H7], Hd. destruct dp_p0 as (? & ? & ? & ?), dp_m0 as (? & ? & ? & ?).
  run'. apply holds_parts. split; [|done]. split; cbn [memory root]; [done|peek'|peek'|keep'|keep'|keep'|keep'].
Qed.

(** ** Removal, traversal and the self check

    [BAVL_Remove], the functions that walk through the tree in order, and
    [BAVL_Verify]. *)

Open Scope Z_scope.

(** ** The end of a subtree *)

Definition fside (f : frame) : bool := let 'Frame s _ _ _ := f in s.

Lemma subtree_end_ok s t : forall fuel T q c,
  holds T q t -> rt t = Some c -> (length (ids t) <= fuel)%nat ->
  runs (subtree_end fuel s c)
    (fun m T' => T' = T /\ exists q' b X, let e := plug1 (Frame s m b X) Leaf in
       holds T (q' ++ q) e /\ plug q' e = t /\ Forall (fun f => fside f = s) q') T.
Proof.
  assert (Hsize : forall f Y, (length (ids Y) < length (ids (plug1 f Y)))%nat).
  { intros f Y. rewrite ids_plug1. destruct f; cbn. rewrite length_app. lia. }
  induction t as [t IH] using (well_founded_induction (well_founded_ltof _ (fun t => length (ids t)))).
  intros fuel T q c HT Hc Hfuel. destruct (seen_from s t) as (i & b & A & B & -> ); [now destruct t|].
  rewrite rt_plug1 in Hc. injection Hc as <-. pose proof (Hsize (Frame s i b A) B) as Hlt.
  destruct fuel as [|fuel]; [lia|]. cbn [subtree_end].
  destruct (holds_at _ _ _ _ _ _ _ HT) as (n & En & _ & Hl & _). step_eff. apply (runs_node _ _ _ _ _ En). rewrite Hl.
  destruct (rt B) as [k|] eqn:EB.
  - apply holds_up in HT. eapply eff_mono; [apply (IH B Hlt _ _ _ k HT EB); lia|].
    intros m T' (-> & q' & b' & X & H1 & H2 & H3). split; [done|]. exists (q' ++ [Frame s i b A]), b', X.
    cbn zeta. rewrite <- app_assoc. split; [exact H1|]. split; [now rewrite plug_app, H2|].
    apply Forall_app. split; [done|]. now repeat constructor.
  - destruct B; [|done]. step_eff. split; [done|]. now exists [], b, A.
Qed.

(** ** Unhooking a node *)

Lemma replace_ok T q s p b X :
  holds T q (plug1 (Frame s p b Leaf) X) -> runs (BAVL_replace_subtree p (rt X)) (fun _ T' => holds T' q X) T.
Proof.
  intros HT. destruct (holds_at _ _ _ _ _ _ _ HT) as (n & En & Hn & _). pose proof HT as [H1 H2 H3 H4].
  assert (Hnd : NoDup (p :: path_ids q ++ ids X)).
  { revert H4. apply NoDup_Permutation_proper. rewrite ids_plug1. cbn. solve_Permutation. }
  apply NoDup_cons in Hnd as [Hp Hnd]. rewrite rt_plug1 in *.
  assert (HX : rep (memory T) (Some p) X) by (destruct s; cbn in H3; tauto).
  assert (Hd : forall i, i ∈ path_ids q -> i ∉ ids X) by (apply NoDup_app in Hnd; set_solver).
  unfold BAVL_replace_subtree. step_eff. apply (runs_node _ _ _ _ _ En). rewrite Hn. step_eff.
  apply (runs_hang _ _ q p); [done|set_solver|done|].
  assert (Hq : rep_seg (relinked q (rt X) (memory T)) None q (rt X))
    by (apply (seg_relinked _ _ (Some p)); [now apply NoDup_app in Hnd|done]).
  assert (HX' : rep (relinked q (rt X) (memory T)) (Some p) X) by now apply relinked_rep.
  destruct X as [|l i bi r]; cbn [rt] in *.
  - step_eff. now split.
  -  eapply runs_set_node; [exact (proj1 HX')|]. split; cbn [memory root]; [done| | |done].
    + apply seg_frame; [|done]. intros Hi. now apply (Hd i Hi), elem_of_app; right; left.
    + apply (rep_reparent _ (Some p)); [now apply NoDup_app in Hnd|done].
Qed.

(** The rest of [BAVL_Remove], once the node has at most one child. *)
Lemma unhook_ok fuel T q s p b X :
  holds T q (plug1 (Frame s p b Leaf) X) -> avl (plug q (plug1 (Frame s p b Leaf) X)) -> (length q < fuel)%nat ->
  runs (n ← node 597 p;
        assert_at 597 (match link0 n, link1 n with Some _, Some _ => false | _, _ => true end) ;;
        let child := match link0 n with Some c => Some c | None => link1 n end in
        match parent n with
        | Some q =>
            qn ← node 604 q;
            let side := points_to (link1 qn) p in
            BAVL_replace_subtree p child ;; BAVL_rebalance fuel q side (-1)
        | None => BAVL_replace_subtree p child
        end)
    (fun _ T' => exists t', holds T' [] t' /\ avl t' /\ ids t' = pre q ++ ids X ++ post q) T.
Proof.
  intros HT Ha Hfuel. destruct (holds_at _ _ _ _ _ _ _ HT) as (n & En & Hn & Hl & Hl' & _).
  apply avl_path in Ha as [Ht Hpath]. apply avl_plug1 in Ht as (HX & _ & _). rewrite height_plug1 in Hpath. cbn [height] in Hpath.
  pose proof (height_nonneg X) as Hpos.
  assert (Hchild : match link0 n with Some c => Some c | None => link1 n end = rt X).
  { destruct s; cbn in Hl, Hl'; rewrite Hl, Hl'; [done|now destruct (rt X)]. }
  step_eff. apply (runs_node _ _ _ _ _ En). step_eff. step_eff.
  { destruct s; cbn in Hl, Hl'; rewrite Hl, Hl'; [done|now destruct (rt X)]. }
  cbn zeta. rewrite Hchild, Hn. destruct q as [|[s' i' b' sib'] q]; cbn [pid fid].
  - eapply eff_mono; [exact (replace_ok _ _ _ _ _ _ HT)|]. intros [] T' HT'. exists X. split; [done|]. split; [done|].
    cbn. now rewrite app_nil_r.
  - destruct (holds_path _ _ _ HT) as (Ei & _). step_eff. apply (runs_node _ _ _ _ _ Ei). rewrite rt_plug1.
    assert (Hside : points_to (link1 (Node (pid None q) (if s' then rt sib' else Some p) (if s' then Some p else rt sib') b')) p = s').
    { cbn. destruct s'; [now apply bool_decide_true|]. apply not_root. intros Hin.
      pose proof (holds_nodup _ _ _ HT) as H. cbn [path_ids frame_ids app] in H. rewrite ids_plug1 in H. cbn in H.
      apply NoDup_cons in H as [_ H]. apply NoDup_app in H as (_ & H & _). set_solver. }
    rewrite Hside. step_eff. eapply eff_mono; [exact (replace_ok _ _ _ _ _ _ HT)|]. intros [] T' HT'.
    eapply eff_mono; [apply (rebalance_ok _ fuel _ _ _ _ _ _ (1 + Z.max (height X) 0) (-1) HT')|];
      [cbn in Hfuel; lia|done|exact Hpath|lia|lia|].
    intros [] T2 (t2 & H1 & H2 & H3). exists t2. split; [done|]. split; [done|]. now rewrite H3, ids_plug.
Qed.

Lemma pre_app q q' : pre (q ++ q') = pre q' ++ pre q.
Proof. induction q as [|[s i b sib] q IH]; cbn; [now rewrite app_nil_r|]. now rewrite IH, app_assoc. Qed.

Lemma post_app q q' : post (q ++ q') = post q ++ post q'.
Proof. induction q as [|[s i b sib] q IH]; cbn; [done|]. now rewrite IH, app_assoc. Qed.

Lemma post_right q : Forall (fun f => fside f = true) q -> post q = [].
Proof. induction 1 as [|[s i b sib] q E _ IH]; cbn in *; [done|]. now subst s. Qed.

(** The balance does not depend on which nodes are where. *)
Lemma path_avl_rename q' q s i j b sib h :
  path_avl (q' ++ Frame s i b sib :: q) h -> path_avl (q' ++ Frame s j b sib :: q) h.
Proof. revert h. induction q' as [|[s' i' b' sib'] q' IH]; intros h; cbn; [done|]. naive_solver. Qed.

(** A node with two children is exchanged with the largest node before it. *)
Lemma remove_step T q l p b r Q (k : eff BAVL unit) :
  holds T q (Br l p b r) -> avl (plug q (Br l p b r)) ->
  (forall T1 q1 s1 b1 X, holds T1 q1 (plug1 (Frame s1 p b1 Leaf) X) -> avl (plug q1 (plug1 (Frame s1 p b1 Leaf) X)) ->
     (length q1 < depth T)%nat -> pre q1 ++ ids X ++ post q1 = (pre q ++ ids l) ++ (ids r ++ post q) -> runs k Q T1) ->
  runs (match rt l, rt r with
        | Some l, Some _ => max ← BAVL_subtree_max (depth T) l; BAVL_swap_nodes p max
        | _, _ => mret tt
        end ;; k) Q T.
Proof.
  intros HT Ha Hk. pose proof (path_depth _ _ _ HT) as Hdepth. destruct (rt l) as [c|] eqn:El.
  2: { destruct l; [|done]. step_eff. step_eff. apply (Hk T q true b r HT Ha Hdepth). cbn. now rewrite app_nil_r. }
  destruct (rt r) as [c'|] eqn:Er.
  2: { destruct r; [|done]. step_eff. step_eff. apply (Hk T q false b l HT Ha Hdepth). cbn. now rewrite app_assoc. }
  clear Er c'. step_eff. step_eff. apply (holds_up T (Frame false p b r)) in HT.
  pose proof (holds_size _ _ _ HT) as Hsize. unfold BAVL_subtree_max.
  eapply eff_mono; [apply (subtree_end_ok true l _ T _ c HT El); unfold depth; lia|].
  intros m T' (-> & q' & bm & lm & H1 & H2 & H3). cbn zeta in *.
  pose proof (path_depth _ _ _ H1) as Hdepth1.
  eapply eff_mono; [exact (swap_nodes_ok _ _ _ _ _ _ _ _ _ H1)|]. intros [] T1 HT1.
  apply (Hk T1 (q' ++ Frame false m b r :: q) false bm lm).
  - exact HT1.
  - change (Br l p b r) with (plug1 (Frame false p b r) l) in Ha. rewrite <- H2 in Ha.
    change (plug q (plug1 (Frame false p b r) (plug q' (plug1 (Frame true m bm lm) Leaf))))
      with (plug (Frame false p b r :: q) (plug q' (plug1 (Frame true m bm lm) Leaf))) in Ha.
    rewrite <- plug_app in Ha. apply avl_path in Ha as [Ha1 Ha2]. apply plug_avl; [exact Ha1|].
    exact (path_avl_rename _ _ _ _ _ _ _ _ Ha2).
  - rewrite length_app in *. exact Hdepth1.
  - rewrite pre_app, post_app, (post_right _ H3), <- H2, ids_plug, (post_right _ H3). cbn.
    rewrite ?app_nil_r, <- ?app_assoc. cbn. now rewrite <- ?app_assoc.
Qed.

Lemma StronglySorted_remove {A} (R : relation A) l x r : StronglySorted R (l ++ x :: r) -> StronglySorted R (l ++ r).
Proof.
  rewrite !StronglySorted_app. intros (H1 & H2 & [H3 _]%StronglySorted_inv). split; [|done].
  intros y z Hy Hz. apply H1; [done|]. now right.
Qed.

Section Remove.
Context {K : Type} (cmp : K -> K -> Z) (value : nat -> K) (ok : K -> Prop) {C : Comparator cmp ok}.

Lemma remove_ok T l p :
  represents cmp value ok T l -> p ∈ l ->
  runs (BAVL_Remove p) (fun _ T' => exists l1 l2, l = l1 ++ p :: l2 /\ represents cmp value ok T' (l1 ++ l2)) T.
Proof.
  intros (t & HT & Ht & <- & Ho) Hp. apply ids_position in Hp as (q & tl & b & tr & -> ).
  apply holds_all in HT. unfold BAVL_Remove. step_eff. step_eff. step_eff.
  apply (runs_node _ _ _ _ _ (proj1 (holds_tree _ _ _ HT))). cbn [link0 link1].
  apply (remove_step _ _ _ _ _ _ _ _ HT Ht). intros T1 q1 s1 b1 X HT1 Ha1 Hd1 Hids.
  eapply eff_mono; [exact (unhook_ok _ _ _ _ _ _ _ HT1 Ha1 Hd1)|].
  intros [] T2 (t2 & H1 & H2 & H3). exists (pre q ++ ids tl), (ids tr ++ post q).
  assert (E : ids (plug q (Br tl p b tr)) = (pre q ++ ids tl) ++ p :: ids tr ++ post q).
  { rewrite ids_plug. cbn. now rewrite <- !app_assoc. }
  split; [exact E|]. exists t2. rewrite E in Ho. destruct Ho as [Ho Hok].
  split; [done|]. split; [done|]. split; [congruence|]. split; [exact (StronglySorted_remove _ _ _ _ Ho)|].
  apply Forall_app in Hok as [Hok1 Hok2]. apply Forall_app. split; [done|]. now apply Forall_cons in Hok2.
Qed.

(** ** Traversal *)

(** The first and the last of a list, by side. *)
Definition end_of (side : bool) (l : list nat) : option nat := if side then last l else head l.

Lemma end_plug s q' m b X :
  Forall (fun f => fside f = s) q' -> end_of s (ids (plug q' (plug1 (Frame s m b X) Leaf))) = Some m.
Proof.
  intros H. rewrite ids_plug. destruct s; cbn.
  - rewrite (post_right _ H), app_nil_r, last_app, last_snoc. done.
  - assert (E : pre q' = []) by (induction H as [|[s i b' sib] q E _ IH]; cbn in *; [done|]; subst s; now rewrite IH).
    now rewrite E.
Qed.

Lemma subtree_end_ids s t T q c :
  holds T q t -> rt t = Some c -> runs (subtree_end (depth T) s c) (fun m T' => T' = T /\ end_of s (ids t) = Some m) T.
Proof.
  intros HT Hc. pose proof (holds_size _ _ _ HT). eapply eff_mono; [apply (subtree_end_ok s t _ T q c HT Hc); unfold depth; lia|].
  intros m T' (-> & q' & b & X & _ & <- & H1). split; [done|]. now apply end_plug.
Qed.

Lemma get_end_ok s T l :
  represents cmp value ok T l ->
  runs (t ← get_st; match root t with None => mret None | Some p => q ← subtree_end (depth t) s p; mret (Some q) end)
    (fun r T' => T' = T /\ r = end_of s l) T.
Proof.
  intros (t & HT & Ht & <- & Ho). step_eff. step_eff. rewrite (holds_root _ _ _ HT). cbn [top].
  destruct (rt t) as [c|] eqn:E.
  - step_eff. eapply eff_mono; [exact (subtree_end_ids s _ _ _ _ HT E)|]. intros m T' [ -> Hm]. step_eff. done.
  - step_eff. destruct t; [|done]. now destruct s.
Qed.

Lemma climb_ok s q : forall fuel T t c,
  holds T q t -> rt t = Some c -> (length q < fuel)%nat ->
  runs (climb fuel s c) (fun r T' => T' = T /\ r = if s then head (post q) else last (pre q)) T.
Proof.
  induction q as [|[s' i b sib] q IH]; intros fuel T t c HT Hc Hfuel; (destruct fuel as [|fuel]; [cbn in *; lia|]); cbn [climb].
  all: destruct t as [|l j bj r]; [done|]; injection Hc as <-.
  all: step_eff; apply (runs_node _ _ _ _ _ (proj1 (holds_tree _ _ _ HT))); cbn [parent pid fid].
  - step_eff. now destruct s.
  - step_eff. apply (runs_node _ _ _ _ _ (proj1 (holds_path _ _ _ HT))).
    assert (Hj : j ∉ ids sib).
    { intros Hin. pose proof (holds_nodup _ _ _ HT) as H. cbn in H. apply NoDup_cons in H as [_ H].
      apply NoDup_app in H as (_ & H & _). set_solver. }
    assert (Hside : points_to (link s (Node (pid None q) (if s' then rt sib else Some j) (if s' then Some j else rt sib) b)) j = eqb s s').
    { destruct s, s'; cbn; (now apply not_root) || now apply bool_decide_true. }
    cbn [rt] in *. rewrite Hside. apply (holds_up T (Frame s' i b sib)) in HT. destruct (eqb_spec s s') as [ <- |Hs].
    + eapply eff_mono; [apply (IH fuel _ _ i HT); [now destruct s|cbn in Hfuel; lia]|].
      intros res T' [ -> ->]. split; [done|]. destruct s; cbn; [done|now rewrite app_nil_r].
    + step_eff. split; [done|]. destruct s, s'; cbn; try done. now rewrite !last_app.
Qed.

Lemma split_unique {A} (x : A) l r l' r' :
  l ++ x :: r = l' ++ x :: r' -> NoDup (l ++ x :: r) -> l = l' /\ r = r'.
Proof.
  intros E Hnd. assert (Hl : x ∉ l') by (rewrite E in Hnd; apply NoDup_app in Hnd as (_ & H & _); set_solver).
  assert (Hl' : x ∉ l) by (apply NoDup_app in Hnd as (_ & H & _); set_solver). clear Hnd.
  revert l' E Hl. induction l as [|y l IH]; intros [|z l'] E Hl; cbn in E; injection E as; subst; set_solver.
Qed.

(** The node before or after [p]. *)
Definition neighbour (side : bool) (l1 l2 : list nat) : option nat := if side then head l2 else last l1.

Lemma neighbour_ok line s T l1 p l2 :
  represents cmp value ok T (l1 ++ p :: l2) ->
  runs (t ← get_st; n ← node line p;
        match link s n with Some q => r ← subtree_end (depth t) (negb s) q; mret (Some r) | None => climb (depth t) s p end)
    (fun r T' => T' = T /\ r = neighbour s l1 l2) T.
Proof.
  intros (t & HT & Ht & E & Ho). assert (Hp : p ∈ ids t) by (rewrite E; set_solver).
  pose proof (holds_nodup _ _ _ HT) as Hnd. cbn in Hnd.
  apply ids_position in Hp as (q & tl & b & tr & -> ). rewrite ids_plug in E, Hnd. cbn in E, Hnd. apply holds_all in HT.
  rewrite <- app_assoc, app_assoc in E, Hnd. cbn in E, Hnd.
  destruct (split_unique _ _ _ _ _ E Hnd) as [ <- <- ]. clear E Hnd.
  step_eff. step_eff. step_eff. apply (runs_node _ _ _ _ _ (proj1 (holds_tree _ _ _ HT))).
  pose proof (path_depth _ _ _ HT) as Hdepth. destruct s; cbn [link link0 link1 negb].
  - destruct (rt tr) as [c|] eqn:Er.
    + apply (holds_up T (Frame true p b tl)) in HT. step_eff.
      eapply eff_mono; [exact (subtree_end_ids false _ _ _ _ HT Er)|]. intros m T' [ -> Hm]. step_eff. split; [done|].
      cbn in *. destruct (ids tr); [done|exact (eq_sym Hm)].
    + destruct tr; [|done]. exact (climb_ok true q _ _ _ p HT eq_refl Hdepth).
  - destruct (rt tl) as [c|] eqn:El.
    + apply (holds_up T (Frame false p b tr)) in HT. step_eff.
      eapply eff_mono; [exact (subtree_end_ids true _ _ _ _ HT El)|]. intros m T' [ -> Hm]. step_eff. split; [done|].
      cbn in *. now rewrite last_app, Hm.
    + destruct tl; [|done]. cbn. rewrite app_nil_r. exact (climb_ok false q _ _ _ p HT eq_refl Hdepth).
Qed.

(** ** The self check *)

Lemma assert_recurser_ok t : forall fuel T q c,
  holds T q t -> rt t = Some c -> (length (ids t) <= fuel)%nat -> avl t -> ordered cmp value ok (ids t) ->
  runs (BAVL_assert_recurser cmp value fuel c) (fun h T' => T' = T /\ h = height t) T.
Proof.
  induction t as [|l IHl i b r IHr]; intros fuel T q c HT Hc Hfuel Ha Ho; [done|]. injection Hc as <-.
  cbn in Hfuel. rewrite length_app in Hfuel. cbn in Hfuel. destruct fuel as [|fuel]; [lia|]. cbn [BAVL_assert_recurser].
  destruct Ha as (Hal & Har & Eb & Hb). apply ordered_app in Ho as (Hol & Ho & Hli).
  apply ordered_cons in Ho as (Hi & Hor & Hir).
  assert (Hchild : forall line s t', t' = (if s : bool then r else l) ->
    runs (check_child cmp value line (BAVL_assert_recurser cmp value fuel) i (sgn s) (rt t'))
      (fun h T' => T' = T /\ h = height t') T).
  { intros line s t' ->. pose proof (holds_tree _ _ _ HT) as (_ & H1 & H2). destruct s; cbn [sgn].
    - destruct r as [|l' j b' r']; cbn [rt check_child]; [now step_eff|].
      step_eff. apply (runs_node _ _ _ _ _ (proj1 H2)). step_eff. step_eff; [now apply bool_decide_true|]. step_eff.
      assert (Hj : j ∈ ids (Br l' j b' r')) by (cbn; set_solver).
      step_eff.
      { rewrite (cmp_flip (value i) (value j)); [now rewrite Hir|done|].
        destruct Hor as [_ Hor]. rewrite Forall_forall in Hor. now apply Hor. }
      apply (holds_up T (Frame true i b l)) in HT. apply (IHr fuel T _ j HT); auto. lia.
    - destruct l as [|l' j b' r']; cbn [rt check_child]; [now step_eff|].
      step_eff. apply (runs_node _ _ _ _ _ (proj1 H1)). step_eff. step_eff; [now apply bool_decide_true|]. step_eff.
      step_eff; [rewrite Hli; [done|cbn; set_solver|apply list_elem_of_here]|].
      apply (holds_up T (Frame false i b r)) in HT. apply (IHl fuel T _ j HT); auto. lia. }
  step_eff. apply (runs_node _ _ _ _ _ (proj1 (holds_tree _ _ _ HT))). cbn [balance link0 link1].
  step_eff. step_eff; [lia|]. step_eff. step_eff; [lia|]. step_eff.
  eapply eff_mono; [exact (Hchild 239 false l eq_refl)|]. intros hl T1 [ -> ->]. step_eff.
  eapply eff_mono; [exact (Hchild 252 true r eq_refl)|]. intros hr T1 [ -> ->]. step_eff. step_eff; [lia|]. step_eff.
  split; [done|]. cbn. lia.
Qed.

Lemma verify_ok T l : represents cmp value ok T l -> runs (BAVL_Verify cmp value) (fun _ T' => T' = T) T.
Proof.
  intros (t & HT & Ht & <- & Ho). unfold BAVL_Verify. step_eff. step_eff. rewrite (holds_root _ _ _ HT). cbn [top].
  destruct (rt t) as [c|] eqn:E; [|now step_eff]. pose proof (holds_size _ _ _ HT) as Hsize. cbn in Hsize.
  step_eff. destruct t as [|l i b r]; [done|]. injection E as <-.
  apply (runs_node _ _ _ _ _ (proj1 (holds_tree _ _ _ HT))). cbn [parent pid]. step_eff. step_eff; [done|]. step_eff.
  eapply eff_mono; [apply (assert_recurser_ok _ _ _ _ _ HT eq_refl); [unfold depth; lia|done|done]|].
  intros h T' [ -> _]. now step_eff.
Qed.

End Remove.
