(* ===== verification/BAVLFacts.v ===== *)
(** * The AVL tree as an ordered set

    The theorems about [BAVL.h]: any sequence of insertions and removals agrees with
    a set of nodes, every operation returns, and a lookup is logarithmic. *)

From stdpp Require Import sorting.
From S2P Require Import Prelude Effect BAVL BAVLRep BAVLBal BAVLFind BAVLRemove.

Open Scope Z_scope.

(** ** Height *)

(** A tree of height [h] has at least [2 ^ (h / 2) - 1] nodes. *)
Lemma avl_size t : avl t -> 2 ^ height t <= (Z.of_nat (length (ids t)) + 1) ^ 2.
Proof.
  induction t as [|l IHl i b r IHr]; cbn [avl height ids]; [done|]. intros (Hl & Hr & Eb & Hb).
  specialize (IHl Hl). specialize (IHr Hr). rewrite length_app. cbn [length].
  pose proof (height_nonneg l). pose proof (height_nonneg r).
  replace (Z.of_nat (length (ids l) + S (length (ids r))) + 1)
    with ((Z.of_nat (length (ids l)) + 1) + (Z.of_nat (length (ids r)) + 1)) by lia.
  set (a := Z.of_nat (length (ids l)) + 1) in *. set (c := Z.of_nat (length (ids r)) + 1) in *.
  assert (1 <= a) by lia. assert (1 <= c) by lia.
  assert (Hb' : b = -1 \/ b = 0 \/ b = 1) by lia.
  assert (Hstep : forall x y u v : Z, 1 <= u -> 1 <= v -> 0 <= y -> y <= x -> x <= y + 1 -> 2 ^ x <= u ^ 2 -> 2 ^ y <= v ^ 2 ->
     2 ^ (1 + x) <= (u + v) ^ 2).
  { intros x y u v Hu Hv Hy Hyx Hxy Hx2 Hy2. rewrite Z.pow_add_r by lia.
    assert (2 ^ x <= 2 * 2 ^ y).
    { rewrite <- Z.pow_succ_r by lia. apply Z.pow_le_mono_r; lia. }
    rewrite !Z.pow_2_r in *. destruct (Z.le_gt_cases u v); nia. }
  destruct Hb' as [ -> |[ -> | -> ]].
  - replace (Z.max (height l) (height r)) with (height l) by lia. apply (Hstep _ (height r)); lia.
  - replace (Z.max (height l) (height r)) with (height l) by lia. apply (Hstep _ (height r)); lia.
  - replace (Z.max (height l) (height r)) with (height r) by lia. rewrite Z.add_comm with (n := a).
    apply (Hstep _ (height l)); lia.
Qed.

Lemma avl_height t : avl t -> height t <= 2 * Z.log2_up (Z.of_nat (length (ids t)) + 1).
Proof.
  intros H%avl_size. set (n := Z.of_nat (length (ids t)) + 1) in *. assert (1 <= n) by lia.
  pose proof (Z.log2_up_nonneg n). apply (Z.pow_le_mono_r_iff 2); [lia|lia|].
  rewrite Z.mul_comm, Z.pow_mul_r by lia. etransitivity; [exact H|]. apply Z.pow_le_mono_l. split; [lia|].
  destruct (Z.eq_dec n 1) as [E|E]; [rewrite E; done|]. apply Z.log2_up_spec. lia.
Qed.

(** ** Sequences of operations *)

Lemma filter_middle (p : nat) (l1 l2 S : list nat) :
  NoDup S -> S ≡ₚ l1 ++ p :: l2 -> filter (fun j => j <> p) S ≡ₚ l1 ++ l2.
Proof.
  intros Hnd HS. assert (Hp : p ∉ l1 ++ l2).
  { rewrite HS in Hnd. rewrite <- Permutation_middle in Hnd. now apply NoDup_cons in Hnd as [? _]. }
  rewrite HS, filter_app, filter_cons_False by tauto. rewrite <- filter_app. now rewrite filter_absent.
Qed.

Section Set_of_nodes.
Context {K : Type} (cmp : K -> K -> Z) (value : nat -> K) (ok : K -> Prop) {C : Comparator cmp ok}.

Inductive op := OpInsert (p : nat) | OpRemove (p : nat).

(** The operations on the tree; the results of the insertions. *)
Fixpoint run_ops (l : list op) : eff BAVL (list Z) :=
  match l with
  | [] => mret []
  | OpInsert p :: l => r ← BAVL_Insert cmp value p; rs ← run_ops l; mret (fst r :: rs)
  | OpRemove p :: l => BAVL_Remove p ;; run_ops l
  end.

(** The same on a set of nodes. An insertion is refused when an equal node is there. *)
Definition clashes (p : nat) (S : list nat) : bool := existsb (fun j => cmp (value p) (value j) =? 0) S.

Fixpoint set_ops (l : list op) (S : list nat) : list Z * list nat :=
  match l with
  | [] => ([], S)
  | OpInsert p :: l =>
      if clashes p S then let '(rs, S') := set_ops l S in (0 :: rs, S')
      else let '(rs, S') := set_ops l (p :: S) in (1 :: rs, S')
  | OpRemove p :: l => set_ops l (filter (fun j => j <> p) S)
  end.

(** The contract of the functions: a node that is inserted is in no tree, a node that
    is removed is in this one. *)
Fixpoint permitted (l : list op) (S : list nat) : Prop :=
  match l with
  | [] => True
  | OpInsert p :: l => p ∉ S /\ ok (value p) /\ permitted l (if clashes p S then S else p :: S)
  | OpRemove p :: l => p ∈ S /\ permitted l (filter (fun j => j <> p) S)
  end.

Lemma clashes_spec p S : clashes p S = true <-> exists j, j ∈ S /\ cmp (value p) (value j) = 0.
Proof.
  unfold clashes. rewrite existsb_exists. setoid_rewrite <- list_elem_of_In. setoid_rewrite Z.eqb_eq. done.
Qed.

Lemma clashes_between p S l1 l2 : S ≡ₚ l1 ++ l2 -> between cmp value (value p) l1 l2 -> clashes p S = false.
Proof.
  intros HS [H1 H2]. apply not_true_iff_false. rewrite clashes_spec. intros (j & Hj & E).
  rewrite HS in Hj. apply elem_of_app in Hj as [Hj|Hj]; [rewrite H1 in E|rewrite H2 in E]; done.
Qed.

Lemma run_ops_ok l : forall S T nodes,
  permitted l S -> S ≡ₚ nodes -> NoDup S -> represents cmp value ok T nodes ->
  runs (run_ops l)
    (fun rs T' => rs = fst (set_ops l S) /\ NoDup (snd (set_ops l S)) /\
       exists nodes', represents cmp value ok T' nodes' /\ snd (set_ops l S) ≡ₚ nodes') T.
Proof.
  induction l as [|[p|p] l IH]; intros S T nodes Hl HS Hnd HT; cbn [run_ops set_ops permitted] in *.
  - step_eff. cbn. eauto.
  - destruct Hl as (Hp & Hok & Hl). step_eff. eapply eff_mono; [apply (insert_ok cmp value ok T nodes p HT); [now rewrite <- HS|done]|].
    intros [r ref] T' [(Er & l1 & l2 & E1 & Hb & HT')|(Er & -> & j & Ej & Hj & Hc)]; cbn [fst snd] in Er; subst r; step_eff.
    + rewrite (clashes_between p S l1 l2) in * by (done || congruence).
      eapply eff_mono; [apply (IH (p :: S) T' (l1 ++ p :: l2) Hl); [|now constructor|exact HT']|].
      { rewrite HS, E1. apply Permutation_middle. }
      intros rs T2 H. step_eff. cbn [fst]. destruct (set_ops l (p :: S)) as [rs' S']. cbn in *. now destruct H as (-> & ? & ?).
    + assert (E : clashes p S = true) by (apply clashes_spec; exists j; now rewrite HS). rewrite E in *.
      eapply eff_mono; [exact (IH S T _ Hl HS Hnd HT)|].
      intros rs T2 H. step_eff. cbn [fst]. destruct (set_ops l S) as [rs' S']. cbn in *. now destruct H as (-> & ? & ?).
  - destruct Hl as [Hp Hl]. step_eff. eapply eff_mono; [apply (remove_ok cmp value ok T nodes p HT); now rewrite <- HS|].
    intros [] T' (l1 & l2 & -> & HT'). eapply (IH _ T' (l1 ++ l2) Hl); [|now apply NoDup_filter|exact HT'].
    now apply filter_middle.
Qed.

Lemma init_represents : represents cmp value ok BAVL_Init [].
Proof. exists Leaf. split; [now split; cbn; try constructor|]. split; [done|]. split; [done|]. split; constructor. Qed.

(** C9. Any permitted sequence of insertions and removals on the pointer structure,
    starting from [BAVL_Init], runs without following a dangling pointer, without a
    failed assertion and without running out of fuel, and agrees with the same
    sequence on a set of nodes: the same insertions are refused, and afterwards the
    nodes of the tree are those of the set, in increasing order. In that state the
    self check [BAVL_Verify] passes, [BAVL_LookupExact] finds the equal node if and
    only if there is one, the two ends are the least and the greatest node, and
    [BAVL_GetNext] and [BAVL_GetPrev] step through the nodes in order. *)
Theorem bavl_refines_set (l : list op) :
  permitted l [] ->
  exists T nodes, run_ops l BAVL_Init = Done (fst (set_ops l [])) T /\
    snd (set_ops l []) ≡ₚ nodes /\ ordered cmp value ok nodes /\
    runs (BAVL_Verify cmp value) (fun _ T' => T' = T) T /\
    (forall v, ok v -> runs (BAVL_LookupExact cmp value v)
       (fun res T' => T' = T /\
          match res with
          | Some j => j ∈ nodes /\ cmp v (value j) = 0
          | None => forall j, j ∈ nodes -> cmp v (value j) <> 0
          end) T) /\
    runs BAVL_GetFirst (fun res T' => T' = T /\ res = head nodes) T /\
    runs BAVL_GetLast (fun res T' => T' = T /\ res = last nodes) T /\
    (forall l1 p l2, nodes = l1 ++ p :: l2 ->
       runs (BAVL_GetNext p) (fun res T' => T' = T /\ res = head l2) T /\
       runs (BAVL_GetPrev p) (fun res T' => T' = T /\ res = last l1) T).
Proof.
  intros Hl. destruct (eff_done _ _ _ (run_ops_ok l [] _ _ Hl (Permutation_refl _) NoDup_nil_2 init_represents)) as (rs & T & E & -> & _ & nodes & HT & Hn).
  exists T, nodes. split; [exact E|]. split; [done|]. split; [now destruct HT as (t & _ & _ & _ & Ho)|].
  split; [exact (verify_ok _ _ _ _ _ HT)|]. split; [intros v; exact (lookup_exact_ok cmp value ok T nodes v HT)|].
  split; [exact (get_end_ok cmp value ok false _ _ HT)|]. split; [exact (get_end_ok cmp value ok true _ _ HT)|].
  intros l1 p l2 ->. split; [exact (neighbour_ok cmp value ok 706 true _ _ _ _ HT)|exact (neighbour_ok cmp value ok 723 false _ _ _ _ HT)].
Qed.

(** A lookup compares at most [2 * log2 (n + 1)] times in a tree of [n] nodes:
    with that many rounds of the loop it returns. *)
Lemma bavl_lookup_logarithmic T nodes v c (rounds : nat) :
  represents cmp value ok T nodes -> ok v -> root T = Some c ->
  2 * Z.log2_up (Z.of_nat (length nodes) + 1) <= Z.of_nat rounds ->
  exists res, descend cmp value rounds v c T = Done res T.
Proof.
  intros (t & HT & Ht & <- & Ho) Hv Hc Hr. pose proof (avl_height t Ht) as Hh. rewrite (holds_root _ _ _ HT) in Hc.
  assert (H : height t <= Z.of_nat rounds) by lia.
  destruct (eff_done _ _ _ (descend_ok cmp value ok v t rounds T [] c Hv HT Hc H Ho (between_nil _ _ _))) as (res & T' & E & -> & _).
  now exists res.
Qed.

End Set_of_nodes.

(** ** Witnesses *)

Definition cmp_nat (a b : nat) : Z := match (a ?= b)%nat with Lt => -1 | Eq => 0 | Gt => 1 end.

Lemma cmp_nat_lt a b : cmp_nat a b = -1 <-> (a < b)%nat.
Proof. unfold cmp_nat. destruct (Nat.compare_spec a b); split; (lia || done). Qed.

Lemma cmp_nat_eq a b : cmp_nat a b = 0 <-> a = b.
Proof. unfold cmp_nat. destruct (Nat.compare_spec a b); split; (lia || done). Qed.

#[export] Instance cmp_nat_order : Comparator cmp_nat (fun _ => True).
Proof.
  split.
  - intros a b _ _. unfold cmp_nat. destruct (a ?= b)%nat; auto.
  - intros a b _ _. unfold cmp_nat. rewrite Nat.compare_antisym. now destruct (a ?= b)%nat.
  - intros a b c _ _ _. rewrite !cmp_nat_lt. lia.
  - intros a b c _ _ _. rewrite cmp_nat_eq. now intros ->.
Qed.

(** Eight nodes, the last a duplicate, and the removal of a node with two children. *)
Definition demo_value (i : nat) : nat := (i * 3 mod 7)%nat.
Definition demo_ops : list op := map OpInsert (seq 0 8) ++ [OpRemove 1]%nat.

Lemma bavl_refines_set_witness :
  permitted cmp_nat demo_value (fun _ => True) demo_ops [] /\
  exists T, run_ops cmp_nat demo_value demo_ops BAVL_Init = Done [1; 1; 1; 1; 1; 1; 1; 0] T.
Proof.
  assert (Hp : permitted cmp_nat demo_value (fun _ => True) demo_ops []).
  { unfold demo_ops. cbn [map seq app permitted]. repeat (split; [apply (bool_decide_unpack _); vm_compute; reflexivity|]).
    split. }
  split; [exact Hp|]. destruct (bavl_refines_set cmp_nat demo_value (fun _ => True) demo_ops Hp) as (T & nodes & E & _).
  exists T. exact E.
Defined.

Lemma bavl_lookup_logarithmic_witness :
  exists T c, root T = Some c /\ exists res, descend cmp_nat (fun i => i) 2 5%nat c T = Done res T.
Proof.
  assert (HT : exists T, represents cmp_nat (fun i => i) (fun _ => True) T [0%nat] /\ root T = Some 0%nat).
  { exists (Tree (Some 0%nat) {[0%nat := Node None None None 0]}). split; [|done]. exists (Br Leaf 0 0 Leaf).
    split; [split; cbn; [done|done|done|apply NoDup_singleton]|]. split; [cbn; lia|]. split; [done|].
    split; repeat constructor. }
  destruct HT as (T & HT & Hc). exists T, 0%nat. split; [exact Hc|].
  apply (bavl_lookup_logarithmic cmp_nat (fun i => i) (fun _ => True) T [0%nat] 5%nat 0%nat 2 HT I Hc). vm_compute. discriminate.
Defined.
