(* ===== verification/ConnTree.v ===== *)
(** * The tree of connections: its order and its interface

    [BAddr_CompareOrder] is a total order whose equality is equality of addresses,
    as the AVL tree asks of its comparator; with it the tree is what the UDP relay client sees of it. *)

From stdpp Require Import sorting.
From S2P Require Import Prelude Effect BAVL BAVLRep BAVLBal BAVLFind BAddr BAVLRemove.

Open Scope Z_scope.

Lemma of_be_acc l acc : foldl (fun acc b => acc * 256 + b) acc l = acc * 256 ^ Z.of_nat (length l) + of_be l.
Proof.
  unfold of_be. revert acc. induction l as [|x l IH]; intros acc; cbn [foldl length]; [cbn; lia|].
  rewrite IH, (IH (0 * 256 + x)). rewrite Nat2Z.inj_succ, Z.pow_succ_r by lia. lia.
Qed.

Lemma of_be_cons x l : of_be (x :: l) = x * 256 ^ Z.of_nat (length l) + of_be l.
Proof. unfold of_be at 1. cbn [foldl]. now rewrite of_be_acc. Qed.

Lemma of_be_range l : bytes l -> 0 <= of_be l < 256 ^ Z.of_nat (length l).
Proof.
  induction l as [|x l IH]; [done|]. intros [Hx Hl]%bytes_cons. specialize (IH Hl). unfold is_byte in Hx.
  rewrite of_be_cons. cbn [length]. rewrite Nat2Z.inj_succ, Z.pow_succ_r by lia. nia.
Qed.

Lemma of_be_inj l l' : bytes l -> bytes l' -> length l = length l' -> of_be l = of_be l' -> l = l'.
Proof.
  revert l'. induction l as [|x l IH]; intros [|y l'] Hl Hl' Hn; [done|done|done|].
  apply bytes_cons in Hl as [Hx Hl], Hl' as [Hy Hl']. injection Hn as Hn. rewrite !of_be_cons, Hn.
  pose proof (of_be_range _ Hl) as H1. pose proof (of_be_range _ Hl') as H2. rewrite Hn in H1. unfold is_byte in *.
  intros E. assert (x = y) by nia. subst y. f_equal. apply IH; auto. lia.
Qed.

Lemma B_COMPARE_cases a b : (a < b /\ B_COMPARE a b = -1) \/ (a = b /\ B_COMPARE a b = 0) \/ (a > b /\ B_COMPARE a b = 1).
Proof. unfold B_COMPARE. destruct (a >? b) eqn:E1, (a <? b) eqn:E2; lia. Qed.

Lemma memcmp_be l l' :
  bytes l -> bytes l' -> length l = length l' -> memcmp l l' = B_COMPARE (of_be l) (of_be l').
Proof.
  revert l'. induction l as [|x l IH]; intros [|y l'] Hl Hl' Hn; [done|done|done|].
  apply bytes_cons in Hl as [Hx Hl], Hl' as [Hy Hl']. injection Hn as Hn. cbn [memcmp]. rewrite !of_be_cons, Hn.
  pose proof (of_be_range _ Hl) as H1. pose proof (of_be_range _ Hl') as H2. rewrite Hn in H1. unfold is_byte in *.
  destruct (B_COMPARE_cases (x * 256 ^ Z.of_nat (length l') + of_be l) (y * 256 ^ Z.of_nat (length l') + of_be l'))
    as [(H & ->)|[(H & ->)|(H & ->)]];
  (destruct (Z.ltb_spec x y); [|destruct (Z.ltb_spec y x)]); try nia;
  assert (x = y) by lia; subst y; rewrite IH by done; destruct (B_COMPARE_cases (of_be l) (of_be l')); lia.
Qed.

(** The rank of an address among all addresses. *)
Definition rank (a : BAddr) : Z :=
  match a with
  | BADDR_NONE => 0
  | BADDR_IPV4 ip port => 2 ^ 200 + of_be ip * 65536 + of_be port
  | BADDR_IPV6 ip port => 2 ^ 201 + of_be ip * 65536 + of_be port
  end.

Lemma port_range port : length port = 2%nat -> bytes port -> 0 <= of_be port < 65536.
Proof. intros L H. pose proof (of_be_range _ H) as Hr. now rewrite L in Hr. Qed.

Lemma ip4_range ip : length ip = 4%nat -> bytes ip -> 0 <= of_be ip < 2 ^ 32.
Proof. intros L H. pose proof (of_be_range _ H) as Hr. now rewrite L in Hr. Qed.

Lemma ip6_range ip : length ip = 16%nat -> bytes ip -> 0 <= of_be ip < 2 ^ 128.
Proof. intros L H. pose proof (of_be_range _ H) as Hr. now rewrite L in Hr. Qed.

Lemma B_COMPARE_lt a b : a < b -> B_COMPARE a b = -1 /\ B_COMPARE b a = 1.
Proof. intros H. destruct (B_COMPARE_cases a b), (B_COMPARE_cases b a); lia. Qed.

Lemma B_COMPARE_lex k n a b c d :
  0 <= b < n -> 0 <= d < n ->
  (if negb (B_COMPARE a c =? 0) then B_COMPARE a c else B_COMPARE b d) = B_COMPARE (k + a * n + b) (k + c * n + d).
Proof.
  intros Hb Hd. destruct (B_COMPARE_cases a c) as [(H & ->)|[(H & ->)|(H & ->)]]; cbn [Z.eqb negb].
  - symmetry. apply B_COMPARE_lt. nia.
  - subst c. destruct (B_COMPARE_cases b d) as [(H & ->)|[(H & ->)|(H & ->)]];
      destruct (B_COMPARE_cases (k + a * n + b) (k + a * n + d)); lia.
  - symmetry. apply B_COMPARE_lt. nia.
Qed.

(** Addresses of different types are ordered by their type. *)
Lemma rank_type a b :
  baddr_ok a -> baddr_ok b -> BADDR_TYPE a < BADDR_TYPE b -> rank a < rank b.
Proof.
  intros Ha Hb Ht. destruct a as [|ip port|ip port], b as [|ip' port'|ip' port']; cbn in Ht; try lia; cbn [rank].
  - destruct Hb as (L3 & L4 & B3 & B4). pose proof (port_range _ L4 B4). pose proof (ip4_range _ L3 B3). lia.
  - destruct Hb as (L3 & L4 & B3 & B4). pose proof (port_range _ L4 B4). pose proof (ip6_range _ L3 B3). lia.
  - destruct Ha as (L1 & L2 & B1 & B2), Hb as (L3 & L4 & B3 & B4).
    pose proof (port_range _ L2 B2). pose proof (ip4_range _ L1 B1).
    pose proof (port_range _ L4 B4). pose proof (ip6_range _ L3 B3). lia.
Qed.

Lemma compare_order_rank a b : baddr_ok a -> baddr_ok b -> BAddr_CompareOrder a b = B_COMPARE (rank a) (rank b).
Proof.
  intros Ha Hb. unfold BAddr_CompareOrder.
  destruct (B_COMPARE_cases (BADDR_TYPE a) (BADDR_TYPE b)) as [(H & ->)|[(H & ->)|(H & ->)]]; cbn [Z.eqb negb].
  - symmetry. apply B_COMPARE_lt. now apply rank_type.
  - destruct a as [|ip port|ip port], b as [|ip' port'|ip' port']; try done;
      destruct Ha as (L1 & L2 & B1 & B2), Hb as (L3 & L4 & B3 & B4);
      pose proof (port_range _ L2 B2); pose proof (port_range _ L4 B4); cbn [rank]; rewrite <- B_COMPARE_lex by done; [done|].
    rewrite memcmp_be by congruence. destruct (B_COMPARE_cases (of_be ip) (of_be ip')) as [(_ & ->)|[(_ & ->)|(_ & ->)]]; done.
  - symmetry. apply B_COMPARE_lt. apply rank_type; [done|done|lia].
Qed.

Lemma rank_inj a b : baddr_ok a -> baddr_ok b -> rank a = rank b -> a = b.
Proof.
  intros Ha Hb E. assert (Ht : BADDR_TYPE a = BADDR_TYPE b).
  { destruct (Z.lt_trichotomy (BADDR_TYPE a) (BADDR_TYPE b)) as [H|[H|H]]; [|done|]; apply rank_type in H; auto; lia. }
  destruct a as [|ip port|ip port], b as [|ip' port'|ip' port']; try done;
    destruct Ha as (L1 & L2 & B1 & B2), Hb as (L3 & L4 & B3 & B4);
    pose proof (port_range _ L2 B2); pose proof (port_range _ L4 B4); cbn [rank] in E;
    f_equal; apply of_be_inj; auto; try congruence; lia.
Qed.

(** What the tree relies on. *)
#[export] Instance BAddr_order : Comparator BAddr_CompareOrder baddr_ok.
Proof.
  split.
  - intros a b Ha Hb. rewrite compare_order_rank by done. destruct (B_COMPARE_cases (rank a) (rank b)); tauto.
  - intros a b Ha Hb. rewrite !compare_order_rank by done. destruct (B_COMPARE_cases (rank a) (rank b)), (B_COMPARE_cases (rank b) (rank a)); lia.
  - intros a b c Ha Hb Hc. rewrite !compare_order_rank by done.
    destruct (B_COMPARE_cases (rank a) (rank b)), (B_COMPARE_cases (rank b) (rank c)), (B_COMPARE_cases (rank a) (rank c)); lia.
  - intros a b c Ha Hb Hc. rewrite !compare_order_rank by done. intros E. replace (rank b) with (rank a); [done|].
    destruct (B_COMPARE_cases (rank a) (rank b)); lia.
Qed.

Lemma compare_order_eq a b : baddr_ok a -> baddr_ok b -> BAddr_CompareOrder a b = 0 <-> a = b.
Proof.
  intros Ha Hb. rewrite compare_order_rank by done. split.
  - intros E. apply rank_inj; auto. destruct (B_COMPARE_cases (rank a) (rank b)); lia.
  - intros ->. destruct (B_COMPARE_cases (rank b) (rank b)); lia.
Qed.

(** ** The index of the connections

    What a client of an intrusive search tree relies on, as a class: the client's
    theorems are proved against it, and the AVL tree of [BAVL.h] is an instance. A
    tree holds addresses of nodes; the value a node is ordered by is read from the
    object around it when the tree is searched. *)

Open Scope Z_scope.

(** The outer option of a result is a fault of the tree. *)
Class ConnTree (T : Type) := {
  ct_init : T;
  ct_lookup : (nat -> BAddr) -> BAddr -> T -> option (option nat);
  ct_insert : (nat -> BAddr) -> nat -> T -> option (bool * T);
  ct_remove : nat -> T -> option T;
}.

(** [ct_nodes value t l]: the tree has the nodes [l], whose values are different. *)
Class ConnTreeLaws (T : Type) `{!ConnTree T} := {
  ct_nodes : (nat -> BAddr) -> T -> list nat -> Prop;
  ct_nodes_perm value t l l' : l ≡ₚ l' -> ct_nodes value t l -> ct_nodes value t l';
  ct_nodes_ext value value' t l :
    (forall i, i ∈ l -> value i = value' i) -> ct_nodes value t l -> ct_nodes value' t l;
  ct_nodes_inj value t l i j : ct_nodes value t l -> i ∈ l -> j ∈ l -> value i = value j -> i = j;
  ct_init_ok value : ct_nodes value ct_init [];
  ct_lookup_ok value t l a :
    ct_nodes value t l -> baddr_ok a ->
    exists r, ct_lookup value a t = Some r /\
      match r with Some j => j ∈ l /\ value j = a | None => forall j, j ∈ l -> value j <> a end;
  ct_insert_ok value t l p :
    ct_nodes value t l -> p ∉ l -> baddr_ok (value p) -> (forall j, j ∈ l -> value j <> value p) ->
    exists t', ct_insert value p t = Some (true, t') /\ ct_nodes value t' (p :: l);
  ct_remove_ok value t l p :
    ct_nodes value t l -> p ∈ l ->
    exists t', ct_remove p t = Some t' /\ ct_nodes value t' (filter (fun j => j <> p) l);
}.

(** ** The AVL tree *)

Definition result {S A} (r : res S A) : option (A * S) := match r with Done a s => Some (a, s) | Bad _ => None end.

#[export] Instance bavl_tree : ConnTree BAVL := {
  ct_init := BAVL_Init;
  ct_lookup value a t := fst <$> result (BAVL_LookupExact BAddr_CompareOrder value a t);
  ct_insert value p t :=
    (fun r => (fst (fst r) =? 1, snd r)) <$> result (BAVL_Insert BAddr_CompareOrder value p t);
  ct_remove p t := snd <$> result (BAVL_Remove p t);
}.

Lemma ordered_ext (value value' : nat -> BAddr) l :
  (forall i, i ∈ l -> value i = value' i) ->
  ordered BAddr_CompareOrder value baddr_ok l -> ordered BAddr_CompareOrder value' baddr_ok l.
Proof.
  induction l as [|i l IH]; intros E; [intros _; split; constructor|]. rewrite !ordered_cons. intros (H1 & H2 & H3).
  rewrite <- (E i) by set_solver. split; [done|]. split; [apply IH; [set_solver|done]|].
  intros j Hj. rewrite <- (E j) by set_solver. auto.
Qed.

Lemma ordered_inj (value : nat -> BAddr) l i j :
  ordered BAddr_CompareOrder value baddr_ok l -> i ∈ l -> j ∈ l -> value i = value j -> i = j.
Proof.
  induction l as [|k l IH]; intros Ho Hi Hj E; [now apply elem_of_nil in Hi|].
  apply ordered_cons in Ho as (Hk & Ho & Hlt). pose proof Ho as [_ Hok]. rewrite Forall_forall in Hok.
  assert (Hne : forall x, x ∈ l -> value k <> value x).
  { intros x Hx E2. specialize (Hlt x Hx). apply (compare_order_eq (value k)) in E2; auto. congruence. }
  apply elem_of_cons in Hi as [ -> |Hi], Hj as [ -> |Hj]; [done| | |auto]; exfalso.
  - now apply (Hne j).
  - now apply (Hne i).
Qed.

#[export] Program Instance bavl_laws : ConnTreeLaws BAVL := {
  ct_nodes value t l := exists nodes, nodes ≡ₚ l /\ represents BAddr_CompareOrder value baddr_ok t nodes;
}.
Next Obligation. intros value t l l' E (nodes & H1 & H2). exists nodes. split; [now rewrite <- E|done]. Qed.
Next Obligation.
  intros value value' t l E (nodes & H1 & tr & H2 & H3 & H4 & H5). exists nodes. split; [done|]. exists tr.
  split; [done|]. split; [done|]. split; [done|]. apply (ordered_ext value); [|done]. intros i Hi. apply E. now rewrite <- H1.
Qed.
Next Obligation.
  intros value t l i j (nodes & H1 & H2) Hi Hj E. destruct H2 as (tr & _ & _ & <- & Ho).
  rewrite <- H1 in Hi, Hj. exact (ordered_inj value _ _ _ Ho Hi Hj E).
Qed.
Next Obligation.
  intros value. exists []. split; [done|]. exists Leaf. split; [now split; cbn; try constructor|].
  split; [done|]. split; [done|]. split; constructor.
Qed.
Next Obligation.
  intros value t l a (nodes & H1 & H2) Ha.
  destruct (eff_done _ _ _ (lookup_exact_ok BAddr_CompareOrder value baddr_ok t nodes a H2 Ha)) as (r & t' & E & -> & Hr).
  exists r. cbn. rewrite E. split; [done|]. destruct H2 as (tr & _ & _ & _ & [_ Hok]). rewrite Forall_forall in Hok.
  destruct r as [j|].
  - destruct Hr as [Hj Hr]. split; [now rewrite <- H1|]. apply compare_order_eq in Hr; auto.
  - intros j Hj E2. apply (Hr j); [now rewrite H1|]. apply compare_order_eq; [done|apply Hok; now rewrite H1|done].
Qed.
Next Obligation.
  intros value t l p (nodes & H1 & H2) Hp Hok Hne.
  assert (Hp' : p ∉ nodes) by now rewrite H1.
  destruct (eff_done _ _ _ (insert_ok BAddr_CompareOrder value baddr_ok t nodes p H2 Hp' Hok))
    as ([r ref] & t' & E & [(Er & l1 & l2 & E1 & _ & H3)|(_ & _ & j & _ & Hj & Hc)]).
  - cbn in Er. subst r. exists t'. cbn. rewrite E. split; [done|]. exists (l1 ++ p :: l2). split; [|done].
    rewrite <- H1, E1. symmetry. apply Permutation_middle.
  - destruct H2 as (tr & _ & _ & _ & [_ Ho]). rewrite Forall_forall in Ho.
    apply compare_order_eq in Hc; [|done|now apply Ho]. destruct (Hne j); [now rewrite <- H1|done].
Qed.
Next Obligation.
  intros value t l p (nodes & H1 & H2) Hp. assert (Hp' : p ∈ nodes) by now rewrite H1.
  assert (Hnd : NoDup nodes).
  { destruct H2 as (tr & HT & _ & <- & _). pose proof (holds_nodup _ _ _ HT) as H. exact H. }
  destruct (eff_done _ _ _ (remove_ok BAddr_CompareOrder value baddr_ok t nodes p H2 Hp')) as ([] & t' & E & l1 & l2 & E1 & H3).
  exists t'. cbn. rewrite E. split; [done|]. exists (l1 ++ l2). split; [|done].
  rewrite <- H1, E1, filter_app, filter_cons_False by tauto.
  rewrite E1 in Hnd. rewrite <- Permutation_middle in Hnd. apply NoDup_cons in Hnd as [Hn _].
  rewrite <- filter_app. now rewrite filter_absent.
Qed.
