(* ===== verification/BPending.v ===== *)
(** * Pending jobs and the interfaces that use them ([badvpn/base/BPending.c], [badvpn/flow])

    A group of jobs is the list of those that are set, the one to execute first at
    the front: setting a job puts it at the front, so what a handler sets runs
    before anything that was set earlier. *)

From S2P Require Import Prelude.

Section Group.
Context {J : Type} {E : EqDecision J}.

Definition BPending_IsSet (j : J) (jobs : list J) : bool := bool_decide (j ∈ jobs).

Definition BPending_Unset (j : J) (jobs : list J) : list J := filter (fun k => k <> j) jobs.

Definition BPending_Set (j : J) (jobs : list J) : list J := j :: BPending_Unset j jobs.

Definition BPending_Free (j : J) (jobs : list J) : list J := BPending_Unset j jobs.

(** [BPendingGroup_ExecuteJob]: the job that is executed and what is left. *)
Definition BPendingGroup_ExecuteJob (jobs : list J) : option (J * list J) :=
  match jobs with [] => None | j :: jobs => Some (j, jobs) end.

Lemma unset_elem j k l : k ∈ BPending_Unset j l <-> k <> j /\ k ∈ l.
Proof. unfold BPending_Unset. now rewrite list_elem_of_filter. Qed.

Lemma unset_nodup j l : NoDup l -> NoDup (BPending_Unset j l).
Proof. apply NoDup_filter. Qed.

Lemma unset_absent j l : j ∉ l -> BPending_Unset j l = l.
Proof. apply filter_absent. Qed.

Lemma set_absent j l : j ∉ l -> BPending_Set j l = j :: l.
Proof. intros H. unfold BPending_Set. now rewrite unset_absent. Qed.

Lemma set_elem j k l : k ∈ BPending_Set j l <-> k = j \/ k ∈ l.
Proof. unfold BPending_Set. rewrite elem_of_cons, unset_elem. destruct (decide (k = j)); tauto. Qed.

Lemma set_nodup j l : NoDup l -> NoDup (BPending_Set j l).
Proof. intros H. constructor; [rewrite unset_elem; tauto|now apply unset_nodup]. Qed.

Lemma unset_here j l : BPending_Unset j (j :: l) = BPending_Unset j l.
Proof. unfold BPending_Unset. rewrite filter_cons_False; tauto. Qed.

Lemma unset_skip j k l : k <> j -> BPending_Unset j (k :: l) = k :: BPending_Unset j l.
Proof. intros H. unfold BPending_Unset. now rewrite filter_cons_True. Qed.

End Group.

(** ** Packet and stream interfaces ([badvpn/flow])

    Two objects pass data through an interface between them: one side starts an
    operation, a job calls the other side, which ends the operation some time later,
    and another job tells the first side. The four states an interface goes through
    are the same for packets and for streams, in both directions
    ([PacketPassInterface.h], [PacketRecvInterface.h], [StreamPassInterface.h],
    [StreamRecvInterface.h]). *)

Inductive pi_state := STATE_NONE | STATE_OPERATION_PENDING | STATE_BUSY | STATE_DONE_PENDING.

#[export] Instance pi_state_eq_dec : EqDecision pi_state.
Proof. solve_decision. Defined.
