(* ===== verification/SocksUdpGw.v ===== *)
(** * The UDP relay client ([badvpn/tun2socks/SocksUdpGwClient.c])

    The Android variant of the file: every local address has a connection, a UDP
    socket whose datagrams go to the SOCKS server with a SOCKS header, or without
    one to a DNS server. With it come the parts of [BufferWriter.c],
    [PacketRecvInterface.h] and [PacketPassInterface.h] a connection goes through, and
    the reactor's list of jobs, because the first packet of a connection is sent from
    a job, out of the buffer of the device.

    The connections are objects of a heap; using one that was freed is a fault, and so
    is a failed assertion and reading the buffer of the device when it may have been
    overwritten. *)

From S2P Require Import Prelude Effect BAddr UdpPacket BPending ConnTree.

Open Scope Z_scope.

(** ** State *)

(** The jobs of the connections: the first packet, the operation and the end of it of
    the writer's interface, of the interface datagrams are passed to, and the
    operation of the interface they come from. [DeviceDone] is [job_done] of the interface packets
    from the device arrive at, and [Other] a job of another part of the program. *)
Inductive job :=
  | FirstJob (c : nat)
  | WriterOperation (c : nat)
  | WriterDone (c : nat)
  | RecvOperation (c : nat)
  | RecvDone (c : nat)
  | DgramRecv (c : nat)
  | DeviceDone
  | Other (n : nat).

#[export] Instance job_eq_dec : EqDecision job.
Proof. solve_decision. Defined.

(** [SocksUdpGwClient_connection]: the address pair, the pointer to the first packet
    (the bytes and which packet of the device they are), the flag, the address its
    datagrams are sent to, the writer and the interface datagrams arrive at. *)
Record connection := Connection {
  local_addr : BAddr;
  remote_addr : BAddr;
  first_data : list Z;
  first_seq : nat;
  con_is_dns : bool;
  send_addr : BAddr;
  writer_state : pi_state;
  out_have : bool;
  d_writing : bool;
  recv_state : pi_state;
  recv_data : list Z;
}.

Definition with_conaddr (l r : BAddr) (o : connection) : connection :=
  Connection l r (first_data o) (first_seq o) (con_is_dns o) (send_addr o) (writer_state o) (out_have o) (d_writing o)
    (recv_state o) (recv_data o).
Definition with_is_dns (b : bool) (o : connection) : connection :=
  Connection (local_addr o) (remote_addr o) (first_data o) (first_seq o) b (send_addr o) (writer_state o) (out_have o)
    (d_writing o) (recv_state o) (recv_data o).
Definition with_writer (s : pi_state) (have writing : bool) (o : connection) : connection :=
  Connection (local_addr o) (remote_addr o) (first_data o) (first_seq o) (con_is_dns o) (send_addr o) s have writing
    (recv_state o) (recv_data o).
Definition with_recv (s : pi_state) (d : list Z) (o : connection) : connection :=
  Connection (local_addr o) (remote_addr o) (first_data o) (first_seq o) (con_is_dns o) (send_addr o) (writer_state o)
    (out_have o) (d_writing o) s d.

(** The parameters of [SocksUdpGwClient_Init]. *)
Record config := Config {
  udp_mtu : Z;
  udpgw_mtu : Z;
  max_connections : Z;
  socks_server_addr : BAddr;
  dnsgw : BAddr;
}.

(** The client and what it acts on: [accepted] and [sent] record the packets taken for
    a connection and the datagrams passed to the queue of its socket, [delivered]
    what was passed to [handler_received]. [device] is the packet whose bytes are in
    the buffer of the device, and [answers] the results of the calls that can fail. *)
Record client {T : Type} := Client {
  num_connections : Z;
  connections_tree : T;
  connections_list : list nat;
  connections : gmap nat connection;
  fresh : nat;
  jobs : list job;
  device : option nat;
  accepted : list (nat * submission);
  sent : list (nat * list Z);
  delivered : list (BAddr * BAddr * list Z);
  answers : list bool;
}.
Arguments client : clear implicits.

Section Client.
Context {T : Type} `{!ConnTree T}.

Notation st := (client T).

Definition with_num (f : Z -> Z) (s : st) : st :=
  Client T (f (num_connections s)) (connections_tree s) (connections_list s) (connections s) (fresh s) (jobs s)
    (device s) (accepted s) (sent s) (delivered s) (answers s).
Definition with_tree (t : T) (s : st) : st :=
  Client T (num_connections s) t (connections_list s) (connections s) (fresh s) (jobs s)
    (device s) (accepted s) (sent s) (delivered s) (answers s).
Definition with_list (f : list nat -> list nat) (s : st) : st :=
  Client T (num_connections s) (connections_tree s) (f (connections_list s)) (connections s) (fresh s) (jobs s)
    (device s) (accepted s) (sent s) (delivered s) (answers s).
Definition with_connections (f : gmap nat connection -> gmap nat connection) (s : st) : st :=
  Client T (num_connections s) (connections_tree s) (connections_list s) (f (connections s)) (fresh s) (jobs s)
    (device s) (accepted s) (sent s) (delivered s) (answers s).
Definition with_fresh (n : nat) (s : st) : st :=
  Client T (num_connections s) (connections_tree s) (connections_list s) (connections s) n (jobs s)
    (device s) (accepted s) (sent s) (delivered s) (answers s).
Definition with_jobs (f : list job -> list job) (s : st) : st :=
  Client T (num_connections s) (connections_tree s) (connections_list s) (connections s) (fresh s) (f (jobs s))
    (device s) (accepted s) (sent s) (delivered s) (answers s).
Definition with_device (d : option nat) (s : st) : st :=
  Client T (num_connections s) (connections_tree s) (connections_list s) (connections s) (fresh s) (jobs s)
    d (accepted s) (sent s) (delivered s) (answers s).
Definition with_accepted (x : nat * submission) (s : st) : st :=
  Client T (num_connections s) (connections_tree s) (connections_list s) (connections s) (fresh s) (jobs s)
    (device s) (accepted s ++ [x]) (sent s) (delivered s) (answers s).
Definition with_sent (x : nat * list Z) (s : st) : st :=
  Client T (num_connections s) (connections_tree s) (connections_list s) (connections s) (fresh s) (jobs s)
    (device s) (accepted s) (sent s ++ [x]) (delivered s) (answers s).
Definition with_delivered (x : BAddr * BAddr * list Z) (s : st) : st :=
  Client T (num_connections s) (connections_tree s) (connections_list s) (connections s) (fresh s) (jobs s)
    (device s) (accepted s) (sent s) (delivered s ++ [x]) (answers s).
Definition with_answers (l : list bool) (s : st) : st :=
  Client T (num_connections s) (connections_tree s) (connections_list s) (connections s) (fresh s) (jobs s)
    (device s) (accepted s) (sent s) (delivered s) l.

(** ** Access *)

Definition con (line : Z) (c : nat) : eff st connection :=
  s ← get_st;
  match connections s !! c with Some o => mret o | None => bad line end.

Definition set_con (line : Z) (c : nat) (f : connection -> connection) : eff st unit :=
  o ← con line c;
  upd_st (with_connections (<[c := f o]>)).

Definition set_job (j : job) : eff st unit := upd_st (with_jobs (BPending_Set j)).

(** The result of a call that may fail; what is not scripted succeeds. *)
Definition answer : eff st bool :=
  s ← get_st;
  match answers s with
  | [] => mret true
  | b :: l => upd_st (with_answers l) ;; mret b
  end.

(** The value of a node of the tree: [conaddr] of the connection around it, of which
    [conaddr_comparator] looks at the local address. *)
Definition node_value (s : st) (c : nat) : BAddr :=
  match connections s !! c with Some o => local_addr o | None => BADDR_NONE end.

(** ** Interfaces *)

(** [PacketRecvInterface_Receiver_Recv] on the writer's output. *)
Definition Writer_Recv (c : nat) : eff st unit :=
  o ← con 158 c;
  assert_at 158 (bool_decide (writer_state o = STATE_NONE)) ;;
  set_job (WriterOperation c) ;;
  set_con 167 c (with_writer STATE_OPERATION_PENDING (out_have o) (d_writing o)).

(** [_PacketRecvInterface_job_operation], calling [output_handler_recv] of the writer. *)
Definition writer_job_operation (c : nat) : eff st unit :=
  o ← con 34 c;
  assert_at 34 (bool_decide (writer_state o = STATE_OPERATION_PENDING)) ;;
  set_con 38 c (with_writer STATE_BUSY (out_have o) (d_writing o)) ;;
  o ← con 36 c;
  assert_at 36 (negb (out_have o)) ;;
  set_con 39 c (with_writer (writer_state o) true (d_writing o)).

(** [_PacketRecvInterface_job_done]; the handler is [PacketBuffer]'s. *)
Definition writer_job_done (c : nat) : eff st unit :=
  o ← con 47 c;
  assert_at 47 (bool_decide (writer_state o = STATE_DONE_PENDING)) ;;
  set_con 51 c (with_writer STATE_NONE (out_have o) (d_writing o)).

Definition BufferWriter_StartPacket (c : nat) : eff st bool :=
  o ← con 77 c;
  assert_at 77 (negb (d_writing o)) ;;
  if negb (out_have o) then mret false
  else
    set_con 89 c (with_writer (writer_state o) (out_have o) true) ;;
    mret true.

Context (cfg : config).

(** The packet written is passed on with the call. *)
Definition BufferWriter_EndPacket (c : nat) (packet : list Z) : eff st unit :=
  let len := Z.of_nat (length packet) in
  o ← con 98 c;
  assert_at 98 (len <=? udp_mtu cfg) ;;
  assert_at 99 (out_have o) ;;
  assert_at 100 (d_writing o) ;;
  assert_at 127 (bool_decide (writer_state o = STATE_BUSY)) ;;
  set_job (WriterDone c) ;;
  upd_st (with_sent (c, packet)) ;;
  set_con 110 c (with_writer STATE_DONE_PENDING false false).

(** [PacketPassInterface_Sender_Send], by the receive buffer of the socket. *)
Definition Recv_Send (c : nat) (data : list Z) : eff st unit :=
  o ← con 186 c;
  assert_at 184 (Z.of_nat (length data) <=? udp_mtu cfg) ;;
  assert_at 186 (bool_decide (recv_state o = STATE_NONE)) ;;
  set_job (RecvOperation c) ;;
  set_con 196 c (with_recv STATE_OPERATION_PENDING data).

(** [_PacketPassInterface_job_done]; the handler, [output_handler_done] of
    [SinglePacketBuffer.c], asks for the next datagram. *)
Definition recv_job_done (c : nat) : eff st unit :=
  o ← con 59 c;
  assert_at 59 (bool_decide (recv_state o = STATE_DONE_PENDING)) ;;
  set_con 63 c (with_recv STATE_NONE (recv_data o)) ;;
  set_job (DgramRecv c).

(** ** Receiving *)

Definition SOCKS_ATYP_IPV4 : Z := 1.
Definition SOCKS_ATYP_IPV6 : Z := 4.
Definition sizeof_socks_udp_header : nat := 4.
Definition sizeof_udpgw_addr_ipv4 : nat := 6.
Definition sizeof_udpgw_addr_ipv6 : nat := 18.

(** Lines 88 to 131: the remote address and the data behind the header. *)
Definition parse_header (data : list Z) : option (BAddr * list Z) :=
  if (length data <? sizeof_socks_udp_header)%nat then None
  else
    let header := take sizeof_socks_udp_header data in
    let data := drop sizeof_socks_udp_header data in
    let frag := nth 2 header 0 in
    let atyp := nth 3 header 0 in
    if negb (frag =? 0) then None
    else if atyp =? SOCKS_ATYP_IPV6 then
      if (length data <? sizeof_udpgw_addr_ipv6)%nat then None
      else Some (BAddr_InitIPv6 (take 16 data) (take 2 (drop 16 data)), drop sizeof_udpgw_addr_ipv6 data)
    else
      if (length data <? sizeof_udpgw_addr_ipv4)%nat then None
      else Some (BAddr_InitIPv4 (take 4 data) (take 2 (drop 4 data)), drop sizeof_udpgw_addr_ipv4 data).

(** Lines 143 to 150. *)
Definition submit_to_user (c : nat) (data : list Z) : eff st unit :=
  if Z.of_nat (length data) >? udp_mtu cfg then mret tt
  else
    o ← con 150 c;
    upd_st (with_delivered (local_addr o, remote_addr o, data)).

Definition dgram_handler_received (c : nat) (data : list Z) : eff st unit :=
  o ← con 76 c;
  assert_at 81 (Z.of_nat (length data) <=? udpgw_mtu cfg) ;;
  assert_at 151 (bool_decide (recv_state o = STATE_BUSY)) ;;
  set_job (RecvDone c) ;;
  set_con 161 c (with_recv STATE_DONE_PENDING (recv_data o)) ;;
  if negb (con_is_dns o) then
    match parse_header data with
    | None => mret tt
    | Some (remote, data) =>
        set_con 134 c (fun o => with_conaddr (local_addr o) remote o) ;;
        submit_to_user c data
    end
  else submit_to_user c data.

(** [_PacketPassInterface_job_operation] *)
Definition recv_job_operation (c : nat) : eff st unit :=
  o ← con 34 c;
  assert_at 34 (bool_decide (recv_state o = STATE_OPERATION_PENDING)) ;;
  set_con 38 c (with_recv STATE_BUSY (recv_data o)) ;;
  dgram_handler_received c (recv_data o).

(** ** Connections *)

Definition find_connection (local : BAddr) (is_dns : bool) : eff st (option nat) :=
  s ← get_st;
  match ct_lookup (node_value s) local (connections_tree s) with
  | None => bad 160
  | Some None => mret None
  | Some (Some c) =>
      (* [!con] is false for the node that was found *)
      mret (Some c)
  end.

Definition connection_free (c : nat) : eff st unit :=
  o ← con 349 c;
  upd_st (with_num (fun n => n - 1)) ;;
  upd_st (with_list (filter (fun j => j <> c))) ;;
  s ← get_st;
  match ct_remove c (connections_tree s) with
  | None => bad 358
  | Some t => upd_st (with_tree t)
  end ;;
  upd_st (with_jobs (BPending_Free (RecvDone c))) ;;
  upd_st (with_jobs (BPending_Free (RecvOperation c))) ;;
  upd_st (with_jobs (BPending_Free (WriterDone c))) ;;
  upd_st (with_jobs (BPending_Free (WriterOperation c))) ;;
  upd_st (with_jobs (BPending_Free (DgramRecv c))) ;;
  upd_st (with_connections (delete c)).

Definition remove_lru_connection (local : BAddr) (is_dns : bool) : eff st unit :=
  found ← find_connection local is_dns;
  assert_at 175 (match found with None => true | Some _ => false end) ;;
  s ← get_st;
  assert_at 176 (0 <? num_connections s) ;;
  match connections_list s with
  | [] => bad 179
  | c :: _ => connection_free c
  end.

Definition reset_connection (c : nat) (local remote : BAddr) (is_dns : bool) : eff st unit :=
  set_con 188 c (with_conaddr local remote) ;;
  set_con 189 c (with_is_dns is_dns).

(** Lines 202 to 234: what is written before the data. *)
Definition packet_header (remote : BAddr) (is_dns : bool) : list Z :=
  if is_dns then []
  else
    match remote with
    | BADDR_IPV4 ip port => [0; 0; 0; SOCKS_ATYP_IPV4] ++ ip ++ port
    | BADDR_IPV6 ip port => [0; 0; 0; SOCKS_ATYP_IPV6] ++ ip ++ port
    | BADDR_NONE => [0; 0; 0; SOCKS_ATYP_IPV6]
    end.

(** [true] is the result 1: the packet is dropped. *)
Definition connection_send (c : nat) (data : list Z) : eff st bool :=
  started ← BufferWriter_StartPacket c;
  if negb started then mret true
  else
    o ← con 202 c;
    BufferWriter_EndPacket c (packet_header (remote_addr o) (con_is_dns o) ++ data) ;;
    mret false.

Definition connection_first_job_handler (c : nat) : eff st unit :=
  o ← con 248 c;
  s ← get_st;
  assert_at 248 (bool_decide (device s = Some (first_seq o))) ;;
  connection_send c (first_data o) ;;
  mret tt.

(** The failure paths of [connection_init] end by freeing what was set up. *)
Definition init_failed (c : nat) : eff st (option nat) :=
  upd_st (with_jobs (BPending_Free (WriterDone c))) ;;
  upd_st (with_jobs (BPending_Free (WriterOperation c))) ;;
  upd_st (with_jobs (BPending_Free (FirstJob c))) ;;
  upd_st (with_connections (delete c)) ;;
  mret None.

Definition connection_init (local remote : BAddr) (data : list Z) (is_dns : bool) : eff st (option nat) :=
  allocated ← answer;
  if negb allocated then mret None
  else
    s ← get_st;
    let c := fresh s in
    upd_st (with_fresh (S c)) ;;
    let target := if is_dns then dnsgw cfg else socks_server_addr cfg in
    upd_st (with_connections (<[c := Connection local remote data (default O (device s)) is_dns target STATE_NONE false false
      STATE_NONE []]>)) ;;
    set_job (FirstJob c) ;;
    dgram_ok ← answer;
    if negb dgram_ok then init_failed c
    else
      reuse_ok ← answer;
      if negb reuse_ok then init_failed c
      else
        buffer_ok ← answer;
        if negb buffer_ok then init_failed c
        else
          Writer_Recv c ;;
          recv_ok ← answer;
          if negb recv_ok then init_failed c
          else
            set_job (DgramRecv c) ;;
            s ← get_st;
            match ct_insert (node_value s) c (connections_tree s) with
            | Some (true, t) =>
                upd_st (with_tree t) ;;
                upd_st (with_list (fun l => l ++ [c])) ;;
                upd_st (with_num (fun n => n + 1)) ;;
                mret (Some c)
            | _ => bad 317
            end.

(** ** The interface of the client *)

Definition SocksUdpGwClient_Init : st :=
  Client T 0 ct_init [] ∅ 0 [] None [] [] [] [].

Definition SocksUdpGwClient_SubmitPacket (sub : submission) : eff st unit :=
  let local := sub_local sub in
  let remote := sub_remote sub in
  let is_dns := sub_is_dns sub in
  let data := sub_data sub in
  assert_at 598 (negb (BAddr_IsInvalid local)) ;;
  assert_at 599 (negb (BAddr_IsInvalid remote)) ;;
  assert_at 601 (Z.of_nat (length data) <=? udp_mtu cfg) ;;
  found ← find_connection local is_dns;
  match found with
  | None =>
      s ← get_st;
      whenever (num_connections s =? max_connections cfg) (remove_lru_connection local is_dns) ;;
      made ← connection_init local remote data is_dns;
      match made with
      | Some c => upd_st (with_accepted (c, sub))
      | None => mret tt
      end
  | Some c =>
      reset_connection c local remote is_dns ;;
      res ← connection_send c data;
      if res : bool then mret tt
      else
        upd_st (with_list (filter (fun j => j <> c))) ;;
        upd_st (with_list (fun l => l ++ [c])) ;;
        upd_st (with_accepted (c, sub))
  end.

Fixpoint free_connections (fuel : nat) : eff st unit :=
  s ← get_st;
  match connections_list s with
  | [] => mret tt
  | c :: _ => match fuel with O => bad 574 | S fuel => connection_free c ;; free_connections fuel end
  end.

Definition SocksUdpGwClient_Free : eff st unit :=
  s ← get_st;
  free_connections (length (connections_list s)).

(** ** The reactor *)

(** What the handlers of other parts of the program do to the interfaces of this one:
    the packet queue asks the writer for a packet, a datagram arrives, other jobs are
    set. An action that the contract of the interface excludes is skipped, and so is a
    datagram for a socket that has not sent any: it has no port yet. *)
Inductive act := ActWriter (c : nat) | ActDatagram (c : nat) (data : list Z) | ActOther (n : nat).

Definition perform_act (a : act) : eff st unit :=
  s ← get_st;
  match a with
  | ActWriter c =>
      match connections s !! c with
      | Some o => whenever (bool_decide (writer_state o = STATE_NONE)) (Writer_Recv c)
      | None => mret tt
      end
  | ActDatagram c data =>
      match connections s !! c with
      | Some o =>
          whenever (bool_decide (recv_state o = STATE_NONE) && (Z.of_nat (length data) <=? udp_mtu cfg) &&
            existsb (fun x => bool_decide (fst x = c)) (sent s)) (Recv_Send c data)
      | None => mret tt
      end
  | ActOther n => set_job (Other n)
  end.

Fixpoint perform_acts (l : list act) : eff st unit :=
  match l with [] => mret tt | a :: l => perform_act a ;; perform_acts l end.

(** The job at the front of the list is executed. *)
Definition execute_job (acts : list act) : eff st unit :=
  s ← get_st;
  match BPendingGroup_ExecuteJob (jobs s) with
  | None => perform_acts acts
  | Some (j, rest) =>
      upd_st (with_jobs (fun _ => rest)) ;;
      match j with
      | FirstJob c => connection_first_job_handler c
      | WriterOperation c => writer_job_operation c
      | WriterDone c => writer_job_done c ;; perform_acts acts
      | RecvOperation c => recv_job_operation c
      | RecvDone c => recv_job_done c
      | DgramRecv c => perform_acts acts
      | DeviceDone => upd_st (with_device None) ;; perform_acts acts
      | Other _ => perform_acts acts
      end
  end.

(** [device_read_handler_send] with a packet that [process_device_udp_packet] passes
    to the client: the packet is accepted first, which sets [DeviceDone]. *)
Definition device_packet (seq : nat) (sub : submission) : eff st unit :=
  s ← get_st;
  assert_at 151 (bool_decide (DeviceDone ∉ jobs s)) ;;
  upd_st (with_device (Some seq)) ;;
  set_job DeviceDone ;;
  SocksUdpGwClient_SubmitPacket sub.

End Client.
