(* ===== verification/SocksUdpInv.v ===== *)
(** * The invariant of the UDP relay client

    What holds between two jobs: the list, the tree and the objects name the same
    connections; the state of every interface says which of its jobs is set; and the
    first packet of a connection is either sent or waits in a job that runs before
    the buffer of the device is released. *)

From S2P Require Import Prelude Effect BAddr UdpPacket BPending ConnTree SocksUdpGw.

Open Scope Z_scope.

(** The connection a job belongs to. *)
Definition job_con (j : job) : option nat :=
  match j with
  | FirstJob c | WriterOperation c | WriterDone c | RecvOperation c | RecvDone c | DgramRecv c => Some c
  | DeviceDone | Other _ => None
  end.

(** The datagram made of a packet. *)
Definition udp_message (sub : submission) : list Z :=
  packet_header (sub_remote sub) (sub_is_dns sub) ++ sub_data sub.

Definition datagram (x : nat * submission) : nat * list Z := (fst x, udp_message (snd x)).

Section Inv.
Context {T : Type} `{!ConnTree T} `{!ConnTreeLaws T} (cfg : config).

Notation st := (client T).

(** The interfaces of a connection, when the jobs [l] are set. *)
Record con_ok (l : list job) (c : nat) (o : connection) : Prop := ConOk {
  co_local : baddr_ok (local_addr o);
  co_writer_op : WriterOperation c ∈ l <-> writer_state o = STATE_OPERATION_PENDING;
  co_writer_done : WriterDone c ∈ l <-> writer_state o = STATE_DONE_PENDING;
  co_have : out_have o = bool_decide (writer_state o = STATE_BUSY);
  co_writing : d_writing o = false;
  co_recv_op : RecvOperation c ∈ l <-> recv_state o = STATE_OPERATION_PENDING;
  co_recv_done : RecvDone c ∈ l <-> recv_state o = STATE_DONE_PENDING;
  co_recv_busy : recv_state o <> STATE_BUSY;
  co_recv_data : recv_state o = STATE_OPERATION_PENDING -> Z.of_nat (length (recv_data o)) <= udp_mtu cfg;
}.

Record base (s : st) : Prop := Base {
  b_num : num_connections s = Z.of_nat (length (connections_list s));
  b_max : num_connections s <= max_connections cfg;
  b_nodup : NoDup (connections_list s);
  b_list : forall c, c ∈ connections_list s <-> is_Some (connections s !! c);
  b_tree : ct_nodes (node_value s) (connections_tree s) (connections_list s);
  b_jobs : NoDup (jobs s);
  b_con : forall c o, connections s !! c = Some o -> con_ok (jobs s) c o;
  b_live : forall j c, j ∈ jobs s -> job_con j = Some c -> is_Some (connections s !! c);
  b_fresh : forall c, is_Some (connections s !! c) -> (c < fresh s)%nat;
  b_sent : forall x, x ∈ sent s -> (fst x < fresh s)%nat;
  b_recv : forall c o, connections s !! c = Some o -> recv_state o = STATE_OPERATION_PENDING ->
    exists x, x ∈ sent s /\ fst x = c;
}.

(** No first packet waits, and what was accepted was sent. *)
Definition settled (s : st) : Prop :=
  (forall c, FirstJob c ∉ jobs s) /\ sent s = map datagram (accepted s).

(** The last packet accepted is the first one of its connection and waits in a job. *)
Definition waiting (s : st) : Prop :=
  exists c o sub acc l1 l2,
    jobs s = l1 ++ FirstJob c :: l2 /\ DeviceDone ∈ l2 /\ (forall c', FirstJob c' ∉ l1 ++ l2) /\
    connections s !! c = Some o /\ device s = Some (first_seq o) /\
    accepted s = acc ++ [(c, sub)] /\ sent s = map datagram acc /\
    first_data o = sub_data sub /\ remote_addr o = sub_remote sub /\ con_is_dns o = sub_is_dns sub /\
    Z.of_nat (length (udp_message sub)) <= udp_mtu cfg /\
    (WriterOperation c ∈ l1 \/ writer_state o = STATE_BUSY) /\
    (forall x, x ∈ sent s -> fst x <> c).

Definition inv (s : st) : Prop := base s /\ (settled s \/ waiting s).

(** ** Running the primitives *)

Lemma runs_con (s : st) line c o Q : connections s !! c = Some o -> Q o s -> runs (con line c) Q s.
Proof. intros E H. unfold con. step_eff. step_eff. now rewrite E. Qed.

Lemma runs_set_con (s : st) line c o f Q :
  connections s !! c = Some o -> Q tt (with_connections (<[c := f o]>) s) -> runs (set_con line c f) Q s.
Proof. intros E H. unfold set_con. step_eff. apply (runs_con _ _ _ _ _ E). now step_eff. Qed.

Lemma set_twice (s : st) c a b :
  with_connections (<[c := b]>) (with_connections (<[c := a]>) s) = with_connections (<[c := b]>) s.
Proof. destruct s. unfold with_connections. cbn. now rewrite insert_insert_eq. Qed.

Lemma runs_set_job (s : st) j Q : Q tt (with_jobs (BPending_Set j) s) -> runs (set_job j) Q s.
Proof. done. Qed.

Lemma runs_reply (s : st) (Q : bool -> st -> Prop) : (forall b l, Q b (with_answers l s)) -> runs answer Q s.
Proof.
  intros H. unfold answer. step_eff. step_eff. destruct (answers s) as [|b l] eqn:E.
  - step_eff. specialize (H true []). destruct s; cbn in *. now rewrite <- E in H.
  - step_eff. step_eff. step_eff. apply H.
Qed.

(** ** Local changes *)

(** The jobs that matter to a connection. *)
Lemma con_ok_jobs l l' c o :
  (forall j, job_con j = Some c -> (forall k, j <> FirstJob k) -> (forall k, j <> DgramRecv k) -> (j ∈ l' <-> j ∈ l)) ->
  con_ok l c o -> con_ok l' c o.
Proof.
  intros H []. split; auto; [rewrite (H (WriterOperation c))|rewrite (H (WriterDone c))|rewrite (H (RecvOperation c))
    |rewrite (H (RecvDone c))]; done.
Qed.

(** A change of one connection and of its jobs. *)
Lemma base_update s s' c o o' :
  base s -> connections s !! c = Some o ->
  num_connections s' = num_connections s -> connections_tree s' = connections_tree s ->
  connections_list s' = connections_list s -> connections s' = <[c := o']> (connections s) -> fresh s' = fresh s ->
  local_addr o' = local_addr o -> con_ok (jobs s') c o' -> NoDup (jobs s') ->
  (forall j c', job_con j = Some c' -> c' <> c -> (j ∈ jobs s' <-> j ∈ jobs s)) ->
  (forall x, x ∈ sent s' -> x ∈ sent s \/ fst x = c) -> (forall x, x ∈ sent s -> x ∈ sent s') ->
  (recv_state o' = STATE_OPERATION_PENDING -> recv_state o = STATE_OPERATION_PENDING \/ exists x, x ∈ sent s' /\ fst x = c) ->
  base s'.
Proof.
  intros [] E E1 E2 E3 E4 E5 Hl Hc Hnd Hj Hs Hs' Hr.
  assert (Hlook : forall k, is_Some (connections s' !! k) <-> is_Some (connections s !! k)).
  { intros k. rewrite E4. destruct (decide (k = c)) as [ -> |Hk]; [rewrite lookup_insert_eq, E; split; eauto|].
    now rewrite lookup_insert_ne. }
  split; rewrite ?E1, ?E2, ?E3, ?E5; auto.
  - intros k. now rewrite Hlook.
  - apply (ct_nodes_ext (node_value s)); [|done]. intros i _. unfold node_value. rewrite E4.
    destruct (decide (i = c)) as [ -> |Hi]; [now rewrite lookup_insert_eq, E|now rewrite lookup_insert_ne].
  - intros k ok. rewrite E4. destruct (decide (k = c)) as [ -> |Hk]; [rewrite lookup_insert_eq; now intros [= <-]|].
    rewrite lookup_insert_ne by done. intros Ek. apply (con_ok_jobs (jobs s)); [|auto].
    intros j Ej _ _. now apply (Hj j k).
  - intros j k Hjk Ej. rewrite Hlook. destruct (decide (k = c)) as [ -> |Hk]; [rewrite E; eauto|].
    apply (b_live0 j k); [|done]. now apply (Hj j k).
  - intros k Hk. apply b_fresh0. now apply Hlook.
  - intros x Hx. destruct (Hs x Hx) as [H| -> ]; [auto|]. apply b_fresh0. rewrite E. eauto.
  - assert (Hold : forall k ok, connections s !! k = Some ok -> recv_state ok = STATE_OPERATION_PENDING ->
      exists x, x ∈ sent s' /\ fst x = k).
    { intros k ok Ek Hk. destruct (b_recv0 k ok Ek Hk) as (x & Hx & Ex). eauto. }
    intros k ok. rewrite E4. destruct (decide (k = c)) as [ -> |Hk]; [rewrite lookup_insert_eq; intros [= <-]|].
    + intros H. destruct (Hr H) as [H'|H']; [now apply (Hold c o)|done].
    + rewrite lookup_insert_ne by done. apply Hold.
Qed.

(** A change of the jobs of other parts only. *)
Lemma base_jobs s s' :
  base s ->
  num_connections s' = num_connections s -> connections_tree s' = connections_tree s ->
  connections_list s' = connections_list s -> connections s' = connections s -> fresh s' = fresh s -> sent s' = sent s ->
  NoDup (jobs s') -> (forall j c, job_con j = Some c -> (j ∈ jobs s' -> j ∈ jobs s)) ->
  (forall j c, job_con j = Some c -> (forall k, j <> FirstJob k) -> (forall k, j <> DgramRecv k) -> j ∈ jobs s -> j ∈ jobs s') ->
  base s'.
Proof.
  intros [] E1 E2 E3 E4 E5 E6 Hnd Hj Hj'.
  split; rewrite ?E1, ?E2, ?E3, ?E4, ?E5, ?E6; auto.
  - apply (ct_nodes_ext (node_value s)); [|done]. intros i _. unfold node_value. now rewrite E4.
  - intros c o E. apply (con_ok_jobs (jobs s)); [|auto]. intros j Ej F1 F2. split; [now apply (Hj j c)|now apply (Hj' j c)].
  - intros j c Hjc Ec. apply (b_live0 j c); [|done]. now apply (Hj j c).
Qed.

(** The waiting packet is not concerned by another job, nor by a change of its
    connection that keeps the packet and does not take the writer away. *)
Lemma waiting_set s s' k :
  (forall c, k <> FirstJob c) -> k <> DeviceDone ->
  jobs s' = BPending_Set k (jobs s) -> connections s' = connections s -> device s' = device s ->
  accepted s' = accepted s -> sent s' = sent s -> waiting s -> waiting s'.
Proof.
  intros Hk Hk' E1 E2 E3 E4 E5 (c & o & sub & acc & l1 & l2 & H1 & H2 & H3 & H4 & H5 & H6 & H7 & H8 & H9 & H10 & H11 & H12 & H13).
  exists c, o, sub, acc, (k :: BPending_Unset k l1), (BPending_Unset k l2). rewrite E1, E2, E3, E4, E5.
  split. { rewrite H1. unfold BPending_Set, BPending_Unset. rewrite filter_app, filter_cons_True by auto. done. }
  split; [now apply unset_elem|]. split.
  { intros c' Hc'. cbn in Hc'. apply elem_of_cons in Hc' as [Hc'|Hc']; [now apply (Hk c')|].
    apply (H3 c'). apply elem_of_app in Hc'. rewrite !unset_elem in Hc'. set_solver. }
  do 8 (split; [done|]). split; [|done].
  destruct H12 as [H12|H12]; [left|now right]. destruct (decide (k = WriterOperation c)) as [ -> |Hkc]; [now left|].
  right. apply unset_elem. auto.
Qed.

Lemma waiting_con s s' c o o' :
  connections s !! c = Some o -> connections s' = <[c := o']> (connections s) ->
  jobs s' = jobs s -> device s' = device s -> accepted s' = accepted s -> sent s' = sent s ->
  first_data o' = first_data o -> first_seq o' = first_seq o -> remote_addr o' = remote_addr o ->
  con_is_dns o' = con_is_dns o -> (writer_state o = STATE_BUSY -> writer_state o' = STATE_BUSY) ->
  waiting s -> waiting s'.
Proof.
  intros E E1 E2 E3 E4 E5 F1 F2 F3 F4 F5
    (c0 & o0 & sub & acc & l1 & l2 & H1 & H2 & H3 & H4 & H5 & H6 & H7 & H8 & H9 & H10 & H11 & H12 & H13).
  exists c0, (if decide (c0 = c) then o' else o0), sub, acc, l1, l2. rewrite E1, E2, E3, E4, E5.
  destruct (decide (c0 = c)) as [ -> |Hc].
  - rewrite E in H4. injection H4 as <-. rewrite lookup_insert_eq, F1, F2, F3, F4. repeat (split; [done|]). split; [|done].
    destruct H12; auto.
  - rewrite lookup_insert_ne by done. now repeat (split; [done|]).
Qed.

Lemma settled_set s s' k :
  (forall c, k <> FirstJob c) -> jobs s' = BPending_Set k (jobs s) -> accepted s' = accepted s -> sent s' = sent s ->
  settled s -> settled s'.
Proof.
  intros Hk E1 E2 E3 [H1 H2]. split; [|congruence]. intros c. rewrite E1. unfold BPending_Set.
  rewrite elem_of_cons, unset_elem. intros [E|[_ H]]; [now apply (Hk c)|now apply (H1 c)].
Qed.

End Inv.
