(* ===== verification/SocksUdpStep.v ===== *)
(** * Jobs keep the invariant

    Every job of the reactor's list runs without a fault and keeps the invariant. *)

From S2P Require Import Prelude Effect BAddr UdpPacket BPending ConnTree SocksUdpGw SocksUdpInv.

Open Scope Z_scope.

Section Step.
Context {T : Type} `{!ConnTree T} `{!ConnTreeLaws T} (cfg : config).

Notation st := (client T).
Notation inv := (inv cfg).
Notation base := (base cfg).

Context (Hmtu : udp_mtu cfg <= udpgw_mtu cfg).

(** ** What other parts do to the interfaces *)

Lemma writer_recv_inv (s : st) c o :
  inv s -> connections s !! c = Some o -> writer_state o = STATE_NONE ->
  runs (Writer_Recv c) (fun _ => inv) s.
Proof.
  intros [Hb Hf] E Hw. pose proof (b_con _ _ Hb c o E) as Hc. destruct Hc.
  assert (Hn : WriterOperation c ∉ jobs s) by (rewrite co_writer_op, Hw; done).
  unfold Writer_Recv. step_eff. apply (runs_con _ _ _ _ _ E). step_eff. step_eff; [now apply bool_decide_true|].
  step_eff. apply runs_set_job. eapply runs_set_con; [exact E|].
  set (o' := with_writer _ _ _ o). set (s1 := with_jobs (BPending_Set (WriterOperation c)) s). split.
  - apply (base_update cfg s _ c o o' Hb E); try done.
    + split; cbn; auto; rewrite ?set_elem; rewrite ?Hw in *; naive_solver.
    + cbn. apply set_nodup, Hb.
    + intros j c' Ej Hc'. cbn. rewrite set_elem. split; [|tauto]. intros [ -> |H]; [|done]. cbn in Ej. congruence.
    + auto.
    + auto.
  - destruct Hf as [Hf|Hf]; [left|right].
    + apply (settled_set s _ (WriterOperation c)); done.
    + apply (waiting_con cfg s1 _ c o o'); try done; [cbn; congruence|].
      apply (waiting_set cfg s _ (WriterOperation c)); done.
Qed.

Lemma recv_send_inv (s : st) c o data :
  inv s -> connections s !! c = Some o -> recv_state o = STATE_NONE -> Z.of_nat (length data) <= udp_mtu cfg ->
  (exists x, x ∈ sent s /\ fst x = c) ->
  runs (Recv_Send cfg c data) (fun _ => inv) s.
Proof.
  intros [Hb Hf] E Hw Hlen Hsent. pose proof (b_con _ _ Hb c o E) as Hc. destruct Hc.
  assert (Hn : RecvOperation c ∉ jobs s) by (rewrite co_recv_op, Hw; done).
  unfold Recv_Send. step_eff. apply (runs_con _ _ _ _ _ E). step_eff. step_eff; [lia|].
  step_eff. step_eff; [now apply bool_decide_true|].
  step_eff. apply runs_set_job. eapply runs_set_con; [exact E|].
  set (o' := with_recv _ _ o). set (s1 := with_jobs (BPending_Set (RecvOperation c)) s). split.
  - apply (base_update cfg s _ c o o' Hb E); try done.
    + split; cbn; auto; rewrite ?set_elem; rewrite ?Hw in *; naive_solver.
    + cbn. apply set_nodup, Hb.
    + intros j c' Ej Hc'. cbn. rewrite set_elem. split; [|tauto]. intros [ -> |H]; [|done]. cbn in Ej. congruence.
    + auto.
    + auto.
  - destruct Hf as [Hf|Hf]; [left|right].
    + apply (settled_set s _ (RecvOperation c)); done.
    + apply (waiting_con cfg s1 _ c o o'); try done.
      apply (waiting_set cfg s _ (RecvOperation c)); done.
Qed.

Lemma set_other_inv (s : st) j :
  inv s -> job_con j = None -> j <> DeviceDone -> inv (with_jobs (BPending_Set j) s).
Proof.
  intros [Hb Hf] Hj Hd. split.
  - apply (base_jobs cfg s _ Hb); try done; cbn.
    + apply set_nodup, Hb.
    + intros k c Hk. rewrite set_elem. intros [ -> |H]; [congruence|done].
    + intros k c Hk _ _. rewrite set_elem. auto.
  - destruct Hf as [Hf|Hf]; [left; apply (settled_set s _ j)|right; apply (waiting_set cfg s _ j)]; try done;
      intros c ->; done.
Qed.

Lemma set_dgram_inv (s : st) c :
  inv s -> is_Some (connections s !! c) -> inv (with_jobs (BPending_Set (DgramRecv c)) s).
Proof.
  intros [Hb Hf] [o E]. split.
  - apply (base_update cfg s _ c o o Hb E); try done; cbn.
    + now rewrite insert_id.
    + apply (con_ok_jobs cfg (jobs s)); [|exact (b_con _ _ Hb c o E)]. intros j Hj _ Hd. rewrite set_elem.
      split; [|tauto]. intros [ -> |H]; [|done]. now destruct (Hd c).
    + apply set_nodup, Hb.
    + intros j c' Ej Hc'. rewrite set_elem. split; [|tauto]. intros [ -> |H]; [|done]. cbn in Ej. congruence.
    + auto.
    + auto.
  - destruct Hf as [Hf|Hf]; [left; apply (settled_set s _ (DgramRecv c))|right; apply (waiting_set cfg s _ (DgramRecv c))]; done.
Qed.

Lemma perform_act_inv a (s : st) : inv s -> runs (perform_act cfg a) (fun _ => inv) s.
Proof.
  intros Hs. unfold perform_act. step_eff. step_eff. destruct a as [c|c data|n].
  - destruct (connections s !! c) as [o|] eqn:E; [|now step_eff]. apply eff_whenever; [|done].
    intros Hw%bool_decide_eq_true. exact (writer_recv_inv _ _ _ Hs E Hw).
  - destruct (connections s !! c) as [o|] eqn:E; [|now step_eff]. apply eff_whenever; [|done].
    rewrite !andb_true_iff. intros [[Hw%bool_decide_eq_true Hl] Hx]. apply (recv_send_inv _ _ _ _ Hs E Hw); [lia|].
    apply existsb_exists in Hx as (x & Hx & Ex%bool_decide_eq_true). exists x. now rewrite list_elem_of_In.
  - apply runs_set_job. now apply set_other_inv.
Qed.

Lemma perform_acts_inv l (s : st) : inv s -> runs (perform_acts cfg l) (fun _ => inv) s.
Proof.
  revert s. induction l as [|a l IH]; intros s Hs; cbn [perform_acts]; [now step_eff|].
  step_eff. eapply eff_mono; [exact (perform_act_inv a _ Hs)|]. intros [] s' Hs'. now apply IH.
Qed.

(** ** Taking a job off the list *)

Lemma settled_pop (s s' : st) j rest :
  jobs s = j :: rest -> jobs s' = rest -> accepted s' = accepted s -> sent s' = sent s -> settled s -> settled s'.
Proof. intros E E1 E2 E3 [H1 H2]. split; [|congruence]. intros c. rewrite E1. specialize (H1 c). rewrite E in H1. set_solver. Qed.

Lemma waiting_pop (s s' : st) j rest :
  jobs s = j :: rest -> (forall c, j <> FirstJob c) -> (forall c, j <> WriterOperation c) ->
  jobs s' = rest -> connections s' = connections s -> device s' = device s -> accepted s' = accepted s -> sent s' = sent s ->
  waiting cfg s -> waiting cfg s'.
Proof.
  intros E F1 F2 E1 E2 E3 E4 E5 (c & o & sub & acc & l1 & l2 & H1 & H2 & H3 & H4 & H5 & H6 & H7 & H8 & H9 & H10 & H11 & H12 & H13).
  rewrite E in H1. destruct l1 as [|k l1]; cbn in H1; injection H1 as -> H1; [now destruct (F1 c)|].
  exists c, o, sub, acc, l1, l2. rewrite E1, E2, E3, E4, E5. do 11 (split; [done || set_solver|]). split; [|done].
  destruct H12 as [H12|H12]; [|auto]. apply elem_of_cons in H12 as [H12|H12]; [now destruct (F2 c)|auto].
Qed.

Lemma waiting_pop_writer (s s' : st) c o rest :
  jobs s = WriterOperation c :: rest -> connections s !! c = Some o ->
  jobs s' = rest -> connections s' = <[c := with_writer STATE_BUSY true false o]> (connections s) ->
  device s' = device s -> accepted s' = accepted s -> sent s' = sent s ->
  waiting cfg s -> waiting cfg s'.
Proof.
  intros E Eo E1 E2 E3 E4 E5 (c0 & o0 & sub & acc & l1 & l2 & H1 & H2 & H3 & H4 & H5 & H6 & H7 & H8 & H9 & H10 & H11 & H12 & H13).
  rewrite E in H1. destruct l1 as [|k l1]; cbn in H1; injection H1 as Hk H1; [done|]. subst k.
  exists c0, (if decide (c0 = c) then with_writer STATE_BUSY true false o else o0), sub, acc, l1, l2. rewrite E1, E2, E3, E4, E5.
  destruct (decide (c0 = c)) as [ -> |Hc].
  - rewrite Eo in H4. injection H4 as <-. rewrite lookup_insert_eq. do 11 (split; [done || set_solver|]). split; [|done]. now right.
  - rewrite lookup_insert_ne by done. do 11 (split; [done || set_solver|]). split; [|done].
    destruct H12 as [H12|H12]; [|auto]. apply elem_of_cons in H12 as [[=]|H12]; [done|auto].
Qed.

(** A job of another part is taken off the list. *)
Lemma pop_other_inv (s : st) j rest d :
  inv s -> jobs s = j :: rest -> (job_con j = None \/ exists c, j = DgramRecv c) ->
  (j = DeviceDone \/ d = device s) -> inv (with_device d (with_jobs (fun _ => rest) s)).
Proof.
  intros [Hb Hf] E Hj Hd. pose proof (b_jobs _ _ Hb) as Hnd. rewrite E in Hnd. apply NoDup_cons in Hnd as [Hn Hnd]. split.
  - apply (base_jobs cfg s _ Hb); try done; cbn; rewrite E.
    + intros k c _ H. now right.
    + intros k c Hk F1 F2 H. apply elem_of_cons in H as [ -> |H]; [|done]. destruct Hj as [Hj|[c' ->]]; [congruence|].
      now destruct (F2 c').
  - destruct Hf as [Hf|Hf]; [left; now apply (settled_pop s _ j rest)|].
    destruct (decide (j = DeviceDone)) as [ -> |Hne].
    + exfalso. destruct Hf as (c & o & sub & acc & l1 & l2 & H1 & H2 & _). rewrite E in H1.
      destruct l1 as [|k l1]; cbn in H1; injection H1 as Hk H1; [done|]. apply Hn. rewrite H1. set_solver.
    + right. destruct Hd as [Hd| -> ]; [done|]. apply (waiting_pop s _ j rest E); try done; intros c ->.
      * destruct Hj as [[=]|[c' [=]]].
      * destruct Hj as [[=]|[c' [=]]].
Qed.

(** ** The jobs of the writer *)

Lemma pop_jobs (s : st) c o j rest :
  base s -> jobs s = j :: rest -> job_con j = Some c -> connections s !! c = Some o ->
  NoDup rest /\ j ∉ rest /\ (forall k c', job_con k = Some c' -> c' <> c -> (k ∈ rest <-> k ∈ jobs s)).
Proof.
  intros Hb E Hj Eo. pose proof (b_jobs _ _ Hb) as Hnd. rewrite E in *. apply NoDup_cons in Hnd as [Hn Hnd].
  split; [done|]. split; [done|]. intros k c' Hk Hc. rewrite elem_of_cons. split; [tauto|]. intros [ -> |H]; [congruence|done].
Qed.

Lemma writer_operation_inv (s : st) c rest :
  inv s -> jobs s = WriterOperation c :: rest ->
  runs (writer_job_operation c) (fun _ => inv) (with_jobs (fun _ => rest) s).
Proof.
  intros [Hb Hf] E. assert (Hin : WriterOperation c ∈ jobs s) by (rewrite E; left).
  destruct (b_live _ _ Hb _ c Hin eq_refl) as [o Eo]. pose proof (b_con _ _ Hb c o Eo) as Hc. destruct Hc.
  pose proof (proj1 co_writer_op Hin) as Hw. destruct (pop_jobs s c o _ _ Hb E eq_refl Eo) as (Hnd & Hn & Hother).
  unfold writer_job_operation. step_eff. eapply runs_con; [exact Eo|]. step_eff. step_eff; [now apply bool_decide_true|].
  step_eff. eapply runs_set_con; [exact Eo|]. step_eff.
  eapply runs_con; [cbn; apply lookup_insert_eq|]. step_eff. step_eff; [cbn; rewrite co_have, Hw; done|].
  eapply runs_set_con; [cbn; apply lookup_insert_eq|].
  rewrite set_twice. unfold with_writer at 1. cbn [local_addr remote_addr first_data first_seq con_is_dns send_addr recv_state
    recv_data d_writing with_writer]. rewrite co_writing. fold (with_writer STATE_BUSY true false o).
  split.
  - apply (base_update cfg s _ c o (with_writer STATE_BUSY true false o) Hb Eo); try done.
    + rewrite E in *. split; cbn; auto; rewrite ?elem_of_cons in *; rewrite ?Hw in *; naive_solver.
    + auto.
    + auto.
  - destruct Hf as [Hf|Hf]; [left; now apply (settled_pop s _ (WriterOperation c) rest)|right].
    now apply (waiting_pop_writer s _ c o rest).
Qed.

(** Which jobs a connection has after its job [j] was taken off the list. *)
Ltac jobs_of E := rewrite E in *; split; cbn; auto; rewrite ?elem_of_cons, ?set_elem in *; naive_solver.

Lemma writer_done_inv (s : st) c rest :
  inv s -> jobs s = WriterDone c :: rest -> runs (writer_job_done c) (fun _ => inv) (with_jobs (fun _ => rest) s).
Proof.
  intros [Hb Hf] E. assert (Hin : WriterDone c ∈ jobs s) by (rewrite E; left).
  destruct (b_live _ _ Hb _ c Hin eq_refl) as [o Eo]. pose proof (b_con _ _ Hb c o Eo) as Hc. destruct Hc.
  pose proof (proj1 co_writer_done Hin) as Hw. destruct (pop_jobs s c o _ _ Hb E eq_refl Eo) as (Hnd & Hn & Hother).
  assert (Hhave : out_have o = false) by (rewrite co_have, Hw; done).
  unfold writer_job_done. step_eff. eapply runs_con; [exact Eo|]. step_eff. step_eff; [now apply bool_decide_true|].
  eapply runs_set_con; [exact Eo|]. set (o' := with_writer _ _ _ o). split.
  - apply (base_update cfg s _ c o o' Hb Eo); try done; [|auto|auto]. rewrite ?Hw in *. jobs_of E.
  - destruct Hf as [Hf|Hf]; [left; now apply (settled_pop s _ (WriterDone c) rest)|right].
    apply (waiting_con cfg (with_jobs (fun _ => rest) s) _ c o o'); try done; [rewrite Hw; done|].
    now apply (waiting_pop s _ (WriterDone c) rest).
Qed.

Lemma recv_done_inv (s : st) c rest :
  inv s -> jobs s = RecvDone c :: rest -> runs (recv_job_done c) (fun _ => inv) (with_jobs (fun _ => rest) s).
Proof.
  intros [Hb Hf] E. assert (Hin : RecvDone c ∈ jobs s) by (rewrite E; left).
  destruct (b_live _ _ Hb _ c Hin eq_refl) as [o Eo]. pose proof (b_con _ _ Hb c o Eo) as Hc. destruct Hc.
  pose proof (proj1 co_recv_done Hin) as Hw. destruct (pop_jobs s c o _ _ Hb E eq_refl Eo) as (Hnd & Hn & Hother).
  unfold recv_job_done. step_eff. eapply runs_con; [exact Eo|]. step_eff. step_eff; [now apply bool_decide_true|].
  step_eff. eapply runs_set_con; [exact Eo|]. set (o' := with_recv _ _ o).
  apply runs_set_job. apply set_dgram_inv; [|cbn; rewrite lookup_insert_eq; eauto]. split.
  - apply (base_update cfg s _ c o o' Hb Eo); try done; [|auto]. rewrite ?Hw in *. jobs_of E.
  - destruct Hf as [Hf|Hf]; [left; now apply (settled_pop s _ (RecvDone c) rest)|right].
    apply (waiting_con cfg (with_jobs (fun _ => rest) s) _ c o o'); try done.
    now apply (waiting_pop s _ (RecvDone c) rest).
Qed.

(** ** Sending *)

Lemma send_ready (s : st) c o data :
  connections s !! c = Some o -> writer_state o = STATE_BUSY -> out_have o = true -> d_writing o = false ->
  Z.of_nat (length (packet_header (remote_addr o) (con_is_dns o) ++ data)) <= udp_mtu cfg ->
  runs (connection_send cfg c data)
    (fun r s' => r = false /\
       s' = with_connections (<[c := with_writer STATE_DONE_PENDING false false o]>)
              (with_sent (c, packet_header (remote_addr o) (con_is_dns o) ++ data) (with_jobs (BPending_Set (WriterDone c)) s))) s.
Proof.
  intros E Hw Hh Hd Hlen. unfold connection_send, BufferWriter_StartPacket, BufferWriter_EndPacket.
  step_eff. step_eff. apply (runs_con _ _ _ _ _ E). step_eff. step_eff; [now rewrite Hd|]. rewrite Hh. cbn [negb].
  step_eff. eapply runs_set_con; [exact E|]. step_eff. cbn [negb].
  step_eff. eapply runs_con; [cbn; apply lookup_insert_eq|]. cbn [remote_addr con_is_dns with_writer].
  step_eff. step_eff. eapply runs_con; [cbn; apply lookup_insert_eq|]. cbn [out_have d_writing writer_state with_writer].
  step_eff. step_eff; [lia|]. step_eff. step_eff; [done|]. step_eff. step_eff; [done|].
  step_eff. step_eff; [now apply bool_decide_true|]. step_eff. apply runs_set_job. step_eff. step_eff.
  eapply runs_set_con; [cbn; apply lookup_insert_eq|]. step_eff. split; [done|].
  destruct s. unfold with_connections, with_sent, with_jobs. cbn. now rewrite insert_insert_eq.
Qed.

Lemma send_refused (s : st) c o data :
  connections s !! c = Some o -> out_have o = false -> d_writing o = false ->
  runs (connection_send cfg c data) (fun r s' => r = true /\ s' = s) s.
Proof.
  intros E Hh Hd. unfold connection_send, BufferWriter_StartPacket.
  step_eff. step_eff. apply (runs_con _ _ _ _ _ E). step_eff. step_eff; [now rewrite Hd|]. rewrite Hh. cbn [negb].
  step_eff. cbn [negb]. now step_eff.
Qed.

(** The state after a packet was passed to the queue. *)
Lemma sent_base (s : st) c o data :
  base s -> connections s !! c = Some o -> writer_state o = STATE_BUSY ->
  base (with_connections (<[c := with_writer STATE_DONE_PENDING false false o]>)
          (with_sent (c, data) (with_jobs (BPending_Set (WriterDone c)) s))).
Proof.
  intros Hb E Hw. pose proof (b_con _ _ Hb c o E) as Hc. destruct Hc.
  assert (Hn : WriterDone c ∉ jobs s) by (rewrite co_writer_done, Hw; done).
  apply (base_update cfg s _ c o (with_writer STATE_DONE_PENDING false false o) Hb E); try done.
  - split; cbn; auto; rewrite ?set_elem; rewrite ?Hw in *; naive_solver.
  - cbn. apply set_nodup, Hb.
  - intros j c' Ej Hc'. cbn. rewrite set_elem. split; [|tauto]. intros [ -> |H]; [|done]. cbn in Ej. congruence.
  - cbn. intros x. rewrite elem_of_app, list_elem_of_singleton. intros [H| -> ]; auto.
  - cbn. intros x H. apply elem_of_app. auto.
  - auto.
Qed.

Lemma first_job_inv (s : st) c rest :
  inv s -> jobs s = FirstJob c :: rest ->
  runs (connection_first_job_handler cfg c) (fun _ s' => inv s' /\ settled s') (with_jobs (fun _ => rest) s).
Proof.
  intros [Hb Hf] E. destruct Hf as [[Hf _]|Hf]; [destruct (Hf c); rewrite E; left|].
  destruct Hf as (c0 & o & sub & acc & l1 & l2 & H1 & H2 & H3 & H4 & H5 & H6 & H7 & H8 & H9 & H10 & H11 & H12 & H13).
  rewrite E in H1. destruct l1 as [|k l1]; cbn in H1; injection H1 as Hc Hrest.
  2: { subst k. destruct (H3 c). cbn. left. }
  subst c0 l2. destruct H12 as [H12|Hw]; [now apply elem_of_nil in H12|].
  pose proof (b_con _ _ Hb c o H4) as Hco. destruct Hco.
  assert (Hmsg : packet_header (remote_addr o) (con_is_dns o) ++ first_data o = udp_message sub) by (unfold udp_message; congruence).
  assert (Hb1 : base (with_jobs (fun _ => rest) s)).
  { destruct (pop_jobs s c o _ _ Hb E eq_refl H4) as (Hnd & Hn & _). apply (base_jobs cfg s _ Hb); try done; cbn; rewrite E.
    - intros j k _ H. now right.
    - intros j k _ F1 _ H. apply elem_of_cons in H as [ -> |H]; [now destruct (F1 c)|done]. }
  unfold connection_first_job_handler. step_eff. eapply runs_con; [exact H4|]. step_eff. step_eff.
  step_eff. step_eff; [now apply bool_decide_true|]. step_eff.
  eapply eff_mono; [apply (send_ready (with_jobs (fun _ => rest) s) c o (first_data o) H4 Hw)|].
  - rewrite co_have, Hw. done.
  - done.
  - now rewrite Hmsg.
  - intros r s' [ -> ->]. step_eff. rewrite Hmsg.
    assert (Hset : settled (with_connections (<[c := with_writer STATE_DONE_PENDING false false o]>)
      (with_sent (c, udp_message sub) (with_jobs (BPending_Set (WriterDone c)) (with_jobs (fun _ => rest) s))))).
    { split; cbn.
      - intros c'. rewrite set_elem. intros [[=]|H]. exact (H3 c' H).
      - rewrite H6, H7, map_app. done. }
    split; [|done]. split; [|now left]. exact (sent_base _ _ _ _ Hb1 H4 Hw).
Qed.

(** ** Receiving *)

Lemma submit_user_runs (s : st) c o data Q :
  connections s !! c = Some o -> Q tt s -> Q tt (with_delivered (local_addr o, remote_addr o, data) s) ->
  runs (submit_to_user cfg c data) Q s.
Proof.
  intros E H1 H2. unfold submit_to_user. destruct (_ >? _); [now step_eff|]. step_eff. apply (runs_con _ _ _ _ _ E). now step_eff.
Qed.

(** The state after a datagram was taken: only the remote address of the connection
    may have changed besides its interface. *)
Lemma received_inv (s s' : st) c o o' rest :
  inv s -> jobs s = RecvOperation c :: rest -> connections s !! c = Some o ->
  recv_state o' = STATE_DONE_PENDING -> local_addr o' = local_addr o -> writer_state o' = writer_state o ->
  out_have o' = out_have o -> d_writing o' = d_writing o ->
  num_connections s' = num_connections s -> connections_tree s' = connections_tree s ->
  connections_list s' = connections_list s -> connections s' = <[c := o']> (connections s) -> fresh s' = fresh s ->
  jobs s' = BPending_Set (RecvDone c) rest -> device s' = device s -> accepted s' = accepted s -> sent s' = sent s ->
  inv s'.
Proof.
  intros [Hb Hf] E Eo F1 F2 F3 F4 F5 E1 E2 E3 E4 E5 E6 E7 E8 E9.
  pose proof (b_con _ _ Hb c o Eo) as Hc. destruct Hc.
  assert (Hin : RecvOperation c ∈ jobs s) by (rewrite E; left). pose proof (proj1 co_recv_op Hin) as Hr.
  destruct (pop_jobs s c o _ _ Hb E eq_refl Eo) as (Hnd & Hn & Hother).
  assert (HnR : RecvDone c ∉ rest) by (intros H; assert (RecvDone c ∈ jobs s) by (rewrite E; now right); rewrite co_recv_done, Hr in *; done).
  split.
  - apply (base_update cfg s _ c o o' Hb Eo); try done; rewrite ?E6, ?E9; auto.
    + split; try (rewrite ?F2, ?F3, ?F4, ?F5; done).
      * rewrite F3, set_elem, <- co_writer_op, E, elem_of_cons. naive_solver.
      * rewrite F3, set_elem, <- co_writer_done, E, elem_of_cons. naive_solver.
      * rewrite F1, set_elem. naive_solver.
      * rewrite F1, set_elem. naive_solver.
      * now rewrite F1.
      * now rewrite F1.
    + now apply set_nodup.
    + intros j c' Ej Hc'. rewrite set_elem, (Hother j c' Ej Hc'). split; [|tauto]. intros [ -> |H]; [|done]. cbn in Ej. congruence.
  - destruct Hf as [Hf|Hf]; [left|right].
    + apply (settled_set (with_jobs (fun _ => rest) s) _ (RecvDone c)); try done.
      now apply (settled_pop s _ (RecvOperation c) rest).
    + pose proof Hf as (c0 & o0 & sub & acc & l1 & l2 & H1 & H2 & H3 & H4 & H5 & H6 & H7 & H8 & H9 & H10 & H11 & H12 & H13).
      assert (Hne : c0 <> c).
      { intros ->. destruct (b_recv _ _ Hb c o Eo Hr) as (x & Hx & Ex). exact (H13 x Hx Ex). }
      apply (waiting_set cfg (with_connections (fun _ => connections s') (with_jobs (fun _ => rest) s)) _ (RecvDone c)); try done.
      assert (Hw : waiting cfg (with_jobs (fun _ => rest) s)) by now apply (waiting_pop s _ (RecvOperation c) rest).
      destruct Hw as (c1 & o1 & sub1 & acc1 & l3 & l4 & K1 & K2 & K3 & K4 & K5 & K6 & K7 & K8 & K9 & K10 & K11 & K12 & K13).
      assert (Hne1 : c1 <> c).
      { intros ->. destruct (b_recv _ _ Hb c o Eo Hr) as (x & Hx & Ex). exact (K13 x Hx Ex). }
      exists c1, o1, sub1, acc1, l3, l4. cbn in *. rewrite E4, lookup_insert_ne by done. done.
Qed.

Lemma recv_operation_inv (s : st) c rest :
  inv s -> jobs s = RecvOperation c :: rest ->
  runs (recv_job_operation cfg c) (fun _ => inv) (with_jobs (fun _ => rest) s).
Proof.
  intros Hs E. pose proof Hs as [Hb _]. assert (Hin : RecvOperation c ∈ jobs s) by (rewrite E; left).
  destruct (b_live _ _ Hb _ c Hin eq_refl) as [o Eo]. pose proof (b_con _ _ Hb c o Eo) as Hc. destruct Hc.
  pose proof (proj1 co_recv_op Hin) as Hr. specialize (co_recv_data Hr).
  unfold recv_job_operation. step_eff. eapply runs_con; [exact Eo|]. step_eff. step_eff; [now apply bool_decide_true|].
  step_eff. eapply runs_set_con; [exact Eo|]. unfold dgram_handler_received.
  step_eff. eapply runs_con; [cbn; apply lookup_insert_eq|]. step_eff. step_eff; [cbn; lia|].
  step_eff. step_eff; [now apply bool_decide_true|]. step_eff. apply runs_set_job. step_eff.
  eapply runs_set_con; [cbn; apply lookup_insert_eq|].
  assert (Hgo : forall o' s', connections s' = <[c := o']> (connections s) ->
    recv_state o' = STATE_DONE_PENDING /\ local_addr o' = local_addr o /\ writer_state o' = writer_state o /\
    out_have o' = out_have o /\ d_writing o' = d_writing o /\
    num_connections s' = num_connections s /\ connections_tree s' = connections_tree s /\
    connections_list s' = connections_list s /\ fresh s' = fresh s /\
    jobs s' = BPending_Set (RecvDone c) rest /\ device s' = device s /\ accepted s' = accepted s /\ sent s' = sent s -> inv s').
  { intros o' s' H0 (H1 & H2 & H3 & H4 & H5 & H6 & H7 & H8 & H9 & H10 & H11 & H12 & H13).
    apply (received_inv s s' c o o' rest Hs E Eo); done. }
  cbn [con_is_dns with_recv]. destruct (con_is_dns o); cbn [negb].
  - eapply submit_user_runs; [cbn; apply lookup_insert_eq| |]; (eapply Hgo; [cbn; rewrite ?insert_insert_eq; reflexivity|done]).
  - destruct (parse_header _) as [[remote data]|].
    + step_eff. eapply runs_set_con; [cbn; apply lookup_insert_eq|].
      eapply submit_user_runs; [cbn; apply lookup_insert_eq| |]; (eapply Hgo; [cbn; rewrite ?insert_insert_eq; reflexivity|done]).
    + step_eff. eapply Hgo; [cbn; rewrite ?insert_insert_eq; reflexivity|done].
Qed.

Lemma execute_job_inv (s : st) acts : inv s -> runs (execute_job cfg acts) (fun _ => inv) s.
Proof.
  intros Hs. unfold execute_job. step_eff. step_eff. destruct (jobs s) as [|j rest] eqn:E; cbn [BPendingGroup_ExecuteJob].
  { now apply perform_acts_inv. }
  step_eff. step_eff. destruct j as [c|c|c|c|c|c| |n].
  - eapply eff_mono; [exact (first_job_inv _ _ _ Hs E)|]. now intros [] s' [H _].
  - exact (writer_operation_inv _ _ _ Hs E).
  - step_eff. eapply eff_mono; [exact (writer_done_inv _ _ _ Hs E)|]. intros [] s' H. now apply perform_acts_inv.
  - exact (recv_operation_inv _ _ _ Hs E).
  - exact (recv_done_inv _ _ _ Hs E).
  - apply perform_acts_inv. pose proof (pop_other_inv s (DgramRecv c) rest (device s) Hs E) as H. destruct s. apply H; eauto.
  - step_eff. step_eff. apply perform_acts_inv. apply (pop_other_inv s DeviceDone rest None Hs E); auto.
  - apply perform_acts_inv. pose proof (pop_other_inv s (Other n) rest (device s) Hs E) as H. destruct s. apply H; eauto.
Qed.

End Step.

(** ** Packets from the device keep the invariant

    [SocksUdpGwClient_SubmitPacket] with what it calls: the connections, by local
    address, are a cache that drops the least recently used one. *)

Open Scope Z_scope.

Section Submit.
Context {T : Type} `{!ConnTree T} `{!ConnTreeLaws T} (cfg : config).

Notation st := (client T).
Notation inv := (inv cfg).
Notation base := (base cfg).

(** Jobs that name no connection yet. *)
Lemma fresh_jobs (s : st) j : base s -> job_con j = Some (fresh s) -> j ∉ jobs s.
Proof.
  intros Hb Hj H. destruct (b_live _ _ Hb j _ H Hj) as [o E]. assert (Hlt : (fresh s < fresh s)%nat) by (apply (b_fresh _ _ Hb); rewrite E; eauto). lia.
Qed.

Lemma fresh_con (s : st) : base s -> connections s !! fresh s = None.
Proof.
  intros Hb. destruct (connections s !! fresh s) eqn:E; [|done].
  assert (Hlt : (fresh s < fresh s)%nat) by (apply (b_fresh _ _ Hb); rewrite E; eauto). lia.
Qed.

(** ** Freeing a connection *)

Lemma free_ok (s : st) c :
  base s -> is_Some (connections s !! c) -> FirstJob c ∉ jobs s ->
  runs (connection_free c)
    (fun _ s' => base s' /\ connections_list s' = filter (fun j => j <> c) (connections_list s) /\
       connections s' = delete c (connections s) /\ (forall j, j ∈ jobs s' -> j ∈ jobs s) /\
       (forall j, job_con j = None -> j ∈ jobs s -> j ∈ jobs s') /\
       num_connections s' = num_connections s - 1 /\
       device s' = device s /\ accepted s' = accepted s /\ sent s' = sent s) s.
Proof.
  intros Hb [o E] Hfirst. assert (Hin : c ∈ connections_list s) by (apply (b_list _ _ Hb); rewrite E; eauto).
  destruct (ct_remove_ok _ _ _ _ (b_tree _ _ Hb) Hin) as (t' & Et & Ht).
  unfold connection_free. step_eff. apply (runs_con _ _ _ _ _ E). repeat step_eff. cbn [connections_tree with_list with_num].
  rewrite Et. repeat step_eff. cbn [connections_list connections jobs num_connections device accepted sent with_list with_num with_tree
    with_jobs with_connections].
  match goal with |- SocksUdpInv.base _ ?x /\ _ => set (s' := x) end.
  assert (Hjobs : forall j, j ∈ jobs s' <-> j ∈ jobs s /\ (job_con j = Some c -> j = FirstJob c)).
  { intros j. unfold s'. cbn. unfold BPending_Free, BPending_Unset. rewrite !list_elem_of_filter. destruct j; cbn; naive_solver. }
  assert (Hjobs' : NoDup (jobs s')) by (unfold s'; cbn; unfold BPending_Free, BPending_Unset; repeat apply NoDup_filter; apply Hb).
  split; [|split; [done|split; [done|split; [intros j Hj; now apply Hjobs|split; [intros j Hj Hin'; apply Hjobs; rewrite Hj; done|done]]]]].
  assert (Hlook : forall k, is_Some (connections s' !! k) <-> k <> c /\ is_Some (connections s !! k)).
  { intros k. unfold s'. cbn. destruct (decide (k = c)) as [ -> |Hk].
    - rewrite lookup_delete_eq. split; [intros [? [=]]|tauto].
    - rewrite lookup_delete_ne by done. tauto. }
  pose proof (filter_remove_length c _ (b_nodup _ _ Hb) Hin) as Hlen.
  pose proof (b_num _ _ Hb) as Hnum. pose proof (b_max _ _ Hb) as Hmax.
  split.
  - unfold s'. cbn. lia.
  - unfold s'. cbn. lia.
  - unfold s'. cbn. apply NoDup_filter, Hb.
  - intros k. rewrite Hlook. unfold s'. cbn. rewrite list_elem_of_filter. now rewrite (b_list _ _ Hb).
  - unfold s' at 2 3. cbn. apply (ct_nodes_ext (node_value s)); [|done].
    intros i [Hi _]%list_elem_of_filter. unfold node_value, s'. cbn. now rewrite lookup_delete_ne by congruence.
  - done.
  - intros k ok Ek. assert (Hk : k <> c) by (apply (Hlook k); rewrite Ek; eauto).
    assert (Ek' : connections s !! k = Some ok) by (unfold s' in Ek; cbn in Ek; now rewrite lookup_delete_ne in Ek).
    apply (con_ok_jobs cfg (jobs s)); [|exact (b_con _ _ Hb k ok Ek')]. intros j Ej _ _. rewrite Hjobs, Ej. naive_solver.
  - intros j k Hj Ek. apply Hjobs in Hj as [Hj Hf]. apply Hlook. split; [|exact (b_live _ _ Hb j k Hj Ek)].
    intros ->. rewrite (Hf Ek) in Hj. done.
  - intros k Hk. apply (b_fresh _ _ Hb). now apply Hlook.
  - exact (b_sent _ _ Hb).
  - intros k ok Ek. assert (Hk : k <> c) by (apply (Hlook k); rewrite Ek; eauto).
    unfold s' in Ek. cbn in Ek. rewrite lookup_delete_ne in Ek by done. exact (b_recv _ _ Hb k ok Ek).
Qed.

(** ** A new connection *)

(** Nothing but the answers and the next address has changed. *)
Lemma base_same (s s' : st) :
  base s -> num_connections s' = num_connections s -> connections_tree s' = connections_tree s ->
  connections_list s' = connections_list s -> connections s' = connections s -> (fresh s <= fresh s')%nat ->
  jobs s' = jobs s -> sent s' = sent s -> base s'.
Proof.
  intros [] E1 E2 E3 E4 E5 E6 E7. split; rewrite ?E1, ?E2, ?E3, ?E4, ?E6, ?E7; auto.
  - apply (ct_nodes_ext (node_value s)); [|done]. intros i _. unfold node_value. now rewrite E4.
  - intros c Hc. specialize (b_fresh c Hc). lia.
  - intros x Hx. specialize (b_sent x Hx). lia.
Qed.

Definition new_connection (s : st) (sub : submission) : connection :=
  Connection (sub_local sub) (sub_remote sub) (sub_data sub) (default O (device s)) (sub_is_dns sub)
    (if sub_is_dns sub then dnsgw cfg else socks_server_addr cfg) STATE_OPERATION_PENDING false false STATE_NONE [].

(** What [connection_init] leaves behind. *)
Definition made (s : st) (sub : submission) (r : option nat) (s' : st) : Prop :=
  match r with
  | None =>
      num_connections s' = num_connections s /\ connections_tree s' = connections_tree s /\
      connections_list s' = connections_list s /\ connections s' = connections s /\ (fresh s <= fresh s')%nat /\
      jobs s' = jobs s /\ device s' = device s /\ accepted s' = accepted s /\ sent s' = sent s
  | Some c =>
      c = fresh s /\ num_connections s' = num_connections s + 1 /\
      ct_nodes (node_value s') (connections_tree s') (c :: connections_list s) /\
      connections_list s' = connections_list s ++ [c] /\
      connections s' = <[c := new_connection s sub]> (connections s) /\ fresh s' = S (fresh s) /\
      jobs s' = DgramRecv c :: WriterOperation c :: FirstJob c :: jobs s /\
      device s' = device s /\ accepted s' = accepted s /\ sent s' = sent s
  end.

Lemma init_failed_made (s s' : st) sub o l :
  base s -> num_connections s' = num_connections s -> connections_tree s' = connections_tree s ->
  connections_list s' = connections_list s -> connections s' = <[fresh s := o]> (connections s) -> fresh s' = S (fresh s) ->
  jobs s' = l ++ FirstJob (fresh s) :: jobs s -> l = [] \/ l = [WriterOperation (fresh s)] ->
  device s' = device s -> accepted s' = accepted s -> sent s' = sent s ->
  runs (init_failed (fresh s)) (made s sub) s'.
Proof.
  intros Hb E1 E2 E3 E4 E5 E6 Hl E7 E8 E9. unfold init_failed. repeat step_eff.
  pose proof (fresh_jobs s (WriterDone (fresh s)) Hb eq_refl) as N1. pose proof (fresh_jobs s (FirstJob (fresh s)) Hb eq_refl) as N2.
  pose proof (fresh_jobs s (WriterOperation (fresh s)) Hb eq_refl) as N3.
  cbn -[BPending_Free]. split; [done|]. split; [done|]. split; [done|]. split; [rewrite E4; apply delete_insert_id, fresh_con, Hb|].
  split; [lia|]. split; [|done].
  rewrite E6. unfold BPending_Free. destruct Hl as [ -> | -> ]; cbn [app].
  - rewrite (unset_skip (WriterDone _)), (unset_absent (WriterDone _)) by done.
    rewrite (unset_skip (WriterOperation _)), (unset_absent (WriterOperation _)) by done.
    now rewrite unset_here, unset_absent.
  - rewrite !(unset_skip (WriterDone _)), (unset_absent (WriterDone _)) by done.
    rewrite (unset_here (WriterOperation _)), (unset_skip (WriterOperation _)), (unset_absent (WriterOperation _)) by done.
    now rewrite unset_here, unset_absent.
Qed.

Lemma init_made (s : st) sub :
  base s -> baddr_ok (sub_local sub) -> (forall j, j ∈ connections_list s -> node_value s j <> sub_local sub) ->
  runs (connection_init cfg (sub_local sub) (sub_remote sub) (sub_data sub) (sub_is_dns sub)) (made s sub) s.
Proof.
  intros Hb Hok Hne. unfold connection_init. step_eff. apply runs_reply. intros [] l0; cbn [negb].
  2: { step_eff. now cbn. }
  step_eff. step_eff. step_eff. step_eff. step_eff. step_eff. step_eff. apply runs_set_job. cbn [fresh with_answers].
  pose proof (fresh_jobs s (WriterOperation (fresh s)) Hb eq_refl) as N1. pose proof (fresh_jobs s (FirstJob (fresh s)) Hb eq_refl) as N2.
  pose proof (fresh_jobs s (DgramRecv (fresh s)) Hb eq_refl) as N3.
  set (o := Connection _ _ _ _ _ _ _ _ _ _ _).
  match goal with |- runs _ _ ?x => set (s0 := x) end.
  assert (Es : num_connections s0 = num_connections s /\ connections_tree s0 = connections_tree s /\
    connections_list s0 = connections_list s /\ connections s0 = <[fresh s := o]> (connections s) /\ fresh s0 = S (fresh s) /\
    jobs s0 = FirstJob (fresh s) :: jobs s /\ device s0 = device s /\ accepted s0 = accepted s /\ sent s0 = sent s).
  { repeat (split; [reflexivity|]). split; [exact (set_absent _ _ N2)|]. done. }
  assert (Eo : with_writer STATE_OPERATION_PENDING (out_have o) (d_writing o) o = new_connection s sub) by reflexivity.
  assert (Eo' : writer_state o = STATE_NONE) by reflexivity.
  clearbody s0 o. destruct Es as (F1 & F2 & F3 & F4 & F5 & F6 & F7 & F8 & F9).
  step_eff. apply runs_reply. intros [] l1; cbn [negb].
  2: { apply (init_failed_made s _ sub o []); auto. }
  step_eff. apply runs_reply. intros [] l2; cbn [negb].
  2: { apply (init_failed_made s _ sub o []); auto. }
  step_eff. apply runs_reply. intros [] l3; cbn [negb].
  2: { apply (init_failed_made s _ sub o []); auto. }
  assert (Elook : connections s0 !! fresh s = Some o) by (rewrite F4; apply lookup_insert_eq).
  step_eff. unfold Writer_Recv. step_eff. eapply runs_con; [exact Elook|]. step_eff. step_eff; [now apply bool_decide_true|].
  step_eff. apply runs_set_job. eapply runs_set_con; [exact Elook|]. rewrite Eo.
  match goal with |- runs _ _ ?x => set (s2 := x) end.
  assert (Es : num_connections s2 = num_connections s /\ connections_tree s2 = connections_tree s /\
    connections_list s2 = connections_list s /\ connections s2 = <[fresh s := new_connection s sub]> (connections s) /\ fresh s2 = S (fresh s) /\
    jobs s2 = WriterOperation (fresh s) :: FirstJob (fresh s) :: jobs s /\ device s2 = device s /\ accepted s2 = accepted s /\ sent s2 = sent s).
  { unfold s2. cbn -[BPending_Set]. rewrite F4, F6, insert_insert_eq, set_absent by set_solver. done. }
  clearbody s2. clear s0 F1 F2 F3 F4 F5 F6 F7 F8 F9 Elook. destruct Es as (F1 & F2 & F3 & F4 & F5 & F6 & F7 & F8 & F9).
  step_eff. apply runs_reply. intros [] l4; cbn [negb].
  2: { apply (init_failed_made s _ sub (new_connection s sub) [WriterOperation (fresh s)]); auto. }
  step_eff. apply runs_set_job. step_eff. step_eff.
  match goal with |- context [node_value ?x] => set (s1 := x) end.
  assert (Ec : connections s1 = <[fresh s := new_connection s sub]> (connections s)) by exact F4.
  assert (Hfresh : fresh s ∉ connections_list s) by (rewrite (b_list _ _ Hb), (fresh_con _ Hb); intros [? [=]]).
  assert (Hval : forall i, i ∈ connections_list s -> node_value s i = node_value s1 i).
  { intros i Hi. unfold node_value. rewrite Ec, lookup_insert_ne; [done|]. intros <-. done. }
  assert (Hnew : node_value s1 (fresh s) = sub_local sub) by (unfold node_value; now rewrite Ec, lookup_insert_eq).
  assert (Ej : jobs s1 = DgramRecv (fresh s) :: WriterOperation (fresh s) :: FirstJob (fresh s) :: jobs s).
  { unfold s1. cbn -[BPending_Set]. rewrite F6, set_absent by set_solver. done. }
  assert (Es : num_connections s1 = num_connections s /\ connections_tree s1 = connections_tree s /\
    connections_list s1 = connections_list s /\ fresh s1 = S (fresh s) /\ device s1 = device s /\ accepted s1 = accepted s /\
    sent s1 = sent s) by done.
  clearbody s1. clear s2 F1 F2 F3 F4 F5 F6 F7 F8 F9. destruct Es as (F1 & F2 & F3 & F4 & F5 & F6 & F7).
  destruct (ct_insert_ok (node_value s1) (connections_tree s) (connections_list s) (fresh s)) as (t & Et & Ht).
  - apply (ct_nodes_ext (node_value s)); [exact Hval|exact (b_tree _ _ Hb)].
  - exact Hfresh.
  - now rewrite Hnew.
  - intros i Hi. rewrite Hnew, <- (Hval i Hi). auto.
  - rewrite F2, Et. repeat step_eff. cbn. rewrite F1, F3. split; [done|]. split; [done|].
    split; [|split; [done|split; [exact Ec|split; [exact F4|split; [exact Ej|done]]]]].
    apply (ct_nodes_ext (node_value s1)); [|exact Ht]. intros i _. done.
Qed.

(** The new connection, seen from the invariant. *)
Lemma made_inv (s s' : st) sub c :
  base s -> settled s -> made s sub (Some c) s' ->
  baddr_ok (sub_local sub) -> num_connections s < max_connections cfg ->
  DeviceDone ∈ jobs s -> is_Some (device s) -> Z.of_nat (length (udp_message sub)) <= udp_mtu cfg ->
  inv (with_accepted (c, sub) s').
Proof.
  intros Hb [Hf Hs] (-> & E1 & Ht & E2 & E3 & E4 & E5 & E6 & E7 & E8) Hok Hmax Hdev [seq Hseq] Hlen.
  pose proof (b_num _ _ Hb) as Hnum. pose proof (fresh_con _ Hb) as Hfc.
  assert (Hfresh : fresh s ∉ connections_list s) by (rewrite (b_list _ _ Hb), Hfc; intros [? [=]]).
  assert (Hnew : forall j, j ∈ jobs s -> job_con j = Some (fresh s) -> False) by (intros j Hj Hc; exact (fresh_jobs s j Hb Hc Hj)).
  assert (Hlook : forall k, is_Some (connections s' !! k) <-> k = fresh s \/ is_Some (connections s !! k)).
  { intros k. rewrite E3. destruct (decide (k = fresh s)) as [ -> |Hk]; [rewrite lookup_insert_eq; split; eauto|].
    rewrite lookup_insert_ne by done. tauto. }
  split; [split|right]; cbn [num_connections connections_tree connections_list connections fresh jobs sent with_accepted].
  - rewrite E1, E2, length_app, Hnum. cbn. lia.
  - lia.
  - rewrite E2. apply NoDup_app. split; [apply Hb|]. split; [set_solver|apply NoDup_singleton].
  - intros k. rewrite Hlook, E2, elem_of_app, list_elem_of_singleton, (b_list _ _ Hb). tauto.
  - rewrite E2. apply (ct_nodes_perm _ _ (fresh s :: connections_list s)); [apply Permutation_cons_append|].
    apply (ct_nodes_ext (node_value s')); [done|exact Ht].
  - rewrite E5. apply NoDup_cons. split; [rewrite !elem_of_cons; intros [H|[H|H]]; [done|done|exact (Hnew _ H eq_refl)]|].
    apply NoDup_cons. split; [rewrite elem_of_cons; intros [H|H]; [done|exact (Hnew _ H eq_refl)]|].
    apply NoDup_cons. split; [intros H; exact (Hnew _ H eq_refl)|apply Hb].
  - intros k o. rewrite E3, E5. destruct (decide (k = fresh s)) as [ -> |Hk].
    + rewrite lookup_insert_eq. intros [= <-]. split; try done; cbn [writer_state recv_state new_connection]; (split; [|done || (intros _; right; left)]).
      all: rewrite !elem_of_cons; intros [H|[H|[H|H]]]; try done; exfalso; exact (Hnew _ H eq_refl).
    + rewrite lookup_insert_ne by done. intros Ek. apply (con_ok_jobs cfg (jobs s)); [|exact (b_con _ _ Hb k o Ek)].
      intros j Ej _ _. rewrite !elem_of_cons. split; [|tauto]. intros [H|[H|[H|H]]]; [subst j; cbn in Ej; congruence..|done].
  - intros j k Hj Ek. apply Hlook. rewrite E5, !elem_of_cons in Hj.
    destruct Hj as [Hj|[Hj|[Hj|Hj]]]; [subst j; cbn in Ek; left; congruence..|right; exact (b_live _ _ Hb j k Hj Ek)].
  - intros k Hk. rewrite E4. apply Hlook in Hk as [ -> |Hk]; [lia|]. pose proof (b_fresh _ _ Hb k Hk). lia.
  - intros x Hx. rewrite E8 in Hx. pose proof (b_sent _ _ Hb x Hx). lia.
  - intros k o. rewrite E3, E8. destruct (decide (k = fresh s)) as [ -> |Hk]; [rewrite lookup_insert_eq; now intros [= <-]|].
    rewrite lookup_insert_ne by done. apply (b_recv _ _ Hb).
  - exists (fresh s), (new_connection s sub), sub, (accepted s), [DgramRecv (fresh s); WriterOperation (fresh s)], (jobs s).
    cbn [connections jobs device accepted sent with_accepted]. rewrite E3, E5, E6, E7, E8, lookup_insert_eq, Hseq.
    do 2 (split; [done|]). split. { intros c'. cbn. rewrite !elem_of_cons. intros [H|[H|H]]; try done. exact (Hf c' H). }
    split; [done|]. split; [cbn; now rewrite Hseq|]. do 6 (split; [done|]). split; [left; set_solver|].
    intros x Hx. pose proof (b_sent _ _ Hb x Hx). lia.
Qed.

(** ** The cache *)

(** The local addresses of the connections, the least recently used first. *)
Definition keys (s : st) : list BAddr := map (node_value s) (connections_list s).

(** A cache of at most [cap] addresses that drops the least recently used one; [ok]
    tells whether the packet could be passed on. *)
Definition lru_access (cap : Z) (ok : bool) (a : BAddr) (k : list BAddr) : list BAddr :=
  if decide (a ∈ k) then if ok then filter (fun x => x <> a) k ++ [a] else k
  else
    let e := if Z.of_nat (length k) =? cap then tail k else k in
    if ok then e ++ [a] else e.

(** A packet [process_device_udp_packet] passes on, short enough for its header. *)
Definition packet_ok (sub : submission) : Prop :=
  baddr_ok (sub_local sub) /\ baddr_ok (sub_remote sub) /\ sub_local sub <> BADDR_NONE /\ sub_remote sub <> BADDR_NONE /\
  Z.of_nat (length (udp_message sub)) <= udp_mtu cfg.

Lemma keys_nodup (s : st) : base s -> NoDup (keys s).
Proof.
  intros Hb. apply NoDup_fmap_2_strong; [|apply Hb]. intros i j Hi Hj. exact (ct_nodes_inj _ _ _ i j (b_tree _ _ Hb) Hi Hj).
Qed.

Lemma keys_elem (s : st) a : base s -> a ∈ keys s <-> exists c o, connections s !! c = Some o /\ local_addr o = a.
Proof.
  intros Hb. unfold keys. rewrite list_elem_of_fmap. split.
  - intros (c & -> & Hc). apply (b_list _ _ Hb) in Hc as [o E]. exists c, o. unfold node_value. now rewrite E.
  - intros (c & o & E & <-). exists c. split; [unfold node_value; now rewrite E|]. apply (b_list _ _ Hb). rewrite E. eauto.
Qed.

Lemma find_runs (s : st) a d :
  base s -> baddr_ok a ->
  runs (find_connection a d)
    (fun r s' => s' = s /\ match r with
       | Some c => exists o, connections s !! c = Some o /\ local_addr o = a
       | None => a ∉ keys s
       end) s.
Proof.
  intros Hb Ha. unfold find_connection. step_eff. step_eff.
  destruct (ct_lookup_ok _ _ _ a (b_tree _ _ Hb) Ha) as (r & E & Hr). rewrite E. destruct r as [c|]; step_eff; (split; [done|]).
  - destruct Hr as [Hc Hv]. apply (b_list _ _ Hb) in Hc as [o Eo]. exists o. unfold node_value in Hv. rewrite Eo in Hv. done.
  - unfold keys. rewrite list_elem_of_fmap. intros (j & Ej & Hj). now apply (Hr j).
Qed.

Lemma map_filter_key (f : nat -> BAddr) c l :
  (forall i, i ∈ l -> f i = f c -> i = c) -> map f (filter (fun j => j <> c) l) = filter (fun x => x <> f c) (map f l).
Proof.
  induction l as [|i l IH]; intros H; [done|]. rewrite filter_cons. cbn [map]. rewrite filter_cons.
  destruct (decide (i <> c)) as [Hi|Hi].
  - rewrite decide_True; [cbn; rewrite IH by set_solver; done|]. intros E. apply Hi, H; [left|done].
  - apply dec_stable in Hi. subst i. rewrite decide_False by tauto. apply IH. set_solver.
Qed.

Lemma moved_list (c : nat) l : NoDup l -> c ∈ l -> filter (fun j => j <> c) l ++ [c] ≡ₚ l.
Proof.
  induction 1 as [|i l Hi Hn IH]; [now intros ?%elem_of_nil|]. rewrite filter_cons, elem_of_cons. intros [ -> |Hc].
  - rewrite decide_False by tauto. rewrite filter_absent by done. symmetry. apply Permutation_cons_append.
  - rewrite decide_True by (intros ->; done). cbn. now rewrite IH.
Qed.

(** The connection moves to the end of the list. *)
Lemma moved_base (s : st) c :
  base s -> is_Some (connections s !! c) ->
  let s' := with_list (fun l => l ++ [c]) (with_list (filter (fun j => j <> c)) s) in
  base s' /\ keys s' = filter (fun x => x <> node_value s c) (keys s) ++ [node_value s c].
Proof.
  intros Hb Hc. cbn zeta. assert (Hin : c ∈ connections_list s) by now apply (b_list _ _ Hb).
  pose proof (moved_list c _ (b_nodup _ _ Hb) Hin) as Hperm. split.
  - destruct Hb. split; cbn; auto.
    + now rewrite Hperm.
    + now rewrite Hperm.
    + intros k. now rewrite Hperm.
    + apply (ct_nodes_perm _ _ (connections_list s)); [done|]. now apply (ct_nodes_ext (node_value s)).
  - unfold keys. cbn. rewrite map_app. cbn. f_equal. change (map (node_value s) (filter (fun j => j <> c) (connections_list s)) =
      filter (fun x => x <> node_value s c) (map (node_value s) (connections_list s))).
    apply map_filter_key. intros i Hi. exact (ct_nodes_inj _ _ _ i c (b_tree _ _ Hb) Hi Hin).
Qed.

Lemma reset_runs (s : st) c o l r d Q :
  connections s !! c = Some o ->
  Q tt (with_connections (<[c := with_is_dns d (with_conaddr l r o)]>) s) -> runs (reset_connection c l r d) Q s.
Proof.
  intros E H. unfold reset_connection. step_eff. eapply runs_set_con; [exact E|].
  eapply runs_set_con; [cbn; apply lookup_insert_eq|]. now rewrite set_twice.
Qed.

(** A packet for a connection that is there. *)
Lemma submit_found (s : st) sub c o :
  base s -> settled s -> packet_ok sub -> connections s !! c = Some o -> local_addr o = sub_local sub ->
  runs (reset_connection c (sub_local sub) (sub_remote sub) (sub_is_dns sub) ;;
        res ← connection_send cfg c (sub_data sub);
        if res : bool then mret tt
        else
          upd_st (with_list (filter (fun j => j <> c))) ;;
          upd_st (with_list (fun l => l ++ [c])) ;;
          upd_st (with_accepted (c, sub)))
    (fun _ s' => base s' /\ settled s' /\ exists ok, keys s' = lru_access (max_connections cfg) ok (sub_local sub) (keys s) /\
       accepted s' = accepted s ++ (if ok : bool then [(c, sub)] else [])) s.
Proof.
  intros Hb Hf (P1 & P2 & P3 & P4 & P5) E El.
  step_eff. apply (reset_runs _ _ _ _ _ _ _ E). set (o1 := with_is_dns _ _). set (s1 := with_connections _ s).
  assert (E1 : connections s1 !! c = Some o1) by apply lookup_insert_eq.
  pose proof (b_con _ _ Hb c o E) as Hc. destruct Hc.
  assert (Hb1 : base s1).
  { apply (base_update cfg s _ c o o1 Hb E); try done; [apply Hb|auto|auto]. }
  assert (Hk1 : keys s1 = keys s).
  { unfold keys. apply map_ext_in. intros i _. unfold node_value, s1. cbn. destruct (decide (i = c)) as [ -> |Hi].
    - rewrite lookup_insert_eq, E. now rewrite El.
    - now rewrite lookup_insert_ne. }
  assert (Hin : sub_local sub ∈ keys s) by (apply (keys_elem _ _ Hb); eauto).
  assert (Hf1 : settled s1) by exact Hf.
  assert (Hacc : accepted s1 = accepted s) by done.
  destruct (out_have o) eqn:Hh.
  - assert (Hw : writer_state o = STATE_BUSY).
    { symmetry in co_have. now apply bool_decide_eq_true in co_have. }
    step_eff. eapply eff_mono; [apply (send_ready cfg s1 c o1 (sub_data sub) E1 Hw Hh co_writing P5)|].
    intros r s2 [ -> ->]. pose proof (sent_base cfg s1 c o1 (udp_message sub) Hb1 E1 Hw) as Hb2. fold (udp_message sub).
    change (packet_header (remote_addr o1) (con_is_dns o1) ++ sub_data sub) with (udp_message sub).
    match type of Hb2 with SocksUdpInv.base _ ?x => set (s2 := x) in * end.
    assert (E2 : is_Some (connections s2 !! c)) by (unfold s2; cbn; rewrite lookup_insert_eq; eauto).
    destruct (moved_base s2 c Hb2 E2) as [Hb3 Hk3].
    assert (Hk2 : keys s2 = keys s).
    { rewrite <- Hk1. unfold keys. apply map_ext_in. intros i _. unfold node_value, s2. cbn -[s1].
      destruct (decide (i = c)) as [ -> |Hi]; [rewrite lookup_insert_eq, E1; done|now rewrite lookup_insert_ne]. }
    assert (Hv : node_value s2 c = sub_local sub) by (unfold node_value, s2; cbn -[s1]; now rewrite lookup_insert_eq).
    repeat step_eff. split; [|split].
    + eapply base_same; [exact Hb3|done|done|done|done|exact (le_n _)|done|done].
    + destruct Hf as [Hf1' Hf2]. split; [|cbn; rewrite Hf2, map_app; done]. intros c'. cbn. rewrite set_elem. intros [[=]|H]. exact (Hf1' c' H).
    + exists true. split; [|done]. unfold lru_access. rewrite decide_True by done.
      transitivity (keys (with_list (fun l => l ++ [c]) (with_list (filter (fun j => j <> c)) s2))); [done|]. now rewrite Hk3, Hk2, Hv.
  - step_eff. eapply eff_mono; [apply (send_refused cfg s1 c o1 (sub_data sub) E1 Hh co_writing)|].
    intros r s2 [ -> ->]. step_eff. split; [done|]. split; [done|]. exists false. rewrite app_nil_r. split; [|done].
    unfold lru_access. now rewrite decide_True.
Qed.

(** Making room. *)
Lemma evict_runs (s : st) a d Q :
  base s -> settled s -> baddr_ok a -> a ∉ keys s -> 0 < max_connections cfg ->
  (forall s', base s' -> settled s' -> num_connections s' < max_connections cfg ->
     keys s' = (if Z.of_nat (length (keys s)) =? max_connections cfg then tail (keys s) else keys s) ->
     (forall j, job_con j = None -> j ∈ jobs s -> j ∈ jobs s') -> device s' = device s -> accepted s' = accepted s -> Q tt s') ->
  runs (whenever (num_connections s =? max_connections cfg) (remove_lru_connection a d)) Q s.
Proof.
  intros Hb Hf Ha Hk Hcap HQ. pose proof (b_num _ _ Hb) as Hnum. pose proof (b_max _ _ Hb) as Hmax.
  assert (Hlen : Z.of_nat (length (keys s)) = num_connections s) by (unfold keys; rewrite length_map; lia). rewrite Hlen in HQ.
  apply eff_whenever; intros E; [|apply HQ; try done; [lia|now rewrite E]].
  unfold remove_lru_connection. step_eff. eapply eff_mono; [exact (find_runs s a d Hb Ha)|]. intros r s1 [ -> Hr].
  destruct r as [c|]; [exfalso; apply Hk, (keys_elem _ _ Hb); eauto|].
  step_eff. step_eff; [done|]. step_eff. step_eff. step_eff. step_eff; [lia|].
  destruct (connections_list s) as [|c0 l] eqn:El; [cbn in Hnum; lia|].
  assert (Hc0 : is_Some (connections s !! c0)) by (apply (b_list _ _ Hb); rewrite El; left).
  eapply eff_mono; [exact (free_ok _ _ Hb Hc0 (proj1 Hf c0))|].
  intros [] s2 (Hb2 & E2 & E3 & E4 & E5 & E6 & E7 & E8 & E9).
  pose proof (b_nodup _ _ Hb) as Hnd. rewrite El in Hnd, E2. apply NoDup_cons in Hnd as [Hn Hnd].
  rewrite filter_cons_False, filter_absent in E2 by (done || tauto).
  apply HQ; try done.
  - destruct Hf as [Hf1 Hf2]. split; [|congruence]. intros c H. exact (Hf1 c (E4 _ H)).
  - lia.
  - rewrite E. unfold keys. rewrite E2, El. cbn. apply map_ext_in. intros i Hi. unfold node_value. rewrite E3, lookup_delete_ne; [done|].
    intros ->. apply Hn. now rewrite list_elem_of_In.
Qed.

(** ** A packet from the device *)

Lemma submit_packet_ok (s : st) sub :
  base s -> settled s -> packet_ok sub -> 0 < max_connections cfg -> DeviceDone ∈ jobs s -> is_Some (device s) ->
  runs (SocksUdpGwClient_SubmitPacket cfg sub)
    (fun _ s' => inv s' /\ exists ok c, keys s' = lru_access (max_connections cfg) ok (sub_local sub) (keys s) /\
       accepted s' = accepted s ++ (if ok : bool then [(c, sub)] else [])) s.
Proof.
  intros Hb Hf Hp Hcap Hd Hdev. pose proof Hp as (P1 & P2 & P3 & P4 & P5). unfold SocksUdpGwClient_SubmitPacket.
  assert (Hlen : Z.of_nat (length (sub_data sub)) <= udp_mtu cfg) by (unfold udp_message in P5; rewrite length_app in P5; lia).
  step_eff. step_eff; [now destruct (sub_local sub)|]. step_eff. step_eff; [now destruct (sub_remote sub)|].
  step_eff. step_eff; [lia|]. step_eff. eapply eff_mono; [exact (find_runs s _ _ Hb P1)|]. intros r s1 [ -> Hr].
  destruct r as [c|].
  - destruct Hr as (o & E & El). eapply eff_mono; [exact (submit_found s sub c o Hb Hf Hp E El)|].
    intros [] s' (Hb' & Hf' & ok & Hk & Hacc). split; [split; auto|eauto].
  - step_eff. step_eff. step_eff. apply (evict_runs s _ _ _ Hb Hf P1 Hr Hcap).
    intros s2 Hb2 Hf2 Hmax Hk2 Hj2 Hdev2 Hacc2. step_eff.
    assert (Hnk : sub_local sub ∉ keys s2).
    { rewrite Hk2. destruct (_ =? _); [|done]. destruct (keys s); [done|]. cbn. set_solver. }
    assert (Hne : forall j, j ∈ connections_list s2 -> node_value s2 j <> sub_local sub).
    { intros j Hj E. apply Hnk. unfold keys. rewrite list_elem_of_fmap. eauto. }
    eapply eff_mono; [exact (init_made s2 sub Hb2 P1 Hne)|]. intros [c|] s3 Hm.
    + step_eff. pose proof (made_inv s2 s3 sub c Hb2 Hf2 Hm P1 Hmax (Hj2 DeviceDone eq_refl Hd) ltac:(now rewrite Hdev2) P5) as Hinv.
      split; [done|]. destruct Hm as (-> & M1 & M2 & M3 & M4 & M5 & M6 & M7 & M8 & M9). exists true, (fresh s2).
      cbn [accepted with_accepted]. split; [|congruence]. unfold lru_access. rewrite decide_False by done. cbn zeta. rewrite <- Hk2.
      unfold keys. cbn [connections_list with_accepted]. rewrite M3, map_app. f_equal.
      * apply map_ext_in. intros i Hi. unfold node_value. cbn. rewrite M4, lookup_insert_ne; [done|]. intros <-.
        rewrite <- list_elem_of_In, (b_list _ _ Hb2), (fresh_con _ Hb2) in Hi. now destruct Hi.
      * cbn. unfold node_value. cbn. now rewrite M4, lookup_insert_eq.
    + step_eff. destruct Hm as (M1 & M2 & M3 & M4 & M5 & M6 & M7 & M8 & M9).
      assert (Hb3 : base s3) by (eapply base_same; eauto; congruence).
      assert (Hf3 : settled s3) by (destruct Hf2; split; [now rewrite M6|congruence]).
      split; [split; auto|]. exists false, O. rewrite app_nil_r, M8. split; [|done].
      unfold lru_access. rewrite decide_False by done. cbn zeta. rewrite <- Hk2. unfold keys. rewrite M3.
      apply map_ext_in. intros i _. unfold node_value. now rewrite M4.
Qed.

Lemma device_packet_ok (s : st) seq sub :
  inv s -> DeviceDone ∉ jobs s -> packet_ok sub -> 0 < max_connections cfg ->
  runs (device_packet cfg seq sub)
    (fun _ s' => inv s' /\ exists ok c, keys s' = lru_access (max_connections cfg) ok (sub_local sub) (keys s) /\
       accepted s' = accepted s ++ (if ok : bool then [(c, sub)] else [])) s.
Proof.
  intros [Hb Hf] Hd Hp Hcap. assert (Hf' : settled s).
  { destruct Hf as [Hf|Hf]; [done|]. destruct Hf as (c & o & sub' & acc & l1 & l2 & H1 & H2 & _). destruct Hd. rewrite H1. set_solver. }
  unfold device_packet. step_eff. step_eff. step_eff. step_eff; [now apply bool_decide_true|]. step_eff. step_eff.
  step_eff. apply runs_set_job. set (s1 := with_jobs _ _).
  assert (Hk : keys s1 = keys s) by done. rewrite <- Hk. change (accepted s) with (accepted s1).
  apply submit_packet_ok; try done.
  - apply (base_jobs cfg s _ Hb); try done; cbn.
    + apply set_nodup, Hb.
    + intros j c Hj. rewrite set_elem. intros [ -> |H]; done.
    + intros j c _ _ _ H. apply set_elem. auto.
  - apply (settled_set s _ DeviceDone); done.
  - cbn. apply set_elem. auto.
Qed.

End Submit.
