(* ===== verification/SocksUdpRun.v ===== *)
(** * Runs of the UDP relay client

    The steps of the reactor, what every reachable state satisfies, and the work that
    is left when no more input arrives. *)

From S2P Require Import Prelude Effect BAddr UdpPacket BPending ConnTree SocksUdpGw SocksUdpInv SocksUdpStep.

Open Scope Z_scope.

Section Run.
Context {T : Type} `{!ConnTree T} `{!ConnTreeLaws T} (cfg : config).

Notation st := (client T).

(** A job is executed, or a packet arrives from the device; [ans] are the results of
    the calls that may fail during the step. *)
Inductive step := RunJob (acts : list act) (ans : list bool) | DevicePacket (seq : nat) (sub : submission) (ans : list bool).

Definition step_body (e : step) : eff st unit :=
  match e with
  | RunJob acts ans => upd_st (with_answers ans) ;; execute_job cfg acts
  | DevicePacket seq sub ans => upd_st (with_answers ans) ;; device_packet cfg seq sub
  end.

(** The device passes a packet on only after the one before it was done with. *)
Definition step_enabled (s : st) (e : step) : Prop :=
  match e with
  | RunJob _ _ => True
  | DevicePacket _ sub _ => DeviceDone ∉ jobs s /\ packet_ok cfg sub
  end.

Definition step_packet (e : step) : list submission :=
  match e with RunJob _ _ => [] | DevicePacket _ sub _ => [sub] end.

(** [reaches hist s]: the packets [hist] were passed to the client so far. *)
Inductive reaches : list submission -> st -> Prop :=
  | reaches_init : reaches [] SocksUdpGwClient_Init
  | reaches_step hist s e s' :
      reaches hist s -> step_enabled s e -> step_body e s = Done tt s' -> reaches (hist ++ step_packet e) s'.

(** ** What a computation keeps *)

Definition keeps {A X} (f : st -> X) (m : eff st A) : Prop := forall s a s', m s = Done a s' -> f s' = f s.

Section Keeps.
Context {X : Type} (f : st -> X).

Lemma kept_ret {A} (a : A) : keeps f (mret a).
Proof. intros s b s' [= _ <-]. done. Qed.

Lemma kept_bad {A} line : keeps f (bad line : eff st A).
Proof. intros s b s' [=]. Qed.

Lemma kept_get : keeps f get_st.
Proof. intros s b s' [= _ <-]. done. Qed.

Lemma kept_bind {A B} (m : eff st A) (k : A -> eff st B) : keeps f m -> (forall a, keeps f (k a)) -> keeps f (m ≫= k).
Proof.
  intros Hm Hk s b s'. unfold mbind, eff_mbind. destruct (m s) as [a s1|] eqn:E; [|done].
  intros E'. now rewrite (Hk a _ _ _ E'), (Hm _ _ _ E).
Qed.

Lemma kept_assert line b : keeps f (assert_at line b).
Proof. destruct b; [apply kept_ret|apply kept_bad]. Qed.

Lemma kept_whenever b m : keeps f m -> keeps f (whenever b m).
Proof. destruct b; [done|intros _; apply kept_ret]. Qed.

Lemma kept_upd g : (forall s, f (g s) = f s) -> keeps f (upd_st g).
Proof. intros H s a s' [= _ <-]. apply H. Qed.

Lemma kept_con line c : keeps f (con line c).
Proof. apply kept_bind; [apply kept_get|]. intros s. destruct (_ !! _); [apply kept_ret|apply kept_bad]. Qed.

Lemma kept_set_con line c g :
  (forall s o, connections s !! c = Some o -> f (with_connections (<[c := g o]>) s) = f s) -> keeps f (set_con line c g).
Proof.
  intros H s a s'. unfold set_con, con, mbind, eff_mbind, get_st. destruct (connections s !! c) as [o|] eqn:E; [|done].
  cbn. rewrite ?E. intros [= _ <-]. now apply H.
Qed.

End Keeps.

(** What the jobs keep: the addresses of the connections and what was accepted. *)
Definition book (s : st) : list BAddr * list (nat * submission) := (keys s, accepted s).

Lemma book_set_con line c g : (forall o, local_addr (g o) = local_addr o) -> keeps book (set_con line c g).
Proof.
  intros H. apply kept_set_con. intros s o E. unfold book. f_equal. unfold keys. apply map_ext. intros i. unfold node_value. cbn.
  destruct (decide (i = c)) as [ -> |Hi]; [rewrite lookup_insert_eq, E; apply H|now rewrite lookup_insert_ne].
Qed.

Ltac keep_book :=
  repeat first
    [ apply book_set_con; intros ?; reflexivity | apply kept_con | apply kept_ret | apply kept_bad | apply kept_get
    | apply kept_assert | apply kept_whenever | apply kept_upd; intros ?; reflexivity
    | match goal with |- keeps _ (mbind _ _) => apply kept_bind; [|intros ?] | |- keeps _ (match ?x with _ => _ end) => destruct x end ].

Lemma book_act a : keeps book (perform_act cfg a).
Proof. unfold perform_act, Writer_Recv, Recv_Send, set_job. keep_book. Qed.

Lemma book_acts l : keeps book (perform_acts cfg l).
Proof. induction l; cbn [perform_acts]; [apply kept_ret|]. apply kept_bind; [apply book_act|auto]. Qed.

Lemma book_job acts : keeps book (execute_job cfg acts).
Proof.
  unfold execute_job. keep_book; try apply book_acts.
  - unfold connection_first_job_handler, connection_send, BufferWriter_StartPacket, BufferWriter_EndPacket, set_job. keep_book.
  - unfold writer_job_operation. keep_book.
  - unfold writer_job_done. keep_book.
  - unfold recv_job_operation, dgram_handler_received, submit_to_user, set_job. keep_book.
  - unfold recv_job_done, set_job. keep_book.
Qed.

(** ** Reachable states *)

(** Between packets nothing waits. *)
Lemma inv_settled (s : st) : inv cfg s -> DeviceDone ∉ jobs s -> settled s.
Proof.
  intros [_ [Hf|Hf]] Hd; [done|]. destruct Hf as (c & o & sub & acc & l1 & l2 & H1 & H2 & _). destruct Hd. rewrite H1. set_solver.
Qed.

Context (Hmtu : udp_mtu cfg <= udpgw_mtu cfg) (Hmax : 0 < max_connections cfg).

Lemma init_inv : inv cfg SocksUdpGwClient_Init.
Proof.
  split; [|left; split; [intros c; apply not_elem_of_nil|done]].
  split; try done; cbn.
  - lia.
  - constructor.
  - intros c. rewrite lookup_empty. split; [now intros ?%elem_of_nil|now intros [? ?]].
  - apply ct_init_ok.
  - constructor.
  - intros j c H. now apply elem_of_nil in H.
  - intros c [o H]. now rewrite lookup_empty in H.
  - intros x H. now apply elem_of_nil in H.
Qed.

Lemma answers_inv l s : inv cfg s -> inv cfg (with_answers l s).
Proof. intros [Hb Hf]. split; [destruct Hb; now split|exact Hf]. Qed.

(** What a step does to the cache and to the packets accepted. *)
Definition booked (e : step) (s s' : st) : Prop :=
  match e with
  | RunJob _ _ => keys s' = keys s /\ accepted s' = accepted s
  | DevicePacket _ sub _ => exists ok c,
      keys s' = lru_access (max_connections cfg) ok (sub_local sub) (keys s) /\
      accepted s' = accepted s ++ (if ok : bool then [(c, sub)] else [])
  end.

Lemma step_ok s e : inv cfg s -> step_enabled s e -> runs (step_body e) (fun _ s' => inv cfg s' /\ booked e s s') s.
Proof.
  intros Hs He. destruct e as [acts ans|seq sub ans]; cbn [step_body booked step_enabled] in *; step_eff; step_eff.
  - pose proof (execute_job_inv cfg Hmtu _ acts (answers_inv ans s Hs)) as Hr.
    apply eff_done in Hr as ([] & s' & E & H). unfold runs. rewrite E.
    split; [done|]. pose proof (book_job acts _ _ _ E) as Hk. now injection Hk.
  - destruct He as [Hd Hp]. now apply (device_packet_ok cfg (with_answers ans s) seq sub); [apply answers_inv|..].
Qed.

Lemma reaches_inv hist s : reaches hist s -> inv cfg s.
Proof.
  induction 1 as [|hist s e s' _ IH He E]; [exact init_inv|]. now destruct (eff_at _ _ _ _ _ (step_ok s e IH He) E).
Qed.

(** ** The work that is left *)

(** How many jobs executing a job takes, with those it sets. *)
Definition job_work (j : job) : nat :=
  match j with RecvOperation _ => 3 | FirstJob _ | RecvDone _ => 2 | _ => 1 end%nat.

Fixpoint work (l : list job) : nat := match l with [] => O | j :: l => (job_work j + work l)%nat end.

Lemma work_filter P `{!forall j, Decision (P j)} l : (work (filter P l) <= work l)%nat.
Proof.
  induction l as [|j l IH]; [done|]. rewrite filter_cons. destruct (decide (P j)); cbn [work]; lia.
Qed.

Lemma work_set j l : (work (BPending_Set j l) <= job_work j + work l)%nat.
Proof. unfold BPending_Set, BPending_Unset. cbn [work]. pose proof (work_filter (fun k => k <> j) l). lia. Qed.

(** [m] sets jobs of at most [n] units of work. *)
Definition costs {A} (n : nat) (m : eff st A) : Prop :=
  forall s a s', m s = Done a s' -> (work (jobs s') <= n + work (jobs s))%nat.

Lemma costs_keeps {A} n (m : eff st A) : keeps jobs m -> costs n m.
Proof. intros H s a s' E. rewrite (H _ _ _ E). lia. Qed.

Lemma costs_bind {A B} n1 n2 (m : eff st A) (k : A -> eff st B) n :
  n = (n1 + n2)%nat -> costs n1 m -> (forall a, costs n2 (k a)) -> costs n (m ≫= k).
Proof.
  intros -> Hm Hk s b s'. unfold mbind, eff_mbind. destruct (m s) as [a s1|] eqn:E; [|done].
  intros E'. pose proof (Hk a _ _ _ E'). pose proof (Hm _ _ _ E). lia.
Qed.

Lemma costs_set j : costs (job_work j) (set_job j).
Proof. intros s a s' [= _ <-]. apply work_set. Qed.

Ltac keep_jobs :=
  repeat first
    [ apply kept_set_con; intros; reflexivity | apply kept_con | apply kept_ret | apply kept_bad | apply kept_get
    | apply kept_assert | apply kept_whenever | apply kept_upd; intros ?; reflexivity
    | match goal with |- keeps _ (mbind _ _) => apply kept_bind; [|intros ?] | |- keeps _ (match ?x with _ => _ end) => destruct x end ].

Ltac cost :=
  repeat first
    [ exact (costs_set _)
    | apply costs_keeps; keep_jobs; fail
    | eapply (costs_bind 0); [reflexivity|apply costs_keeps; keep_jobs; fail|intros ?]
    | eapply (costs_bind _ 0); [symmetry; apply Nat.add_0_r| |intros ?; apply costs_keeps; keep_jobs; fail]
    | match goal with |- costs _ (match ?x with _ => _ end) => destruct x end ].

Lemma job_costs (s : st) j rest (s' : st) :
  jobs s = j :: rest -> execute_job cfg [] s = Done tt s' -> (S (work (jobs s')) <= work (jobs s))%nat.
Proof.
  intros E. unfold execute_job, mbind, eff_mbind, get_st, upd_st. rewrite E. cbn [BPendingGroup_ExecuteJob].
  assert (Hgen : forall (m : eff st unit), costs (job_work j - 1) m -> m (with_jobs (fun _ => rest) s) = Done tt s' ->
    (S (work (jobs s')) <= work (j :: rest))%nat).
  { intros m Hm Em. pose proof (Hm _ _ _ Em) as H. cbn [jobs with_jobs] in H. assert (1 <= job_work j)%nat by (destruct j; cbn; lia).
    cbn [work]. lia. }
  destruct j; intros Em;
    [refine (Hgen _ _ Em)|refine (Hgen _ _ Em)|refine (Hgen (writer_job_done c ;; perform_acts cfg []) _ Em)
    |refine (Hgen _ _ Em)|refine (Hgen _ _ Em)|refine (Hgen _ _ Em)
    |refine (Hgen (upd_st (with_device None) ;; perform_acts cfg []) _ Em)|refine (Hgen _ _ Em)];
    clear Em Hgen; cbn [job_work Nat.sub perform_acts].
  - unfold connection_first_job_handler, connection_send, BufferWriter_StartPacket, BufferWriter_EndPacket. cost.
  - unfold writer_job_operation. cost.
  - unfold writer_job_done. cost.
  - unfold recv_job_operation, dgram_handler_received, submit_to_user. cost.
  - unfold recv_job_done. cost.
  - cost.
  - cost.
  - cost.
Qed.

Fixpoint run_jobs (n : nat) : eff st unit :=
  match n with O => mret tt | S n => execute_job cfg [] ;; run_jobs n end.

(** With no more input the jobs run out, and everything that was accepted is sent. *)
Lemma run_jobs_ok n (s : st) :
  inv cfg s -> (work (jobs s) <= n)%nat ->
  runs (run_jobs n) (fun _ s' => inv cfg s' /\ jobs s' = [] /\ book s' = book s) s.
Proof.
  revert s. induction n as [|n IH]; intros s Hs Hn; cbn [run_jobs].
  - step_eff. split; [done|]. split; [|done]. destruct (jobs s) as [|j l]; [done|]. destruct j; cbn in Hn; lia.
  - step_eff. destruct (eff_done _ _ _ (execute_job_inv cfg Hmtu s [] Hs)) as ([] & s1 & E & H1).
    unfold runs at 1. rewrite E. rewrite <- (book_job [] _ _ _ E). apply IH; [done|].
    destruct (jobs s) as [|j l] eqn:Ej; [|pose proof (job_costs s j l s1 Ej E) as H; rewrite Ej in H; lia].
    assert (s1 = s) as ->. { unfold execute_job, mbind, eff_mbind, get_st in E. rewrite Ej in E. now injection E. }
    rewrite Ej. cbn. lia.
Qed.

End Run.
