(* ===== verification/SocksUdpFacts.v ===== *)
(** * Theorems about the UDP relay client

    They are about the client over the AVL tree of [BAVL.h]; the proofs go through the
    interface of the tree only. *)

From S2P Require Import Prelude Effect BAddr UdpPacket BPending BAVL ConnTree SocksUdpGw SocksUdpInv SocksUdpStep SocksUdpRun.

Open Scope Z_scope.

Notation st := (client BAVL).

(** ** A configuration and two packets *)

Definition relay : BAddr := BADDR_IPV4 [127; 0; 0; 1] [4; 56].
Definition resolver : BAddr := BADDR_IPV4 [8; 8; 8; 8] [0; 53].
Definition phone : BAddr := BADDR_IPV4 [10; 0; 0; 2] [156; 64].
Definition game : BAddr := BADDR_IPV4 [93; 184; 216; 34] [27; 15].
Definition small : config := Config 32 62 2 relay resolver.
Definition hello : submission := Submission phone game false [104; 105].
Definition query : submission := Submission phone resolver true [1; 2; 3].

(** The state after a list of steps. *)
Fixpoint run_steps (cfg : config) (l : list step) : eff st unit :=
  match l with [] => mret tt | e :: l => step_body cfg e ;; run_steps cfg l end.

Definition after (cfg : config) (l : list step) : st :=
  match run_steps cfg l SocksUdpGwClient_Init with Done _ s => s | Bad _ => SocksUdpGwClient_Init end.

Lemma hello_reached : reaches small [hello] (after small [DevicePacket 0 hello []]).
Proof.
  refine (reaches_step small [] SocksUdpGwClient_Init (DevicePacket 0 hello []) _ (reaches_init small) _ _).
  - split; [apply not_elem_of_nil|]. repeat split; try done; vm_compute; repeat constructor; done.
  - vm_compute. reflexivity.
Qed.

(** ** Every state *)



(** ** The cache *)

(** The packets that were passed on. *)
Fixpoint passed (oks : list bool) (hist : list submission) : list submission :=
  match oks, hist with
  | ok :: oks, sub :: hist => (if ok then [sub] else []) ++ passed oks hist
  | _, _ => []
  end.

(** The cache after the packets of a history. *)
Fixpoint lru_run (cap : Z) (k : list BAddr) (oks : list bool) (hist : list submission) : list BAddr :=
  match oks, hist with
  | ok :: oks, sub :: hist => lru_run cap (lru_access cap ok (sub_local sub) k) oks hist
  | _, _ => k
  end.

Lemma lru_run_app cap k o1 h1 o2 h2 :
  length o1 = length h1 -> lru_run cap k (o1 ++ o2) (h1 ++ h2) = lru_run cap (lru_run cap k o1 h1) o2 h2.
Proof. revert k h1. induction o1; intros k [|]; cbn; try done. intros [= E]. auto. Qed.

Lemma passed_app o1 h1 o2 h2 : length o1 = length h1 -> passed (o1 ++ o2) (h1 ++ h2) = passed o1 h1 ++ passed o2 h2.
Proof. revert h1. induction o1 as [|o o1 IH]; intros [|]; cbn; try done. intros [= E]. rewrite <- app_assoc. now rewrite IH. Qed.

(** C11. The client implements a cache of connections by local address that drops the
    least recently used one: after any history of packets, with jobs and failures in
    between, its addresses in the order of use are those of the cache that saw the
    same packets, and the packets accepted are those the cache was told were passed on. *)
Theorem udp_client_is_lru (cfg : config) (hist : list submission) (s : st) :
  udp_mtu cfg <= udpgw_mtu cfg -> 0 < max_connections cfg -> reaches cfg hist s ->
  exists oks, length oks = length hist /\
    keys s = lru_run (max_connections cfg) [] oks hist /\ map snd (accepted s) = passed oks hist.
Proof.
  intros Hmtu Hmax Hs. induction Hs as [|hist s e s' Hs IH He E]; [now exists []|].
  destruct IH as (oks & H1 & H2 & H3). pose proof (reaches_inv cfg Hmtu Hmax hist s Hs) as Hi.
  destruct (eff_at _ _ _ _ _ (step_ok cfg Hmtu Hmax s e Hi He) E) as [_ Hbk]. destruct e as [acts ans|seq sub ans]; cbn in Hbk |- *.
  - destruct Hbk as [-> ->]. exists oks. now rewrite app_nil_r.
  - destruct Hbk as (ok & c & -> & ->). exists (oks ++ [ok]).
    split; [rewrite !length_app; cbn; lia|]. split; [now rewrite lru_run_app, H2|].
    rewrite passed_app, map_app, H3 by done. cbn. rewrite app_nil_r. now destruct ok.
Qed.

Lemma udp_client_is_lru_witness :
  exists oks, length oks = 1%nat /\ keys (after small [DevicePacket 0 hello []]) = lru_run 2 [] oks [hello] /\
    map snd (accepted (after small [DevicePacket 0 hello []])) = passed oks [hello].
Proof. refine (udp_client_is_lru small [hello] _ _ _ hello_reached); vm_compute; congruence. Defined.

(** ** Sending *)



(** ** Replies *)

Lemma parse_packet_header remote data :
  baddr_ok remote -> remote <> BADDR_NONE -> parse_header (packet_header remote false ++ data) = Some (remote, data).
Proof.
  destruct remote as [|ip port|ip port]; [done| |]; cbn [baddr_ok]; intros (H1 & H2 & _) _.
  - do 4 (destruct ip as [|? ip]; [done|]). destruct ip; [|done]. do 2 (destruct port as [|? port]; [done|]). destruct port; [|done].
    reflexivity.
  - do 16 (destruct ip as [|? ip]; [done|]). destruct ip; [|done]. do 2 (destruct port as [|? port]; [done|]). destruct port; [|done].
    reflexivity.
Qed.

(** A datagram in the format the client itself sends is taken apart again: when the
    relay's reply is passed to a connection that is not one for DNS, the data behind
    the header goes to the user with the connection's local address and the address
    in the header, and the interface will accept the next one. *)
Lemma udp_reply_delivered (cfg : config) (s : st) (c : nat) (o : connection) (remote : BAddr) (data : list Z) :
  connections s !! c = Some o -> con_is_dns o = false -> recv_state o = STATE_OPERATION_PENDING ->
  recv_data o = packet_header remote false ++ data -> Z.of_nat (length (recv_data o)) <= udpgw_mtu cfg ->
  Z.of_nat (length data) <= udp_mtu cfg -> baddr_ok remote -> remote <> BADDR_NONE ->
  runs (recv_job_operation cfg c)
    (fun _ s' => delivered s' = delivered s ++ [(local_addr o, remote, data)] /\ RecvDone c ∈ jobs s' /\
       exists o', connections s' !! c = Some o' /\ recv_state o' = STATE_DONE_PENDING /\ remote_addr o' = remote) s.
Proof.
  intros E Hd Hst Hdata Hlen Hmtu Hr Hn. unfold recv_job_operation. step_eff. apply (runs_con _ _ _ _ _ E).
  step_eff. step_eff; [now apply bool_decide_true|]. step_eff. apply (runs_set_con _ _ _ _ _ _ E).
  unfold dgram_handler_received. step_eff. eapply runs_con; [apply lookup_insert_eq|]. step_eff. step_eff; [lia|].
  step_eff. step_eff; [done|]. step_eff. apply runs_set_job. step_eff. eapply runs_set_con; [apply lookup_insert_eq|].
  cbn [con_is_dns with_recv]. rewrite Hd. cbn [negb]. rewrite Hdata, parse_packet_header by done.
  step_eff. eapply runs_set_con; [cbn; apply lookup_insert_eq|]. unfold submit_to_user.
  destruct (Z.gtb_spec (Z.of_nat (length data)) (udp_mtu cfg)); [lia|].
  step_eff. eapply runs_con; [cbn; apply lookup_insert_eq|]. step_eff. cbn.
  split; [done|]. split; [apply set_elem; auto|]. rewrite lookup_insert_eq. eauto.
Qed.

Definition replied : st :=
  after small [DevicePacket 0 hello []; RunJob [] []; RunJob [] []; RunJob [] []; RunJob [] [];
    RunJob [ActDatagram 0 (packet_header game false ++ [9])] []].

Lemma udp_reply_delivered_witness :
  exists o, local_addr o = phone /\
  runs (recv_job_operation small 0)
    (fun _ s' => delivered s' = delivered replied ++ [(local_addr o, game, [9])] /\ RecvDone 0 ∈ jobs s' /\
       exists o', connections s' !! 0%nat = Some o' /\ recv_state o' = STATE_DONE_PENDING /\ remote_addr o' = game) replied.
Proof.
  eexists. split; [|refine (udp_reply_delivered small replied 0 _ game [9] _ _ _ _ _ _ _ _); [vm_compute; reflexivity|..]];
    [reflexivity..|vm_compute; congruence|vm_compute; congruence|repeat constructor; done|done].
Defined.

(** ** Defects *)

(** The buffer a packet is written to has room for the longest packet, not for the
    header before it: a packet of an accepted length whose message is longer than
    [udp_mtu] is written past its end (the assertion that would stop it is not
    compiled into the application). *)
Lemma udp_header_overflows (cfg : config) (s : st) (c : nat) (o : connection) (data : list Z) :
  connections s !! c = Some o -> out_have o = true -> d_writing o = false ->
  udp_mtu cfg < Z.of_nat (length (packet_header (remote_addr o) (con_is_dns o) ++ data)) ->
  connection_send cfg c data s = Bad 98.
Proof.
  intros E Hh Hw Hlen. unfold connection_send, BufferWriter_StartPacket, BufferWriter_EndPacket, set_con, con.
  unfold mbind, eff_mbind, get_st, upd_st, assert_at.
  repeat first [rewrite E|rewrite Hw|rewrite Hh|rewrite lookup_insert_eq|progress cbn -[Z.leb Z.of_nat length packet_header app]].
  destruct (Z.leb_spec (Z.of_nat (length (packet_header (remote_addr o) (con_is_dns o) ++ data))) (udp_mtu cfg)); [lia|done].
Qed.

Definition full : submission := Submission phone game false (replicate 32 7).

Lemma udp_header_overflows_witness :
  Z.of_nat (length (sub_data full)) = udp_mtu small /\
  connection_send small 0 (sub_data full)
    (after small [DevicePacket 0 full []; RunJob [] []; RunJob [] []]) = Bad 98.
Proof.
  split; [reflexivity|]. refine (udp_header_overflows small _ 0 _ _ _ _ _ _);
    [vm_compute; reflexivity|vm_compute; reflexivity..].
Defined.

(** A DNS query from a port that already talks to another host is not sent to the
    DNS server: [find_connection] returns the connection of the port whatever it was
    opened for, and the query leaves its socket, whose destination is the SOCKS server,
    without the header that server expects. *)
Lemma dns_query_misdirected :
  let s := after small [DevicePacket 0 hello []; RunJob [] []; RunJob [] []; RunJob [] []; RunJob [ActWriter 0] [];
                        RunJob [] []; RunJob [] []; DevicePacket 1 query []] in
  sent s = [(0%nat, udp_message hello); (0%nat, sub_data query)] /\
  send_addr <$> connections s !! 0%nat = Some relay /\ num_connections s = 1.
Proof. vm_compute. done. Qed.
