(* ===== verification/BSocksClient.v ===== *)
(** * The SOCKS5 client of tun2socks ([badvpn/socksclient/BSocksClient.c])

    The object that opens a connection to the SOCKS server, agrees on a method of
    authentication, asks for a connection to the destination and then gives its two
    stream interfaces away. With it come the sender of [flow/PacketStreamSender.c] that
    cuts its messages, and the part of the interfaces of the connection it goes through.

    Pointers into the message buffer carry the address of the allocation they were made
    from, because the buffer is reallocated for every message: using one after that is a
    fault, as is reading a byte nobody wrote, a failed assertion, and using an interface
    that is not set up. *)

From S2P Require Import Prelude Effect BAddr BPending.

Open Scope Z_scope.

Module BSocks.

(** ** Protocol constants ([misc/socks_proto.h]) *)

Definition SOCKS_VERSION : Z := 5.
Definition SOCKS_METHOD_NO_AUTHENTICATION_REQUIRED : Z := 0.
Definition SOCKS_METHOD_USERNAME_PASSWORD : Z := 2.
Definition SOCKS_CMD_CONNECT : Z := 1.
Definition SOCKS_ATYP_IPV4 : Z := 1.
Definition SOCKS_ATYP_IPV6 : Z := 4.
Definition SOCKS_REP_SUCCEEDED : Z := 0.
Definition sizeof_socks_server_hello : Z := 2.
Definition sizeof_socks_reply_header : Z := 4.
Definition sizeof_socks_addr_ipv4 : Z := 6.
Definition sizeof_socks_addr_ipv6 : Z := 18.

Definition EVENT_ERROR : Z := 1.
Definition EVENT_UP : Z := 2.
Definition EVENT_ERROR_CLOSED : Z := 3.

(** ** State *)

Inductive client_state :=
  | STATE_CONNECTING | STATE_SENDING_HELLO | STATE_SENT_HELLO | STATE_SENDING_PASSWORD | STATE_SENT_PASSWORD
  | STATE_SENDING_REQUEST | STATE_SENT_REQUEST | STATE_RECEIVED_REPLY_HEADER | STATE_UP.

#[export] Instance client_state_eq_dec : EqDecision client_state.
Proof. solve_decision. Defined.

Record auth_info := AuthInfo {
  auth_type : Z;
  username : list Z;
  password : list Z;
}.

(** A pointer: the allocation and an offset into it. *)
Record pointer := Pointer { p_block : nat; p_offset : Z }.

(** What is used while messages are exchanged: the packet interface of the sender, the
    sender ([PacketStreamSender]), the operation it has started on the connection, and
    the message being received with the operation started for it. *)
Record control_io := Control {
  send_if : pi_state;
  send_data_ptr : pointer;
  send_data_len : Z;
  in_len : Z;
  in_ptr : pointer;
  in_used : Z;
  out_op : option (pointer * Z);
  recv_dest : pointer;
  recv_len : Z;
  recv_total : Z;
  recv_op : option (pointer * Z);
}.

Definition with_send (s : pi_state) (p : pointer) (n : Z) (c : control_io) : control_io :=
  Control s p n (in_len c) (in_ptr c) (in_used c) (out_op c) (recv_dest c) (recv_len c) (recv_total c) (recv_op c).
Definition with_in (n : Z) (p : pointer) (used : Z) (c : control_io) : control_io :=
  Control (send_if c) (send_data_ptr c) (send_data_len c) n p used (out_op c) (recv_dest c) (recv_len c) (recv_total c) (recv_op c).
Definition with_out_op (op : option (pointer * Z)) (c : control_io) : control_io :=
  Control (send_if c) (send_data_ptr c) (send_data_len c) (in_len c) (in_ptr c) (in_used c) op (recv_dest c) (recv_len c)
    (recv_total c) (recv_op c).
Definition with_recv (p : pointer) (n total : Z) (op : option (pointer * Z)) (c : control_io) : control_io :=
  Control (send_if c) (send_data_ptr c) (send_data_len c) (in_len c) (in_ptr c) (in_used c) (out_op c) p n total op.

(** [BSocksClient]. The contents of the buffer are bytes, [None] where nothing was
    written; [control] is there between [init_control_io] and [free_control_io], and [up_io]
    tells the same for the interfaces given away; [con] and [connector] whether those objects
    are initialised; [errored] whether an error was reported. *)
Record BSocksClient := Client {
  auth_infos : list auth_info;
  dest_addr : BAddr;
  state : client_state;
  buffer : option (nat * list (option Z));
  control : option control_io;
  up_io : bool;
  con : bool;
  connector : bool;
  errored : bool;
}.

Definition with_state (s : client_state) (o : BSocksClient) : BSocksClient :=
  Client (auth_infos o) (dest_addr o) s (buffer o) (control o) (up_io o) (con o) (connector o) (errored o).
Definition with_buffer (b : option (nat * list (option Z))) (o : BSocksClient) : BSocksClient :=
  Client (auth_infos o) (dest_addr o) (state o) b (control o) (up_io o) (con o) (connector o) (errored o).
Definition with_control (c : option control_io) (o : BSocksClient) : BSocksClient :=
  Client (auth_infos o) (dest_addr o) (state o) (buffer o) c (up_io o) (con o) (connector o) (errored o).
Definition with_up_io (b : bool) (o : BSocksClient) : BSocksClient :=
  Client (auth_infos o) (dest_addr o) (state o) (buffer o) (control o) b (con o) (connector o) (errored o).
Definition with_con (b : bool) (o : BSocksClient) : BSocksClient :=
  Client (auth_infos o) (dest_addr o) (state o) (buffer o) (control o) (up_io o) b (connector o) (errored o).
Definition with_connector (b : bool) (o : BSocksClient) : BSocksClient :=
  Client (auth_infos o) (dest_addr o) (state o) (buffer o) (control o) (up_io o) (con o) b (errored o).
Definition with_errored (o : BSocksClient) : BSocksClient :=
  Client (auth_infos o) (dest_addr o) (state o) (buffer o) (control o) (up_io o) (con o) (connector o) true.

(** The object, or nothing once it is freed; the next allocation; the events passed to the
    handler; the bytes the connection has taken and delivered; and the results of the
    calls that can fail, which succeed when the list is exhausted. *)
Record world := World {
  sock : option BSocksClient;
  next_block : nat;
  events : list Z;
  wire_out : list Z;
  wire_in : list Z;
  answers : list bool;
}.

Definition with_sock (o : option BSocksClient) (w : world) : world :=
  World o (next_block w) (events w) (wire_out w) (wire_in w) (answers w).
Definition with_next (n : nat) (w : world) : world :=
  World (sock w) n (events w) (wire_out w) (wire_in w) (answers w).
Definition with_event (e : Z) (w : world) : world :=
  World (sock w) (next_block w) (events w ++ [e]) (wire_out w) (wire_in w) (answers w).
Definition with_out (l : list Z) (w : world) : world :=
  World (sock w) (next_block w) (events w) (wire_out w ++ l) (wire_in w) (answers w).
Definition with_in_bytes (l : list Z) (w : world) : world :=
  World (sock w) (next_block w) (events w) (wire_out w) (wire_in w ++ l) (answers w).
Definition with_answers (l : list bool) (w : world) : world :=
  World (sock w) (next_block w) (events w) (wire_out w) (wire_in w) l.

(** ** Access *)

Definition this (line : Z) : eff world BSocksClient :=
  w ← get_st;
  match sock w with Some o => mret o | None => bad line end.

Definition set_this (line : Z) (f : BSocksClient -> BSocksClient) : eff world unit :=
  o ← this line;
  upd_st (with_sock (Some (f o))).

Definition control_of (line : Z) : eff world control_io :=
  o ← this line;
  match control o with Some c => mret c | None => bad line end.

Definition set_control (line : Z) (f : control_io -> control_io) : eff world unit :=
  c ← control_of line;
  set_this line (with_control (Some (f c))).

Definition answer : eff world bool :=
  w ← get_st;
  match answers w with [] => mret true | b :: l => upd_st (with_answers l) ;; mret b end.

(** The block a pointer is into, if it is still allocated and has [len] bytes there. *)
Definition block_at (line : Z) (p : pointer) (len : Z) : eff world (list (option Z)) :=
  o ← this line;
  match buffer o with
  | Some (b, l) =>
      if bool_decide (b = p_block p) && (0 <=? p_offset p) && (0 <=? len) && (p_offset p + len <=? Z.of_nat (length l))
      then mret l else bad line
  | None => bad line
  end.

(** The bytes at a pointer. *)
Definition load (line : Z) (p : pointer) (len : Z) : eff world (list Z) :=
  l ← block_at line p len;
  match mapM (fun x => x) (take (Z.to_nat len) (drop (Z.to_nat (p_offset p)) l)) with
  | Some bytes => mret bytes
  | None => bad line
  end.

Definition store (line : Z) (p : pointer) (bytes : list Z) : eff world unit :=
  l ← block_at line p (Z.of_nat (length bytes));
  let i := Z.to_nat (p_offset p) in
  set_this line (with_buffer (Some (p_block p, take i l ++ map Some bytes ++ drop (i + length bytes) l))).

(** The pointer [o->buffer + n]. *)
Definition buffer_ptr (line : Z) (n : Z) : eff world pointer :=
  o ← this line;
  match buffer o with Some (b, _) => mret (Pointer b n) | None => bad line end.

(** ** The interfaces *)

(** [StreamPassInterface_Sender_Send] on the connection. *)
Definition StreamPass_Send (p : pointer) (len : Z) : eff world unit :=
  assert_at 150 (0 <? len) ;;
  c ← control_of 152;
  assert_at 152 (match out_op c with None => true | Some _ => false end) ;;
  set_control 157 (with_out_op (Some (p, len))).

(** [StreamRecvInterface_Receiver_Recv] on the connection. *)
Definition StreamRecv_Recv (p : pointer) (len : Z) : eff world unit :=
  assert_at 150 (0 <? len) ;;
  c ← control_of 152;
  assert_at 152 (match recv_op c with None => true | Some _ => false end) ;;
  set_control 157 (fun c => with_recv (recv_dest c) (recv_len c) (recv_total c) (Some (p, len)) c).

(** [PacketPassInterface_Sender_Send] on the sender. *)
Definition PacketPass_Send (p : pointer) (len : Z) : eff world unit :=
  assert_at 183 (0 <=? len) ;;
  c ← control_of 186;
  assert_at 186 (bool_decide (send_if c = STATE_NONE)) ;;
  set_control 196 (with_send STATE_OPERATION_PENDING p len).

(** ** [PacketStreamSender.c] *)

Definition send_data : eff world unit :=
  c ← control_of 38;
  assert_at 38 (0 <=? in_len c) ;;
  if in_used c <? in_len c then
    StreamPass_Send (Pointer (p_block (in_ptr c)) (p_offset (in_ptr c) + in_used c)) (in_len c - in_used c)
  else
    set_control 45 (fun c => with_in (-1) (in_ptr c) (in_used c) c) ;;
    c ← control_of 151;
    assert_at 151 (bool_decide (send_if c = STATE_BUSY)) ;;
    set_control 161 (fun c => with_send STATE_DONE_PENDING (send_data_ptr c) (send_data_len c) c).

Definition input_handler_send (p : pointer) (len : Z) : eff world unit :=
  c ← control_of 52;
  assert_at 52 (in_len c =? -1) ;;
  assert_at 53 (0 <=? len) ;;
  set_control 57 (with_in len p 0) ;;
  send_data.

Definition output_handler_done (data_len : Z) : eff world unit :=
  c ← control_of 67;
  assert_at 67 (0 <=? in_len c) ;;
  assert_at 68 (0 <? data_len) ;;
  assert_at 69 (data_len <=? in_len c - in_used c) ;;
  set_control 73 (fun c => with_in (in_len c) (in_ptr c) (in_used c + data_len) c) ;;
  send_data.

(** ** [BSocksClient.c] *)

Definition report_error (error : Z) : eff world unit :=
  o ← this 66;
  assert_at 66 (negb (errored o)) ;;
  set_this 66 with_errored ;;
  upd_st (with_event error).

Definition init_control_io : eff world unit :=
  let nowhere := Pointer 0 0 in
  set_this 72 (with_control (Some (Control STATE_NONE nowhere 0 (-1) nowhere 0 None nowhere 0 0 None))).

Definition free_control_io : eff world unit :=
  c ← control_of 86;
  set_this 90 (with_control None).

Definition init_up_io : eff world unit := set_this 99 (with_up_io true).

Definition free_up_io : eff world unit :=
  o ← this 105;
  assert_at 105 (up_io o) ;;
  set_this 108 (with_up_io false).

(** [BRealloc]: the old contents are kept as far as they fit. *)
Definition reserve_buffer (size : Z) : eff world bool :=
  ok ← answer;
  if negb ok then mret false
  else
    w ← get_st;
    o ← this 118;
    let old := match buffer o with Some (_, l) => l | None => [] end in
    let n := Z.to_nat size in
    set_this 124 (with_buffer (Some (next_block w, take n old ++ replicate (n - length old) None))) ;;
    upd_st (with_next (S (next_block w))) ;;
    mret true.

Definition do_receive : eff world unit :=
  c ← control_of 142;
  assert_at 142 (recv_len c <? recv_total c) ;;
  StreamRecv_Recv (Pointer (p_block (recv_dest c)) (p_offset (recv_dest c) + recv_len c)) (recv_total c - recv_len c).

Definition start_receive (dest : pointer) (total : Z) : eff world unit :=
  assert_at 131 (0 <? total) ;;
  set_control 135 (fun c => with_recv dest 0 total (recv_op c) c) ;;
  do_receive.

(** Lines 187 to 200: the hello message. *)
Definition hello_message (auths : list auth_info) : list Z :=
  [SOCKS_VERSION; u8 (Z.of_nat (length auths))] ++ map (fun a => u8 (auth_type a)) auths.

Definition connector_handler (is_error : bool) : eff world unit :=
  o ← this 150;
  assert_at 150 (bool_decide (state o = STATE_CONNECTING)) ;;
  if is_error then report_error EVENT_ERROR
  else
    ok ← answer;
    if negb ok then report_error EVENT_ERROR
    else
      set_this 159 (with_con true) ;;
      init_control_io ;;
      let num := Z.of_nat (length (auth_infos o)) in
      let fail1 := (free_control_io ;; set_this 210 (with_con false) ;; report_error EVENT_ERROR) in
      if (num =? 0) || (255 <? num) then fail1
      else
        let size := 2 + num in
        reserved ← reserve_buffer size;
        if negb reserved then fail1
        else
          p ← buffer_ptr 191 0;
          store 191 p (hello_message (auth_infos o)) ;;
          PacketPass_Send p size ;;
          set_this 204 (with_state STATE_SENDING_HELLO).

Definition RECVCLOSED : Z := 2.

Definition connection_handler (event : Z) : eff world unit :=
  o ← this 219;
  assert_at 219 (negb (bool_decide (state o = STATE_CONNECTING))) ;;
  if bool_decide (state o = STATE_UP) && (event =? RECVCLOSED) then report_error EVENT_ERROR_CLOSED
  else report_error EVENT_ERROR.

(** The header of the request and the address behind it. *)
Definition request_message (dest : BAddr) : option (list Z) :=
  match dest with
  | BADDR_IPV4 ip port => Some ([SOCKS_VERSION; SOCKS_CMD_CONNECT; 0; SOCKS_ATYP_IPV4] ++ ip ++ port)
  | BADDR_IPV6 ip port => Some ([SOCKS_VERSION; SOCKS_CMD_CONNECT; 0; SOCKS_ATYP_IPV6] ++ ip ++ port)
  | BADDR_NONE => None
  end.

Definition request_size (dest : BAddr) : Z :=
  match dest with
  | BADDR_IPV4 _ _ => 4 + sizeof_socks_addr_ipv4
  | BADDR_IPV6 _ _ => 4 + sizeof_socks_addr_ipv6
  | BADDR_NONE => 4
  end.

Definition auth_finished : eff world unit :=
  o ← this 467;
  let size := request_size (dest_addr o) in
  reserved ← reserve_buffer size;
  if negb reserved then report_error EVENT_ERROR
  else
    match request_message (dest_addr o) with
    | None => bad 497
    | Some message =>
        p ← buffer_ptr 499 0;
        store 499 p message ;;
        PacketPass_Send p size ;;
        set_this 505 (with_state STATE_SENDING_REQUEST)
    end.

(** Lines 292 to 300. *)
Definition password_message (ai : auth_info) : list Z :=
  [1; u8 (Z.of_nat (length (username ai)))] ++ username ai ++ [u8 (Z.of_nat (length (password ai)))] ++ password ai.

(** Lines 244 to 311: the answer to the hello. *)
Definition received_hello (o : BSocksClient) : eff world unit :=
  p ← buffer_ptr 248 0;
  imsg ← load 248 p sizeof_socks_server_hello;
  if negb (nth 0 imsg 0 =? SOCKS_VERSION) then report_error EVENT_ERROR
  else
    match find (fun a => auth_type a =? nth 1 imsg 0) (auth_infos o) with
    | None => report_error EVENT_ERROR
    | Some ai =>
        if auth_type ai =? SOCKS_METHOD_NO_AUTHENTICATION_REQUIRED then auth_finished
        else if auth_type ai =? SOCKS_METHOD_USERNAME_PASSWORD then
          let username_len := Z.of_nat (length (username ai)) in
          let password_len := Z.of_nat (length (password ai)) in
          if (username_len =? 0) || (255 <? username_len) || (password_len =? 0) || (255 <? password_len)
          then report_error EVENT_ERROR
          else
            let size := 1 + 1 + username_len + 1 + password_len in
            reserved ← reserve_buffer size;
            if negb reserved then report_error EVENT_ERROR
            else
              p ← buffer_ptr 292 0;
              store 292 p (password_message ai) ;;
              PacketPass_Send p size ;;
              set_this 306 (with_state STATE_SENDING_PASSWORD)
        else bad 309
    end.

(** Lines 313 to 347: the header of the reply. *)
Definition received_reply_header : eff world unit :=
  p ← buffer_ptr 317 0;
  imsg ← load 317 p sizeof_socks_reply_header;
  if negb (nth 0 imsg 0 =? SOCKS_VERSION) then report_error EVENT_ERROR
  else if negb (nth 1 imsg 0 =? SOCKS_REP_SUCCEEDED) then report_error EVENT_ERROR
  else
    let atyp := nth 3 imsg 0 in
    let rest (addr_len : Z) :=
      (p ← buffer_ptr 343 sizeof_socks_reply_header;
       start_receive p addr_len ;;
       set_this 346 (with_state STATE_RECEIVED_REPLY_HEADER)) in
    if atyp =? SOCKS_ATYP_IPV4 then rest sizeof_socks_addr_ipv4
    else if atyp =? SOCKS_ATYP_IPV6 then rest sizeof_socks_addr_ipv6
    else report_error EVENT_ERROR.

(** Lines 349 to 363. *)
Definition received_password_reply : eff world unit :=
  p ← buffer_ptr 352 0;
  version ← load 352 p 1;
  if negb (nth 0 version 0 =? 1) then report_error EVENT_ERROR
  else
    p ← buffer_ptr 357 1;
    status ← load 357 p 1;
    if negb (nth 0 status 0 =? 0) then report_error EVENT_ERROR
    else auth_finished.

(** Lines 365 to 384. *)
Definition received_reply_rest : eff world unit :=
  set_this 369 (with_buffer None) ;;
  free_control_io ;;
  init_up_io ;;
  set_this 379 (with_state STATE_UP) ;;
  upd_st (with_event EVENT_UP).

Definition recv_handler_done (data_len : Z) : eff world unit :=
  assert_at 232 (0 <=? data_len) ;;
  c ← control_of 233;
  assert_at 233 (data_len <=? recv_total c - recv_len c) ;;
  set_control 236 (fun c => with_recv (recv_dest c) (recv_len c + data_len) (recv_total c) (recv_op c) c) ;;
  c ← control_of 238;
  if recv_len c <? recv_total c then do_receive
  else
    o ← this 243;
    match state o with
    | STATE_SENT_HELLO => received_hello o
    | STATE_SENT_REQUEST => received_reply_header
    | STATE_SENT_PASSWORD => received_password_reply
    | STATE_RECEIVED_REPLY_HEADER => received_reply_rest
    | _ => bad 387
    end.

(** The three cases differ in the size reserved, the size received and the new state. *)
Definition receive_next (size total : Z) (new : client_state) : eff world unit :=
  reserved ← reserve_buffer size;
  if negb reserved then report_error EVENT_ERROR
  else
    p ← buffer_ptr 412 0;
    start_receive p total ;;
    set_this 415 (with_state new).

Definition send_handler_done : eff world unit :=
  o ← this 399;
  assert_at 399 (match buffer o with Some _ => true | None => false end) ;;
  match state o with
  | STATE_SENDING_HELLO => receive_next sizeof_socks_server_hello sizeof_socks_server_hello STATE_SENT_HELLO
  | STATE_SENDING_REQUEST =>
      receive_next (sizeof_socks_reply_header + Z.max sizeof_socks_addr_ipv4 sizeof_socks_addr_ipv6)
        sizeof_socks_reply_header STATE_SENT_REQUEST
  | STATE_SENDING_PASSWORD => receive_next 2 2 STATE_SENT_PASSWORD
  | _ => bad 454
  end.

Definition BSocksClient_auth_none : auth_info := AuthInfo SOCKS_METHOD_NO_AUTHENTICATION_REQUIRED [] [].

Definition BSocksClient_auth_password (user pass : list Z) : auth_info :=
  AuthInfo SOCKS_METHOD_USERNAME_PASSWORD user pass.

Definition known_method (a : auth_info) : bool :=
  (auth_type a =? SOCKS_METHOD_NO_AUTHENTICATION_REQUIRED) || (auth_type a =? SOCKS_METHOD_USERNAME_PASSWORD).

Definition BSocksClient_Init (server : BAddr) (auths : list auth_info) (dest : BAddr) : eff world bool :=
  assert_at 530 (negb (BAddr_IsInvalid server)) ;;
  assert_at 531 ((BADDR_TYPE dest =? 1) || (BADDR_TYPE dest =? 2)) ;;
  assert_at 534 (forallb known_method auths) ;;
  ok ← answer;
  if negb ok then mret false
  else
    upd_st (with_sock (Some (Client auths dest STATE_CONNECTING None None false false true false))) ;;
    mret true.

Definition BSocksClient_Free : eff world unit :=
  o ← this 569;
  (if negb (bool_decide (state o = STATE_CONNECTING)) then
     (if bool_decide (state o = STATE_UP) then free_up_io else free_control_io) ;;
     o ← this 582;
     assert_at 582 (con o) ;;
     set_this 582 (with_con false)
   else mret tt) ;;
  o ← this 586;
  assert_at 586 (connector o) ;;
  set_this 586 (with_connector false) ;;
  set_this 590 (with_buffer None) ;;
  upd_st (with_sock None).

Definition BSocksClient_GetSendInterface : eff world unit :=
  o ← this 596;
  assert_at 596 (bool_decide (state o = STATE_UP)).

Definition BSocksClient_GetRecvInterface : eff world unit :=
  o ← this 604;
  assert_at 604 (bool_decide (state o = STATE_UP)).

(** ** Steps

    The jobs of the interfaces, and what the connector and the connection do. [DoRecv] is
    the arrival of bytes for the operation under way, [DoSent] the writing of some of the
    bytes of the one under way. *)
Inductive call :=
  | Connected (is_error : bool)
  | ConnectionEvent (event : Z)
  | InputOperation
  | InputDone
  | DoSent (n : Z)
  | DoRecv (data : list Z)
  | Free.

(** [_PacketPassInterface_job_operation] of the sender's input. *)
Definition input_operation : eff world unit :=
  c ← control_of 34;
  assert_at 34 (bool_decide (send_if c = STATE_OPERATION_PENDING)) ;;
  set_control 38 (fun c => with_send STATE_BUSY (send_data_ptr c) (send_data_len c) c) ;;
  input_handler_send (send_data_ptr c) (send_data_len c).

(** [_PacketPassInterface_job_done], whose handler is [send_handler_done]. *)
Definition input_done : eff world unit :=
  c ← control_of 59;
  assert_at 59 (bool_decide (send_if c = STATE_DONE_PENDING)) ;;
  set_control 63 (fun c => with_send STATE_NONE (send_data_ptr c) (send_data_len c) c) ;;
  send_handler_done.

Definition do_sent (n : Z) : eff world unit :=
  c ← control_of 0;
  match out_op c with
  | None => bad 0
  | Some (p, len) =>
      assert_at 126 ((0 <? n) && (n <=? len)) ;;
      bytes ← load 0 p n;
      upd_st (with_out bytes) ;;
      set_control 51 (with_out_op None) ;;
      output_handler_done n
  end.

Definition do_recv (data : list Z) : eff world unit :=
  c ← control_of 0;
  match recv_op c with
  | None => bad 0
  | Some (p, len) =>
      let n := Z.of_nat (length data) in
      assert_at 126 ((0 <? n) && (n <=? len)) ;;
      store 0 p data ;;
      upd_st (with_in_bytes data) ;;
      set_control 51 (fun c => with_recv (recv_dest c) (recv_len c) (recv_total c) None c) ;;
      recv_handler_done n
  end.

Definition call_body (k : call) : eff world unit :=
  match k with
  | Connected is_error => connector_handler is_error
  | ConnectionEvent event => connection_handler event
  | InputOperation => input_operation
  | InputDone => input_done
  | DoSent n => do_sent n
  | DoRecv data => do_recv data
  | Free => BSocksClient_Free
  end.

(** The calls the contracts of the connection, of its interfaces and of the jobs admit; after an
    error only the user's call of [BSocksClient_Free] is left. *)
Definition call_enabled (w : world) (k : call) : bool :=
  match sock w with
  | None => false
  | Some o =>
      match k with
      | Free => true
      | _ =>
          negb (errored o) &&
          match k, control o with
          | Connected _, _ => bool_decide (state o = STATE_CONNECTING)
          | ConnectionEvent _, _ => con o
          | InputOperation, Some c => bool_decide (send_if c = STATE_OPERATION_PENDING)
          | InputDone, Some c => bool_decide (send_if c = STATE_DONE_PENDING)
          | DoSent n, Some c => match out_op c with Some (_, len) => (0 <? n) && (n <=? len) | None => false end
          | DoRecv data, Some c =>
              match recv_op c with
              | Some (_, len) => (0 <? Z.of_nat (length data)) && (Z.of_nat (length data) <=? len) && forallb (fun b => (0 <=? b) && (b <? 256)) data
              | None => false
              end
          | _, _ => false
          end
      end
  end.

End BSocks.
