(* ===== verification/BSocksStep.v ===== *)
(** * The dialogue of the SOCKS5 client

    What the client has sent and received in each of its states, as an invariant of the
    object: which part of which message is on the wire, and that every pointer into the
    buffer is into the present one. *)

From S2P Require Import Prelude Effect BAddr BPending BSocksClient.

Open Scope Z_scope.

Import BSocks.

(** ** The dialogue *)

Definition creds_ok (ai : auth_info) : bool :=
  let u := Z.of_nat (length (username ai)) in
  let p := Z.of_nat (length (password ai)) in
  negb ((u =? 0) || (255 <? u) || (p =? 0) || (255 <? p)).

Definition address_length (atyp : Z) : option Z :=
  if atyp =? 1 then Some 6 else if atyp =? 4 then Some 18 else None.

Inductive verdict := NeedMore | Accepted | Refused.

(** What the bytes of the server amount to (RFC 1928 and RFC 1929): an answer to the
    hello with a method that was offered, if that is the one with a password a positive reply to it, and a
    positive reply to the request with an address. *)
Definition reply_verdict (l : list Z) : verdict :=
  match l with
  | v :: r :: _ :: t :: l =>
      if negb (v =? 5) || negb (r =? 0) then Refused
      else
        match address_length t with
        | None => Refused
        | Some n => if Z.of_nat (length l) <? n then NeedMore else Accepted
        end
  | _ => NeedMore
  end.

Definition server_verdict (auths : list auth_info) (l : list Z) : verdict :=
  match l with
  | v :: m :: l =>
      if negb (v =? 5) then Refused
      else
        match find (fun a => auth_type a =? m) auths with
        | None => Refused
        | Some ai =>
            if m =? 0 then reply_verdict l
            else if negb (creds_ok ai) then Refused
            else
              match l with
              | a :: b :: l => if negb (a =? 1) || negb (b =? 0) then Refused else reply_verdict l
              | _ => NeedMore
              end
        end
  | _ => NeedMore
  end.

(** What is sent and received to agree on a method. *)
Inductive authenticated (auths : list auth_info) : list Z -> list Z -> Prop :=
  | authenticated_none ai :
      find (fun a => auth_type a =? 0) auths = Some ai -> authenticated auths [] [5; 0]
  | authenticated_password ai :
      find (fun a => auth_type a =? 2) auths = Some ai -> creds_ok ai = true ->
      authenticated auths (password_message ai) [5; 2; 1; 0].

Definition reply_header (h : list Z) (n : Z) : Prop :=
  exists rsv t, h = [5; 0; rsv; t] /\ address_length t = Some n.

Lemma verdict_authenticated auths ao ai l :
  authenticated auths ao ai -> server_verdict auths (ai ++ l) = reply_verdict l.
Proof. intros [a E|a E C]; cbn -[find]; rewrite E; [done|now rewrite C]. Qed.

Lemma verdict_header h n l :
  reply_header h n -> reply_verdict (h ++ l) = if Z.of_nat (length l) <? n then NeedMore else Accepted.
Proof. intros (rsv & t & -> & E). cbn -[address_length Z.of_nat]. now rewrite E. Qed.

Lemma reply_short l : Z.of_nat (length l) < 4 -> reply_verdict l = NeedMore.
Proof. destruct l as [|? [|? [|? [|? l]]]]; cbn -[Z.of_nat]; try done. cbn. lia. Qed.

Lemma header_length h n : reply_header h n -> length h = 4%nat /\ (n = 6 \/ n = 18).
Proof.
  intros (rsv & t & -> & E). split; [done|]. unfold address_length in E. destruct (t =? 1); [left; congruence|].
  destruct (t =? 4); [right; congruence|done].
Qed.

(** ** The invariant *)

(** A message is being sent from the buffer at [a], after [before] was sent. *)
Definition sending (a : nat) (l : list (option Z)) (c : control_io) (msg before out : list Z) : Prop :=
  let len := Z.of_nat (length msg) in
  l = map Some msg /\ recv_op c = None /\ 0 < len /\
  ((send_if c = STATE_OPERATION_PENDING /\ send_data_ptr c = Pointer a 0 /\ send_data_len c = len /\ in_len c = -1 /\
    out_op c = None /\ out = before) \/
   (send_if c = STATE_BUSY /\ in_len c = len /\ in_ptr c = Pointer a 0 /\ 0 <= in_used c < len /\
    out_op c = Some (Pointer a (in_used c), len - in_used c) /\ out = before ++ take (Z.to_nat (in_used c)) msg) \/
   (send_if c = STATE_DONE_PENDING /\ in_len c = -1 /\ out_op c = None /\ out = before ++ msg)).

(** A message of [total] bytes is being received at [off] in the buffer at [a], after [before]
    was received. *)
Definition receiving (a : nat) (l : list (option Z)) (c : control_io) (off total : Z) (before inp : list Z) : Prop :=
  send_if c = STATE_NONE /\ in_len c = -1 /\ out_op c = None /\
  recv_dest c = Pointer a off /\ recv_total c = total /\ 0 <= off /\ 0 <= recv_len c < total /\
  off + total <= Z.of_nat (length l) /\ recv_op c = Some (Pointer a (off + recv_len c), total - recv_len c) /\
  exists r, Z.of_nat (length r) = recv_len c /\ inp = before ++ r /\
    take (length r) (drop (Z.to_nat off) l) = map Some r.

(** What is on the wire in each state. *)
Inductive dialogue (auths : list auth_info) (dest : BAddr) (out inp : list Z) :
    client_state -> option (nat * list (option Z)) -> option control_io -> Prop :=
  | d_connecting : out = [] -> inp = [] -> dialogue auths dest out inp STATE_CONNECTING None None
  | d_sending_hello a l c :
      sending a l c (hello_message auths) [] out -> inp = [] ->
      dialogue auths dest out inp STATE_SENDING_HELLO (Some (a, l)) (Some c)
  | d_sent_hello a l c :
      out = hello_message auths -> receiving a l c 0 2 [] inp ->
      dialogue auths dest out inp STATE_SENT_HELLO (Some (a, l)) (Some c)
  | d_sending_password a l c ai :
      find (fun a => auth_type a =? 2) auths = Some ai -> creds_ok ai = true ->
      sending a l c (password_message ai) (hello_message auths) out -> inp = [5; 2] ->
      dialogue auths dest out inp STATE_SENDING_PASSWORD (Some (a, l)) (Some c)
  | d_sent_password a l c ai :
      find (fun a => auth_type a =? 2) auths = Some ai -> creds_ok ai = true ->
      out = hello_message auths ++ password_message ai -> receiving a l c 0 2 [5; 2] inp ->
      dialogue auths dest out inp STATE_SENT_PASSWORD (Some (a, l)) (Some c)
  | d_sending_request a l c ao ai msg :
      authenticated auths ao ai -> request_message dest = Some msg ->
      sending a l c msg (hello_message auths ++ ao) out -> inp = ai ->
      dialogue auths dest out inp STATE_SENDING_REQUEST (Some (a, l)) (Some c)
  | d_sent_request a l c ao ai msg :
      authenticated auths ao ai -> request_message dest = Some msg ->
      out = hello_message auths ++ ao ++ msg -> receiving a l c 0 4 ai inp -> length l = 22%nat ->
      dialogue auths dest out inp STATE_SENT_REQUEST (Some (a, l)) (Some c)
  | d_received_header a l c ao ai msg h n :
      authenticated auths ao ai -> request_message dest = Some msg -> reply_header h n ->
      out = hello_message auths ++ ao ++ msg -> receiving a l c 4 n (ai ++ h) inp ->
      dialogue auths dest out inp STATE_RECEIVED_REPLY_HEADER (Some (a, l)) (Some c)
  | d_up ao ai msg h n addr :
      authenticated auths ao ai -> request_message dest = Some msg -> reply_header h n -> Z.of_nat (length addr) = n ->
      out = hello_message auths ++ ao ++ msg -> inp = ai ++ h ++ addr ->
      dialogue auths dest out inp STATE_UP None None.

(** What [BSocksClient_Free] relies on. *)
Record shape (o : BSocksClient) : Prop := Shape {
  sh_connector : connector o = true;
  sh_con : con o = negb (bool_decide (state o = STATE_CONNECTING));
  sh_up : up_io o = bool_decide (state o = STATE_UP);
  sh_control : state o <> STATE_CONNECTING -> state o <> STATE_UP -> is_Some (control o);
}.

Definition valid_config (auths : list auth_info) (dest : BAddr) : Prop :=
  forallb known_method auths = true /\ baddr_ok dest /\ dest <> BADDR_NONE.

Definition client_inv (auths : list auth_info) (dest : BAddr) (w : world) : Prop :=
  match sock w with
  | None => True
  | Some o =>
      auth_infos o = auths /\ dest_addr o = dest /\ shape o /\
      if errored o then
        if bool_decide (state o = STATE_UP) then events w = [EVENT_UP; EVENT_ERROR] \/ events w = [EVENT_UP; EVENT_ERROR_CLOSED]
        else events w = [EVENT_ERROR]
      else
        dialogue auths dest (wire_out w) (wire_in w) (state o) (buffer o) (control o) /\
        events w = if bool_decide (state o = STATE_UP) then [EVENT_UP] else []
  end.

Lemma dialogue_verdict auths dest out inp s b c :
  dialogue auths dest out inp s b c ->
  server_verdict auths inp = if bool_decide (s = STATE_UP) then Accepted else NeedMore.
Proof.
  destruct 1; subst; cbn [bool_decide decide]; try done.
  - destruct H0 as (_ & _ & _ & _ & _ & _ & ? & _ & _ & r & Hr & -> & _). destruct r as [|? [|]]; cbn in *; try done. lia.
  - cbn -[find]. rewrite H. cbn. now rewrite H0.
  - destruct H2 as (_ & _ & _ & _ & _ & _ & ? & _ & _ & r & Hr & -> & _). cbn -[find]. rewrite H. cbn. rewrite H0.
    destruct r as [|? [|]]; cbn in *; try done. lia.
  - rewrite <- (app_nil_r ai). rewrite (verdict_authenticated _ _ _ _ H). now apply reply_short.
  - destruct H2 as (_ & _ & _ & _ & _ & _ & ? & _ & _ & r & Hr & -> & _).
    rewrite (verdict_authenticated _ _ _ _ H). apply reply_short. lia.
  - destruct H3 as (_ & _ & _ & _ & _ & _ & ? & _ & _ & r & Hr & -> & _). rewrite <- app_assoc.
    rewrite (verdict_authenticated _ _ _ _ H), (verdict_header _ _ _ H1). destruct (Z.ltb_spec (Z.of_nat (length r)) n); [done|lia].
  - rewrite (verdict_authenticated _ _ _ _ H), (verdict_header _ _ _ H1). destruct (Z.ltb_spec (Z.of_nat (length addr)) (Z.of_nat (length addr))); [lia|done].
Qed.

(** ** Progress *)

Definition stage (s : client_state) : Z :=
  match s with
  | STATE_CONNECTING => 0 | STATE_SENDING_HELLO => 1 | STATE_SENT_HELLO => 2 | STATE_SENDING_PASSWORD => 3
  | STATE_SENT_PASSWORD => 4 | STATE_SENDING_REQUEST => 5 | STATE_SENT_REQUEST => 6 | STATE_RECEIVED_REPLY_HEADER => 7
  | STATE_UP => 8
  end.

Definition phase (p : pi_state) : Z :=
  match p with STATE_NONE | STATE_OPERATION_PENDING => 0 | STATE_BUSY => 1 | STATE_DONE_PENDING => 2 end.

Lemma phase_bounds p : 0 <= phase p <= 2.
Proof. destruct p; cbn; lia. Qed.

(** How far the dialogue is: the state, the message that is being sent and the bytes on the wire. *)
Definition progress (w : world) : Z :=
  match sock w with
  | None => 0
  | Some o =>
      4 * stage (state o) + match control o with Some c => phase (send_if c) | None => 0 end +
      Z.of_nat (length (wire_out w)) + Z.of_nat (length (wire_in w))
  end.

Lemma password_length ai : creds_ok ai = true -> Z.of_nat (length (password_message ai)) <= 513.
Proof.
  unfold creds_ok. intros H. apply negb_true_iff in H. rewrite !orb_false_iff in H. destruct H as [[[_ H1] _] H2].
  unfold password_message. rewrite !length_app. cbn [length]. lia.
Qed.

Lemma sending_length a l c msg before out :
  sending a l c msg before out -> (length out <= length before + length msg)%nat.
Proof.
  intros (_ & _ & _ & [(_ & _ & _ & _ & _ & -> )|[(_ & _ & _ & _ & _ & -> )|(_ & _ & _ & -> )]]);
    rewrite ?length_app, ?length_take; lia.
Qed.

Lemma receiving_length a l c off total before inp :
  receiving a l c off total before inp -> Z.of_nat (length inp) <= Z.of_nat (length before) + total.
Proof. intros (_ & _ & _ & _ & _ & _ & ? & _ & _ & r & ? & -> & _). rewrite length_app. lia. Qed.

Lemma authenticated_length auths ao ai :
  authenticated auths ao ai -> Z.of_nat (length ao) <= 513 /\ Z.of_nat (length ai) <= 4.
Proof. intros [a E|a E C]; cbn [length]; [lia|]. split; [now apply password_length|lia]. Qed.

(** ** The steps of the SOCKS5 client keep its dialogue *)

Open Scope Z_scope.

Import BSocks.

(** ** Running the primitives *)

Lemma runs_client w o line (Q : BSocksClient -> world -> Prop) : sock w = Some o -> Q o w -> runs (this line) Q w.
Proof. intros E H. unfold this. step_eff. step_eff. now rewrite E. Qed.

Lemma runs_set_client w o line f (Q : unit -> world -> Prop) :
  sock w = Some o -> Q tt (with_sock (Some (f o)) w) -> runs (set_this line f) Q w.
Proof. intros E H. unfold set_this. step_eff. apply (runs_client _ _ _ _ E). now step_eff. Qed.

Lemma runs_control w o c line (Q : control_io -> world -> Prop) :
  sock w = Some o -> control o = Some c -> Q c w -> runs (control_of line) Q w.
Proof. intros E Ec H. unfold control_of. step_eff. apply (runs_client _ _ _ _ E). now rewrite Ec. Qed.

Lemma runs_set_control w o c line f (Q : unit -> world -> Prop) :
  sock w = Some o -> control o = Some c -> Q tt (with_sock (Some (with_control (Some (f c)) o)) w) ->
  runs (set_control line f) Q w.
Proof.
  intros E Ec H. unfold set_control. step_eff. apply (runs_control _ _ _ _ _ E Ec). now apply (runs_set_client _ _ _ _ _ E).
Qed.

Lemma runs_socks_answer w (Q : bool -> world -> Prop) :
  (forall b l, (answers w = [] -> b = true /\ l = []) -> Q b (with_answers l w)) -> runs answer Q w.
Proof.
  intros H. unfold answer. step_eff. step_eff. destruct (answers w) as [|b l] eqn:E.
  - step_eff. specialize (H true [] (fun _ => conj eq_refl eq_refl)). destruct w; cbn in *. now rewrite E.
  - step_eff. step_eff. step_eff. now apply H.
Qed.

Ltac tidy :=
  cbv beta iota zeta delta [sock next_block events wire_out wire_in answers auth_infos dest_addr state buffer control up_io con connector errored
    send_if send_data_ptr send_data_len in_len in_ptr in_used out_op recv_dest recv_len recv_total recv_op p_block p_offset
    with_sock with_next with_event with_out with_in_bytes with_answers with_state with_buffer with_control with_up_io with_con
    with_connector with_errored with_send with_in with_out_op with_recv].

(** The next step of a handler, in a state that is written out. *)
Ltac socks_step :=
  cbv beta zeta;
  lazymatch goal with
  | |- runs (this _) _ _ => eapply runs_client; [reflexivity|]
  | |- runs (set_this _ _) _ _ => eapply runs_set_client; [reflexivity|]
  | |- runs (control_of _) _ _ => eapply runs_control; [reflexivity|reflexivity|]
  | |- runs (set_control _ _) _ _ => eapply runs_set_control; [reflexivity|reflexivity|]
  | |- runs (assert_at _ _) _ _ =>
      apply eff_assert; [solve [reflexivity|now apply bool_decide_true|apply Z.leb_le; lia|lia]|]
  | |- _ => step_eff
  end; tidy.

Section Steps.
Context (auths : list auth_info) (dest : BAddr).
Implicit Types (nb : nat) (ev : list Z) (out inp : list Z) (ans : list bool).

Lemma runs_report e s b c up cn cr nb ev out inp ans (Q : unit -> world -> Prop) :
  Q tt (World (Some (Client auths dest s b c up cn cr true)) nb (ev ++ [e]) out inp ans) ->
  runs (report_error e) Q (World (Some (Client auths dest s b c up cn cr false)) nb ev out inp ans).
Proof. intros H. unfold report_error. repeat socks_step. done. Qed.

Lemma runs_reserve size s b c up cn cr nb ev out inp ans (Q : bool -> world -> Prop) :
  0 <= size ->
  (forall l ans', Z.of_nat (length l) = size ->
     Q true (World (Some (Client auths dest s (Some (nb, l)) c up cn cr false)) (S nb) ev out inp ans')) ->
  (forall ans', ans <> [] -> Q false (World (Some (Client auths dest s b c up cn cr false)) nb ev out inp ans')) ->
  runs (reserve_buffer size) Q (World (Some (Client auths dest s b c up cn cr false)) nb ev out inp ans).
Proof.
  intros Hs H1 H2. unfold reserve_buffer. socks_step. apply runs_socks_answer. tidy. intros [] l Hl; cbn [negb].
  - repeat socks_step. apply H1. set (old := match b with Some (_, l) => l | None => [] end).
    rewrite length_app, length_take, length_replicate. lia.
  - socks_step. apply H2. intros ->. now destruct (Hl eq_refl).
Qed.

(** Writing a message and passing it to the sender. *)
Lemma runs_send_message l1 l2 l3 size new msg s a l c up cn cr nb ev out inp ans (Q : unit -> world -> Prop) :
  Z.of_nat (length l) = size -> length msg = length l -> send_if c = STATE_NONE ->
  Q tt (World (Some (Client auths dest new (Some (a, map Some msg))
    (Some (with_send STATE_OPERATION_PENDING (Pointer a 0) size c)) up cn cr false)) nb ev out inp ans) ->
  runs (p ← buffer_ptr l1 0; store l2 p msg ;; PacketPass_Send p size ;; set_this l3 (with_state new)) Q
    (World (Some (Client auths dest s (Some (a, l)) (Some c) up cn cr false)) nb ev out inp ans).
Proof.
  intros Hl Hm Hs H. socks_step. unfold buffer_ptr. do 3 socks_step. unfold store. do 2 socks_step. unfold block_at. do 2 socks_step.
  rewrite bool_decide_true by done. replace (0 + Z.of_nat (length msg) <=? Z.of_nat (length l)) with true by lia.
  replace (0 <=? Z.of_nat (length msg)) with true by lia. cbn [andb]. change (0 <=? 0) with true. cbn [andb].
  do 2 socks_step. unfold PacketPass_Send. repeat socks_step. change (Z.to_nat 0) with O. cbn [take app Nat.add]. rewrite (drop_ge l (length msg)), app_nil_r by lia. exact H.
Qed.

Lemma runs_start_receive a off total s b c up cn cr nb ev out inp ans (Q : unit -> world -> Prop) :
  0 < total -> recv_op c = None ->
  Q tt (World (Some (Client auths dest s b (Some (with_recv (Pointer a off) 0 total (Some (Pointer a (off + 0), total - 0)) c))
    up cn cr false)) nb ev out inp ans) ->
  runs (start_receive (Pointer a off) total) Q (World (Some (Client auths dest s b (Some c) up cn cr false)) nb ev out inp ans).
Proof.
  intros Ht Hc H. unfold start_receive, do_receive, StreamRecv_Recv. destruct c; cbn in Hc; subst. repeat socks_step. exact H.
Qed.

Lemma mapM_some (l : list Z) : mapM (fun x => x) (map Some l) = Some l.
Proof. induction l as [|x l IH]; [done|]. cbn. now rewrite IH. Qed.

Lemma runs_load line a off len bytes s l c up cn cr er nb ev out inp ans (Q : list Z -> world -> Prop) :
  0 <= off -> 0 <= len -> off + len <= Z.of_nat (length l) ->
  take (Z.to_nat len) (drop (Z.to_nat off) l) = map Some bytes ->
  Q bytes (World (Some (Client auths dest s (Some (a, l)) c up cn cr er)) nb ev out inp ans) ->
  runs (load line (Pointer a off) len) Q (World (Some (Client auths dest s (Some (a, l)) c up cn cr er)) nb ev out inp ans).
Proof.
  intros H1 H2 H3 H4 H. unfold load, block_at. do 3 socks_step. rewrite bool_decide_true by done.
  replace (0 <=? off) with true by lia. replace (0 <=? len) with true by lia. replace (off + len <=? Z.of_nat (length l)) with true by lia.
  cbn [andb]. socks_step. rewrite H4, mapM_some. socks_step. exact H.
Qed.

Lemma runs_store line a off bytes s l c up cn cr er nb ev out inp ans (Q : unit -> world -> Prop) :
  0 <= off -> off + Z.of_nat (length bytes) <= Z.of_nat (length l) ->
  Q tt (World (Some (Client auths dest s (Some (a, take (Z.to_nat off) l ++ map Some bytes ++ drop (Z.to_nat off + length bytes) l))
    c up cn cr er)) nb ev out inp ans) ->
  runs (store line (Pointer a off) bytes) Q (World (Some (Client auths dest s (Some (a, l)) c up cn cr er)) nb ev out inp ans).
Proof.
  intros H1 H2 H. unfold store, block_at. do 3 socks_step. rewrite bool_decide_true by done.
  replace (0 <=? off) with true by lia. replace (off + Z.of_nat (length bytes) <=? Z.of_nat (length l)) with true by lia.
  replace (0 <=? Z.of_nat (length bytes)) with true by lia. cbn [andb]. repeat socks_step. exact H.
Qed.

(** ** Outcomes *)

(** The invariant after a step; when nothing failed ([ok]) an error means that the server refused,
    and without an error the step was progress. *)
Definition outcome (ok : Prop) (N : Z) (w : world) : Prop :=
  client_inv auths dest w /\
  (ok -> match sock w with
         | Some o => errored o = true -> server_verdict auths (wire_in w) = Refused /\ events w = [EVENT_ERROR]
         | None => True
         end) /\
  exists o, sock w = Some o /\ (errored o = false -> N <= progress w).

Definition intact (s : client_state) (c : option control_io) (up cn cr : bool) : Prop :=
  shape (Client auths dest s None c up cn cr false).

Lemma intact_states s c : s <> STATE_CONNECTING -> s <> STATE_UP -> intact s (Some c) false true true.
Proof. intros H1 H2. split; cbn; [done|now rewrite bool_decide_false|now rewrite bool_decide_false|eauto]. Qed.

Lemma outcome_error ok N e s b c up cn cr nb ev out inp ans :
  intact s c up cn cr ->
  s <> STATE_UP /\ ev = [] /\ e = EVENT_ERROR \/ s = STATE_UP /\ ev = [EVENT_UP] /\ (e = EVENT_ERROR \/ e = EVENT_ERROR_CLOSED) ->
  (ok -> server_verdict auths inp = Refused /\ ev = [] /\ e = EVENT_ERROR) ->
  outcome ok N (World (Some (Client auths dest s b c up cn cr true)) nb (ev ++ [e]) out inp ans).
Proof.
  intros [] He Hok. split; [|split; [tidy; intros H _; now destruct (Hok H) as (? & -> & ->)|eexists; split; [reflexivity|done]]]. unfold client_inv. tidy. split; [done|]. split; [done|]. split; [now split|].
  destruct He as [(Hs & -> & ->)|( -> & -> & [-> | ->])]; [now rewrite bool_decide_false|rewrite bool_decide_true; auto..].
Qed.

Lemma outcome_live ok N s b c nb out inp ans :
  s <> STATE_CONNECTING -> s <> STATE_UP -> dialogue auths dest out inp s b (Some c) ->
  N <= 4 * stage s + phase (send_if c) + Z.of_nat (length out) + Z.of_nat (length inp) ->
  outcome ok N (World (Some (Client auths dest s b (Some c) false true true false)) nb [] out inp ans).
Proof.
  intros H1 H2 Hd HN. split; [|split; [done|eexists; split; [reflexivity|intros _; exact HN]]]. unfold client_inv. tidy. split; [done|]. split; [done|].
  destruct (intact_states s c H1 H2). split; [now split|]. split; [done|]. now rewrite bool_decide_false.
Qed.

(** A message that was just passed to the sender. *)
Lemma sending_start a c msg before :
  recv_op c = None -> in_len c = -1 -> out_op c = None -> 0 < Z.of_nat (length msg) ->
  sending a (map Some msg) (with_send STATE_OPERATION_PENDING (Pointer a 0) (Z.of_nat (length msg)) c) msg before before.
Proof. intros H1 H2 H3 H4. split; [done|]. split; [done|]. split; [done|]. left. tidy. done. Qed.

(** Receiving was just started. *)
Lemma receiving_start a l c off total before :
  send_if c = STATE_NONE -> in_len c = -1 -> out_op c = None -> 0 <= off -> 0 < total -> off + total <= Z.of_nat (length l) ->
  receiving a l (with_recv (Pointer a off) 0 total (Some (Pointer a (off + 0), total - 0)) c) off total before before.
Proof.
  intros H1 H2 H3 H4 H5 H6. unfold receiving. tidy. repeat (split; [done || lia|]). exists []. split; [done|]. split; [now rewrite app_nil_r|done].
Qed.

(** ** Connecting *)

Lemma connector_ok is_error nb ans :
  runs (connector_handler is_error)
    (fun _ => outcome (ans = [] /\ is_error = false /\ 0 < Z.of_nat (length auths) <= 255) 1)
    (World (Some (Client auths dest STATE_CONNECTING None None false false true false)) nb [] [] [] ans).
Proof.
  assert (Hfail : forall ok b nb' ans', (ok -> False) ->
    outcome ok 1 (World (Some (Client auths dest STATE_CONNECTING b None false false true true)) nb' [EVENT_ERROR] [] [] ans')).
  { intros ok b nb' ans' Hok. apply (outcome_error ok 1 EVENT_ERROR _ _ _ _ _ _ _ []); [now split|auto|intros H; now destruct (Hok H)]. }
  unfold connector_handler. repeat socks_step. destruct is_error; [apply runs_report, Hfail; naive_solver|].
  socks_step. apply runs_socks_answer. tidy. intros [] ans1 H1; cbn [negb]; [|apply runs_report, Hfail; naive_solver].
  unfold init_control_io. do 4 socks_step.
  destruct ((Z.of_nat (length auths) =? 0) || (255 <? Z.of_nat (length auths))) eqn:Hn.
  { unfold free_control_io. repeat socks_step. apply runs_report, Hfail. lia. }
  apply orb_false_iff in Hn as [Hn1 Hn2]. socks_step. apply runs_reserve; [lia| |].
  - intros l ans2 Hl. cbn [negb]. apply runs_send_message; [done|unfold hello_message; cbn; rewrite length_map; lia|done|].
    apply outcome_live; [done|done| |tidy; cbn [stage phase]; lia]. constructor; [|done].
    replace (2 + Z.of_nat (length auths)) with (Z.of_nat (length (hello_message auths))) by (unfold hello_message; cbn; rewrite length_map; lia).
    now apply sending_start.
  - intros ans2 Ha. cbn [negb]. unfold free_control_io. repeat socks_step. apply runs_report, Hfail. naive_solver.
Qed.

Lemma connection_event_ok ok N e s b c up cn cr nb ev out inp ans :
  intact s c up cn cr -> s <> STATE_CONNECTING -> ~ ok -> ev = (if bool_decide (s = STATE_UP) then [EVENT_UP] else []) ->
  runs (connection_handler e) (fun _ => outcome ok N)
    (World (Some (Client auths dest s b c up cn cr false)) nb ev out inp ans).
Proof.
  intros Hi Hs Hok ->. unfold connection_handler. do 3 socks_step. rewrite bool_decide_false by done. do 1 socks_step.
  destruct (decide (s = STATE_UP)) as [ -> |Hu].
  - rewrite bool_decide_true by done. cbn [andb]. destruct (e =? RECVCLOSED); apply runs_report, outcome_error; auto; tauto.
  - rewrite bool_decide_false by done. cbn [andb]. apply runs_report, outcome_error; auto; tauto.
Qed.

(** ** Sending *)

Lemma dialogue_sending out inp s b c :
  dialogue auths dest out inp s b (Some c) -> send_if c <> STATE_NONE ->
  s <> STATE_CONNECTING /\ s <> STATE_UP /\
  exists a l msg before, b = Some (a, l) /\ sending a l c msg before out /\
    forall c' out', sending a l c' msg before out' -> dialogue auths dest out' inp s (Some (a, l)) (Some c').
Proof.
  intros Hd Hn. inversion Hd; subst; try (match goal with H : receiving _ _ _ _ _ _ _ |- _ => now destruct H end);
    (split; [done|]; split; [done|]).
  - exists a, l, (hello_message auths), []. split; [done|]. split; [done|]. intros. now constructor.
  - exists a, l, (password_message ai), (hello_message auths). split; [done|]. split; [done|]. intros. now apply (d_sending_password _ _ _ _ a l c' ai).
  - exists a, l, msg, (hello_message auths ++ ao). split; [done|]. split; [done|]. intros. now apply (d_sending_request _ _ _ _ a l c' ao ai msg).
Qed.

Lemma dialogue_receiving out inp s b c :
  dialogue auths dest out inp s b (Some c) -> recv_op c <> None ->
  s <> STATE_CONNECTING /\ s <> STATE_UP /\
  exists a l off total before, b = Some (a, l) /\ receiving a l c off total before inp /\
    forall c' l' inp', length l' = length l -> receiving a l' c' off total before inp' ->
      dialogue auths dest out inp' s (Some (a, l')) (Some c').
Proof.
  intros Hd Hn. inversion Hd; subst; try (match goal with H : sending _ _ _ _ _ _ |- _ => now destruct H as (_ & ? & _) end);
    (split; [done|]; split; [done|]).
  - exists a, l, 0, 2, []. split; [done|]. split; [done|]. intros. now constructor.
  - exists a, l, 0, 2, [5; 2]. split; [done|]. split; [done|]. intros. now apply (d_sent_password _ _ _ _ a l' c' ai).
  - exists a, l, 0, 4, ai. split; [done|]. split; [done|]. intros. apply (d_sent_request _ _ _ _ a l' c' ao ai msg); congruence.
  - exists a, l, 4, n, (ai ++ h). split; [done|]. split; [done|]. intros. now apply (d_received_header _ _ _ _ a l' c' ao ai msg h n).
Qed.

Lemma input_operation_ok ok s b c nb out inp ans :
  dialogue auths dest out inp s b (Some c) -> send_if c = STATE_OPERATION_PENDING ->
  runs input_operation (fun _ => outcome ok (4 * stage s + phase (send_if c) + Z.of_nat (length out) + Z.of_nat (length inp) + 1))
    (World (Some (Client auths dest s b (Some c) false true true false)) nb [] out inp ans).
Proof.
  intros Hd Hc. destruct (dialogue_sending _ _ _ _ _ Hd) as (H1 & H2 & a & l & msg & before & -> & Hs & Hframe); [congruence|].
  destruct Hs as (Hl & Hr & Hm & [(_ & Hp & Hlen & Hi & Ho & -> )|[(F & _)|(F & _)]]); [|congruence|congruence].
  destruct c as [sif sp sl il ip iu oo rd rl rt ro]; cbn in Hc, Hr, Hp, Hlen, Hi, Ho; subst.
  unfold input_operation, input_handler_send, send_data, StreamPass_Send. do 16 socks_step.
  replace (0 <? Z.of_nat (length msg)) with true by lia. repeat socks_step.
  apply outcome_live; [done|done| |tidy; cbn [phase]; lia]. apply Hframe. split; [done|]. split; [done|]. split; [done|]. right. left. tidy.
  split; [done|]. split; [done|]. split; [done|]. split; [lia|]. split; [done|]. cbn. now rewrite app_nil_r.
Qed.

Lemma dialogue_busy out inp s b c op :
  dialogue auths dest out inp s b (Some c) -> out_op c = Some op -> send_if c <> STATE_NONE.
Proof.
  intros Hd Hc E. inversion Hd; subst;
    match goal with
    | H : sending _ _ _ _ _ _ |- _ => destruct H as (_ & _ & _ & [(H & _)|[(H & _)|(H & _)]]); congruence
    | H : receiving _ _ _ _ _ _ _ |- _ => destruct H as (_ & _ & H & _); congruence
    end.
Qed.

Lemma do_sent_ok ok n s b c p len nb out inp ans :
  dialogue auths dest out inp s b (Some c) -> out_op c = Some (p, len) -> 0 < n <= len ->
  runs (do_sent n) (fun _ => outcome ok (4 * stage s + phase (send_if c) + Z.of_nat (length out) + Z.of_nat (length inp) + 1))
    (World (Some (Client auths dest s b (Some c) false true true false)) nb [] out inp ans).
Proof.
  intros Hd Hc Hn. pose proof (dialogue_busy _ _ _ _ _ _ Hd Hc) as Hsend.
  destruct (dialogue_sending _ _ _ _ _ Hd Hsend) as (H1 & H2 & a & l & msg & before & -> & Hs & Hframe).
  destruct Hs as (Hl & Hr & Hm & [(_ & _ & _ & _ & F & _)|[(Hst & Hi & Hp & Hu & Ho & -> )|(_ & _ & F & _)]]); [congruence| |congruence].
  rewrite Hc in Ho. injection Ho as -> ->. subst l.
  destruct c as [sif sp sl il ip iu oo rd rl rt ro]; cbn in Hc, Hr, Hst, Hi, Hp, Hu, Hn; subst.
  assert (Htake : take (Z.to_nat n) (drop (Z.to_nat iu) (map Some msg)) = map Some (take (Z.to_nat n) (drop (Z.to_nat iu) msg))).
  { now rewrite skipn_map, firstn_map. }
  unfold do_sent. do 3 socks_step. do 2 socks_step.
  eapply runs_load; [lia|lia|rewrite length_map; lia|exact Htake|].
  unfold output_handler_done. do 4 socks_step. do 10 socks_step. unfold send_data. do 4 socks_step.
  assert (Hout : take (Z.to_nat iu) msg ++ take (Z.to_nat n) (drop (Z.to_nat iu) msg) = take (Z.to_nat (iu + n)) msg).
  { rewrite Z2Nat.inj_add by lia. rewrite <- (take_take_drop msg). done. }
  rewrite <- app_assoc, Hout.
  assert (Hgrow : Z.of_nat (length (before ++ take (Z.to_nat iu) msg)) + 1 <= Z.of_nat (length (before ++ take (Z.to_nat (iu + n)) msg))).
  { rewrite !length_app, !length_take. lia. }
  destruct (Z.ltb_spec (iu + n) (Z.of_nat (length msg))) as [Hlt|Hge].
  - unfold StreamPass_Send. repeat socks_step. apply outcome_live; [done|done| |tidy; cbn [phase]; lia]. apply Hframe.
    split; [done|]. split; [done|]. split; [done|]. right. left. tidy.
    split; [done|]. split; [done|]. split; [done|]. split; [lia|]. done.
  - repeat socks_step. apply outcome_live; [done|done| |tidy; cbn [phase]; lia]. apply Hframe.
    split; [done|]. split; [done|]. split; [done|]. right. right. tidy.
    split; [done|]. split; [done|]. split; [done|]. rewrite take_ge by lia. done.
Qed.

Lemma receive_next_ok ok N size total new s b c nb out inp ans :
  s <> STATE_CONNECTING -> s <> STATE_UP -> new <> STATE_CONNECTING -> new <> STATE_UP ->
  send_if c = STATE_NONE -> in_len c = -1 -> out_op c = None -> recv_op c = None -> 0 < total <= size -> (ok -> ans = []) -> N <= 4 * stage new + Z.of_nat (length out) + Z.of_nat (length inp) ->
  (forall a l c', Z.of_nat (length l) = size -> receiving a l c' 0 total inp inp -> dialogue auths dest out inp new (Some (a, l)) (Some c')) ->
  runs (receive_next size total new) (fun _ => outcome ok N)
    (World (Some (Client auths dest s b (Some c) false true true false)) nb [] out inp ans).
Proof.
  intros Hs1 Hs2 Hn1 Hn2 Hc1 Hc2 Hc3 Hc4 Ht Hok HN Hd. unfold receive_next. socks_step. apply runs_reserve; [lia| |].
  - intros l ans' Hl. cbn [negb]. unfold buffer_ptr. repeat socks_step. apply runs_start_receive; [lia|done|].
    socks_step. apply outcome_live; [done|done| |match goal with |- context [phase ?p] => pose proof (phase_bounds p) end; lia]. apply Hd; [done|]. apply receiving_start; try done; lia.
  - intros ans' Ha. cbn [negb]. apply runs_report. apply (outcome_error ok N EVENT_ERROR); [now apply intact_states|auto|tauto].
Qed.

Lemma input_done_ok s b c nb out inp ans :
  dialogue auths dest out inp s b (Some c) -> send_if c = STATE_DONE_PENDING ->
  runs input_done (fun _ => outcome (ans = []) (4 * stage s + phase (send_if c) + Z.of_nat (length out) + Z.of_nat (length inp) + 1))
    (World (Some (Client auths dest s b (Some c) false true true false)) nb [] out inp ans).
Proof.
  intros Hd Hc. assert (Hdone : forall a l msg before, sending a l c msg before out ->
    in_len c = -1 /\ out_op c = None /\ recv_op c = None /\ out = before ++ msg).
  { intros a l msg before (_ & Hr & _ & [(F & _)|[(F & _)|(_ & H1 & H2 & H3)]]); [congruence|congruence|done]. }
  rewrite Hc. cbn [phase]. unfold input_done. repeat socks_step. unfold send_handler_done. do 2 socks_step.
  inversion Hd; subst; try (match goal with H : receiving _ _ _ _ _ _ _ |- _ => destruct H; congruence end);
    match goal with H : sending _ _ _ _ _ _ |- _ => destruct (Hdone _ _ _ _ H) as (Hi & Ho & Hr & ->) end; repeat socks_step.
  - apply receive_next_ok; try done; [cbn [stage]; lia|]. intros a' l' c' _ Hr'. now constructor.
  - apply receive_next_ok; try done; [cbn [stage]; lia|]. intros a' l' c' _ Hr'. now apply (d_sent_password _ _ _ _ a' l' c' ai).
  - apply receive_next_ok; try done; [cbn [stage]; lia|]. intros a' l' c' Hl' Hr'. apply (d_sent_request _ _ _ _ a' l' c' ao ai msg); try done.
    + now rewrite app_assoc.
    + unfold sizeof_socks_reply_header, sizeof_socks_addr_ipv4, sizeof_socks_addr_ipv6 in Hl'. lia.
Qed.

(** ** Receiving *)

(** The buffer after bytes arrived in it. *)
Lemma stored_length (l : list (option Z)) i data :
  (i + length data <= length l)%nat -> length (take i l ++ map Some data ++ drop (i + length data) l) = length l.
Proof. intros H. rewrite !length_app, length_map, length_take, length_drop. lia. Qed.

Lemma stored_read (l : list (option Z)) off r data :
  (off + length r + length data <= length l)%nat -> take (length r) (drop off l) = map Some r ->
  let i := (off + length r)%nat in
  take (length (r ++ data)) (drop off (take i l ++ map Some data ++ drop (i + length data) l)) = map Some (r ++ data).
Proof.
  intros Hl Hr i. rewrite drop_app_le by (rewrite length_take; lia).
  replace (drop off (take i l)) with (map Some r); [|unfold i; rewrite <- Hr; symmetry; rewrite take_drop_commute; f_equal; f_equal; lia].
  rewrite map_app, length_app, app_assoc, take_app_le by (rewrite length_app, !length_map; lia).
  rewrite take_ge; [done|]. rewrite length_app, !length_map. lia.
Qed.

Context (Hcfg : valid_config auths dest).

Definition idle (c : control_io) : Prop :=
  send_if c = STATE_NONE /\ in_len c = -1 /\ out_op c = None /\ recv_op c = None.

Lemma request_ok : exists msg, request_message dest = Some msg /\ Z.of_nat (length msg) = request_size dest.
Proof.
  destruct Hcfg as (_ & Hd & Hn). destruct dest as [|ip port|ip port]; [done| |]; destruct Hd as (H1 & H2 & _); eexists;
    (split; [reflexivity|]); cbn; rewrite length_app, H1, H2; reflexivity.
Qed.

(** An error reported during the dialogue. *)
Lemma runs_refused ok N s b c nb out inp ans :
  s <> STATE_CONNECTING -> s <> STATE_UP -> (ok -> server_verdict auths inp = Refused) ->
  runs (report_error EVENT_ERROR) (fun _ => outcome ok N)
    (World (Some (Client auths dest s b (Some c) false true true false)) nb [] out inp ans).
Proof. intros H1 H2 Hok. apply runs_report, outcome_error; [now apply intact_states|auto|auto]. Qed.

Lemma auth_finished_ok ok N s b c nb out inp ans ao :
  s <> STATE_CONNECTING -> s <> STATE_UP -> idle c -> (ok -> ans = []) ->
  authenticated auths ao inp -> out = hello_message auths ++ ao -> N <= 20 + Z.of_nat (length out) + Z.of_nat (length inp) ->
  runs auth_finished (fun _ => outcome ok N)
    (World (Some (Client auths dest s b (Some c) false true true false)) nb [] out inp ans).
Proof.
  intros Hs1 Hs2 (C1 & C2 & C3 & C4) Hok Ha -> HN. destruct request_ok as (msg & Em & El).
  unfold auth_finished. do 3 socks_step. apply runs_reserve; [lia| |].
  - intros l ans' Hl. cbn [negb]. rewrite Em. apply runs_send_message; [done|lia|done|].
    apply outcome_live; [done|done| |tidy; cbn [stage phase]; lia]. apply (d_sending_request _ _ _ _ nb (map Some msg) _ ao inp msg); try done.
    rewrite <- El. apply sending_start; try done. rewrite El. now destruct dest.
  - intros ans' Hn. cbn [negb]. apply runs_refused; [done|done|]. intros H. now destruct (Hn (Hok H)).
Qed.

Lemma received_hello_ok ok N a l c nb inp ans :
  idle c -> (ok -> ans = []) -> length inp = 2%nat -> take 2 l = map Some inp ->
  N <= 12 + Z.of_nat (length (hello_message auths)) + Z.of_nat (length inp) ->
  runs (received_hello (Client auths dest STATE_SENT_HELLO (Some (a, l)) (Some c) false true true false)) (fun _ => outcome ok N)
    (World (Some (Client auths dest STATE_SENT_HELLO (Some (a, l)) (Some c) false true true false)) nb [] (hello_message auths) inp ans).
Proof.
  intros Hc Hok Hlen Hl HN. destruct inp as [|v [|m [|]]]; try done. destruct l as [|x [|y l]]; cbn in Hl; try done. injection Hl as -> ->.
  unfold received_hello, buffer_ptr. do 4 socks_step. socks_step.
  apply (runs_load 248 a 0 2 [v; m]); [done|done|cbn; lia|done|]. cbn [nth].
  change (v =? SOCKS_VERSION) with (v =? 5). destruct (v =? 5) eqn:Ev; cbn [negb]; [|apply runs_refused; try done; intros _; cbn; now rewrite Ev].
  apply Z.eqb_eq in Ev. subst v. destruct (find _ auths) as [ai|] eqn:Ef; [|apply runs_refused; try done; intros _; cbn -[find]; now rewrite Ef].
  destruct (find_some _ _ Ef) as [Hin Hm]. apply Z.eqb_eq in Hm. subst m.
  destruct Hcfg as (Hk & _). rewrite forallb_forall in Hk. specialize (Hk _ Hin). apply orb_true_iff in Hk. rewrite !Z.eqb_eq in Hk.
  destruct (auth_type ai =? SOCKS_METHOD_NO_AUTHENTICATION_REQUIRED) eqn:E0.
  { apply Z.eqb_eq in E0. rewrite E0 in *. apply (auth_finished_ok ok N _ _ _ _ _ _ _ []); try done; [|now rewrite app_nil_r|lia].
    now apply (authenticated_none _ ai). }
  destruct Hk as [Hk|Hk]; [lia|]. rewrite Hk in *. change (SOCKS_METHOD_USERNAME_PASSWORD =? SOCKS_METHOD_USERNAME_PASSWORD) with true. cbv iota.
  destruct (creds_ok ai) eqn:Ec; pose proof Ec as Ec'; unfold creds_ok in Ec'; [apply negb_true_iff in Ec'|apply negb_false_iff in Ec'].
  2: { rewrite Ec'. apply runs_refused; try done. intros _. cbn -[find]. now rewrite Ef, Ec. }
  rewrite Ec'. assert (Hsize : Z.of_nat (length (password_message ai)) =
    1 + 1 + Z.of_nat (length (username ai)) + 1 + Z.of_nat (length (password ai))).
  { unfold password_message. cbn. rewrite !length_app. cbn. lia. }
  socks_step. apply runs_reserve; [lia| |].
  - intros l' ans' Hl'. cbn [negb]. destruct Hc as (C1 & C2 & C3 & C4). apply runs_send_message; [done|lia|done|].
    apply outcome_live; [done|done| |tidy; cbn [stage phase]; lia]. rewrite <- Hsize.
    apply (d_sending_password _ _ _ _ nb (map Some (password_message ai)) _ ai); try done. now apply sending_start.
  - intros ans' Hn. cbn [negb]. apply runs_refused; [done|done|]. intros H. now destruct (Hn (Hok H)).
Qed.

Lemma received_password_ok ok N a l c nb inp ans ai :
  idle c -> (ok -> ans = []) -> find (fun a => auth_type a =? 2) auths = Some ai -> creds_ok ai = true ->
  length inp = 2%nat -> take 2 l = map Some inp ->
  N <= 20 + Z.of_nat (length (hello_message auths ++ password_message ai)) + Z.of_nat (length ([5; 2] ++ inp)) ->
  runs received_password_reply (fun _ => outcome ok N)
    (World (Some (Client auths dest STATE_SENT_PASSWORD (Some (a, l)) (Some c) false true true false)) nb []
       (hello_message auths ++ password_message ai) ([5; 2] ++ inp) ans).
Proof.
  intros Hc Hok Ef Ec Hlen Hl HN. destruct inp as [|v [|m [|]]]; try done. destruct l as [|x [|y l]]; cbn in Hl; try done. injection Hl as -> ->.
  assert (Hv : server_verdict auths ([5; 2] ++ [v; m]) = if negb (v =? 1) || negb (m =? 0) then Refused else NeedMore).
  { cbn -[find]. rewrite Ef. cbn. now rewrite Ec. }
  unfold received_password_reply, buffer_ptr. do 4 socks_step. socks_step.
  apply (runs_load 352 a 0 1 [v]); [done|done|cbn; lia|done|]. cbn [nth].
  destruct (v =? 1) eqn:Ev; cbn [negb]; [|apply runs_refused; try done; intros _; now rewrite Hv]. 
  do 4 socks_step. socks_step. apply (runs_load 357 a 1 1 [m]); [done|done|cbn; lia|done|]. cbn [nth].
  destruct (m =? 0) eqn:Em; cbn [negb]; [|apply runs_refused; try done; intros _; now rewrite Hv].
  apply Z.eqb_eq in Ev, Em. subst. apply (auth_finished_ok ok N _ _ _ _ _ _ _ (password_message ai)); try done.
  now apply authenticated_password.
Qed.

Lemma received_header_ok ok N a l c nb inp ans ao ai msg :
  idle c -> (ok -> ans = []) -> authenticated auths ao ai -> request_message dest = Some msg ->
  length inp = 4%nat -> length l = 22%nat -> take 4 l = map Some inp ->
  N <= 28 + Z.of_nat (length (hello_message auths ++ ao ++ msg)) + Z.of_nat (length (ai ++ inp)) ->
  runs received_reply_header (fun _ => outcome ok N)
    (World (Some (Client auths dest STATE_SENT_REQUEST (Some (a, l)) (Some c) false true true false)) nb []
       (hello_message auths ++ ao ++ msg) (ai ++ inp) ans).
Proof.
  intros Hc Hok Ha Em Hlen Hl22 Hl HN. destruct inp as [|v [|r [|z [|t [|]]]]]; try done.
  unfold received_reply_header, buffer_ptr. do 4 socks_step. socks_step.
  apply (runs_load 317 a 0 4 [v; r; z; t]); [done|done|lia|done|]. cbn [nth].
  assert (Hv : server_verdict auths (ai ++ [v; r; z; t]) = if negb (v =? 5) || negb (r =? 0) then Refused else
    match address_length t with None => Refused | Some n => if 0 <? n then NeedMore else Accepted end) by now rewrite (verdict_authenticated _ _ _ _ Ha).
  change (v =? SOCKS_VERSION) with (v =? 5). destruct (v =? 5) eqn:Ev; cbn [negb]; [|apply runs_refused; try done; intros _; rewrite Hv; now rewrite Ev].
  change (r =? SOCKS_REP_SUCCEEDED) with (r =? 0). destruct (r =? 0) eqn:Er; cbn [negb]; [|apply runs_refused; try done; intros _; rewrite Hv, Er; now rewrite orb_true_r].
  apply Z.eqb_eq in Ev, Er. subst v r. destruct Hc as (C1 & C2 & C3 & C4).
  assert (Hrest : forall n, address_length t = Some n -> n = 6 \/ n = 18 ->
    runs (p ← buffer_ptr 343 sizeof_socks_reply_header; start_receive p n ;; set_this 346 (with_state STATE_RECEIVED_REPLY_HEADER))
      (fun _ => outcome ok N) (World (Some (Client auths dest STATE_SENT_REQUEST (Some (a, l)) (Some c) false true true false)) nb []
       (hello_message auths ++ ao ++ msg) (ai ++ [5; 0; z; t]) ans)).
  { intros n En Hn. unfold buffer_ptr. repeat socks_step. apply runs_start_receive; [lia|done|]. socks_step.
    apply outcome_live; [done|done| |match goal with |- context [phase ?p] => pose proof (phase_bounds p) end; cbn [stage]; lia]. apply (d_received_header _ _ _ _ a l _ ao ai msg [5; 0; z; t] n); try done; [now exists z, t|].
    apply receiving_start; try done; unfold sizeof_socks_reply_header; lia. }
  unfold address_length in Hrest, Hv. unfold SOCKS_ATYP_IPV4, SOCKS_ATYP_IPV6.
  destruct (t =? 1); [apply Hrest; auto|]. destruct (t =? 4); [apply Hrest; auto|]. now apply runs_refused.
Qed.

Lemma received_rest_ok ok N b c nb inp ans ao ai msg h n :
  idle c -> authenticated auths ao ai -> request_message dest = Some msg -> reply_header h n -> Z.of_nat (length inp) = n ->
  N <= 32 + Z.of_nat (length (hello_message auths ++ ao ++ msg)) + Z.of_nat (length (ai ++ h ++ inp)) ->
  runs received_reply_rest (fun _ => outcome ok N)
    (World (Some (Client auths dest STATE_RECEIVED_REPLY_HEADER b (Some c) false true true false)) nb []
       (hello_message auths ++ ao ++ msg) (ai ++ h ++ inp) ans).
Proof.
  intros Hc Ha Em Hh Hn HN. unfold received_reply_rest, free_control_io, init_up_io. repeat socks_step.
  split; [|split; [done|eexists; split; [reflexivity|intros _; unfold progress; tidy; cbn [stage]; lia]]]. unfold client_inv. tidy. split; [done|]. split; [done|]. split; [now split|]. split; [|done].
  now apply (d_up _ _ _ _ ao ai msg h n inp).
Qed.

(** Bytes arrive: either the message goes on, or it is complete in the buffer. *)
Lemma do_recv_runs data s a l c nb out inp ans off total before p len (Q : unit -> world -> Prop) :
  receiving a l c off total before inp -> recv_op c = Some (p, len) -> 0 < Z.of_nat (length data) <= len ->
  (forall l' c', length l' = length l -> receiving a l' c' off total before (inp ++ data) ->
     Q tt (World (Some (Client auths dest s (Some (a, l')) (Some c') false true true false)) nb [] out (inp ++ data) ans)) ->
  (forall l' c' r, length l' = length l -> idle c' -> take (length r) (drop (Z.to_nat off) l') = map Some r ->
     Z.of_nat (length r) = total -> inp ++ data = before ++ r ->
     runs (match s with
           | STATE_SENT_HELLO => received_hello (Client auths dest s (Some (a, l')) (Some c') false true true false)
           | STATE_SENT_REQUEST => received_reply_header
           | STATE_SENT_PASSWORD => received_password_reply
           | STATE_RECEIVED_REPLY_HEADER => received_reply_rest
           | _ => bad 387
           end) Q (World (Some (Client auths dest s (Some (a, l')) (Some c') false true true false)) nb [] out (inp ++ data) ans)) ->
  runs (do_recv data) Q (World (Some (Client auths dest s (Some (a, l)) (Some c) false true true false)) nb [] out inp ans).
Proof.
  intros (C1 & C2 & C3 & C4 & C5 & Hoff & Hrl & Hl & C6 & r & Hr & -> & Hread) Ec Hn Hmore Hfull.
  rewrite Ec in C6. injection C6 as -> ->.
  destruct c as [sif sp sl il ip iu oo rd rl rt ro]; cbn in C1, C2, C3, C4, C5, Hrl, Hr, Ec, Hn; subst.
  rewrite <- app_assoc in *.
  assert (Hi : Z.to_nat (off + Z.of_nat (length r)) = (Z.to_nat off + length r)%nat) by lia.
  unfold do_recv. do 3 socks_step. do 2 socks_step. apply runs_store; [lia|lia|]. rewrite Hi.
  set (l' := take _ l ++ _). assert (Hl' : length l' = length l) by (apply stored_length; lia).
  pose proof (stored_read l (Z.to_nat off) r data ltac:(lia) Hread) as Hread'. cbn zeta in Hread'. fold l' in Hread'. clearbody l'.
  unfold recv_handler_done. repeat socks_step. rewrite <- app_assoc.
  assert (Hlen : Z.of_nat (length (r ++ data)) = Z.of_nat (length r) + Z.of_nat (length data)) by (rewrite length_app; lia).
  destruct (Z.ltb_spec (Z.of_nat (length r) + Z.of_nat (length data)) total) as [Hlt|Hge].
  - unfold do_receive, StreamRecv_Recv. repeat socks_step. apply Hmore; [done|].
    unfold receiving. tidy. repeat (split; [done || lia|]). exists (r ++ data). done.
  - do 2 socks_step. apply (Hfull l' _ (r ++ data)); [done|done|done|lia|done].
Qed.

(** More bytes are on the wire than before. *)
Ltac grow_by :=
  repeat match goal with |- context [phase ?p] => lazymatch goal with H : 0 <= phase p <= 2 |- _ => fail | _ => pose proof (phase_bounds p) end end;
  cbn [stage]; rewrite ?length_app; lia.

Lemma do_recv_ok data s b c nb out inp ans p len :
  dialogue auths dest out inp s b (Some c) -> recv_op c = Some (p, len) -> 0 < Z.of_nat (length data) <= len ->
  runs (do_recv data) (fun _ => outcome (ans = []) (4 * stage s + phase (send_if c) + Z.of_nat (length out) + Z.of_nat (length inp) + 1))
    (World (Some (Client auths dest s b (Some c) false true true false)) nb [] out inp ans).
Proof.
  intros Hd Hc Hn. assert (Hph : phase (send_if c) = 0).
  { destruct (dialogue_receiving _ _ _ _ _ Hd) as (_ & _ & ? & ? & ? & ? & ? & _ & (E & _) & _); [congruence|]. now rewrite E. }
  rewrite Hph. assert (Hshort : forall (r : list Z) k, Z.of_nat (length r) = Z.of_nat k -> length r = k) by (intros; lia).
  inversion Hd; subst; try (match goal with H : sending _ _ _ _ _ _ |- _ => destruct H as (_ & F & _); congruence end);
    match goal with H : receiving _ _ _ _ _ _ _ |- _ => eapply (do_recv_runs data _ _ _ _ _ _ _ _ _ _ _ _ _ _ H Hc Hn) end.
  - intros l' c' Hl' Hr. apply outcome_live; [done|done|now constructor|grow_by].
  - intros l' c' r Hl' Hi Hrd Hlen E. rewrite E. apply Hshort with (k := 2%nat) in Hlen.
    apply received_hello_ok; try done; [now rewrite Hlen in Hrd|rewrite <- E; grow_by].
  - intros l' c' Hl' Hr. apply outcome_live; [done|done|now apply (d_sent_password _ _ _ _ a l' c' ai)|grow_by].
  - intros l' c' r Hl' Hi Hrd Hlen E. rewrite E. apply Hshort with (k := 2%nat) in Hlen.
    apply received_password_ok; try done; [now rewrite Hlen in Hrd|rewrite <- E; grow_by].
  - intros l' c' Hl' Hr. apply outcome_live; [done|done|apply (d_sent_request _ _ _ _ a l' c' ao ai msg); congruence|grow_by].
  - intros l' c' r Hl' Hi Hrd Hlen E. rewrite E. apply Hshort with (k := 4%nat) in Hlen.
    apply received_header_ok; try done; [congruence|now rewrite Hlen in Hrd|rewrite <- E; grow_by].
  - intros l' c' Hl' Hr. apply outcome_live; [done|done|now apply (d_received_header _ _ _ _ a l' c' ao ai msg h n)|grow_by].
  - intros l' c' r Hl' Hi Hrd Hlen E. rewrite <- app_assoc in E. rewrite E.
    apply (received_rest_ok _ _ _ _ _ _ _ ao ai msg h n); try done. rewrite <- E. grow_by.
Qed.

Lemma client_free_ok s b c up cn cr er nb ev out inp ans :
  intact s c up cn cr ->
  runs BSocksClient_Free (fun _ w => sock w = None)
    (World (Some (Client auths dest s b c up cn cr er)) nb ev out inp ans).
Proof.
  intros [H1 H2 H3 H4]. cbn in *. subst. unfold BSocksClient_Free, free_up_io, free_control_io. do 2 socks_step.
  destruct (decide (s = STATE_CONNECTING)) as [ -> |Hs1]; [repeat socks_step; done|]. rewrite bool_decide_false by done. cbn [negb].
  destruct (decide (s = STATE_UP)) as [ -> |Hs2]; [repeat socks_step; done|]. rewrite bool_decide_false by done.
  destruct (H4 Hs1 Hs2) as [c0 ->]. repeat socks_step. done.
Qed.

End Steps.
