(* ===== verification/BSocksFacts.v ===== *)
(** * Theorems about the SOCKS5 client of tun2socks *)

From S2P Require Import Prelude Effect BAddr BPending BSocksClient BSocksStep.

Open Scope Z_scope.

Import BSocks.

(** A call that is not itself a failure of the connection. *)
Definition benign (k : call) : bool :=
  match k with Connected is_error => negb is_error | ConnectionEvent _ | Free => false | _ => true end.

Section Runs.
Context (auths : list auth_info) (dest : BAddr).

(** [reaches quiet n w]: [w] is reached by [n] calls, each with some results of the calls that may
    fail; when [quiet], none of them fails. *)
Inductive reaches (quiet : bool) : nat -> world -> Prop :=
  | reaches_init server w :
      BSocksClient_Init server auths dest (World None 0 [] [] [] []) = Done true w -> reaches quiet 0 w
  | reaches_call n w k ans w' :
      reaches quiet n w -> call_enabled w k = true -> (quiet = true -> benign k = true /\ ans = []) ->
      call_body k (with_answers ans w) = Done tt w' -> reaches quiet (S n) w'.

Context (Hcfg : valid_config auths dest).

Definition live (w : world) : Prop := exists o, sock w = Some o /\ errored o = false.

Lemma client_init_inv server w :
  BSocksClient_Init server auths dest (World None 0 [] [] [] []) = Done true w ->
  w = World (Some (Client auths dest STATE_CONNECTING None None false false true false)) 0 [] [] [] [].
Proof.
  unfold BSocksClient_Init, mbind, eff_mbind, assert_at. destruct (negb _); [|done]. destruct (_ || _); [|done].
  destruct (forallb _ _); [|done]. cbn. now intros [= <-].
Qed.

(** What a call leads to. *)
Definition next_ok (k : call) (ans : list bool) (w w' : world) : Prop :=
  match k with
  | Free => sock w' = None
  | _ => outcome auths dest (benign k = true /\ ans = [] /\ 0 < Z.of_nat (length auths) <= 255) (progress w + 1) w'
  end.

Lemma outcome_weaken (P Q : Prop) N w : (Q -> P) -> outcome auths dest P N w -> outcome auths dest Q N w.
Proof. intros H (H1 & H2 & H3). split; [exact H1|]. split; [intros q; exact (H2 (H q))|exact H3]. Qed.

Lemma call_ok w k ans :
  client_inv auths dest w -> call_enabled w k = true ->
  runs (call_body k) (fun _ => next_ok k ans w) (with_answers ans w).
Proof.
  destruct w as [[[au de s b c up cn cr er]|] nb ev out inp ans0]; [|done]. unfold client_inv. tidy. intros (-> & -> & Hsh & Hd) He.
  unfold call_enabled in He. cbn [sock errored control state con] in He. destruct k as [is_error|event| | |n|data| ]; cbn [call_body next_ok]; unfold with_answers; tidy;
    try (apply andb_true_iff in He as [Her He]; destruct er; [done|]; destruct Hd as [Hd ->];
         unfold progress; tidy).
  - apply bool_decide_eq_true in He. subst s. destruct Hsh as [S1 S2 S3 _]; cbn in *; subst. inversion Hd; subst.
    eapply eff_mono; [apply connector_ok|]. intros [] w'. apply outcome_weaken. intros (Hb & ? & ?). now destruct is_error.
  - subst. assert (Hs : s <> STATE_CONNECTING) by (intros ->; destruct Hsh as [_ S2 _ _]; cbn [con state] in S2; rewrite bool_decide_true in S2; done).
    apply connection_event_ok; [destruct Hsh; now split|done|naive_solver|done].
  - destruct c as [c|]; [|done]. apply bool_decide_eq_true in He. destruct (dialogue_sending _ _ _ _ _ _ _ Hd) as (N1 & N2 & _); [congruence|].
    destruct Hsh as [S1 S2 S3 _]; cbn in *; subst. rewrite !bool_decide_false by done. now apply input_operation_ok.
  - destruct c as [c|]; [|done]. apply bool_decide_eq_true in He. destruct (dialogue_sending _ _ _ _ _ _ _ Hd) as (N1 & N2 & _); [congruence|].
    destruct Hsh as [S1 S2 S3 _]; cbn in *; subst. rewrite !bool_decide_false by done.
    eapply eff_mono; [now apply input_done_ok|]. intros [] w'. apply outcome_weaken. tauto.
  - destruct c as [c|]; [|done]. destruct (out_op c) as [[p len]|] eqn:Eo; [|done].
    destruct (dialogue_sending _ _ _ _ _ _ _ Hd) as (N1 & N2 & _); [now apply (dialogue_busy _ _ _ _ _ _ _ _ Hd Eo)|].
    destruct Hsh as [S1 S2 S3 _]; cbn in *; subst. rewrite !bool_decide_false by done. apply (do_sent_ok _ _ _ _ _ _ _ p len); [done|done|lia].
  - destruct c as [c|]; [|done]. destruct (recv_op c) as [[p len]|] eqn:Eo; [|done].
    destruct (dialogue_receiving _ _ _ _ _ _ _ Hd) as (N1 & N2 & _); [congruence|].
    destruct Hsh as [S1 S2 S3 _]; cbn in *; subst. rewrite !bool_decide_false by done.
    apply andb_true_iff in He as [He _].
    eapply eff_mono; [apply (do_recv_ok _ _ Hcfg _ _ _ _ _ _ _ _ p len); [done|done|lia]|]. intros [] w'. apply outcome_weaken. tauto.
  - apply client_free_ok. destruct Hsh. now split.
Qed.

Lemma client_reaches_inv q n w : reaches q n w -> client_inv auths dest w.
Proof.
  induction 1 as [server w E|n w k ans w' _ IH He Hq E].
  - rewrite (client_init_inv _ _ E). unfold client_inv. tidy. split; [done|]. split; [done|]. split; [now split|]. split; [now constructor|done].
  - pose proof (eff_at _ _ _ _ _ (call_ok w k ans IH He) E) as H. destruct k; try exact (proj1 H). unfold client_inv. cbn in H. now rewrite H.
Qed.

Lemma dialogue_bounds out inp s b c :
  dialogue auths dest out inp s b c ->
  Z.of_nat (length out) <= Z.of_nat (length auths) + 537 /\ Z.of_nat (length inp) <= 26.
Proof.
  assert (Hh : Z.of_nat (length (hello_message auths)) = Z.of_nat (length auths) + 2).
  { unfold hello_message. cbn [app length]. rewrite length_map. lia. }
  assert (Hm : forall msg, request_message dest = Some msg -> Z.of_nat (length msg) <= 22).
  { intros msg E. destruct (request_ok auths dest Hcfg) as (m & E' & El). rewrite E in E'. injection E' as <-. rewrite El.
    destruct dest; vm_compute; congruence. }
  destruct 1; subst;
    repeat match goal with
    | H : sending _ _ _ _ _ _ |- _ => apply sending_length in H
    | H : receiving _ _ _ _ _ _ _ |- _ => apply receiving_length in H
    | H : authenticated _ _ _ |- _ => apply authenticated_length in H
    | H : request_message _ = _ |- _ => apply Hm in H
    | H : creds_ok _ = true |- _ => apply password_length in H
    | H : reply_header _ _ |- _ => apply header_length in H
    end; rewrite ?length_app in *; cbn [length] in *; lia.
Qed.

(** Every call before the last one is progress. *)
Lemma reaches_progress n w : reaches true n w -> live w -> Z.of_nat n <= progress w.
Proof.
  induction 1 as [server w E|n w k ans w' Hw IH He Hq E].
  - intros _. now rewrite (client_init_inv _ _ E).
  - intros (o' & Eo' & Ho'). pose proof (eff_at _ _ _ _ _ (call_ok w k ans (client_reaches_inv _ _ _ Hw) He) E) as H.
    assert (Hlive : k <> Free -> live w).
    { unfold call_enabled in He. destruct (sock w) as [o|] eqn:Eo; [|done]. intros Hk. exists o. split; [done|].
      destruct (errored o); [|done]. now destruct k. }
    destruct k; try (specialize (IH (Hlive ltac:(done))); destruct H as (_ & _ & o1 & Eo1 & H); rewrite Eo' in Eo1; injection Eo1 as <-; specialize (H Ho'); lia).
    cbn in H. congruence.
Qed.

Lemma reaches_refused n w o :
  0 < Z.of_nat (length auths) <= 255 -> reaches true n w -> sock w = Some o -> errored o = true ->
  server_verdict auths (wire_in w) = Refused /\ events w = [EVENT_ERROR].
Proof.
  intros Hn H. destruct H as [server w E|n w k ans w' Hw He Hq E]; intros Eo Ho.
  - rewrite (client_init_inv _ _ E) in Eo. injection Eo as <-. done.
  - pose proof (eff_at _ _ _ _ _ (call_ok w k ans (client_reaches_inv _ _ _ Hw) He) E) as H. destruct (Hq eq_refl) as [Hb ->].
    destruct k; try done; destruct H as (_ & H & _); rewrite Eo in H; now apply H.
Qed.

(** In a quiet run the object is not freed. *)
Lemma reaches_object n w : reaches true n w -> exists o, sock w = Some o.
Proof.
  intros H. destruct H as [server w E|n w k ans w' Hw He Hq E]; [rewrite (client_init_inv _ _ E); eauto|].
  pose proof (eff_at _ _ _ _ _ (call_ok w k ans (client_reaches_inv _ _ _ Hw) He) E) as H. destruct (Hq eq_refl) as [Hb ->].
  destruct k; try done; destruct H as (_ & _ & o & Eo & _); eauto.
Qed.

(** What a live client waits for. *)
Lemma live_next w :
  client_inv auths dest w -> live w -> events w = [] ->
  (exists k, benign k = true /\ call_enabled w k = true /\ forall data, k <> DoRecv data) \/
  (exists o c p len, sock w = Some o /\ control o = Some c /\ recv_op c = Some (p, len) /\ 0 < len).
Proof.
  intros Hi (o & Eo & Ho) Hev. unfold client_inv in Hi. rewrite Eo, Ho in Hi. destruct Hi as (_ & _ & _ & Hd & Hev').
  assert (Hu : state o <> STATE_UP) by (intros Hu; rewrite bool_decide_true in Hev'; congruence).
  assert (Hsend : forall a l c msg before, control o = Some c -> sending a l c msg before (wire_out w) ->
    exists k, benign k = true /\ call_enabled w k = true /\ forall data, k <> DoRecv data).
  { intros a l c msg before Ec (_ & _ & Hm & H). unfold call_enabled. rewrite Eo, Ho, Ec. cbn [negb andb].
    destruct H as [(H & _)|[(_ & _ & _ & Hu' & H & _)|(H & _)]].
    - exists InputOperation. now rewrite H.
    - exists (DoSent 1). rewrite H. split; [done|]. split; [|done]. lia.
    - exists InputDone. now rewrite H. }
  assert (Hrecv : forall a l c off total before, control o = Some c -> receiving a l c off total before (wire_in w) ->
    exists o c p len, sock w = Some o /\ control o = Some c /\ recv_op c = Some (p, len) /\ 0 < len).
  { intros a l c off total before Ec (_ & _ & _ & _ & _ & _ & Hr & _ & H & _). exists o, c, (Pointer a (off + recv_len c)), (total - recv_len c).
    repeat (split; [done|]). lia. }
  destruct (control o) as [c|] eqn:Ec.
  - inversion Hd; subst; eauto.
  - inversion Hd; subst; [|congruence]. left. exists (Connected false). unfold call_enabled. rewrite Eo, Ho. cbn [negb andb].
    split; [done|]. split; [|done]. now apply bool_decide_true.
Qed.

(** The events that were reported tell the state. *)
Lemma events_state q n w o :
  reaches q n w -> sock w = Some o ->
  (EVENT_UP ∈ events w <-> state o = STATE_UP) /\
  (errored o = true <-> EVENT_ERROR ∈ events w \/ EVENT_ERROR_CLOSED ∈ events w).
Proof.
  intros Hr Eo. pose proof (client_reaches_inv q n w Hr) as Hi. unfold client_inv in Hi. rewrite Eo in Hi. destruct Hi as (_ & _ & _ & Hi).
  destruct (decide (state o = STATE_UP)) as [E|E]; [rewrite bool_decide_true in Hi by done|rewrite bool_decide_false in Hi by done];
    destruct (errored o).
  - destruct Hi as [-> | ->]; set_solver.
  - destruct Hi as [_ ->]. split; [set_solver|]. split; [done|]. intros [H|H]; apply list_elem_of_singleton in H; discriminate.
  - rewrite Hi. split; [|set_solver]. split; [|done]. intros H; apply list_elem_of_singleton in H; discriminate.
  - destruct Hi as [_ ->]. split; [split; [|done]; intros H; now apply elem_of_nil in H|]. split; [done|]. intros [H|H]; now apply elem_of_nil in H.
Qed.

End Runs.

(** ** A run *)

Definition server : BAddr := BADDR_IPV4 [127; 0; 0; 1] [4; 56].
Definition destination : BAddr := BADDR_IPV4 [93; 184; 216; 34] [0; 80].
Definition methods : list auth_info := [BSocksClient_auth_none; BSocksClient_auth_password [117] [112]].

Fixpoint run_calls (l : list call) (w : world) : world :=
  match l with
  | [] => w
  | k :: l => match call_body k w with Done _ w' => run_calls l w' | Bad _ => w end
  end.

Definition started : world := World (Some (Client methods destination STATE_CONNECTING None None false false true false)) 0 [] [] [] [].

(** A server that asks for the password and answers in two pieces. *)
Definition talk : list call :=
  [Connected false; InputOperation; DoSent 3; DoSent 1; InputDone; DoRecv [5; 2];
   InputOperation; DoSent 5; InputDone; DoRecv [1]; DoRecv [0];
   InputOperation; DoSent 10; InputDone; DoRecv [5; 0; 0; 1]; DoRecv [0; 0; 0; 0; 0; 0]].

Lemma methods_valid : valid_config methods destination.
Proof. split; [done|]. split; [|done]. repeat split; repeat constructor; done. Qed.

Fixpoint enabled_all (l : list call) (w : world) : bool :=
  match l with
  | [] => true
  | k :: l =>
      call_enabled w k && benign k && bool_decide (answers w = []) &&
      match call_body k w with Done _ w' => enabled_all l w' | Bad _ => false end
  end.

Lemma enabled_reaches l n w :
  reaches methods destination true n w -> enabled_all l w = true ->
  reaches methods destination true (n + length l) (run_calls l w).
Proof.
  revert n w. induction l as [|k l IH]; intros n w Hw; cbn [enabled_all run_calls length].
  - now rewrite Nat.add_0_r.
  - destruct (call_body k w) as [[] w'|] eqn:E; rewrite ?andb_false_r; [|done]. intros H. rewrite !andb_true_iff in H.
    destruct H as [[[H1 H2] H3] H4]. apply bool_decide_eq_true in H3. rewrite <- Nat.add_succ_comm. apply IH; [|done].
    apply (reaches_call _ _ _ _ w k []); [done|done|done|]. destruct w; cbn in *. now rewrite <- H3.
Qed.

Lemma started_reached : reaches methods destination true 0 started.
Proof. apply (reaches_init _ _ _ server). reflexivity. Qed.

Lemma talk_reached : reaches methods destination true 16 (run_calls talk started).
Proof. apply (enabled_reaches talk 0 started started_reached). vm_compute. reflexivity. Qed.

(** ** Safety *)

(** C14. Whatever the server sends, in whatever pieces, and whatever fails: every callback the
    interfaces and the connection may make returns. No pointer into a buffer is used after
    that was reallocated or freed, no byte is read that was not written, no operation is
    started on an interface that is busy or freed, and an error is reported at most once.
    The stream interfaces can be taken exactly in the state that was reported as up, and
    the object can be freed at any time. *)
Theorem socks_client_safe (auths : list auth_info) (dest : BAddr) (quiet : bool) (n : nat) (w : world) (o : BSocksClient) :
  valid_config auths dest -> reaches auths dest quiet n w -> sock w = Some o ->
  (forall k ans, call_enabled w k = true -> exists w', call_body k (with_answers ans w) = Done tt w') /\
  (exists w', BSocksClient_Free w = Done tt w' /\ sock w' = None) /\
  (BSocksClient_GetSendInterface w = Done tt w <-> EVENT_UP ∈ events w) /\
  (BSocksClient_GetRecvInterface w = Done tt w <-> EVENT_UP ∈ events w) /\
  (errored o = true <-> EVENT_ERROR ∈ events w \/ EVENT_ERROR_CLOSED ∈ events w).
Proof.
  intros Hcfg Hr Eo. pose proof (client_reaches_inv _ _ Hcfg _ _ _ Hr) as Hi.
  assert (Hcall : forall k ans, call_enabled w k = true ->
    exists w', call_body k (with_answers ans w) = Done tt w' /\ next_ok auths dest k ans w w').
  { intros k ans He. destruct (eff_done _ _ _ (call_ok _ _ Hcfg w k ans Hi He)) as ([] & w' & E & H). eauto. }
  split; [intros k ans He; destruct (Hcall k ans He) as (w' & E & _); eauto|].
  split. { destruct (Hcall Free (answers w)) as (w' & E & H); [unfold call_enabled; now rewrite Eo|]. exists w'. split; [|done].
    destruct w; exact E. }
  destruct (events_state _ _ Hcfg quiet n w o Hr Eo) as [Hup Herr]. unfold BSocksClient_GetSendInterface, BSocksClient_GetRecvInterface.
  rewrite Hup. split; [|split; [|exact Herr]]; unfold this, mbind, eff_mbind, get_st, assert_at; rewrite Eo; cbn [mret eff_mret];
    (destruct (decide (state o = STATE_UP)) as [E|E]; [rewrite bool_decide_true by done|rewrite bool_decide_false by done]; now split).
Qed.

Lemma socks_client_safe_witness :
  exists o, sock (run_calls talk started) = Some o /\
    (BSocksClient_GetSendInterface (run_calls talk started) = Done tt (run_calls talk started) <->
     EVENT_UP ∈ events (run_calls talk started)).
Proof.
  eexists. split; [vm_compute; reflexivity|].
  refine (proj1 (proj2 (proj2 (socks_client_safe methods destination true 16 _ _ methods_valid talk_reached _)))). vm_compute. reflexivity.
Defined.

(** ** The result *)

(** C13. When no call fails, what is reported is a function of the bytes the server sent, however
    they were cut and interleaved with sending: nothing while the dialogue of RFC 1928 and
    RFC 1929 is incomplete, that the connection is up when it is an acceptance, and an error
    when it is a refusal. When it is up, exactly the dialogue was read, so that the first byte
    of the destination is left to the user, and exactly the hello, the credentials if they were asked for,
    and the request were sent. *)
Theorem socks_client_result (auths : list auth_info) (dest : BAddr) (n : nat) (w : world) :
  valid_config auths dest -> 0 < Z.of_nat (length auths) <= 255 -> reaches auths dest true n w ->
  match server_verdict auths (wire_in w) with
  | NeedMore => events w = []
  | Refused => events w = [EVENT_ERROR]
  | Accepted =>
      events w = [EVENT_UP] /\
      exists ao ai msg header len address,
        authenticated auths ao ai /\ request_message dest = Some msg /\
        reply_header header len /\ Z.of_nat (length address) = len /\
        wire_in w = ai ++ header ++ address /\ wire_out w = hello_message auths ++ ao ++ msg
  end.
Proof.
  intros Hcfg Hn Hr. destruct (reaches_object _ _ Hcfg n w Hr) as [o Eo]. destruct (errored o) eqn:Ee.
  { now destruct (reaches_refused _ _ Hcfg n w o Hn Hr Eo Ee) as [-> ->]. }
  pose proof (client_reaches_inv _ _ Hcfg _ _ _ Hr) as Hi. unfold client_inv in Hi. rewrite Eo, Ee in Hi. destruct Hi as (_ & _ & _ & Hd & Hev).
  rewrite (dialogue_verdict _ _ _ _ _ _ _ Hd). destruct (decide (state o = STATE_UP)) as [E|E].
  - rewrite bool_decide_true in * by done. split; [done|]. rewrite E in Hd. inversion Hd; subst. now exists ao, ai, msg, h, (Z.of_nat (length addr)), addr.
  - now rewrite bool_decide_false in * by done.
Qed.

Lemma socks_client_result_witness :
  server_verdict methods [5; 2; 1; 0; 5; 0; 0; 1; 0; 0; 0; 0; 0; 0] = Accepted /\
  match server_verdict methods (wire_in (run_calls talk started)) with
  | NeedMore => events (run_calls talk started) = []
  | Refused => events (run_calls talk started) = [EVENT_ERROR]
  | Accepted =>
      events (run_calls talk started) = [EVENT_UP] /\
      exists ao ai msg header len address,
        authenticated methods ao ai /\ request_message destination = Some msg /\
        reply_header header len /\ Z.of_nat (length address) = len /\
        wire_in (run_calls talk started) = ai ++ header ++ address /\
        wire_out (run_calls talk started) = hello_message methods ++ ao ++ msg
  end.
Proof.
  split; [reflexivity|]. refine (socks_client_result methods destination 16 _ methods_valid _ talk_reached). cbn. lia.
Defined.

(** ** Termination *)

(** The dialogue ends: when no call fails it takes a bounded number of callbacks, and until
    the result is reported the client either has a callback of its own to run or has asked
    the connection for bytes. *)
Lemma socks_client_ends (auths : list auth_info) (dest : BAddr) (n : nat) (w : world) :
  valid_config auths dest -> 0 < Z.of_nat (length auths) <= 255 -> reaches auths dest true n w ->
  Z.of_nat n <= Z.of_nat (length auths) + 598 /\
  (events w = [] ->
   (exists k, benign k = true /\ call_enabled w k = true /\ forall data, k <> DoRecv data) \/
   (exists o c p len, sock w = Some o /\ control o = Some c /\ recv_op c = Some (p, len) /\ 0 < len)).
Proof.
  intros Hcfg Hn Hr. split.
  - destruct Hr as [server w E|n w k ans w' Hw He Hq E]; [lia|].
    destruct (reaches_object _ _ Hcfg n w Hw) as [o Eo]. assert (Ee : errored o = false).
    { unfold call_enabled in He. rewrite Eo in He. destruct (Hq eq_refl) as [Hb _]. destruct (errored o); [|done]. now destruct k. }
    pose proof (reaches_progress _ _ Hcfg n w Hw (ex_intro _ o (conj Eo Ee))) as Hp.
    pose proof (client_reaches_inv _ _ Hcfg _ _ _ Hw) as Hi. unfold client_inv in Hi. rewrite Eo, Ee in Hi. destruct Hi as (_ & _ & _ & Hd & _).
    pose proof (dialogue_bounds _ _ Hcfg _ _ _ _ _ Hd) as [H1 H2]. unfold progress in Hp. rewrite Eo in Hp.
    assert (Hst : 0 <= stage (state o) <= 8) by (destruct (state o); cbn; lia).
    destruct (control o) as [c|]; [pose proof (phase_bounds (send_if c))|]; lia.
  - intros Hev. destruct (reaches_object _ _ Hcfg n w Hr) as [o Eo]. apply (live_next auths dest); [now apply (client_reaches_inv _ _ Hcfg true n)| |done].
    exists o. split; [done|]. destruct (errored o) eqn:Ee; [|done]. destruct (reaches_refused _ _ Hcfg n w o Hn Hr Eo Ee). congruence.
Qed.

Lemma socks_client_ends_witness :
  Z.of_nat 16 <= Z.of_nat (length methods) + 598 /\
  (events (run_calls talk started) = [] ->
   (exists k, benign k = true /\ call_enabled (run_calls talk started) k = true /\ forall data, k <> DoRecv data) \/
   (exists o c p len, sock (run_calls talk started) = Some o /\ control o = Some c /\ recv_op c = Some (p, len) /\ 0 < len)).
Proof. refine (socks_client_ends methods destination 16 _ methods_valid _ talk_reached). cbn. lia. Defined.
