(* ===== verification/IpText.v ===== *)
(** * Addresses as text ([badvpn/misc/ipaddr6.h], [badvpn/system/BAddr.h])

    Reading and printing IPv6 addresses, and reading the addresses of the command line. The output
    of the IPv6 parser is an array of sixteen bytes which it writes at positions it computes, so a
    position outside of it is a result of its own. The name resolver of the C library is a parameter. *)

From S2P Require Import Prelude CLib BAddr.

Open Scope Z_scope.

Module IpText.

(** ** Digits ([misc/parse_number.h]) *)

Definition decode_decimal_digit (c : Z) : Z := if isdigit c then c - 48 else -1.

Definition decode_hex_digit (c : Z) : Z :=
  if isdigit c then c - 48
  else if (65 <=? c) && (c <=? 70) then c - 55
  else if (97 <=? c) && (c <=? 102) then c - 87
  else -1.

(** [strtol(p, &end, 10)] with a 64-bit [long]. *)
Definition strtol10 (p : list Z) : Z * list Z :=
  let q := skip_spaces p in
  let neg := peek q =? 45 in
  let q := if neg || (peek q =? 43) then tail q else q in
  let (digits, e) := span isdigit q in
  if bool_decide (digits = []) then (0, p)
  else
    let v := dec_value digits in
    (if neg then Z.max (- v) (- 2 ^ 63) else Z.min v (2 ^ 63 - 1), e).

(** ** Reading an IPv6 address *)

Inductive v6_result := V6_Ok (bytes : list Z) | V6_Refused | V6_OutOfBounds.

Record v6_state := V6 {
  num_blocks : Z;
  compress_pos : Z;
  block : Z;
  empty : bool;
  out : list Z;
}.

(** Writing to and reading from the array. *)
Definition store (pos : Z) (l out : list Z) : option (list Z) :=
  if (0 <=? pos) && (pos + Z.of_nat (length l) <=? 16)
  then Some (take (Z.to_nat pos) out ++ l ++ drop (Z.to_nat pos + length l) out) else None.

Definition fetch (pos n : Z) (out : list Z) : option (list Z) :=
  if (0 <=? pos) && (0 <=? n) && (pos + n <=? 16) then Some (take (Z.to_nat n) (drop (Z.to_nat pos) out)) else None.

Definition zeros (n : Z) : option (list Z) := if 0 <=? n then Some (repeat 0 (Z.to_nat n)) else None.

(** The block that was read is written and counted. *)
Definition put_block (st : v6_state) : option v6_state :=
  match store (2 * num_blocks st) [Z.shiftr (block st) 8; Z.land (block st) 0xFF] (out st) with
  | Some o => Some (V6 (num_blocks st + 1) (compress_pos st) 0 true o)
  | None => None
  end.

(** From [ipv4_done] on: the blocks after the compressed ones are moved to the end. *)
Definition ipv4_done (st : v6_state) : v6_result :=
  if (compress_pos st =? -1) && negb (num_blocks st =? 8) then V6_Refused
  else
    let compress_pos := if compress_pos st =? -1 then 0 else compress_pos st in
    let num_rear := num_blocks st - compress_pos in
    let moved :=
      rear ← fetch (2 * compress_pos) (2 * num_rear) (out st);
      o ← store (2 * (8 - num_rear)) rear (out st);
      z ← zeros (2 * (8 - num_rear - compress_pos));
      store (2 * compress_pos) z o in
    match moved with Some o => V6_Ok o | None => V6_OutOfBounds end.

(** The index after the last colon before [i]; reading in front of the text is out of bounds. *)
Fixpoint back_up (name : list Z) (i : nat) : option nat :=
  match i with
  | O => None
  | S j => if nth j name 0 =? 58 then Some i else back_up name j
  end.

(** The four decimal numbers at the end; [bytes] are those read, as many as [cur_byte] says. *)
Fixpoint ipv4_loop (l : list Z) (bytes : list Z) (byte : Z) (empty : bool) : option (list Z) :=
  match l with
  | [] => if negb (Z.of_nat (length bytes) =? 3) || empty then None else Some (bytes ++ [byte])
  | c :: l =>
      if c =? 46 then
        if empty || (Z.of_nat (length bytes) =? 3) then None else ipv4_loop l (bytes ++ [byte]) 0 true
      else if negb empty && (byte =? 0) then None
      else
        let digit := decode_decimal_digit c in
        if digit <? 0 then None
        else if byte >? 255 / 10 then None
        else if digit >? 255 - byte * 10 then None
        else ipv4_loop l bytes (byte * 10 + digit) false
  end.

Definition ipv4_ending (name : list Z) (i : nat) (st : v6_state) : v6_result :=
  if empty st || ((num_blocks st =? 0) && (compress_pos st =? -1)) then V6_Refused
  else
    match back_up name i with
    | None => V6_OutOfBounds
    | Some i =>
        match ipv4_loop (drop i name) [] 0 true with
        | None => V6_Refused
        | Some bytes =>
            if 8 - num_blocks st <? 2 then V6_Refused
            else
              match store (2 * num_blocks st) bytes (out st) with
              | None => V6_OutOfBounds
              | Some o => ipv4_done (V6 (num_blocks st + 2) (compress_pos st) (block st) (empty st) o)
              end
        end
    end.

(** The end of the text. *)
Definition v6_end (st : v6_state) : v6_result :=
  if negb (empty st) then match put_block st with Some st => ipv4_done st | None => V6_OutOfBounds end
  else if negb (num_blocks st =? compress_pos st) then V6_Refused
  else ipv4_done st.

(** The loop over the text: [l] is the part from [i] on. *)
Fixpoint v6_loop (name l : list Z) (i : nat) (st : v6_state) : v6_result :=
  match l with
  | [] => v6_end st
  | c :: l =>
      if c =? 46 then ipv4_ending name i st
      else if c =? 58 then
        let is_double := bool_decide (l <> []) && (peek l =? 58) in
        let go st :=
          if is_double then
            if negb (compress_pos st =? -1) then V6_Refused
            else
              match l with
              | [] => V6_OutOfBounds
              | _ :: l => v6_loop name l (i + 2) (V6 (num_blocks st) (num_blocks st) (block st) (empty st) (out st))
              end
          else v6_loop name l (i + 1) st in
        if (0 <? i)%nat then
          if empty st || (num_blocks st =? 7) then V6_Refused
          else match put_block st with Some st => go st | None => V6_OutOfBounds end
        else if negb is_double then V6_Refused
        else go st
      else
        let digit := decode_hex_digit c in
        if digit <? 0 then V6_Refused
        else if block st >? 0xFFFF / 16 then V6_Refused
        else if digit >? 0xFFFF - block st * 16 then V6_Refused
        else v6_loop name l (i + 1) (V6 (num_blocks st) (compress_pos st) (block st * 16 + digit) false (out st))
  end.

(** [old] is what the array held. *)
Definition ipaddr6_parse_ipv6_addr (name old : list Z) : v6_result := v6_loop name name 0 (V6 0 (-1) 0 true old).

(** ** Printing an IPv6 address *)

(** ["%x"] of a 16-bit number. *)
Definition format_x (z : Z) : list Z :=
  hex_digits (if z <? 16 then 1 else if z <? 256 then 2 else if z <? 4096 then 3 else 4) z.

Definition block_at (addr : list Z) (i : nat) : Z := Z.lor (Z.shiftl (nth (2 * i) addr 0) 8) (nth (2 * i + 1) addr 0).

(** The longest run of blocks that are zero: where it starts and its length. *)
Record run := Run { largest_start : nat; largest_len : nat; current_start : nat; current_len : nat }.

Definition zero_run_step (addr : list Z) (r : run) (i : nat) : run :=
  if (nth (2 * i) addr 0 =? 0) && (nth (2 * i + 1) addr 0 =? 0) then
    let current_len := S (current_len r) in
    if (largest_len r <? current_len)%nat
    then Run (current_start r) current_len (current_start r) current_len
    else Run (largest_start r) (largest_len r) (current_start r) current_len
  else Run (largest_start r) (largest_len r) (i + 1) 0.

Definition largest_run (addr : list Z) : run := foldl (zero_run_step addr) (Run 0 0 0 0) (seq 0 8).

Definition ipaddr6_print_addr (addr : list Z) : list Z :=
  let r := largest_run addr in
  let rest := (largest_start r + largest_len r)%nat in
  if (1 <? largest_len r)%nat then
    concat (map (fun i => format_x (block_at addr i) ++ [58]) (seq 0 (largest_start r))) ++
    (if (largest_start r =? 0)%nat then [58] else []) ++
    concat (map (fun i => [58] ++ format_x (block_at addr i)) (seq rest (8 - rest))) ++
    (if (rest =? 8)%nat then [58] else [])
  else concat (map (fun i => (if (i =? 0)%nat then [] else [58]) ++ format_x (block_at addr i)) (seq 0 8)).

(** ** The addresses of the command line *)

Inductive BIPAddr := BIP_NONE | BIP_IPV4 (ip : list Z) | BIP_IPV6 (ip : list Z).

Definition index_of (c : Z) (l : list Z) : nat := length (span (fun x => negb (x =? c)) l).1.

Section Resolver.
(** [getaddrinfo]: whether the family is IPv6, the name, whether it must be numeric; the first address. *)
Context (getaddrinfo : bool -> list Z -> bool -> option (list Z)).

Definition BIPAddr_Resolve (str : list Z) (noresolve : bool) : option BIPAddr :=
  let len := length str in
  let v6 := (1 <=? len)%nat && (peek str =? 91) && (nth (len - 1) str 0 =? 93) in
  let addr := if v6 then take (len - 2) (drop 1 str) else str in
  if Z.of_nat (length addr) >? 128 then None
  else
    match getaddrinfo v6 addr noresolve with
    | None => None
    | Some ip => Some (if v6 then BIP_IPV6 ip else BIP_IPV4 ip)
    end.

(** The parts of an address with a port: the family, the address and the port. *)
Definition split_addr (str : list Z) : option (bool * list Z * list Z) :=
  let len := length str in
  if peek str =? 91 then
    let i := (1 + index_of 93 (drop 1 str))%nat in
    if (len <=? i)%nat then None
    else if (len <=? i + 1)%nat || negb (nth (i + 1) str 0 =? 58) then None
    else Some (true, take (i - 1) (drop 1 str), drop (i + 2) str)
  else
    let i := index_of 58 str in
    if (len <=? i)%nat then None else Some (false, take i str, drop (i + 1) str).

Definition BAddr_Parse2 (str : list Z) (noresolve : bool) : option BAddr :=
  let len := Z.of_nat (length str) in
  if (len <? 1) || (len >? 1000) then None
  else
    match split_addr str with
    | None => None
    | Some (v6, addr_str, port_str) =>
        if Z.of_nat (length addr_str) >=? 128 then None
        else if Z.of_nat (length port_str) >=? 6 then None
        else
          let (conv_res, err) := strtol10 port_str in
          if bool_decide (port_str = []) || negb (bool_decide (err = [])) then None
          else if (conv_res <? 0) || (conv_res >? 0xFFFF) then None
          else
            match getaddrinfo v6 addr_str noresolve with
            | None => None
            | Some ip => Some (if v6 then BADDR_IPV6 ip (be16 conv_res) else BADDR_IPV4 ip (be16 conv_res))
            end
    end.

End Resolver.

(** ** Printing an address *)

Definition BIPAddr_Print (a : BIPAddr) : list Z :=
  match a with
  | BIP_NONE => B# "(none)"
  | BIP_IPV4 ip => format_u (nth 0 ip 0) ++ [46] ++ format_u (nth 1 ip 0) ++ [46] ++ format_u (nth 2 ip 0) ++ [46] ++ format_u (nth 3 ip 0)
  | BIP_IPV6 ip => concat (map (fun i => (if (i =? 0)%nat then [] else [58]) ++ format_x (of_be (take 2 (drop (2 * i) ip)))) (seq 0 8))
  end.

Definition BAddr_Print (a : BAddr) : list Z :=
  match a with
  | BADDR_NONE => B# "(none)"
  | BADDR_IPV4 ip port => BIPAddr_Print (BIP_IPV4 ip) ++ [58] ++ format_u (of_be port)
  | BADDR_IPV6 ip port => BIPAddr_Print (BIP_IPV6 ip) ++ [58] ++ format_u (of_be port)
  end.

End IpText.

Import IpText.

(** ** The array *)

(** The bytes of blocks of sixteen bits. *)
Definition flat (bs : list Z) : list Z := concat (map be16 bs).

Lemma flat_length bs : length (flat bs) = (2 * length bs)%nat.
Proof. induction bs as [|b bs IH]; [done|]. unfold flat in *. cbn [map concat]. rewrite length_app, IH. cbn. lia. Qed.

Lemma flat_app bs bs' : flat (bs ++ bs') = flat bs ++ flat bs'.
Proof. unfold flat. now rewrite map_app, concat_app. Qed.

Lemma flat_zeros n : flat (repeat 0 n) = repeat 0 (2 * n).
Proof. induction n as [|n IH]; [done|]. replace (2 * S n)%nat with (S (S (2 * n))) by lia. unfold flat in *. cbn [repeat map concat]. now rewrite IH. Qed.

Lemma store_at P l t pos :
  pos = Z.of_nat (length P) -> (length P + length l <= 16)%nat -> store pos l (P ++ t) = Some (P ++ l ++ drop (length l) t).
Proof.
  intros -> Hl. unfold store. rewrite (proj2 (Z.leb_le _ _)) by lia. rewrite (proj2 (Z.leb_le _ _)) by lia. cbn [andb].
  rewrite Nat2Z.id, take_app_length. f_equal. f_equal. f_equal. rewrite drop_app, drop_ge by lia. cbn [app]. f_equal. lia.
Qed.

Lemma fetch_at P l t pos n :
  pos = Z.of_nat (length P) -> n = Z.of_nat (length l) -> (length P + length l <= 16)%nat -> fetch pos n (P ++ l ++ t) = Some l.
Proof.
  intros -> -> Hl. unfold fetch. rewrite !(proj2 (Z.leb_le _ _)) by lia. cbn [andb]. now rewrite !Nat2Z.id, drop_app_length, take_app_length.
Qed.

(** ** Reading hexadecimal blocks *)

Lemma decode_hex d : 0 <= d < 16 -> decode_hex_digit (hex_digit d) = d.
Proof. unfold decode_hex_digit, hex_digit, isdigit. intros H. destruct (d <? 10) eqn:E; repeat case_match; lia. Qed.

Lemma hex_digit_plain d : 0 <= d < 16 -> hex_digit d <> 46 /\ hex_digit d <> 58.
Proof. unfold hex_digit. destruct (d <? 10) eqn:E; lia. Qed.

Lemma loop_hex name n : forall z l i st,
  0 <= z < 16 ^ Z.of_nat n -> 0 <= block st -> block st * 16 ^ Z.of_nat n + z <= 0xFFFF ->
  v6_loop name (hex_digits n z ++ l) i st =
  v6_loop name l (i + n) (V6 (num_blocks st) (compress_pos st) (block st * 16 ^ Z.of_nat n + z) (empty st && (n =? 0)%nat) (out st)).
Proof.
  induction n as [|n IH]; intros z l i st Hz Hb Hmax.
  - change (16 ^ Z.of_nat 0) with 1 in *. destruct st as [nb cp bl em o]. cbn [hex_digits app num_blocks compress_pos block empty out Nat.eqb] in *.
    replace (bl * 1 + z) with bl by lia. now rewrite andb_true_r, Nat.add_0_r.
  - rewrite Nat2Z.inj_succ, Z.pow_succ_r in * by lia. cbn [hex_digits]. rewrite <- app_assoc. pose proof (Z.mod_pos_bound z 16 ltac:(lia)) as Hm.
    pose proof (Z.div_mod z 16 ltac:(lia)) as Hd. set (q := 16 ^ Z.of_nat n) in *. assert (0 < q) by (unfold q; apply Z.pow_pos_nonneg; lia).
    assert (Hq : 0 <= z / 16 < q) by (split; [apply Z.div_pos; lia|apply Z.div_lt_upper_bound; lia]).
    rewrite IH by (try exact Hq; nia). cbn [app v6_loop block num_blocks compress_pos empty out].
    destruct (hex_digit_plain (z mod 16) Hm) as [H46 H58]. rewrite (proj2 (Z.eqb_neq _ _) H46), (proj2 (Z.eqb_neq _ _) H58), decode_hex by done.
    change (0xFFFF / 16) with 4095. destruct (Z.ltb_spec (z mod 16) 0); [lia|]. destruct (Z.gtb_spec (block st * q + z / 16) 4095); [nia|].
    destruct (Z.gtb_spec (z mod 16) (0xFFFF - (block st * q + z / 16) * 16)); [nia|]. f_equal; [lia|]. rewrite andb_false_r. f_equal. nia.
Qed.

Lemma format_x_length b : (1 <= length (format_x b) <= 4)%nat.
Proof.
  unfold format_x. assert (forall n z, length (hex_digits n z) = n) as H by (intros n; induction n; intros; cbn; rewrite ?length_app, ?IHn; cbn; lia).
  rewrite H. repeat case_match; lia.
Qed.

Lemma loop_block name b l i nb cp em o :
  0 <= b < 65536 -> v6_loop name (format_x b ++ l) i (V6 nb cp 0 em o) = v6_loop name l (i + length (format_x b)) (V6 nb cp b false o).
Proof.
  intros Hb. unfold format_x. set (n := if b <? 16 then _ else _).
  assert (Hn : b < 16 ^ Z.of_nat n /\ (n =? 0)%nat = false) by (unfold n; repeat case_match; cbn; lia).
  rewrite loop_hex by (cbn [block]; lia). cbn [block num_blocks compress_pos empty out]. destruct Hn as [_ ->]. rewrite andb_false_r. f_equal.
  f_equal. unfold format_x. assert (forall n z, length (hex_digits n z) = n) as H by (intros m; induction m; intros; cbn; rewrite ?length_app, ?IHm; cbn; lia).
  now rewrite H.
Qed.

(** The first digit of a block is no punctuation. *)
Lemma format_x_peek b l : 0 <= b < 65536 -> format_x b ++ l <> [] /\ peek (format_x b ++ l) <> 58.
Proof.
  intros Hb. assert (Hd : forall z, 0 <= z -> hex_digit (z mod 16) <> 58) by (intros z _; apply hex_digit_plain, Z.mod_pos_bound; lia).
  unfold format_x. repeat case_match; cbn [hex_digits app peek]; (split; [done|]); apply Hd; repeat apply Z.div_pos; lia.
Qed.

(** Blocks with colons between them. *)
Fixpoint joined (bs : list Z) (last : Z) : list Z :=
  match bs with
  | [] => format_x last
  | b :: bs => format_x b ++ 58 :: joined bs last
  end.

Definition blocks_ok (bs : list Z) : Prop := Forall (fun b => 0 <= b < 65536) bs.

Lemma be16_block b : 0 <= b < 65536 -> [Z.shiftr b 8; Z.land b 0xFF] = be16 b.
Proof.
  intros Hb. unfold be16. rewrite Z.shiftr_div_pow2 by lia. change 0xFF with (Z.ones 8). rewrite Z.land_ones by lia. change (2 ^ 8) with 256.
  now rewrite (Z.mod_small (b / 256)) by (split; [apply Z.div_pos; lia|apply Z.div_lt_upper_bound; lia]).
Qed.

Lemma put_block_at P t nb cp b em :
  0 <= b < 65536 -> length P = (2 * nb)%nat -> (nb < 8)%nat ->
  put_block (V6 (Z.of_nat nb) cp b em (P ++ t)) = Some (V6 (Z.of_nat (nb + 1)) cp 0 true (P ++ be16 b ++ drop 2 t)).
Proof.
  intros Hb HP Hnb. unfold put_block. cbn [num_blocks block out compress_pos]. rewrite be16_block by done.
  rewrite store_at by (cbn; lia). do 2 f_equal. lia.
Qed.

Lemma joined_peek bs last l : blocks_ok (bs ++ [last]) -> joined bs last ++ l <> [] /\ peek (joined bs last ++ l) <> 58.
Proof.
  intros H. destruct bs as [|b bs]; cbn [joined].
  - apply format_x_peek. now inversion H.
  - rewrite <- app_assoc. apply format_x_peek. apply Forall_cons in H as [H _]. exact H.
Qed.

Lemma loop_joined name bs : forall last l i nb cp em P t,
  blocks_ok (bs ++ [last]) -> length P = (2 * nb)%nat -> (nb + length bs < 8)%nat ->
  exists i', (i < i')%nat /\
  v6_loop name (joined bs last ++ l) i (V6 (Z.of_nat nb) cp 0 em (P ++ t)) =
  v6_loop name l i' (V6 (Z.of_nat (nb + length bs)) cp last false (P ++ flat bs ++ drop (2 * length bs) t)).
Proof.
  induction bs as [|b bs IH]; intros last l i nb cp em P t Hok HP Hnb; cbn [joined].
  - assert (Hb : 0 <= last < 65536) by now inversion Hok. exists (i + length (format_x last))%nat. pose proof (format_x_length last). split; [lia|].
    rewrite loop_block by done. cbn [length flat map concat app Nat.mul]. now rewrite Nat.add_0_r.
  - apply Forall_cons in Hok as [Hb Hok]. rewrite <- app_assoc, loop_block by done. cbn [app length] in *. pose proof (format_x_length b) as Hl.
    cbn [v6_loop]. replace (58 =? 46) with false by done. replace (58 =? 58) with true by done. cbv zeta.
    destruct (joined_peek bs last l Hok) as [Hne Hpk]. rewrite (proj2 (Z.eqb_neq _ _) Hpk), andb_false_r.
    replace (0 <? i + length (format_x b))%nat with true by (symmetry; apply Nat.ltb_lt; lia). cbn [empty num_blocks orb].
    replace (Z.of_nat nb =? 7) with false by lia. rewrite put_block_at by lia.
    destruct (IH last l (i + length (format_x b) + 1)%nat (nb + 1)%nat cp true (P ++ be16 b) (drop 2 t)) as (i' & Hi' & E);
      [done|rewrite length_app, HP; cbn; lia|lia|].
    exists i'. split; [lia|]. rewrite <- app_assoc in E. rewrite E. f_equal. rewrite <- !app_assoc, drop_drop. unfold flat. cbn [map concat].
    rewrite <- app_assoc. f_equal; [lia|]. do 4 f_equal. lia.
Qed.

(** ** The longest run of zeros *)

Definition zero_at (addr : list Z) (i : nat) : Prop := nth (2 * i) addr 0 = 0 /\ nth (2 * i + 1) addr 0 = 0.

Record run_ok (addr : list Z) (n : nat) (r : run) : Prop := RunOk {
  ro_current : (current_start r + current_len r = n)%nat;
  ro_current_zero : forall i, (current_start r <= i < n)%nat -> zero_at addr i;
  ro_largest : (largest_start r + largest_len r <= n)%nat;
  ro_largest_zero : forall i, (largest_start r <= i < largest_start r + largest_len r)%nat -> zero_at addr i;
}.

Lemma run_step_ok addr n r : run_ok addr n r -> run_ok addr (S n) (zero_run_step addr r n).
Proof.
  intros [H1 H2 H3 H4]. unfold zero_run_step. destruct (_ && _) eqn:E.
  - apply andb_true_iff in E as [E1%Z.eqb_eq E2%Z.eqb_eq].
    assert (Hz : forall i, (current_start r <= i < S n)%nat -> zero_at addr i)
      by (intros i Hi; destruct (decide (i = n)) as [->|]; [done|apply H2; lia]).
    destruct (_ <? _)%nat; split; cbn; auto; try lia. intros i Hi. apply Hz. lia.
  - split; cbn; auto; lia.
Qed.

Lemma largest_run_ok addr : run_ok addr 8 (largest_run addr).
Proof.
  assert (H : forall n, run_ok addr n (foldl (zero_run_step addr) (Run 0 0 0 0) (seq 0 n))).
  { induction n as [|n IH]; [split; cbn; auto; lia|]. rewrite seq_S, foldl_app. now apply run_step_ok. }
  apply (H 8%nat).
Qed.

(** ** Printing as joined blocks *)

Definition blocks_in (addr : list Z) (l : list nat) : list Z := map (block_at addr) l.

Lemma lor_bytes hi lo : is_byte hi -> is_byte lo -> Z.lor (Z.shiftl hi 8) lo = hi * 256 + lo.
Proof.
  unfold is_byte. intros Hh Hl. rewrite <- Z.add_nocarry_lor; [now rewrite Z.shiftl_mul_pow2 by lia|]. apply Z.bits_inj'. intros n Hn.
  rewrite Z.land_spec, Z.bits_0. destruct (Z.ltb_spec n 8).
  - now rewrite Z.shiftl_spec_low by lia.
  - rewrite <- (Z.mod_small lo (2 ^ 8)), Z.mod_pow2_bits_high by lia. apply andb_false_r.
Qed.

Lemma nth_byte l k : bytes l -> is_byte (nth k l 0).
Proof.
  intros Hb. destruct (decide (k < length l)%nat) as [Hk|Hk]; [|rewrite nth_overflow by lia; unfold is_byte; lia].
  unfold bytes in Hb. rewrite Forall_forall in Hb. apply Hb, list_elem_of_In, nth_In, Hk.
Qed.

Lemma block_range addr i : bytes addr -> 0 <= block_at addr i < 65536.
Proof.
  intros Hb. unfold block_at. pose proof (nth_byte addr (2 * i) Hb) as H1. pose proof (nth_byte addr (2 * i + 1) Hb) as H2.
  rewrite lor_bytes by done. unfold is_byte in *. lia.
Qed.

Lemma block_be16 addr i : bytes addr -> be16 (block_at addr i) = [nth (2 * i) addr 0; nth (2 * i + 1) addr 0].
Proof.
  intros Hb. unfold block_at, be16. pose proof (nth_byte addr (2 * i) Hb) as H1. pose proof (nth_byte addr (2 * i + 1) Hb) as H2.
  rewrite lor_bytes by done. unfold is_byte in *. repeat (apply (f_equal2 cons); [Z.to_euclidean_division_equations; lia|]). done.
Qed.

Lemma blocks_of_ok addr l : bytes addr -> blocks_ok (blocks_in addr l).
Proof. intros Hb. unfold blocks_in, blocks_ok. apply Forall_map, Forall_forall. intros i _. now apply block_range. Qed.

(** An address is its blocks. *)
Lemma flat_blocks addr : length addr = 16%nat -> bytes addr -> flat (blocks_in addr (seq 0 8)) = addr.
Proof.
  intros Hl Hb. unfold flat, blocks_in. rewrite map_map. cbn [seq map concat]. rewrite !block_be16 by done.
  do 16 (destruct addr as [|? addr]; [done|]). destruct addr; [reflexivity|done].
Qed.

(** A front part ends in a colon, a rear part begins with one. *)
Lemma front_joined addr l last :
  concat (map (fun i => format_x (block_at addr i) ++ [58]) (l ++ [last])) = joined (blocks_in addr l) (block_at addr last) ++ [58].
Proof.
  induction l as [|i l IH]; cbn; [now rewrite app_nil_r|]. rewrite IH, <- !app_assoc. reflexivity.
Qed.

Lemma rear_joined addr i l :
  exists bs last, blocks_in addr (i :: l) = bs ++ [last] /\
    concat (map (fun i => [58] ++ format_x (block_at addr i)) (i :: l)) = 58 :: joined bs last.
Proof.
  revert i. induction l as [|j l IH]; intros i.
  - exists [], (block_at addr i). cbn. now rewrite app_nil_r.
  - destruct (IH j) as (bs & last & E & E2). exists (block_at addr i :: bs), last. split; [now rewrite <- app_comm_cons, <- E|].
    rewrite map_cons, concat_cons, E2. reflexivity.
Qed.

Lemma plain_joined addr : 
  concat (map (fun i => (if (i =? 0)%nat then [] else [58]) ++ format_x (block_at addr i)) (seq 0 8)) =
  joined (blocks_in addr (seq 0 7)) (block_at addr 7).
Proof. cbn [seq map concat blocks_in joined Nat.eqb app]. rewrite <- ?app_assoc, ?app_nil_r. reflexivity. Qed.

(** ** Reading what was printed *)

Lemma done_full o b e : length o = 16%nat -> ipv4_done (V6 8 (-1) b e o) = V6_Ok o.
Proof.
  intros Hl. unfold ipv4_done. cbn [compress_pos num_blocks out Z.eqb negb andb Pos.eqb]. change (2 * 0) with 0. change (2 * (8 - 0)) with 16.
  change (2 * (8 - (8 - 0))) with 0. change (2 * (8 - (8 - 0) - 0)) with 0. rewrite <- (app_nil_r o) at 1.
  rewrite (fetch_at [] o []) by (cbn; lia). cbn [mbind option_bind].
  rewrite (store_at [] o o) by (cbn; lia). cbn [mbind option_bind app zeros Z.leb Z.compare Z.to_nat repeat].
  rewrite (drop_ge o), app_nil_r by lia. now rewrite (store_at [] [] o) by (cbn; lia).
Qed.

Lemma done_compressed F R t f r b e :
  length F = (2 * f)%nat -> length R = (2 * r)%nat -> length (F ++ R ++ t) = 16%nat ->
  ipv4_done (V6 (Z.of_nat (f + r)) (Z.of_nat f) b e (F ++ R ++ t)) = V6_Ok (F ++ repeat 0 (2 * (8 - f - r)) ++ R).
Proof.
  intros HF HR Hl. rewrite !length_app in Hl. unfold ipv4_done. cbn [compress_pos num_blocks out]. replace (Z.of_nat f =? -1) with false by lia. cbn [andb].
  cbv zeta. rewrite (fetch_at F R t) by lia. cbn [mbind option_bind].
  set (P := take (16 - 2 * r - 2 * f) (R ++ t)). assert (HP : length P = (16 - 2 * r - 2 * f)%nat) by (unfold P; rewrite length_take, length_app; lia).
  replace (F ++ R ++ t) with ((F ++ P) ++ drop (16 - 2 * r - 2 * f) (R ++ t)) by (unfold P; now rewrite <- app_assoc, take_drop).
  rewrite store_at by (rewrite length_app; lia). cbn [mbind option_bind].
  rewrite (drop_ge (drop _ _)) by (rewrite length_drop, length_app; lia). rewrite app_nil_r, <- app_assoc.
  unfold zeros. rewrite (proj2 (Z.leb_le _ _)) by lia. cbn [mbind option_bind].
  replace (Z.to_nat (2 * (8 - (Z.of_nat (f + r) - Z.of_nat f) - Z.of_nat f))) with (2 * (8 - f - r))%nat by lia.
  rewrite store_at by (rewrite ?repeat_length; lia). do 3 f_equal. rewrite repeat_length, drop_app, drop_ge by lia. cbn [app].
  replace (_ - _)%nat with 0%nat by lia. done.
Qed.

(** A list of blocks with colons between them, which may be empty. *)
Definition text (bs : list Z) : list Z := match bs with [] => [] | b :: bs => joined (removelast (b :: bs)) (List.last bs b) end.

Lemma text_snoc bs last : text (bs ++ [last]) = joined bs last.
Proof.
  destruct bs as [|b bs]; [done|]. cbn [app text]. change (b :: bs ++ [last]) with ((b :: bs) ++ [last]). rewrite removelast_last.
  now rewrite List.last_last.
Qed.

Lemma read_front name bs l old :
  blocks_ok bs -> (length bs <= 7)%nat -> length old = 16%nat ->
  exists i, v6_loop name (text bs ++ 58 :: 58 :: l) 0 (V6 0 (-1) 0 true old) =
    v6_loop name l i (V6 (Z.of_nat (length bs)) (Z.of_nat (length bs)) 0 true (flat bs ++ drop (2 * length bs) old)) /\ (0 < i)%nat.
Proof.
  intros Hok Hl Hold. destruct bs as [|last bs _] using rev_ind.
  - exists 2%nat. split; [reflexivity|lia].
  - rewrite length_app in Hl |- *. cbn [length] in Hl |- *. rewrite text_snoc. assert (Hb : 0 <= last < 65536) by (apply Forall_app in Hok as [_ Hok]; now inversion Hok).
    destruct (loop_joined name bs last (58 :: 58 :: l) 0 0 (-1) true [] old Hok) as (i & Hi & E); [done|lia|].
    cbn [app] in E. change (Z.of_nat 0) with 0 in E. rewrite E. exists (i + 2)%nat. split; [|lia]. cbn [v6_loop]. replace (58 =? 46) with false by done. replace (58 =? 58) with true by done.
    cbv zeta. rewrite bool_decide_true by done. cbn [peek andb]. replace (58 =? 58) with true by done.
    replace (0 <? i)%nat with true by (symmetry; apply Nat.ltb_lt; lia). cbn [empty num_blocks orb Nat.add].
    replace (Z.of_nat (length bs) =? 7) with false by lia. rewrite put_block_at by (rewrite ?flat_length; lia).
    cbn [compress_pos num_blocks block empty out Z.eqb negb]. rewrite flat_app, <- app_assoc, drop_drop.
    change (flat [last]) with (be16 last). do 5 f_equal. lia.
Qed.

Lemma read_rear name F bs i old :
  blocks_ok bs -> blocks_ok F -> (length F + length bs <= 8)%nat -> length old = 16%nat ->
  v6_loop name (text bs) i (V6 (Z.of_nat (length F)) (Z.of_nat (length F)) 0 true (flat F ++ drop (2 * length F) old)) =
  V6_Ok (flat F ++ flat (repeat 0 (8 - length F - length bs)) ++ flat bs).
Proof.
  intros Hok HF Hl Hold. rewrite flat_zeros. destruct bs as [|last bs _] using rev_ind.
  - cbn [text v6_loop]. unfold v6_end. cbn [empty negb num_blocks compress_pos]. rewrite Z.eqb_refl. cbn [negb].
    replace (Z.of_nat (length F)) with (Z.of_nat (length F + 0)) at 1 by lia. change (drop (2 * length F) old) with ([] ++ drop (2 * length F) old).
    rewrite (done_compressed (flat F) [] (drop (2 * length F) old) (length F) 0) by
      (rewrite ?length_app, ?flat_length, ?length_drop; cbn [length] in *; lia).
    cbn [length]. done.
  - rewrite length_app in Hl |- *. cbn [length] in Hl |- *. rewrite text_snoc. assert (Hb : 0 <= last < 65536) by (apply Forall_app in Hok as [_ Hok]; now inversion Hok).
    destruct (loop_joined name bs last [] i (length F) (Z.of_nat (length F)) true (flat F) (drop (2 * length F) old) Hok) as (i' & _ & E);
      [apply flat_length|lia|]. rewrite app_nil_r in E. rewrite E. cbn [v6_loop]. unfold v6_end. cbn [empty negb].
    rewrite app_assoc, put_block_at by (rewrite ?length_app, ?flat_length; lia). rewrite <- !app_assoc, !drop_drop.
    replace (be16 last) with (flat [last]) by (unfold flat; cbn [map concat]; apply app_nil_r). rewrite (app_assoc (flat bs)), <- flat_app.
    rewrite <- Nat.add_assoc, (done_compressed (flat F) (flat (bs ++ [last]))) by
      (rewrite ?length_app, ?flat_length, ?length_app, ?length_drop; cbn [length]; lia).
    done.
Qed.

Lemma front_text addr s :
  concat (map (fun i => format_x (block_at addr i) ++ [58]) (seq 0 s)) ++ (if (s =? 0)%nat then [58] else []) =
  text (blocks_in addr (seq 0 s)) ++ [58].
Proof.
  destruct s as [|s]; [done|]. rewrite seq_S, front_joined. unfold blocks_in. rewrite map_app. cbn [map].
  fold (blocks_in addr (seq 0 s)). rewrite text_snoc. cbn [Nat.eqb]. now rewrite app_nil_r.
Qed.

Lemma rear_text addr s :
  (s <= 8)%nat ->
  concat (map (fun i => [58] ++ format_x (block_at addr i)) (seq s (8 - s))) ++ (if (s =? 8)%nat then [58] else []) =
  58 :: text (blocks_in addr (seq s (8 - s))).
Proof.
  intros Hs. destruct (Nat.eqb_spec s 8) as [->|Hne]; [done|]. replace (8 - s)%nat with (S (7 - s)) by lia. cbn [seq].
  destruct (rear_joined addr s (seq (S s) (7 - s))) as (bs & last & E & ->). now rewrite E, text_snoc, app_nil_r.
Qed.

Lemma zero_blocks addr s n :
  bytes addr -> (forall i, (s <= i < s + n)%nat -> zero_at addr i) -> blocks_in addr (seq s n) = repeat 0 n.
Proof.
  intros Hb. revert s. induction n as [|n IH]; intros s H; [done|]. cbn [seq repeat]. unfold blocks_in in *. cbn [map].
  rewrite IH by (intros i Hi; apply H; lia). f_equal. destruct (H s ltac:(lia)) as [E1 E2]. unfold block_at. now rewrite E1, E2.
Qed.

Lemma read_plain B b old addr :
  blocks_ok B -> 0 <= b < 65536 -> length B = 7%nat -> length old = 16%nat -> addr = flat (B ++ [b]) ->
  v6_loop (joined B b) (joined B b) 0 (V6 0 (-1) 0 true old) = V6_Ok addr.
Proof.
  intros HB Hb Hlen Hold ->. assert (HBb : blocks_ok (B ++ [b])) by (apply Forall_app; split; [done|now apply Forall_singleton]).
  destruct (loop_joined (joined B b) B b [] 0 0 (-1) true [] old HBb) as (i & _ & E); [done|lia|].
  rewrite app_nil_r in E. cbn [app Nat.add] in E. change (Z.of_nat 0) with 0 in E. rewrite E, Hlen. cbn [v6_loop]. unfold v6_end. cbn [empty negb].
  rewrite put_block_at by (rewrite ?flat_length; lia). change (Z.of_nat (7 + 1)) with 8. rewrite drop_drop, drop_ge by lia.
  rewrite app_nil_r, done_full by (rewrite length_app, flat_length; cbn; lia). f_equal. rewrite flat_app. f_equal.
Qed.

Lemma read_printed addr old :
  length addr = 16%nat -> bytes addr -> length old = 16%nat -> ipaddr6_parse_ipv6_addr (ipaddr6_print_addr addr) old = V6_Ok addr.
Proof.
  intros Hl Hb Hold. unfold ipaddr6_parse_ipv6_addr, ipaddr6_print_addr. pose proof (largest_run_ok addr) as Hr.
  generalize dependent (largest_run addr). intros r [_ _ Hmax Hzero]. set (rest := (largest_start r + largest_len r)%nat) in *. cbv zeta.
  destruct (Nat.ltb_spec 1 (largest_len r)) as [Hlen|_].
  - rewrite app_assoc, front_text, rear_text by lia. rewrite <- app_assoc. cbn [app].
    set (F := blocks_in addr (seq 0 (largest_start r))). set (R := blocks_in addr (seq rest (8 - rest))).
    assert (HF : length F = largest_start r) by (unfold F, blocks_in; now rewrite length_map, length_seq).
    assert (HR : length R = (8 - rest)%nat) by (unfold R, blocks_in; now rewrite length_map, length_seq).
    match goal with |- v6_loop ?name _ _ _ = _ => destruct (read_front name F (text R) old) as (i & E & _) end; [now apply blocks_of_ok|lia|done|].
    rewrite E, read_rear by (try apply blocks_of_ok; done || lia). f_equal. rewrite <- (flat_blocks addr) at 1 by done.
    rewrite HF, HR. replace (8 - largest_start r - (8 - rest))%nat with (largest_len r) by lia.
    rewrite <- (zero_blocks addr (largest_start r) (largest_len r)) by done. rewrite <- !flat_app. f_equal. unfold F, R, blocks_in.
    rewrite <- !map_app. f_equal. unfold rest at 1. rewrite <- (seq_app (largest_len r) (8 - rest) (largest_start r)).
    pose proof (seq_app (largest_start r) (largest_len r + (8 - rest)) 0) as Es. cbn [Nat.add] in Es. rewrite <- Es. f_equal. lia.
  - rewrite plain_joined. apply read_plain; [now apply blocks_of_ok|now apply block_range|reflexivity|done|].
    transitivity (flat (blocks_in addr (seq 0 8))); [now rewrite flat_blocks|reflexivity].
Qed.

(** ** Any text *)

Definition array_ok (o : list Z) : Prop := length o = 16%nat /\ bytes o.

(** A result that is in bounds. *)
Definition v6_fine (r : v6_result) : Prop :=
  match r with V6_Ok o => array_ok o | V6_Refused => True | V6_OutOfBounds => False end.

Lemma v6_store_ok pos l o :
  array_ok o -> bytes l -> 0 <= pos -> pos + Z.of_nat (length l) <= 16 -> exists o', store pos l o = Some o' /\ array_ok o'.
Proof.
  intros [Ho Hb] Hl Hp Hs. unfold store. rewrite !(proj2 (Z.leb_le _ _)) by lia. eexists. split; [reflexivity|]. split.
  - rewrite !length_app, length_take, length_drop. lia.
  - unfold bytes in *. apply Forall_app. split; [now apply Forall_take|]. apply Forall_app. split; [done|now apply Forall_drop].
Qed.

Record v6_ok (name : list Z) (i : nat) (st : v6_state) : Prop := V6Ok {
  vo_out : array_ok (out st);
  vo_blocks : 0 <= num_blocks st <= 7;
  vo_compress : compress_pos st = -1 \/ 0 <= compress_pos st <= num_blocks st;
  vo_block : 0 <= block st <= 0xFFFF;
  vo_colon : num_blocks st = 0 /\ compress_pos st = -1 \/ exists j, (j < i)%nat /\ nth j name 0 = 58;
}.

Lemma done_fine nb cp b e o : array_ok o -> 0 <= nb <= 8 -> cp = -1 \/ 0 <= cp <= nb -> v6_fine (ipv4_done (V6 nb cp b e o)).
Proof.
  intros Ho Hnb Hcp. unfold ipv4_done. cbn [compress_pos num_blocks out]. destruct ((cp =? -1) && negb (nb =? 8)) eqn:E; [done|].
  set (p := if cp =? -1 then 0 else cp). assert (Hp : 0 <= p <= nb) by (unfold p; destruct (Z.eqb_spec cp (-1)); lia). cbv zeta. unfold fetch.
  rewrite !(proj2 (Z.leb_le _ _)) by lia. cbn [andb mbind option_bind]. set (rear := take _ _).
  assert (Hr : bytes rear /\ Z.of_nat (length rear) = 2 * (nb - p)).
  { destruct Ho as [Hl Hb]. split; [now apply Forall_take, Forall_drop|]. unfold rear. rewrite length_take, length_drop. lia. }
  destruct (v6_store_ok (2 * (8 - (nb - p))) rear o Ho) as (o1 & -> & Ho1); [apply Hr|lia|lia|]. cbn [mbind option_bind]. unfold zeros.
  rewrite (proj2 (Z.leb_le _ _)) by lia. cbn [mbind option_bind]. destruct (v6_store_ok (2 * p) (repeat 0 (Z.to_nat (2 * (8 - (nb - p) - p)))) o1 Ho1) as (o2 & -> & Ho2).
  - apply Forall_forall. intros x ->%list_elem_of_In%repeat_spec. unfold is_byte. lia.
  - lia.
  - rewrite repeat_length. lia.
  - exact Ho2.
Qed.

Lemma put_block_fine name i st : v6_ok name i st -> exists o, put_block st = Some (V6 (num_blocks st + 1) (compress_pos st) 0 true o) /\ array_ok o.
Proof.
  intros [H1 H2 H3 H4 H5]. unfold put_block. destruct (v6_store_ok (2 * num_blocks st) [Z.shiftr (block st) 8; Z.land (block st) 0xFF] (out st) H1) as (o & -> & Ho).
  - rewrite be16_block by lia. apply be16_bytes.
  - lia.
  - cbn. lia.
  - eauto.
Qed.

Lemma back_up_some name i j : (j < i)%nat -> nth j name 0 = 58 -> exists k, back_up name i = Some k.
Proof.
  revert j. induction i as [|i IH]; intros j Hj E; [lia|]. cbn [back_up]. destruct (Z.eqb_spec (nth i name 0) 58) as [|Hne]; [eauto|].
  apply (IH j); [|done]. destruct (decide (j = i)) as [->|]; [done|lia].
Qed.

Lemma ipv4_loop_bytes l : forall bs b e r,
  bytes bs -> is_byte b -> (length bs <= 3)%nat -> ipv4_loop l bs b e = Some r -> bytes r /\ length r = 4%nat.
Proof.
  induction l as [|c l IH]; intros bs b e r Hbs Hb Hl; cbn [ipv4_loop].
  - destruct (negb (Z.of_nat (length bs) =? 3) || e) eqn:E; [done|]. intros [= <-]. apply orb_false_iff in E as [E _].
    split; [apply Forall_app; split; [done|now apply Forall_singleton]|]. rewrite length_app. cbn. lia.
  - destruct (c =? 46).
    + destruct (e || (Z.of_nat (length bs) =? 3)) eqn:E; [done|]. apply orb_false_iff in E as [_ E].
      apply IH; [apply Forall_app; split; [done|now apply Forall_singleton]|unfold is_byte; lia|rewrite length_app; cbn; lia].
    + destruct (_ && _); [done|]. destruct (Z.ltb_spec (decode_decimal_digit c) 0) as [|H0]; [done|].
      destruct (Z.gtb_spec b (255 / 10)) as [|H1]; [done|]. destruct (Z.gtb_spec (decode_decimal_digit c) (255 - b * 10)) as [|H2]; [done|].
      apply IH; [done| |done]. unfold is_byte in *. lia.
Qed.

Lemma ending_fine name i st : v6_ok name i st -> v6_fine (ipv4_ending name i st).
Proof.
  intros Hok. destruct Hok as [H1 H2 H3 H4 H5]. unfold ipv4_ending. destruct (_ || _) eqn:E; [done|]. apply orb_false_iff in E as [_ E].
  destruct H5 as [[E1 E2]|(j & Hj & Ej)]; [now rewrite E1, E2 in E|]. destruct (back_up_some name i j Hj Ej) as [k ->].
  destruct (ipv4_loop (drop k name) [] 0 true) as [bs|] eqn:El; [|done].
  destruct (ipv4_loop_bytes (drop k name) [] 0 true bs) as [Hbs Hlen]; [constructor|unfold is_byte; lia|cbn; lia|done|].
  destruct (Z.ltb_spec (8 - num_blocks st) 2) as [|Hn]; [done|].
  destruct (v6_store_ok (2 * num_blocks st) bs (out st) H1 Hbs) as (o & -> & Ho); [lia|lia|]. apply done_fine; [done|lia|lia].
Qed.

Lemma end_fine name i st : v6_ok name i st -> v6_fine (v6_end st).
Proof.
  intros Hok. unfold v6_end. destruct (empty st); cbn [negb].
  - destruct (num_blocks st =? compress_pos st); [|done]. cbn [negb]. destruct st, Hok; cbn in *. apply done_fine; [done|lia|lia].
  - destruct (put_block_fine name i st Hok) as (o & -> & Ho). destruct Hok. apply done_fine; [done|lia|lia].
Qed.

Lemma loop_fine name : forall n l i st, (length l <= n)%nat -> l = drop i name -> v6_ok name i st -> v6_fine (v6_loop name l i st).
Proof.
  induction n as [|n IH]; intros l i st Hn El Hok; (destruct l as [|c l]; [now apply (end_fine name i)|]); cbn [length] in Hn; [lia|].
  assert (Ec : nth i name 0 = c /\ l = drop (i + 1) name).
  { replace (drop (i + 1) name) with (drop 1 (drop i name)) by (rewrite drop_drop; reflexivity). rewrite <- El. split; [|done].
    rewrite <- (take_drop i name), <- El, app_nth2; rewrite length_take_le; try (rewrite Nat.sub_diag; done); try lia;
      (destruct (decide (i < length name)%nat); [lia|rewrite drop_ge in El by lia; done]). }
  destruct Ec as [Ec El']. cbn [v6_loop]. destruct (c =? 46) eqn:E46; [now apply ending_fine|].
  destruct (Z.eqb_spec c 58) as [E58|N58].
  - cbv zeta. assert (Hgo : forall st', array_ok (out st') -> 0 <= num_blocks st' <= 7 -> compress_pos st' = -1 \/ 0 <= compress_pos st' <= num_blocks st' ->
      0 <= block st' <= 0xFFFF ->
      v6_fine (if bool_decide (l <> []) && (peek l =? 58) then
        if negb (compress_pos st' =? -1) then V6_Refused
        else match l with [] => V6_OutOfBounds | _ :: l => v6_loop name l (i + 2) (V6 (num_blocks st') (num_blocks st') (block st') (empty st') (out st')) end
        else v6_loop name l (i + 1) st')).
    { intros st' G1 G2 G3 G4. assert (Hcolon : exists j, (j < i + 1)%nat /\ nth j name 0 = 58) by (exists i; split; [lia|congruence]).
      destruct (bool_decide (l <> []) && (peek l =? 58)) eqn:Ed.
      - destruct (compress_pos st' =? -1); [|done]. cbn [negb]. destruct l as [|d l]; [done|]. cbn [length] in Hn. apply IH; [lia| |].
        + replace (i + 2)%nat with (i + 1 + 1)%nat by lia. rewrite <- drop_drop, <- El'. reflexivity.
        + split; cbn; auto; [lia|]. right. destruct Hcolon as (j & Hj & Ej). exists j. split; [lia|done].
      - apply IH; [lia|done|]. split; auto. }
    destruct (0 <? i)%nat.
    + destruct (empty st || (num_blocks st =? 7)) eqn:E; [done|]. destruct (put_block_fine name i st Hok) as (o & -> & Ho).
      apply orb_false_iff in E as [_ E]. destruct Hok. apply Hgo; cbn; auto; lia.
    + destruct (negb _) eqn:En; [done|]. destruct Hok. now apply Hgo.
  - destruct (Z.ltb_spec (decode_hex_digit c) 0) as [|H0]; [done|]. destruct (Z.gtb_spec (block st) (0xFFFF / 16)) as [|H1]; [done|].
    destruct (Z.gtb_spec (decode_hex_digit c) (0xFFFF - block st * 16)) as [|H2]; [done|]. destruct Hok as [G1 G2 G3 G4 G5].
    apply IH; [lia|done|]. split; cbn; auto; [lia|]. destruct G5 as [|(j & Hj & Ej)]; [now left|right]. exists j. split; [lia|done].
Qed.

Lemma concat_length {A} (f : A -> list Z) k l : (forall i, length (f i) <= k)%nat -> (length (concat (map f l)) <= k * length l)%nat.
Proof. intros H. induction l as [|i l IH]; cbn; [lia|]. rewrite length_app. specialize (H i). lia. Qed.

Lemma print_length addr : (length (ipaddr6_print_addr addr) <= 40)%nat.
Proof.
  unfold ipaddr6_print_addr. pose proof (largest_run_ok addr) as Hr. generalize dependent (largest_run addr). intros r [_ _ Hmax _]. cbv zeta.
  destruct (Nat.ltb_spec 1 (largest_len r)) as [Hl|_].
  - rewrite !length_app. pose proof (concat_length (fun i => format_x (block_at addr i) ++ [58]) 5 (seq 0 (largest_start r))) as H1.
    pose proof (concat_length (fun i => [58] ++ format_x (block_at addr i)) 5 (seq (largest_start r + largest_len r) (8 - (largest_start r + largest_len r)))) as H2.
    rewrite length_seq in H1, H2. specialize (H1 ltac:(intros i; rewrite length_app; pose proof (format_x_length (block_at addr i)); cbn; lia)).
    specialize (H2 ltac:(intros i; rewrite length_app; pose proof (format_x_length (block_at addr i)); cbn; lia)).
    repeat case_match; cbn [length]; lia.
  - apply (concat_length _ 5 (seq 0 8)). intros i. rewrite length_app. pose proof (format_x_length (block_at addr i)). case_match; cbn; lia.
Qed.

(** C34. IPv6 addresses as text: an address that is printed is read back, with the longest run of zero blocks
    left out, whatever the array held before; the text fits into the buffer of its callers (44 bytes); and on any text, well formed
    or not, the parser stays inside of the array and of the text and gives sixteen bytes or refuses. *)
Theorem ipv6_text_roundtrip :
  (forall addr old, length addr = 16%nat -> bytes addr -> length old = 16%nat ->
     ipaddr6_parse_ipv6_addr (ipaddr6_print_addr addr) old = V6_Ok addr) /\
  (forall addr, (length (ipaddr6_print_addr addr) < 44)%nat) /\
  (forall name old, length old = 16%nat -> bytes old ->
     match ipaddr6_parse_ipv6_addr name old with
     | V6_Ok addr => length addr = 16%nat /\ bytes addr
     | V6_Refused => True
     | V6_OutOfBounds => False
     end).
Proof.
  split; [exact read_printed|]. split; [intros addr; pose proof (print_length addr); lia|]. intros name old Hl Hb. apply (loop_fine name (length name)); [lia|done|].
  split; cbn; auto; [now split|lia|lia].
Qed.

Lemma ipv6_text_roundtrip_witness :
  ipaddr6_print_addr [32; 1; 13; 184; 0; 0; 0; 0; 0; 0; 0; 0; 0; 1; 0; 255] = B# "2001:db8::1:ff" /\
  ipaddr6_parse_ipv6_addr (ipaddr6_print_addr [32; 1; 13; 184; 0; 0; 0; 0; 0; 0; 0; 0; 0; 1; 0; 255]) (repeat 7 16) =
    V6_Ok [32; 1; 13; 184; 0; 0; 0; 0; 0; 0; 0; 0; 0; 1; 0; 255].
Proof.
  split; [vm_compute; reflexivity|]. apply (proj1 ipv6_text_roundtrip); [reflexivity| |reflexivity].
  repeat (apply Forall_cons; split; [unfold is_byte; lia|]). apply Forall_nil. trivial.
Defined.
