(* ===== verification/TunOptions.v ===== *)
(** * The command line of tun2socks ([badvpn/tun2socks/tun2socks.c])

    [parse_arguments] reads the options, as the build for Android has them; [process_arguments] resolves the addresses
    in them and collects the ways to authenticate. Resolving names and reading the password file
    are calls of the system, and arguments here. *)

From S2P Require Import Prelude CLib BAddr BPending BSocksClient IpText.

Open Scope Z_scope.

Module TunOptions.

Import IpText.

Inductive logger_t := LOGGER_STDOUT | LOGGER_SYSLOG.

(** ** Log levels and channels *)

Definition BLOG_DEBUG : Z := 5.

Definition parse_loglevel (str : list Z) : Z :=
  if bool_decide (str = B# "none") then 0
  else if bool_decide (str = B# "error") then 1
  else if bool_decide (str = B# "warning") then 2
  else if bool_decide (str = B# "notice") then 3
  else if bool_decide (str = B# "info") then 4
  else if bool_decide (str = B# "debug") then 5
  else
    let (res, endptr) := strtol10 str in
    if negb (bool_decide (str = [])) && bool_decide (endptr = []) && (0 <=? res) && (res <=? BLOG_DEBUG) then res else -1.

Definition blog_channel_list : list (list Z) :=
  [B# "server"; B# "client"; B# "flooder"; B# "tun2socks"; B# "ncd"; B# "ncd_var"; B# "ncd_list"; B# "ncd_depend"; B# "ncd_multidepend"; 
   B# "ncd_dynamic_depend"; B# "ncd_concat"; B# "ncd_if"; B# "ncd_strcmp"; B# "ncd_regex_match"; B# "ncd_logical"; B# "ncd_sleep"; B# "ncd_print"; 
   B# "ncd_blocker"; B# "ncd_run"; B# "ncd_runonce"; B# "ncd_daemon"; B# "ncd_spawn"; B# "ncd_imperative"; B# "ncd_ref"; B# "ncd_index"; B# "ncd_alias"; 
   B# "ncd_process_manager"; B# "ncd_ondemand"; B# "ncd_foreach"; B# "ncd_choose"; B# "ncd_net_backend_waitdevice"; B# "ncd_net_backend_waitlink"; 
   B# "ncd_net_backend_badvpn"; B# "ncd_net_backend_wpa_supplicant"; B# "ncd_net_backend_rfkill"; B# "ncd_net_up"; B# "ncd_net_dns"; B# "ncd_net_iptables";
   B# "ncd_net_ipv4_addr"; B# "ncd_net_ipv4_route"; B# "ncd_net_ipv4_dhcp"; B# "ncd_net_ipv4_arp_probe"; B# "ncd_net_watch_interfaces"; 
   B# "ncd_sys_watch_input"; B# "ncd_sys_watch_usb"; B# "ncd_sys_evdev"; B# "ncd_sys_watch_directory"; B# "StreamPeerIO"; B# "DatagramPeerIO"; 
   B# "BReactor"; B# "BSignal"; B# "FragmentProtoAssembler"; B# "BPredicate"; B# "ServerConnection"; B# "Listener"; B# "DataProto"; B# "FrameDecider"; 
   B# "BSocksClient"; B# "BDHCPClientCore"; B# "BDHCPClient"; B# "NCDIfConfig"; B# "BUnixSignal"; B# "BProcess"; B# "PRStreamSink"; B# "PRStreamSource"; 
   B# "PacketProtoDecoder"; B# "DPRelay"; B# "BThreadWork"; B# "DPReceive"; B# "BInputProcess"; B# "NCDUdevMonitorParser"; B# "NCDUdevMonitor"; 
   B# "NCDUdevCache"; B# "NCDUdevManager"; B# "BTime"; B# "BEncryption"; B# "SPProtoDecoder"; B# "LineBuffer"; B# "BTap"; B# "lwip"; 
   B# "NCDConfigTokenizer"; B# "NCDConfigParser"; B# "NCDValParser"; B# "nsskey"; B# "addr"; B# "PasswordListener"; B# "NCDInterfaceMonitor"; 
   B# "NCDRfkillMonitor"; B# "udpgw"; B# "UdpGwClient"; B# "SocksUdpGwClient"; B# "BNetwork"; B# "BConnection"; B# "BSSLConnection"; B# "BDatagram"; 
   B# "PeerChat"; B# "BArpProbe"; B# "NCDModuleIndex"; B# "NCDModuleProcess"; B# "NCDValGenerator"; B# "ncd_from_string"; B# "ncd_to_string"; 
   B# "ncd_value"; B# "ncd_try"; B# "ncd_sys_request_server"; B# "NCDRequest"; B# "ncd_net_ipv6_wait_dynamic_addr"; B# "NCDRequestClient"; B# "ncd_request";
   B# "ncd_sys_request_client"; B# "ncd_exit"; B# "ncd_getargs"; B# "ncd_arithmetic"; B# "ncd_parse"; B# "ncd_valuemetic"; B# "ncd_file"; 
   B# "ncd_netmask"; B# "ncd_implode"; B# "ncd_call2"; B# "ncd_assert"; B# "ncd_reboot"; B# "ncd_explode"; B# "NCDPlaceholderDb"; B# "NCDVal"; 
   B# "ncd_net_ipv6_addr"; B# "ncd_net_ipv6_route"; B# "ncd_net_ipv4_addr_in_network"; B# "ncd_net_ipv6_addr_in_network"; B# "dostest_server"; 
   B# "dostest_attacker"; B# "ncd_timer"; B# "ncd_file_open"; B# "ncd_backtrack"; B# "ncd_socket"; B# "ncd_depend_scope"; B# "ncd_substr"; 
   B# "ncd_sys_start_process"; B# "NCDBuildProgram"; B# "ncd_log"; B# "ncd_log_msg"; B# "ncd_buffer"; B# "ncd_getenv"; B# "BThreadSignal"; 
   B# "BLockReactor"; B# "ncd_load_module"; B# "ncd_basic_functions"; B# "ncd_objref"].

Definition BLOG_NUM_CHANNELS : nat := 147.

Fixpoint channel_from (l : list (list Z)) (name : list Z) (i : Z) : Z :=
  match l with
  | [] => -1
  | x :: l => if bool_decide (x = name) then i else channel_from l name (i + 1)
  end.

Definition BLogGlobal_GetChannelByName (name : list Z) : Z := channel_from blog_channel_list name 0.

(** ** Options *)

Record options := Options {
  help : bool;
  version : bool;
  logger : logger_t;
  logger_syslog_facility : list Z;
  logger_syslog_ident : list Z;
  loglevel : Z;
  loglevels : list Z;
  netif_ipaddr : option (list Z);
  netif_netmask : option (list Z);
  netif_ip6addr : option (list Z);
  socks_server_addr : option (list Z);
  username : option (list Z);
  password : option (list Z);
  password_file : option (list Z);
  append_source_to_username : bool;
  udpgw_remote_server_addr : option (list Z);
  udpgw_max_connections : Z;
  udpgw_connection_buffer_size : Z;
  udpgw_transparent_dns : bool;
  tun_mtu : Z;
  fake_proc : bool;
  sock_path : option (list Z);
  pid : option (list Z);
  opt_dnsgw : option (list Z);
}.

Definition set_help (x : bool) (o : options) : options :=
  Options x (version o) (logger o) (logger_syslog_facility o) (logger_syslog_ident o) (loglevel o) (loglevels o) (netif_ipaddr o)
    (netif_netmask o) (netif_ip6addr o) (socks_server_addr o) (username o) (password o) (password_file o) (append_source_to_username o)
    (udpgw_remote_server_addr o) (udpgw_max_connections o) (udpgw_connection_buffer_size o) (udpgw_transparent_dns o) (tun_mtu o) (fake_proc o) (sock_path o) (pid o) (opt_dnsgw o).
Definition set_version (x : bool) (o : options) : options :=
  Options (help o) x (logger o) (logger_syslog_facility o) (logger_syslog_ident o) (loglevel o) (loglevels o) (netif_ipaddr o)
    (netif_netmask o) (netif_ip6addr o) (socks_server_addr o) (username o) (password o) (password_file o) (append_source_to_username o)
    (udpgw_remote_server_addr o) (udpgw_max_connections o) (udpgw_connection_buffer_size o) (udpgw_transparent_dns o) (tun_mtu o) (fake_proc o) (sock_path o) (pid o) (opt_dnsgw o).
Definition set_logger (x : logger_t) (o : options) : options :=
  Options (help o) (version o) x (logger_syslog_facility o) (logger_syslog_ident o) (loglevel o) (loglevels o) (netif_ipaddr o)
    (netif_netmask o) (netif_ip6addr o) (socks_server_addr o) (username o) (password o) (password_file o) (append_source_to_username o)
    (udpgw_remote_server_addr o) (udpgw_max_connections o) (udpgw_connection_buffer_size o) (udpgw_transparent_dns o) (tun_mtu o) (fake_proc o) (sock_path o) (pid o) (opt_dnsgw o).
Definition set_logger_syslog_facility (x : list Z) (o : options) : options :=
  Options (help o) (version o) (logger o) x (logger_syslog_ident o) (loglevel o) (loglevels o) (netif_ipaddr o) (netif_netmask o)
    (netif_ip6addr o) (socks_server_addr o) (username o) (password o) (password_file o) (append_source_to_username o)
    (udpgw_remote_server_addr o) (udpgw_max_connections o) (udpgw_connection_buffer_size o) (udpgw_transparent_dns o) (tun_mtu o) (fake_proc o) (sock_path o) (pid o) (opt_dnsgw o).
Definition set_logger_syslog_ident (x : list Z) (o : options) : options :=
  Options (help o) (version o) (logger o) (logger_syslog_facility o) x (loglevel o) (loglevels o) (netif_ipaddr o) (netif_netmask o)
    (netif_ip6addr o) (socks_server_addr o) (username o) (password o) (password_file o) (append_source_to_username o)
    (udpgw_remote_server_addr o) (udpgw_max_connections o) (udpgw_connection_buffer_size o) (udpgw_transparent_dns o) (tun_mtu o) (fake_proc o) (sock_path o) (pid o) (opt_dnsgw o).
Definition set_loglevel (x : Z) (o : options) : options :=
  Options (help o) (version o) (logger o) (logger_syslog_facility o) (logger_syslog_ident o) x (loglevels o) (netif_ipaddr o)
    (netif_netmask o) (netif_ip6addr o) (socks_server_addr o) (username o) (password o) (password_file o) (append_source_to_username o)
    (udpgw_remote_server_addr o) (udpgw_max_connections o) (udpgw_connection_buffer_size o) (udpgw_transparent_dns o) (tun_mtu o) (fake_proc o) (sock_path o) (pid o) (opt_dnsgw o).
Definition set_loglevels (x : list Z) (o : options) : options :=
  Options (help o) (version o) (logger o) (logger_syslog_facility o) (logger_syslog_ident o) (loglevel o) x (netif_ipaddr o)
    (netif_netmask o) (netif_ip6addr o) (socks_server_addr o) (username o) (password o) (password_file o) (append_source_to_username o)
    (udpgw_remote_server_addr o) (udpgw_max_connections o) (udpgw_connection_buffer_size o) (udpgw_transparent_dns o) (tun_mtu o) (fake_proc o) (sock_path o) (pid o) (opt_dnsgw o).
Definition set_netif_ipaddr (x : option (list Z)) (o : options) : options :=
  Options (help o) (version o) (logger o) (logger_syslog_facility o) (logger_syslog_ident o) (loglevel o) (loglevels o) x (netif_netmask o)
    (netif_ip6addr o) (socks_server_addr o) (username o) (password o) (password_file o) (append_source_to_username o)
    (udpgw_remote_server_addr o) (udpgw_max_connections o) (udpgw_connection_buffer_size o) (udpgw_transparent_dns o) (tun_mtu o) (fake_proc o) (sock_path o) (pid o) (opt_dnsgw o).
Definition set_netif_netmask (x : option (list Z)) (o : options) : options :=
  Options (help o) (version o) (logger o) (logger_syslog_facility o) (logger_syslog_ident o) (loglevel o) (loglevels o) (netif_ipaddr o) x
    (netif_ip6addr o) (socks_server_addr o) (username o) (password o) (password_file o) (append_source_to_username o)
    (udpgw_remote_server_addr o) (udpgw_max_connections o) (udpgw_connection_buffer_size o) (udpgw_transparent_dns o) (tun_mtu o) (fake_proc o) (sock_path o) (pid o) (opt_dnsgw o).
Definition set_netif_ip6addr (x : option (list Z)) (o : options) : options :=
  Options (help o) (version o) (logger o) (logger_syslog_facility o) (logger_syslog_ident o) (loglevel o) (loglevels o) (netif_ipaddr o)
    (netif_netmask o) x (socks_server_addr o) (username o) (password o) (password_file o) (append_source_to_username o)
    (udpgw_remote_server_addr o) (udpgw_max_connections o) (udpgw_connection_buffer_size o) (udpgw_transparent_dns o) (tun_mtu o) (fake_proc o) (sock_path o) (pid o) (opt_dnsgw o).
Definition set_socks_server_addr (x : option (list Z)) (o : options) : options :=
  Options (help o) (version o) (logger o) (logger_syslog_facility o) (logger_syslog_ident o) (loglevel o) (loglevels o) (netif_ipaddr o)
    (netif_netmask o) (netif_ip6addr o) x (username o) (password o) (password_file o) (append_source_to_username o)
    (udpgw_remote_server_addr o) (udpgw_max_connections o) (udpgw_connection_buffer_size o) (udpgw_transparent_dns o) (tun_mtu o) (fake_proc o) (sock_path o) (pid o) (opt_dnsgw o).
Definition set_username (x : option (list Z)) (o : options) : options :=
  Options (help o) (version o) (logger o) (logger_syslog_facility o) (logger_syslog_ident o) (loglevel o) (loglevels o) (netif_ipaddr o)
    (netif_netmask o) (netif_ip6addr o) (socks_server_addr o) x (password o) (password_file o) (append_source_to_username o)
    (udpgw_remote_server_addr o) (udpgw_max_connections o) (udpgw_connection_buffer_size o) (udpgw_transparent_dns o) (tun_mtu o) (fake_proc o) (sock_path o) (pid o) (opt_dnsgw o).
Definition set_password (x : option (list Z)) (o : options) : options :=
  Options (help o) (version o) (logger o) (logger_syslog_facility o) (logger_syslog_ident o) (loglevel o) (loglevels o) (netif_ipaddr o)
    (netif_netmask o) (netif_ip6addr o) (socks_server_addr o) (username o) x (password_file o) (append_source_to_username o)
    (udpgw_remote_server_addr o) (udpgw_max_connections o) (udpgw_connection_buffer_size o) (udpgw_transparent_dns o) (tun_mtu o) (fake_proc o) (sock_path o) (pid o) (opt_dnsgw o).
Definition set_password_file (x : option (list Z)) (o : options) : options :=
  Options (help o) (version o) (logger o) (logger_syslog_facility o) (logger_syslog_ident o) (loglevel o) (loglevels o) (netif_ipaddr o)
    (netif_netmask o) (netif_ip6addr o) (socks_server_addr o) (username o) (password o) x (append_source_to_username o)
    (udpgw_remote_server_addr o) (udpgw_max_connections o) (udpgw_connection_buffer_size o) (udpgw_transparent_dns o) (tun_mtu o) (fake_proc o) (sock_path o) (pid o) (opt_dnsgw o).
Definition set_append_source_to_username (x : bool) (o : options) : options :=
  Options (help o) (version o) (logger o) (logger_syslog_facility o) (logger_syslog_ident o) (loglevel o) (loglevels o) (netif_ipaddr o)
    (netif_netmask o) (netif_ip6addr o) (socks_server_addr o) (username o) (password o) (password_file o) x (udpgw_remote_server_addr o)
    (udpgw_max_connections o) (udpgw_connection_buffer_size o) (udpgw_transparent_dns o) (tun_mtu o) (fake_proc o) (sock_path o) (pid o) (opt_dnsgw o).
Definition set_udpgw_remote_server_addr (x : option (list Z)) (o : options) : options :=
  Options (help o) (version o) (logger o) (logger_syslog_facility o) (logger_syslog_ident o) (loglevel o) (loglevels o) (netif_ipaddr o)
    (netif_netmask o) (netif_ip6addr o) (socks_server_addr o) (username o) (password o) (password_file o) (append_source_to_username o) x
    (udpgw_max_connections o) (udpgw_connection_buffer_size o) (udpgw_transparent_dns o) (tun_mtu o) (fake_proc o) (sock_path o) (pid o) (opt_dnsgw o).
Definition set_udpgw_max_connections (x : Z) (o : options) : options :=
  Options (help o) (version o) (logger o) (logger_syslog_facility o) (logger_syslog_ident o) (loglevel o) (loglevels o) (netif_ipaddr o)
    (netif_netmask o) (netif_ip6addr o) (socks_server_addr o) (username o) (password o) (password_file o) (append_source_to_username o)
    (udpgw_remote_server_addr o) x (udpgw_connection_buffer_size o) (udpgw_transparent_dns o) (tun_mtu o) (fake_proc o) (sock_path o) (pid o) (opt_dnsgw o).
Definition set_tun_mtu (x : Z) (o : options) : options :=
  Options (help o) (version o) (logger o) (logger_syslog_facility o) (logger_syslog_ident o) (loglevel o) (loglevels o) (netif_ipaddr o)
    (netif_netmask o) (netif_ip6addr o) (socks_server_addr o) (username o) (password o) (password_file o) (append_source_to_username o)
    (udpgw_remote_server_addr o) (udpgw_max_connections o) (udpgw_connection_buffer_size o) (udpgw_transparent_dns o) x (fake_proc o) (sock_path o) (pid o) (opt_dnsgw o).
Definition set_fake_proc (x : bool) (o : options) : options :=
  Options (help o) (version o) (logger o) (logger_syslog_facility o) (logger_syslog_ident o) (loglevel o) (loglevels o) (netif_ipaddr o)
    (netif_netmask o) (netif_ip6addr o) (socks_server_addr o) (username o) (password o) (password_file o) (append_source_to_username o)
    (udpgw_remote_server_addr o) (udpgw_max_connections o) (udpgw_connection_buffer_size o) (udpgw_transparent_dns o) (tun_mtu o) x (sock_path o) (pid o) (opt_dnsgw o).
Definition set_sock_path (x : option (list Z)) (o : options) : options :=
  Options (help o) (version o) (logger o) (logger_syslog_facility o) (logger_syslog_ident o) (loglevel o) (loglevels o) (netif_ipaddr o)
    (netif_netmask o) (netif_ip6addr o) (socks_server_addr o) (username o) (password o) (password_file o) (append_source_to_username o)
    (udpgw_remote_server_addr o) (udpgw_max_connections o) (udpgw_connection_buffer_size o) (udpgw_transparent_dns o) (tun_mtu o) (fake_proc o) x (pid o) (opt_dnsgw o).
Definition set_pid (x : option (list Z)) (o : options) : options :=
  Options (help o) (version o) (logger o) (logger_syslog_facility o) (logger_syslog_ident o) (loglevel o) (loglevels o) (netif_ipaddr o)
    (netif_netmask o) (netif_ip6addr o) (socks_server_addr o) (username o) (password o) (password_file o) (append_source_to_username o)
    (udpgw_remote_server_addr o) (udpgw_max_connections o) (udpgw_connection_buffer_size o) (udpgw_transparent_dns o) (tun_mtu o) (fake_proc o) (sock_path o) x (opt_dnsgw o).
Definition set_opt_dnsgw (x : option (list Z)) (o : options) : options :=
  Options (help o) (version o) (logger o) (logger_syslog_facility o) (logger_syslog_ident o) (loglevel o) (loglevels o) (netif_ipaddr o)
    (netif_netmask o) (netif_ip6addr o) (socks_server_addr o) (username o) (password o) (password_file o) (append_source_to_username o)
    (udpgw_remote_server_addr o) (udpgw_max_connections o) (udpgw_connection_buffer_size o) (udpgw_transparent_dns o) (tun_mtu o) (fake_proc o) (sock_path o) (pid o) x.

Definition DEFAULT_UDPGW_MAX_CONNECTIONS : Z := 256.
Definition DEFAULT_UDPGW_CONNECTION_BUFFER_SIZE : Z := 8.

Definition default_options (argv0 : list Z) : options :=
  Options false false LOGGER_STDOUT (B# "daemon") argv0 (-1) (repeat (-1) BLOG_NUM_CHANNELS) None None None None None None None false None
    DEFAULT_UDPGW_MAX_CONNECTIONS DEFAULT_UDPGW_CONNECTION_BUFFER_SIZE false 1500 false None None None.

Definition atoi (str : list Z) : Z := s32 (strtol10 str).1.

(** One option: [rest] are the arguments after it; the options with it and the arguments it leaves, or nothing. *)
Definition parse_option (arg : list Z) (rest : list (list Z)) (o : options) : option (options * list (list Z)) :=
  let flag o := Some (o, rest) in
  let value (set : list Z -> option options) :=
    match rest with
    | [] => None
    | v :: rest => match set v with Some o => Some (o, rest) | None => None end
    end in
  if bool_decide (arg = B# "--help") then flag (set_help true o)
  else if bool_decide (arg = B# "--version") then flag (set_version true o)
  else if bool_decide (arg = B# "--logger") then
    value (fun v => if bool_decide (v = B# "stdout") then Some (set_logger LOGGER_STDOUT o)
                    else if bool_decide (v = B# "syslog") then Some (set_logger LOGGER_SYSLOG o) else None)
  else if bool_decide (arg = B# "--syslog-facility") then value (fun v => Some (set_logger_syslog_facility v o))
  else if bool_decide (arg = B# "--syslog-ident") then value (fun v => Some (set_logger_syslog_ident v o))
  else if bool_decide (arg = B# "--loglevel") then
    value (fun v => let level := parse_loglevel v in if level <? 0 then None else Some (set_loglevel level o))
  else if bool_decide (arg = B# "--channel-loglevel") then
    match rest with
    | name :: v :: rest =>
        let channel := BLogGlobal_GetChannelByName name in
        if channel <? 0 then None
        else
          let level := parse_loglevel v in
          if level <? 0 then None else Some (set_loglevels (<[Z.to_nat channel := level]> (loglevels o)) o, rest)
    | _ => None
    end
  else if bool_decide (arg = B# "--fake-proc") then flag (set_fake_proc true o)
  else if bool_decide (arg = B# "--tunmtu") then value (fun v => if atoi v <=? 0 then None else Some (set_tun_mtu (atoi v) o))
  else if bool_decide (arg = B# "--dnsgw") then value (fun v => Some (set_opt_dnsgw (Some v) o))
  else if bool_decide (arg = B# "--sock-path") then value (fun v => Some (set_sock_path (Some v) o))
  else if bool_decide (arg = B# "--pid") then value (fun v => Some (set_pid (Some v) o))
  else if bool_decide (arg = B# "--netif-ipaddr") then value (fun v => Some (set_netif_ipaddr (Some v) o))
  else if bool_decide (arg = B# "--netif-netmask") then value (fun v => Some (set_netif_netmask (Some v) o))
  else if bool_decide (arg = B# "--netif-ip6addr") then value (fun v => Some (set_netif_ip6addr (Some v) o))
  else if bool_decide (arg = B# "--socks-server-addr") then value (fun v => Some (set_socks_server_addr (Some v) o))
  else if bool_decide (arg = B# "--username") then value (fun v => Some (set_username (Some v) o))
  else if bool_decide (arg = B# "--password") then value (fun v => Some (set_password (Some v) o))
  else if bool_decide (arg = B# "--password-file") then value (fun v => Some (set_password_file (Some v) o))
  else if bool_decide (arg = B# "--append-source-to-username") then flag (set_append_source_to_username true o)
  else if bool_decide (arg = B# "--enable-udprelay") then flag (set_udpgw_remote_server_addr (Some (B# "0.0.0.0:0")) o)
  else if bool_decide (arg = B# "--udprelay-max-connections") then
    value (fun v => if atoi v <=? 0 then None else Some (set_udpgw_max_connections (atoi v) o))
  else None.

(** The loop over the arguments; every round takes at least one, so their number is fuel enough. *)
Fixpoint parse_loop (fuel : nat) (args : list (list Z)) (o : options) : option options :=
  match args with
  | [] => Some o
  | arg :: rest =>
      match fuel with
      | O => None
      | S fuel => match parse_option arg rest o with Some (o, rest) => parse_loop fuel rest o | None => None end
      end
  end.

Definition check_options (o : options) : bool :=
  if help o || version o then true
  else if bool_decide (netif_ipaddr o = None) then false
  else if bool_decide (socks_server_addr o = None) then false
  else if negb (bool_decide (username o = None)) then
    if bool_decide (password o = None) && bool_decide (password_file o = None) then false
    else if negb (bool_decide (password o = None)) && negb (bool_decide (password_file o = None)) then false
    else true
  else true.

(** [options.dnsgw] is not set by the function, and zero when the program starts. *)
Definition parse_arguments (argv : list (list Z)) : option options :=
  match argv with
  | [] => None
  | argv0 :: args =>
      match parse_loop (length args) args (default_options argv0) with
      | Some o => if check_options o then Some o else None
      | None => None
      end
  end.

(** ** Resolving *)

(** The variables [process_arguments] sets; [pr_contents] is whether the password file was read into memory. *)
Record processed := Processed {
  pr_netif : BIPAddr;
  pr_ip6addr : option (list Z);
  pr_server : BAddr;
  pr_auth : list BSocks.auth_info;
  pr_udpgw : BAddr;
  pr_dnsgw : BAddr;
  pr_contents : option (list Z);
}.

Section Process.
Context (getaddrinfo : bool -> list Z -> bool -> option (list Z)) (read_file : list Z -> option (list Z)).

(** An address that may be missing. *)
Definition parse_optional (str : option (list Z)) : option BAddr :=
  match str with None => Some BADDR_NONE | Some s => BAddr_Parse2 getaddrinfo s false end.

(** The password, and the memory it is in when it comes from a file. *)
Definition find_password (o : options) : option (list Z * option (list Z)) :=
  match password o with
  | Some p => Some (p, None)
  | None =>
      match password_file o with
      | None => None
      | Some f => match read_file f with Some c => Some (c, Some c) | None => None end
      end
  end.

(** The result, and what was read of the password file so far also when it fails. *)
Definition process_arguments (o : options) : option processed * option (list Z) :=
  match netif_ipaddr o, socks_server_addr o with
  | Some ipaddr, Some server =>
      match BIPAddr_Resolve getaddrinfo ipaddr false with
      | Some (BIP_IPV4 ip) =>
          let ip6 :=
            match netif_ip6addr o with
            | None => Some None
            | Some s => match ipaddr6_parse_ipv6_addr s (repeat 0 16) with V6_Ok b => Some (Some b) | _ => None end
            end in
          match ip6, BAddr_Parse2 getaddrinfo server false with
          | Some ip6, Some server =>
              let auth :=
                match username o with
                | None => Some ([BSocks.BSocksClient_auth_none], None)
                | Some u =>
                    match find_password o with
                    | None => None
                    | Some (p, contents) => Some ([BSocks.BSocksClient_auth_none; BSocks.BSocksClient_auth_password u p], contents)
                    end
                end in
              match auth with
              | None => (None, None)
              | Some (auth, contents) =>
                  match parse_optional (udpgw_remote_server_addr o) with
                  | None => (None, contents)
                  | Some udpgw =>
                      match parse_optional (opt_dnsgw o) with
                      | Some (BADDR_IPV6 _ _) | None => (None, contents)
                      | Some dnsgw => (Some (Processed (BIP_IPV4 ip) ip6 server auth udpgw dnsgw contents), contents)
                      end
                  end
              end
          | _, _ => (None, None)
          end
      | _ => (None, None)
      end
  | _, _ => (None, None)
  end.

End Process.

End TunOptions.

Import IpText TunOptions.

(** ** Enough fuel *)

Lemma parse_option_rest arg rest o o' rest' : parse_option arg rest o = Some (o', rest') -> (length rest' <= length rest)%nat.
Proof.
  unfold parse_option. cbv zeta. intros E.
  repeat match type of E with
  | (if ?b then _ else _) = _ => destruct b
  | match ?r with [] => _ | _ :: _ => _ end = _ => destruct r; cbn [length] in *
  | match (if ?b then _ else _) with Some _ => _ | None => _ end = _ => destruct b
  end; simplify_eq; cbn [length] in *; lia.
Qed.

Lemma parse_loop_fuel n : forall args o m, (length args <= n)%nat -> (length args <= m)%nat -> parse_loop n args o = parse_loop m args o.
Proof.
  induction n as [|n IH]; intros [|arg rest] o m Hn Hm; cbn [length] in *; try lia; [now destruct m..|]. destruct m as [|m]; [lia|]. cbn [parse_loop].
  destruct (parse_option arg rest o) as [[o' rest']|] eqn:E; [|done]. apply parse_option_rest in E. apply IH; lia.
Qed.

Definition parse (args : list (list Z)) (o : options) : option options := parse_loop (length args) args o.

Lemma parse_step arg rest o o' rest' : parse_option arg rest o = Some (o', rest') -> parse (arg :: rest) o = parse rest' o'.
Proof. intros E. unfold parse. cbn [length parse_loop]. rewrite E. apply parse_option_rest in E. apply parse_loop_fuel; lia. Qed.

(** ** Printing *)

(** Reading [args] turns [o] into [o'], whatever follows. *)
Definition parses (args : list (list Z)) (o o' : options) : Prop := forall rest, parse (args ++ rest) o = parse rest o'.

Lemma args_nil o : parses [] o o.
Proof. done. Qed.

Lemma args_app a b o o1 o2 : parses a o o1 -> parses b o1 o2 -> parses (a ++ b) o o2.
Proof. intros H1 H2 rest. rewrite <- app_assoc, H1. apply H2. Qed.

(** The arguments for a flag, and for an option that may be missing. *)
Definition flag_args (name : list Z) (b : bool) : list (list Z) := if b then [name] else [].
Definition value_args (name : list Z) (v : option (list Z)) : list (list Z) := match v with Some v => [name; v] | None => [] end.

Lemma parses_flag name (set : bool -> options -> options) b o :
  (forall rest, parse_option name rest o = Some (set true o, rest)) -> set false o = o -> parses (flag_args name b) o (set b o).
Proof. intros H E. destruct b; cbn [flag_args]; [|rewrite E; apply args_nil]. intros rest. apply parse_step, H. Qed.

Lemma parses_value name (set : option (list Z) -> options -> options) v o :
  (forall s rest, parse_option name (s :: rest) o = Some (set (Some s) o, rest)) -> set None o = o -> parses (value_args name v) o (set v o).
Proof. intros H E. destruct v as [s|]; cbn [value_args]; [|rewrite E; apply args_nil]. intros rest. apply parse_step, H. Qed.

Definition logger_name (l : logger_t) : list Z := match l with LOGGER_STDOUT => B# "stdout" | LOGGER_SYSLOG => B# "syslog" end.

Definition level_args (level : Z) : list (list Z) := if level <? 0 then [] else [B# "--loglevel"; format_u level].

Definition channel_args (levels : list Z) (i : nat) : list (list Z) :=
  let level := nth i levels (-1) in
  if level <? 0 then [] else [B# "--channel-loglevel"; nth i blog_channel_list []; format_u level].

(** A command line that asks for the given options. *)
Definition print_options (o : options) : list (list Z) :=
  flag_args (B# "--help") (help o) ++ flag_args (B# "--version") (version o) ++
  [B# "--logger"; logger_name (logger o)] ++ [B# "--syslog-facility"; logger_syslog_facility o] ++ [B# "--syslog-ident"; logger_syslog_ident o] ++
  level_args (loglevel o) ++ concat (map (channel_args (loglevels o)) (seq 0 BLOG_NUM_CHANNELS)) ++
  value_args (B# "--netif-ipaddr") (netif_ipaddr o) ++ value_args (B# "--netif-netmask") (netif_netmask o) ++
  value_args (B# "--netif-ip6addr") (netif_ip6addr o) ++ value_args (B# "--socks-server-addr") (socks_server_addr o) ++
  value_args (B# "--username") (username o) ++ value_args (B# "--password") (password o) ++ value_args (B# "--password-file") (password_file o) ++
  flag_args (B# "--append-source-to-username") (append_source_to_username o) ++
  flag_args (B# "--enable-udprelay") (negb (bool_decide (udpgw_remote_server_addr o = None))) ++
  [B# "--udprelay-max-connections"; format_u (udpgw_max_connections o)] ++ [B# "--tunmtu"; format_u (tun_mtu o)] ++
  flag_args (B# "--fake-proc") (fake_proc o) ++ value_args (B# "--sock-path") (sock_path o) ++ value_args (B# "--pid") (pid o) ++
  value_args (B# "--dnsgw") (opt_dnsgw o).

(** What can be asked for. *)
Record askable (o : options) : Prop := Askable {
  as_loglevel : -1 <= loglevel o <= BLOG_DEBUG;
  as_channels : length (loglevels o) = BLOG_NUM_CHANNELS /\ Forall (fun l => -1 <= l <= BLOG_DEBUG) (loglevels o);
  as_udpgw : udpgw_remote_server_addr o = None \/ udpgw_remote_server_addr o = Some (B# "0.0.0.0:0");
  as_max : 0 < udpgw_max_connections o < 2 ^ 31;
  as_unused : udpgw_connection_buffer_size o = DEFAULT_UDPGW_CONNECTION_BUFFER_SIZE /\ udpgw_transparent_dns o = false;
  as_mtu : 0 < tun_mtu o < 2 ^ 31;
  as_checked : check_options o = true;
}.

(** ** Numbers *)

Lemma strtol10_format z : 0 <= z < 2 ^ 31 -> strtol10 (format_u z) = (z, []).
Proof.
  intros Hz. assert (Hd : forallb isdigit (format_u z) = true) by (apply dec_digits_digits; lia).
  pose proof (format_u_nonempty z) as Hne. assert (Hv : dec_value (format_u z) = z).
  { apply dec_digits_value; [|lia]. split; [lia|]. etransitivity; [apply Hz|]. vm_compute. reflexivity. }
  assert (Hspan : span isdigit (format_u z) = (format_u z, [])).
  { pose proof (span_all isdigit (format_u z) [] Hd) as H. rewrite app_nil_r in H. now apply H. }
  unfold strtol10. assert (Hp : isdigit (peek (format_u z)) = true) by (destruct (format_u z); [done|]; cbn in Hd |- *; now apply andb_true_iff in Hd as [-> _]).
  assert (Hs : skip_spaces (format_u z) = format_u z).
  { unfold skip_spaces, skip. destruct (format_u z) as [|c l]; [done|]. cbn [span peek] in *. replace (isspace c) with false; [done|].
    unfold isdigit, isspace in *. lia. }
  rewrite Hs. replace (peek (format_u z) =? 45) with false by (unfold isdigit in Hp; lia). replace (peek (format_u z) =? 43) with false by (unfold isdigit in Hp; lia).
  cbn [orb]. rewrite Hspan, bool_decide_false by done. rewrite Hv. f_equal. apply Z.min_l. lia.
Qed.

Lemma atoi_format z : 0 <= z < 2 ^ 31 -> atoi (format_u z) = z.
Proof. intros Hz. unfold atoi. rewrite strtol10_format by done. cbn [fst]. apply s32_small. lia. Qed.

Lemma parse_loglevel_format z : 0 <= z <= BLOG_DEBUG -> parse_loglevel (format_u z) = z.
Proof. unfold BLOG_DEBUG. intros Hz. assert (H : z = 0 \/ z = 1 \/ z = 2 \/ z = 3 \/ z = 4 \/ z = 5) by lia. repeat destruct H as [->|H]; subst; vm_compute; reflexivity. Qed.

(** The names of the channels differ. *)
Lemma channel_by_name i : (i < BLOG_NUM_CHANNELS)%nat -> BLogGlobal_GetChannelByName (nth i blog_channel_list []) = Z.of_nat i.
Proof.
  intros Hi. assert (H : forallb (fun i => BLogGlobal_GetChannelByName (nth i blog_channel_list []) =? Z.of_nat i) (seq 0 BLOG_NUM_CHANNELS) = true)
    by (vm_compute; reflexivity).
  rewrite forallb_forall in H. apply Z.eqb_eq, H, in_seq. lia.
Qed.

(** ** The round trip *)

(** A string that is compared with constants. *)
Local Ltac compare_names := unfold parse_option; cbv zeta; repeat (rewrite bool_decide_false by (vm_compute; congruence)); rewrite bool_decide_true by done; try reflexivity.

Lemma option_loglevel v rest o :
  parse_option (B# "--loglevel") (v :: rest) o =
  match (let level := parse_loglevel v in if level <? 0 then None else Some (set_loglevel level o)) with Some o => Some (o, rest) | None => None end.
Proof. compare_names. Qed.

Lemma option_channel name v rest o :
  parse_option (B# "--channel-loglevel") (name :: v :: rest) o =
  (let channel := BLogGlobal_GetChannelByName name in
   if channel <? 0 then None
   else
     let level := parse_loglevel v in
     if level <? 0 then None else Some (set_loglevels (<[Z.to_nat channel := level]> (loglevels o)) o, rest)).
Proof. compare_names. Qed.

Lemma option_logger l rest o : parse_option (B# "--logger") (logger_name l :: rest) o = Some (set_logger l o, rest).
Proof. compare_names. destruct l; reflexivity. Qed.

Lemma parses_level o level : loglevel o = -1 -> -1 <= level <= BLOG_DEBUG -> parses (level_args level) o (set_loglevel level o).
Proof.
  intros E Hl. unfold level_args. destruct (Z.ltb_spec level 0) as [Hn|Hn].
  - replace level with (-1) by lia. rewrite <- E. destruct o. apply args_nil.
  - intros rest. apply parse_step. rewrite option_loglevel, parse_loglevel_format by lia. cbv zeta. now replace (level <? 0) with false by lia.
Qed.

(** The levels of the first [n] channels. *)
Definition levels_to (n : nat) (levels : list Z) : list Z := take n levels ++ repeat (-1) (BLOG_NUM_CHANNELS - n).

Lemma levels_to_S n levels :
  length levels = BLOG_NUM_CHANNELS -> (n < BLOG_NUM_CHANNELS)%nat -> levels_to (S n) levels = <[n := nth n levels (-1)]> (levels_to n levels).
Proof.
  intros Hlen Hn. unfold levels_to. assert (Htn : length (take n levels) = n) by (rewrite length_take; lia).
  rewrite insert_app_r_alt, Htn, Nat.sub_diag by lia. replace (BLOG_NUM_CHANNELS - n)%nat with (S (BLOG_NUM_CHANNELS - S n)) by lia.
  rewrite (take_S_r levels n (nth n levels (-1))), <- app_assoc; [done|]. destruct (nth_lookup_or_length levels n (-1)); [done|lia].
Qed.

Lemma parses_channels levels n : forall o,
  loglevels o = repeat (-1) BLOG_NUM_CHANNELS -> length levels = BLOG_NUM_CHANNELS -> Forall (fun l => -1 <= l <= BLOG_DEBUG) levels ->
  (n <= BLOG_NUM_CHANNELS)%nat ->
  parses (concat (map (channel_args levels) (seq 0 n))) o (set_loglevels (levels_to n levels) o).
Proof.
  induction n as [|n IH]; intros o Eo Hlen Hall Hn.
  - cbn [seq map concat]. unfold levels_to. cbn [take app]. rewrite Nat.sub_0_r, <- Eo. destruct o. apply args_nil.
  - rewrite seq_S, map_app, concat_app. eapply args_app; [apply IH; auto; lia|]. cbn [map concat Nat.add]. rewrite app_nil_r, levels_to_S by lia.
    assert (Hlev : -1 <= nth n levels (-1) <= BLOG_DEBUG) by (rewrite Forall_forall in Hall; apply Hall, list_elem_of_In, nth_In; lia).
    unfold channel_args. destruct (Z.ltb_spec (nth n levels (-1)) 0) as [Hneg|Hpos].
    + replace (<[n := nth n levels (-1)]> (levels_to n levels)) with (levels_to n levels); [apply args_nil|].
      symmetry. apply list_insert_id. unfold levels_to. rewrite lookup_app_r by (rewrite length_take; lia). rewrite length_take.
      replace (n - _)%nat with 0%nat by lia. replace (BLOG_NUM_CHANNELS - n)%nat with (S (BLOG_NUM_CHANNELS - S n)) by lia. cbn. f_equal. lia.
    + intros rest. apply parse_step. rewrite option_channel, channel_by_name, parse_loglevel_format by lia. cbv zeta.
      replace (Z.of_nat n <? 0) with false by lia. replace (nth n levels (-1) <? 0) with false by lia. rewrite Nat2Z.id. done.
Qed.

Lemma parses_number name (set : Z -> options -> options) z o :
  (forall v rest, parse_option name (v :: rest) o = match (if atoi v <=? 0 then None else Some (set (atoi v) o)) with Some o => Some (o, rest) | None => None end) ->
  0 < z < 2 ^ 31 -> parses [name; format_u z] o (set z o).
Proof. intros H Hz rest. apply parse_step. rewrite H, atoi_format by lia. now replace (z <=? 0) with false by lia. Qed.

Lemma parses_string name (set : list Z -> options -> options) v o :
  (forall v rest, parse_option name (v :: rest) o = Some (set v o, rest)) -> parses [name; v] o (set v o).
Proof. intros H rest. apply parse_step, H. Qed.

(** One lemma per option. *)

Lemma parses_help o b : help o = false -> parses (flag_args (B# "--help") b) o (set_help b o).
Proof. intros E. apply (parses_flag _ set_help); [intros rest; compare_names|destruct o; cbn in E; now subst]. Qed.
Lemma parses_version o b : version o = false -> parses (flag_args (B# "--version") b) o (set_version b o).
Proof. intros E. apply (parses_flag _ set_version); [intros rest; compare_names|destruct o; cbn in E; now subst]. Qed.
Lemma parses_append_source_to_username o b : append_source_to_username o = false -> parses (flag_args (B# "--append-source-to-username") b) o (set_append_source_to_username b o).
Proof. intros E. apply (parses_flag _ set_append_source_to_username); [intros rest; compare_names|destruct o; cbn in E; now subst]. Qed.
Lemma parses_fake_proc o b : fake_proc o = false -> parses (flag_args (B# "--fake-proc") b) o (set_fake_proc b o).
Proof. intros E. apply (parses_flag _ set_fake_proc); [intros rest; compare_names|destruct o; cbn in E; now subst]. Qed.
Lemma parses_netif_ipaddr o v : netif_ipaddr o = None -> parses (value_args (B# "--netif-ipaddr") v) o (set_netif_ipaddr v o).
Proof. intros E. apply (parses_value _ set_netif_ipaddr); [intros s rest; compare_names|destruct o; cbn in E; now subst]. Qed.
Lemma parses_netif_netmask o v : netif_netmask o = None -> parses (value_args (B# "--netif-netmask") v) o (set_netif_netmask v o).
Proof. intros E. apply (parses_value _ set_netif_netmask); [intros s rest; compare_names|destruct o; cbn in E; now subst]. Qed.
Lemma parses_netif_ip6addr o v : netif_ip6addr o = None -> parses (value_args (B# "--netif-ip6addr") v) o (set_netif_ip6addr v o).
Proof. intros E. apply (parses_value _ set_netif_ip6addr); [intros s rest; compare_names|destruct o; cbn in E; now subst]. Qed.
Lemma parses_socks_server_addr o v : socks_server_addr o = None -> parses (value_args (B# "--socks-server-addr") v) o (set_socks_server_addr v o).
Proof. intros E. apply (parses_value _ set_socks_server_addr); [intros s rest; compare_names|destruct o; cbn in E; now subst]. Qed.
Lemma parses_username o v : username o = None -> parses (value_args (B# "--username") v) o (set_username v o).
Proof. intros E. apply (parses_value _ set_username); [intros s rest; compare_names|destruct o; cbn in E; now subst]. Qed.
Lemma parses_password o v : password o = None -> parses (value_args (B# "--password") v) o (set_password v o).
Proof. intros E. apply (parses_value _ set_password); [intros s rest; compare_names|destruct o; cbn in E; now subst]. Qed.
Lemma parses_password_file o v : password_file o = None -> parses (value_args (B# "--password-file") v) o (set_password_file v o).
Proof. intros E. apply (parses_value _ set_password_file); [intros s rest; compare_names|destruct o; cbn in E; now subst]. Qed.
Lemma parses_sock_path o v : sock_path o = None -> parses (value_args (B# "--sock-path") v) o (set_sock_path v o).
Proof. intros E. apply (parses_value _ set_sock_path); [intros s rest; compare_names|destruct o; cbn in E; now subst]. Qed.
Lemma parses_pid o v : pid o = None -> parses (value_args (B# "--pid") v) o (set_pid v o).
Proof. intros E. apply (parses_value _ set_pid); [intros s rest; compare_names|destruct o; cbn in E; now subst]. Qed.
Lemma parses_opt_dnsgw o v : opt_dnsgw o = None -> parses (value_args (B# "--dnsgw") v) o (set_opt_dnsgw v o).
Proof. intros E. apply (parses_value _ set_opt_dnsgw); [intros s rest; compare_names|destruct o; cbn in E; now subst]. Qed.
Lemma parses_udprelay o b :
  udpgw_remote_server_addr o = None ->
  parses (flag_args (B# "--enable-udprelay") b) o (set_udpgw_remote_server_addr (if b then Some (B# "0.0.0.0:0") else None) o).
Proof.
  intros E. apply (parses_flag _ (fun b => set_udpgw_remote_server_addr (if b then Some (B# "0.0.0.0:0") else None)));
    [intros rest; compare_names|destruct o; cbn in E; now subst].
Qed.
Lemma parses_max o z : 0 < z < 2 ^ 31 -> parses [B# "--udprelay-max-connections"; format_u z] o (set_udpgw_max_connections z o).
Proof. apply (parses_number _ set_udpgw_max_connections). intros v rest. compare_names. Qed.
Lemma parses_mtu o z : 0 < z < 2 ^ 31 -> parses [B# "--tunmtu"; format_u z] o (set_tun_mtu z o).
Proof. apply (parses_number _ set_tun_mtu). intros v rest. compare_names. Qed.
Lemma parses_facility o v : parses [B# "--syslog-facility"; v] o (set_logger_syslog_facility v o).
Proof. apply (parses_string _ set_logger_syslog_facility). intros w rest. compare_names. Qed.
Lemma parses_ident o v : parses [B# "--syslog-ident"; v] o (set_logger_syslog_ident v o).
Proof. apply (parses_string _ set_logger_syslog_ident). intros w rest. compare_names. Qed.
Lemma parses_logger o l : parses [B# "--logger"; logger_name l] o (set_logger l o).
Proof. intros rest. apply parse_step, option_logger. Qed.

Lemma print_parses o argv0 : askable o -> parses (print_options o) (default_options argv0) o.
Proof.
  intros [H1 [H2 H3] H4 H5 [Hs1 Hs2] H6 _]. unfold print_options.
  eapply args_app; [apply parses_help; reflexivity|].
  eapply args_app; [apply parses_version; reflexivity|].
  eapply args_app; [apply parses_logger|].
  eapply args_app; [apply parses_facility|].
  eapply args_app; [apply parses_ident|].
  eapply args_app; [apply parses_level; [reflexivity|exact H1]|].
  eapply args_app; [apply parses_channels; [reflexivity|exact H2|exact H3|constructor]|].
  eapply args_app; [apply parses_netif_ipaddr; reflexivity|].
  eapply args_app; [apply parses_netif_netmask; reflexivity|].
  eapply args_app; [apply parses_netif_ip6addr; reflexivity|].
  eapply args_app; [apply parses_socks_server_addr; reflexivity|].
  eapply args_app; [apply parses_username; reflexivity|].
  eapply args_app; [apply parses_password; reflexivity|].
  eapply args_app; [apply parses_password_file; reflexivity|].
  eapply args_app; [apply parses_append_source_to_username; reflexivity|].
  eapply args_app; [apply parses_udprelay; reflexivity|].
  eapply args_app; [apply parses_max; exact H5|].
  eapply args_app; [apply parses_mtu; exact H6|].
  eapply args_app; [apply parses_fake_proc; reflexivity|].
  eapply args_app; [apply parses_sock_path; reflexivity|].
  eapply args_app; [apply parses_pid; reflexivity|].
  match goal with |- parses _ ?o1 o => assert (E : set_opt_dnsgw (opt_dnsgw o) o1 = o) end.
  - assert (El : levels_to BLOG_NUM_CHANNELS (loglevels o) = loglevels o)
      by (unfold levels_to; rewrite Nat.sub_diag; cbn [repeat]; now rewrite app_nil_r, take_ge by lia).
    rewrite El. assert (Eu : (if negb (bool_decide (udpgw_remote_server_addr o = None)) then Some (B# "0.0.0.0:0") else None) = udpgw_remote_server_addr o)
      by (destruct H4 as [-> | ->]; reflexivity).
    rewrite Eu. destruct o. cbn in Hs1, Hs2. subst. reflexivity.
  - match goal with |- parses _ ?o1 _ => pose proof (parses_opt_dnsgw o1 (opt_dnsgw o) eq_refl) as H end. rewrite E in H. exact H.
Qed.

(** C33. The command line: every set of options that passes the checks of [parse_arguments] can be asked for by a command
    line, and that command line gives these options, whatever the name of the program; in particular the loop looks at every
    argument and never past the last one. *)
Theorem command_line_roundtrip o argv0 : askable o -> parse_arguments (argv0 :: print_options o) = Some o.
Proof.
  intros Ho. unfold parse_arguments. pose proof (print_parses o argv0 Ho []) as H. rewrite app_nil_r in H. unfold parse in H. rewrite H.
  cbn [length parse_loop]. now rewrite (as_checked o Ho).
Qed.

Definition demo_options : options :=
  set_tun_mtu 9000 (set_loglevels (<[3%nat := 5]> (repeat (-1) BLOG_NUM_CHANNELS)) (set_udpgw_remote_server_addr (Some (B# "0.0.0.0:0"))
    (set_socks_server_addr (Some (B# "127.0.0.1:1080")) (set_netif_ipaddr (Some (B# "26.26.26.1")) (default_options (B# "tun2socks")))))).

Lemma command_line_roundtrip_witness :
  nth 9 (print_options demo_options) [] = B# "--netif-ipaddr" /\ parse_arguments (B# "a" :: print_options demo_options) = Some demo_options.
Proof.
  split; [vm_compute; reflexivity|]. apply command_line_roundtrip. split.
  - change (-1 <= -1 <= 5). lia.
  - split; [vm_compute; reflexivity|]. apply Forall_forall. intros x Hx.
    assert (Hb : forallb (fun l => (-1 <=? l) && (l <=? BLOG_DEBUG)) (loglevels demo_options) = true) by (vm_compute; reflexivity).
    rewrite forallb_forall in Hb. apply list_elem_of_In in Hx. specialize (Hb x Hx). cbv beta in Hb. lia.
  - right. reflexivity.
  - change (0 < 256 < 2 ^ 31). lia.
  - split; reflexivity.
  - change (0 < 9000 < 2 ^ 31). lia.
  - vm_compute. reflexivity.
Defined.
