(* ===== verification/TunMain.v ===== *)
(** * Start-up, event handlers and shut-down of tun2socks ([badvpn/tun2socks/tun2socks.c])

    [main] initialises the parts of the program one after the other, runs the event loop and frees everything
    again, in the reverse order; a step that fails jumps into the middle of the freeing. The handlers the loop calls
    pass packets between the device ([badvpn/tuntap/BTap.c], read through [badvpn/flow/SinglePacketBuffer.c]), lwIP and the UDP client.

    What the system and lwIP return is drawn from a list ([replies]), with a default for every call once the list is
    used up. A reply of lwIP also has the packets that lwIP sends during the call, through [common_netif_output]. The
    TCP clients are those of [TunRun]. Something that is freed must be the newest that is still there; anything else is
    a fault. [trace] is not in the program: it records what was done. *)

From S2P Require Import Prelude CLib Mem Effect BAddr BPending TunClient TunInv TunStep TunRun UdpPacket BSocksClient IpText TunOptions.

Open Scope Z_scope.

Module TunMain.

Import IpText TunOptions.

(** ** Data *)

(** A chain of pbufs, which has at least one. *)
Definition chain : Type := list Z * list (list Z).

(** What a call returns: a number, bytes (of [read], or a descriptor), and the packets lwIP sends meanwhile. *)
Record reply := Reply { r_num : Z; r_data : list Z; r_outs : list chain }.

Inductive resource :=
  | RLog | RSocket | RSocket2 | RPassword | RReactor | RSignal | RDevice | RReadInterface | RReadBuffer | RUdpgw
  | RInitJob | RWriteBuf | RTimer | RNetif | RPcb | RListener | RListener6.

#[export] Instance resource_eq_dec : EqDecision resource.
Proof. solve_decision. Defined.

(** The jobs of [lwip_init_job], of the debugging aid for errors of the device, of the device's output and of
    [device_read_interface]. *)
Inductive job := LwipInit | DeviceError | RecvOperation | RecvDone | PassOperation | PassDone.

#[export] Instance job_eq_dec : EqDecision job.
Proof. solve_decision. Defined.

Inductive note :=
  | Read (data : list Z)                    (** a packet was read from the device *)
  | ToUdpgw (data : list Z) (s : submission)  (** it went to the UDP client *)
  | ToLwip (data : list Z)                  (** it went to lwIP *)
  | Dropped (data : list Z)                 (** it was thrown away *)
  | Written (data : list Z)                 (** a packet was written to the device *)
  | NetifAdded (ipaddr netmask : list Z)
  | NetifIp6 (addr : list Z)
  | TcpTimer                                (** [tcp_tmr] *)
  | SlowTimers.                             (** [ip_reass_tmr], [nd6_tmr] and [ip6_reass_tmr] *)

Record st := St {
  replies : list reply;  (** what the calls of the system and of lwIP return from now on *)
  live : list resource;  (** what is initialised and not freed, the newest first *)
  jobs : list job;  (** of the reactor, the next one first *)
  quitting : bool;
  exiting : bool;  (** of the reactor *)
  have_netif : bool;
  listener : bool;  (** not the null pointer *)
  listener_ip6 : bool;
  timer_set : bool;  (** tcp_timer is running *)
  tcp_timer_mod4 : Z;
  frame_mtu : Z;  (** of the device *)
  out_state : pi_state;  (** of the output of the device *)
  job_done_len : Z;
  output_packet : bool;  (** not the null pointer; it points to read_buf *)
  poll_read : bool;  (** BREACTOR_READ is in poll_events *)
  in_state : pi_state;  (** of device_read_interface *)
  job_operation_len : Z;
  read_buf : list Z;  (** of device_read_buffer *)
  write_buf : list Z;  (** device_write_buf *)
  pbufs : nat;  (** pbufs owned by this file *)
  clients : TunRun.world;  (** the TCP clients *)
  channels : list Z;  (** levels of the log channels *)
  trace : list note;  (** what was done *)
}.

Definition with_replies (g : list reply -> list reply) (r : st) : st :=
  St (g (replies r)) (live r) (jobs r) (quitting r) (exiting r) (have_netif r) (listener r) (listener_ip6 r) (timer_set r) (tcp_timer_mod4 r) (frame_mtu r) (out_state r) (job_done_len r) (output_packet r) (poll_read r) (in_state r) (job_operation_len r) (read_buf r) (write_buf r) (pbufs r) (clients r) (channels r) (trace r).
Definition with_live (g : list resource -> list resource) (r : st) : st :=
  St (replies r) (g (live r)) (jobs r) (quitting r) (exiting r) (have_netif r) (listener r) (listener_ip6 r) (timer_set r) (tcp_timer_mod4 r) (frame_mtu r) (out_state r) (job_done_len r) (output_packet r) (poll_read r) (in_state r) (job_operation_len r) (read_buf r) (write_buf r) (pbufs r) (clients r) (channels r) (trace r).
Definition with_jobs (g : list job -> list job) (r : st) : st :=
  St (replies r) (live r) (g (jobs r)) (quitting r) (exiting r) (have_netif r) (listener r) (listener_ip6 r) (timer_set r) (tcp_timer_mod4 r) (frame_mtu r) (out_state r) (job_done_len r) (output_packet r) (poll_read r) (in_state r) (job_operation_len r) (read_buf r) (write_buf r) (pbufs r) (clients r) (channels r) (trace r).
Definition with_quitting (g : bool -> bool) (r : st) : st :=
  St (replies r) (live r) (jobs r) (g (quitting r)) (exiting r) (have_netif r) (listener r) (listener_ip6 r) (timer_set r) (tcp_timer_mod4 r) (frame_mtu r) (out_state r) (job_done_len r) (output_packet r) (poll_read r) (in_state r) (job_operation_len r) (read_buf r) (write_buf r) (pbufs r) (clients r) (channels r) (trace r).
Definition with_exiting (g : bool -> bool) (r : st) : st :=
  St (replies r) (live r) (jobs r) (quitting r) (g (exiting r)) (have_netif r) (listener r) (listener_ip6 r) (timer_set r) (tcp_timer_mod4 r) (frame_mtu r) (out_state r) (job_done_len r) (output_packet r) (poll_read r) (in_state r) (job_operation_len r) (read_buf r) (write_buf r) (pbufs r) (clients r) (channels r) (trace r).
Definition with_have_netif (g : bool -> bool) (r : st) : st :=
  St (replies r) (live r) (jobs r) (quitting r) (exiting r) (g (have_netif r)) (listener r) (listener_ip6 r) (timer_set r) (tcp_timer_mod4 r) (frame_mtu r) (out_state r) (job_done_len r) (output_packet r) (poll_read r) (in_state r) (job_operation_len r) (read_buf r) (write_buf r) (pbufs r) (clients r) (channels r) (trace r).
Definition with_listener (g : bool -> bool) (r : st) : st :=
  St (replies r) (live r) (jobs r) (quitting r) (exiting r) (have_netif r) (g (listener r)) (listener_ip6 r) (timer_set r) (tcp_timer_mod4 r) (frame_mtu r) (out_state r) (job_done_len r) (output_packet r) (poll_read r) (in_state r) (job_operation_len r) (read_buf r) (write_buf r) (pbufs r) (clients r) (channels r) (trace r).
Definition with_listener_ip6 (g : bool -> bool) (r : st) : st :=
  St (replies r) (live r) (jobs r) (quitting r) (exiting r) (have_netif r) (listener r) (g (listener_ip6 r)) (timer_set r) (tcp_timer_mod4 r) (frame_mtu r) (out_state r) (job_done_len r) (output_packet r) (poll_read r) (in_state r) (job_operation_len r) (read_buf r) (write_buf r) (pbufs r) (clients r) (channels r) (trace r).
Definition with_timer_set (g : bool -> bool) (r : st) : st :=
  St (replies r) (live r) (jobs r) (quitting r) (exiting r) (have_netif r) (listener r) (listener_ip6 r) (g (timer_set r)) (tcp_timer_mod4 r) (frame_mtu r) (out_state r) (job_done_len r) (output_packet r) (poll_read r) (in_state r) (job_operation_len r) (read_buf r) (write_buf r) (pbufs r) (clients r) (channels r) (trace r).
Definition with_tcp_timer_mod4 (g : Z -> Z) (r : st) : st :=
  St (replies r) (live r) (jobs r) (quitting r) (exiting r) (have_netif r) (listener r) (listener_ip6 r) (timer_set r) (g (tcp_timer_mod4 r)) (frame_mtu r) (out_state r) (job_done_len r) (output_packet r) (poll_read r) (in_state r) (job_operation_len r) (read_buf r) (write_buf r) (pbufs r) (clients r) (channels r) (trace r).
Definition with_frame_mtu (g : Z -> Z) (r : st) : st :=
  St (replies r) (live r) (jobs r) (quitting r) (exiting r) (have_netif r) (listener r) (listener_ip6 r) (timer_set r) (tcp_timer_mod4 r) (g (frame_mtu r)) (out_state r) (job_done_len r) (output_packet r) (poll_read r) (in_state r) (job_operation_len r) (read_buf r) (write_buf r) (pbufs r) (clients r) (channels r) (trace r).
Definition with_out_state (g : pi_state -> pi_state) (r : st) : st :=
  St (replies r) (live r) (jobs r) (quitting r) (exiting r) (have_netif r) (listener r) (listener_ip6 r) (timer_set r) (tcp_timer_mod4 r) (frame_mtu r) (g (out_state r)) (job_done_len r) (output_packet r) (poll_read r) (in_state r) (job_operation_len r) (read_buf r) (write_buf r) (pbufs r) (clients r) (channels r) (trace r).
Definition with_job_done_len (g : Z -> Z) (r : st) : st :=
  St (replies r) (live r) (jobs r) (quitting r) (exiting r) (have_netif r) (listener r) (listener_ip6 r) (timer_set r) (tcp_timer_mod4 r) (frame_mtu r) (out_state r) (g (job_done_len r)) (output_packet r) (poll_read r) (in_state r) (job_operation_len r) (read_buf r) (write_buf r) (pbufs r) (clients r) (channels r) (trace r).
Definition with_output_packet (g : bool -> bool) (r : st) : st :=
  St (replies r) (live r) (jobs r) (quitting r) (exiting r) (have_netif r) (listener r) (listener_ip6 r) (timer_set r) (tcp_timer_mod4 r) (frame_mtu r) (out_state r) (job_done_len r) (g (output_packet r)) (poll_read r) (in_state r) (job_operation_len r) (read_buf r) (write_buf r) (pbufs r) (clients r) (channels r) (trace r).
Definition with_poll_read (g : bool -> bool) (r : st) : st :=
  St (replies r) (live r) (jobs r) (quitting r) (exiting r) (have_netif r) (listener r) (listener_ip6 r) (timer_set r) (tcp_timer_mod4 r) (frame_mtu r) (out_state r) (job_done_len r) (output_packet r) (g (poll_read r)) (in_state r) (job_operation_len r) (read_buf r) (write_buf r) (pbufs r) (clients r) (channels r) (trace r).
Definition with_in_state (g : pi_state -> pi_state) (r : st) : st :=
  St (replies r) (live r) (jobs r) (quitting r) (exiting r) (have_netif r) (listener r) (listener_ip6 r) (timer_set r) (tcp_timer_mod4 r) (frame_mtu r) (out_state r) (job_done_len r) (output_packet r) (poll_read r) (g (in_state r)) (job_operation_len r) (read_buf r) (write_buf r) (pbufs r) (clients r) (channels r) (trace r).
Definition with_job_operation_len (g : Z -> Z) (r : st) : st :=
  St (replies r) (live r) (jobs r) (quitting r) (exiting r) (have_netif r) (listener r) (listener_ip6 r) (timer_set r) (tcp_timer_mod4 r) (frame_mtu r) (out_state r) (job_done_len r) (output_packet r) (poll_read r) (in_state r) (g (job_operation_len r)) (read_buf r) (write_buf r) (pbufs r) (clients r) (channels r) (trace r).
Definition with_read_buf (g : list Z -> list Z) (r : st) : st :=
  St (replies r) (live r) (jobs r) (quitting r) (exiting r) (have_netif r) (listener r) (listener_ip6 r) (timer_set r) (tcp_timer_mod4 r) (frame_mtu r) (out_state r) (job_done_len r) (output_packet r) (poll_read r) (in_state r) (job_operation_len r) (g (read_buf r)) (write_buf r) (pbufs r) (clients r) (channels r) (trace r).
Definition with_write_buf (g : list Z -> list Z) (r : st) : st :=
  St (replies r) (live r) (jobs r) (quitting r) (exiting r) (have_netif r) (listener r) (listener_ip6 r) (timer_set r) (tcp_timer_mod4 r) (frame_mtu r) (out_state r) (job_done_len r) (output_packet r) (poll_read r) (in_state r) (job_operation_len r) (read_buf r) (g (write_buf r)) (pbufs r) (clients r) (channels r) (trace r).
Definition with_pbufs (g : nat -> nat) (r : st) : st :=
  St (replies r) (live r) (jobs r) (quitting r) (exiting r) (have_netif r) (listener r) (listener_ip6 r) (timer_set r) (tcp_timer_mod4 r) (frame_mtu r) (out_state r) (job_done_len r) (output_packet r) (poll_read r) (in_state r) (job_operation_len r) (read_buf r) (write_buf r) (g (pbufs r)) (clients r) (channels r) (trace r).
Definition with_clients (g : TunRun.world -> TunRun.world) (r : st) : st :=
  St (replies r) (live r) (jobs r) (quitting r) (exiting r) (have_netif r) (listener r) (listener_ip6 r) (timer_set r) (tcp_timer_mod4 r) (frame_mtu r) (out_state r) (job_done_len r) (output_packet r) (poll_read r) (in_state r) (job_operation_len r) (read_buf r) (write_buf r) (pbufs r) (g (clients r)) (channels r) (trace r).
Definition with_channels (g : list Z -> list Z) (r : st) : st :=
  St (replies r) (live r) (jobs r) (quitting r) (exiting r) (have_netif r) (listener r) (listener_ip6 r) (timer_set r) (tcp_timer_mod4 r) (frame_mtu r) (out_state r) (job_done_len r) (output_packet r) (poll_read r) (in_state r) (job_operation_len r) (read_buf r) (write_buf r) (pbufs r) (clients r) (g (channels r)) (trace r).
Definition with_trace (g : list note -> list note) (r : st) : st :=
  St (replies r) (live r) (jobs r) (quitting r) (exiting r) (have_netif r) (listener r) (listener_ip6 r) (timer_set r) (tcp_timer_mod4 r) (frame_mtu r) (out_state r) (job_done_len r) (output_packet r) (poll_read r) (in_state r) (job_operation_len r) (read_buf r) (write_buf r) (pbufs r) (clients r) (channels r) (g (trace r)).

(** An empty process. *)
Definition start (rs : list reply) : st :=
  St rs [] [] false false false false false false 0 0 STATE_NONE 0 false false STATE_NONE 0 [] [] 0 TunRun.initial [] [].

(** ** Calls *)

Definition acquire (r : resource) : eff st unit := upd_st (with_live (cons r)).

Definition release (line : Z) (r : resource) : eff st unit :=
  s ← get_st;
  match live s with
  | r' :: l => if bool_decide (r' = r) then upd_st (with_live (fun _ => l)) else bad line
  | [] => bad line
  end.

Definition record (n : note) : eff st unit := upd_st (with_trace (fun l => l ++ [n])).

(** The next reply; [default] when there is none. *)
Definition draw (default : Z) : eff st reply :=
  s ← get_st;
  match replies s with
  | [] => mret (Reply default [] [])
  | r :: rs => upd_st (with_replies (fun _ => rs)) ;; mret r
  end.

Definition set_job (j : job) : eff st unit := upd_st (with_jobs (BPending_Set j)).
Definition free_job (j : job) : eff st unit := upd_st (with_jobs (BPending_Free j)).

(** ** Quitting *)

Definition BReactor_Quit : eff st unit := upd_st (with_exiting (fun _ => true)).

Definition terminate : eff st unit :=
  s ← get_st;
  assert_at 731 (negb (quitting s)) ;;
  upd_st (with_quitting (fun _ => true)) ;;
  BReactor_Quit.

Definition signal_handler : eff st unit :=
  s ← get_st;
  assert_at 1199 (negb (quitting s)) ;;
  terminate.

Definition device_error_handler : eff st unit :=
  s ← get_st;
  assert_at 1367 (negb (quitting s)) ;;
  terminate.

(** ** The device *)

(** [DebugError_AssertNoError] *)
Definition assert_no_error (line : Z) : eff st unit :=
  s ← get_st;
  assert_at line (negb (BPending_IsSet DeviceError (jobs s))).

(** [DEBUGERROR] sets a job that fails when it is executed: the loop has to be left before. *)
Definition report_error : eff st unit :=
  assert_no_error 136 ;;
  set_job DeviceError ;;
  device_error_handler.

(** [PacketRecvInterface_Done] on the output of the device *)
Definition Output_Done (data_len : Z) : eff st unit :=
  s ← get_st;
  assert_at 125 (0 <=? data_len) ;;
  assert_at 126 (data_len <=? frame_mtu s) ;;
  assert_at 127 (bool_decide (out_state s = STATE_BUSY)) ;;
  upd_st (with_job_done_len (fun _ => data_len)) ;;
  set_job RecvDone ;;
  upd_st (with_out_state (fun _ => STATE_DONE_PENDING)).

(** [read] of the device into the buffer, which has to have room for [frame_mtu] bytes; the kernel gives at most as many. [None] is an error; no bytes stand for
    the end of the file and for [EAGAIN]. *)
Definition read_device (line : Z) : eff st (option (list Z)) :=
  s ← get_st;
  assert_at line (frame_mtu s <=? Z.of_nat (length (read_buf s))) ;;
  r ← draw 0;
  let data := take (Z.to_nat (frame_mtu s)) (map u8 (r_data r)) in
  if bool_decide (data = []) then mret (if r_num r <? 0 then None else Some [])
  else
    upd_st (with_read_buf (fun b => mem_write b 0 data)) ;;
    record (Read data) ;;
    mret (Some data).

Definition output_handler_recv : eff st unit :=
  assert_no_error 144 ;;
  s ← get_st;
  assert_at 146 (negb (output_packet s)) ;;
  res ← read_device 163;
  match res with
  | None => report_error
  | Some [] =>
      upd_st (with_output_packet (fun _ => true)) ;;
      upd_st (with_poll_read (fun _ => true))
  | Some data =>
      assert_at 182 (Z.of_nat (length data) <=? frame_mtu s) ;;
      Output_Done (Z.of_nat (length data))
  end.

(** [readable]: [BREACTOR_READ] is reported. *)
Definition fd_handler (readable : bool) : eff st unit :=
  assert_no_error 97 ;;
  if negb readable then mret tt
  else
    s ← get_st;
    assert_at 104 (output_packet s) ;;
    res ← read_device 107;
    match res with
    | None => report_error
    | Some [] => mret tt
    | Some data =>
        assert_at 120 (Z.of_nat (length data) <=? frame_mtu s) ;;
        upd_st (with_output_packet (fun _ => false)) ;;
        upd_st (with_poll_read (fun _ => false)) ;;
        Output_Done (Z.of_nat (length data))
    end.

(** What the call returns; the descriptor is one the caller opened. *)
Definition BTap_Init2 (fd mtu : Z) : eff st bool :=
  assert_at 328 (0 <=? fd) ;;
  assert_at 329 (0 <=? mtu) ;;
  upd_st (with_frame_mtu (fun _ => mtu)) ;;
  r ← draw 0;  (* fcntl *)
  if r_num r <? 0 then mret false
  else
    r ← draw 1;  (* BReactor_AddFileDescriptor *)
    if r_num r =? 0 then mret false
    else
      acquire RDevice ;;
      upd_st (with_poll_read (fun _ => false)) ;;
      upd_st (with_out_state (fun _ => STATE_NONE)) ;;
      upd_st (with_output_packet (fun _ => false)) ;;
      mret true.

Definition BTap_Free : eff st unit :=
  free_job DeviceError ;;
  free_job RecvDone ;;
  free_job RecvOperation ;;
  release 504 RDevice.

(** Errors of [write] are ignored. *)
Definition BTap_Send (data : list Z) : eff st unit :=
  s ← get_st;
  assert_at 523 (bool_decide (RDevice ∈ live s)) ;;
  assert_no_error 524 ;;
  assert_at 526 (Z.of_nat (length data) <=? frame_mtu s) ;;
  record (Written data).

(** ** The buffer between the device and [device_read_handler_send] *)

(** [PacketRecvInterface_Receiver_Recv] on the output of the device *)
Definition Output_Recv : eff st unit :=
  s ← get_st;
  assert_at 158 (bool_decide (out_state s = STATE_NONE)) ;;
  set_job RecvOperation ;;
  upd_st (with_out_state (fun _ => STATE_OPERATION_PENDING)).

(** [PacketPassInterface_Sender_Send] on [device_read_interface] *)
Definition Read_Send (data_len : Z) : eff st unit :=
  s ← get_st;
  assert_at 183 (0 <=? data_len) ;;
  assert_at 184 (data_len <=? frame_mtu s) ;;
  assert_at 186 (bool_decide (in_state s = STATE_NONE)) ;;
  upd_st (with_job_operation_len (fun _ => data_len)) ;;
  set_job PassOperation ;;
  upd_st (with_in_state (fun _ => STATE_OPERATION_PENDING)).

(** [PacketPassInterface_Done] on [device_read_interface] *)
Definition Read_Done : eff st unit :=
  s ← get_st;
  assert_at 151 (bool_decide (in_state s = STATE_BUSY)) ;;
  set_job PassDone ;;
  upd_st (with_in_state (fun _ => STATE_DONE_PENDING)).

Definition input_handler_done (in_len : Z) : eff st unit := Read_Send in_len.

Definition output_handler_done : eff st unit := Output_Recv.

Definition SinglePacketBuffer_Init : eff st bool :=
  s ← get_st;
  r ← draw 1;  (* BAlloc *)
  if r_num r =? 0 then mret false
  else
    acquire RReadBuffer ;;
    upd_st (with_read_buf (fun _ => repeat 0 (Z.to_nat (frame_mtu s)))) ;;
    Output_Recv ;;
    mret true.

Definition SinglePacketBuffer_Free : eff st unit := release 86 RReadBuffer.

(** ** From lwIP to the device *)

(** The loop over a chain of more than one pbuf. *)
Fixpoint copy_chain (p : list (list Z)) (len : Z) : eff st unit :=
  match p with
  | [] =>
      s ← get_st;
      BTap_Send (take (Z.to_nat len) (write_buf s))
  | d :: p =>
      s ← get_st;
      if Z.of_nat (length d) >? frame_mtu s - len then mret tt
      else
        assert_at 1590 (len + Z.of_nat (length d) <=? Z.of_nat (length (write_buf s))) ;;
        upd_st (with_write_buf (fun b => mem_write b (Z.to_nat len) d)) ;;
        copy_chain p (len + Z.of_nat (length d))
  end.

(** The device sets no jobs, so that waiting for them with [SYNC_COMMIT] has no effect. *)
Definition common_netif_output (p : chain) : eff st Z :=
  s ← get_st;
  if quitting s then mret ERR_OK
  else
    match p with
    | (d, []) =>
        if Z.of_nat (length d) >? frame_mtu s then mret ERR_OK
        else BTap_Send d ;; mret ERR_OK
    | (d, ds) => copy_chain (d :: ds) 0 ;; mret ERR_OK
    end.

Definition netif_output_func (p : chain) : eff st Z := common_netif_output p.

Fixpoint outputs (ps : list chain) : eff st unit :=
  match ps with
  | [] => mret tt
  | p :: ps => netif_output_func p ;; outputs ps
  end.

(** A call of lwIP, which may send packets; the value it returns. *)
Definition lwip_call (default : Z) : eff st Z :=
  r ← draw default;
  outputs (r_outs r) ;;
  mret (r_num r).

(** ** Handlers *)

(** What the handlers use of the options and of the variables set from them. *)
Record config := Config {
  cf_ipaddr : BIPAddr;
  cf_ip6addr : option (list Z);
  cf_udpgw : bool;
  cf_dnsgw : bool;
  cf_udp_mtu : Z;
  cf_append : bool;
}.

(** The address, when it is an IPv4 address. *)
Definition ipv4_of (a : BIPAddr) : option (list Z) := match a with BIP_IPV4 ip => Some ip | _ => None end.

Section Handlers.
Context (cfg : config).

Definition ip6 : bool := bool_decide (cf_ip6addr cfg <> None).

(** [goto fail] in [lwip_init_job_hadler] *)
Definition init_fail : eff st unit :=
  s ← get_st;
  whenever (negb (quitting s)) terminate.

(** Making a listener for one kind of addresses: whether it is there. *)
Definition make_listener (line : Z) (set : eff st unit) (r : resource) : eff st bool :=
  l ← lwip_call 1;  (* tcp_new_ip_type *)
  if l =? 0 then mret false
  else
    acquire RPcb ;;
    e ← lwip_call ERR_OK;  (* tcp_bind_to_netif *)
    if negb (e =? ERR_OK) then lwip_call ERR_OK ;; release line RPcb ;; mret false
    else
      lwip_call 0 ;;  (* tcp_bind_netif *)
      l ← lwip_call 1;  (* tcp_listen *)
      if l =? 0 then lwip_call ERR_OK ;; release line RPcb ;; mret false
      else
        (* tcp_listen frees the pcb it is given *)
        release line RPcb ;;
        acquire r ;;
        set ;;
        lwip_call 0 ;;  (* tcp_accept *)
        mret true.

Definition lwip_init_job_hadler : eff st unit :=
  s ← get_st;
  assert_at 1219 (negb (quitting s)) ;;
  assert_at 1220 (bool_decide (ipv4_of (cf_ipaddr cfg) <> None)) ;;
  assert_at 1224 (negb (have_netif s)) ;;
  assert_at 1225 (negb (listener s)) ;;
  assert_at 1226 (negb (listener_ip6 s)) ;;
  lwip_call 0 ;;  (* lwip_init *)
  n ← lwip_call 1;  (* netif_add, with netif_init_func *)
  if n =? 0 then init_fail
  else
    acquire RNetif ;;
    record (NetifAdded (default [] (ipv4_of (cf_ipaddr cfg))) [0; 0; 0; 0]) ;;
    upd_st (with_have_netif (fun _ => true)) ;;
    lwip_call 0 ;;  (* netif_set_up *)
    lwip_call 0 ;;  (* netif_set_link_up *)
    lwip_call 0 ;;  (* netif_set_pretend_tcp *)
    lwip_call 0 ;;  (* netif_set_default *)
    match cf_ip6addr cfg with
    | Some addr =>
        record (NetifIp6 addr) ;;
        lwip_call 0 ;;  (* netif_ip6_addr_set *)
        lwip_call 0 ;;  (* netif_ip6_addr_set_state *)
        mret tt
    | None => mret tt
    end ;;
    ok ← make_listener 1282 (upd_st (with_listener (fun _ => true))) RListener;
    if negb ok then init_fail
    else if negb ip6 then mret tt
    else
      ok ← make_listener 1308 (upd_st (with_listener_ip6 (fun _ => true))) RListener6;
      whenever (negb ok) init_fail.

Definition tcp_timer_handler : eff st unit :=
  s ← get_st;
  assert_at 1333 (negb (quitting s)) ;;
  upd_st (with_timer_set (fun _ => true)) ;;
  lwip_call 0 ;;  (* tcp_tmr *)
  record TcpTimer ;;
  upd_st (with_tcp_timer_mod4 (fun n => (n + 1) mod 4)) ;;
  s ← get_st;
  if tcp_timer_mod4 s =? 0 then
    lwip_call 0 ;;  (* ip_reass_tmr *)
    lwip_call 0 ;;  (* nd6_tmr *)
    lwip_call 0 ;;  (* ip6_reass_tmr *)
    record SlowTimers
  else mret tt.

Definition pbuf_free (line : Z) : eff st unit :=
  s ← get_st;
  assert_at line (0 <? pbufs s)%nat ;;
  upd_st (with_pbufs pred).

(** The pbuf holds [data]; lwIP owns it when [ERR_OK] is returned. *)
Definition netif_input_func (data : list Z) : eff st Z :=
  let version := match data with [] => 0 | b :: _ => Z.shiftr b 4 end in
  if (version =? 4) || ((version =? 6) && ip6) then
    e ← lwip_call ERR_OK;  (* ip_input, ip6_input *)
    if e =? ERR_OK then pbuf_free 1612 ;; record (ToLwip data) ;; mret e
    else mret e
  else
    pbuf_free 1621 ;;
    record (Dropped data) ;;
    mret ERR_OK.

Definition device_read_handler_send (data : list Z) : eff st unit :=
  s ← get_st;
  assert_at 1377 (negb (quitting s)) ;;
  Read_Done ;;
  match process_device_udp_packet (cf_udpgw cfg) (cf_dnsgw cfg) ip6 (cf_udp_mtu cfg) data with
  | None => bad 1386
  | Some (Some sub) => record (ToUdpgw data sub)
  | Some None =>
      if Z.of_nat (length data) >? UINT16_MAX then record (Dropped data)
      else
        r ← draw 1;  (* pbuf_alloc *)
        if r_num r =? 0 then record (Dropped data)
        else
          upd_st (with_pbufs S) ;;
          s ← get_st;
          assert_at 1405 (have_netif s) ;;  (* the_netif.input *)
          e ← netif_input_func data;
          if negb (e =? ERR_OK) then pbuf_free 1407 ;; record (Dropped data) else mret tt
  end.

(** ** The event loop *)

(** [_PacketRecvInterface_job_operation] and [_PacketRecvInterface_job_done] of the device's output *)
Definition output_job_operation : eff st unit :=
  s ← get_st;
  assert_at 34 (bool_decide (out_state s = STATE_OPERATION_PENDING)) ;;
  upd_st (with_out_state (fun _ => STATE_BUSY)) ;;
  output_handler_recv.

Definition output_job_done : eff st unit :=
  s ← get_st;
  assert_at 47 (bool_decide (out_state s = STATE_DONE_PENDING)) ;;
  upd_st (with_out_state (fun _ => STATE_NONE)) ;;
  input_handler_done (job_done_len s).

(** [_PacketPassInterface_job_operation] and [_PacketPassInterface_job_done] of [device_read_interface] *)
Definition read_job_operation : eff st unit :=
  s ← get_st;
  assert_at 34 (bool_decide (in_state s = STATE_OPERATION_PENDING)) ;;
  upd_st (with_in_state (fun _ => STATE_BUSY)) ;;
  device_read_handler_send (take (Z.to_nat (job_operation_len s)) (read_buf s)).

Definition read_job_done : eff st unit :=
  s ← get_st;
  assert_at 59 (bool_decide (in_state s = STATE_DONE_PENDING)) ;;
  upd_st (with_in_state (fun _ => STATE_NONE)) ;;
  output_handler_done.

Definition run_job (j : job) : eff st unit :=
  match j with
  | LwipInit => lwip_init_job_hadler
  | DeviceError => bad 67  (* _DebugError_job_handler *)
  | RecvOperation => output_job_operation
  | RecvDone => output_job_done
  | PassOperation => read_job_operation
  | PassDone => read_job_done
  end.

(** What happens outside: a signal, the timer, an event of the device (data, error), a callback of a TCP client together
    with the packets lwIP sends during it, a datagram for the device. A callback that lwIP makes while a handler of this file
    calls it comes after that handler here, which does not look at the clients. *)
Inductive event :=
  | Signal
  | Timer
  | Device (readable error : bool)
  | Client (c : nat) (k : call) (ans : list Z) (outs : list chain)
  | Datagram (local remote : BAddr) (data : list Z).

(** The callbacks of the other parts of the program may also be jobs, which come before the jobs that were set earlier. *)
Definition is_other (e : event) : bool := match e with Client _ _ _ _ | Datagram _ _ _ => true | _ => false end.

(** Two addresses of the same kind. *)
Definition addr_okb (a : BAddr) : bool :=
  match a with
  | BADDR_NONE => false
  | BADDR_IPV4 ip port => bool_decide (length ip = 4%nat) && bool_decide (length port = 2%nat) && bytesb ip && bytesb port
  | BADDR_IPV6 ip port => bool_decide (length ip = 16%nat) && bool_decide (length port = 2%nat) && bytesb ip && bytesb port
  end.
Definition same_kind (a b : BAddr) : bool :=
  match a, b with
  | BADDR_IPV4 _ _, BADDR_IPV4 _ _ | BADDR_IPV6 _ _, BADDR_IPV6 _ _ => addr_okb a && addr_okb b
  | _, _ => false
  end.

(** An event that is not possible now has no effect. *)
Definition run_event (e : event) : eff st unit :=
  s ← get_st;
  match e with
  | Signal => signal_handler
  | Timer => if timer_set s then upd_st (with_timer_set (fun _ => false)) ;; tcp_timer_handler else mret tt
  | Device readable error =>
      let readable := readable && poll_read s in
      if readable || error then fd_handler readable else mret tt
  | Client c k ans outs =>
      if have_netif s && listener s && call_enabled (clients s) c k then
        match perform (cf_append cfg) c k ans (clients s) with
        | None => bad 1640
        | Some (_, w) => upd_st (with_clients (fun _ => w)) ;; outputs outs
        end
      else mret tt
  | Datagram local remote data =>
      if cf_udpgw cfg && same_kind local remote then
        match udpgw_client_handler_received (cf_udpgw cfg) ip6 (frame_mtu s) local remote data with
        | None => bad 2200
        | Some None => mret tt
        | Some (Some packet) =>
            assert_at 2243 (Z.of_nat (length packet) <=? Z.of_nat (length (write_buf s))) ;;
            upd_st (with_write_buf (fun b => mem_write b 0 packet)) ;;
            BTap_Send packet
        end
      else mret tt
  end.

(** [BReactor_Exec]: jobs before events. Whether the loop was left; otherwise it waits for more events. *)
Fixpoint BReactor_Exec (fuel : nat) (evs : list event) : eff st bool :=
  s ← get_st;
  if exiting s then mret true
  else
    match fuel with
    | O => bad 0
    | S fuel =>
        match jobs s, evs with
        | [], [] => mret false
        | [], e :: evs => run_event e ;; BReactor_Exec fuel evs
        | j :: js, e :: evs' =>
            if is_other e && bool_decide (LwipInit ∉ jobs s) then run_event e ;; BReactor_Exec fuel evs'
            else upd_st (with_jobs (fun _ => js)) ;; run_job j ;; BReactor_Exec fuel evs
        | j :: js, [] => upd_st (with_jobs (fun _ => js)) ;; run_job j ;; BReactor_Exec fuel []
        end
    end.

End Handlers.

(** ** Logging *)

Definition default_levels : list Z :=
  map (fun name => if bool_decide (name ∈ [B# "BReactor"; B# "BSignal"; B# "BPredicate"]) then 3 else 4) blog_channel_list.

Definition BLog_Init : eff st unit :=
  acquire RLog ;;
  upd_st (with_channels (fun _ => default_levels)).

Definition BLog_Free : eff st unit := release 722 RLog.

Definition BLog_SetChannelLoglevel (channel : nat) (loglevel : Z) : eff st unit :=
  s ← get_st;
  assert_at 174 (bool_decide (RLog ∈ live s)) ;;
  assert_at 175 (channel <? length (channels s))%nat ;;
  assert_at 176 ((0 <=? loglevel) && (loglevel <=? BLOG_DEBUG)) ;;
  upd_st (with_channels (<[channel := loglevel]>)).

Definition resolve_facility (str : list Z) : bool :=
  bool_decide (str ∈ [B# "authpriv"; B# "cron"; B# "daemon"; B# "ftp"; B# "local0"; B# "local1"; B# "local2"; B# "local3"; B# "local4"; B# "local5";
    B# "local6"; B# "local7"; B# "lpr"; B# "mail"; B# "news"; B# "syslog"; B# "user"; B# "uucp"]).

(** The switch over the logger: [BLog_InitStdout], [BLog_InitSyslog]. *)
Definition init_logger (o : options) : eff st bool :=
  match logger o with
  | LOGGER_STDOUT => BLog_Init ;; mret true
  | LOGGER_SYSLOG => if resolve_facility (logger_syslog_facility o) then BLog_Init ;; mret true else mret false
  end.

(** The loop over the channels; [levels] are those of the channels from [i] on. *)
Fixpoint configure_channels (loglevel : Z) (i : nat) (levels : list Z) : eff st unit :=
  match levels with
  | [] => mret tt
  | l :: levels =>
      (if 0 <=? l then BLog_SetChannelLoglevel i l
       else if 0 <=? loglevel then BLog_SetChannelLoglevel i loglevel else mret tt) ;;
      configure_channels loglevel (S i) levels
  end.

(** ** Starting *)

(** [garbage] is what the variable [fd] holds before it is set. *)
Definition wait_for_fd (garbage : Z) : eff st Z :=
  r ← draw 3;  (* socket *)
  if r_num r =? -1 then mret (-1)
  else
    acquire RSocket ;;
    draw 0 ;;  (* fcntl *)
    draw 0 ;;  (* fcntl *)
    draw 0 ;;  (* unlink *)
    r ← draw 0;  (* bind *)
    if r_num r =? -1 then release 425 RSocket ;; mret (-1)
    else
      r ← draw 0;  (* listen *)
      if r_num r =? -1 then release 431 RSocket ;; mret (-1)
      else
        r ← draw 1;  (* select *)
        fd ← (if r_num r <? 0 then mret garbage
              else
                r ← draw 4;  (* accept *)
                if r_num r =? -1 then mret garbage
                else
                  acquire RSocket2 ;;
                  r ← draw 0;  (* ancil_recv_fd, which may store a descriptor or -1 also when it fails *)
                  release 457 RSocket2 ;;
                  match r_data r with
                  | fd :: _ => mret (Z.max (-1) fd)
                  | [] => mret (if r_num r =? 0 then -1 else garbage)
                  end);
        release 466 RSocket ;;
        mret fd.

(** The exit code, when the process ends here. *)
Definition daemonize : eff st (option Z) :=
  r ← draw 0;  (* fork *)
  if r_num r <? 0 then mret (Some 1)
  else if 0 <? r_num r then
    r ← draw 1;  (* fopen *)
    mret (Some (if r_num r =? 0 then 1 else 0))
  else
    r ← draw 1;  (* setsid *)
    if r_num r <? 0 then mret (Some 1)
    else
      r ← draw 0;  (* chdir *)
      mret (if r_num r <? 0 then Some 1 else None).

Definition compute_udp_mtu (mtu : Z) (ip6 : bool) : Z :=
  let udp_mtu := mtu - (sizeof_ipv4 + sizeof_udp) in
  let udp_ip6_mtu := mtu - (sizeof_ipv6 + sizeof_udp) in
  let udp_mtu := if ip6 && (udp_mtu <? udp_ip6_mtu) then udp_ip6_mtu else udp_mtu in
  if udp_mtu <? 0 then 0 else udp_mtu.

Definition sizeof_socks_udp_header : Z := 4.
Definition sizeof_udpgw_addr_ipv4 : Z := 6.
Definition sizeof_udpgw_addr_ipv6 : Z := 18.
Definition PACKETPROTO_MAXPAYLOAD : Z := 65535.

Definition udpgw_compute_mtu (dgram_mtu : Z) : Z :=
  let bs := sizeof_socks_udp_header + (Z.max sizeof_udpgw_addr_ipv4 sizeof_udpgw_addr_ipv6 + dgram_mtu) in
  if bs >? INT_MAX then -1 else bs.

(** On Android nothing of it can fail. *)
Definition SocksUdpGwClient_Init (server : BAddr) : eff st unit :=
  assert_at 511 (negb (bool_decide (server = BADDR_NONE))) ;;
  acquire RUdpgw.

(** ** The labels at the end of [main] *)

Inductive ending := Returned (code : Z) | Exited (code : Z) | Waiting.

Definition BReactor_Free : eff st unit :=
  s ← get_st;
  assert_at 711 (bool_decide (jobs s = [])) ;;
  assert_at 712 (negb (timer_set s)) ;;
  release 718 RReactor.

Definition PacketPassInterface_Free : eff st unit :=
  free_job PassDone ;;
  free_job PassOperation ;;
  release 713 RReadInterface.

Section Labels.
(** [password_file_contents] is not the null pointer *)
Context (contents : bool).

Definition fail1 : eff st ending := whenever contents (release 720 RPassword) ;; BLog_Free ;; mret (Returned 1).
Definition fail2 : eff st ending := BReactor_Free ;; fail1.
Definition fail3 : eff st ending := release 716 RSignal ;; fail2.
Definition fail4 : eff st ending := PacketPassInterface_Free ;; BTap_Free ;; fail3.
Definition fail4a : eff st ending := SinglePacketBuffer_Free ;; fail4.
Definition fail5 (udpgw : bool) : eff st ending :=
  free_job LwipInit ;;
  release 706 RInitJob ;;
  whenever udpgw (release 708 RUdpgw) ;;
  fail4a.

(** The pcbs of one list of lwIP, of which there are [n]. *)
Fixpoint tcp_remove (n : nat) : eff st unit :=
  match n with
  | O => mret tt
  | S n => lwip_call 0 ;; tcp_remove n
  end.

(** What follows the event loop. [connections_tree] is empty, because nothing is ever inserted. *)
Definition leave_loop (udpgw : bool) : eff st ending :=
  s ← get_st;
  match free_clients (length (w_list (clients s))) (clients s) with
  | None => bad 678
  | Some w =>
      upd_st (with_clients (fun _ => w)) ;;
      lwip_call 0 ;;
      whenever (listener_ip6 s) (lwip_call 0 ;; release 683 RListener6) ;;
      whenever (listener s) (lwip_call 0 ;; release 686 RListener) ;;
      whenever (have_netif s) (lwip_call 0 ;; release 691 RNetif) ;;
      n ← draw 0; tcp_remove (Z.to_nat (r_num n)) ;;
      n ← draw 0; tcp_remove (Z.to_nat (r_num n)) ;;
      n ← draw 0; tcp_remove (Z.to_nat (r_num n)) ;;
      upd_st (with_timer_set (fun _ => false)) ;;
      release 702 RTimer ;;
      release 703 RWriteBuf ;;
      fail5 udpgw
  end.

(** From the job that initialises lwIP on. *)
Definition start_loop (o : options) (p : processed) (udpgw : bool) (udp_mtu : Z) (fuel : nat) (evs : list event) : eff st ending :=
  acquire RInitJob ;;
  set_job LwipInit ;;
  r ← draw 1;  (* BAlloc *)
  if r_num r =? 0 then fail5 udpgw
  else
    acquire RWriteBuf ;;
    s ← get_st;
    upd_st (with_write_buf (fun _ => repeat 0 (Z.to_nat (frame_mtu s)))) ;;
    acquire RTimer ;;
    upd_st (with_timer_set (fun _ => true)) ;;
    upd_st (with_tcp_timer_mod4 (fun _ => 0)) ;;
    upd_st (with_have_netif (fun _ => false)) ;;
    upd_st (with_listener (fun _ => false)) ;;
    upd_st (with_listener_ip6 (fun _ => false)) ;;
    upd_st (with_clients (fun _ => TunRun.initial)) ;;
    let cfg := Config (pr_netif p) (pr_ip6addr p) udpgw (bool_decide (opt_dnsgw o <> None)) udp_mtu (append_source_to_username o) in
    over ← BReactor_Exec cfg fuel evs;
    if negb over then mret Waiting else leave_loop udpgw.

(** From the reactor on, when the arguments are processed. *)
Definition run_reactor (o : options) (p : processed) (fd : Z) (fuel : nat) (evs : list event) : eff st ending :=
  let udpgw := bool_decide (udpgw_remote_server_addr o <> None) in
  r ← draw 1;  (* BReactor_Init *)
  if r_num r =? 0 then fail1
  else
    acquire RReactor ;;
    upd_st (with_quitting (fun _ => false)) ;;
    r ← draw 1;  (* BSignal_Init *)
    if r_num r =? 0 then fail2
    else
      acquire RSignal ;;
      ok ← BTap_Init2 fd (tun_mtu o);
      if negb ok then fail3
      else
        acquire RReadInterface ;;
        upd_st (with_in_state (fun _ => STATE_NONE)) ;;
        ok ← SinglePacketBuffer_Init;
        if negb ok then fail4
        else
          s ← get_st;
          let udp_mtu := compute_udp_mtu (frame_mtu s) (bool_decide (netif_ip6addr o <> None)) in
          if udpgw && ((udpgw_compute_mtu udp_mtu <? 0) || (udpgw_compute_mtu udp_mtu >? PACKETPROTO_MAXPAYLOAD)) then fail4a
          else
            whenever udpgw (SocksUdpGwClient_Init (pr_server p)) ;;
            start_loop o p udpgw udp_mtu fuel evs.

End Labels.

Section Main.
Context (getaddrinfo : bool -> list Z -> bool -> option (list Z)) (read_file : list Z -> option (list Z)).

Definition main (argv : list (list Z)) (garbage : Z) (fuel : nat) (evs : list event) : eff st ending :=
  match parse_arguments argv with
  | None => mret (Returned 1)
  | Some o =>
      if help o || version o then mret (Returned 0)
      else
        ok ← init_logger o;
        if negb ok then mret (Returned 1)
        else
          configure_channels (loglevel o) 0 (loglevels o) ;;
          fd ← wait_for_fd garbage;
          if fd =? -1 then fail1 false
          else
            code ← match pid o with Some _ => daemonize | None => mret None end;
            match code with
            | Some code => mret (Exited code)
            | None =>
                r ← draw 1;  (* BNetwork_GlobalInit *)
                if r_num r =? 0 then fail1 false
                else
                  let (p, c) := process_arguments getaddrinfo read_file o in
                  let contents := bool_decide (c <> None) in
                  whenever contents (acquire RPassword) ;;
                  match p with
                  | None => fail1 contents
                  | Some p => run_reactor contents o p fd fuel evs
                  end
            end
  end.

End Main.

End TunMain.
