(* ===== verification/TunMainLoop.v ===== *)
(** * The event loop and the shut-down of tun2socks: invariants

    What holds between two rounds of the event loop, and that every job and every event keeps it, for any results of the calls of the
    system and of lwIP; that a round leaves less to do; and that the labels at the end of [main] free what is there when they are reached. *)

From S2P Require Import Prelude CLib Mem Effect BAddr BPending TunClient TunInv TunStep TunRun UdpPacket UdpFacts BSocksClient IpText TunOptions TunMain.

Open Scope Z_scope.

Import IpText TunOptions TunMain.

(** ** Packets to the device *)

(** The state after lwIP sent some packets: replies may be used up, and the buffer overwritten. *)
Definition sent (rs : list reply) (wb : list Z) (ps : list (list Z)) (s : st) : st :=
  with_trace (fun t => t ++ map Written ps) (with_write_buf (fun _ => wb) (with_replies (fun _ => rs) s)).

(** Evaluates updates of a concrete record, from the inside. *)
Ltac record_simpl :=
  cbv [sent with_replies with_live with_jobs with_quitting with_exiting with_have_netif with_listener with_listener_ip6 with_timer_set
    with_tcp_timer_mod4 with_frame_mtu with_out_state with_job_done_len with_output_packet with_poll_read with_in_state with_job_operation_len
    with_read_buf with_write_buf with_pbufs with_clients with_channels with_trace replies live jobs quitting exiting have_netif listener
    listener_ip6 timer_set tcp_timer_mod4 frame_mtu out_state job_done_len output_packet poll_read in_state job_operation_len read_buf
    write_buf pbufs clients channels trace].

Lemma sent_nil s : sent (replies s) (write_buf s) [] s = s.
Proof. destruct s. record_simpl. f_equal. apply app_nil_r. Qed.

Record can_write (s : st) : Prop := CanWrite {
  cw_device : RDevice ∈ live s;
  cw_error : DeviceError ∉ jobs s;
  cw_mtu : 0 <= frame_mtu s;
  cw_buf : Z.of_nat (length (write_buf s)) = frame_mtu s;
}.

Definition can_send (s : st) : Prop := quitting s = true \/ can_write s.

Lemma assert_no_error_ok line Q s : DeviceError ∉ jobs s -> Q tt s -> runs (assert_no_error line) Q s.
Proof.
  intros H HQ. unfold assert_no_error. apply eff_bind, eff_get, eff_assert; [|done].
  unfold BPending_IsSet. now rewrite bool_decide_false.
Qed.

Lemma BTap_Send_ok data Q s :
  can_write s -> Z.of_nat (length data) <= frame_mtu s -> Q tt (with_trace (fun t => t ++ [Written data]) s) -> runs (BTap_Send data) Q s.
Proof.
  intros [H1 H2 _ _] Hlen HQ. unfold BTap_Send. apply eff_bind, eff_get, eff_bind, eff_assert; [now apply bool_decide_true|].
  apply eff_bind, assert_no_error_ok; [done|]. apply eff_bind, eff_assert; [lia|]. exact HQ.
Qed.

(** The bytes in a chain. *)
Definition total (p : list (list Z)) : Z := Z.of_nat (length (concat p)).

Lemma total_cons d p : total (d :: p) = Z.of_nat (length d) + total p.
Proof. unfold total. cbn [concat]. rewrite length_app. lia. Qed.

Lemma total_nonneg p : 0 <= total p.
Proof. unfold total. lia. Qed.

Lemma take_mem_write (b d : list Z) n :
  (n + length d <= length b)%nat -> take (n + length d) (mem_write b n d) = take n b ++ d.
Proof.
  intros H. unfold mem_write. rewrite app_assoc. rewrite take_app_le by (rewrite length_app, length_take; lia).
  apply take_ge. rewrite length_app, length_take. lia.
Qed.

Lemma copy_chain_ok p : forall len s,
  can_write s -> 0 <= len <= frame_mtu s ->
  runs (copy_chain p len) (fun _ s' => exists wb, length wb = length (write_buf s) /\
    s' = sent (replies s) wb (if len + total p <=? frame_mtu s then [take (Z.to_nat len) (write_buf s) ++ concat p] else []) s) s.
Proof.
  induction p as [|d p IH]; intros len s Hw Hlen; cbn [copy_chain].
  - apply eff_bind, eff_get, BTap_Send_ok; [done|rewrite length_take; pose proof (cw_buf s Hw); lia|].
    exists (write_buf s). split; [done|]. change (total []) with 0. replace (len + 0 <=? frame_mtu s) with true by lia.
    cbn [concat]. rewrite app_nil_r. now destruct s.
  - rewrite total_cons. pose proof (total_nonneg p). apply eff_bind, eff_get. destruct (Z.gtb_spec (Z.of_nat (length d)) (frame_mtu s - len)) as [Hg|Hg].
    + apply eff_ret. exists (write_buf s). split; [done|]. replace (_ <=? _) with false by lia. now rewrite sent_nil.
    + pose proof (cw_buf s Hw). apply eff_bind, eff_assert; [lia|]. apply eff_bind, eff_upd.
      set (s1 := with_write_buf _ s). assert (Hl1 : length (write_buf s1) = length (write_buf s)) by (cbn; apply mem_write_length; lia).
      assert (Hw1 : can_write s1) by (destruct Hw as [A B C D]; split; [exact A|exact B|exact C|rewrite Hl1; exact D]).
      eapply eff_mono; [apply (IH _ s1 Hw1); cbn [frame_mtu with_write_buf s1]; lia|].
      intros _ s' (wb & Hwb & ->). exists wb. split; [congruence|]. cbn [frame_mtu with_write_buf s1 replies write_buf].
      rewrite <- Z.add_assoc. replace (Z.to_nat (len + Z.of_nat (length d))) with (Z.to_nat len + length d)%nat by lia.
      rewrite take_mem_write by lia. cbn [concat]. rewrite <- app_assoc. reflexivity.
Qed.

(** The packet that a chain makes, if the device takes it. *)
Definition packet_of (mtu : Z) (p : chain) : list (list Z) := if total (p.1 :: p.2) <=? mtu then [concat (p.1 :: p.2)] else [].

Lemma netif_output_ok p s :
  can_write s -> quitting s = false ->
  runs (common_netif_output p) (fun e s' => e = ERR_OK /\ exists wb, length wb = length (write_buf s) /\
    s' = sent (replies s) wb (packet_of (frame_mtu s) p) s) s.
Proof.
  intros Hw Hq. unfold common_netif_output. apply eff_bind, eff_get. rewrite Hq. destruct p as [d [|d2 ds]].
  - unfold packet_of. cbn [fst snd]. assert (Ht : total [d] = Z.of_nat (length d)) by (unfold total; cbn [concat]; now rewrite app_nil_r). rewrite Ht.
    destruct (Z.gtb_spec (Z.of_nat (length d)) (frame_mtu s)) as [Hg|Hg].
    + apply eff_ret. split; [done|]. exists (write_buf s). split; [done|]. replace (_ <=? _) with false by lia. now rewrite sent_nil.
    + apply eff_bind, BTap_Send_ok; [done|lia|]. apply eff_ret. split; [done|]. exists (write_buf s). split; [done|]. replace (_ <=? _) with true by lia.
      cbn [concat]. rewrite app_nil_r. now destruct s.
  - apply eff_bind. eapply eff_mono; [apply copy_chain_ok; [done|pose proof (cw_mtu s Hw); lia]|].
    intros _ s' (wb & Hwb & ->). apply eff_ret. split; [done|]. exists wb. split; [done|]. reflexivity.
Qed.

(** ** Calls of lwIP *)

Lemma output_sent rs wb ps rs' wb' ps' s : sent rs wb ps (sent rs' wb' ps' s) = sent rs wb (ps' ++ ps) s.
Proof. destruct s. record_simpl. f_equal. now rewrite map_app, app_assoc. Qed.

Lemma can_write_sent rs wb ps s : length wb = length (write_buf s) -> can_write s -> can_write (sent rs wb ps s).
Proof. intros E [A B C D]. split; [exact A|exact B|exact C|]. cbn [sent write_buf with_trace with_write_buf]. rewrite E. exact D. Qed.

Lemma outputs_ok ps : forall s, can_send s ->
  runs (outputs ps) (fun _ s' => exists wb, length wb = length (write_buf s) /\
    s' = sent (replies s) wb (if quitting s then [] else flat_map (packet_of (frame_mtu s)) ps) s) s.
Proof.
  induction ps as [|p ps IH]; intros s Hs; cbn [outputs flat_map].
  - apply eff_ret. exists (write_buf s). split; [done|]. destruct (quitting s); now rewrite sent_nil.
  - apply eff_bind. unfold netif_output_func. destruct (quitting s) eqn:Eq.
    + unfold common_netif_output. apply eff_bind, eff_get. rewrite Eq. apply eff_ret. specialize (IH s Hs). rewrite Eq in IH. exact IH.
    + destruct Hs as [Hs|Hw]; [congruence|]. eapply eff_mono; [apply netif_output_ok; done|]. intros e s1 (_ & wb & Hwb & ->).
      eapply eff_mono; [apply IH; right; now apply can_write_sent|]. intros _ s' (wb' & Hwb' & ->). exists wb'.
      split; [etransitivity; [exact Hwb'|exact Hwb]|]. rewrite output_sent.
      change (quitting (sent (replies s) wb (packet_of (frame_mtu s) p) s)) with (quitting s). rewrite Eq. reflexivity.
Qed.

Lemma draw_ok d Q s :
  (replies s = [] -> Q (Reply d [] []) s) -> (forall r rs, replies s = r :: rs -> Q r (with_replies (fun _ => rs) s)) -> runs (draw d) Q s.
Proof.
  intros H0 H1. unfold draw. apply eff_bind, eff_get. destruct (replies s) as [|r rs] eqn:E; [apply eff_ret; auto|].
  apply eff_bind, eff_upd, eff_ret. auto.
Qed.

(** The value is drawn from the replies, or the default; nothing that matters changes, and the replies do not become more. *)
Lemma draw_sent d Q s :
  (forall r rs, (length rs <= length (replies s))%nat -> Q r (sent rs (write_buf s) [] s)) -> runs (draw d) Q s.
Proof.
  intros H. apply draw_ok.
  - intros E. pose proof (H (Reply d [] []) (replies s) (le_n _)) as H1. now rewrite sent_nil in H1.
  - intros r rs E. replace (with_replies (fun _ => rs) s) with (sent rs (write_buf s) [] s); [apply H; rewrite E; cbn; lia|].
    destruct s. record_simpl. f_equal. apply app_nil_r.
Qed.

Lemma lwip_call_ok d (Q : Z -> st -> Prop) s :
  can_send s ->
  (forall n rs wb ps, (length rs <= length (replies s))%nat -> length wb = length (write_buf s) -> (quitting s = true -> ps = []) -> Q n (sent rs wb ps s)) ->
  runs (lwip_call d) Q s.
Proof.
  intros Hs H. unfold lwip_call. apply eff_bind, draw_sent. intros r rs Hrs. apply eff_bind.
  assert (Hs1 : can_send (sent rs (write_buf s) [] s)) by (destruct Hs as [Hs|Hs]; [now left|right; now apply can_write_sent]).
  eapply eff_mono; [apply outputs_ok, Hs1|]. intros _ s' (wb & Hwb & ->). apply eff_ret. rewrite output_sent. cbn [app].
  apply H; [done|done|]. intros E. change (quitting (sent rs (write_buf s) [] s)) with (quitting s). now rewrite E.
Qed.

(** ** The invariant of the event loop *)

Definition read_of (n : note) : list (list Z) := match n with Read d => [d] | _ => [] end.
Definition handled_of (n : note) : list (list Z) := match n with ToUdpgw d _ | ToLwip d | Dropped d => [d] | _ => [] end.

(** The packets that were read, and those that were passed on or thrown away. *)
Definition reads (t : list note) : list (list Z) := flat_map read_of t.
Definition handled (t : list note) : list (list Z) := flat_map handled_of t.

Lemma reads_app t t' : reads (t ++ t') = reads t ++ reads t'.
Proof. apply flat_map_app. Qed.

Lemma handled_app t t' : handled (t ++ t') = handled t ++ handled t'.
Proof. apply flat_map_app. Qed.

Lemma written_quiet ps : reads (map Written ps) = [] /\ handled (map Written ps) = [].
Proof. induction ps as [|p ps [IH1 IH2]]; [done|]. split; [exact IH1|exact IH2]. Qed.

(** What concerns the reading of the device. *)
Record reader := Reader {
  d_mtu : Z; d_out : pi_state; d_done : Z; d_packet : bool; d_poll : bool; d_in : pi_state; d_op : Z; d_buf : list Z;
  d_jobs : list job; d_reads : list (list Z); d_handled : list (list Z) }.

Definition reader_of (s : st) : reader :=
  Reader (frame_mtu s) (out_state s) (job_done_len s) (output_packet s) (poll_read s) (in_state s) (job_operation_len s) (read_buf s)
    (BPending_Unset LwipInit (jobs s)) (reads (trace s)) (handled (trace s)).

(** At most one packet is on its way, and it is in the buffer. *)
Definition reader_ok (d : reader) : Prop :=
  match d_jobs d with
  | [] => d_out d = STATE_BUSY /\ d_in d = STATE_NONE /\ d_packet d = true /\ d_poll d = true /\ d_reads d = d_handled d
  | [RecvOperation] => d_out d = STATE_OPERATION_PENDING /\ d_in d = STATE_NONE /\ d_packet d = false /\ d_poll d = false /\ d_reads d = d_handled d
  | [RecvDone] =>
      d_out d = STATE_DONE_PENDING /\ d_in d = STATE_NONE /\ d_packet d = false /\ d_poll d = false /\ 0 <= d_done d <= d_mtu d /\
      bytes (take (Z.to_nat (d_done d)) (d_buf d)) /\ d_reads d = d_handled d ++ [take (Z.to_nat (d_done d)) (d_buf d)]
  | [PassOperation] =>
      d_out d = STATE_NONE /\ d_in d = STATE_OPERATION_PENDING /\ d_packet d = false /\ d_poll d = false /\
      bytes (take (Z.to_nat (d_op d)) (d_buf d)) /\ d_reads d = d_handled d ++ [take (Z.to_nat (d_op d)) (d_buf d)]
  | [PassDone] => d_out d = STATE_NONE /\ d_in d = STATE_DONE_PENDING /\ d_packet d = false /\ d_poll d = false /\ d_reads d = d_handled d
  | _ => False
  end.

Lemma reader_sent rs wb ps s : reader_of (sent rs wb ps s) = reader_of s.
Proof.
  unfold reader_of. cbn [sent with_trace with_write_buf with_replies frame_mtu out_state job_done_len output_packet poll_read in_state job_operation_len read_buf jobs trace].
  rewrite reads_app, handled_app. destruct (written_quiet ps) as [-> ->]. now rewrite !app_nil_r.
Qed.

(** All packets but perhaps the last were handled. *)
Definition nothing_lost (s : st) : Prop := exists fl, reads (trace s) = handled (trace s) ++ fl /\ (length fl <= 1)%nat.

Lemma reader_nothing_lost s : reader_ok (reader_of s) -> nothing_lost s.
Proof.
  unfold reader_ok, nothing_lost. cbn [reader_of d_jobs d_reads d_handled d_op d_done d_buf].
  destruct (BPending_Unset LwipInit (jobs s)) as [|[] [|]]; intros H; try done;
    decompose [and] H; eexists; (split; [first [eassumption|rewrite app_nil_r; eassumption]|cbn; lia]).
Qed.

Section Loop.
Context (cfg : config) (base : list resource) (Hip : ipv4_of (cf_ipaddr cfg) <> None).

(** What lwIP got at start-up. *)
Definition tops (s : st) : list resource :=
  (if listener_ip6 s then [RListener6] else []) ++ (if listener s then [RListener] else []) ++ (if have_netif s then [RNetif] else []).

Record always (top : list resource) (s : st) : Prop := Always {
  al_live : live s = top ++ base;
  al_device : RDevice ∈ base;
  al_mtu : 0 <= frame_mtu s;
  al_rbuf : Z.of_nat (length (read_buf s)) = frame_mtu s;
  al_wbuf : Z.of_nat (length (write_buf s)) = frame_mtu s;
  al_clients : world_inv (clients s);
  al_pbufs : pbufs s = 0%nat;
  al_exit : exiting s = quitting s;
  al_error : quitting s = false -> DeviceError ∉ jobs s;
}.

(** While the loop goes on: first lwIP is initialised, then it is there. *)
Record running (s : st) : Prop := Running {
  ru_timer : timer_set s = true;
  ru_reader : reader_ok (reader_of s);
  ru_lwip :
    if bool_decide (LwipInit ∈ jobs s)
    then jobs s = LwipInit :: BPending_Unset LwipInit (jobs s) /\ have_netif s = false /\ listener s = false /\ listener_ip6 s = false
    else have_netif s = true /\ listener s = true /\ listener_ip6 s = ip6 cfg;
}.

Record loop_inv (s : st) : Prop := LoopInv {
  li_always : always (tops s) s;
  li_state : if quitting s then nothing_lost s else running s;
}.

(** Rounds of the loop until the device is waited for, as far as the replies reach. *)
Definition rank (j : job) : nat :=
  match j with LwipInit => 1 | DeviceError => 0 | RecvOperation => 1 | RecvDone => 4 | PassOperation => 3 | PassDone => 2 end.

Definition measure (s : st) : nat := 5 * length (replies s) + sum_list_with rank (jobs s).

(** ** Handlers that only call lwIP *)

Record mid (n : nat) (rd : reader) (js : list job) (top : list resource) (h l l6 : bool) (s : st) : Prop := Mid {
  m_always : always top s;
  m_flags : have_netif s = h /\ listener s = l /\ listener_ip6 s = l6;
  m_reader : reader_of s = rd;
  m_jobs : jobs s = js;
  m_quit : quitting s = false;
  m_timer : timer_set s = true;
  m_replies : (length (replies s) <= n)%nat;
}.

Lemma always_can_send top s : always top s -> can_send s.
Proof.
  intros [A B C D E F G H I]. destruct (quitting s) eqn:Eq; [now left|]. right. split; [rewrite A; apply elem_of_app; now right|auto|done|done].
Qed.

Lemma always_sent rs wb ps top s : length wb = length (write_buf s) -> always top s -> always top (sent rs wb ps s).
Proof. intros Hwb [A B C D E F G H I]. split; try done. cbn [sent write_buf with_trace with_write_buf frame_mtu with_replies]. rewrite Hwb. exact E. Qed.

Lemma mid_sent rs wb ps n rd js top h l l6 s :
  length wb = length (write_buf s) -> (length rs <= length (replies s))%nat -> mid n rd js top h l l6 s -> mid n rd js top h l l6 (sent rs wb ps s).
Proof.
  intros Hwb Hrs [A B C D E F G]. split; [now apply always_sent|exact B|now rewrite reader_sent|exact D|exact E|exact F|].
  cbn [sent replies with_trace with_write_buf with_replies]. lia.
Qed.

Lemma mid_lwip n rd js top h l l6 d Q s :
  mid n rd js top h l l6 s -> (forall z s', mid n rd js top h l l6 s' -> Q z s') -> runs (lwip_call d) Q s.
Proof.
  intros Hm H. apply lwip_call_ok; [eapply always_can_send, Hm|]. intros z rs wb ps H1 H2 _. apply H. now apply mid_sent.
Qed.

Lemma mid_acquire n rd js top h l l6 r Q s :
  mid n rd js top h l l6 s -> (forall s', mid n rd js (r :: top) h l l6 s' -> Q tt s') -> runs (acquire r) Q s.
Proof.
  intros [[A B C D E F G H I] X1 X2 X3 X4 X5 X6] HQ. apply eff_upd, HQ.
  split; [split|..]; try assumption. cbn [live with_live]. now rewrite A.
Qed.

Lemma mid_release n rd js top h l l6 r line Q s :
  mid n rd js (r :: top) h l l6 s -> (forall s', mid n rd js top h l l6 s' -> Q tt s') -> runs (release line r) Q s.
Proof.
  intros [[A B C D E F G H I] X1 X2 X3 X4 X5 X6] HQ. unfold release. apply eff_bind, eff_get. rewrite A. cbn [app].
  rewrite bool_decide_true by done. apply eff_upd, HQ. split; [split|..]; assumption || reflexivity.
Qed.

Lemma mid_record n rd js top h l l6 note Q s :
  read_of note = [] -> handled_of note = [] ->
  mid n rd js top h l l6 s -> (forall s', mid n rd js top h l l6 s' -> Q tt s') -> runs (record note) Q s.
Proof.
  intros H1 H2 [[A B C D E F G H I] X1 X2 X3 X4 X5 X6] HQ. apply eff_upd, HQ. split; [split|..]; try assumption.
  rewrite <- X2. unfold reader_of. cbn [trace with_trace out_state job_done_len output_packet poll_read in_state job_operation_len read_buf jobs].
  rewrite reads_app, handled_app. cbn [reads handled flat_map]. rewrite H1, H2. cbn [app]. now rewrite !app_nil_r.
Qed.

Lemma terminate_ok (Q : unit -> st -> Prop) s :
  quitting s = false -> Q tt (with_exiting (fun _ => true) (with_quitting (fun _ => true) s)) -> runs terminate Q s.
Proof. intros E HQ. unfold terminate. apply eff_bind, eff_get, eff_bind, eff_assert; [now rewrite E|]. exact HQ. Qed.

Lemma always_quit top s : always top s -> always top (with_exiting (fun _ => true) (with_quitting (fun _ => true) s)).
Proof. intros [A B C D E F G H I]. split; done. Qed.

(** [goto fail] *)
Lemma init_fail_ok n rd js top h l l6 (Q : unit -> st -> Prop) s :
  mid n rd js top h l l6 s -> top = (if l6 then [RListener6] else []) ++ (if l then [RListener] else []) ++ (if h then [RNetif] else []) ->
  reader_ok rd ->
  (forall s', loop_inv s' -> quitting s' = true -> Q tt s') -> runs init_fail Q s.
Proof.
  intros [A (B1 & B2 & B3) C D E F G] Et Hr HQ. unfold init_fail. apply eff_bind, eff_get. rewrite E. cbn [negb whenever].
  apply terminate_ok; [done|]. apply HQ; [|done]. split; [|].
  - unfold tops. cbn [listener_ip6 listener have_netif with_exiting with_quitting]. rewrite B1, B2, B3, <- Et. now apply always_quit.
  - cbn [quitting with_exiting with_quitting]. rewrite <- C in Hr. exact (reader_nothing_lost _ Hr).
Qed.
Lemma make_listener_ok n rd js top h l l6 h' l' l6' line set r (Q : bool -> st -> Prop) s :
  (forall (Q : unit -> st -> Prop) s, mid n rd js (r :: top) h l l6 s -> (forall s', mid n rd js (r :: top) h' l' l6' s' -> Q tt s') -> runs set Q s) ->
  mid n rd js top h l l6 s ->
  (forall s', mid n rd js top h l l6 s' -> Q false s') -> (forall s', mid n rd js (r :: top) h' l' l6' s' -> Q true s') ->
  runs (make_listener line set r) Q s.
Proof.
  intros Hset Hm Hf Ht. unfold make_listener. apply eff_bind. eapply mid_lwip; [exact Hm|]. intros z s1 H1. destruct (z =? 0); [now apply eff_ret, Hf|].
  apply eff_bind. eapply mid_acquire; [exact H1|]. intros s2 H2. apply eff_bind. eapply mid_lwip; [exact H2|]. intros e s3 H3.
  destruct (negb (e =? ERR_OK)).
  - apply eff_bind. eapply mid_lwip; [exact H3|]. intros _ s4 H4. apply eff_bind. eapply mid_release; [exact H4|]. intros s5 H5. now apply eff_ret, Hf.
  - apply eff_bind. eapply mid_lwip; [exact H3|]. intros _ s4 H4. apply eff_bind. eapply mid_lwip; [exact H4|]. intros l0 s5 H5. destruct (l0 =? 0).
    + apply eff_bind. eapply mid_lwip; [exact H5|]. intros _ s6 H6. apply eff_bind. eapply mid_release; [exact H6|]. intros s7 H7. now apply eff_ret, Hf.
    + apply eff_bind. eapply mid_release; [exact H5|]. intros s6 H6. apply eff_bind. eapply mid_acquire; [exact H6|]. intros s7 H7.
      apply eff_bind, Hset; [exact H7|]. intros s8 H8. apply eff_bind. eapply mid_lwip; [exact H8|]. intros _ s9 H9. now apply eff_ret, Ht.
Qed.

(** After the handler everything lwIP needs is there, or the loop is left. *)
Lemma mid_loop_inv n rd js s :
  mid n rd js ((if ip6 cfg then [RListener6] else []) ++ [RListener; RNetif]) true true (ip6 cfg) s -> LwipInit ∉ js -> reader_ok rd -> loop_inv s.
Proof.
  intros [A (B1 & B2 & B3) C D E F G] Hj Hr. split; [unfold tops; rewrite B1, B2, B3; exact A|]. rewrite E. split; [done|now rewrite C|].
  rewrite D, bool_decide_false by done. done.
Qed.

Lemma lwip_init_ok n rd js (Q : unit -> st -> Prop) s :
  mid n rd js [] false false false s -> LwipInit ∉ js -> reader_ok rd ->
  (forall s', loop_inv s' -> (quitting s' = true \/ jobs s' = js /\ (length (replies s') <= n)%nat) -> Q tt s') ->
  runs (lwip_init_job_hadler cfg) Q s.
Proof.
  intros Hm Hj Hr HQ. pose proof Hm as [A (B1 & B2 & B3) C D E F G]. unfold lwip_init_job_hadler. apply eff_bind, eff_get.
  rewrite E, B1, B2, B3. apply eff_bind, eff_assert; [done|]. apply eff_bind, eff_assert; [now apply bool_decide_true|].
  do 3 (apply eff_bind, eff_assert; [done|]). apply eff_bind. eapply mid_lwip; [exact Hm|]. intros _ s1 H1.
  apply eff_bind. eapply mid_lwip; [exact H1|]. intros z s2 H2. clear s1 H1.
  assert (Hfail : forall s', loop_inv s' -> quitting s' = true -> Q tt s') by (intros s' H H'; apply HQ; auto).
  destruct (z =? 0); [eapply init_fail_ok; [exact H2|done|done|exact Hfail]|].
  apply eff_bind. eapply mid_acquire; [exact H2|]. intros s3 H3. apply eff_bind. eapply mid_record; [done|done|exact H3|]. intros s4 H4.
  apply eff_bind, eff_upd. set (s5 := with_have_netif _ s4).
  assert (H5 : mid n rd js [RNetif] true false false s5) by (destruct H4 as [[] (X1 & X2 & X3)]; split; [split|..]; try assumption; done).
  clearbody s5. clear s2 H2 s3 H3 s4 H4.
  do 4 (apply eff_bind; eapply mid_lwip; [eassumption|]; intros _ ? ?).
  apply eff_bind.
  match goal with H : mid _ _ _ _ _ _ _ ?s |- runs _ _ ?s => rename H into H6; revert H6; generalize s end. intros s6 H6.
  assert (Hnext : forall s, mid n rd js [RNetif] true false false s -> runs
    (ok ← make_listener 1282 (upd_st (with_listener (fun _ => true))) RListener;
     if negb ok then init_fail else if negb (ip6 cfg) then mret tt else
      ok ← make_listener 1308 (upd_st (with_listener_ip6 (fun _ => true))) RListener6; whenever (negb ok) init_fail) Q s).
  { clear - Hj Hr HQ Hfail. intros s Hm. apply eff_bind.
    eapply (make_listener_ok n rd js [RNetif] true false false true true false); [|exact Hm|..].
    { intros Q' s1 H1 HQ'. apply eff_upd, HQ'. destruct H1 as [[] (X1 & X2 & X3)]; split; [split|..]; try assumption; done. }
    { intros s1 H1. eapply init_fail_ok; [exact H1|done|done|exact Hfail]. }
    intros s1 H1. cbn [negb]. destruct (ip6 cfg) eqn:Ei; cbn [negb].
    - apply eff_bind. eapply (make_listener_ok n rd js [RListener; RNetif] true true false true true true); [|exact H1|..].
      { intros Q' s2 H2 HQ'. apply eff_upd, HQ'. destruct H2 as [[] (X1 & X2 & X3)]; split; [split|..]; try assumption; done. }
      { intros s2 H2. eapply init_fail_ok; [exact H2|done|done|exact Hfail]. }
      intros s2 H2. apply eff_ret. apply HQ; [eapply mid_loop_inv; [rewrite Ei; exact H2|done|done]|right; split; apply H2].
    - apply eff_ret. apply HQ; [eapply mid_loop_inv; [rewrite Ei; exact H1|done|done]|right; split; apply H1]. }
  destruct (cf_ip6addr cfg) as [addr|].
  - apply eff_bind. eapply mid_record; [done|done|exact H6|]. intros s7 H7. apply eff_bind. eapply mid_lwip; [exact H7|]. intros _ s8 H8.
    apply eff_bind. eapply mid_lwip; [exact H8|]. intros _ s9 H9. apply eff_ret. now apply Hnext.
  - apply eff_ret. now apply Hnext.
Qed.

(** A handler that starts from a state in which lwIP is there. *)
Lemma loop_mid s :
  loop_inv s -> quitting s = false -> LwipInit ∉ jobs s ->
  mid (length (replies s)) (reader_of s) (jobs s) ((if ip6 cfg then [RListener6] else []) ++ [RListener; RNetif]) true true (ip6 cfg) s.
Proof.
  intros [A B] Hq Hj. rewrite Hq in B. destruct B as [B1 B2 B3]. rewrite bool_decide_false in B3 by done. destruct B3 as (C1 & C2 & C3).
  unfold tops in A. rewrite C1, C2, C3 in A. split; auto.
Qed.

Lemma timer_ok (Q : unit -> st -> Prop) s :
  loop_inv s -> quitting s = false -> LwipInit ∉ jobs s ->
  (forall s', loop_inv s' -> jobs s' = jobs s -> (length (replies s') <= length (replies s))%nat -> Q tt s') ->
  runs (upd_st (with_timer_set (fun _ => false)) ;; tcp_timer_handler) Q s.
Proof.
  intros Hl Hq Hj HQ. pose proof (loop_mid s Hl Hq Hj) as Hm. apply eff_bind, eff_upd. unfold tcp_timer_handler. apply eff_bind, eff_get, eff_bind, eff_assert; [cbn; now rewrite Hq|].
  apply eff_bind, eff_upd. set (s1 := with_timer_set _ _). assert (H1 : mid (length (replies s)) (reader_of s) (jobs s)
    ((if ip6 cfg then [RListener6] else []) ++ [RListener; RNetif]) true true (ip6 cfg) s1) by (destruct Hm as [[]]; split; [split|..]; try assumption; done).
  clearbody s1. apply eff_bind. eapply mid_lwip; [exact H1|]. intros _ s2 H2. apply eff_bind. eapply mid_record; [done|done|exact H2|]. intros s3 H3.
  apply eff_bind, eff_upd. set (s4 := with_tcp_timer_mod4 _ _). assert (H4 : mid (length (replies s)) (reader_of s) (jobs s)
    ((if ip6 cfg then [RListener6] else []) ++ [RListener; RNetif]) true true (ip6 cfg) s4) by (destruct H3 as [[]]; split; [split|..]; try assumption; done).
  clearbody s4. apply eff_bind, eff_get. assert (Hend : forall s', mid (length (replies s)) (reader_of s) (jobs s)
    ((if ip6 cfg then [RListener6] else []) ++ [RListener; RNetif]) true true (ip6 cfg) s' -> Q tt s').
  { intros s' H. apply HQ; [|apply H..]. eapply mid_loop_inv; [exact H|done|]. destruct Hl as [_ X]. rewrite Hq in X. apply X. }
  destruct (tcp_timer_mod4 s4 =? 0); [|now apply eff_ret, Hend].
  do 3 (apply eff_bind; eapply mid_lwip; [eassumption|]; intros _ ? ?). eapply mid_record; [done|done|eassumption|exact Hend].
Qed.

Lemma not_single {A} (a b : A) : a <> b -> a ∉ [b].
Proof. intros H X%list_elem_of_singleton. done. Qed.

(** ** The device *)

(** The state after a packet was read. *)
Definition got (rs : list reply) (data : list Z) (s : st) : st :=
  with_trace (fun t => t ++ [Read data]) (with_read_buf (fun b => mem_write b 0 data) (with_replies (fun _ => rs) s)).

Lemma read_device_ok line (Q : option (list Z) -> st -> Prop) s :
  Z.of_nat (length (read_buf s)) = frame_mtu s ->
  (forall rs, (length rs <= length (replies s))%nat -> Q None (with_replies (fun _ => rs) s)) ->
  (forall rs, (length rs <= length (replies s))%nat -> Q (Some []) (with_replies (fun _ => rs) s)) ->
  (forall rs data, data <> [] -> bytes data -> Z.of_nat (length data) <= frame_mtu s -> (length rs < length (replies s))%nat -> Q (Some data) (got rs data s)) ->
  runs (read_device line) Q s.
Proof.
  intros Hb H1 H2 H3. unfold read_device. apply eff_bind, eff_get, eff_bind, eff_assert; [lia|]. apply eff_bind, draw_ok.
  - intros E. cbn [r_data map r_num]. rewrite take_nil, bool_decide_true by done. apply eff_ret.
    assert (X : with_replies (fun _ => []) s = s) by (destruct s; cbn in E; now subst). rewrite <- X. apply H2. cbn. lia.
  - intros r rs E. destruct (take (Z.to_nat (frame_mtu s)) (map u8 (r_data r))) as [|b data] eqn:Ed.
    + rewrite bool_decide_true by done. apply eff_ret. destruct (r_num r <? 0); [apply H1|apply H2]; rewrite E; cbn; lia.
    + rewrite bool_decide_false by done. apply eff_bind, eff_upd, eff_bind, eff_upd, eff_ret. rewrite <- Ed. apply H3.
      * now rewrite Ed.
      * apply bytes_take. apply Forall_map, Forall_forall. intros x _. apply u8_range.
      * rewrite length_take. lia.
      * rewrite E. cbn. lia.
Qed.

Lemma report_error_ok top (Q : unit -> st -> Prop) s :
  always top s -> quitting s = false ->
  (forall s', always top s' -> quitting s' = true -> tops s' = tops s -> trace s' = trace s -> Q tt s') -> runs report_error Q s.
Proof.
  intros Ha Hq HQ. unfold report_error. apply eff_bind, assert_no_error_ok; [now apply Ha|]. apply eff_bind, eff_upd.
  unfold device_error_handler. apply eff_bind, eff_get, eff_bind, eff_assert; [cbn; now rewrite Hq|]. apply terminate_ok; [done|].
  apply HQ; try done. destruct Ha as [A B C D E F G H I]. split; done.
Qed.

Lemma Output_Done_ok len (Q : unit -> st -> Prop) s :
  0 <= len <= frame_mtu s -> out_state s = STATE_BUSY ->
  Q tt (with_out_state (fun _ => STATE_DONE_PENDING) (with_jobs (BPending_Set RecvDone) (with_job_done_len (fun _ => len) s))) ->
  runs (Output_Done len) Q s.
Proof.
  intros H1 H2 HQ. unfold Output_Done. apply eff_bind, eff_get. do 2 (apply eff_bind, eff_assert; [lia|]).
  apply eff_bind, eff_assert; [now apply bool_decide_true|]. exact HQ.
Qed.

Lemma got_buf rs data s : Z.of_nat (length data) <= Z.of_nat (length (read_buf s)) -> take (length data) (read_buf (got rs data s)) = data.
Proof. intros H. cbn [read_buf got with_trace with_read_buf with_replies]. change (length data) with (0 + length data)%nat. rewrite take_mem_write; [done|lia]. Qed.

(** A packet that was read is on its way: [output_packet] and [poll_events] are reset. *)
Lemma read_done_ok rs data (Q : unit -> st -> Prop) s s1 :
  always (tops s) s -> quitting s = false -> timer_set s = true -> have_netif s = true -> listener s = true -> listener_ip6 s = ip6 cfg ->
  jobs s = [] -> out_state s = STATE_BUSY -> in_state s = STATE_NONE -> reads (trace s) = handled (trace s) ->
  data <> [] -> bytes data -> Z.of_nat (length data) <= frame_mtu s -> (length rs < length (replies s))%nat ->
  s1 = with_poll_read (fun _ => false) (with_output_packet (fun _ => false) (got rs data s)) ->
  (forall s', loop_inv s' -> (measure s' < 5 * length (replies s))%nat -> Q tt s') ->
  runs (Output_Done (Z.of_nat (length data))) Q s1.
Proof.
  intros Ha Hq Ht Hn Hl Hl6 Hj Ho Hi Hr Hd Hb Hlen Hrs -> HQ. apply Output_Done_ok; [cbn; lia|done|].
  set (s' := with_out_state _ _). pose proof (al_rbuf _ _ Ha) as Hbuf.
  assert (Hjobs : jobs s' = [RecvDone]) by (cbn; now rewrite Hj).
  apply HQ.
  - split.
    + destruct Ha as [A B C D E F G H I]. split; [exact A|exact B|exact C| |exact E|exact F|exact G|exact H|].
      * change (Z.of_nat (length (mem_write (read_buf s) 0 data)) = frame_mtu s). rewrite mem_write_length by lia. done.
      * intros _. rewrite Hjobs. now apply not_single.
    + change (quitting s') with (quitting s). rewrite Hq. split; [done| |rewrite Hjobs, bool_decide_false; [done|now apply not_single]].
      unfold reader_ok. assert (Ej : d_jobs (reader_of s') = [RecvDone]) by (cbn [reader_of d_jobs]; rewrite Hjobs; reflexivity). rewrite Ej.
      change (d_buf (reader_of s')) with (read_buf (got rs data s)). change (d_done (reader_of s')) with (Z.of_nat (length data)).
      rewrite Nat2Z.id, got_buf by lia. change (d_reads (reader_of s')) with (reads (trace s ++ [Read data])).
      change (d_handled (reader_of s')) with (handled (trace s ++ [Read data])). rewrite reads_app, handled_app.
      change (d_mtu (reader_of s')) with (frame_mtu s). cbn [reads handled flat_map read_of handled_of app]. rewrite app_nil_r.
      fold (reads (trace s)) (handled (trace s)). rewrite Hr. repeat split; try done; lia.
  - unfold measure. rewrite Hjobs. change (replies s') with rs. cbn [sum_list_with rank]. lia.
Qed.

(** The packet in the buffer was passed on or thrown away. *)
Lemma handled_ok note data rs wb ps s s' :
  always (tops s) s -> quitting s = false -> timer_set s = true -> have_netif s = true -> listener s = true -> listener_ip6 s = ip6 cfg ->
  jobs s = [PassDone] -> out_state s = STATE_NONE -> in_state s = STATE_DONE_PENDING -> output_packet s = false -> poll_read s = false ->
  reads (trace s) = handled (trace s) ++ [data] -> read_of note = [] -> handled_of note = [data] ->
  length wb = length (write_buf s) -> (length rs <= length (replies s))%nat ->
  s' = with_trace (fun t => t ++ [note]) (sent rs wb ps s) ->
  loop_inv s' /\ (measure s' < 5 * length (replies s) + 3)%nat.
Proof.
  intros Ha Hq Ht Hn Hl Hl6 Hj Ho Hi Hp Hpr Hr Hn1 Hn2 Hwb Hrs ->. set (s' := with_trace _ _).
  assert (Hjobs : jobs s' = [PassDone]) by exact Hj. split; [split|].
  - pose proof (always_sent rs wb ps _ _ Hwb Ha) as [A B C D E F G H I]. split; assumption.
  - change (quitting s') with (quitting s). rewrite Hq. split; [exact Ht| |rewrite Hjobs, bool_decide_false; [done|now apply not_single]].
    unfold reader_ok. assert (Ej : d_jobs (reader_of s') = [PassDone]) by (cbn [reader_of d_jobs]; rewrite Hjobs; reflexivity). rewrite Ej.
    change (d_reads (reader_of s')) with (reads ((trace s ++ map Written ps) ++ [note])).
    change (d_handled (reader_of s')) with (handled ((trace s ++ map Written ps) ++ [note])). rewrite !reads_app, !handled_app.
    destruct (written_quiet ps) as [-> ->]. cbn [reads handled flat_map]. rewrite Hn1, Hn2, Hr. cbn [app]. rewrite !app_nil_r. done.
  - unfold measure. rewrite Hjobs. change (replies s') with rs. cbn [sum_list_with rank]. lia.
Qed.

Lemma pbuf_free_ok line (Q : unit -> st -> Prop) s : pbufs s = 1%nat -> Q tt (with_pbufs pred s) -> runs (pbuf_free line) Q s.
Proof. intros E HQ. unfold pbuf_free. apply eff_bind, eff_get, eff_bind, eff_assert; [now rewrite E|]. exact HQ. Qed.

Lemma read_handler_ok data (Q : unit -> st -> Prop) s :
  always (tops s) s -> quitting s = false -> timer_set s = true -> have_netif s = true -> listener s = true -> listener_ip6 s = ip6 cfg ->
  jobs s = [] -> out_state s = STATE_NONE -> in_state s = STATE_BUSY -> output_packet s = false -> poll_read s = false ->
  reads (trace s) = handled (trace s) ++ [data] -> bytes data ->
  (forall s', loop_inv s' -> (measure s' < 5 * length (replies s) + 3)%nat -> Q tt s') ->
  runs (device_read_handler_send cfg data) Q s.
Proof.
  intros Ha Hq Ht Hn Hl Hl6 Hj Ho Hi Hp Hpr Hr Hb HQ. unfold device_read_handler_send. apply eff_bind, eff_get, eff_bind, eff_assert; [now rewrite Hq|].
  apply eff_bind. unfold Read_Done at 1. apply eff_bind, eff_get, eff_bind, eff_assert; [now apply bool_decide_true|]. apply eff_bind, eff_upd, eff_upd.
  set (s1 := with_in_state _ _). assert (Hj1 : jobs s1 = [PassDone]) by (cbn; now rewrite Hj).
  assert (Ha1 : always (tops s1) s1).
  { destruct Ha as [A B C D E F G H I]. split; try assumption. intros _. rewrite Hj1. now apply not_single. }
  assert (Hend : forall note rs wb ps s', read_of note = [] -> handled_of note = [data] -> length wb = length (write_buf s1) ->
    (length rs <= length (replies s1))%nat -> s' = with_trace (fun t => t ++ [note]) (sent rs wb ps s1) -> Q tt s').
  { intros note rs wb ps s' H1 H2 H3 H4 H5. 
    assert (loop_inv s' /\ (measure s' < 5 * length (replies s1) + 3)%nat) as [X1 X2] by (eapply (handled_ok note data rs wb ps s1 s' Ha1); first [assumption|reflexivity]).
    exact (HQ s' X1 X2). }
  assert (Hend0 : forall note, read_of note = [] -> handled_of note = [data] -> Q tt (with_trace (fun t => t ++ [note]) s1)).
  { intros note H1 H2. apply (Hend note (replies s1) (write_buf s1) []); try done. now rewrite sent_nil. }
  destruct (device_packet_parsed (cf_udpgw cfg) (cf_dnsgw cfg) (ip6 cfg) (cf_udp_mtu cfg) data Hb) as (r & -> & _).
  destruct r as [sub|]; [apply eff_upd; now apply Hend0|]. destruct (_ >? UINT16_MAX); [apply eff_upd; now apply Hend0|].
  assert (Hn1 : have_netif s1 = true) by exact Hn. assert (Hq1 : quitting s1 = false) by exact Hq. clearbody s1. clear Hend0. apply eff_bind, draw_sent. intros r rs Hrs. destruct (r_num r =? 0); [apply eff_upd; apply (Hend (Dropped data) rs (write_buf s1) []); done|].
  apply eff_bind, eff_upd. set (s2 := with_pbufs S _). apply eff_bind, eff_get, eff_bind, eff_assert; [assumption|].
  assert (Hs2 : can_send s2).
  { right. pose proof (always_sent rs (write_buf s1) [] _ _ eq_refl Ha1) as [A B C D E F G H I]. split; [|now apply I|done|done].
    change (live s2) with (live (sent rs (write_buf s1) [] s1)). rewrite A. apply elem_of_app. now right. }
  assert (Hp2 : pbufs s2 = 1%nat) by (cbn; now rewrite (al_pbufs _ _ Ha1)).
  assert (Hfree : forall note rs' wb ps, read_of note = [] -> handled_of note = [data] -> length wb = length (write_buf s1) ->
    (length rs' <= length (replies s2))%nat -> Q tt (with_trace (fun t => t ++ [note]) (with_pbufs pred (sent rs' wb ps s2)))).
  { intros note rs' wb ps H1 H2 H3 H4. apply (Hend note rs' wb ps); try done; [etransitivity; [exact H4|exact Hrs]|].
    subst s2. destruct s1. record_simpl. f_equal. cbn [map]. now rewrite app_nil_r. }
  apply eff_bind. unfold netif_input_func. cbv zeta. destruct (_ || _).
  - apply eff_bind, lwip_call_ok; [exact Hs2|]. intros e rs' wb ps H1 H2 _. destruct (e =? ERR_OK) eqn:Ee; cbn [negb].
    + apply eff_bind, pbuf_free_ok; [exact Hp2|]. apply eff_bind, eff_upd, eff_ret. rewrite Ee. apply eff_ret. now apply Hfree.
    + apply eff_ret. rewrite Ee. cbn [negb]. apply eff_bind, pbuf_free_ok; [exact Hp2|]. apply eff_upd. now apply Hfree.
  - apply eff_bind, pbuf_free_ok; [exact Hp2|]. apply eff_bind, eff_upd, eff_ret. cbn [negb]. apply eff_ret.
    pose proof (Hfree (Dropped data) (replies s2) (write_buf s2) []) as X. rewrite sent_nil in X. apply X; done.
Qed.

(** ** One round of the loop *)

(** After a round: the loop was left, or there is less to do. *)
Definition progress (n : nat) (s' : st) : Prop := loop_inv s' /\ (quitting s' = true \/ (measure s' < n)%nat).

Lemma quit_progress n s s' : always (tops s) s' -> tops s' = tops s -> quitting s' = true -> nothing_lost s' -> progress n s'.
Proof. intros Ha Ht Hq Hn. split; [|now left]. split; [now rewrite Ht|now rewrite Hq]. Qed.

(** What holds when lwIP is there. *)
Lemma running_at js s :
  loop_inv s -> quitting s = false -> jobs s = js -> LwipInit ∉ js ->
  always (tops s) s /\ timer_set s = true /\ have_netif s = true /\ listener s = true /\ listener_ip6 s = ip6 cfg /\
  reader_ok (Reader (frame_mtu s) (out_state s) (job_done_len s) (output_packet s) (poll_read s) (in_state s) (job_operation_len s) (read_buf s) js
    (reads (trace s)) (handled (trace s))).
Proof.
  intros [Ha Hst] Hq <- Hi. rewrite Hq in Hst. destruct Hst as [Ht Hr Hl]. rewrite bool_decide_false in Hl by done. destruct Hl as (Hn & Hl & Hl6).
  unfold reader_of in Hr. rewrite unset_absent in Hr by done. auto 10.
Qed.


Lemma recv_operation_step s :
  loop_inv s -> quitting s = false -> jobs s = [RecvOperation] ->
  runs (upd_st (with_jobs (fun _ => [])) ;; run_job cfg RecvOperation) (fun _ => progress (measure s)) s.
Proof.
  intros Hinv Hq Hj. destruct (running_at _ s Hinv Hq Hj) as (Ha & Ht & Hn & Hl & Hl6 & (Ho & Hi & Hp & Hpr & Hrd)); [now apply not_single|].
  cbn [d_out d_in d_packet d_poll d_reads d_handled] in *.
  apply eff_bind, eff_upd. cbn [run_job]. unfold output_job_operation. apply eff_bind, eff_get, eff_bind, eff_assert; [cbn; now rewrite Ho|].
  apply eff_bind, eff_upd. set (s1 := with_out_state _ _).
  assert (Ha1 : always (tops s1) s1) by (destruct Ha as [A B C D E F G H I]; split; try assumption; intros _; apply not_elem_of_nil).
  unfold output_handler_recv. apply eff_bind, assert_no_error_ok; [apply not_elem_of_nil|]. apply eff_bind, eff_get, eff_bind, eff_assert; [cbn; now rewrite Hp|].
  apply eff_bind, read_device_ok; [apply Ha1|..].
  - intros rs Hrs. eapply report_error_ok; [destruct Ha1 as [A B C D E F G H I]; split; eassumption|exact Hq|]. intros s' X1 X2 X3 X4.
    eapply (quit_progress _ s1); [exact X1|exact X3|exact X2|]. exists []. rewrite X4, app_nil_r. split; [exact Hrd|cbn; lia].
  - intros rs Hrs. apply eff_bind, eff_upd, eff_upd. set (s' := with_poll_read _ _). split; [split|].
    + destruct Ha1 as [A B C D E F G H I]; split; assumption.
    + change (quitting s') with (quitting s). rewrite Hq. split; [done| |rewrite bool_decide_false; [done|apply not_elem_of_nil]]. repeat split; done.
    + right. unfold measure. rewrite Hj. change (jobs s') with (@nil job). change (replies s') with rs. change (replies s1) with (replies s) in Hrs. cbn [sum_list_with rank]. lia.
  - intros rs data Hd Hb Hlen Hrs. destruct data as [|b data]; [done|]. apply eff_bind, eff_assert; [change (frame_mtu s1) with (frame_mtu s) in *; lia|].
    eapply (read_done_ok rs (b :: data) _ s1); try assumption; try reflexivity.
    + subst s1. destruct s. cbn in Hp, Hpr. subst. reflexivity.
    + intros s' X1 X2. split; [done|]. right. unfold measure at 2. rewrite Hj. change (replies s1) with (replies s) in X2. lia.
Qed.

Lemma recv_done_step s :
  loop_inv s -> quitting s = false -> jobs s = [RecvDone] ->
  runs (upd_st (with_jobs (fun _ => [])) ;; run_job cfg RecvDone) (fun _ => progress (measure s)) s.
Proof.
  intros Hinv Hq Hj. destruct (running_at _ s Hinv Hq Hj) as (Ha & Ht & Hn & Hl & Hl6 & (Ho & Hi & Hp & Hpr & Hlen & Hb & Hrd)); [now apply not_single|].
  cbn [d_out d_in d_packet d_poll d_reads d_handled d_done d_mtu d_buf] in *.
  apply eff_bind, eff_upd. cbn [run_job]. unfold output_job_done. apply eff_bind, eff_get, eff_bind, eff_assert; [cbn; now rewrite Ho|].
  apply eff_bind, eff_upd. unfold input_handler_done, Read_Send. apply eff_bind, eff_get. do 2 (apply eff_bind, eff_assert; [cbn; lia|]).
  apply eff_bind, eff_assert; [cbn; now rewrite Hi|]. apply eff_bind, eff_upd, eff_bind, eff_upd, eff_upd. set (s' := with_in_state _ _).
  assert (Hj' : jobs s' = [PassOperation]) by done. split; [split|].
  - destruct Ha as [A B C D E F G H I]. split; try assumption. intros _. rewrite Hj'. now apply not_single.
  - change (quitting s') with (quitting s). rewrite Hq. split; [done| |rewrite Hj', bool_decide_false; [done|now apply not_single]].
    repeat split; done.
  - right. unfold measure. rewrite Hj, Hj'. change (replies s') with (replies s). cbn [sum_list_with rank]. lia.
Qed.

Lemma pass_operation_step s :
  loop_inv s -> quitting s = false -> jobs s = [PassOperation] ->
  runs (upd_st (with_jobs (fun _ => [])) ;; run_job cfg PassOperation) (fun _ => progress (measure s)) s.
Proof.
  intros Hinv Hq Hj. destruct (running_at _ s Hinv Hq Hj) as (Ha & Ht & Hn & Hl & Hl6 & (Ho & Hi & Hp & Hpr & Hb & Hrd)); [now apply not_single|].
  cbn [d_out d_in d_packet d_poll d_reads d_handled d_op d_buf] in *.
  apply eff_bind, eff_upd. cbn [run_job]. unfold read_job_operation. apply eff_bind, eff_get, eff_bind, eff_assert; [cbn; now rewrite Hi|].
  apply eff_bind, eff_upd. eapply read_handler_ok; try assumption; try reflexivity.
  - destruct Ha as [A B C D E F G H I]. split; try assumption. intros _. apply not_elem_of_nil.
  - intros s' X1 X2. split; [done|]. right. unfold measure at 2. rewrite Hj. exact X2.
Qed.

Lemma pass_done_step s :
  loop_inv s -> quitting s = false -> jobs s = [PassDone] ->
  runs (upd_st (with_jobs (fun _ => [])) ;; run_job cfg PassDone) (fun _ => progress (measure s)) s.
Proof.
  intros Hinv Hq Hj. destruct (running_at _ s Hinv Hq Hj) as (Ha & Ht & Hn & Hl & Hl6 & (Ho & Hi & Hp & Hpr & Hrd)); [now apply not_single|].
  cbn [d_out d_in d_packet d_poll d_reads d_handled] in *.
  apply eff_bind, eff_upd. cbn [run_job]. unfold read_job_done. apply eff_bind, eff_get, eff_bind, eff_assert; [cbn; now rewrite Hi|].
  apply eff_bind, eff_upd. unfold output_handler_done, Output_Recv. apply eff_bind, eff_get, eff_bind, eff_assert; [cbn; now rewrite Ho|].
  apply eff_bind, eff_upd, eff_upd. set (s' := with_out_state _ _). assert (Hj' : jobs s' = [RecvOperation]) by done. split; [split|].
  - destruct Ha as [A B C D E F G H I]. split; try assumption. intros _. rewrite Hj'. now apply not_single.
  - change (quitting s') with (quitting s). rewrite Hq. split; [done| |rewrite Hj', bool_decide_false; [done|now apply not_single]].
    repeat split; done.
  - right. unfold measure. rewrite Hj, Hj'. change (replies s') with (replies s). cbn [sum_list_with rank]. lia.
Qed.

Lemma job_step j js s :
  loop_inv s -> quitting s = false -> jobs s = j :: js ->
  runs (upd_st (with_jobs (fun _ => js)) ;; run_job cfg j) (fun _ => progress (measure s)) s.
Proof.
  intros Hinv Hq Hj. destruct (decide (LwipInit ∈ jobs s)) as [Hi|Hi].
  - destruct Hinv as [Ha Hst]. rewrite Hq in Hst. destruct Hst as [Ht Hr Hl]. rewrite bool_decide_true in Hl by done. destruct Hl as (E & Hn & Hl & Hl6).
    rewrite Hj in E at 1. injection E as -> Ejs. assert (Hjs : LwipInit ∉ js) by (rewrite Ejs, unset_elem; tauto).
    apply eff_bind, eff_upd. cbn [run_job]. eapply (lwip_init_ok (length (replies s)) (reader_of s) js); [| |exact Hr|].
    + unfold tops in Ha. rewrite Hn, Hl, Hl6 in Ha. split; [|done| |done|done|done|done].
      * destruct Ha as [A B C D E F G H I]. split; try assumption. intros _ X. apply (I Hq). rewrite Hj. now apply elem_of_cons; right.
      * unfold reader_of. cbn [jobs with_jobs frame_mtu out_state job_done_len output_packet poll_read in_state job_operation_len read_buf trace].
        now rewrite (unset_absent _ js), <- Ejs.
    + done.
    + intros s' X [Y|[Y Z]]; (split; [exact X|]); [now left|]. right. unfold measure. rewrite Y, Hj. cbn [sum_list_with rank]. lia.
  - assert (Hcase : reader_ok (reader_of s)) by (destruct Hinv as [_ X]; rewrite Hq in X; apply X).
    unfold reader_ok in Hcase. cbn [reader_of d_jobs] in Hcase. rewrite unset_absent, Hj in Hcase by done.
    destruct j, js; try done.
    + now apply recv_operation_step.
    + now apply recv_done_step.
    + now apply pass_operation_step.
    + now apply pass_done_step.
Qed.

(** ** Events *)

Definition settled (s s' : st) : Prop := loop_inv s' /\ (quitting s' = true \/ (measure s' <= measure s)%nat).

Lemma mid_settled s s' :
  loop_inv s -> quitting s = false -> LwipInit ∉ jobs s ->
  mid (length (replies s)) (reader_of s) (jobs s) ((if ip6 cfg then [RListener6] else []) ++ [RListener; RNetif]) true true (ip6 cfg) s' -> settled s s'.
Proof.
  intros Hinv Hq Hi Hm. split.
  - eapply mid_loop_inv; [exact Hm|done|]. destruct Hinv as [_ X]. rewrite Hq in X. apply X.
  - right. unfold measure. rewrite (m_jobs _ _ _ _ _ _ _ _ Hm). pose proof (m_replies _ _ _ _ _ _ _ _ Hm). lia.
Qed.

Lemma addr_ok_ok a : addr_okb a = true -> baddr_ok a.
Proof.
  unfold addr_okb, baddr_ok. destruct a as [|ip port|ip port]; [done|..]; intros H; repeat (apply andb_true_iff in H as [H ?]);
    repeat match goal with X : bool_decide _ = true |- _ => apply bool_decide_eq_true in X | X : bytesb _ = true |- _ => apply bytesb_bytes in X end; auto.
Qed.

Lemma device_event_ok readable error s :
  loop_inv s -> quitting s = false -> jobs s = [] -> runs (run_event cfg (Device readable error)) (fun _ => settled s) s.
Proof.
  intros Hinv Hq Hj. destruct (running_at _ s Hinv Hq Hj) as (Ha & Ht & Hn & Hl & Hl6 & (Ho & Hi & Hp & Hpr & Hrd)); [apply not_elem_of_nil|].
  cbn [d_out d_in d_packet d_poll d_reads d_handled] in *. assert (Hdone : settled s s) by (split; [done|right; lia]).
  cbn [run_event]. apply eff_bind, eff_get. cbv zeta. rewrite Hpr, andb_true_r. destruct readable; cbn [orb].
  - unfold fd_handler. apply eff_bind, assert_no_error_ok; [rewrite Hj; apply not_elem_of_nil|]. cbn [negb]. apply eff_bind, eff_get, eff_bind, eff_assert; [done|].
    apply eff_bind, read_device_ok; [apply Ha|..].
    + intros rs Hrs. eapply report_error_ok; [destruct Ha as [A B C D E F G H I]; split; eassumption|exact Hq|]. intros s' X1 X2 X3 X4.
      destruct (quit_progress 0 s s' X1 X3 X2); [exists []; rewrite X4, app_nil_r; split; [exact Hrd|cbn; lia]|]. split; [done|now left].
    + intros rs Hrs. apply eff_ret. eapply mid_settled; [exact Hinv|exact Hq|rewrite Hj; apply not_elem_of_nil|].
      pose proof (loop_mid s Hinv Hq ltac:(rewrite Hj; apply not_elem_of_nil)) as [[A B C D E F G H I] Y]. split; [split|..]; try assumption; try done.
    + intros rs data Hd Hb Hlen Hrs. destruct data as [|b data]; [done|]. apply eff_bind, eff_assert; [lia|]. apply eff_bind, eff_upd, eff_bind, eff_upd.
      eapply (read_done_ok rs (b :: data) _ s); try assumption; try reflexivity. intros s' X1 X2. split; [done|]. right. unfold measure at 2. rewrite Hj. cbn [sum_list_with]. lia.
  - destruct error; [|now apply eff_ret]. unfold fd_handler. apply eff_bind, assert_no_error_ok; [rewrite Hj; apply not_elem_of_nil|]. now apply eff_ret.
Qed.

Lemma client_event_ok c k ans outs s :
  loop_inv s -> quitting s = false -> LwipInit ∉ jobs s -> runs (run_event cfg (Client c k ans outs)) (fun _ => settled s) s.
Proof.
  intros Hinv Hq Hi. pose proof (loop_mid s Hinv Hq Hi) as Hm. cbn [run_event]. apply eff_bind, eff_get.
  destruct (have_netif s && listener s && call_enabled (clients s) c k) eqn:E; [|apply eff_ret; split; [done|right; lia]].
  apply andb_true_iff in E as [_ Hen]. pose proof (al_clients _ _ (li_always _ Hinv)) as Hw.
  destruct (perform_ok (cf_append cfg) (clients s) c k ans Hw Hen) as (r & w & -> & Hw' & _). apply eff_bind, eff_upd. set (s1 := with_clients _ s).
  assert (H1 : mid (length (replies s)) (reader_of s) (jobs s) ((if ip6 cfg then [RListener6] else []) ++ [RListener; RNetif]) true true (ip6 cfg) s1)
    by (destruct Hm as [[]]; split; [split|..]; assumption).
  eapply eff_mono; [apply outputs_ok; eapply always_can_send, H1|]. intros _ s' (wb & Hwb & ->). eapply mid_settled; try eassumption. now apply mid_sent.
Qed.

Lemma datagram_event_ok local remote data s :
  loop_inv s -> quitting s = false -> LwipInit ∉ jobs s -> runs (run_event cfg (Datagram local remote data)) (fun _ => settled s) s.
Proof.
  intros Hinv Hq Hi. pose proof (loop_mid s Hinv Hq Hi) as Hm. assert (Hdone : settled s s) by (split; [done|right; lia]).
  cbn [run_event]. apply eff_bind, eff_get. destruct (cf_udpgw cfg) eqn:Eu; [|now apply eff_ret]. cbn [andb].
  destruct (same_kind local remote) eqn:Ek; [|now apply eff_ret].
  destruct (udpgw_client_handler_received true (ip6 cfg) (frame_mtu s) local remote data) as [[packet|]|] eqn:Er.
  - assert (Hok : baddr_ok local /\ baddr_ok remote).
    { unfold same_kind in Ek. destruct local, remote; try done; apply andb_true_iff in Ek as [X Y]; split; now apply addr_ok_ok. }
    destruct (built_packet_parsed true (ip6 cfg) (Z.of_nat (length data)) (frame_mtu s) local remote data packet (proj1 Hok) (proj2 Hok) Er (Z.le_refl _)) as [Hlen _].
    pose proof (al_wbuf _ _ (li_always _ Hinv)) as Hwb. apply eff_bind, eff_assert; [lia|]. apply eff_bind, eff_upd. set (s1 := with_write_buf _ s).
    assert (H1 : length (write_buf s1) = length (write_buf s)) by (apply mem_write_length; lia).
    destruct (always_can_send _ _ (li_always _ Hinv)) as [X|Hcw]; [congruence|].
    apply BTap_Send_ok; [destruct Hcw as [A B C D]; split; [exact A|exact B|exact C|rewrite H1; exact D]|exact Hlen|].
    eapply mid_settled; [exact Hinv|exact Hq|exact Hi|]. replace (with_trace _ s1) with (sent (replies s) (write_buf s1) [packet] s) by (subst s1; now destruct s).
    now apply mid_sent.
  - now apply eff_ret.
  - exfalso. unfold udpgw_client_handler_received in Er. cbn [negb] in Er. unfold same_kind in Ek.
    destruct local, remote; try done; [destruct (_ || _) in Er; done|]. destruct (ip6 cfg); [|done]. cbn [negb] in Er. destruct (_ || _) in Er; done.
Qed.

Lemma event_step e s :
  loop_inv s -> quitting s = false -> jobs s = [] \/ is_other e = true /\ LwipInit ∉ jobs s ->
  runs (run_event cfg e) (fun _ s' => settled s s' /\ (e = Signal -> quitting s' = true)) s.
Proof.
  intros Hinv Hq Hj. assert (Hi : LwipInit ∉ jobs s) by (destruct Hj as [-> |[_ Hj]]; [apply not_elem_of_nil|done]).
  destruct e as [| |readable error|c k ans outs|local remote data].
  - destruct Hj as [Hj|[? _]]; [|done]. destruct (running_at _ s Hinv Hq Hj) as (Ha & Ht & _ & _ & _ & (_ & _ & _ & _ & Hrd)); [apply not_elem_of_nil|].
    cbn [run_event]. apply eff_bind, eff_get. unfold signal_handler. apply eff_bind, eff_get, eff_bind, eff_assert; [now rewrite Hq|]. apply terminate_ok; [done|].
    split; [|done]. split; [|now left]. split; [now apply always_quit|]. exists []. rewrite app_nil_r. split; [exact Hrd|cbn; lia].
  - destruct Hj as [Hj|[? _]]; [|done]. cbn [run_event]. apply eff_bind, eff_get. destruct (timer_set s); [|apply eff_ret; split; [split; [done|right; lia]|done]].
    apply timer_ok; try done. intros s' X1 X2 X3. split; [|done]. split; [done|]. right. unfold measure. rewrite X2. lia.
  - destruct Hj as [Hj|[? _]]; [|done]. eapply eff_mono; [now apply device_event_ok|]. intros u s' X. split; [exact X|done].
  - eapply eff_mono; [now apply client_event_ok|]. intros u s' X. split; [exact X|done].
  - eapply eff_mono; [now apply datagram_event_ok|]. intros u s' X. split; [exact X|done].
Qed.

(** ** The loop *)

(** What the loop leaves behind. *)
Definition exec_post (evs : list event) (b : bool) (s : st) : Prop :=
  loop_inv s /\ if b then quitting s = true else quitting s = false /\ jobs s = [] /\ Signal ∉ evs.

Lemma exec_quit fuel evs evs' s : loop_inv s -> quitting s = true -> runs (BReactor_Exec cfg fuel evs) (exec_post evs') s.
Proof.
  intros Hinv Hq. assert (Hx : exiting s = true) by now rewrite (al_exit _ _ (li_always _ Hinv)).
  destruct fuel; cbn [BReactor_Exec]; apply eff_bind, eff_get; rewrite Hx; now apply eff_ret.
Qed.

Lemma exec_ok fuel : forall evs s,
  loop_inv s -> quitting s = true \/ (length evs + measure s < fuel)%nat -> runs (BReactor_Exec cfg fuel evs) (exec_post evs) s.
Proof.
  induction fuel as [|fuel IH]; intros evs s Hinv Hf; (destruct (quitting s) eqn:Hq; [now apply exec_quit|]); destruct Hf as [Hf|Hf]; [done|lia|done|].
  assert (Hx : exiting s = false) by now rewrite (al_exit _ _ (li_always _ Hinv)).
  assert (Hjob : forall j js, jobs s = j :: js -> runs (upd_st (with_jobs (fun _ => js)) ;; run_job cfg j ;; BReactor_Exec cfg fuel evs) (exec_post evs) s).
  { intros j js Hj. pose proof (job_step j js s Hinv Hq Hj) as H. change (runs (run_job cfg j) (fun _ => progress (measure s)) (with_jobs (fun _ => js) s)) in H.
    apply eff_bind, eff_upd, eff_bind. eapply eff_mono; [exact H|]. intros _ s' [X1 X2]. apply IH; [done|]. destruct X2 as [X2|X2]; [now left|right; lia]. }
  assert (Hev : forall e evs', evs = e :: evs' -> jobs s = [] \/ is_other e = true /\ LwipInit ∉ jobs s ->
    runs (run_event cfg e ;; BReactor_Exec cfg fuel evs') (exec_post evs) s).
  { intros e evs' -> Hj. apply eff_bind. eapply eff_mono; [now apply event_step|]. intros _ s' [[X1 X2] X3]. cbn [length] in Hf.
    destruct (quitting s') eqn:Hq'; [now apply exec_quit|]. destruct X2 as [X2|X2]; [done|]. eapply eff_mono; [apply IH; [exact X1|right; lia]|].
    intros [] s'' [Y1 Y2]; (split; [exact Y1|]); [exact Y2|]. destruct Y2 as (Y2 & Y3 & Y4). split; [done|]. split; [done|].
    intros [X|X]%elem_of_cons; [|done]. now specialize (X3 (eq_sym X)). }
  cbn [BReactor_Exec]. apply eff_bind, eff_get. rewrite Hx. destruct (jobs s) as [|j js] eqn:Hj; destruct evs as [|e evs'].
  - apply eff_ret. split; [done|]. split; [done|]. split; [done|]. apply not_elem_of_nil.
  - apply Hev; auto.
  - now apply Hjob.
  - destruct (is_other e) eqn:Eo; cbn [andb]; [|now apply Hjob]. case_bool_decide as Hd; [apply Hev; auto|now apply Hjob].
Qed.

End Loop.

(** ** Shutting down *)

Record halting (l : list resource) (s : st) : Prop := Halting {
  ha_live : live s = l;
  ha_clients : w_list (clients s) = [];
  ha_pbufs : pbufs s = 0%nat;
  ha_lost : nothing_lost s;
}.

Definition finished (e : ending) (s : st) : Prop := e = Returned 1 /\ halting [] s /\ jobs s = [].

Lemma release_ok line r l (Q : unit -> st -> Prop) s :
  halting (r :: l) s -> (halting l (with_live (fun _ => l) s) -> Q tt (with_live (fun _ => l) s)) -> runs (release line r) Q s.
Proof.
  intros [A B C D] HQ. unfold release. apply eff_bind, eff_get. rewrite A, bool_decide_true by done. apply eff_upd, HQ. split; done.
Qed.

Section Labels.
Context (contents udpgw : bool).

(** What is there at each label. *)
Definition at1 : list resource := (if contents then [RPassword] else []) ++ [RLog].
Definition at2 : list resource := RReactor :: at1.
Definition at3 : list resource := RSignal :: at2.
Definition at4 : list resource := RReadInterface :: RDevice :: at3.
Definition at4a : list resource := RReadBuffer :: at4.
Definition at5 : list resource := RInitJob :: (if udpgw then [RUdpgw] else []) ++ at4a.
Definition at_loop : list resource := RTimer :: RWriteBuf :: at5.

Lemma fail1_ok s : halting at1 s -> jobs s = [] -> runs (fail1 contents) finished s.
Proof.
  intros H Hj. unfold fail1. apply eff_bind. unfold at1 in H. destruct contents; cbn [whenever].
  - eapply release_ok; [exact H|]. intros H1. unfold BLog_Free. apply eff_bind. eapply release_ok; [exact H1|]. intros H2. now apply eff_ret.
  - apply eff_ret. unfold BLog_Free. apply eff_bind. eapply release_ok; [exact H|]. intros H2. now apply eff_ret.
Qed.

Lemma fail2_ok s : halting at2 s -> jobs s = [] -> timer_set s = false -> runs (fail2 contents) finished s.
Proof.
  intros H Hj Ht. unfold fail2, BReactor_Free. apply eff_bind, eff_bind, eff_get, eff_bind, eff_assert; [now apply bool_decide_true|].
  apply eff_bind, eff_assert; [now rewrite Ht|]. eapply release_ok; [exact H|]. intros H1. now apply fail1_ok.
Qed.

Lemma fail3_ok s : halting at3 s -> jobs s = [] -> timer_set s = false -> runs (fail3 contents) finished s.
Proof. intros H Hj Ht. unfold fail3. apply eff_bind. eapply release_ok; [exact H|]. intros H1. now apply fail2_ok. Qed.

Lemma jobs_freed js :
  LwipInit ∉ js ->
  BPending_Free RecvOperation (BPending_Free RecvDone (BPending_Free DeviceError (BPending_Free PassOperation (BPending_Free PassDone js)))) = [].
Proof. intros H. apply elem_of_nil_inv. unfold BPending_Free. intros j. rewrite !unset_elem. destruct j; tauto. Qed.

Lemma fail4_ok s : halting at4 s -> LwipInit ∉ jobs s -> timer_set s = false -> runs (fail4 contents) finished s.
Proof.
  intros H Hj Ht. unfold fail4, PacketPassInterface_Free, BTap_Free. apply eff_bind, eff_bind, eff_upd, eff_bind, eff_upd.
  eapply release_ok; [destruct H as [A B C D]; split; eassumption|]. intros H1. apply eff_bind, eff_bind, eff_upd, eff_bind, eff_upd, eff_bind, eff_upd.
  eapply release_ok; [destruct H1 as [A B C D]; split; eassumption|]. intros H2. apply fail3_ok; [exact H2|exact (jobs_freed _ Hj)|exact Ht].
Qed.

Lemma fail4a_ok s : halting at4a s -> LwipInit ∉ jobs s -> timer_set s = false -> runs (fail4a contents) finished s.
Proof. intros H Hj Ht. unfold fail4a, SinglePacketBuffer_Free. apply eff_bind. eapply release_ok; [exact H|]. intros H1. now apply fail4_ok. Qed.

Lemma fail5_ok s : halting at5 s -> timer_set s = false -> runs (fail5 contents udpgw) finished s.
Proof.
  intros H Ht. unfold fail5, at5 in *. apply eff_bind, eff_upd, eff_bind.
  assert (Hj : forall js, LwipInit ∉ BPending_Free LwipInit js) by (intros js; unfold BPending_Free; rewrite unset_elem; tauto).
  eapply release_ok; [destruct H as [A B C D]; split; eassumption|]. intros H1. apply eff_bind. destruct udpgw; cbn [whenever].
  - eapply release_ok; [exact H1|]. intros H2. apply fail4a_ok; [exact H2|apply Hj|exact Ht].
  - apply eff_ret. apply fail4a_ok; [exact H1|apply Hj|exact Ht].
Qed.

(** Calls of lwIP while quitting send nothing. *)
Record down (l : list resource) (s : st) : Prop := Down { do_quit : quitting s = true; do_halting : halting l s }.

Lemma down_sent rs wb l s : down l s -> down l (sent rs wb [] s).
Proof.
  intros [Hq [A B C D]]. split; [done|]. split; [exact A|exact B|exact C|]. unfold nothing_lost in *.
  change (trace (sent rs wb [] s)) with (trace s ++ []). now rewrite app_nil_r.
Qed.

Lemma down_lwip l d (Q : Z -> st -> Prop) s : down l s -> (forall z s', down l s' -> Q z s') -> runs (lwip_call d) Q s.
Proof.
  intros H HQ. apply lwip_call_ok; [left; apply H|]. intros z rs wb ps _ _ Hps. rewrite (Hps (do_quit _ _ H)). now apply HQ, down_sent.
Qed.

Lemma down_close (b : bool) r l line (Q : unit -> st -> Prop) s :
  down ((if b then [r] else []) ++ l) s -> (forall s', down l s' -> Q tt s') -> runs (whenever b (lwip_call 0 ;; release line r)) Q s.
Proof.
  intros H HQ. destruct b; cbn [whenever app] in *; [|now apply eff_ret, HQ]. apply eff_bind. eapply down_lwip; [exact H|]. intros _ s1 [H1 H2].
  eapply release_ok; [exact H2|]. intros H3. now apply HQ.
Qed.

Lemma tcp_remove_ok l n : forall (Q : unit -> st -> Prop) s, down l s -> (forall s', down l s' -> Q tt s') -> runs (tcp_remove n) Q s.
Proof.
  induction n as [|n IH]; intros Q s H HQ; cbn [tcp_remove]; [now apply eff_ret, HQ|]. apply eff_bind. eapply down_lwip; [exact H|]. intros _ s1 H1. now apply IH.
Qed.

Lemma down_remove_all {B : Type} (k : eff st B) l (Q : B -> st -> Prop) s :
  down l s -> (forall s', down l s' -> runs k Q s') -> runs (n ← draw 0; tcp_remove (Z.to_nat (r_num n)) ;; k) Q s.
Proof.
  intros H HQ. apply eff_bind, draw_sent. intros r rs _. apply eff_bind. eapply tcp_remove_ok; [apply down_sent, H|exact HQ].
Qed.

Lemma leave_loop_ok cfg s : loop_inv cfg at_loop s -> quitting s = true -> runs (leave_loop contents udpgw) finished s.
Proof.
  intros [Ha Hst] Hq. rewrite Hq in Hst. unfold leave_loop. apply eff_bind, eff_get.
  destruct (free_clients_ok _ (clients s) (al_clients _ _ _ Ha) (le_n _)) as (w & -> & _ & Hw).
  apply eff_bind, eff_upd. set (s1 := with_clients _ s). assert (H1 : down (tops s ++ at_loop) s1) by (split; [done|split; [apply Ha|exact Hw|apply Ha|exact Hst]]).
  clearbody s1. unfold tops in H1. rewrite <- !app_assoc in H1. apply eff_bind. eapply down_lwip; [exact H1|]. intros _ s2 H2.
  apply eff_bind. eapply down_close; [exact H2|]. intros s3 H3. apply eff_bind. eapply down_close; [exact H3|]. intros s4 H4.
  apply eff_bind. eapply down_close; [exact H4|]. intros s5 H5.
  eapply down_remove_all; [exact H5|]. intros s6 H6. eapply down_remove_all; [exact H6|]. intros s7 H7. eapply down_remove_all; [exact H7|]. intros s8 H8.
  apply eff_bind, eff_upd, eff_bind. eapply release_ok; [destruct H8 as [_ [A B C D]]; split; eassumption|]. intros H9.
  apply eff_bind. eapply release_ok; [exact H9|]. intros H10. now apply fail5_ok.
Qed.

End Labels.
