(* ===== verification/TunMainFacts.v ===== *)
(** * tun2socks as a whole: correctness of start-up, event handling and shut-down

    Whatever the calls of the system and of lwIP return and whatever events arrive, no assertion of [main] or of a handler fails,
    the event loop makes progress, and everything that was initialised is freed once, in reverse order. *)

From S2P Require Import Prelude CLib Mem Effect BAddr BPending TunClient TunInv TunStep TunRun UdpPacket UdpFacts BSocksClient IpText TunOptions TunMain TunMainLoop.

Open Scope Z_scope.

Import IpText TunOptions TunMain.

(** ** Options *)

Record parsed (o : options) : Prop := Parsed {
  pa_mtu : 0 < tun_mtu o;
  pa_level : loglevel o <= BLOG_DEBUG;
  pa_levels : length (loglevels o) = BLOG_NUM_CHANNELS /\ Forall (fun l => l <= BLOG_DEBUG) (loglevels o);
}.

Lemma parse_loglevel_max v : parse_loglevel v <= BLOG_DEBUG.
Proof.
  unfold parse_loglevel, BLOG_DEBUG. repeat case_bool_decide; try lia. all: destruct (strtol10 v) as [res endptr];
    destruct (_ && _) eqn:E; [|lia]; apply andb_true_iff in E as [_ E]; lia.
Qed.

Lemma parse_option_parsed arg rest o o' rest' : parse_option arg rest o = Some (o', rest') -> parsed o -> parsed o'.
Proof.
  unfold parse_option. cbv zeta. intros E [H1 H2 [H3 H4]].
  repeat match type of E with
  | (if bool_decide ?b then _ else _) = _ => destruct (bool_decide b)
  | match ?r with [] => _ | _ :: _ => _ end = _ => destruct r
  | (if ?b then _ else _) = _ => destruct b eqn:?
  | match (if ?b then _ else _) with Some _ => _ | None => _ end = _ => destruct b eqn:?
  end; simplify_eq; split; cbn [tun_mtu loglevel loglevels set_help set_version set_logger set_logger_syslog_facility set_logger_syslog_ident set_loglevel
    set_loglevels set_netif_ipaddr set_netif_netmask set_netif_ip6addr set_socks_server_addr set_username set_password set_password_file
    set_append_source_to_username set_udpgw_remote_server_addr set_udpgw_max_connections set_tun_mtu set_fake_proc set_sock_path set_pid set_opt_dnsgw];
    try assumption; try lia; try apply parse_loglevel_max; try (split; assumption).
  split; [now rewrite length_insert|]. apply Forall_insert; [done|apply parse_loglevel_max].
Qed.

Lemma parse_arguments_parsed argv o : parse_arguments argv = Some o -> parsed o.
Proof.
  unfold parse_arguments. destruct argv as [|argv0 args]; [done|]. destruct (parse_loop (length args) args (default_options argv0)) as [o'|] eqn:E; [|done].
  intros E'. destruct (check_options o'); [|done]. injection E' as <-.
  assert (Hd : parsed (default_options argv0)).
  { split; [done|done|]. split; [apply repeat_length|]. apply Forall_forall. intros x Hx%list_elem_of_In%repeat_spec. subst. done. }
  revert E Hd. generalize (default_options argv0). generalize (length args). intros n. revert args. induction n as [|n IH]; intros [|arg rest] o E Hd; cbn [parse_loop] in E; try congruence.
  destruct (parse_option arg rest o) as [[o1 rest1]|] eqn:E1; [|done]. eapply IH; [exact E|]. eapply parse_option_parsed; eassumption.
Qed.

Section Start.
Context (getaddrinfo : bool -> list Z -> bool -> option (list Z)) (read_file : list Z -> option (list Z)).

Lemma BAddr_Parse2_some str b a : BAddr_Parse2 getaddrinfo str b = Some a -> a <> BADDR_NONE.
Proof.
  unfold BAddr_Parse2. intros E. repeat match type of E with
  | (if ?b then _ else _) = _ => destruct b; [congruence|]
  | (let (_, _) := ?x in _) = _ => destruct x
  | match ?x with Some _ => _ | None => _ end = _ => destruct x as [?|]; [|congruence]
  end. simplify_eq. match goal with |- context [if ?b then _ else _] => destruct b end; done.
Qed.

Lemma process_arguments_some o p c :
  process_arguments getaddrinfo read_file o = (Some p, c) -> ipv4_of (pr_netif p) <> None /\ pr_server p <> BADDR_NONE.
Proof.
  unfold process_arguments. destruct (netif_ipaddr o) as [ipaddr|]; [|congruence]. destruct (socks_server_addr o) as [server|]; [|congruence].
  destruct (BIPAddr_Resolve getaddrinfo ipaddr false) as [[|ip|ip]|]; try congruence. cbv zeta.
  destruct (match netif_ip6addr o with None => _ | Some s => _ end) as [ip6a|]; [|congruence].
  destruct (BAddr_Parse2 getaddrinfo server false) as [sa|] eqn:Es; [|congruence].
  destruct (match username o with None => _ | Some u => _ end) as [[auth contents]|]; [|congruence].
  destruct (parse_optional _ (udpgw_remote_server_addr o)) as [ua|]; [|congruence].
  destruct (parse_optional _ (opt_dnsgw o)) as [[| |]|]; intros E; simplify_eq; cbn [pr_netif pr_server ipv4_of]; (split; [done|]); eapply BAddr_Parse2_some, Es.
Qed.

End Start.

(** ** Starting *)

Record boot (n : nat) (l : list resource) (js : list job) (s : st) : Prop := Boot {
  bo_live : live s = l;
  bo_jobs : jobs s = js;
  bo_trace : trace s = [];
  bo_clients : clients s = TunRun.initial;
  bo_pbufs : pbufs s = 0%nat;
  bo_exiting : exiting s = false;
  bo_timer : timer_set s = false;
  bo_replies : (length (replies s) <= n)%nat;
}.

Lemma boot_halting n l js s : boot n l js s -> halting l s.
Proof. intros [A B C D E F G H]. split; [done|now rewrite D|done|]. exists []. rewrite C. cbn. split; [done|lia]. Qed.

Lemma boot_draw n l js d (Q : reply -> st -> Prop) s :
  boot n l js s -> (forall r rs, boot n l js (with_replies (fun _ => rs) s) -> Q r (with_replies (fun _ => rs) s)) -> runs (draw d) Q s.
Proof.
  intros Hb HQ. assert (H : forall rs, (length rs <= length (replies s))%nat -> boot n l js (with_replies (fun _ => rs) s)).
  { intros rs Hrs. destruct Hb as [A B C D E F G H]. split; try assumption. cbn. lia. }
  apply draw_ok.
  - intros E. assert (X : with_replies (fun _ => []) s = s) by (destruct s; cbn in E; now subst). rewrite <- X. apply HQ, H. cbn. lia.
  - intros r rs E. apply HQ, H. rewrite E. cbn. lia.
Qed.

Lemma boot_acquire n l js r (Q : unit -> st -> Prop) s :
  boot n l js s -> (boot n (r :: l) js (with_live (cons r) s) -> Q tt (with_live (cons r) s)) -> runs (acquire r) Q s.
Proof. intros [A B C D E F G H] HQ. apply eff_upd, HQ. split; try assumption. cbn. now rewrite A. Qed.

Lemma boot_release n l js line r (Q : unit -> st -> Prop) s :
  boot n (r :: l) js s -> (boot n l js (with_live (fun _ => l) s) -> Q tt (with_live (fun _ => l) s)) -> runs (release line r) Q s.
Proof.
  intros [A B C D E F G H] HQ. unfold release. apply eff_bind, eff_get. rewrite A, bool_decide_true by done. apply eff_upd, HQ. split; done.
Qed.

(** The end of the program, from the start of the reactor on. *)
Definition outcome (evs : list event) (e : ending) (s : st) : Prop :=
  match e with
  | Returned c => c = 1 /\ halting [] s /\ jobs s = []
  | Exited _ => live s = [RLog] /\ trace s = [] /\ pbufs s = 0%nat
  | Waiting => Signal ∉ evs /\ jobs s = [] /\ quitting s = false /\ pbufs s = 0%nat /\ reads (trace s) = handled (trace s)
  end.

Lemma finished_outcome {evs m s} : runs m finished s -> runs m (outcome evs) s.
Proof. intros H. eapply eff_mono; [exact H|]. intros e s' (-> & H1 & H2). done. Qed.

Lemma waiting_outcome cfg base evs s :
  loop_inv cfg base s -> quitting s = false -> jobs s = [] -> Signal ∉ evs -> outcome evs Waiting s.
Proof.
  intros Hinv Hq Hj Hs. destruct (running_at cfg base _ s Hinv Hq Hj) as (Ha & _ & _ & _ & _ & (_ & _ & _ & _ & Hr)); [apply not_elem_of_nil|].
  repeat split; try done. apply Ha.
Qed.

(** The device, once it is initialised and its output is asked for a packet. *)
Record device_up (mtu : Z) (s : st) : Prop := DeviceUp {
  du_mtu : frame_mtu s = mtu;
  du_out : out_state s = STATE_OPERATION_PENDING;
  du_in : in_state s = STATE_NONE;
  du_packet : output_packet s = false;
  du_poll : poll_read s = false;
  du_buf : Z.of_nat (length (read_buf s)) = mtu;
  du_quit : quitting s = false;
}.

Lemma enter_loop_ok contents udpgw cfg fuel evs n mtu s :
  boot n (RTimer :: RWriteBuf :: at5 contents udpgw) [LwipInit; RecvOperation] (with_timer_set (fun _ => false) s) -> timer_set s = true -> device_up mtu s -> 0 < mtu ->
  Z.of_nat (length (write_buf s)) = mtu -> have_netif s = false -> listener s = false -> listener_ip6 s = false ->
  ipv4_of (cf_ipaddr cfg) <> None -> (length evs + 5 * n + 2 < fuel)%nat ->
  runs (over ← BReactor_Exec cfg fuel evs; if negb over then mret Waiting else leave_loop contents udpgw) (outcome evs) s.
Proof.
  intros [A B C D E F G H] Ht [D1 D2 D3 D4 D5 D6 D7] Hmtu Hwb Hn Hl Hl6 Hip Hf.
  cbn [live jobs trace clients pbufs exiting timer_set replies with_timer_set] in A, B, C, D, E, F, H.
  assert (Hinv : loop_inv cfg (at_loop contents udpgw) s).
  { split.
    - unfold tops. rewrite Hn, Hl, Hl6. split; [exact A| |lia|congruence|congruence| |exact E|congruence|].
      + unfold at_loop, at5, at4a, at4. cbn [elem_of]. set_unfold. tauto.
      + rewrite D. apply initial_inv.
      + intros _. rewrite B. set_unfold. intros [?|[?|[]]]; done.
    - rewrite D7. split; [done| |].
      + unfold reader_of. rewrite B, C. cbn [reads handled flat_map]. change (BPending_Unset LwipInit [LwipInit; RecvOperation]) with [RecvOperation]. done.
      + rewrite B, bool_decide_true by (apply elem_of_cons; now left). done. }
  assert (Hm : (measure s <= 5 * n + 2)%nat) by (unfold measure; rewrite B; cbn [sum_list_with rank]; lia).
  apply eff_bind. eapply eff_mono; [apply (exec_ok cfg _ Hip fuel evs s Hinv); right; lia|]. intros [] s' [X1 X2]; cbn [negb].
  - apply finished_outcome. now apply leave_loop_ok with cfg.
  - destruct X2 as (Y1 & Y2 & Y3). apply eff_ret. now apply waiting_outcome with cfg (at_loop contents udpgw).
Qed.

Lemma BTap_Init2_ok n l js fd mtu (Q : bool -> st -> Prop) s :
  boot n l js s -> 0 <= fd -> 0 <= mtu ->
  (forall s', boot n l js s' -> Q false s') ->
  (forall s', boot n (RDevice :: l) js s' -> frame_mtu s' = mtu -> out_state s' = STATE_NONE -> output_packet s' = false -> poll_read s' = false ->
    quitting s' = quitting s -> Q true s') ->
  runs (BTap_Init2 fd mtu) Q s.
Proof.
  intros Hb Hfd Hmtu Hf Ht. unfold BTap_Init2. do 2 (apply eff_bind, eff_assert; [lia|]). apply eff_bind, eff_upd.
  assert (H1 : boot n l js (with_frame_mtu (fun _ => mtu) s)) by (destruct Hb; now split).
  apply eff_bind. eapply boot_draw; [exact H1|]. intros r rs H2. destruct (r_num r <? 0); [now apply eff_ret, Hf|].
  apply eff_bind. eapply boot_draw; [exact H2|]. intros r' rs' H3. destruct (r_num r' =? 0); [now apply eff_ret, Hf|].
  apply eff_bind. eapply boot_acquire; [exact H3|]. intros H4. apply eff_bind, eff_upd, eff_bind, eff_upd, eff_bind, eff_upd, eff_ret.
  apply Ht; try done. destruct H4 as [A B C D E F G H]. split; assumption.
Qed.

Lemma SinglePacketBuffer_Init_ok n l mtu (Q : bool -> st -> Prop) s :
  boot n l [] s -> 0 <= mtu -> frame_mtu s = mtu -> out_state s = STATE_NONE -> in_state s = STATE_NONE -> output_packet s = false -> poll_read s = false -> quitting s = false ->
  (forall s', boot n l [] s' -> Q false s') ->
  (forall s', boot n (RReadBuffer :: l) [RecvOperation] s' -> device_up mtu s' -> Q true s') ->
  runs SinglePacketBuffer_Init Q s.
Proof.
  intros Hb Hm0 Hmtu Ho Hi Hp Hpr Hq Hf Ht. unfold SinglePacketBuffer_Init. apply eff_bind, eff_get, eff_bind. eapply boot_draw; [exact Hb|]. intros r rs H1.
  destruct (r_num r =? 0); [now apply eff_ret, Hf|]. apply eff_bind. eapply boot_acquire; [exact H1|]. intros H2. apply eff_bind, eff_upd.
  apply eff_bind. unfold Output_Recv. apply eff_bind, eff_get, eff_bind, eff_assert; [cbn; now rewrite Ho|]. apply eff_bind, eff_upd, eff_upd, eff_ret. apply Ht.
  - destruct H2 as [A B C D E F G H]. split; try assumption.
    change (BPending_Set RecvOperation (jobs s) = [RecvOperation]). now rewrite (bo_jobs _ _ _ _ Hb).
  - split; try assumption; [done|]. change (Z.of_nat (length (repeat 0 (Z.to_nat (frame_mtu s)))) = mtu). rewrite repeat_length. lia.
Qed.

Lemma start_loop_ok contents o p (udpgw : bool) udp_mtu fuel evs n s :
  boot n ((if udpgw then [RUdpgw] else []) ++ at4a contents) [RecvOperation] s -> device_up (tun_mtu o) s -> 0 < tun_mtu o ->
  ipv4_of (pr_netif p) <> None -> (length evs + 5 * n + 2 < fuel)%nat -> runs (start_loop contents o p udpgw udp_mtu fuel evs) (outcome evs) s.
Proof.
  intros Hb Hdev Hmtu Hip Hf. unfold start_loop. apply eff_bind. eapply boot_acquire; [exact Hb|]. intros H1. apply eff_bind, eff_upd. set (s2 := with_jobs _ _).
  assert (H2 : boot n (at5 contents udpgw) [LwipInit; RecvOperation] s2).
  { destruct H1 as [A B C D E F G H]. split; try assumption. change (BPending_Set LwipInit (jobs s) = [LwipInit; RecvOperation]). now rewrite (bo_jobs _ _ _ _ Hb). }
  apply eff_bind. eapply boot_draw; [exact H2|]. intros r rs H3. destruct (r_num r =? 0).
  { apply finished_outcome, fail5_ok; [eapply boot_halting, H3|apply H3]. }
  apply eff_bind. eapply boot_acquire; [exact H3|]. intros H4. apply eff_bind, eff_get, eff_bind, eff_upd, eff_bind.
  eapply (boot_acquire n _ [LwipInit; RecvOperation]); [destruct H4 as [A B C D E F G H]; split; eassumption|]. intros H5.
  do 6 (apply eff_bind, eff_upd). eapply (enter_loop_ok contents udpgw _ fuel evs n (tun_mtu o)); try done.
  - destruct H5 as [A B C D E F G H]. split; try assumption; done.
  - destruct Hdev as [A B C D E F G]. split; assumption.
  - change (Z.of_nat (length (repeat 0 (Z.to_nat (frame_mtu s)))) = tun_mtu o). rewrite repeat_length, (du_mtu _ _ Hdev). lia.
Qed.

Lemma run_reactor_ok contents o p fd fuel evs n s :
  boot n (at1 contents) [] s -> 0 <= fd -> 0 < tun_mtu o -> ipv4_of (pr_netif p) <> None -> pr_server p <> BADDR_NONE ->
  (length evs + 5 * n + 2 < fuel)%nat -> runs (run_reactor contents o p fd fuel evs) (outcome evs) s.
Proof.
  intros Hb Hfd Hmtu Hip Hsrv Hf. unfold run_reactor. cbv zeta. set (udpgw := bool_decide (udpgw_remote_server_addr o <> None)). clearbody udpgw.
  assert (Hh : forall l (m : eff st ending) s, boot n l [] s -> (halting l s -> jobs s = [] -> timer_set s = false -> runs m finished s) -> runs m (outcome evs) s).
  { intros l m s0 H0 Hm. apply finished_outcome, Hm; [eapply boot_halting, H0|apply H0|apply H0]. }
  apply eff_bind. eapply boot_draw; [exact Hb|]. intros r rs H1. destruct (r_num r =? 0); [eapply Hh; [exact H1|]; intros; now apply fail1_ok|].
  apply eff_bind. eapply boot_acquire; [exact H1|]. intros H2. apply eff_bind, eff_upd. set (s3 := with_quitting _ _).
  assert (H3 : boot n (at2 contents) [] s3) by (destruct H2; now split). assert (Hq3 : quitting s3 = false) by done. clearbody s3.
  apply eff_bind. eapply boot_draw; [exact H3|]. intros r' rs' H4. destruct (r_num r' =? 0); [eapply Hh; [exact H4|]; intros; now apply fail2_ok|].
  apply eff_bind. eapply boot_acquire; [exact H4|]. intros H5. apply eff_bind. eapply BTap_Init2_ok; [exact H5|done|lia|..].
  { intros s6 H6. cbn [negb]. eapply Hh; [exact H6|]. intros. now apply fail3_ok. }
  intros s6 H6 D1 D2 D3 D4 D5. cbn [negb]. apply eff_bind. eapply boot_acquire; [exact H6|]. intros H7. apply eff_bind, eff_upd. set (s8 := with_in_state _ _).
  assert (H8 : boot n (at4 contents) [] s8) by (destruct H7; now split). apply eff_bind.
  eapply (SinglePacketBuffer_Init_ok n _ (tun_mtu o)); [exact H8|lia|exact D1|exact D2|done|exact D3|exact D4|etransitivity; [exact D5|exact Hq3]|..].
  { intros s9 H9. cbn [negb]. eapply Hh; [exact H9|]. intros X Y Z. apply fail4_ok; [exact X|rewrite Y; apply not_elem_of_nil|exact Z]. }
  intros s9 H9 Hdev. cbn [negb]. apply eff_bind, eff_get. cbv zeta. destruct (udpgw && _).
  { apply finished_outcome, fail4a_ok; [eapply boot_halting, H9|rewrite (bo_jobs _ _ _ _ H9); now apply not_single|apply H9]. }
  apply eff_bind. destruct udpgw; cbn [whenever].
  - unfold SocksUdpGwClient_Init. apply eff_bind, eff_assert; [now rewrite bool_decide_false|]. eapply boot_acquire; [exact H9|]. intros H10.
    eapply start_loop_ok; [exact H10|destruct Hdev as [A B C D E F G]; split; assumption|done..].
  - apply eff_ret. eapply start_loop_ok; [exact H9|exact Hdev|done..].
Qed.

Lemma wait_for_fd_ok n l js garbage (Q : Z -> st -> Prop) s :
  boot n l js s -> -1 <= garbage -> (forall fd s', boot n l js s' -> -1 <= fd -> Q fd s') -> runs (wait_for_fd garbage) Q s.
Proof.
  intros H0 Hg HQ. unfold wait_for_fd. apply eff_bind. eapply boot_draw; [exact H0|]. intros r rs H1. destruct (r_num r =? -1); [apply eff_ret, HQ; [done|lia]|].
  apply eff_bind. eapply boot_acquire; [exact H1|]. intros H2.
  do 3 (apply eff_bind; eapply boot_draw; [eassumption|]; clear H2; intros ? ? H2).
  apply eff_bind. eapply boot_draw; [eassumption|]. intros r4 rs4 H4. destruct (r_num r4 =? -1).
  { apply eff_bind. eapply boot_release; [exact H4|]. intros H5. apply eff_ret, HQ; [exact H5|lia]. }
  apply eff_bind. eapply boot_draw; [eassumption|]. intros r5 rs5 H5. destruct (r_num r5 =? -1).
  { apply eff_bind. eapply boot_release; [exact H5|]. intros H6. apply eff_ret, HQ; [exact H6|lia]. }
  assert (Hend : forall fd s', boot n (RSocket :: l) js s' -> -1 <= fd -> runs (release 466 RSocket ;; mret fd) Q s').
  { intros fd s' H Hfd. apply eff_bind. eapply boot_release; [exact H|]. intros H'. now apply eff_ret, HQ. }
  apply eff_bind. eapply boot_draw; [eassumption|]. intros r6 rs6 H6. apply eff_bind. destruct (r_num r6 <? 0); [now apply eff_ret, Hend|].
  apply eff_bind. eapply boot_draw; [eassumption|]. intros r7 rs7 H7. destruct (r_num r7 =? -1); [now apply eff_ret, Hend|].
  apply eff_bind. eapply boot_acquire; [exact H7|]. intros H8. apply eff_bind. eapply boot_draw; [eassumption|]. intros r9 rs9 H9.
  apply eff_bind. eapply boot_release; [exact H9|]. intros H10. destruct (r_data r9) as [|fd d]; apply eff_ret, Hend; [exact H10| |exact H10|lia].
  destruct (r_num r9 =? 0); lia.
Qed.

Lemma daemonize_ok n l js (Q : option Z -> st -> Prop) s :
  boot n l js s -> (forall c s', boot n l js s' -> Q c s') -> runs daemonize Q s.
Proof.
  intros H0 HQ. unfold daemonize. apply eff_bind. eapply boot_draw; [exact H0|]. intros r rs H1. destruct (r_num r <? 0); [now apply eff_ret, HQ|].
  destruct (0 <? r_num r); apply eff_bind; (eapply boot_draw; [exact H1|]; intros r2 rs2 H2); [now apply eff_ret, HQ|].
  destruct (r_num r2 <? 0); [now apply eff_ret, HQ|]. apply eff_bind. eapply boot_draw; [exact H2|]. intros r3 rs3 H3. now apply eff_ret, HQ.
Qed.

Lemma configure_channels_ok n js loglevel levels : forall i (Q : unit -> st -> Prop) s,
  boot n [RLog] js s -> (i + length levels <= length (channels s))%nat -> loglevel <= BLOG_DEBUG -> Forall (fun l => l <= BLOG_DEBUG) levels ->
  (forall s', boot n [RLog] js s' -> Q tt s') -> runs (configure_channels loglevel i levels) Q s.
Proof.
  induction levels as [|lev levels IH]; intros i Q s H0 Hlen Hl Hls HQ; cbn [configure_channels length] in *; [now apply eff_ret, HQ|].
  apply Forall_cons in Hls as [Hl1 Hls].
  assert (Hset : forall x, 0 <= x <= BLOG_DEBUG -> runs (BLog_SetChannelLoglevel i x) (fun _ => runs (configure_channels loglevel (S i) levels) Q) s).
  { intros x Hx. unfold BLog_SetChannelLoglevel. apply eff_bind, eff_get, eff_bind, eff_assert; [apply bool_decide_true; rewrite (bo_live _ _ _ _ H0); now apply elem_of_cons; left|].
    apply eff_bind, eff_assert; [apply Nat.ltb_lt; lia|]. apply eff_bind, eff_assert; [apply andb_true_iff; lia|]. apply eff_upd.
    apply IH; try done; [destruct H0; now split|]. change (S i + length levels <= length (<[i := x]> (channels s)))%nat. rewrite length_insert. lia. }
  apply eff_bind. destruct (Z.leb_spec 0 lev); [apply Hset; lia|]. destruct (Z.leb_spec 0 loglevel); [apply Hset; lia|].
  apply eff_ret, IH; try done. lia.
Qed.

Section Main.
Context (getaddrinfo : bool -> list Z -> bool -> option (list Z)) (read_file : list Z -> option (list Z)).

(** Whether only the help or the version was asked for. *)
Definition asks_help (argv : list (list Z)) : bool := match parse_arguments argv with Some o => help o || version o | None => false end.

Definition main_post (argv : list (list Z)) (evs : list event) (e : ending) (s : st) : Prop :=
  if asks_help argv then e = Returned 0 /\ halting [] s /\ jobs s = []
  else outcome evs e s.

Lemma init_logger_ok o n (Q : bool -> st -> Prop) s :
  boot n [] [] s -> (forall s', boot n [] [] s' -> Q false s') ->
  (forall s', boot n [RLog] [] s' -> length (channels s') = BLOG_NUM_CHANNELS -> Q true s') -> runs (init_logger o) Q s.
Proof.
  intros H0 Hf Ht. unfold init_logger, BLog_Init. assert (Hlen : length default_levels = BLOG_NUM_CHANNELS) by (vm_compute; reflexivity).
  destruct (logger o); [|destruct (resolve_facility _); [|now apply eff_ret, Hf]];
    (apply eff_bind, eff_bind; eapply boot_acquire; [exact H0|]; intros H1; apply eff_upd, eff_ret, Ht; [destruct H1; now split|exact Hlen]).
Qed.

Lemma main_ok argv garbage fuel evs rs :
  -1 <= garbage -> (length evs + 5 * length rs + 2 < fuel)%nat ->
  runs (main getaddrinfo read_file argv garbage fuel evs) (main_post argv evs) (start rs).
Proof.
  intros Hg Hf. set (n := length rs) in *. assert (H0 : boot n [] [] (start rs)) by (split; done). unfold main, main_post, asks_help.
  assert (Hend : forall s, boot n [] [] s -> outcome evs (Returned 1) s) by (intros s H; split; [done|split; [eapply boot_halting, H|apply H]]).
  destruct (parse_arguments argv) as [o|] eqn:Ep; [|now apply eff_ret, Hend]. destruct (parse_arguments_parsed argv o Ep) as [P1 P2 [P3 P4]].
  destruct (help o || version o); [apply eff_ret; split; [done|split; [eapply boot_halting, H0|done]]|].
  apply eff_bind. eapply init_logger_ok; [exact H0|now intros s H; apply eff_ret, Hend|]. intros s1 H1 Hc. cbn [negb].
  apply eff_bind. eapply configure_channels_ok; [exact H1|lia|done|done|]. intros s2 H2. apply eff_bind. eapply wait_for_fd_ok; [exact H2|done|]. intros fd s3 H3 Hfd.
  assert (Hfail : forall c s, boot n (at1 c) [] s -> runs (fail1 c) (outcome evs) s) by (intros c s H; apply finished_outcome, fail1_ok; [eapply boot_halting, H|apply H]).
  destruct (Z.eqb_spec fd (-1)); [now apply (Hfail false)|]. apply eff_bind.
  assert (Hrest : forall s, boot n [RLog] [] s -> runs
    (r ← draw 1; if r_num r =? 0 then fail1 false else
     let (p, c) := process_arguments getaddrinfo read_file o in
     let contents := bool_decide (c <> None) in
     whenever contents (acquire RPassword) ;;
     match p with None => fail1 contents | Some p => run_reactor contents o p fd fuel evs end) (outcome evs) s).
  { intros s H. apply eff_bind. eapply boot_draw; [exact H|]. intros r rs' H4. destruct (r_num r =? 0); [now apply (Hfail false)|].
    destruct (process_arguments getaddrinfo read_file o) as [p c] eqn:Epr. cbv zeta. set (contents := bool_decide (c <> None)). apply eff_bind.
    assert (Hgo : forall s', boot n (at1 contents) [] s' -> runs match p with None => fail1 contents | Some p => run_reactor contents o p fd fuel evs end (outcome evs) s').
    { intros s' H'. destruct p as [p|]; [|now apply Hfail]. destruct (process_arguments_some _ _ _ _ _ Epr). eapply run_reactor_ok; [exact H'|lia|done..]. }
    clearbody contents. destruct contents; cbn [whenever].
    - eapply boot_acquire; [exact H4|]. intros H5. now apply Hgo.
    - apply eff_ret. now apply Hgo. }
  destruct (pid o).
  - eapply daemonize_ok; [exact H3|]. intros [c|] s4 H4; [|now apply Hrest]. apply eff_ret. split; [|split]; apply H4.
  - apply eff_ret. now apply Hrest.
Qed.


(** C7. Packets from the device: each one is given, in the order in which they were read, to the UDP client or to lwIP or is thrown away, and only once,
    from the one buffer they are read into. The last one may be left when the program ends; while it waits for events none is. No pbuf is leaked. *)
Theorem device_packets_handled argv garbage fuel evs rs e s :
  -1 <= garbage -> (length evs + 5 * length rs + 2 < fuel)%nat -> main getaddrinfo read_file argv garbage fuel evs (start rs) = Done e s ->
  exists left, reads (trace s) = handled (trace s) ++ left /\ (length left <= 1)%nat /\ (e = Waiting -> left = []) /\ pbufs s = 0%nat.
Proof.
  intros Hg Hf E. pose proof (eff_at _ _ _ _ _ (main_ok argv garbage fuel evs rs Hg Hf) E) as H. unfold main_post in H.
  assert (Hh : halting [] s -> e <> Waiting -> exists left, reads (trace s) = handled (trace s) ++ left /\ (length left <= 1)%nat /\ (e = Waiting -> left = []) /\ pbufs s = 0%nat).
  { intros [_ _ Hp (fl & X & Y)] Z. exists fl. done. }
  destruct (asks_help argv); [destruct H as (-> & H & _); now apply Hh|]. destruct e as [c|c|]; cbn [outcome] in H.
  - destruct H as (_ & H & _). now apply Hh.
  - destruct H as (_ & -> & Hp). exists []. split; [done|]. split; [cbn; lia|done].
  - destruct H as (_ & _ & _ & Hp & ->). exists []. rewrite app_nil_r. split; [done|]. split; [cbn; lia|done].
Qed.

End Main.

(** C8. Packets to the device: the whole chain of pbufs is written as one packet exactly when it fits the MTU of the device, and otherwise nothing is;
    the chain is gathered in a buffer of the size of the MTU, never past its end, and nothing else changes. *)
Theorem netif_output_whole p s :
  RDevice ∈ live s -> DeviceError ∉ jobs s -> 0 <= frame_mtu s -> Z.of_nat (length (write_buf s)) = frame_mtu s -> quitting s = false ->
  exists s', common_netif_output p s = Done ERR_OK s' /\
    trace s' = trace s ++ (if total (p.1 :: p.2) <=? frame_mtu s then [Written (concat (p.1 :: p.2))] else []) /\
    length (write_buf s') = length (write_buf s) /\ read_buf s' = read_buf s /\ jobs s' = jobs s /\ live s' = live s /\ replies s' = replies s.
Proof.
  intros H1 H2 H3 H4 H5. destruct (eff_done _ _ _ (netif_output_ok p s (CanWrite s H1 H2 H3 H4) H5)) as (e & s' & E & -> & wb & Hwb & ->).
  eexists. split; [exact E|]. repeat split; try done. cbn [sent trace with_trace with_write_buf with_replies]. f_equal. unfold packet_of.
  destruct (_ <=? _); done.
Qed.

(** ** Concrete runs *)

Definition demo_argv : list (list Z) :=
  [B# "tun2socks"; B# "--netif-ipaddr"; B# "26.26.26.1"; B# "--socks-server-addr"; B# "127.0.0.1:1080"; B# "--enable-udprelay"; B# "--netif-ip6addr"; B# "fdfe::1"].

Definition demo_resolve (v6 : bool) (name : list Z) (numeric : bool) : option (list Z) := Some [26; 26; 26; 1].
Definition demo_file (name : list Z) : option (list Z) := None.

(** Every call succeeds, and the application passes a descriptor; the device then has one packet. *)
Definition plain (z : Z) : reply := Reply z [] [].
Definition demo_replies : list reply :=
  map plain [3; 0; 0; 0; 0; 0; 1; 4] ++ [Reply 0 [7] []] ++ map plain [1; 1; 1; 0; 1; 1; 1; 0; 1; 0; 0; 0; 0; 0; 0; 1; 0; 0; 1; 0; 1; 0; 0; 1; 0] ++
  [Reply 4 [69; 0; 0; 4] []; plain 1; Reply 0 [] [([1; 2], [[3]])]].


Lemma device_packets_handled_witness :
  match main demo_resolve demo_file demo_argv 0 300 [Timer] (start demo_replies) with
  | Done e s => e = Waiting /\ reads (trace s) = [[69; 0; 0; 4]] /\ handled (trace s) = [[69; 0; 0; 4]]
  | Bad _ => False
  end.
Proof.
  destruct (main demo_resolve demo_file demo_argv 0 300 [Timer] (start demo_replies)) as [e s|] eqn:E; [|vm_compute in E; discriminate E].
  destruct (device_packets_handled demo_resolve demo_file demo_argv 0 300 [Timer] demo_replies e s) as (l & H1 & _ & H2 & _); [lia|vm_compute; lia|exact E|].
  assert (Hc : match main demo_resolve demo_file demo_argv 0 300 [Timer] (start demo_replies) with
    Done e s => e = Waiting /\ reads (trace s) = [[69; 0; 0; 4]] | Bad _ => False end) by (vm_compute; split; reflexivity).
  rewrite E in Hc. destruct Hc as [He Hr]. split; [exact He|]. split; [exact Hr|]. rewrite (H2 He), app_nil_r in H1. rewrite <- H1. exact Hr.
Defined.

Definition demo_state : st :=
  with_write_buf (fun _ => repeat 0 4) (with_frame_mtu (fun _ => 4) (with_live (fun _ => [RDevice]) (start []))).

Lemma netif_output_whole_witness :
  (exists s', common_netif_output ([1; 2], [[3]; [4]]) demo_state = Done ERR_OK s' /\ trace s' = [Written [1; 2; 3; 4]]) /\
  (exists s', common_netif_output ([1; 2], [[3]; [4; 5]]) demo_state = Done ERR_OK s' /\ trace s' = []).
Proof.
  assert (H1 : RDevice ∈ live demo_state) by (apply elem_of_cons; left; reflexivity).
  assert (H2 : DeviceError ∉ jobs demo_state) by apply not_elem_of_nil.
  split.
  - destruct (netif_output_whole ([1; 2], [[3]; [4]]) demo_state H1 H2) as (s' & E & Ht & _); [vm_compute; discriminate|reflexivity|reflexivity|]. exists s'. split; [exact E|exact Ht].
  - destruct (netif_output_whole ([1; 2], [[3]; [4; 5]]) demo_state H1 H2) as (s' & E & Ht & _); [vm_compute; discriminate|reflexivity|reflexivity|]. exists s'. split; [exact E|exact Ht].
Defined.

(** When [accept] fails, [wait_for_fd] returns what its variable happened to hold: [main] goes on with a descriptor it was never given,
    or fails an assertion of the device when the value is below -1. *)
Lemma uninitialised_descriptor garbage :
  exists s, wait_for_fd garbage (start (map plain [3; 0; 0; 0; 0; 0; 1; -1])) = Done garbage s.
Proof. vm_compute. eexists. reflexivity. Qed.

Lemma uninitialised_descriptor_fatal :
  main demo_resolve demo_file demo_argv (-2) 300 [] (start (map plain [3; 0; 0; 0; 0; 0; 1; -1])) = Bad 328.
Proof. vm_compute. reflexivity. Qed.
