(* ===== verification/BConnection.v ===== *)
(** * Stream sockets ([badvpn/system/BConnection_unix.c])

    The connector that opens a socket, and the connection with its two stream
    interfaces: an operation is tried at once, and when the socket is not ready or the
    object has had its share of the round ([BReactorLimit]) it waits for an event of
    the reactor. The data of an operation are the bytes at the pointer the user passed,
    which it must not touch until the operation is done.

    The kernel is the field [kernel], the result of the one system call a step makes;
    [write] accepts at least one byte or fails, [read] delivers at most what was asked for.
    Failed assertions are faults. *)

From S2P Require Import Prelude Effect BPending.

Open Scope Z_scope.

Module BConn.

Definition BREACTOR_READ : Z := 1.
Definition BREACTOR_WRITE : Z := 2.
Definition BREACTOR_ERROR : Z := 4.
Definition BREACTOR_HUP : Z := 8.

Definition BCONNECTION_SEND_LIMIT : Z := 2.
Definition BCONNECTION_RECV_LIMIT : Z := 2.

Definition EVENT_ERROR : Z := 1.
Definition EVENT_RECVCLOSED : Z := 2.

(** [(events & mask)] as a condition. *)
Definition has (events mask : Z) : bool := negb (Z.land events mask =? 0).

Inductive io_state := NOT_INITED | READY | BUSY | INITED_CLOSED.

#[export] Instance io_state_eq_dec : EqDecision io_state.
Proof. solve_decision. Defined.

(** A system call that transfers data: how many bytes were written or what was read (nothing
    is the end of the stream), that it would block, or another error. *)
Inductive io_result := IoOk (n : Z) (data : list Z) | IoAgain | IoFail.

(** One direction: the count of [BReactorLimit], the interface, the state, the data (or the room) of
    the operation, and what was transferred by the operation that is done. *)
Record send_side := Send {
  s_count : Z;
  s_if : pi_state;
  s_state : io_state;
  busy_data : list Z;
  s_done : Z;
}.

Record recv_side := Recv {
  r_count : Z;
  r_if : pi_state;
  r_job : bool;
  r_state : io_state;
  busy_data_avail : Z;
  r_done : list Z;
}.

(** [BConnection]; [active] and [waitEvents] are the fields of its [BFileDescriptor]. *)
Record connection := Connection {
  is_hupd : bool;
  active : bool;
  waitEvents : Z;
  wait_events : Z;
  send : send_side;
  recv : recv_side;
  errored : bool;
}.

(** The connection, the result the kernel has for the next call, the events reported, the bytes that
    went to and came from the socket, and those whose transfer was told to the user. *)
Record world := World {
  conn : option connection;
  kernel : io_result;
  events : list Z;
  written : list Z;
  confirmed : list Z;
  readed : list Z;
  delivered : list Z;
}.

Definition with_send (f : send_side -> send_side) (o : connection) : connection :=
  Connection (is_hupd o) (active o) (waitEvents o) (wait_events o) (f (send o)) (recv o) (errored o).
Definition with_recv (f : recv_side -> recv_side) (o : connection) : connection :=
  Connection (is_hupd o) (active o) (waitEvents o) (wait_events o) (send o) (f (recv o)) (errored o).
Definition with_wait (e : Z) (o : connection) : connection :=
  Connection (is_hupd o) (active o) (waitEvents o) e (send o) (recv o) (errored o).
Definition with_fd (a : bool) (e : Z) (o : connection) : connection :=
  Connection (is_hupd o) a e (wait_events o) (send o) (recv o) (errored o).
Definition with_hupd (o : connection) : connection :=
  Connection true (active o) (waitEvents o) (wait_events o) (send o) (recv o) (errored o).
Definition with_errored (o : connection) : connection :=
  Connection (is_hupd o) (active o) (waitEvents o) (wait_events o) (send o) (recv o) true.

Definition with_conn (c : option connection) (w : world) : world :=
  World c (kernel w) (events w) (written w) (confirmed w) (readed w) (delivered w).
Definition with_kernel (k : io_result) (w : world) : world :=
  World (conn w) k (events w) (written w) (confirmed w) (readed w) (delivered w).
Definition with_event (e : Z) (w : world) : world :=
  World (conn w) (kernel w) (events w ++ [e]) (written w) (confirmed w) (readed w) (delivered w).
Definition with_written (l : list Z) (w : world) : world :=
  World (conn w) (kernel w) (events w) (written w ++ l) (confirmed w) (readed w) (delivered w).
Definition with_confirmed (l : list Z) (w : world) : world :=
  World (conn w) (kernel w) (events w) (written w) (confirmed w ++ l) (readed w) (delivered w).
Definition with_readed (l : list Z) (w : world) : world :=
  World (conn w) (kernel w) (events w) (written w) (confirmed w) (readed w ++ l) (delivered w).
Definition with_delivered (l : list Z) (w : world) : world :=
  World (conn w) (kernel w) (events w) (written w) (confirmed w) (readed w) (delivered w ++ l).

Definition this (line : Z) : eff world connection :=
  w ← get_st;
  match conn w with Some o => mret o | None => bad line end.

Definition set_this (line : Z) (f : connection -> connection) : eff world unit :=
  o ← this line;
  upd_st (with_conn (Some (f o))).

(** ** The reactor *)

Definition BReactor_AddFileDescriptor (o : connection) : connection := with_fd true 0 o.

Definition BReactor_RemoveFileDescriptor : eff world unit :=
  o ← this 1146;
  assert_at 1146 (active o) ;;
  set_this 1149 (with_fd false (waitEvents o)).

Definition BReactor_SetFileDescriptorEvents (events : Z) : eff world unit :=
  o ← this 1201;
  assert_at 1201 (active o) ;;
  assert_at 1202 (negb (has events (Z.lnot (Z.lor BREACTOR_READ BREACTOR_WRITE)))) ;;
  set_this 1235 (with_fd true events).

(** [BReactorLimit_Increment], for the two limits of a connection. *)
Definition increment_send : eff world bool :=
  o ← this 1271;
  if s_count (send o) >=? BCONNECTION_SEND_LIMIT then mret false
  else
    set_this 1279 (with_send (fun s => Send (s_count s + 1) (s_if s) (s_state s) (busy_data s) (s_done s))) ;;
    mret true.

Definition increment_recv : eff world bool :=
  o ← this 1271;
  if r_count (recv o) >=? BCONNECTION_RECV_LIMIT then mret false
  else
    set_this 1279 (with_recv (fun r => Recv (r_count r + 1) (r_if r) (r_job r) (r_state r) (busy_data_avail r) (r_done r))) ;;
    mret true.

(** ** Interfaces *)

(** [StreamPassInterface_Done] *)
Definition send_done (n : Z) : eff world unit :=
  o ← this 125;
  assert_at 125 (bool_decide (s_if (send o) = STATE_BUSY)) ;;
  assert_at 126 (0 <? n) ;;
  assert_at 127 (n <=? Z.of_nat (length (busy_data (send o)))) ;;
  set_this 135 (with_send (fun s => Send (s_count s) STATE_DONE_PENDING (s_state s) (busy_data s) n)).

(** [StreamRecvInterface_Done] *)
Definition recv_done (data : list Z) : eff world unit :=
  o ← this 125;
  assert_at 125 (bool_decide (r_if (recv o) = STATE_BUSY)) ;;
  assert_at 126 (0 <? Z.of_nat (length data)) ;;
  assert_at 127 (Z.of_nat (length data) <=? busy_data_avail (recv o)) ;;
  set_this 135 (with_recv (fun r => Recv (r_count r) STATE_DONE_PENDING (r_job r) (r_state r) (busy_data_avail r) data)).

Definition set_s_state (line : Z) (s' : io_state) : eff world unit :=
  set_this line (with_send (fun s => Send (s_count s) (s_if s) s' (busy_data s) (s_done s))).
Definition set_r_state (line : Z) (s' : io_state) : eff world unit :=
  set_this line (with_recv (fun r => Recv (r_count r) (r_if r) (r_job r) s' (busy_data_avail r) (r_done r))).
Definition set_r_job (line : Z) (b : bool) : eff world unit :=
  set_this line (with_recv (fun r => Recv (r_count r) (r_if r) b (r_state r) (busy_data_avail r) (r_done r))).

(** ** The connection *)

Definition connection_report_error : eff world unit :=
  o ← this 231;
  assert_at 231 (negb (errored o)) ;;
  set_this 235 with_errored ;;
  upd_st (with_event EVENT_ERROR).

(** Lines 249 to 250, 260 to 261 and the same of [connection_recv]. *)
Definition wait_for (event : Z) : eff world unit :=
  o ← this 249;
  set_this 249 (with_wait (Z.lor (wait_events o) event)) ;;
  o ← this 250;
  BReactor_SetFileDescriptorEvents (wait_events o).

Definition connection_send : eff world unit :=
  o ← this 241;
  assert_at 241 (negb (errored o)) ;;
  assert_at 242 (bool_decide (s_state (send o) = BUSY)) ;;
  go ← (if negb (is_hupd o) then increment_send else mret true);
  if negb go then wait_for BREACTOR_WRITE
  else
    w ← get_st;
    match kernel w with
    | IoAgain => if negb (is_hupd o) then wait_for BREACTOR_WRITE else connection_report_error
    | IoFail => connection_report_error
    | IoOk n _ =>
        let bytes := Z.max 1 (Z.min n (Z.of_nat (length (busy_data (send o))))) in
        assert_at 270 (bytes <=? Z.of_nat (length (busy_data (send o)))) ;;
        upd_st (with_written (take (Z.to_nat bytes) (busy_data (send o)))) ;;
        set_s_state 273 READY ;;
        send_done bytes
    end.

Definition connection_recv : eff world unit :=
  o ← this 281;
  assert_at 281 (negb (errored o)) ;;
  assert_at 282 (bool_decide (r_state (recv o) = BUSY)) ;;
  go ← (if negb (is_hupd o) then increment_recv else mret true);
  if negb go then wait_for BREACTOR_READ
  else
    w ← get_st;
    match kernel w with
    | IoAgain => if negb (is_hupd o) then wait_for BREACTOR_READ else connection_report_error
    | IoFail => connection_report_error
    | IoOk _ data =>
        let data := take (Z.to_nat (busy_data_avail (recv o))) data in
        match data with
        | [] => set_r_state 311 INITED_CLOSED ;; upd_st (with_event EVENT_RECVCLOSED)
        | _ :: _ =>
            upd_st (with_readed data) ;;
            set_r_state 322 READY ;;
            recv_done data
        end
    end.

Definition connection_fd_handler (events : Z) : eff world unit :=
  o ← this 330;
  assert_at 331 (negb (errored o)) ;;
  assert_at 332 (negb (is_hupd o)) ;;
  set_this 335 (with_wait (Z.land (wait_events o) (Z.lnot events))) ;;
  o ← this 336;
  BReactor_SetFileDescriptorEvents (wait_events o) ;;
  whenever (has events BREACTOR_HUP) (BReactor_RemoveFileDescriptor ;; set_this 344 with_hupd) ;;
  o ← this 347;
  let error := has events (Z.lor BREACTOR_ERROR BREACTOR_HUP) in
  let have_send := has events BREACTOR_WRITE || (error && bool_decide (s_state (send o) = BUSY)) in
  assert_at 348 (negb have_send || bool_decide (s_state (send o) = BUSY)) ;;
  let have_recv := has events BREACTOR_READ || (error && bool_decide (r_state (recv o) = BUSY)) in
  assert_at 353 (negb have_recv || bool_decide (r_state (recv o) = BUSY)) ;;
  if have_send then
    whenever have_recv (set_r_job 359 true) ;;
    connection_send
  else if have_recv then connection_recv
  else if negb (is_hupd o) then connection_report_error
  else mret tt.

Definition connection_recv_job_handler : eff world unit :=
  o ← this 391;
  assert_at 391 (negb (errored o)) ;;
  assert_at 392 (bool_decide (r_state (recv o) = BUSY)) ;;
  connection_recv.

Definition connection_send_if_handler_send (data : list Z) : eff world unit :=
  o ← this 401;
  assert_at 401 (negb (errored o)) ;;
  assert_at 402 (bool_decide (s_state (send o) = READY)) ;;
  assert_at 403 (0 <? Z.of_nat (length data)) ;;
  set_this 407 (with_send (fun s => Send (s_count s) (s_if s) BUSY data (s_done s))) ;;
  connection_send.

Definition connection_recv_if_handler_recv (avail : Z) : eff world unit :=
  o ← this 419;
  assert_at 419 (negb (errored o)) ;;
  assert_at 420 (bool_decide (r_state (recv o) = READY)) ;;
  assert_at 421 (0 <? avail) ;;
  set_this 425 (with_recv (fun r => Recv (r_count r) (r_if r) (r_job r) BUSY avail (r_done r))) ;;
  connection_recv.

(** ** The connector *)

(** [BConnector]: whether it still has its descriptor, and what its flags and its job say. *)
Record connector := Connector {
  has_fd : bool;
  connected : bool;
  have_bfd : bool;
  c_job : bool;
}.

(** What [connect] returned: 0, or that the connection is in progress, or another error. *)
Inductive connect_result := ConnectDone | ConnectInProgress | ConnectFailed.

(** [BConnector_InitFrom] with an address; the arguments are the results of the calls it makes. The
    descriptor is closed on the failure paths behind [socket]. *)
Definition BConnector_InitFrom (supported socket_ok nonblocking : bool) (connect : connect_result) (added : bool) : option connector :=
  if negb supported then None
  else if negb socket_ok then None
  else if negb nonblocking then None
  else
    match connect with
    | ConnectFailed => None
    | ConnectInProgress => if negb added then None else Some (Connector true false true false)
    | ConnectDone => Some (Connector true true false true)
    end.

(** The argument of the handler is returned with the new state; [None] is a failed assertion. *)
Definition connector_fd_handler (getsockopt_ok : bool) (result : Z) (o : connector) : option (bool * connector) :=
  if has_fd o && negb (connected o) && have_bfd o then
    let o := Connector (has_fd o) (connected o) false (c_job o) in
    let o := if getsockopt_ok && (result =? 0) then Connector (has_fd o) true (have_bfd o) (c_job o) else o in
    Some (negb (connected o), o)
  else None.

Definition connector_job_handler (o : connector) : option (bool * connector) :=
  if has_fd o && connected o && negb (have_bfd o) then Some (false, o) else None.

(** The descriptors closed and removed from the reactor. *)
Definition BConnector_Free (o : connector) : bool * bool := (has_fd o, have_bfd o).

(** [BConnection_Init] with a connector, whose descriptor it takes over; [added] is the result of
    registering it with the reactor. *)
Definition BConnection_Init (c : connector) (added : bool) : eff world bool :=
  assert_at 730 (has_fd c) ;;
  assert_at 731 (connected c) ;;
  assert_at 732 (negb (have_bfd c)) ;;
  assert_at 733 (negb (c_job c)) ;;
  if negb added then mret false
  else
    upd_st (with_conn (Some (BReactor_AddFileDescriptor
      (Connection false false 0 0 (Send 0 STATE_NONE NOT_INITED [] 0) (Recv 0 STATE_NONE false NOT_INITED 0 []) false)))) ;;
    mret true.

Definition BConnection_Free : eff world unit :=
  o ← this 838;
  assert_at 838 (bool_decide (s_state (send o) = NOT_INITED)) ;;
  assert_at 839 (bool_decide (r_state (recv o) = NOT_INITED)) ;;
  whenever (negb (is_hupd o)) BReactor_RemoveFileDescriptor ;;
  upd_st (with_conn None).

Definition BConnection_SendAsync_Init : eff world unit :=
  o ← this 882;
  assert_at 882 (negb (errored o)) ;;
  assert_at 883 (bool_decide (s_state (send o) = NOT_INITED)) ;;
  set_this 892 (with_send (fun s => Send (s_count s) STATE_NONE READY (busy_data s) (s_done s))).

Definition BConnection_SendAsync_Free : eff world unit :=
  o ← this 898;
  assert_at 898 (bool_decide (s_state (send o) = READY) || bool_decide (s_state (send o) = BUSY)) ;;
  whenever (negb (is_hupd o))
    (set_this 902 (with_wait (Z.land (wait_events o) (Z.lnot BREACTOR_WRITE))) ;;
     o ← this 903;
     BReactor_SetFileDescriptorEvents (wait_events o)) ;;
  set_this 913 (with_send (fun s => Send (s_count s) STATE_NONE NOT_INITED (busy_data s) (s_done s))).

Definition BConnection_RecvAsync_Init : eff world unit :=
  o ← this 927;
  assert_at 927 (negb (errored o)) ;;
  assert_at 928 (bool_decide (r_state (recv o) = NOT_INITED)) ;;
  set_this 937 (with_recv (fun r => Recv (r_count r) STATE_NONE false READY (busy_data_avail r) (r_done r))).

Definition BConnection_RecvAsync_Free : eff world unit :=
  o ← this 943;
  assert_at 943 (negb (bool_decide (r_state (recv o) = NOT_INITED))) ;;
  whenever (negb (is_hupd o))
    (set_this 947 (with_wait (Z.land (wait_events o) (Z.lnot BREACTOR_READ))) ;;
     o ← this 948;
     BReactor_SetFileDescriptorEvents (wait_events o)) ;;
  set_this 958 (with_recv (fun r => Recv (r_count r) STATE_NONE false NOT_INITED (busy_data_avail r) (r_done r))).

(** ** Steps

    The calls of the user and the jobs of the interfaces, the job of the connection, an event of
    its descriptor, and the end of a round of the reactor, which clears the counts. *)
Inductive call :=
  | SendInit | SendFree | RecvInit | RecvFree | ConFree
  | UserSend (data : list Z) | SendOperation | SendDone
  | UserRecv (avail : Z) | RecvOperation | RecvDone
  | RecvJob | FdEvent (events : Z) | EndRound.

(** [StreamPassInterface_Sender_Send]; the data are kept with the operation. *)
Definition user_send (data : list Z) : eff world unit :=
  o ← this 152;
  assert_at 150 (0 <? Z.of_nat (length data)) ;;
  assert_at 152 (bool_decide (s_if (send o) = STATE_NONE)) ;;
  set_this 162 (with_send (fun s => Send (s_count s) STATE_OPERATION_PENDING (s_state s) data (s_done s))).

Definition user_recv (avail : Z) : eff world unit :=
  o ← this 152;
  assert_at 150 (0 <? avail) ;;
  assert_at 152 (bool_decide (r_if (recv o) = STATE_NONE)) ;;
  set_this 162 (with_recv (fun r => Recv (r_count r) STATE_OPERATION_PENDING (r_job r) (r_state r) avail (r_done r))).

Definition send_operation : eff world unit :=
  o ← this 34;
  assert_at 34 (bool_decide (s_if (send o) = STATE_OPERATION_PENDING)) ;;
  set_this 38 (with_send (fun s => Send (s_count s) STATE_BUSY (s_state s) (busy_data s) (s_done s))) ;;
  connection_send_if_handler_send (busy_data (send o)).

Definition recv_operation : eff world unit :=
  o ← this 34;
  assert_at 34 (bool_decide (r_if (recv o) = STATE_OPERATION_PENDING)) ;;
  set_this 38 (with_recv (fun r => Recv (r_count r) STATE_BUSY (r_job r) (r_state r) (busy_data_avail r) (r_done r))) ;;
  connection_recv_if_handler_recv (busy_data_avail (recv o)).

(** The user learns how many bytes of its data were taken. *)
Definition send_job_done : eff world unit :=
  o ← this 47;
  assert_at 47 (bool_decide (s_if (send o) = STATE_DONE_PENDING)) ;;
  set_this 51 (with_send (fun s => Send (s_count s) STATE_NONE (s_state s) (busy_data s) (s_done s))) ;;
  upd_st (with_confirmed (take (Z.to_nat (s_done (send o))) (busy_data (send o)))).

Definition recv_job_done : eff world unit :=
  o ← this 47;
  assert_at 47 (bool_decide (r_if (recv o) = STATE_DONE_PENDING)) ;;
  set_this 51 (with_recv (fun r => Recv (r_count r) STATE_NONE (r_job r) (r_state r) (busy_data_avail r) (r_done r))) ;;
  upd_st (with_delivered (r_done (recv o))).

Definition end_round : eff world unit :=
  set_this 0 (fun o =>
    with_send (fun s => Send 0 (s_if s) (s_state s) (busy_data s) (s_done s))
      (with_recv (fun r => Recv 0 (r_if r) (r_job r) (r_state r) (busy_data_avail r) (r_done r)) o)).

Definition call_body (k : call) : eff world unit :=
  match k with
  | SendInit => BConnection_SendAsync_Init
  | SendFree => BConnection_SendAsync_Free
  | RecvInit => BConnection_RecvAsync_Init
  | RecvFree => BConnection_RecvAsync_Free
  | ConFree => BConnection_Free
  | UserSend data => user_send data
  | SendOperation => send_operation
  | SendDone => send_job_done
  | UserRecv avail => user_recv avail
  | RecvOperation => recv_operation
  | RecvDone => recv_job_done
  | RecvJob => set_r_job 0 false ;; connection_recv_job_handler
  | FdEvent events => connection_fd_handler events
  | EndRound => end_round
  end.

(** What the contracts admit. After an error, or the end of the stream as far as receiving goes, no
    more operations are started. An event of the descriptor is dispatched when no job is left; it is
    one of those waited for, or an error or a hang-up, and a descriptor with an error is ready for
    all that is waited for. *)
Definition event_ok (o : connection) (events : Z) : bool :=
  active o && negb (r_job (recv o)) && (0 <? events) && (events <? 16) &&
  (negb (has events BREACTOR_READ) || has (waitEvents o) BREACTOR_READ) &&
  (negb (has events BREACTOR_WRITE) || has (waitEvents o) BREACTOR_WRITE) &&
  (negb (has events BREACTOR_ERROR) || has events BREACTOR_HUP ||
   (eqb (has events BREACTOR_READ) (has (waitEvents o) BREACTOR_READ) &&
    eqb (has events BREACTOR_WRITE) (has (waitEvents o) BREACTOR_WRITE))).

Definition call_enabled (w : world) (k : call) : bool :=
  match conn w with
  | None => false
  | Some o =>
      match k with
      | SendFree => negb (bool_decide (s_state (send o) = NOT_INITED))
      | RecvFree => negb (bool_decide (r_state (recv o) = NOT_INITED))
      | ConFree => bool_decide (s_state (send o) = NOT_INITED) && bool_decide (r_state (recv o) = NOT_INITED)
      | EndRound => true
      | _ =>
          negb (errored o) &&
          match k with
          | SendInit => bool_decide (s_state (send o) = NOT_INITED)
          | RecvInit => bool_decide (r_state (recv o) = NOT_INITED)
          | UserSend data =>
              (0 <? Z.of_nat (length data)) && bool_decide (s_if (send o) = STATE_NONE) && bool_decide (s_state (send o) = READY)
          | SendOperation => bool_decide (s_if (send o) = STATE_OPERATION_PENDING)
          | SendDone => bool_decide (s_if (send o) = STATE_DONE_PENDING)
          | UserRecv avail => (0 <? avail) && bool_decide (r_if (recv o) = STATE_NONE) && bool_decide (r_state (recv o) = READY)
          | RecvOperation => bool_decide (r_if (recv o) = STATE_OPERATION_PENDING)
          | RecvDone => bool_decide (r_if (recv o) = STATE_DONE_PENDING)
          | RecvJob => r_job (recv o)
          | FdEvent events => event_ok o events
          | _ => false
          end
      end
  end.

End BConn.
