(* ===== verification/BConnectionFacts.v ===== *)
(** * Theorems about stream sockets *)

From S2P Require Import Prelude Effect BPending BConnection.

Open Scope Z_scope.

Import BConn.

(** ** Event masks *)

Lemma land_pow2 e k : 0 <= k -> Z.land e (2 ^ k) = if Z.testbit e k then 2 ^ k else 0.
Proof.
  intros Hk. apply Z.bits_inj'. intros n Hn. rewrite Z.land_spec, Z.pow2_bits_eqb by done.
  destruct (Z.eqb_spec k n) as [->|Hne]; [|rewrite andb_false_r; destruct (Z.testbit e k); rewrite ?Z.pow2_bits_eqb, ?Z.bits_0 by done].
  - rewrite andb_true_r. destruct (Z.testbit e n) eqn:E; [now rewrite Z.pow2_bits_true|now rewrite Z.bits_0].
  - symmetry. now apply Z.eqb_neq.
  - done.
Qed.

Lemma has_bit e k : 0 <= k -> has e (2 ^ k) = Z.testbit e k.
Proof.
  intros Hk. unfold has. rewrite land_pow2 by done. destruct (Z.testbit e k); [|done].
  destruct (Z.eqb_spec (2 ^ k) 0) as [E|]; [pose proof (Z.pow_pos_nonneg 2 k); lia|done].
Qed.

Lemma has_read e : has e BREACTOR_READ = Z.testbit e 0.
Proof. exact (has_bit e 0 ltac:(lia)). Qed.
Lemma has_write e : has e BREACTOR_WRITE = Z.testbit e 1.
Proof. exact (has_bit e 1 ltac:(lia)). Qed.
Lemma has_error e : has e BREACTOR_ERROR = Z.testbit e 2.
Proof. exact (has_bit e 2 ltac:(lia)). Qed.
Lemma has_hup e : has e BREACTOR_HUP = Z.testbit e 3.
Proof. exact (has_bit e 3 ltac:(lia)). Qed.

Lemma has_lor e a b : has e (Z.lor a b) = has e a || has e b.
Proof.
  unfold has. rewrite Z.land_lor_distr_r. destruct (Z.eqb_spec (Z.land e a) 0) as [->|Ha].
  - now rewrite Z.lor_0_l.
  - cbn. apply negb_true_iff, Z.eqb_neq. intros E. apply Z.lor_eq_0_iff in E. tauto.
Qed.

(** A mask of events to wait for. *)
Definition mask (e : Z) : Prop := has e (Z.lnot (Z.lor BREACTOR_READ BREACTOR_WRITE)) = false.

Lemma mask_bits e : mask e <-> forall n, 2 <= n -> Z.testbit e n = false.
Proof.
  unfold mask, has. rewrite negb_false_iff, Z.eqb_eq. split.
  - intros H n Hn. assert (Hb : Z.testbit (Z.land e (Z.lnot (Z.lor BREACTOR_READ BREACTOR_WRITE))) n = false) by now rewrite H, Z.bits_0.
    rewrite Z.land_spec, Z.lnot_spec in Hb by lia. change (Z.lor BREACTOR_READ BREACTOR_WRITE) with (Z.ones 2) in Hb.
    rewrite Z.ones_spec_high in Hb by lia. cbn in Hb. now rewrite andb_true_r in Hb.
  - intros H. apply Z.bits_inj'. intros n Hn. rewrite Z.land_spec, Z.lnot_spec, Z.bits_0 by done.
    change (Z.lor BREACTOR_READ BREACTOR_WRITE) with (Z.ones 2). destruct (Z.ltb_spec n 2) as [Hlt|Hge].
    + rewrite Z.ones_spec_low by lia. apply andb_false_r.
    + now rewrite H.
Qed.

Lemma mask_0 : mask 0.
Proof. done. Qed.

Lemma mask_land e x : mask e -> mask (Z.land e x).
Proof. rewrite !mask_bits. intros H n Hn. rewrite Z.land_spec, H; done. Qed.

Lemma mask_lor e x : x = BREACTOR_READ \/ x = BREACTOR_WRITE -> mask e -> mask (Z.lor e x).
Proof.
  intros Hx. rewrite !mask_bits. intros H n Hn. rewrite Z.lor_spec, H by done. cbn.
  destruct Hx as [-> | ->]; [change BREACTOR_READ with (2 ^ 0)|change BREACTOR_WRITE with (2 ^ 1)]; apply Z.pow2_bits_false; lia.
Qed.

Lemma bit_clear e x n : 0 <= n -> Z.testbit (Z.land e (Z.lnot x)) n = Z.testbit e n && negb (Z.testbit x n).
Proof. intros Hn. now rewrite Z.land_spec, Z.lnot_spec. Qed.

(** ** The invariant *)

Record send_ok (hup err : bool) (wait : Z) (s : send_side) : Prop := SendOk {
  so_state : match s_state s with
             | NOT_INITED => s_if s = STATE_NONE
             | READY => s_if s <> STATE_BUSY
             | BUSY => s_if s = STATE_BUSY
             | INITED_CLOSED => False
             end;
  so_data : s_if s <> STATE_NONE -> busy_data s <> [];
  so_done : s_if s = STATE_DONE_PENDING -> 0 < s_done s <= Z.of_nat (length (busy_data s));
  so_wait : err = false -> hup = false -> Z.testbit wait 1 = bool_decide (s_state s = BUSY);
  so_hup : err = false -> hup = true -> s_state s <> BUSY;
  so_count : 0 <= s_count s <= BCONNECTION_SEND_LIMIT;
}.

Record recv_ok (hup err : bool) (wait : Z) (r : recv_side) : Prop := RecvOk {
  ro_state : match r_state r with
             | NOT_INITED => r_if r = STATE_NONE
             | READY => r_if r <> STATE_BUSY
             | BUSY | INITED_CLOSED => r_if r = STATE_BUSY
             end;
  ro_avail : r_if r <> STATE_NONE -> 0 < busy_data_avail r;
  ro_job : r_job r = true -> r_state r = BUSY;
  ro_wait : err = false -> hup = false -> Z.testbit wait 0 = bool_decide (r_state r = BUSY) && negb (r_job r);
  ro_hup : err = false -> hup = true -> r_state r = BUSY -> r_job r = true;
  ro_count : 0 <= r_count r <= BCONNECTION_RECV_LIMIT;
}.

Record conn_ok (o : connection) : Prop := ConnOk {
  co_active : active o = negb (is_hupd o);
  co_wait : is_hupd o = false -> waitEvents o = wait_events o;
  co_mask : mask (wait_events o);
  co_send : send_ok (is_hupd o) (errored o) (wait_events o) (send o);
  co_recv : recv_ok (is_hupd o) (errored o) (wait_events o) (recv o);
}.

(** What was transferred and not yet told to the user. *)
Definition pending_out (s : send_side) : list Z :=
  if bool_decide (s_if s = STATE_DONE_PENDING) then take (Z.to_nat (s_done s)) (busy_data s) else [].
Definition pending_in (r : recv_side) : list Z :=
  if bool_decide (r_if r = STATE_DONE_PENDING) then r_done r else [].

Definition streams (o : connection) (w : world) : Prop :=
  written w = confirmed w ++ pending_out (send o) /\ readed w = delivered w ++ pending_in (recv o).

(** The state after a step; [clean] tells that no transfer was cut off before the user learnt of it. *)
Definition good (clean : bool) (w : world) : Prop :=
  match conn w with None => True | Some o => conn_ok o /\ (clean = true -> streams o w) end.

Lemma send_ok_wait hup err wait wait' s :
  Z.testbit wait' 1 = Z.testbit wait 1 -> send_ok hup err wait s -> send_ok hup err wait' s.
Proof. intros E []. split; auto. now rewrite E. Qed.

Lemma recv_ok_wait hup err wait wait' r :
  Z.testbit wait' 0 = Z.testbit wait 0 -> recv_ok hup err wait r -> recv_ok hup err wait' r.
Proof. intros E []. split; auto. now rewrite E. Qed.

Lemma send_ok_err hup err wait hup' wait' s : send_ok hup err wait s -> send_ok hup' true wait' s.
Proof. intros []. split; auto; done. Qed.

Lemma recv_ok_err hup err wait hup' wait' r : recv_ok hup err wait r -> recv_ok hup' true wait' r.
Proof. intros []. split; auto; done. Qed.

#[export] Hint Resolve send_ok_err recv_ok_err : bconn.

(** ** Running the primitives *)

Lemma runs_conn w o line (Q : connection -> world -> Prop) : conn w = Some o -> Q o w -> runs (this line) Q w.
Proof. intros E H. unfold this. step_eff. step_eff. now rewrite E. Qed.

Lemma runs_set_conn w o line f (Q : unit -> world -> Prop) :
  conn w = Some o -> Q tt (with_conn (Some (f o)) w) -> runs (set_this line f) Q w.
Proof. intros E H. unfold set_this. step_eff. apply (runs_conn _ _ _ _ E). now step_eff. Qed.

Ltac conn_tidy :=
  cbv beta iota zeta delta [conn kernel events written confirmed readed delivered with_conn with_kernel with_event with_written
    with_confirmed with_readed with_delivered is_hupd active waitEvents wait_events send recv errored with_send with_recv with_wait
    with_fd with_hupd with_errored s_count s_if s_state busy_data s_done r_count r_if r_job r_state busy_data_avail r_done negb].

Ltac conn_step :=
  cbv beta zeta;
  lazymatch goal with
  | |- runs (this _) _ _ => eapply runs_conn; [reflexivity|]
  | |- runs (set_this _ _) _ _ => eapply runs_set_conn; [reflexivity|]
  | |- runs (assert_at _ _) _ _ => apply eff_assert; [solve [done|now apply bool_decide_true|lia|match goal with H : mask _ |- _ => now rewrite H end]|]
  | |- _ => step_eff
  end; conn_tidy.

Section Steps.
Implicit Types (k : io_result) (ev wr cf rd dl : list Z).

Lemma report_error_good clean hup a we wt s r k ev wr cf rd dl :
  a = negb hup -> (hup = false -> we = wt) -> mask wt -> send_ok hup true wt s -> recv_ok hup true wt r ->
  (clean = true -> wr = cf ++ pending_out s /\ rd = dl ++ pending_in r) ->
  runs connection_report_error (fun _ => good clean) (World (Some (Connection hup a we wt s r false)) k ev wr cf rd dl).
Proof.
  intros Ha Hw Hm Hs Hr E. unfold connection_report_error. repeat conn_step. split; [now split|exact E].
Qed.

(** Waiting for an event. *)
Lemma runs_wait_for e a we wt s r er k ev wr cf rd dl (Q : unit -> world -> Prop) :
  e = BREACTOR_READ \/ e = BREACTOR_WRITE -> a = true -> mask wt ->
  Q tt (World (Some (Connection false true (Z.lor wt e) (Z.lor wt e) s r er)) k ev wr cf rd dl) ->
  runs (wait_for e) Q (World (Some (Connection false a we wt s r er)) k ev wr cf rd dl).
Proof.
  intros He -> Hm HQ. apply (mask_lor wt e He) in Hm. unfold wait_for, BReactor_SetFileDescriptorEvents. repeat conn_step. exact HQ.
Qed.

Lemma connection_send_good clean hup we wt cnt data d r k ev wr cf rd dl :
  data <> [] -> 0 <= cnt <= BCONNECTION_SEND_LIMIT -> (hup = false -> we = wt /\ Z.testbit wt 1 = false) -> mask wt ->
  recv_ok hup false wt r -> (clean = true -> wr = cf /\ rd = dl ++ pending_in r) ->
  runs connection_send (fun _ => good clean)
    (World (Some (Connection hup (negb hup) we wt (Send cnt STATE_BUSY BUSY data d) r false)) k ev wr cf rd dl).
Proof.
  intros Hd Hc Hw Hm Hr Hst. assert (Hlen : 0 < Z.of_nat (length data)) by (destruct data; cbn; [done|lia]).
  assert (Herr : forall cnt', 0 <= cnt' <= BCONNECTION_SEND_LIMIT -> runs connection_report_error (fun _ => good clean)
    (World (Some (Connection hup (negb hup) we wt (Send cnt' STATE_BUSY BUSY data d) r false)) k ev wr cf rd dl)).
  { intros cnt' Hc'. apply report_error_good; try done; [intros H; now apply Hw|eauto with bconn|].
    intros Hcl. destruct (Hst Hcl) as [-> ->]. split; [|done]. unfold pending_out. cbn. now rewrite app_nil_r. }
  assert (Hwait : hup = false -> forall cnt', 0 <= cnt' <= BCONNECTION_SEND_LIMIT -> runs (wait_for BREACTOR_WRITE) (fun _ => good clean)
    (World (Some (Connection hup (negb hup) we wt (Send cnt' STATE_BUSY BUSY data d) r false)) k ev wr cf rd dl)).
  { intros -> cnt' Hc'. apply runs_wait_for; [auto|done|done|]. destruct (Hw eq_refl) as [-> Hb]. split.
    - split; conn_tidy; try done; [apply mask_lor; auto| |].
      + split; try done. intros _ _. now rewrite Z.lor_spec, Hb.
      + apply (recv_ok_wait _ _ wt); [|done]. now rewrite Z.lor_spec, orb_false_r.
    - intros Hcl. destruct (Hst Hcl) as [-> ->]. split; [|done]. unfold pending_out. cbn. now rewrite app_nil_r. }
  assert (Hdone : forall cnt' n, 0 <= cnt' <= BCONNECTION_SEND_LIMIT ->
    let bytes := Z.max 1 (Z.min n (Z.of_nat (length data))) in
    runs (upd_st (with_written (take (Z.to_nat bytes) data)) ;; set_s_state 273 READY ;; send_done bytes) (fun _ => good clean)
      (World (Some (Connection hup (negb hup) we wt (Send cnt' STATE_BUSY BUSY data d) r false)) k ev wr cf rd dl)).
  { intros cnt' n Hc' bytes. unfold set_s_state, send_done. repeat conn_step. split.
    - split; conn_tidy; try done; [intros H; now apply Hw|]. split; conn_tidy; try done; try lia. intros _ H. now destruct (Hw H).
    - intros Hcl. destruct (Hst Hcl) as [-> ->]. done. }
  unfold connection_send. do 7 conn_step. destruct hup.
  - repeat conn_step. destruct k; [|now apply Herr|now apply Herr]. do 2 conn_step. now apply Hdone.
  - unfold increment_send. repeat conn_step. unfold BCONNECTION_SEND_LIMIT in *. destruct (cnt >=? 2) eqn:Ec; repeat conn_step; [now apply Hwait|].
    destruct k; [|apply Hwait; [done|lia]|apply Herr; lia]. do 2 conn_step. apply (Hdone (cnt + 1)). lia.
Qed.

Lemma connection_recv_good clean hup we wt cnt avail d s k ev wr cf rd dl :
  0 < avail -> 0 <= cnt <= BCONNECTION_RECV_LIMIT -> (hup = false -> we = wt /\ Z.testbit wt 0 = false) -> mask wt ->
  send_ok hup false wt s -> (clean = true -> wr = cf ++ pending_out s /\ rd = dl) ->
  runs connection_recv (fun _ => good clean)
    (World (Some (Connection hup (negb hup) we wt s (Recv cnt STATE_BUSY false BUSY avail d) false)) k ev wr cf rd dl).
Proof.
  intros Hd Hc Hw Hm Hs Hst.
  assert (Hpin : forall cnt' st', pending_in (Recv cnt' STATE_BUSY false st' avail d) = []) by done.
  assert (Herr : forall cnt', 0 <= cnt' <= BCONNECTION_RECV_LIMIT -> runs connection_report_error (fun _ => good clean)
    (World (Some (Connection hup (negb hup) we wt s (Recv cnt' STATE_BUSY false BUSY avail d) false)) k ev wr cf rd dl)).
  { intros cnt' Hc'. apply report_error_good; try done; [intros H; now apply Hw|eauto with bconn|].
    intros Hcl. destruct (Hst Hcl) as [-> ->]. now rewrite Hpin, app_nil_r. }
  assert (Hwait : hup = false -> forall cnt', 0 <= cnt' <= BCONNECTION_RECV_LIMIT -> runs (wait_for BREACTOR_READ) (fun _ => good clean)
    (World (Some (Connection hup (negb hup) we wt s (Recv cnt' STATE_BUSY false BUSY avail d) false)) k ev wr cf rd dl)).
  { intros -> cnt' Hc'. apply runs_wait_for; [auto|done|done|]. destruct (Hw eq_refl) as [-> Hb]. split.
    - split; conn_tidy; try done; [apply mask_lor; auto| |].
      + apply (send_ok_wait _ _ wt); [|done]. now rewrite Z.lor_spec, orb_false_r.
      + split; try done. intros _ _. now rewrite Z.lor_spec, Hb.
    - intros Hcl. destruct (Hst Hcl) as [-> ->]. split; [done|]. conn_tidy. now rewrite Hpin, app_nil_r. }
  assert (Hdone : forall cnt' n data, 0 <= cnt' <= BCONNECTION_RECV_LIMIT -> 
    runs (match take (Z.to_nat avail) data with
          | [] => set_r_state 311 INITED_CLOSED ;; upd_st (with_event EVENT_RECVCLOSED)
          | _ :: _ => upd_st (with_readed (take (Z.to_nat avail) data)) ;; set_r_state 322 READY ;; recv_done (take (Z.to_nat avail) data)
          end) (fun _ => good clean)
      (World (Some (Connection hup (negb hup) we wt s (Recv cnt' STATE_BUSY false BUSY avail d) false)) (IoOk n data) ev wr cf rd dl)).
  { intros cnt' n data Hc'. assert (Hlen : Z.of_nat (length (take (Z.to_nat avail) data)) <= avail) by (rewrite length_take; lia).
    destruct (take (Z.to_nat avail) data) as [|x l] eqn:E; unfold set_r_state, recv_done; repeat conn_step.
    - split.
      + split; conn_tidy; try done; [intros H; now apply Hw|]. split; conn_tidy; try done. intros _ H. now destruct (Hw H).
      + intros Hcl. destruct (Hst Hcl) as [-> ->]. split; [done|]. conn_tidy. now rewrite Hpin, app_nil_r.
    - split.
      + split; conn_tidy; try done; [intros H; now apply Hw|]. split; conn_tidy; try done. intros _ H. now destruct (Hw H).
      + intros Hcl. destruct (Hst Hcl) as [-> ->]. done. }
  unfold connection_recv. do 7 conn_step. destruct hup.
  - repeat conn_step. destruct k; [now apply Hdone|now apply Herr|now apply Herr].
  - unfold increment_recv. repeat conn_step. unfold BCONNECTION_RECV_LIMIT in *. destruct (cnt >=? 2) eqn:Ec; repeat conn_step; [now apply Hwait|].
    destruct k; [apply (Hdone (cnt + 1)); lia|apply Hwait; [done|lia]|apply Herr; lia].
Qed.

Lemma some_event e : 0 < e < 16 -> Z.testbit e 0 || Z.testbit e 1 || Z.testbit e 2 || Z.testbit e 3 = true.
Proof.
  intros H. destruct (_ || _) eqn:E; [done|]. rewrite !orb_false_iff in E. destruct E as [[[E0 E1] E2] E3].
  assert (e = 0); [|lia]. apply Z.bits_inj'. intros n Hn. rewrite Z.bits_0.
  destruct (Z.ltb_spec n 4) as [Hlt|Hge].
  - assert (Hcase : n = 0 \/ n = 1 \/ n = 2 \/ n = 3) by lia. destruct Hcase as [-> |[-> |[-> | ->]]]; done.
  - destruct (Z.eqb_spec e 0) as [->|Hne]; [apply Z.bits_0|]. apply Z.bits_above_log2; [lia|].
    apply (Z.lt_le_trans _ 4); [apply Z.log2_lt_pow2; cbn; lia|done].
Qed.

(** Giving up the events of one side. *)
Lemma runs_forget l1 l2 e hup we wt s r er k ev wr cf rd dl (Q : unit -> world -> Prop) :
  mask wt -> (hup = false -> we = wt) ->
  (forall we' wt', mask wt' -> (hup = false -> we' = wt') ->
     (forall n, 0 <= n -> Z.testbit e n = false -> Z.testbit wt' n = Z.testbit wt n) ->
     (hup = false -> forall n, 0 <= n -> Z.testbit e n = true -> Z.testbit wt' n = false) ->
     Q tt (World (Some (Connection hup (negb hup) we' wt' s r er)) k ev wr cf rd dl)) ->
  runs (whenever (negb hup) (set_this l1 (with_wait (Z.land wt (Z.lnot e))) ;; o ← this l2; BReactor_SetFileDescriptorEvents (wait_events o)))
    Q (World (Some (Connection hup (negb hup) we wt s r er)) k ev wr cf rd dl).
Proof.
  intros Hm Hw HQ. destruct hup; cbn [negb whenever]; [apply (HQ we wt); done|].
  pose proof (mask_land wt (Z.lnot e) Hm) as Hm'. unfold BReactor_SetFileDescriptorEvents. repeat conn_step.
  apply (HQ (Z.land wt (Z.lnot e)) (Z.land wt (Z.lnot e))); [done|done| |].
  - intros n Hn Hb. now rewrite bit_clear, Hb, andb_true_r.
  - intros _ n Hn Hb. now rewrite bit_clear, Hb, andb_false_r.
Qed.

(** What an admitted event says about the two sides. *)
Lemma event_sides o e :
  conn_ok o -> errored o = false -> event_ok o e = true ->
  is_hupd o = false /\ waitEvents o = wait_events o /\ r_job (recv o) = false /\
  (Z.testbit e 1 = true -> s_state (send o) = BUSY) /\ (Z.testbit e 0 = true -> r_state (recv o) = BUSY) /\
  (Z.testbit e 3 = false -> Z.testbit e 2 = true ->
     (s_state (send o) = BUSY -> Z.testbit e 1 = true) /\ (r_state (recv o) = BUSY -> Z.testbit e 0 = true)) /\
  Z.testbit e 0 || Z.testbit e 1 || Z.testbit e 2 || Z.testbit e 3 = true.
Proof.
  intros [Ha Hw Hm Hs Hr] He H. unfold event_ok in H. rewrite !has_read, !has_write, has_error, has_hup, !andb_true_iff in H.
  destruct H as [[[[[[H1 H0] H2] H3] H4] H5] H6]. rewrite Ha in H1. destruct (is_hupd o) eqn:Eh; [done|]. apply negb_true_iff in H0.
  destruct Hs as [_ _ _ Hs _ _], Hr as [_ _ _ Hr _ _]. specialize (Hs He eq_refl). specialize (Hr He eq_refl). rewrite H0, andb_true_r in Hr.
  rewrite (Hw eq_refl), Hs, Hr in *. split; [done|]. split; [done|]. split; [done|].
  split; [intros E; rewrite E in H5; now apply bool_decide_eq_true in H5|].
  split; [intros E; rewrite E in H4; now apply bool_decide_eq_true in H4|].
  split; [|apply some_event; lia]. intros E3 E2. rewrite E3, E2 in H6. cbn [negb orb] in H6. apply andb_true_iff in H6 as [H6 H7].
  apply eqb_prop in H6, H7. split; intros E; [rewrite H7|rewrite H6]; now apply bool_decide_true.
Qed.

(** The sides after the events were cleared. *)
Lemma cleared_send e wt s :
  send_ok false false wt s -> Z.testbit e 1 = false -> send_ok false false (Z.land wt (Z.lnot e)) s.
Proof. intros H E. apply (send_ok_wait _ _ wt); [|done]. now rewrite bit_clear, E, andb_true_r. Qed.

Lemma cleared_recv e wt r :
  recv_ok false false wt r -> Z.testbit e 0 = false -> recv_ok false false (Z.land wt (Z.lnot e)) r.
Proof. intros H E. apply (recv_ok_wait _ _ wt); [|done]. now rewrite bit_clear, E, andb_true_r. Qed.

Lemma send_ok_hup wt wt' s : send_ok false false wt s -> s_state s <> BUSY -> send_ok true false wt' s.
Proof. intros [] H. now split. Qed.

Lemma recv_ok_hup wt wt' r : recv_ok false false wt r -> r_state r <> BUSY -> recv_ok true false wt' r.
Proof. intros [] H. now split. Qed.

(** The receiving side while its job is set. *)
Lemma recv_ok_job hup wt wt' r :
  recv_ok false false wt r -> r_state r = BUSY -> (hup = false -> Z.testbit wt' 0 = false) ->
  recv_ok hup false wt' (Recv (r_count r) (r_if r) true (r_state r) (busy_data_avail r) (r_done r)).
Proof. intros [] H Hb. split; conn_tidy; try done. intros _ Hh. rewrite (Hb Hh). now rewrite andb_false_r. Qed.

(** The side that is busy, as the two procedures find it. *)
Lemma send_busy hup err wt s : send_ok hup err wt s -> s_state s = BUSY ->
  exists cnt data d, s = Send cnt STATE_BUSY BUSY data d /\ data <> [] /\ 0 <= cnt <= BCONNECTION_SEND_LIMIT.
Proof.
  destruct s as [cnt i st data d]. intros [] E. cbn in E. subst st. cbn in *. subst i. exists cnt, data, d.
  split; [done|]. split; [now apply so_data0|done].
Qed.

Lemma recv_busy hup err wt r : recv_ok hup err wt r -> r_state r = BUSY -> r_job r = false ->
  exists cnt avail d, r = Recv cnt STATE_BUSY false BUSY avail d /\ 0 < avail /\ 0 <= cnt <= BCONNECTION_RECV_LIMIT.
Proof.
  destruct r as [cnt i j st avail d]. intros [] E Ej. cbn in E, Ej. subst st j. cbn in *. subst i. exists cnt, avail, d.
  split; [done|]. split; [now apply ro_avail0|done].
Qed.

(** The end of [connection_fd_handler], once it is known which sides have something to do. *)
Lemma dispatch_good clean hup we wt s r k ev wr cf rd dl (have_send have_recv : bool) :
  (hup = false -> we = wt) -> mask wt -> r_job r = false ->
  (if have_send then s_state s = BUSY /\ send_ok hup true wt s /\ (hup = false -> Z.testbit wt 1 = false) else send_ok hup false wt s) ->
  (if have_recv then r_state r = BUSY /\ recv_ok hup true wt r /\ (hup = false -> Z.testbit wt 0 = false) else recv_ok hup false wt r) ->
  (clean = true -> wr = cf ++ pending_out s /\ rd = dl ++ pending_in r) ->
  runs (if have_send then whenever have_recv (set_r_job 359 true) ;; connection_send
        else if have_recv then connection_recv
        else if negb hup then connection_report_error
        else mret tt) (fun _ => good clean)
    (World (Some (Connection hup (negb hup) we wt s r false)) k ev wr cf rd dl).
Proof.
  intros Hw Hm Hj Hs Hr Hst. destruct have_send.
  - destruct Hs as (Hs1 & Hs2 & Hs3). destruct (send_busy _ _ _ _ Hs2 Hs1) as (cnt & data & d & -> & Hd & Hc).
    assert (Hst' : clean = true -> wr = cf /\ rd = dl ++ pending_in r).
    { intros Hcl. destruct (Hst Hcl) as [-> ->]. split; [apply app_nil_r|done]. }
    destruct have_recv; unfold set_r_job; repeat conn_step.
    + destruct Hr as (Hr1 & Hr2 & Hr3). destruct (recv_busy _ _ _ _ Hr2 Hr1 Hj) as (cnt' & avail & d' & -> & Ha & Hc'). conn_tidy.
      apply connection_send_good; auto. split; conn_tidy; try done.
    + apply connection_send_good; auto.
  - destruct have_recv; repeat conn_step.
    + destruct Hr as (Hr1 & Hr2 & Hr3). destruct (recv_busy _ _ _ _ Hr2 Hr1 Hj) as (cnt' & avail & d' & -> & Ha & Hc').
      apply connection_recv_good; auto. intros Hcl. destruct (Hst Hcl) as [-> ->]. split; [done|apply app_nil_r].
    + destruct hup; repeat conn_step; [split; [now split|exact Hst]|]. apply report_error_good; try done; eauto with bconn.
Qed.

Lemma fd_event_good clean hup a we wt s r k ev wr cf rd dl e :
  conn_ok (Connection hup a we wt s r false) -> event_ok (Connection hup a we wt s r false) e = true ->
  (clean = true -> wr = cf ++ pending_out s /\ rd = dl ++ pending_in r) ->
  runs (connection_fd_handler e) (fun _ => good clean) (World (Some (Connection hup a we wt s r false)) k ev wr cf rd dl).
Proof.
  intros Hc He Hst. destruct (event_sides _ e Hc eq_refl He) as (E1 & E2 & E3 & S1 & R1 & SR & Hsome). destruct Hc as [Ha _ Hm Hs Hr].
  cbn [is_hupd active waitEvents wait_events send recv errored] in *. subst hup we a.
  apply (mask_land wt (Z.lnot e)) in Hm. pose proof Hs as [_ _ _ Hsw _ _]. pose proof Hr as [_ _ _ Hrw _ _].
  specialize (Hsw eq_refl eq_refl). specialize (Hrw eq_refl eq_refl). rewrite E3, andb_true_r in Hrw.
  destruct s as [sc si ss sd sn], r as [rc ri rj rs ra rn]. cbn [s_state r_state r_job] in *. subst rj.
  unfold connection_fd_handler, BReactor_SetFileDescriptorEvents, BReactor_RemoveFileDescriptor. repeat conn_step. rewrite has_hup.
  set (wt' := Z.land wt (Z.lnot e)) in *.
  assert (Hb0 : Z.testbit wt' 0 = Z.testbit wt 0 && negb (Z.testbit e 0)) by now apply bit_clear.
  assert (Hb1 : Z.testbit wt' 1 = Z.testbit wt 1 && negb (Z.testbit e 1)) by now apply bit_clear.
  assert (Hs1 : forall b, Z.testbit e 1 || b && bool_decide (ss = BUSY) = true -> ss = BUSY).
  { intros b H. apply orb_true_iff in H as [H|H]; [auto|]. apply andb_true_iff in H as [_ H]. now apply bool_decide_eq_true in H. }
  assert (Hr1 : forall b, Z.testbit e 0 || b && bool_decide (rs = BUSY) = true -> rs = BUSY).
  { intros b H. apply orb_true_iff in H as [H|H]; [auto|]. apply andb_true_iff in H as [_ H]. now apply bool_decide_eq_true in H. }
  destruct (Z.testbit e 3) eqn:EH; cbn [whenever]; do 12 (try conn_step);
    rewrite ?has_lor, ?has_read, ?has_write, ?has_error, ?has_hup, EH, ?orb_true_r, ?orb_false_r.
  - specialize (Hs1 true). specialize (Hr1 true). cbn [andb] in *.
    set (hs := _ || bool_decide (ss = BUSY)) in *. set (hr := _ || bool_decide (rs = BUSY)) in *.
    apply eff_assert; [destruct hs; [now apply bool_decide_true, Hs1|done]|]. conn_step. apply eff_assert; [destruct hr; [now apply bool_decide_true, Hr1|done]|].
    apply (dispatch_good clean true wt' wt' (Send sc si ss sd sn) (Recv rc ri false rs ra rn) k ev wr cf rd dl hs hr); try done.
    + destruct hs eqn:Eh; [split; [auto|]; split; [eauto with bconn|done]|]. apply (send_ok_hup wt); [done|].
      apply orb_false_iff in Eh as [_ Eh]. now apply bool_decide_eq_false in Eh.
    + destruct hr eqn:Eh; [split; [auto|]; split; [eauto with bconn|done]|]. apply (recv_ok_hup wt); [done|].
      apply orb_false_iff in Eh as [_ Eh]. now apply bool_decide_eq_false in Eh.
  - specialize (Hs1 (Z.testbit e 2)). specialize (Hr1 (Z.testbit e 2)).
    set (hs := _ || _ && bool_decide (ss = BUSY)) in *. set (hr := _ || _ && bool_decide (rs = BUSY)) in *.
    assert (Hse : hs = true -> Z.testbit e 1 = true).
    { intros H. apply orb_true_iff in H as [H|H]; [done|]. apply andb_true_iff in H as [H2 H]. apply bool_decide_eq_true in H.
      now apply (SR eq_refl H2). }
    assert (Hre : hr = true -> Z.testbit e 0 = true).
    { intros H. apply orb_true_iff in H as [H|H]; [done|]. apply andb_true_iff in H as [H2 H]. apply bool_decide_eq_true in H.
      now apply (SR eq_refl H2). }
    apply eff_assert; [destruct hs; [now apply bool_decide_true, Hs1|done]|]. conn_step. apply eff_assert; [destruct hr; [now apply bool_decide_true, Hr1|done]|].
    apply (dispatch_good clean false wt' wt' (Send sc si ss sd sn) (Recv rc ri false rs ra rn) k ev wr cf rd dl hs hr); try done.
    + destruct hs eqn:Eh; [split; [auto|]; split; [eauto with bconn|]|].
      * intros _. now rewrite Hb1, Hse, andb_false_r.
      * apply cleared_send; [done|]. now apply orb_false_iff in Eh as [Eh _].
    + destruct hr eqn:Eh; [split; [auto|]; split; [eauto with bconn|]|].
      * intros _. now rewrite Hb0, Hre, andb_false_r.
      * apply cleared_recv; [done|]. now apply orb_false_iff in Eh as [Eh _].
Qed.

End Steps.

(** ** All steps *)

(** An interface is freed between a transfer and telling the user. *)
Definition cuts (w : world) (k : call) : bool :=
  match conn w with
  | None => false
  | Some o =>
      match k with
      | SendFree => bool_decide (s_if (send o) = STATE_DONE_PENDING)
      | RecvFree => bool_decide (r_if (recv o) = STATE_DONE_PENDING)
      | _ => false
      end
  end.

Section Calls.
Context (clean hup : bool) (we wt : Z) (er : bool) (k : io_result) (ev wr cf rd dl : list Z).
Context (sc : Z) (si : pi_state) (ss : io_state) (sd : list Z) (sn : Z).
Context (rc : Z) (ri : pi_state) (rj : bool) (rs : io_state) (ra : Z) (rn : list Z).

Local Notation s := (Send sc si ss sd sn).
Local Notation r := (Recv rc ri rj rs ra rn).
Local Notation w := (World (Some (Connection hup (negb hup) we wt s r er)) k ev wr cf rd dl).

Context (Hw : hup = false -> we = wt) (Hm : mask wt) (Hs : send_ok hup er wt s) (Hr : recv_ok hup er wt r).
Context (Hst : clean = true -> wr = cf ++ pending_out s /\ rd = dl ++ pending_in r).

Lemma send_free_good :
  ss <> NOT_INITED -> runs BConnection_SendAsync_Free (fun _ => good (clean && negb (cuts w SendFree))) w.
Proof.
  intros He. assert (Hss : bool_decide (ss = READY) || bool_decide (ss = BUSY) = true) by (destruct Hs as [S1]; destruct ss; done).
  unfold BConnection_SendAsync_Free. do 4 conn_step. conn_step.
  apply (runs_forget 902 903 BREACTOR_WRITE); [done|done|]. intros we' wt' Hm' Hw' Hkeep Hclear. repeat conn_step. split.
  - split; try done; [|destruct er; [eauto with bconn|now apply (recv_ok_wait _ _ wt); [apply Hkeep|]]].
    destruct Hs. split; conn_tidy; try done. intros _ Hh. now rewrite (Hclear Hh).
  - intros [Hcl Hcut]%andb_true_iff. destruct (Hst Hcl) as [E1 E2]. split; [|done]. conn_tidy. rewrite E1. unfold pending_out.
    cbn [s_if]. destruct (decide (si = STATE_DONE_PENDING)) as [ E|Hne]; [|now rewrite bool_decide_false].
    unfold cuts in Hcut. cbn in Hcut. now rewrite bool_decide_true in Hcut.
Qed.

Lemma recv_free_good :
  rs <> NOT_INITED -> runs BConnection_RecvAsync_Free (fun _ => good (clean && negb (cuts w RecvFree))) w.
Proof.
  intros He. assert (Hrs : negb (bool_decide (rs = NOT_INITED)) = true) by (destruct rs; done).
  unfold BConnection_RecvAsync_Free. do 4 conn_step. conn_step.
  apply (runs_forget 947 948 BREACTOR_READ); [done|done|]. intros we' wt' Hm' Hw' Hkeep Hclear. repeat conn_step. split.
  - split; try done; [destruct er; [eauto with bconn|now apply (send_ok_wait _ _ wt); [apply Hkeep|]]|].
    destruct Hr. split; conn_tidy; try done. intros _ Hh. now rewrite (Hclear Hh).
  - intros [Hcl Hcut]%andb_true_iff. destruct (Hst Hcl) as [E1 E2]. split; [done|]. conn_tidy. rewrite E2. unfold pending_in.
    cbn [r_if]. destruct (decide (ri = STATE_DONE_PENDING)) as [ E|Hne]; [|now rewrite bool_decide_false].
    unfold cuts in Hcut. cbn in Hcut. now rewrite bool_decide_true in Hcut.
Qed.

Lemma send_operation_good : er = false -> si = STATE_OPERATION_PENDING -> runs send_operation (fun _ => good clean) w.
Proof.
  intros -> E. destruct Hs as [S1 S2 S3 S4 S5 S6]. cbn in *. subst si. assert (ss = READY) by (destruct ss; done). subst ss.
  assert (Hd : sd <> []) by now apply S2. assert (Hl : 0 < Z.of_nat (length sd)) by (destruct sd; cbn; [done|lia]).
  unfold send_operation, connection_send_if_handler_send. repeat conn_step. apply connection_send_good; try done.
  - intros Hh. split; [auto|]. exact (S4 eq_refl Hh).
  - intros Hcl. destruct (Hst Hcl) as [E1 E2]. split; [|done]. now rewrite E1, app_nil_r.
Qed.

Lemma recv_operation_good : er = false -> ri = STATE_OPERATION_PENDING -> runs recv_operation (fun _ => good clean) w.
Proof.
  intros -> E. destruct Hr as [R1 R2 R3 R4 R5 R6]. cbn in *. subst ri. assert (rs = READY) by (destruct rs; done). subst rs.
  assert (Hrj : rj = false) by (destruct rj; [now specialize (R3 eq_refl)|done]). subst rj. assert (Hl : 0 < ra) by now apply R2.
  unfold recv_operation, connection_recv_if_handler_recv. repeat conn_step. apply connection_recv_good; try done.
  - intros Hh. split; [auto|]. exact (R4 eq_refl Hh).
  - intros Hcl. destruct (Hst Hcl) as [E1 E2]. split; [done|]. now rewrite E2, app_nil_r.
Qed.

Lemma recv_job_good : er = false -> rj = true -> runs (set_r_job 0 false ;; connection_recv_job_handler) (fun _ => good clean) w.
Proof.
  intros -> E. destruct Hr as [R1 R2 R3 R4 R5 R6]. cbn in *. subst rj. assert (rs = BUSY) by auto. subst rs. subst ri.
  assert (Hl : 0 < ra) by now apply R2.
  unfold set_r_job, connection_recv_job_handler. repeat conn_step. apply connection_recv_good; try done.
  - intros Hh. split; [auto|]. exact (R4 eq_refl Hh).
  - intros Hcl. destruct (Hst Hcl) as [E1 E2]. split; [done|]. now rewrite E2, app_nil_r.
Qed.

End Calls.

Lemma call_good clean w k io :
  good clean w -> call_enabled w k = true ->
  runs (call_body k) (fun _ => good (clean && negb (cuts w k))) (with_kernel io w).
Proof.
  destruct w as [[[hup a we wt [sc si ss sd sn] [rc ri rj rs ra rn] er]|] k0 ev wr cf rd dl]; [|done].
  unfold good at 1. cbn [conn]. intros [Hok Hst] He. pose proof Hok as [Ha Hw Hm Hs Hr]. cbn in Ha, Hw, Hm, Hs, Hr. subst a.
  unfold streams in Hst. cbn [written confirmed readed delivered send recv] in Hst.
  pose proof Hs as [S1 S2 S3 S4 S5 S6]. pose proof Hr as [R1 R2 R3 R4 R5 R6].
  cbn [s_state s_if busy_data s_done s_count r_state r_if r_job busy_data_avail r_done r_count] in *.
  unfold call_enabled in He. cbn [conn send recv s_state s_if r_state r_if r_job errored] in He. unfold cuts. cbn [conn send recv s_if r_if].
  destruct k; cbn [call_body]; rewrite ?andb_true_r; unfold with_kernel; conn_tidy;
    try (apply andb_true_iff in He as [Her He]; destruct er; [done|]).
  - apply bool_decide_eq_true in He. subst ss. unfold BConnection_SendAsync_Init. repeat conn_step. split; [now split|].
    intros Hcl. destruct (Hst Hcl). now subst si.
  - apply negb_true_iff, bool_decide_eq_false in He. now apply send_free_good.
  - apply bool_decide_eq_true in He. subst rs. unfold BConnection_RecvAsync_Init. repeat conn_step.
    assert (Hrj : rj = false) by (destruct rj; [now specialize (R3 eq_refl)|done]). subst rj. split; [now split|].
    intros Hcl. destruct (Hst Hcl). now subst ri.
  - apply negb_true_iff, bool_decide_eq_false in He. now apply recv_free_good.
  - apply andb_true_iff in He as [H1 H2]. apply bool_decide_eq_true in H1, H2. subst.
    unfold BConnection_Free, BReactor_RemoveFileDescriptor. do 6 conn_step. destruct hup; cbn [whenever]; repeat conn_step; done.
  - rewrite !andb_true_iff in He. destruct He as [[H1 H2] H3]. apply bool_decide_eq_true in H2, H3. subst.
    unfold user_send. repeat conn_step. split; [|exact Hst]. split; try done. split; conn_tidy; try done. intros _ ->. done.
  - apply bool_decide_eq_true in He. now apply send_operation_good.
  - apply bool_decide_eq_true in He. subst si. unfold send_job_done. repeat conn_step. split.
    + split; try done. split; conn_tidy; try done. now destruct ss.
    + intros Hcl. destruct (Hst Hcl) as [E1 E2]. split; [|done]. conn_tidy. rewrite E1. now rewrite app_nil_r.
  - rewrite !andb_true_iff in He. destruct He as [[H1 H2] H3]. apply bool_decide_eq_true in H2, H3. subst.
    unfold user_recv. repeat conn_step. split; [|exact Hst]. split; try done. split; conn_tidy; try done. intros _. lia.
  - apply bool_decide_eq_true in He. now apply recv_operation_good.
  - apply bool_decide_eq_true in He. subst ri. unfold recv_job_done. repeat conn_step. split.
    + split; try done. split; conn_tidy; try done. now destruct rs.
    + intros Hcl. destruct (Hst Hcl) as [E1 E2]. split; [done|]. conn_tidy. rewrite E2. now rewrite app_nil_r.
  - now apply recv_job_good.
  - now apply fd_event_good.
  - unfold end_round. repeat conn_step. split; [split; try done; now split|exact Hst].
Qed.

(** ** Reachable states *)

Definition nothing : world := World None IoAgain [] [] [] [] [].

(** The steps of a connector until it reports success: its job was set at once and runs, or the
    descriptor becomes writable. *)
Definition reported (c : connector) : Prop :=
  exists supported socket_ok nonblocking connect added c0,
    BConnector_InitFrom supported socket_ok nonblocking connect added = Some c0 /\
    (if c_job c0 then connector_job_handler (Connector (has_fd c0) (connected c0) (have_bfd c0) false) = Some (false, c)
     else exists getsockopt_ok result, connector_fd_handler getsockopt_ok result c0 = Some (false, c)).

(** A connector that reported success can be turned into a connection. *)
Lemma reported_init c : reported c -> runs (BConnection_Init c true) (fun r w => r = true /\ good true w) nothing.
Proof.
  intros (sup & so & nb & con & add & c0 & E & H). assert (Hc : c = Connector true true false false).
  { unfold BConnector_InitFrom in E. destruct sup, so, nb, con, add; cbn in E; try discriminate; injection E as <-; cbn in H.
    1,2: congruence. destruct H as (g & r & H). unfold connector_fd_handler in H. cbn in H. destruct (g && (r =? 0)); cbn in H; congruence. }
  subst c. unfold BConnection_Init. repeat conn_step. split; [done|]. unfold good. cbn. split; [|done]. split; try done; now split.
Qed.

(** [reaches clean w]: [clean] as long as no interface was freed between a transfer and telling the user. *)
Inductive reaches : bool -> world -> Prop :=
  | reaches_init c w : reported c -> BConnection_Init c true nothing = Done true w -> reaches true w
  | reaches_call clean w k io w' :
      reaches clean w -> call_enabled w k = true -> call_body k (with_kernel io w) = Done tt w' ->
      reaches (clean && negb (cuts w k)) w'.

Lemma reaches_good clean w : reaches clean w -> good clean w.
Proof.
  induction 1 as [c w Hc E|clean w k io w' _ IH He E].
  - exact (proj2 (eff_at _ _ _ _ _ (reported_init c Hc) E)).
  - exact (eff_at _ _ _ _ _ (call_good clean w k io IH He) E).
Qed.

(** ** A run *)

Fixpoint run_calls (l : list (call * io_result)) (w : world) : world :=
  match l with
  | [] => w
  | (k, io) :: l => match call_body k (with_kernel io w) with Done _ w' => run_calls l w' | Bad _ => w end
  end.

Fixpoint enabled_all (l : list (call * io_result)) (w : world) : bool :=
  match l with
  | [] => true
  | (k, io) :: l =>
      call_enabled w k && negb (cuts w k) &&
      match call_body k (with_kernel io w) with Done _ w' => enabled_all l w' | Bad _ => false end
  end.

Lemma enabled_run l w : reaches true w -> enabled_all l w = true -> reaches true (run_calls l w).
Proof.
  revert w. induction l as [|[k io] l IH]; intros w Hw; cbn [enabled_all run_calls]; [done|].
  destruct (call_body k (with_kernel io w)) as [[] w'|] eqn:E; rewrite ?andb_false_r; [|done]. intros H. rewrite !andb_true_iff in H.
  destruct H as [[H1 H2] H3]. apply IH; [|done]. rewrite <- H2. exact (reaches_call true w k io w' Hw H1 E).
Qed.

Definition connected_at_once : connector := Connector true true false false.

Definition opened : world := match BConnection_Init connected_at_once true nothing with Done _ w => w | Bad _ => nothing end.

Lemma opened_reached : reaches true opened.
Proof.
  apply (reaches_init connected_at_once); [|reflexivity]. now exists true, true, true, ConnectDone, true, (Connector true true false true).
Qed.

(** Three bytes are sent, the socket takes two, and later the third; meanwhile a byte arrives. *)
Definition exchange : list (call * io_result) :=
  [(SendInit, IoAgain); (RecvInit, IoAgain); (UserSend [1; 2; 3], IoAgain); (SendOperation, IoOk 2 []); (SendDone, IoAgain);
   (UserRecv 10, IoAgain); (RecvOperation, IoAgain); (UserSend [3], IoAgain); (SendOperation, IoAgain);
   (EndRound, IoAgain); (FdEvent 3, IoOk 1 []); (RecvJob, IoOk 0 [7]); (SendDone, IoAgain); (RecvDone, IoAgain)].


(** ** The streams *)



(** ** Waiting *)

(** No wake-up is lost: an operation that is under way and has not failed waits for the event that
    continues it, for as long as the descriptor is monitored, or its job is set; and no event is waited for
    that no operation needs. A direction tries at most two system calls per round of the reactor. *)
Lemma connection_wakes_up (clean : bool) (w : world) (o : connection) :
  reaches clean w -> conn w = Some o -> errored o = false ->
  (s_state (send o) = BUSY -> active o = true /\ has (waitEvents o) BREACTOR_WRITE = true) /\
  (r_state (recv o) = BUSY -> r_job (recv o) = true \/ active o = true /\ has (waitEvents o) BREACTOR_READ = true) /\
  (active o = true -> has (waitEvents o) BREACTOR_WRITE = true -> s_state (send o) = BUSY) /\
  (active o = true -> has (waitEvents o) BREACTOR_READ = true -> r_state (recv o) = BUSY) /\
  0 <= s_count (send o) <= BCONNECTION_SEND_LIMIT /\ 0 <= r_count (recv o) <= BCONNECTION_RECV_LIMIT.
Proof.
  intros Hr Eo He. pose proof (reaches_good _ _ Hr) as Hg. unfold good in Hg. rewrite Eo in Hg.
  destruct Hg as [[Ha Hw Hm [S1 S2 S3 S4 S5 S6] [R1 R2 R3 R4 R5 R6]] _]. rewrite has_write, has_read, Ha.
  destruct (is_hupd o) eqn:Eh.
  - split; [intros H; now destruct (S5 He eq_refl)|]. split; [intros H; left; auto|]. done.
  - rewrite (Hw eq_refl), (S4 He eq_refl), (R4 He eq_refl). split; [intros H; now rewrite bool_decide_true|]. split.
    { intros H. destruct (r_job (recv o)); [now left|right]. now rewrite bool_decide_true. }
    split; [intros _ H; now apply bool_decide_eq_true in H|].
    split; [intros _ [H _]%andb_true_iff; now apply bool_decide_eq_true in H|done].
Qed.

Lemma connection_wakes_up_witness :
  exists o, conn (run_calls (firstn 9 exchange) opened) = Some o /\
    (s_state (send o) = BUSY -> active o = true /\ has (waitEvents o) BREACTOR_WRITE = true).
Proof.
  assert (Hr : reaches true (run_calls (firstn 9 exchange) opened)) by (apply enabled_run; [exact opened_reached|vm_compute; reflexivity]).
  eexists. split; [vm_compute; reflexivity|].
  refine (proj1 (connection_wakes_up true _ _ Hr _ _)); vm_compute; reflexivity.
Defined.
