(* ===== verification/CAvl.v ===== *)
(** * The generic AVL tree ([badvpn/structure/CAvl_impl.h])

    The tree behind the timers of the reactor ([BReactor_badvpn_timerstree.h]): entries
    are linked by plain pointers, and the features for keys, counts and sums over
    subtrees are off. A node has the fields of [BAVLNode], and the memory is that of
    [BAVL]; a reference is the address of an entry or null. The code differs from
    [BAVL.h] in that functions are passed the parents of the nodes they change. *)

From S2P Require Import Prelude Effect BAVL.

Open Scope Z_scope.

(** ** Checks and rotation *)

Definition CAvl_check_parent (p : option nat) (c : nat) : eff BAVL bool :=
  cn ← node 89 c;
  match p with
  | None => mret (match parent cn with None => true | Some _ => false end)
  | Some p =>
      if points_to (parent cn) p then
        pn ← node 89 p;
        mret (points_to (link0 pn) c || points_to (link1 pn) c)
      else mret false
  end.

Definition CAvl_rotate (r : nat) (dir : bool) (r_parent : option nat) : eff BAVL unit :=
  linked ← CAvl_check_parent r_parent r;
  assert_at 168 linked ;;
  rn ← node 169 r;
  nr ← deref 169 (link (negb dir) rn);
  nrn ← node 171 nr;
  set_node 171 r (with_link (negb dir) (link dir nrn)) ;;
  reparent 173 (link dir nrn) r ;;
  set_node 175 nr (with_link dir (Some r)) ;;
  set_node 176 nr (with_parent r_parent) ;;
  hang 178 r_parent (fun q => points_to (link1 q) r) (Some nr) ;;
  set_node 182 r (with_parent (Some nr)).

(** ** Rebalancing *)

(** Lines 349 to 394: the transformations of a node out of balance. *)
Definition CAvl_restore (p : nat) (delta : Z) : eff BAVL (nat * Z) :=
  n ← node 352 p;
  let bside := balance n =? 2 in
  let bsidef := if bside then 1 else -1 in
  child ← deref 363 (link bside n);
  cn ← node 366 child;
  if balance cn * bsidef =? 1 then
    CAvl_rotate p (negb bside) (parent n) ;;
    set_node 369 p (with_balance 0) ;;
    set_node 370 child (with_balance 0) ;;
    mret (child, delta - 1)
  else if balance cn * bsidef =? 0 then
    CAvl_rotate p (negb bside) (parent n) ;;
    set_node 376 p (with_balance (1 * bsidef)) ;;
    set_node 377 child (with_balance (-1 * bsidef)) ;;
    mret (child, delta)
  else if balance cn * bsidef =? -1 then
    gchild ← deref 381 (link (negb bside) cn);
    CAvl_rotate child bside (Some p) ;;
    n ← node 384 p;
    CAvl_rotate p (negb bside) (parent n) ;;
    gn ← node 385 gchild;
    set_node 385 p (with_balance (- Z.max 0 (balance gn * bsidef) * bsidef)) ;;
    set_node 386 child (with_balance (Z.max 0 (- balance gn * bsidef) * bsidef)) ;;
    set_node 387 gchild (with_balance 0) ;;
    mret (gchild, delta - 1)
  else bad 392.

Definition CAvl_OPTNEG (val : Z) (neg : bool) : Z := if neg then - val else val.

(** Lines 341 to 394. *)
Definition CAvl_adjust (p : nat) (side : bool) (deltac : Z) : eff BAVL (nat * Z) :=
  n ← node 342 p;
  let delta := Z.max deltac (CAvl_OPTNEG (balance n) side) - Z.max 0 (CAvl_OPTNEG (balance n) side) in
  assert_at 343 ((-1 <=? delta) && (delta <=? 1)) ;;
  set_node 346 p (with_balance (balance n - CAvl_OPTNEG deltac side)) ;;
  n ← node 352 p;
  if (balance n =? 2) || (balance n =? -2) then CAvl_restore p delta else mret (p, delta).

Fixpoint CAvl_rebalance (fuel : nat) (p : nat) (side : bool) (deltac : Z) : eff BAVL unit :=
  match fuel with
  | O => bad 330
  | S fuel =>
      assert_at 333 ((-1 <=? deltac) && (deltac <=? 1)) ;;
      n ← node 334 p;
      assert_at 334 ((-1 <=? balance n) && (balance n <=? 1)) ;;
      if deltac =? 0 then mret tt
      else
        top ← CAvl_adjust p side deltac;
        assert_at 396 ((-1 <=? snd top) && (snd top <=? 1)) ;;
        n ← node 407 (fst top);
        match parent n with
        | Some q => qn ← node 409 q; CAvl_rebalance fuel q (points_to (link1 qn) (fst top)) (snd top)
        | None => mret tt
        end
  end.

(** ** Insertion *)

Section Operations.
Context {K : Type} (comparator : K -> K -> Z) (value : nat -> K).

Definition CAvl_compare_entries (node1 node2 : nat) : eff BAVL Z :=
  let res := comparator (value node1) (value node2) in
  assert_at 50 (-1 <=? res) ;;
  assert_at 51 (res <=? 1) ;;
  mret res.

Definition CAvl_Init : BAVL := Tree None ∅.

Fixpoint CAvl_descend (fuel : nat) (p c : nat) : eff BAVL (nat + nat * bool) :=
  match fuel with
  | O => bad 481
  | S fuel =>
      comp ← CAvl_compare_entries p c;
      if comp =? 0 then mret (inl c)
      else
        let side := comp =? 1 in
        n ← node 493 c;
        match link side n with
        | None => mret (inr (c, side))
        | Some c => CAvl_descend fuel p c
        end
  end.

(** The result of the function and the reference it stores in [*out_ref]. *)
Definition CAvl_Insert (p : nat) : eff BAVL (Z * option nat) :=
  t ← get_st;
  match root t with
  | None =>
      set_root (Some p) ;;
      upd_st (fun t => Tree (root t) (<[p := Node None None None 0]> (memory t))) ;;
      mret (1, None)
  | Some c =>
      found ← CAvl_descend (depth t) p c;
      match found with
      | inl c => mret (0, Some c)
      | inr (c, side) =>
          set_node 500 c (with_link side (Some p)) ;;
          upd_st (fun t => Tree (root t) (<[p := Node (Some c) None None 0]> (memory t))) ;;
          CAvl_rebalance (depth t) c side 1 ;;
          mret (1, Some c)
      end
  end.

(** ** Removal *)

Fixpoint CAvl_subtree_min (fuel : nat) (p : nat) : eff BAVL nat :=
  match fuel with
  | O => bad 199
  | S fuel => n ← node 199 p; match link0 n with Some q => CAvl_subtree_min fuel q | None => mret p end
  end.

Fixpoint CAvl_subtree_max (fuel : nat) (p : nat) : eff BAVL nat :=
  match fuel with
  | O => bad 210
  | S fuel => n ← node 210 p; match link1 n with Some q => CAvl_subtree_max fuel q | None => mret p end
  end.

Definition CAvl_replace_subtree (dest : nat) (p : option nat) (dest_parent : option nat) : eff BAVL unit :=
  linked ← CAvl_check_parent dest_parent dest;
  assert_at 220 linked ;;
  hang 223 dest_parent (fun q => points_to (link1 q) dest) p ;;
  match p with
  | Some p => d ← node 228 dest; set_node 228 p (with_parent (parent d))
  | None => mret tt
  end.

(** Lines 256 to 277: [enode] is a child of [p]. *)
Definition CAvl_swap_connected (p enode : nat) (node_parent : option nat) : eff BAVL unit :=
  n ← node 256 p;
  let side := points_to (link1 n) enode in
  let c := link (negb side) n in
  e ← node 259 enode;
  set_node 259 p (with_link false (link false e)) ;;
  reparent 260 (link false e) p ;;
  e ← node 262 enode;
  set_node 262 p (with_link true (link true e)) ;;
  reparent 263 (link true e) p ;;
  n ← node 266 p;
  set_node 266 enode (with_parent (parent n)) ;;
  hang 268 node_parent (fun q => points_to (link1 q) p) (Some enode) ;;
  set_node 273 enode (with_link side (Some p)) ;;
  set_node 274 p (with_parent (Some enode)) ;;
  set_node 275 enode (with_link (negb side) c) ;;
  reparent 276 c enode.

(** Lines 279 to 312. *)
Definition CAvl_swap_apart (p enode : nat) (node_parent enode_parent : option nat) : eff BAVL unit :=
  e ← node 283 enode;
  set_node 283 p (with_parent (parent e)) ;;
  hang 285 enode_parent (fun q => points_to (link1 q) enode) (Some p) ;;
  set_node 289 enode (with_parent node_parent) ;;
  hang 291 node_parent (fun q => points_to (link1 q) p) (Some enode) ;;
  swap_children 298 false p enode ;;
  swap_children 307 true p enode.

Definition CAvl_swap_for_remove (p enode : nat) (node_parent enode_parent : option nat) : eff BAVL unit :=
  linked ← CAvl_check_parent node_parent p;
  assert_at 250 linked ;;
  linked ← CAvl_check_parent enode_parent enode;
  assert_at 251 linked ;;
  (if points_to enode_parent p then CAvl_swap_connected p enode node_parent
   else CAvl_swap_apart p enode node_parent enode_parent) ;;
  n ← node 316 p;
  e ← node 317 enode;
  set_node 317 p (with_balance (balance e)) ;;
  set_node 318 enode (with_balance (balance n)).

Definition CAvl_Remove (p : nat) : eff BAVL unit :=
  t ← get_st;
  assert_at 606 (negb (BAVL_IsEmpty t)) ;;
  n ← node 608 p;
  match link0 n, link1 n with
  | Some l, Some _ =>
      max ← CAvl_subtree_max (depth t) l;
      e ← node 610 max;
      CAvl_swap_for_remove p max (parent n) (parent e)
  | _, _ => mret tt
  end ;;
  n ← node 613 p;
  assert_at 613 (match link0 n, link1 n with Some _, Some _ => false | _, _ => true end) ;;
  let child := match link0 n with Some c => Some c | None => link1 n end in
  match parent n with
  | Some q =>
      qn ← node 619 q;
      let side := points_to (link1 qn) p in
      CAvl_replace_subtree p child (parent n) ;;
      CAvl_rebalance (depth t) q side (-1)
  | None => CAvl_replace_subtree p child (parent n)
  end.

(** ** Traversal *)

Definition CAvl_GetFirst : eff BAVL (option nat) :=
  t ← get_st;
  match root t with None => mret None | Some p => q ← CAvl_subtree_min (depth t) p; mret (Some q) end.

Definition CAvl_IsEmpty (t : BAVL) : bool := match root t with None => true | Some _ => false end.

End Operations.
