(* ===== verification/CAvlFacts.v ===== *)
(** * The generic AVL tree does what the other one does

    [CAvl_impl.h] and [BAVL.h] are two implementations of the same tree. A computation
    follows another one if it returns whenever the other one does, with the same result
    and the same memory; on a tree every function of [CAvl] follows that of [BAVL], so
    that what was shown of the one holds of the other. *)

From stdpp Require Import sorting.
From S2P Require Import Prelude Effect BAVL BAVLRep BAVLBal BAVLFind BAVLRemove BAVLFacts CAvl.

Open Scope Z_scope.

Definition follows {S A} (m1 m2 : eff S A) (s : S) : Prop :=
  forall a s', m2 s = Done a s' -> m1 s = Done a s'.

Section Follows.
Context {S : Type}.

Lemma follows_refl {A} (m : eff S A) s : follows m m s.
Proof. now intros a s'. Qed.

Lemma follows_bind {A B} (m1 m2 : eff S A) (k1 k2 : A -> eff S B) s :
  follows m1 m2 s -> (forall a s', m2 s = Done a s' -> follows (k1 a) (k2 a) s') ->
  follows (m1 ≫= k1) (m2 ≫= k2) s.
Proof.
  unfold follows, mbind, eff_mbind. intros Hm Hk b s'. destruct (m2 s) as [a s1|] eqn:E; [|done].
  rewrite (Hm a s1 eq_refl). now apply Hk.
Qed.

(** A check that succeeds may be added. *)
Lemma follows_check {A} (c : eff S bool) line (k m2 : eff S A) s :
  c s = Done true s -> follows k m2 s -> follows (b ← c; assert_at line b ;; k) m2 s.
Proof. unfold follows, mbind, eff_mbind. intros -> H a s'. exact (H a s'). Qed.

Lemma follows_holding {A} line (k m2 : eff S A) s : follows k m2 s -> follows (assert_at line true ;; k) m2 s.
Proof. done. Qed.

Lemma follows_runs {A} (m1 m2 : eff S A) Q s : follows m1 m2 s -> runs m2 Q s -> runs m1 Q s.
Proof. unfold follows, runs. intros H. destruct (m2 s) as [a s'|]; [|done]. now rewrite (H a s' eq_refl). Qed.

Lemma follows_assert line line' b s : follows (S := S) (assert_at line b) (assert_at line' b) s.
Proof. destruct b; now intros a s'. Qed.

End Follows.

Lemma follows_node line line' p T : follows (node line p) (node line' p) T.
Proof. unfold follows, node, mbind, eff_mbind, get_st. now destruct (memory T !! p). Qed.

Lemma follows_set_node line line' p f T : follows (set_node line p f) (set_node line' p f) T.
Proof. apply follows_bind; [apply follows_node|]. intros n T' _. apply follows_refl. Qed.

Lemma follows_deref line line' p T : follows (deref line p) (deref line' p) T.
Proof. now destruct p; intros a T'. Qed.

Lemma follows_reparent line line' p q T : follows (reparent line p q) (reparent line' p q) T.
Proof. destruct p; [apply follows_set_node|apply follows_refl]. Qed.

Lemma follows_hang line line' q side p T : follows (hang line q side p) (hang line' q side p) T.
Proof.
  destruct q; [|apply follows_refl]. apply follows_bind; [apply follows_node|]. intros m T' _. apply follows_set_node.
Qed.

Lemma follows_swap_children line line' side n1 n2 T : follows (swap_children line side n1 n2) (swap_children line' side n1 n2) T.
Proof.
  unfold swap_children.
  repeat first [apply follows_node | apply follows_set_node | apply follows_reparent | apply follows_bind; [|intros ???]].
Qed.

Create HintDb cavl.
#[export] Hint Resolve follows_refl follows_assert follows_node follows_set_node follows_deref follows_reparent follows_hang follows_swap_children : cavl.

(** The two computations make the same step. *)
Ltac same := apply follows_bind; [solve [auto with cavl]|].

(** What a step that was made says. *)
Lemma node_done line p T n T' : node line p T = Done n T' -> T' = T /\ memory T !! p = Some n.
Proof. unfold node, mbind, eff_mbind, get_st. destruct (memory T !! p) eqn:E; [|done]. now intros [= -> <-]. Qed.

Lemma deref_done line p T n T' : deref line p T = Done n T' -> T' = T /\ p = Some n.
Proof. destruct p; [|done]. now intros [= <- <-]. Qed.

Lemma assert_done {S} line b (s : S) a s' : assert_at line b s = Done a s' -> s' = s /\ b = true.
Proof. destruct b; [|done]. now intros [= _ <-]. Qed.

Lemma set_node_done line p f T a T' :
  set_node line p f T = Done a T' -> exists n, memory T !! p = Some n /\ T' = Tree (root T) (<[p := f n]> (memory T)).
Proof.
  unfold set_node, mbind, eff_mbind. destruct (node line p T) as [n T1|] eqn:E; [|done].
  apply node_done in E as [-> E]. intros [= _ <-]. eauto.
Qed.

(** ** The checks *)

Lemma check_parent_ok T q t c :
  holds T q t -> rt t = Some c -> CAvl_check_parent (pid None q) c T = Done true T.
Proof.
  intros [H1 H2 H3 H4] Hc. destruct t as [|l i b r]; [done|]. injection Hc as ->. destruct H3 as (E & _).
  unfold CAvl_check_parent, node, get_st, mbind, eff_mbind, mret, eff_mret. rewrite E. cbn [parent].
  destruct q as [|[s k bk sib] q]; cbn [pid fid]; [done|]. cbn in H2. destruct H2 as (Ek & _).
  replace (points_to (Some k) k) with true by (symmetry; now apply bool_decide_true). rewrite Ek.
  replace (points_to (link0 _) c || _) with true; [done|]. unfold points_to. symmetry. apply orb_true_iff.
  destruct s; [right|left]; now apply bool_decide_true.
Qed.

(** ** Rotation and rebalancing *)

Lemma rotate_follows T q dir r br C nr bnr A B :
  holds T q (plug1 (Frame (negb dir) r br C) (plug1 (Frame dir nr bnr A) B)) ->
  follows (CAvl_rotate r dir (pid None q)) (BAVL_rotate r dir) T.
Proof.
  intros HT. unfold CAvl_rotate. apply follows_check; [apply (check_parent_ok _ _ _ _ HT), rt_plug1|].
  destruct (holds_at _ _ _ _ _ _ _ HT) as (n & En & Hp & Hl & _).
  destruct (holds_at_below _ _ _ _ _ _ _ _ HT) as (m & Em & _ & Hm & _). rewrite rt_plug1 in Hl.
  assert (Hnd : nr <> r /\ rt B <> Some r).
  { pose proof (holds_nodup _ _ _ HT) as Hnd. rewrite !ids_plug1 in Hnd. cbn in Hnd.
    apply NoDup_app in Hnd as (_ & _ & Hnd). apply NoDup_cons in Hnd as [Hr _]. split; [set_solver|].
    destruct B; cbn in *; [done|set_solver]. }
  destruct Hnd as [Hne HB]. unfold BAVL_rotate.
  same. intros rn T0 [-> E]%node_done. rewrite En in E. injection E as <-. rewrite Hl.
  same. intros nr' T0 [-> [= <-]]%deref_done.
  same. intros nrn T0 [-> E]%node_done. rewrite Em in E. injection E as <-. rewrite Hm.
  same. intros [] T1 (n1 & E1 & ->)%set_node_done. rewrite En in E1. injection E1 as <-.
  apply follows_bind; [auto with cavl|]. intros [] T2 E2.
  assert (Er : exists n2, memory T2 !! r = Some n2 /\ parent n2 = pid None q).
  { destruct (rt B) as [i|] eqn:EB; cbn [reparent] in E2.
    - apply set_node_done in E2 as (ni & Ei & ->). cbn [memory]. rewrite lookup_insert_ne by congruence. rewrite lookup_insert_eq.
      eexists. split; [done|]. now destruct (negb dir).
    - injection E2 as <-. cbn [memory]. rewrite lookup_insert_eq. eexists. split; [done|]. now destruct (negb dir). }
  destruct Er as (n2 & Er & Hp2).
  same. intros [] T3 (n3 & E3 & ->)%set_node_done.
  intros a T' E. cbn in E. unfold mbind at 1, eff_mbind at 1 in E.
  destruct (node 289 r _) as [rn T4|] eqn:E4; [|done]. apply node_done in E4 as [-> E4]. cbn [memory] in E4.
  rewrite lookup_insert_ne, Er in E4 by congruence. injection E4 as <-. rewrite Hp2 in E. revert a T' E.
  change (follows (set_node 176 nr (with_parent (pid None q)) ;; hang 178 (pid None q) (fun q0 => points_to (link1 q0) r) (Some nr) ;; set_node 182 r (with_parent (Some nr)))
    (set_node 289 nr (with_parent (pid None q)) ;; hang 291 (pid None q) (fun q0 => points_to (link1 q0) r) (Some nr) ;; set_node 295 r (with_parent (Some nr)))
    (Tree (root T2) (<[nr := with_link dir (Some r) n3]> (memory T2)))).
  same. intros [] T5 _. same. intros [] T6 _. auto with cavl.
Qed.

(** A read whose result is known may be added. *)
Lemma follows_read {A} line p n (k : BAVLNode -> eff BAVL A) m2 T :
  memory T !! p = Some n -> follows (k n) m2 T -> follows (n ← node line p; k n) m2 T.
Proof. intros E H a T' E'. unfold mbind, eff_mbind, node, get_st. unfold mbind, eff_mbind. rewrite E. exact (H a T' E'). Qed.

Ltac same_node E := same; intros ? ? [-> E']%node_done; rewrite E in E'; injection E' as <-.

Section Restore.
Context (T : BAVL) (q : list frame) (s : bool) (p : nat) (b : Z) (C : tree).

Lemma rotate_top_follows X :
  holds T q (plug1 (Frame s p b C) X) -> X <> Leaf ->
  follows (CAvl_rotate p (negb s) (pid None q)) (BAVL_rotate p (negb s)) T.
Proof.
  intros HT HX. destruct (seen_from (negb s) X HX) as (c & bc & A & B & ->).
  rewrite <- (negb_involutive s) in HT at 1. exact (rotate_follows _ _ _ _ _ _ _ _ _ _ HT).
Qed.

Lemma rotate_twice_follows c bc A g bg D E0 {R} (k1 k2 : eff BAVL R) :
  holds T q (plug1 (Frame s p b C) (plug1 (Frame (negb s) c bc A) (plug1 (Frame s g bg D) E0))) ->
  (forall T', follows k1 k2 T') ->
  follows (CAvl_rotate c s (Some p) ;; n ← node 384 p; CAvl_rotate p (negb s) (parent n) ;; k1)
    (BAVL_rotate c s ;; BAVL_rotate p (negb s) ;; k2) T.
Proof.
  intros HT Hk. apply holds_up in HT. apply follows_bind; [exact (rotate_follows _ _ _ _ _ _ _ _ _ _ HT)|].
  intros [] T1 E1. pose proof (eff_at _ _ _ _ _ (rotate_ok _ _ _ _ _ _ _ _ _ _ HT) E1) as HT1. cbn beta in HT1.
  apply (proj1 (holds_up _ _ _ _)) in HT1. destruct (holds_at _ _ _ _ _ _ _ HT1) as (n & En & Hp & _).
  apply (follows_read _ _ _ _ _ _ En). rewrite Hp. clear n En Hp.
  apply follows_bind; [|now intros [] T2 _].
  rewrite (flip' s c bc), (flip s g bg D) in HT1. rewrite <- (negb_involutive s) in HT1 at 1.
  exact (rotate_follows _ _ _ _ _ _ _ _ _ _ HT1).
Qed.

End Restore.

Lemma restore_follows T q s p C X delta :
  holds T q (plug1 (Frame s p (2 * sgn s) C) X) -> avl C -> avl X -> height X = height C + 2 ->
  follows (CAvl_restore p delta) (restore p delta) T.
Proof.
  intros HT HC HX Hh. pose proof (height_nonneg C) as Hpos.
  assert (HX0 : X <> Leaf) by (apply height_leaf; lia).
  destruct (holds_at _ _ _ _ _ _ _ HT) as (n & En & Hp & Hl & _ & Hb).
  unfold CAvl_restore, restore. same_node En. rewrite Hp, Hb.
  replace (2 * sgn s =? 2) with s by now destruct s. rewrite Hl.
  same. intros c T0 [-> Hc]%deref_done. same. intros cn T0 [-> Ecn]%node_done.
  destruct (_ =? 1); [apply follows_bind; [now apply (rotate_top_follows _ _ _ _ _ _ _ HT)|]; intros [] T1 _; now repeat (same; intros [] ? _)|].
  destruct (_ =? 0); [apply follows_bind; [now apply (rotate_top_follows _ _ _ _ _ _ _ HT)|]; intros [] T1 _; now repeat (same; intros [] ? _)|].
  destruct (_ =? -1); [|now intros a T'].
  same. intros g T0 [-> Hg]%deref_done.
  destruct (seen_from (negb s) X HX0) as (c' & bc & A & B & ->). rewrite rt_plug1 in Hc. injection Hc as ->.
  destruct (holds_at_below _ _ _ _ _ _ _ _ HT) as (cn' & Ecn' & _ & Hcl & _). rewrite Ecn in Ecn'. injection Ecn' as <-.
  rewrite Hcl in Hg. destruct (seen_from s B) as (g' & bg & D & E0 & ->); [now destruct B|]. rewrite rt_plug1 in Hg. injection Hg as ->.
  apply (rotate_twice_follows _ _ _ _ _ _ _ _ _ _ _ _ _ _ _ HT). intros T'.
  same. intros gn T1 _. now repeat (same; intros [] ? _).
Qed.

Lemma adjust_follows T q s i b sib c old d :
  holds T (Frame s i b sib :: q) c -> avl c -> avl sib -> b = sgn s * (old - height sib) -> -1 <= b <= 1 ->
  height c = old + d -> d = 1 \/ d = -1 ->
  follows (CAvl_adjust i s d) (adjust i s d) T.
Proof.
  intros HT Hc Hs Eb Hb Hh Hd. apply holds_up in HT. destruct (holds_at _ _ _ _ _ _ _ HT) as (n & En & _ & _ & _ & Hn).
  unfold CAvl_adjust, adjust. same_node En. rewrite Hn. change CAvl_OPTNEG with BAVL_OPTNEG.
  same. intros [] T0 [-> _]%assert_done. same. intros [] T1 E1.
  pose proof (eff_at _ _ _ _ _ (set_balance_at _ _ _ _ _ _ _ _ _ HT) E1) as HT1. cbn beta in HT1.
  set (b1 := b - BAVL_OPTNEG d s) in *.
  assert (Eb1 : b1 = sgn s * (height c - height sib)) by (unfold b1; destruct s; cbn [BAVL_OPTNEG sgn] in *; lia). clearbody b1.
  destruct (holds_at _ _ _ _ _ _ _ HT1) as (n1 & En1 & _ & _ & _ & Hn1). same_node En1. rewrite Hn1.
  destruct ((b1 =? 2) || (b1 =? -2)) eqn:E; [|apply follows_refl].
  destruct (Z.eq_dec b1 (2 * sgn s)) as [E2|N2].
  - rewrite E2 in HT1. apply (restore_follows _ _ _ _ _ _ _ HT1); auto. destruct s; cbn [sgn] in *; lia.
  - rewrite flip in HT1. assert (E3 : b1 = 2 * sgn (negb s)) by (destruct s; cbn [sgn negb] in *; lia). rewrite E3 in HT1.
    apply (restore_follows _ _ _ _ _ _ _ HT1); auto. destruct s; cbn [sgn negb] in *; lia.
Qed.

Lemma rebalance_follows q : forall fuel T s i b sib c old d,
  holds T (Frame s i b sib :: q) c -> avl c -> path_avl (Frame s i b sib :: q) old -> height c = old + d -> -1 <= d <= 1 ->
  follows (CAvl_rebalance fuel i s d) (BAVL_rebalance fuel i s d) T.
Proof.
  induction q as [|f q IH]; intros fuel T s i b sib c old d HT Hc Hpath Hh Hd;
    (destruct fuel as [|fuel]; [now intros a T'|]); cbn [BAVL_rebalance CAvl_rebalance].
  all: pose proof Hpath as (Hsib & Eb & Hb1 & Hpath1).
  all: same; intros [] T0 [-> _]%assert_done; same; intros n T0 [-> En]%node_done; same; intros [] T0 [-> _]%assert_done.
  all: destruct (Z.eqb_spec d 0) as [ -> |Hd0]; [apply follows_refl|].
  all: assert (Es : b = sgn s * (old - height sib)) by (destruct s; cbn [sgn]; lia).
  all: assert (Hd' : d = 1 \/ d = -1) by lia.
  all: apply follows_bind; [exact (adjust_follows _ _ _ _ _ _ _ _ _ HT Hc Hsib Es Hb1 Hh Hd')|]; intros [j delta] T' Ea.
  all: pose proof (eff_at _ _ _ _ _ (adjust_ok _ _ _ _ _ _ _ _ _ HT Hc Hsib Es Hb1 Hh Hd') Ea) as (l' & b1 & r' & HT' & Ht' & _ & Hht & Hdelta); cbn [fst snd] in *.
  all: same; intros [] T0 [-> _]%assert_done; pose proof (holds_tree _ _ _ HT') as (Ej & _); same_node Ej; cbn [parent pid].
  - apply follows_refl.
  - destruct f as [s' i' b' sib']. destruct (holds_path _ _ _ HT') as (Ei' & _). cbn [fid]. same_node Ei'. cbn [link1 rt].
    replace (points_to (if s' then Some j else rt sib') j) with s'.
    + apply (IH fuel T' s' i' b' sib' _ _ delta HT' Ht' Hpath1); lia.
    + destruct s'; [symmetry; now apply bool_decide_true|]. symmetry. apply not_root. intros Hin.
      pose proof (holds_nodup _ _ _ HT') as Hn. cbn in Hn. apply NoDup_cons in Hn as [_ Hn]. apply NoDup_app in Hn as (_ & Hn & _). set_solver.
Qed.

(** ** The operations *)

Lemma subtree_max_follows T : forall fuel p, follows (CAvl_subtree_max fuel p) (BAVL_subtree_max fuel p) T.
Proof.
  unfold BAVL_subtree_max. induction fuel as [|fuel IH]; intros p; [now intros a T'|]. cbn [CAvl_subtree_max subtree_end].
  same. intros n T0 [-> _]%node_done. cbn [link]. destruct (link1 n); [apply IH|apply follows_refl].
Qed.

Lemma subtree_min_follows T : forall fuel p, follows (CAvl_subtree_min fuel p) (subtree_end fuel false p) T.
Proof.
  induction fuel as [|fuel IH]; intros p; [now intros a T'|]. cbn [CAvl_subtree_min subtree_end].
  same. intros n T0 [-> _]%node_done. cbn [link]. destruct (link0 n); [apply IH|apply follows_refl].
Qed.

Lemma get_first_follows T : follows CAvl_GetFirst BAVL_GetFirst T.
Proof.
  unfold CAvl_GetFirst, BAVL_GetFirst. same. intros t T0 _. destruct (root t) as [c|]; [|apply follows_refl].
  apply follows_bind; [apply subtree_min_follows|]. intros m T1 _. apply follows_refl.
Qed.

Lemma replace_follows T q s p b X :
  holds T q (plug1 (Frame s p b Leaf) X) ->
  follows (CAvl_replace_subtree p (rt X) (pid None q)) (BAVL_replace_subtree p (rt X)) T.
Proof.
  intros HT. unfold CAvl_replace_subtree, BAVL_replace_subtree.
  apply follows_check; [apply (check_parent_ok _ _ _ _ HT), rt_plug1|].
  destruct (holds_at _ _ _ _ _ _ _ HT) as (n & En & Hp & _). intros a T' E. revert a T' E.
  assert (Hnp : pid None q <> Some p).
  { pose proof (holds_nodup _ _ _ HT) as H. rewrite ids_plug1 in H. apply NoDup_app in H as (_ & H & _).
    destruct q as [|[s' i b' sib] q]; cbn in *; [done|set_solver]. }
  enough (H : follows (hang 223 (pid None q) (fun q0 => points_to (link1 q0) p) (rt X) ;;
      match rt X with Some p0 => d ← node 228 p; set_node 228 p0 (with_parent (parent d)) | None => mret tt end)
    (hang 318 (pid None q) (fun q0 => points_to (link1 q0) p) (rt X) ;;
      match rt X with Some p0 => set_node 323 p0 (with_parent (pid None q)) | None => mret tt end) T).
  { intros a T'. unfold mbind at 1, eff_mbind at 1. destruct (node 317 p T) as [d T0|] eqn:E; [|done].
    apply node_done in E as [-> E]. rewrite En in E. injection E as <-. rewrite Hp. apply H. }
  apply follows_bind; [auto with cavl|]. intros [] T1 E1. destruct (rt X) as [x|]; [|apply follows_refl].
  assert (E2 : memory T1 !! p = Some n).
  { destruct (pid None q) as [k|]; cbn [hang] in E1; [|now injection E1 as <-].
    unfold mbind at 1, eff_mbind at 1 in E1. destruct (node 318 k T) as [m T0|] eqn:E; [|done]. apply node_done in E as [-> E].
    apply set_node_done in E1 as (m' & _ & ->). cbn [memory]. rewrite lookup_insert_ne by congruence. exact En. }
  apply (follows_read _ _ _ _ _ _ E2). rewrite Hp. auto with cavl.
Qed.

(** A read of the other computation whose result is known. *)
Lemma follows_known {A} line p n (k : BAVLNode -> eff BAVL A) m1 T :
  memory T !! p = Some n -> follows m1 (k n) T -> follows m1 (n ← node line p; k n) T.
Proof.
  intros E H a T' E'. apply H. unfold mbind, eff_mbind in E'. destruct (node line p T) as [n' T0|] eqn:En; [|done].
  apply node_done in En as [-> En]. rewrite E in En. now injection En as <-.
Qed.

Lemma swap_connected_follows T q p m b bm r lm :
  parts T [] q p m b bm r lm -> disjoint_parts [] q p m r lm ->
  follows (CAvl_swap_connected p m (pid None q)) (swap_connected p m) T.
Proof.
  intros [H1 H2 H3 H4 H5 H6 H7] Hd. pose proof (dp_pm _ _ _ _ _ _ Hd) as Hpm.
  pose proof (dp_p _ _ _ _ _ _ Hd) as (_ & _ & _ & Hpl). pose proof (dp_m _ _ _ _ _ _ Hd) as (_ & _ & _ & Hml). cbn [top pid] in *.
  unfold CAvl_swap_connected, swap_connected. same_node H2. same_node H3. cbn [link link0 link1].
  same. intros [] T1 (n1 & E1 & ->)%set_node_done. rewrite H2 in E1. injection E1 as <-.
  apply follows_bind; [auto with cavl|]. intros [] T2 E2.
  assert (Hm2 : memory T2 !! m = Some (Node (Some p) (rt lm) None bm) /\
                memory T2 !! p = Some (Node (pid None q) (rt lm) (rt r) b)).
  { destruct (rt lm) as [i|] eqn:El; cbn [reparent] in E2.
    - assert (i ∈ ids lm) by (destruct lm; [done|]; injection El as ->; cbn; set_solver).
      apply set_node_done in E2 as (ni & _ & ->). cbn [memory].
      rewrite !(lookup_insert_ne _ i) by congruence. rewrite lookup_insert_ne, lookup_insert_eq by congruence. done.
    - injection E2 as <-. cbn [memory]. rewrite lookup_insert_ne, lookup_insert_eq by congruence. done. }
  destruct Hm2 as [Em2 Ep2]. apply (follows_read _ _ _ _ _ _ Em2). cbn [link1 reparent].
  same. intros [] T3 (n3 & E3 & ->)%set_node_done. rewrite Ep2 in E3. injection E3 as <-.
  same. intros [] T4 [= <-]. same. intros n4 T4 [-> E4]%node_done. cbn [memory] in E4. rewrite lookup_insert_eq in E4. injection E4 as <-.
  cbn [with_link parent]. repeat (same; intros [] ? _). auto with cavl.
Qed.

Lemma swap_apart_follows T q' q p m b bm r lm :
  parts T q' q p m b bm r lm ->
  follows (CAvl_swap_apart p m (pid None q) (pid (Some p) q')) (swap_apart p m) T.
Proof.
  intros [H1 H2 H3 H4 H5 H6 H7]. unfold CAvl_swap_apart, swap_apart.
  apply (follows_known _ _ _ _ _ _ H2). same_node H3. cbn [parent]. repeat (same; intros [] ? _). auto with cavl.
Qed.

Lemma swap_follows T q' q p m b bm r lm :
  holds T (q' ++ Frame false p b r :: q) (plug1 (Frame true m bm lm) Leaf) ->
  follows (CAvl_swap_for_remove p m (pid None q) (pid (Some p) q')) (BAVL_swap_nodes p m) T.
Proof.
  intros HT. unfold CAvl_swap_for_remove.
  apply follows_check.
  { apply (check_parent_ok T q (plug1 (Frame false p b r) (plug q' (plug1 (Frame true m bm lm) Leaf)))); [|apply rt_plug1].
    apply holds_up, holds_plug. exact HT. }
  apply follows_check.
  { replace (pid (Some p) q') with (pid None (q' ++ Frame false p b r :: q)) by now destruct q'.
    apply (check_parent_ok _ _ _ _ HT), rt_plug1. }
  apply holds_parts in HT as [HT Hnd]. pose proof (disjoint_nodup _ _ _ _ _ _ _ _ Hnd) as Hd.
  unfold BAVL_swap_nodes. apply (follows_known _ _ _ _ _ _ (pt_p _ _ _ _ _ _ _ _ _ HT)), (follows_known _ _ _ _ _ _ (pt_m _ _ _ _ _ _ _ _ _ HT)).
  cbn [parent]. apply follows_bind.
  - destruct (points_to (pid (Some p) q') p) eqn:E.
    + apply bool_decide_eq_true in E. destruct q' as [|[s k kb sk] q']; [exact (swap_connected_follows _ _ _ _ _ _ _ _ HT Hd)|].
      exfalso. destruct Hd as [_ _ _ _ _ (_ & Hp & _)]. cbn in E, Hp. set_solver.
    + replace (points_to (pid None q) m) with false; [exact (swap_apart_follows _ _ _ _ _ _ _ _ _ HT)|].
      symmetry. apply bool_decide_false. destruct Hd as [_ _ _ _ _ _ (Hm & _)]. destruct q as [|[s k kb sk] q]; cbn in *; [done|set_solver].
  - intros [] T1 _. same. intros n1 ? [-> _]%node_done. same. intros n2 ? [-> _]%node_done. now repeat (same; intros [] ? _).
Qed.

Section Operations.
Context {K : Type} (cmp : K -> K -> Z) (value : nat -> K) (ok : K -> Prop) {C : Comparator cmp ok}.

Lemma descend_follows T : forall fuel p c, follows (CAvl_descend cmp value fuel p c) (descend cmp value fuel (value p) c) T.
Proof.
  induction fuel as [|fuel IH]; intros p c; [now intros a T'|]. cbn [CAvl_descend descend].
  unfold CAvl_compare_entries, BAVL_compare_values. apply follows_bind.
  - intros a T'. unfold assert_at, mbind, eff_mbind. set (res := cmp (value p) (value c)).
    destruct (_ || _) eqn:E; [|done].
    replace (-1 <=? res) with true by lia. replace (res <=? 1) with true by lia. done.
  - intros comp T0 E0. assert (T0 = T) as ->.
    { unfold assert_at, mbind, eff_mbind in E0. destruct (_ || _); [now injection E0|done]. }
    destruct (comp =? 0); [apply follows_refl|]. same. intros n T0 [-> _]%node_done.
    destruct (link _ n); [apply IH|apply follows_refl].
Qed.

Lemma insert_follows T l p :
  represents cmp value ok T l -> p ∉ l -> ok (value p) ->
  follows (CAvl_Insert cmp value p) (BAVL_Insert cmp value p) T.
Proof.
  intros (t & HT & Ht & Hl & Ho) Hp Hok. unfold CAvl_Insert, BAVL_Insert. same. intros t0 T0 [= <- <-].
  rewrite (holds_root _ _ _ HT). cbn [top]. destruct (rt t) as [c|] eqn:Et; [|apply follows_refl].
  apply follows_bind; [apply descend_follows|]. intros found T0 E0. rewrite <- Hl in *.
  destruct (eff_at _ _ _ _ _ (find_ok cmp value ok _ _ _ _ Hok HT Et Ho) E0) as [-> H].
  destruct found as [j|[j s]]; [apply follows_refl|]. destruct H as (q & b' & sib & H1 & H2 & _). cbn zeta in *.
  assert (Hp' : p ∉ path_ids (Frame s j b' sib :: q)).
  { intros Hin. apply Hp. rewrite <- H2, ids_plug_perm, app_nil_r. exact Hin. }
  rewrite <- H2 in Ht. apply avl_path in Ht as [_ Hpath].
  same. intros [] T1 E1. same. intros [] T2 E2.
  assert (HT2 : holds T2 (Frame s j b' sib :: q) (Br Leaf p 0 Leaf)).
  { refine (eff_at (set_node 557 j (with_link s (Some p)) ;; upd_st (fun t => Tree (root t) (<[p := Node (Some j) None None 0]> (memory t))) ;; mret tt)
      (fun _ T' => holds T' (Frame s j b' sib :: q) (Br Leaf p 0 Leaf)) T tt T2 _ _).
    - eapply (insert_leaf cmp value ok); [exact H1|exact Hp'|]. intros T' HT'. now step_eff.
    - unfold mbind, eff_mbind. rewrite E1, E2. done. }
  apply follows_bind; [|intros [] T3 _; apply follows_refl].
  apply (rebalance_follows _ _ _ _ _ _ _ _ 0 1 HT2); [cbn; lia|exact Hpath|done|lia].
Qed.

(** The part of [CAvl_Remove] that takes a node with at most one child out of the tree. *)
Lemma unhook_follows fuel T q s p b X :
  holds T q (plug1 (Frame s p b Leaf) X) -> avl (plug q (plug1 (Frame s p b Leaf) X)) ->
  follows
    (n ← node 613 p;
     assert_at 613 (match link0 n, link1 n with Some _, Some _ => false | _, _ => true end) ;;
     let child := match link0 n with Some c => Some c | None => link1 n end in
     match parent n with
     | Some q =>
         qn ← node 619 q;
         let side := points_to (link1 qn) p in
         CAvl_replace_subtree p child (parent n) ;; CAvl_rebalance fuel q side (-1)
     | None => CAvl_replace_subtree p child (parent n)
     end)
    (n ← node 597 p;
     assert_at 597 (match link0 n, link1 n with Some _, Some _ => false | _, _ => true end) ;;
     let child := match link0 n with Some c => Some c | None => link1 n end in
     match parent n with
     | Some q =>
         qn ← node 604 q;
         let side := points_to (link1 qn) p in
         BAVL_replace_subtree p child ;; BAVL_rebalance fuel q side (-1)
     | None => BAVL_replace_subtree p child
     end) T.
Proof.
  intros HT Ha. destruct (holds_at _ _ _ _ _ _ _ HT) as (n & En & Hn & Hl & Hl' & _).
  apply avl_path in Ha as [Ht Hpath]. apply avl_plug1 in Ht as (HX & _ & _). rewrite height_plug1 in Hpath. cbn [height] in Hpath.
  pose proof (height_nonneg X) as Hpos.
  assert (Hchild : match link0 n with Some c => Some c | None => link1 n end = rt X).
  { destruct s; cbn in Hl, Hl'; rewrite Hl, Hl'; [done|now destruct (rt X)]. }
  same_node En. same. intros [] T0 [-> _]%assert_done. cbn zeta. rewrite Hchild, Hn.
  pose proof (replace_follows _ _ _ _ _ _ HT) as Hrep. destruct q as [|[s' i' b' sib'] q]; cbn [pid fid] in *; [done|].
  destruct (holds_path _ _ _ HT) as (Ei & _). same_node Ei. cbn [link1]. replace (rt (if s then _ else _)) with (Some p) by now destruct s.
  replace (points_to (if s' then Some p else rt sib') p) with s'.
  - apply follows_bind; [done|]. intros [] T1 E1. pose proof (eff_at _ _ _ _ _ (replace_ok _ _ _ _ _ _ HT) E1) as HT1. cbn beta in HT1.
    apply (rebalance_follows _ _ _ _ _ _ _ _ (1 + Z.max (height X) 0) (-1) HT1); [done|exact Hpath|lia|lia].
  - destruct s'; [symmetry; now apply bool_decide_true|]. symmetry. apply not_root. intros Hin.
    pose proof (holds_nodup _ _ _ HT) as H. cbn [path_ids frame_ids app] in H. rewrite ids_plug1 in H. cbn in H.
    apply NoDup_cons in H as [_ H]. apply NoDup_app in H as (_ & H & _). set_solver.
Qed.

Lemma exchange_follows T q tl p b tr :
  holds T q (Br tl p b tr) ->
  follows
    (match rt tl, rt tr with
     | Some l, Some _ => max ← CAvl_subtree_max (depth T) l; e ← node 610 max; CAvl_swap_for_remove p max (pid None q) (parent e)
     | _, _ => mret tt
     end)
    (match rt tl, rt tr with Some l, Some _ => max ← BAVL_subtree_max (depth T) l; BAVL_swap_nodes p max | _, _ => mret tt end) T.
Proof.
  intros HT. destruct (rt tl) as [l|] eqn:El; [|apply follows_refl]. destruct (rt tr) as [r|]; [|apply follows_refl].
  apply follows_bind; [apply subtree_max_follows|]. intros m T0 Em. apply (holds_up T (Frame false p b tr)) in HT.
  pose proof (holds_size _ _ _ HT) as Hsize. unfold BAVL_subtree_max in Em.
  assert (Hfuel : (length (ids tl) <= depth T)%nat) by (unfold depth; lia).
  destruct (eff_at _ _ _ _ _ (subtree_end_ok true tl _ T _ l HT El Hfuel) Em) as (-> & q' & bm & lm & H1 & _). cbn zeta in H1.
  destruct (holds_at _ _ _ _ _ _ _ H1) as (e & Ee & He & _).
  apply (follows_read _ _ _ _ _ _ Ee). rewrite He. replace (pid None (q' ++ Frame false p b tr :: q)) with (pid (Some p) q') by now destruct q'.
  exact (swap_follows _ _ _ _ _ _ _ _ _ H1).
Qed.

Lemma remove_follows T l p :
  represents cmp value ok T l -> p ∈ l -> follows (CAvl_Remove p) (BAVL_Remove p) T.
Proof.
  intros (t & HT & Ht & <- & Ho) Hp. destruct (ids_position _ _ Hp) as (q & tl & b & tr & ->).
  apply holds_all in HT. pose proof (holds_tree _ _ _ HT) as (En & _). unfold CAvl_Remove, BAVL_Remove.
  same. intros t0 T0 [= <- <-].
  assert (Hr : BAVL_IsEmpty T = false).
  { unfold BAVL_IsEmpty. rewrite (holds_root _ _ _ HT). cbn [rt]. clear. revert p. induction q as [|f q IH]; intros p; cbn; [done|]. apply IH. }
  rewrite Hr. apply follows_holding.
  same_node En. cbn [link0 link1 parent]. apply follows_bind; [exact (exchange_follows _ _ _ _ _ _ HT)|].
  intros [] T1 E1.
  assert (H : exists q1 s1 b1 X, holds T1 q1 (plug1 (Frame s1 p b1 Leaf) X) /\ avl (plug q1 (plug1 (Frame s1 p b1 Leaf) X))).
  { refine (eff_at _ (fun (_ : unit) T1 => exists q1 s1 b1 X, holds T1 q1 (plug1 (Frame s1 p b1 Leaf) X) /\ avl (plug q1 (plug1 (Frame s1 p b1 Leaf) X))) _ tt T1
      (remove_step T q tl p b tr _ (mret tt) HT Ht _) _).
    - intros T2 q1 s1 b1 X H1 H2 _ _. step_eff. eauto 10.
    - unfold mbind at 1, eff_mbind at 1. rewrite E1. done. }
  destruct H as (q1 & s1 & b1 & X & H1 & H2). exact (unhook_follows _ _ _ _ _ _ _ H1 H2).
Qed.

(** ** Sequences of operations *)

Fixpoint run_cavl_ops (l : list op) : eff BAVL (list Z) :=
  match l with
  | [] => mret []
  | OpInsert p :: l => r ← CAvl_Insert cmp value p; rs ← run_cavl_ops l; mret (fst r :: rs)
  | OpRemove p :: l => CAvl_Remove p ;; run_cavl_ops l
  end.

Lemma cavl_ops_follow l : forall S T nodes,
  permitted cmp value ok l S -> S ≡ₚ nodes -> NoDup S -> represents cmp value ok T nodes ->
  follows (run_cavl_ops l) (run_ops cmp value l) T.
Proof.
  induction l as [|[p|p] l IH]; intros S T nodes Hl HS Hnd HT; cbn [run_cavl_ops run_ops permitted] in *; [apply follows_refl| |].
  - destruct Hl as (Hp & Hok & Hl). assert (Hp' : p ∉ nodes) by now rewrite <- HS.
    apply follows_bind; [exact (insert_follows _ _ _ HT Hp' Hok)|]. intros [r ref] T' E.
    apply follows_bind; [|intros rs T2 _; apply follows_refl].
    destruct (eff_at _ _ _ _ _ (insert_ok cmp value ok T nodes p HT Hp' Hok) E) as [(_ & l1 & l2 & E1 & Hb & HT')|(_ & -> & j & _ & Hj & Hc)].
    + rewrite (clashes_between cmp value p S l1 l2) in Hl by (done || congruence).
      apply (IH (p :: S) T' (l1 ++ p :: l2)); [done| |now constructor|done]. rewrite HS, E1. apply Permutation_middle.
    + replace (clashes cmp value p S) with true in Hl; [exact (IH S T nodes Hl HS Hnd HT)|].
      symmetry. apply clashes_spec. exists j. now rewrite HS.
  - destruct Hl as (Hp & Hl). assert (Hp' : p ∈ nodes) by now rewrite <- HS.
    apply follows_bind; [exact (remove_follows _ _ _ HT Hp')|]. intros [] T' E.
    destruct (eff_at _ _ _ _ _ (remove_ok cmp value ok T nodes p HT Hp') E) as (l1 & l2 & -> & HT').
    apply (IH (filter (fun j => j <> p) S) T' (l1 ++ l2)); [done|now apply filter_middle|now apply NoDup_filter|done].
Qed.

(** C25. The two AVL trees of the program are equivalent. Any sequence of insertions and removals within the
    contract leaves the tree of [CAvl_impl.h] with the results and, pointer by pointer, the memory
    of that of [BAVL.h], all its assertions hold, and the first entry is the least. *)
Theorem cavl_same_as_bavl (l : list op) :
  permitted cmp value ok l [] ->
  exists rs T nodes,
    run_cavl_ops l CAvl_Init = Done rs T /\ run_ops cmp value l BAVL_Init = Done rs T /\
    rs = fst (set_ops cmp value l []) /\ snd (set_ops cmp value l []) ≡ₚ nodes /\ ordered cmp value ok nodes /\
    CAvl_GetFirst T = Done (head nodes) T.
Proof.
  intros Hl. destruct (eff_done _ _ _ (run_ops_ok cmp value ok l [] _ _ Hl (Permutation_refl _) NoDup_nil_2 (init_represents cmp value ok)))
    as (rs & T & E & Hrs & _ & nodes & HT & Hn).
  exists rs, T, nodes. split; [exact (cavl_ops_follow l [] _ _ Hl (Permutation_refl _) NoDup_nil_2 (init_represents cmp value ok) _ _ E)|].
  split; [exact E|]. split; [exact Hrs|]. split; [exact Hn|]. split; [now destruct HT as (t & _ & _ & _ & Ho)|].
  destruct (eff_done _ _ _ (get_end_ok cmp value ok false _ _ HT)) as (r & T' & Er & -> & ->).
  exact (get_first_follows T _ _ Er).
Qed.

End Operations.

Lemma cavl_same_as_bavl_witness :
  permitted cmp_nat demo_value (fun _ => True) demo_ops [] /\
  exists T, run_cavl_ops cmp_nat demo_value demo_ops CAvl_Init = Done [1; 1; 1; 1; 1; 1; 1; 0] T.
Proof.
  assert (Hp : permitted cmp_nat demo_value (fun _ => True) demo_ops []).
  { unfold demo_ops. cbn [map seq app permitted]. repeat (split; [apply (bool_decide_unpack _); vm_compute; reflexivity|]).
    split. }
  split; [exact Hp|]. destruct (cavl_same_as_bavl cmp_nat demo_value (fun _ => True) demo_ops Hp) as (rs & T & nodes & E & _ & -> & _).
  exists T. exact E.
Defined.
