(* ===== verification/TimersTree.v ===== *)
(** * The tree of the timers

    What the reactor relies on of the tree its timers are kept in, as a class, and the
    AVL tree of [CAvl_impl.h] as its instance. A timer is known by its address; the
    value it is ordered by is read from the timer. *)

From stdpp Require Import sorting.
From S2P Require Import Prelude Effect BAddr BAVL BAVLRep BAVLBal BAVLFind BAVLRemove BAVLFacts ConnTree CAvl CAvlFacts.

Open Scope Z_scope.

(** [compare_timers]: by time, and by address when the times are equal. *)
Definition compare_timers (t1 t2 : Z * Z) : Z :=
  let cmp := B_COMPARE (fst t1) (fst t2) in
  if negb (cmp =? 0) then cmp else B_COMPARE (snd t1) (snd t2).

(** The outer option of a result is a fault of the tree. *)
Class TimersTree (T : Type) := {
  tt_init : T;
  tt_first : T -> option (option nat);
  tt_insert : (nat -> Z * Z) -> nat -> T -> option (bool * T);
  tt_remove : nat -> T -> option T;
}.

Definition before (value : nat -> Z * Z) (i j : nat) : Prop := compare_timers (value i) (value j) = -1.

(** [tt_nodes value t l]: the tree has the timers [l], in order. *)
Class TimersTreeLaws (T : Type) `{!TimersTree T} := {
  tt_nodes : (nat -> Z * Z) -> T -> list nat -> Prop;
  tt_sorted value t l : tt_nodes value t l -> StronglySorted (before value) l;
  tt_ext value value' t l : (forall i, i ∈ l -> value i = value' i) -> tt_nodes value t l -> tt_nodes value' t l;
  tt_init_ok value : tt_nodes value tt_init [];
  tt_first_ok value t l : tt_nodes value t l -> tt_first t = Some (head l);
  tt_insert_ok value t l p :
    tt_nodes value t l -> p ∉ l -> (forall j, j ∈ l -> value j <> value p) ->
    exists t' l1 l2, tt_insert value p t = Some (true, t') /\ l = l1 ++ l2 /\ tt_nodes value t' (l1 ++ p :: l2);
  tt_remove_ok value t l p :
    tt_nodes value t l -> p ∈ l ->
    exists t' l1 l2, tt_remove p t = Some t' /\ l = l1 ++ p :: l2 /\ tt_nodes value t' (l1 ++ l2);
}.

(** ** The order *)

Lemma compare_timers_cases t1 t2 :
  (compare_timers t1 t2 = -1 /\ (fst t1 < fst t2 \/ fst t1 = fst t2 /\ snd t1 < snd t2)) \/
  (compare_timers t1 t2 = 0 /\ t1 = t2) \/
  (compare_timers t1 t2 = 1 /\ (fst t2 < fst t1 \/ fst t1 = fst t2 /\ snd t2 < snd t1)).
Proof.
  destruct t1 as [a1 b1], t2 as [a2 b2]. unfold compare_timers. cbn [fst snd].
  destruct (B_COMPARE_cases a1 a2) as [(H & ->)|[(-> & ->)|(H & ->)]]; cbn; [lia| |lia].
  destruct (B_COMPARE_cases b1 b2) as [(H & ->)|[(-> & ->)|(H & ->)]]; [lia|auto|lia].
Qed.

Lemma before_time value i j : before value i j -> fst (value i) <= fst (value j).
Proof. unfold before. destruct (compare_timers_cases (value i) (value j)) as [(_ & H)|[(E & _)|(E & _)]]; [lia|congruence|congruence]. Qed.

#[export] Instance timers_order : Comparator compare_timers (fun _ => True).
Proof.
  split.
  - intros a b _ _. destruct (compare_timers_cases a b) as [(? & _)|[(? & _)|(? & _)]]; auto.
  - intros a b _ _. pose proof (compare_timers_cases b a) as H.
    destruct (compare_timers_cases a b) as [(-> & ?)|[(-> & ?)|(-> & ?)]], H as [(-> & ?)|[(-> & ?)|(-> & ?)]]; subst; lia.
  - intros a b c _ _ _ H1 H2. destruct (compare_timers_cases a b) as [(_ & ?)|[(? & _)|(? & _)]]; [|congruence|congruence].
    destruct (compare_timers_cases b c) as [(_ & ?)|[(? & _)|(? & _)]]; [|congruence|congruence].
    destruct (compare_timers_cases a c) as [(-> & _)|[(_ & ->)|(_ & ?)]]; [done|lia|lia].
  - intros a b c _ _ _. destruct (compare_timers_cases a b) as [(? & _)|[(_ & ->)|(? & _)]]; [congruence|done|congruence].
Qed.

(** ** The AVL tree *)

#[export] Instance cavl_timers : TimersTree BAVL := {
  tt_init := CAvl_Init;
  tt_first t := fst <$> result (CAvl_GetFirst t);
  tt_insert value p t := (fun r => (fst (fst r) =? 1, snd r)) <$> result (CAvl_Insert compare_timers value p t);
  tt_remove p t := snd <$> result (CAvl_Remove p t);
}.

Lemma timers_ordered_ext (value value' : nat -> Z * Z) l :
  (forall i, i ∈ l -> value i = value' i) ->
  ordered compare_timers value (fun _ => True) l -> ordered compare_timers value' (fun _ => True) l.
Proof.
  induction l as [|i l IH]; intros E; [intros _; split; constructor|]. rewrite !ordered_cons. intros (H1 & H2 & H3).
  rewrite <- (E i) by set_solver. split; [done|]. split; [apply IH; [set_solver|done]|].
  intros j Hj. rewrite <- (E j) by set_solver. auto.
Qed.

#[export] Program Instance cavl_timers_laws : TimersTreeLaws BAVL := {
  tt_nodes value t l := represents compare_timers value (fun _ => True) t l;
}.
Next Obligation. intros value t l (tr & _ & _ & _ & [H _]). exact H. Qed.
Next Obligation.
  intros value value' t l E (tr & H2 & H3 & H4 & H5). exists tr. split; [done|]. split; [done|]. split; [done|].
  exact (timers_ordered_ext value value' l E H5).
Qed.
Next Obligation. intros value. apply (init_represents compare_timers value (fun _ => True)). Qed.
Next Obligation.
  intros value t l HT. destruct (eff_done _ _ _ (get_end_ok compare_timers value (fun _ => True) false _ _ HT)) as (r & T' & Er & -> & ->).
  cbn. now rewrite (get_first_follows t _ _ Er).
Qed.
Next Obligation.
  intros value t l p HT Hp Hne.
  destruct (eff_done _ _ _ (insert_ok compare_timers value (fun _ => True) t l p HT Hp I))
    as ([r ref] & t' & E & [(Er & l1 & l2 & E1 & _ & H3)|(_ & _ & j & _ & Hj & Hc)]).
  - cbn in Er. subst r. exists t', l1, l2. cbn. rewrite (insert_follows _ _ _ _ _ _ HT Hp I _ _ E). auto.
  - destruct (Hne j Hj). destruct (compare_timers_cases (value p) (value j)) as [(E2 & _)|[(_ & ->)|(E2 & _)]]; [congruence|done|congruence].
Qed.
Next Obligation.
  intros value t l p HT Hp.
  destruct (eff_done _ _ _ (remove_ok compare_timers value (fun _ => True) t l p HT Hp)) as ([] & t' & E & l1 & l2 & E1 & H3).
  exists t', l1, l2. cbn. rewrite (remove_follows _ _ _ _ _ _ HT Hp _ _ E). auto.
Qed.
