(* ===== verification/Reactor.v ===== *)
(** * The event loop ([badvpn/system/BReactor_badvpn.c])

    The reactor runs jobs, timers and events of file descriptors, in this order of
    priority, and waits when there is nothing to run; the branch for [epoll] is
    compiled. Objects are known by their addresses. The array of results of
    [epoll_wait] and the pointers from descriptors back into it are kept, because
    descriptors are removed while results wait; a doubly linked list is the list of
    its objects, removal from it deletes the object.

    A handler is what it does to the reactor, a list of [act]s, and may be different every
    time it is called. The clock and [epoll_wait] are answered by [answer]s. Failed assertions,
    overflow of the time and pointers to nothing are faults. *)

From S2P Require Import Prelude Effect BPending BAddr TimersTree.

Open Scope Z_scope.

Module Reactor.

Definition BREACTOR_READ : Z := 1.
Definition BREACTOR_WRITE : Z := 2.
Definition BREACTOR_ERROR : Z := 4.
Definition BREACTOR_HUP : Z := 8.
Definition EPOLLIN : Z := 1.
Definition EPOLLOUT : Z := 4.
Definition EPOLLERR : Z := 8.
Definition EPOLLHUP : Z := 16.
Definition BSYSTEM_MAX_RESULTS : Z := 64.
Definition INT_MAX : Z := 2 ^ 31 - 1.
Definition INT64_MIN : Z := - 2 ^ 63.
Definition INT64_MAX : Z := 2 ^ 63 - 1.

(** [(events & mask)] as a condition. *)
Definition has (events mask : Z) : bool := negb (Z.land events mask =? 0).

(** ** Time *)

(** [add_int64_overflows] *)
Definition add_int64_overflows (a b : Z) : Z :=
  if xorb (a <? 0) (b <? 0) then 0
  else if a <? 0 then - Z.b2z (a <? INT64_MIN - b)
  else Z.b2z (a >? INT64_MAX - b).

Definition btime_add (t1 t2 : Z) : Z :=
  let overflows := add_int64_overflows t1 t2 in
  if negb (overflows =? 0) then (if overflows >? 0 then INT64_MAX else INT64_MIN) else t1 + t2.

(** ** State *)

Inductive timer_state := TIMER_STATE_INACTIVE | TIMER_STATE_RUNNING | TIMER_STATE_EXPIRED.

#[export] Instance timer_state_eq_dec : EqDecision timer_state.
Proof. solve_decision. Defined.

(** [BSmallTimer] *)
Record timer := Timer { absTime : Z; state : timer_state }.

(** [BFileDescriptor]; [epoll_returned_ptr] is the index of the entry it points into. *)
Record descriptor := Descriptor { active : bool; waitEvents : Z; epoll_returned_ptr : option nat }.

(** [BReactorLimit] *)
Record limit := Limit { max : Z; count : Z }.

(** [struct epoll_event] *)
Record epoll_event := Event { data_ptr : option nat; events : Z }.

(** What the loop does: it calls handlers, for a timer with the time it was set to, and it waits with a
    timeout until some time or finds that it need not wait. *)
Inductive dispatched :=
  | RunJob (job : nat)
  | RunTimer (t : nat) (time : Z)
  | RunFd (fd : nat) (events : Z)
  | Wait (timeout : Z) (until : Z)
  | Look (now : Z).

(** [BReactor]. The results are the first [epoll_results_num] of the array. *)
Record reactor {T : Type} := Make {
  exiting : bool;
  exit_code : Z;
  pending_jobs : list nat;
  timers : gmap nat timer;
  timers_tree : T;
  timers_expired_list : list nat;
  limits : gmap nat limit;
  active_limits_list : list nat;
  fds : gmap nat descriptor;
  epoll_results : list epoll_event;
  epoll_results_pos : nat;
  trace : list dispatched;
}.
Arguments reactor T : clear implicits.

Section Operations.
Context {T : Type} `{!TimersTree T}.
Notation R := (reactor T).
Implicit Types (r : R).

Definition with_exit (code : Z) r : R :=
  Make _ true code (pending_jobs r) (timers r) (timers_tree r) (timers_expired_list r) (limits r) (active_limits_list r) (fds r) (epoll_results r) (epoll_results_pos r) (trace r).
Definition with_jobs (f : list nat -> list nat) r : R :=
  Make _ (exiting r) (exit_code r) (f (pending_jobs r)) (timers r) (timers_tree r) (timers_expired_list r) (limits r) (active_limits_list r) (fds r) (epoll_results r) (epoll_results_pos r) (trace r).
Definition with_timers (f : gmap nat timer -> gmap nat timer) r : R :=
  Make _ (exiting r) (exit_code r) (pending_jobs r) (f (timers r)) (timers_tree r) (timers_expired_list r) (limits r) (active_limits_list r) (fds r) (epoll_results r) (epoll_results_pos r) (trace r).
Definition with_tree (t : T) r : R :=
  Make _ (exiting r) (exit_code r) (pending_jobs r) (timers r) t (timers_expired_list r) (limits r) (active_limits_list r) (fds r) (epoll_results r) (epoll_results_pos r) (trace r).
Definition with_expired (f : list nat -> list nat) r : R :=
  Make _ (exiting r) (exit_code r) (pending_jobs r) (timers r) (timers_tree r) (f (timers_expired_list r)) (limits r) (active_limits_list r) (fds r) (epoll_results r) (epoll_results_pos r) (trace r).
Definition with_limits (f : gmap nat limit -> gmap nat limit) r : R :=
  Make _ (exiting r) (exit_code r) (pending_jobs r) (timers r) (timers_tree r) (timers_expired_list r) (f (limits r)) (active_limits_list r) (fds r) (epoll_results r) (epoll_results_pos r) (trace r).
Definition with_active_limits (f : list nat -> list nat) r : R :=
  Make _ (exiting r) (exit_code r) (pending_jobs r) (timers r) (timers_tree r) (timers_expired_list r) (limits r) (f (active_limits_list r)) (fds r) (epoll_results r) (epoll_results_pos r) (trace r).
Definition with_fds (f : gmap nat descriptor -> gmap nat descriptor) r : R :=
  Make _ (exiting r) (exit_code r) (pending_jobs r) (timers r) (timers_tree r) (timers_expired_list r) (limits r) (active_limits_list r) (f (fds r)) (epoll_results r) (epoll_results_pos r) (trace r).
Definition with_results (l : list epoll_event) (pos : nat) r : R :=
  Make _ (exiting r) (exit_code r) (pending_jobs r) (timers r) (timers_tree r) (timers_expired_list r) (limits r) (active_limits_list r) (fds r) l pos (trace r).
Definition with_trace (e : dispatched) r : R :=
  Make _ (exiting r) (exit_code r) (pending_jobs r) (timers r) (timers_tree r) (timers_expired_list r) (limits r) (active_limits_list r) (fds r) (epoll_results r) (epoll_results_pos r) (trace r ++ [e]).

(** [BReactor_Init], when [epoll_create] succeeds. *)
Definition BReactor_Init : R := Make _ false 0 [] ∅ tt_init [] ∅ [] ∅ [] 0 [].

(** ** Access to the objects *)

Definition the_timer (line : Z) (t : nat) : eff R timer :=
  r ← get_st; match timers r !! t with Some x => mret x | None => bad line end.
Definition set_timer (t : nat) (x : timer) : eff R unit := upd_st (with_timers <[t := x]>).

Definition the_fd (line : Z) (f : nat) : eff R descriptor :=
  r ← get_st; match fds r !! f with Some x => mret x | None => bad line end.
Definition set_fd (f : nat) (x : descriptor) : eff R unit := upd_st (with_fds <[f := x]>).

Definition the_limit (line : Z) (l : nat) : eff R limit :=
  r ← get_st; match limits r !! l with Some x => mret x | None => bad line end.
Definition set_limit (l : nat) (x : limit) : eff R unit := upd_st (with_limits <[l := x]>).

Definition lift {A} (line : Z) (x : option A) : eff R A := match x with Some a => mret a | None => bad line end.

(** What a timer is ordered by. *)
Definition timer_value r (t : nat) : Z * Z :=
  (match timers r !! t with Some x => absTime x | None => 0 end, Z.of_nat t).

(** [BReactor__TimersTree_GetFirst], [_Insert] and [_Remove] *)
Definition tree_GetFirst (line : Z) : eff R (option nat) := r ← get_st; lift line (tt_first (timers_tree r)).

Definition tree_Insert (line : Z) (t : nat) : eff R bool :=
  r ← get_st;
  res ← lift line (tt_insert (timer_value r) t (timers_tree r));
  upd_st (with_tree (snd res)) ;;
  mret (fst res).

Definition tree_Remove (line : Z) (t : nat) : eff R unit :=
  r ← get_st;
  tree ← lift line (tt_remove t (timers_tree r));
  upd_st (with_tree tree).

(** ** Timers *)

(** The steps that lines 96 to 103 of [move_expired_timers] and lines 119 to 126 and 139 to 146 of
    [move_first_timers] have in common. *)
Definition expire (line : Z) (t : nat) : eff R unit :=
  x ← the_timer line t;
  tree_Remove line t ;;
  upd_st (with_expired (fun l => l ++ [t])) ;;
  set_timer t (Timer (absTime x) TIMER_STATE_EXPIRED).

(** The loop that [fuel] bounds: there are no more timers in the tree than timers. *)
Fixpoint move_loop (line : Z) (fuel : nat) (now : Z) (first : option Z) : eff R bool :=
  t ← tree_GetFirst line;
  match t, fuel with
  | None, _ => mret false
  | Some _, O => bad line
  | Some t, S fuel =>
      x ← the_timer line t;
      assert_at line (bool_decide (state x = TIMER_STATE_RUNNING)) ;;
      assert_at line (match first with Some f => f <=? absTime x | None => true end) ;;
      if absTime x >? now then mret false
      else
        expire line t ;;
        move_loop line fuel now first ;;
        mret true
  end.

Definition move_expired_timers (now : Z) : eff R bool :=
  r ← get_st;
  move_loop 87 (size (timers r)) now None.

Definition move_first_timers : eff R unit :=
  t ← tree_GetFirst 114;
  t ← lift 115 t;
  x ← the_timer 116 t;
  assert_at 116 (bool_decide (state x = TIMER_STATE_RUNNING)) ;;
  let first_time := absTime x in
  expire 119 t ;;
  r ← get_st;
  move_loop 130 (size (timers r)) first_time (Some first_time) ;;
  mret tt.

Definition BSmallTimer_Init (t : nat) : eff R unit := set_timer t (Timer 0 TIMER_STATE_INACTIVE).

Definition BSmallTimer_IsRunning (t : nat) : eff R bool :=
  x ← the_timer 573 t;
  mret (negb (bool_decide (state x = TIMER_STATE_INACTIVE))).

Definition BReactor_RemoveSmallTimer (t : nat) : eff R unit :=
  x ← the_timer 1026 t;
  match state x with
  | TIMER_STATE_INACTIVE => mret tt
  | TIMER_STATE_EXPIRED =>
      upd_st (with_expired (filter (fun j => j <> t))) ;;
      set_timer t (Timer (absTime x) TIMER_STATE_INACTIVE)
  | TIMER_STATE_RUNNING =>
      tree_Remove 1038 t ;;
      set_timer t (Timer (absTime x) TIMER_STATE_INACTIVE)
  end.

(** [BReactor_SetSmallTimer]; [relative] is the mode and [now] the result of [btime_gettime]. *)
Definition BReactor_SetSmallTimer (t : nat) (relative : bool) (time now : Z) : eff R unit :=
  BReactor_RemoveSmallTimer t ;;
  let time := if relative then btime_add now time else time in
  set_timer t (Timer time TIMER_STATE_RUNNING) ;;
  res ← tree_Insert 1020 t;
  assert_at 1021 res.

Definition BReactor_SetTimer (t : nat) (msTime now : Z) : eff R unit := BReactor_SetSmallTimer t true msTime now.
Definition BReactor_SetTimerAfter (t : nat) (after now : Z) : eff R unit := BReactor_SetSmallTimer t true after now.
Definition BReactor_SetTimerAbsolute (t : nat) (time : Z) : eff R unit := BReactor_SetSmallTimer t false time 0.
Definition BReactor_RemoveTimer (t : nat) : eff R unit := BReactor_RemoveSmallTimer t.

(** ** File descriptors *)

Definition BFileDescriptor_Init (f : nat) : eff R unit := set_fd f (Descriptor false 0 None).

(** [added] is the result of [epoll_ctl]. *)
Definition BReactor_AddFileDescriptor (f : nat) (added : bool) : eff R bool :=
  x ← the_fd 1091 f;
  assert_at 1091 (negb (active x)) ;;
  if negb added then mret false
  else set_fd f (Descriptor true 0 None) ;; mret true.

Definition BReactor_RemoveFileDescriptor (f : nat) : eff R unit :=
  x ← the_fd 1146 f;
  assert_at 1146 (active x) ;;
  set_fd f (Descriptor false (waitEvents x) (epoll_returned_ptr x)) ;;
  match epoll_returned_ptr x with
  | None => mret tt
  | Some i =>
      r ← get_st;
      match epoll_results r !! i with
      | Some e => upd_st (with_results (<[i := Event None (events e)]> (epoll_results r)) (epoll_results_pos r))
      | None => bad 1160
      end
  end.

Definition BReactor_SetFileDescriptorEvents (f : nat) (ev : Z) : eff R unit :=
  x ← the_fd 1201 f;
  assert_at 1201 (active x) ;;
  assert_at 1202 (negb (has ev (Z.lnot (Z.lor BREACTOR_READ BREACTOR_WRITE)))) ;;
  set_fd f (Descriptor (active x) ev (epoll_returned_ptr x)).

(** Entry [i] of the results and those behind it. *)
Fixpoint set_epoll_fd_pointers (i : nat) (l : list epoll_event) : eff R unit :=
  match l with
  | [] => mret tt
  | e :: l =>
      f ← lift 179 (data_ptr e);
      x ← the_fd 181 f;
      assert_at 181 (active x) ;;
      assert_at 182 (match epoll_returned_ptr x with None => true | Some _ => false end) ;;
      set_fd f (Descriptor (active x) (waitEvents x) (Some i)) ;;
      set_epoll_fd_pointers (S i) l
  end.

(** ** Limits *)

Definition BReactorLimit_Init (l : nat) (limit : Z) : eff R unit :=
  assert_at 1243 (limit >? 0) ;;
  set_limit l (Limit limit 0).

Definition BReactorLimit_Free (l : nat) : eff R unit :=
  x ← the_limit 1259 l;
  whenever (count x >? 0) (upd_st (with_active_limits (filter (fun j => j <> l)))) ;;
  upd_st (with_limits (delete l)).

Definition BReactorLimit_Increment (l : nat) : eff R bool :=
  x ← the_limit 1271 l;
  if count x >=? max x then mret false
  else
    set_limit l (Limit (max x) (count x + 1)) ;;
    whenever (count x + 1 =? 1) (upd_st (with_active_limits (fun j => j ++ [l]))) ;;
    mret true.

Definition BReactorLimit_SetLimit (l : nat) (limit : Z) : eff R unit :=
  assert_at 1292 (limit >? 0) ;;
  x ← the_limit 1295 l;
  set_limit l (Limit limit (count x)).

(** Lines 542 to 549. *)
Fixpoint reset_limits (fuel : nat) : eff R unit :=
  r ← get_st;
  match active_limits_list r, fuel with
  | [], _ => mret tt
  | _ :: _, O => bad 544
  | l :: _, S fuel =>
      x ← the_limit 546 l;
      assert_at 546 (count x >? 0) ;;
      set_limit l (Limit (max x) 0) ;;
      upd_st (with_active_limits (filter (fun j => j <> l))) ;;
      reset_limits fuel
  end.

(** ** Waiting *)

(** The result of [epoll_wait], no events on a timeout, and what the clock shows
    afterwards. *)
Inductive wait_result := WaitEvents (l : list (nat * Z)) | WaitInterrupted | WaitFailed.
Record answer := Answer { result : wait_result; clock : Z }.

(** The label [try_again]: whether the wait is over. *)
Definition try_again (timeout_abs : option Z) (now : Z) : eff R bool :=
  match timeout_abs with
  | None => mret false
  | Some abs => if now >=? abs then move_first_timers ;; mret true else mret false
  end.

(** The loop around [epoll_wait]: false when it goes on after the answers given. [timeout_abs] is
    absent unless [have_timeout]. *)
Fixpoint wait_loop (answers : list answer) (timeout_abs : option Z) (now : Z) : eff R bool :=
  match answers with
  | [] => mret false
  | a :: answers =>
      timeout_rel ← match timeout_abs with
                    | None => mret 0
                    | Some abs => assert_at 339 ((INT64_MIN <=? abs - now) && (abs - now <=? INT64_MAX)) ;; mret (abs - now)
                    end;
      let have_timeout := bool_decide (is_Some timeout_abs) in
      let timeout_rel_trunc := if have_timeout && (timeout_rel >? INT_MAX) then INT_MAX else timeout_rel in
      upd_st (with_trace (Wait (if have_timeout then timeout_rel_trunc else -1) (clock a))) ;;
      let again :=
        over ← try_again timeout_abs (clock a);
        if (over : bool) then mret true else wait_loop answers timeout_abs (clock a) in
      match result a with
      | WaitFailed => bad 396
      | WaitInterrupted => again
      | WaitEvents l =>
          let waitres := Z.of_nat (length l) in
          assert_at 399 (negb (waitres =? 0) || have_timeout) ;;
          assert_at 400 (waitres <=? BSYSTEM_MAX_RESULTS) ;;
          if negb (waitres =? 0) || (timeout_rel_trunc =? timeout_rel) then
            (if negb (waitres =? 0) then
               upd_st (with_results (map (fun e => Event (Some (fst e)) (snd e)) l) 0) ;;
               r ← get_st;
               set_epoll_fd_pointers 0 (epoll_results r)
             else move_first_timers) ;;
            mret true
          else again
      end
  end.

(** [wait_for_events]; [now] is the clock when it starts. The result is false when it does not
    return with these answers. *)
Definition wait_for_events (now : Z) (answers : list answer) : eff R bool :=
  r ← get_st;
  assert_at 276 (bool_decide (pending_jobs r = [])) ;;
  assert_at 277 (bool_decide (timers_expired_list r = [])) ;;
  assert_at 282 (bool_decide (epoll_results_pos r = length (epoll_results r))) ;;
  upd_st (with_results [] 0) ;;
  first_timer ← tree_GetFirst 315;
  wait ← match first_timer return eff R (option (option Z)) with
         | None => mret (Some None)
         | Some t =>
             x ← the_timer 317 t;
             assert_at 317 (bool_decide (state x = TIMER_STATE_RUNNING)) ;;
             upd_st (with_trace (Look now)) ;;
             moved ← move_expired_timers now;
             mret (if (moved : bool) then None else Some (Some (absTime x)))
         end;
  match wait with
  | None => mret true
  | Some timeout_abs =>
      over ← wait_loop answers timeout_abs now;
      if (over : bool) then
        r ← get_st;
        reset_limits (length (active_limits_list r)) ;;
        mret true
      else mret false
  end.

(** ** The loop *)

(** What a handler can do to the reactor. *)
Inductive act :=
  | Quit (code : Z)
  | SetJob (j : nat) | UnsetJob (j : nat)
  | InitTimer (t : nat) | SetTimer (t : nat) (relative : bool) (time now : Z) | RemoveTimer (t : nat)
  | InitFd (f : nat) | AddFd (f : nat) (added : bool) | RemoveFd (f : nat) | SetEvents (f : nat) (ev : Z)
  | InitLimit (l : nat) (n : Z) | FreeLimit (l : nat) | Increment (l : nat) | SetLimit (l : nat) (n : Z).

Definition BReactor_Quit (code : Z) : eff R unit := upd_st (with_exit code).

Definition run_act (a : act) : eff R unit :=
  match a with
  | Quit code => BReactor_Quit code
  | SetJob j => upd_st (with_jobs (BPending_Set j))
  | UnsetJob j => upd_st (with_jobs (BPending_Unset j))
  | InitTimer t => BSmallTimer_Init t
  | SetTimer t relative time now => BReactor_SetSmallTimer t relative time now
  | RemoveTimer t => BReactor_RemoveSmallTimer t
  | InitFd f => BFileDescriptor_Init f
  | AddFd f added => BReactor_AddFileDescriptor f added ;; mret tt
  | RemoveFd f => BReactor_RemoveFileDescriptor f
  | SetEvents f ev => BReactor_SetFileDescriptorEvents f ev
  | InitLimit l n => BReactorLimit_Init l n
  | FreeLimit l => BReactorLimit_Free l
  | Increment l => BReactorLimit_Increment l ;; mret tt
  | SetLimit l n => BReactorLimit_SetLimit l n
  end.

Fixpoint run_acts (l : list act) : eff R unit :=
  match l with [] => mret tt | a :: l => run_act a ;; run_acts l end.

(** The events reported for an entry of the results (lines 844 to 857). *)
Definition reported_events (x : descriptor) (ev : Z) : Z :=
  let e := if has (waitEvents x) BREACTOR_READ && has ev EPOLLIN then BREACTOR_READ else 0 in
  let e := if has (waitEvents x) BREACTOR_WRITE && has ev EPOLLOUT then Z.lor e BREACTOR_WRITE else e in
  let e := if has ev EPOLLERR then Z.lor e BREACTOR_ERROR else e in
  if has ev EPOLLHUP then Z.lor e BREACTOR_HUP else e.

(** What a round of the loop comes to: a handler is called as the last thing, or there is none; false
    when the round waits and does not end with the answers given. *)
Inductive next := Call | Over (b : bool).

(** A round of the loop of [BReactor_Exec] up to the call of a handler. *)
Definition dispatch (now : Z) (answers : list answer) : eff R next :=
  r ← get_st;
  match BPendingGroup_ExecuteJob (pending_jobs r) with
  | Some (j, jobs) =>
      upd_st (with_jobs (fun _ => jobs)) ;;
      upd_st (with_trace (RunJob j)) ;;
      mret Call
  | None =>
      match timers_expired_list r with
      | t :: _ =>
          x ← the_timer 782 t;
          assert_at 782 (bool_decide (state x = TIMER_STATE_EXPIRED)) ;;
          upd_st (with_expired (filter (fun j => j <> t))) ;;
          set_timer t (Timer (absTime x) TIMER_STATE_INACTIVE) ;;
          upd_st (with_trace (RunTimer t (absTime x))) ;;
          mret Call
      | [] =>
          match epoll_results r !! epoll_results_pos r with
          | Some e =>
              upd_st (with_results (epoll_results r) (S (epoll_results_pos r))) ;;
              match data_ptr e with
              | None => mret (Over true)
              | Some f =>
                  x ← the_fd 838 f;
                  assert_at 838 (active x) ;;
                  assert_at 839 (bool_decide (epoll_returned_ptr x = Some (epoll_results_pos r))) ;;
                  set_fd f (Descriptor (active x) (waitEvents x) None) ;;
                  let ev := reported_events x (events e) in
                  if ev =? 0 then mret (Over true)
                  else upd_st (with_trace (RunFd f ev)) ;; mret Call
              end
          | None => over ← wait_for_events now answers; mret (Over over)
          end
      end
  end.

(** A whole round: a handler, if one is called, does [h]. *)
Definition exec_round (h : list act) (now : Z) (answers : list answer) : eff R bool :=
  n ← dispatch now answers;
  match n with
  | Call => run_acts h ;; mret true
  | Over b => mret b
  end.

(** [BReactor_Exec]: the exit code, or nothing when the loop goes on behind the rounds given. *)
Fixpoint BReactor_Exec (rounds : list (list act * (Z * list answer))) : eff R (option Z) :=
  r ← get_st;
  if exiting r then mret (Some (exit_code r))
  else
    match rounds with
    | [] => mret None
    | (h, (now, answers)) :: rounds =>
        over ← exec_round h now answers;
        if (over : bool) then BReactor_Exec rounds else mret None
    end.

(** The assertions of [BReactor_Free]. *)
Definition BReactor_Free : eff R unit :=
  r ← get_st;
  assert_at 711 (bool_decide (pending_jobs r = [])) ;;
  first_timer ← tree_GetFirst 712;
  assert_at 712 (bool_decide (first_timer = None)) ;;
  assert_at 713 (bool_decide (timers_expired_list r = [])) ;;
  assert_at 714 (bool_decide (active_limits_list r = [])).

(** [BReactor_Synchronize]: jobs are executed until [ref] comes first. *)
Fixpoint BReactor_Synchronize (ref : nat) (handlers : list (list act)) : eff R (option Z) :=
  r ← get_st;
  if exiting r then mret (Some 0)
  else
    match BPendingGroup_ExecuteJob (pending_jobs r) with
    | None => bad 1075
    | Some (j, jobs) =>
        if bool_decide (j = ref) then mret (Some 1)
        else
          match handlers with
          | [] => mret None
          | h :: handlers =>
              upd_st (with_jobs (fun _ => jobs)) ;;
              upd_st (with_trace (RunJob j)) ;;
              run_acts h ;;
              BReactor_Synchronize ref handlers
          end
    end.

End Operations.

End Reactor.
