(* ===== verification/ReactorInv.v ===== *)
(** * The invariant of the event loop

    The state of the reactor falls into parts that do not depend on each other: jobs,
    timers, limits and file descriptors. *)

From stdpp Require Import sorting.
From S2P Require Import Prelude Effect BPending BAddr TimersTree Reactor.

Open Scope Z_scope.

Import Reactor.

Section Inv.
Context {T : Type} `{!TimersTree T} {L : TimersTreeLaws T}.
Notation R := (reactor T).
Implicit Types (r : R) (tm : gmap nat timer) (tree : T).

Section Timers.

(** ** Timers *)

Definition tval tm (t : nat) : Z * Z := (match tm !! t with Some x => absTime x | None => 0 end, Z.of_nat t).

Definition in_state tm (s : timer_state) (t : nat) : Prop := state <$> tm !! t = Some s.

(** The latest time that was seen on the clock. *)
Context (seen : Z).

(** The timers of the tree and of the list of expired timers are those in the state that says so, and
    the expired ones are due. *)
Record timers_ok tm tree (exp running : list nat) : Prop := TimersOk {
  to_tree : tt_nodes (tval tm) tree running;
  to_running t : t ∈ running <-> in_state tm TIMER_STATE_RUNNING t;
  to_expired t : t ∈ exp <-> in_state tm TIMER_STATE_EXPIRED t;
  to_sorted : StronglySorted (before (tval tm)) exp;
  to_times t x : tm !! t = Some x -> state x <> TIMER_STATE_INACTIVE -> INT64_MIN <= absTime x <= INT64_MAX;
  to_due t x : tm !! t = Some x -> state x = TIMER_STATE_EXPIRED -> absTime x <= seen;
}.

Lemma before_irrefl value t : ~ before value t t.
Proof.
  unfold before. destruct (compare_timers_cases (value t) (value t)) as [(_ & H)|[(E & _)|(E & _)]]; [lia|rewrite E; done|rewrite E; done].
Qed.

Lemma sorted_nodup value l : StronglySorted (before value) l -> NoDup l.
Proof.
  induction 1 as [|t l _ IH H]; constructor; [|done]. rewrite Forall_forall in H. intros Ht. now apply (before_irrefl value t), H.
Qed.

Lemma tval_inj tm i j : tval tm i = tval tm j -> i = j.
Proof. unfold tval. intros [= _ E]. lia. Qed.

Lemma sorted_ext value value' l :
  (forall t, t ∈ l -> value t = value' t) -> StronglySorted (before value) l -> StronglySorted (before value') l.
Proof.
  induction l as [|t l IH]; intros E H; [constructor|]. apply StronglySorted_inv in H as [H1 H2].
  constructor; [apply IH; [set_solver|done]|]. rewrite Forall_forall in *. intros j Hj. unfold before.
  rewrite <- (E t), <- (E j) by set_solver. now apply H2.
Qed.

Lemma sorted_filter value P `{forall t : nat, Decision (P t)} l :
  StronglySorted (before value) l -> StronglySorted (before value) (filter P l).
Proof.
  induction 1 as [|t l _ IH H1]; [constructor|]. rewrite filter_cons. destruct (decide (P t)); [|done].
  constructor; [done|]. rewrite Forall_forall in *. intros j [_ Hj]%list_elem_of_filter. auto.
Qed.

Lemma in_state_insert tm s t x i :
  in_state (<[t := x]> tm) s i <-> (i = t /\ state x = s) \/ (i <> t /\ in_state tm s i).
Proof.
  unfold in_state. destruct (decide (i = t)) as [->|Hne].
  - rewrite lookup_insert_eq. cbn. split; [intros [= ->]; auto|]. intros [[_ ->]|[? _]]; done.
  - rewrite lookup_insert_ne by done. naive_solver.
Qed.

Lemma in_state_unique tm s s' t : in_state tm s t -> in_state tm s' t -> s = s'.
Proof. unfold in_state. congruence. Qed.

Lemma tval_insert_ne tm t x i : i <> t -> tval (<[t := x]> tm) i = tval tm i.
Proof. intros H. unfold tval. now rewrite lookup_insert_ne. Qed.

Lemma tval_insert_same tm t x y i : tm !! t = Some x -> absTime y = absTime x -> tval (<[t := y]> tm) i = tval tm i.
Proof.
  intros E H. unfold tval. destruct (decide (i = t)) as [->|Hne]; [rewrite lookup_insert_eq, E, H|rewrite lookup_insert_ne by done]; done.
Qed.

(** A running timer leaves the tree. *)
Lemma timers_stop tm tree exp running t x :
  timers_ok tm tree exp running -> tm !! t = Some x -> state x = TIMER_STATE_RUNNING ->
  exists tree' l1 l2, tt_remove t tree = Some tree' /\ running = l1 ++ t :: l2 /\
    timers_ok (<[t := Timer (absTime x) TIMER_STATE_INACTIVE]> tm) tree' exp (l1 ++ l2).
Proof.
  intros [H1 H2 H3 H4 H5 H0] E Es. assert (Ht : t ∈ running) by (apply H2; unfold in_state; rewrite E; cbn; congruence).
  destruct (tt_remove_ok _ _ _ _ H1 Ht) as (tree' & l1 & l2 & Er & -> & H6).
  exists tree', l1, l2. split; [done|]. split; [done|].
  assert (Hnd : t ∉ l1 ++ l2).
  { pose proof (sorted_nodup _ _ (tt_sorted _ _ _ H1)) as Hnd. rewrite <- Permutation_middle in Hnd. now apply NoDup_cons in Hnd as [? _]. }
  split.
  - apply (tt_ext (tval tm)); [|done]. intros i _. symmetry. now apply (tval_insert_same _ _ x).
  - intros i. rewrite in_state_insert, <- H2. cbn. set_solver.
  - intros i. rewrite in_state_insert, <- H3. cbn. split; [|naive_solver]. intros Hi. right. split; [|done]. intros ->.
    apply H3 in Hi. apply H2 in Ht. now pose proof (in_state_unique _ _ _ _ Hi Ht).
  - apply (sorted_ext (tval tm)); [|done]. intros i _. symmetry. now apply (tval_insert_same _ _ x).
  - intros i y [[<- <-]|[Hne Ey]]%lookup_insert_Some; [done|]. exact (H5 i y Ey).
  - intros i y [[<- <-]|[Hne Ey]]%lookup_insert_Some; [cbn; congruence|]. exact (H0 i y Ey).
Qed.

(** An expired timer leaves the list. *)
Lemma timers_drop tm tree exp running t x :
  timers_ok tm tree exp running -> tm !! t = Some x -> state x = TIMER_STATE_EXPIRED ->
  timers_ok (<[t := Timer (absTime x) TIMER_STATE_INACTIVE]> tm) tree (filter (fun j => j <> t) exp) running.
Proof.
  intros [H1 H2 H3 H4 H5 H0] E Es. split.
  - apply (tt_ext (tval tm)); [|done]. intros i _. symmetry. now apply (tval_insert_same _ _ x).
  - intros i. rewrite in_state_insert, <- H2. cbn. split; [|naive_solver]. intros Hi. right. split; [|done]. intros ->.
    apply H2 in Hi. unfold in_state in Hi. rewrite E in Hi. cbn in Hi. congruence.
  - intros i. rewrite in_state_insert, <- H3, list_elem_of_filter. cbn. naive_solver.
  - apply (sorted_ext (tval tm)); [|now apply sorted_filter]. intros i _. symmetry. now apply (tval_insert_same _ _ x).
  - intros i y [[<- <-]|[Hne Ey]]%lookup_insert_Some; [done|]. exact (H5 i y Ey).
  - intros i y [[<- <-]|[Hne Ey]]%lookup_insert_Some; [cbn; congruence|]. exact (H0 i y Ey).
Qed.

Lemma inactive_out tm tree exp running t :
  timers_ok tm tree exp running -> in_state tm TIMER_STATE_INACTIVE t \/ tm !! t = None -> t ∉ running /\ t ∉ exp.
Proof.
  intros H Ht. rewrite (to_running _ _ _ _ H), (to_expired _ _ _ _ H). unfold in_state in *.
  destruct Ht as [Ht|Ht]; rewrite Ht; done.
Qed.

(** A timer that is not linked is overwritten. *)
Lemma timers_reset tm tree exp running t x :
  timers_ok tm tree exp running -> t ∉ running -> t ∉ exp -> state x = TIMER_STATE_INACTIVE ->
  timers_ok (<[t := x]> tm) tree exp running.
Proof.
  intros [H1 H2 H3 H4 H5 H0] Ht Ht' Es. split.
  - apply (tt_ext (tval tm)); [|done]. intros i Hi. symmetry. apply tval_insert_ne. congruence.
  - intros i. rewrite in_state_insert, <- H2. rewrite Es. split; [|naive_solver]. intros Hi. right. split; [congruence|done].
  - intros i. rewrite in_state_insert, <- H3. rewrite Es. split; [|naive_solver]. intros Hi. right. split; [congruence|done].
  - apply (sorted_ext (tval tm)); [|done]. intros i Hi. symmetry. apply tval_insert_ne. congruence.
  - intros i y [[<- <-]|[Hne Ey]]%lookup_insert_Some; [done|]. exact (H5 i y Ey).
  - intros i y [[<- <-]|[Hne Ey]]%lookup_insert_Some; [cbn; congruence|]. exact (H0 i y Ey).
Qed.

(** A timer is set that is not linked. *)
Lemma timers_start tm tree exp running t time :
  timers_ok tm tree exp running -> t ∉ running -> t ∉ exp -> INT64_MIN <= time <= INT64_MAX ->
  let tm' := <[t := Timer time TIMER_STATE_RUNNING]> tm in
  exists tree' l1 l2, tt_insert (tval tm') t tree = Some (true, tree') /\ running = l1 ++ l2 /\
    timers_ok tm' tree' exp (l1 ++ t :: l2).
Proof.
  intros [H1 H2 H3 H4 H5 H0] Ht Ht' Htime tm'.
  assert (H1' : tt_nodes (tval tm') tree running).
  { apply (tt_ext (tval tm)); [|done]. intros i Hi. symmetry. apply tval_insert_ne. congruence. }
  destruct (tt_insert_ok _ _ _ t H1' Ht) as (tree' & l1 & l2 & Ei & -> & H6).
  { intros j Hj E. apply tval_inj in E. congruence. }
  exists tree', l1, l2. split; [done|]. split; [done|]. split.
  - exact H6.
  - intros i. unfold tm'. rewrite in_state_insert, <- H2. cbn. set_solver.
  - intros i. unfold tm'. rewrite in_state_insert, <- H3. cbn. split; [|naive_solver]. intros Hi. right. split; [congruence|done].
  - apply (sorted_ext (tval tm)); [|done]. intros i Hi. symmetry. apply tval_insert_ne. congruence.
  - intros i y [[<- <-]|[Hne Ey]]%lookup_insert_Some; [done|]. exact (H5 i y Ey).
  - intros i y [[<- <-]|[Hne Ey]]%lookup_insert_Some; [cbn; congruence|]. exact (H0 i y Ey).
Qed.

(** The first timer of the tree expires. *)
Lemma timers_expire tm tree exp t running :
  timers_ok tm tree exp (t :: running) -> StronglySorted (before (tval tm)) (exp ++ t :: running) ->
  (forall x, tm !! t = Some x -> absTime x <= seen) ->
  exists x tree', tm !! t = Some x /\ state x = TIMER_STATE_RUNNING /\ tt_remove t tree = Some tree' /\
    let tm' := <[t := Timer (absTime x) TIMER_STATE_EXPIRED]> tm in
    timers_ok tm' tree' (exp ++ [t]) running /\ StronglySorted (before (tval tm')) ((exp ++ [t]) ++ running) /\
    (forall i, tval tm' i = tval tm i).
Proof.
  intros Hok Hs Hdue. pose proof Hok as [H1 H2 H3 H4 H5 H0]. assert (Ht : t ∈ t :: running) by apply list_elem_of_here.
  pose proof (proj1 (H2 t) Ht) as Hst. unfold in_state in Hst. destruct (tm !! t) as [x|] eqn:E; [|done]. injection Hst as Es.
  exists x. destruct (timers_stop _ _ _ _ _ _ Hok E Es) as (tree' & l1 & l2 & Er & El & Hok').
  assert (l1 = [] /\ l2 = running) as [-> ->].
  { destruct l1 as [|t1 l1]; [injection El as ->; done|]. injection El as -> ->.
    pose proof (sorted_nodup _ _ (tt_sorted _ _ _ H1)) as Hnd. apply NoDup_cons in Hnd as [Hn _]. set_solver. }
  exists tree'. split; [done|]. split; [done|]. split; [done|]. cbn zeta.
  assert (Hv : forall i, tval (<[t := Timer (absTime x) TIMER_STATE_EXPIRED]> tm) i = tval tm i) by (intros i; now apply (tval_insert_same _ _ x)).
  assert (Hs' : StronglySorted (before (tval (<[t := Timer (absTime x) TIMER_STATE_EXPIRED]> tm))) ((exp ++ [t]) ++ running)).
  { rewrite <- app_assoc. cbn. apply (sorted_ext (tval tm)); [|done]. intros i _. now rewrite Hv. }
  split; [|done]. destruct Hok' as [G1 G2 G3 G4 G5 G6]. split.
  - apply (tt_ext (tval tm)); [intros i _; now rewrite Hv|].
    apply (tt_ext (tval (<[t := Timer (absTime x) TIMER_STATE_INACTIVE]> tm))); [|done]. intros i _. now apply (tval_insert_same _ _ x).
  - intros i. specialize (G2 i). rewrite in_state_insert in *. cbn in *. naive_solver.
  - intros i. specialize (G3 i). rewrite in_state_insert in *. cbn in *. set_solver.
  - now apply StronglySorted_app in Hs' as (_ & Hs' & _).
  - intros i y [[<- <-]|[Hne Ey]]%lookup_insert_Some; [cbn; intros _; apply (H5 t x E); congruence|]. exact (H5 i y Ey).
  - intros i y [[<- <-]|[Hne Ey]]%lookup_insert_Some; [cbn; intros _; by apply Hdue|]. exact (H0 i y Ey).
Qed.

End Timers.

Lemma timers_later seen seen' tm tree exp running : seen <= seen' -> timers_ok seen tm tree exp running -> timers_ok seen' tm tree exp running.
Proof. intros Hle [H1 H2 H3 H4 H5 H0]. split; auto. intros t x E Es. specialize (H0 t x E Es). lia. Qed.

(** The timers that are set, with their times. *)
Definition armed tm : gmap nat Z :=
  omap (fun x => if bool_decide (state x = TIMER_STATE_INACTIVE) then None else Some (absTime x)) tm.

Lemma armed_lookup tm t :
  armed tm !! t = (tm !! t) ≫= (fun x => if bool_decide (state x = TIMER_STATE_INACTIVE) then None else Some (absTime x)).
Proof. apply lookup_omap. Qed.

Lemma armed_stop tm t x : state x = TIMER_STATE_INACTIVE -> armed (<[t := x]> tm) = delete t (armed tm).
Proof.
  intros Es. apply map_eq. intros i. rewrite armed_lookup. destruct (decide (i = t)) as [->|Hne].
  - rewrite lookup_insert_eq, lookup_delete_eq. cbn. now rewrite bool_decide_true.
  - rewrite lookup_insert_ne, lookup_delete_ne, armed_lookup by done. done.
Qed.

Lemma armed_start tm t x : state x <> TIMER_STATE_INACTIVE -> armed (<[t := x]> tm) = <[t := absTime x]> (armed tm).
Proof.
  intros Es. apply map_eq. intros i. rewrite armed_lookup. destruct (decide (i = t)) as [->|Hne].
  - rewrite !lookup_insert_eq. cbn. now rewrite bool_decide_false.
  - rewrite !lookup_insert_ne, armed_lookup by done. done.
Qed.

(** ** Limits *)

Record limits_ok (lim : gmap nat limit) (act : list nat) : Prop := LimitsOk {
  lo_nodup : NoDup act;
  lo_active l : l ∈ act <-> exists x, lim !! l = Some x /\ 0 < count x;
  lo_count l x : lim !! l = Some x -> 0 <= count x;
}.

(** ** File descriptors *)

(** The entries still to be handled and the descriptors point to each other. *)
Record fds_ok (fd : gmap nat descriptor) (l : list epoll_event) (pos : nat) : Prop := FdsOk {
  fo_pos : (pos <= length l)%nat;
  fo_entry i e f : l !! i = Some e -> (pos <= i)%nat -> data_ptr e = Some f ->
    exists x, fd !! f = Some x /\ active x = true /\ epoll_returned_ptr x = Some i;
  fo_ptr f x i : fd !! f = Some x -> active x = true -> epoll_returned_ptr x = Some i ->
    (pos <= i)%nat /\ exists e, l !! i = Some e /\ data_ptr e = Some f;
}.

(** ** The whole state *)

(** The time an entry of the trace shows. *)
Definition shows (e : dispatched) : Z := match e with Wait _ t | Look t => t | _ => INT64_MIN end.
Definition latest (l : list dispatched) : Z := foldl (fun acc e => Z.max acc (shows e)) INT64_MIN l.

Lemma latest_snoc l e : latest (l ++ [e]) = Z.max (latest l) (shows e).
Proof. unfold latest. now rewrite foldl_app. Qed.

Record inv r : Prop := Inv {
  inv_jobs : NoDup (pending_jobs r);
  inv_timers : exists running, timers_ok (latest (trace r)) (timers r) (timers_tree r) (timers_expired_list r) running;
  inv_limits : limits_ok (limits r) (active_limits_list r);
  inv_fds : fds_ok (fds r) (epoll_results r) (epoll_results_pos r);
}.

Lemma reactor_init_inv : inv BReactor_Init.
Proof.
  split; cbn.
  - constructor.
  - exists []. split.
    + apply tt_init_ok.
    + intros t. unfold in_state. rewrite lookup_empty. split; [now intros ?%elem_of_nil|done].
    + intros t. unfold in_state. rewrite lookup_empty. split; [now intros ?%elem_of_nil|done].
    + constructor.
    + intros t x. now rewrite lookup_empty.
    + intros t x. now rewrite lookup_empty.
  - split; [constructor| |].
    + intros l. rewrite lookup_empty. split; [now intros ?%elem_of_nil|naive_solver].
    + intros l x. now rewrite lookup_empty.
  - split; [done| |].
    + intros i e f. now rewrite lookup_nil.
    + intros f x i. now rewrite lookup_empty.
Qed.

End Inv.
