(* ===== verification/ReactorRun.v ===== *)
(** * What handlers do to the reactor

    The abstract reactor: the jobs that are set, the timers that are set with their
    times, the descriptors that are watched with the events waited for, and the exit
    code. Every function a handler can call keeps the invariant and does to the
    reactor what its specification does to the abstract one. *)

From stdpp Require Import sorting.
From S2P Require Import Prelude Effect BPending BAddr TimersTree Reactor ReactorInv.

Open Scope Z_scope.

Import Reactor.

(** ** The abstract reactor *)

Record spec := Spec {
  sp_jobs : list nat;
  sp_armed : gmap nat Z;
  sp_watched : gmap nat Z;
  sp_exit : option Z;
}.

(** Time saturates. *)
Definition saturate (z : Z) : Z := Z.max INT64_MIN (Z.min INT64_MAX z).

Definition spec_act (a : act) (s : spec) : spec :=
  match a with
  | Quit code => Spec (sp_jobs s) (sp_armed s) (sp_watched s) (Some code)
  | SetJob j => Spec (j :: filter (fun k => k <> j) (sp_jobs s)) (sp_armed s) (sp_watched s) (sp_exit s)
  | UnsetJob j => Spec (filter (fun k => k <> j) (sp_jobs s)) (sp_armed s) (sp_watched s) (sp_exit s)
  | SetTimer t relative time now =>
      Spec (sp_jobs s) (<[t := if relative then saturate (now + time) else time]> (sp_armed s)) (sp_watched s) (sp_exit s)
  | RemoveTimer t => Spec (sp_jobs s) (delete t (sp_armed s)) (sp_watched s) (sp_exit s)
  | AddFd f true => Spec (sp_jobs s) (sp_armed s) (<[f := 0]> (sp_watched s)) (sp_exit s)
  | RemoveFd f => Spec (sp_jobs s) (sp_armed s) (delete f (sp_watched s)) (sp_exit s)
  | SetEvents f ev => Spec (sp_jobs s) (sp_armed s) (<[f := ev]> (sp_watched s)) (sp_exit s)
  | _ => s
  end.

Definition spec_acts (h : list act) (s : spec) : spec := foldl (fun s a => spec_act a s) s h.

Definition watched (fd : gmap nat descriptor) : gmap nat Z :=
  omap (fun x => if active x then Some (waitEvents x) else None) fd.

Lemma watched_lookup fd f :
  watched fd !! f = (fd !! f) ≫= (fun x => if active x then Some (waitEvents x) else None).
Proof. apply lookup_omap. Qed.

Lemma watched_on fd f x : active x = true -> watched (<[f := x]> fd) = <[f := waitEvents x]> (watched fd).
Proof.
  intros E. apply map_eq. intros i. rewrite watched_lookup. destruct (decide (i = f)) as [->|Hne].
  - rewrite !lookup_insert_eq. cbn. now rewrite E.
  - rewrite !lookup_insert_ne, watched_lookup by done. done.
Qed.

Lemma watched_off fd f x : active x = false -> watched (<[f := x]> fd) = delete f (watched fd).
Proof.
  intros E. apply map_eq. intros i. rewrite watched_lookup. destruct (decide (i = f)) as [->|Hne].
  - rewrite lookup_insert_eq, lookup_delete_eq. cbn. now rewrite E.
  - rewrite lookup_insert_ne, lookup_delete_ne, watched_lookup by done. done.
Qed.

Lemma watched_same fd f x y :
  fd !! f = Some x -> active y = active x -> waitEvents y = waitEvents x -> watched (<[f := y]> fd) = watched fd.
Proof.
  intros E Ea Ew. apply map_eq. intros i. rewrite !watched_lookup. destruct (decide (i = f)) as [->|Hne].
  - rewrite lookup_insert_eq, E. cbn. now rewrite Ea, Ew.
  - now rewrite lookup_insert_ne.
Qed.

Lemma btime_add_saturates t1 t2 :
  INT64_MIN <= t1 <= INT64_MAX -> INT64_MIN <= t2 <= INT64_MAX -> btime_add t1 t2 = saturate (t1 + t2).
Proof.
  intros H1 H2. unfold btime_add, add_int64_overflows, saturate.
  assert (0 < INT64_MAX /\ INT64_MIN = - INT64_MAX - 1) as [Hm E] by done. rewrite E in *. clear E.
  generalize dependent INT64_MAX. intros M H1 H2 Hm.
  destruct (Z.ltb_spec t1 0), (Z.ltb_spec t2 0); cbn [xorb].
  - destruct (Z.ltb_spec t1 (- M - 1 - t2)); cbn [Z.b2z];
      (destruct (_ =? 0) eqn:E0; [|destruct (_ >? 0) eqn:E1]); cbn [negb]; lia.
  - cbn. lia.
  - cbn. lia.
  - rewrite Z.gtb_ltb. destruct (Z.ltb_spec (M - t2) t1); cbn; lia.
Qed.

Section Step.
Context {T : Type} `{!TimersTree T} {L : TimersTreeLaws T}.
Notation R := (reactor T).
Implicit Types (r : R).

Definition abs r : spec :=
  Spec (pending_jobs r) (armed (timers r)) (watched (fds r)) (if exiting r then Some (exit_code r) else None).

(** ** What the contracts ask *)

Definition int64 (z : Z) : bool := (INT64_MIN <=? z) && (z <=? INT64_MAX).

(** A timer or a descriptor is initialised when it is not in use, a descriptor is added when it is not
    active and used when it is, a limit is positive, and other objects are initialised. *)
Definition act_ok r (a : act) : bool :=
  match a with
  | Quit _ | SetJob _ | UnsetJob _ => true
  | InitTimer t => match timers r !! t with Some x => bool_decide (state x = TIMER_STATE_INACTIVE) | None => true end
  | SetTimer t _ time now => bool_decide (is_Some (timers r !! t)) && int64 time && int64 now
  | RemoveTimer t => bool_decide (is_Some (timers r !! t))
  | InitFd f => match fds r !! f with Some x => negb (active x) | None => true end
  | AddFd f _ => match fds r !! f with Some x => negb (active x) | None => false end
  | RemoveFd f => match fds r !! f with Some x => active x | None => false end
  | SetEvents f ev =>
      match fds r !! f with Some x => active x | None => false end && negb (has ev (Z.lnot (Z.lor BREACTOR_READ BREACTOR_WRITE)))
  | InitLimit l n => (n >? 0) && bool_decide (limits r !! l = None)
  | FreeLimit l | Increment l => bool_decide (is_Some (limits r !! l))
  | SetLimit l n => (n >? 0) && bool_decide (is_Some (limits r !! l))
  end.

Fixpoint acts_ok r (h : list act) : bool :=
  match h with
  | [] => true
  | a :: h => act_ok r a && match run_act a r with Done _ r' => acts_ok r' h | Bad _ => false end
  end.

(** ** The parts of the state *)

Lemma fds_set fd l pos f x :
  fds_ok fd l pos -> (forall y, fd !! f = Some y -> active y = false) -> (active x = true -> epoll_returned_ptr x = None) ->
  fds_ok (<[f := x]> fd) l pos.
Proof.
  intros [H1 H2 H3] Hf Hx. split; [done| |].
  - intros i e g Ee Hi Eg. destruct (H2 i e g Ee Hi Eg) as (y & Ey & Ha & Hp). exists y.
    rewrite lookup_insert_ne; [done|]. intros <-. specialize (Hf y Ey). congruence.
  - intros g y i [[<- <-]|[Hne Ey]]%lookup_insert_Some; [intros Ha; now rewrite Hx|]. eauto.
Qed.

Lemma fds_same fd l pos f x y :
  fds_ok fd l pos -> fd !! f = Some x -> active y = active x -> epoll_returned_ptr y = epoll_returned_ptr x ->
  fds_ok (<[f := y]> fd) l pos.
Proof.
  intros [H1 H2 H3] Ef Ea Ep. split; [done| |].
  - intros i e g Ee Hi Eg. destruct (H2 i e g Ee Hi Eg) as (z & Ez & Ha & Hp). destruct (decide (g = f)) as [->|Hne].
    + exists y. rewrite lookup_insert_eq. rewrite Ef in Ez. injection Ez as <-. split; [done|]. split; congruence.
    + exists z. now rewrite lookup_insert_ne.
  - intros g z i [[<- <-]|[Hne Ez]]%lookup_insert_Some; [rewrite Ea, Ep|]; eauto.
Qed.

Lemma fds_remove fd l pos f x :
  fds_ok fd l pos -> fd !! f = Some x -> active x = true ->
  match epoll_returned_ptr x with
  | None => fds_ok (<[f := Descriptor false (waitEvents x) None]> fd) l pos
  | Some i => exists e, l !! i = Some e /\
      fds_ok (<[f := Descriptor false (waitEvents x) (Some i)]> fd) (<[i := Event None (events e)]> l) pos
  end.
Proof.
  intros [H1 H2 H3] Ef Ea. destruct (epoll_returned_ptr x) as [i|] eqn:Ep.
  - destruct (H3 f x i Ef Ea Ep) as (Hi & e & Ee & Hd). exists e. split; [done|]. split.
    + now rewrite length_insert.
    + intros j e' g Ee' Hj Eg. destruct (decide (j = i)) as [->|Hne].
      { rewrite list_lookup_insert_eq in Ee' by now apply lookup_lt_Some in Ee. now injection Ee' as <-. }
      rewrite list_lookup_insert_ne in Ee' by done. destruct (H2 j e' g Ee' Hj Eg) as (y & Ey & Ha & Hp). exists y.
      rewrite lookup_insert_ne; [done|]. intros <-. congruence.
    + intros g y j [[<- <-]|[Hne Ey]]%lookup_insert_Some Ha Hp; [done|]. destruct (H3 g y j Ey Ha Hp) as (Hj & e' & Ee' & Hd').
      split; [done|]. exists e'. split; [|done]. rewrite list_lookup_insert_ne; [done|]. intros <-. congruence.
  - split; [done| |].
    + intros j e g Ee Hj Eg. destruct (H2 j e g Ee Hj Eg) as (y & Ey & Ha & Hp). exists y.
      rewrite lookup_insert_ne; [done|]. intros <-. congruence.
    + intros g y j [[<- <-]|[Hne Ey]]%lookup_insert_Some; [done|]. eauto.
Qed.

Lemma limits_set lim act l x y :
  limits_ok lim act -> lim !! l = Some x -> count y = count x -> limits_ok (<[l := y]> lim) act.
Proof.
  intros [H1 H2 H3] El Ec. split; [done| |].
  - intros k. rewrite H2. destruct (decide (k = l)) as [->|Hne]; [rewrite lookup_insert_eq, El|now rewrite lookup_insert_ne].
    split; intros (z & [= <-] & Hz); eexists; (split; [done|]); lia.
  - intros k z [[<- <-]|[Hne Ez]]%lookup_insert_Some; [rewrite Ec|]; eauto.
Qed.

Lemma limits_new lim act l x : limits_ok lim act -> lim !! l = None -> count x = 0 -> limits_ok (<[l := x]> lim) act.
Proof.
  intros [H1 H2 H3] El Ec. split; [done| |].
  - intros k. rewrite H2. destruct (decide (k = l)) as [->|Hne]; [rewrite lookup_insert_eq, El|now rewrite lookup_insert_ne].
    split; intros (z & [= <-] & Hz). lia.
  - intros k z [[<- <-]|[Hne Ez]]%lookup_insert_Some; [lia|eauto].
Qed.

Lemma limits_zero lim act l x : limits_ok lim act -> lim !! l = Some x ->
  limits_ok (<[l := Limit (max x) 0]> lim) (filter (fun j => j <> l) act).
Proof.
  intros [H1 H2 H3] El. split; [now apply NoDup_filter| |].
  - intros k. rewrite list_elem_of_filter, H2. destruct (decide (k = l)) as [->|Hne]; [rewrite lookup_insert_eq|now rewrite lookup_insert_ne; naive_solver].
    split; [naive_solver|]. intros (z & [= <-] & Hz). cbn in Hz. lia.
  - intros k z [[<- <-]|[Hne Ez]]%lookup_insert_Some; [done|eauto].
Qed.

Lemma limits_count lim act l x : limits_ok lim act -> lim !! l = Some x ->
  limits_ok (<[l := Limit (max x) (count x + 1)]> lim) (if count x + 1 =? 1 then act ++ [l] else act).
Proof.
  intros [H1 H2 H3] El. pose proof (H3 l x El) as Hx. destruct (Z.eqb_spec (count x + 1) 1) as [E|N].
  - assert (Hl : l ∉ act) by (rewrite H2, El; intros (z & [= <-] & Hz); lia). split.
    + apply NoDup_app. split; [done|]. split; [set_solver|apply NoDup_singleton].
    + intros k. rewrite elem_of_app, list_elem_of_singleton, H2. destruct (decide (k = l)) as [->|Hne];
        [rewrite lookup_insert_eq|rewrite lookup_insert_ne by done; naive_solver].
      split; [intros _; eexists; split; [done|cbn; lia]|auto].
    + intros k z [[<- <-]|[Hne Ez]]%lookup_insert_Some; [cbn; lia|eauto].
  - split; [done| |].
    + intros k. rewrite H2. destruct (decide (k = l)) as [->|Hne]; [rewrite lookup_insert_eq, El|now rewrite lookup_insert_ne].
      split; intros (z & [= <-] & Hz); eexists; (split; [done|]); cbn in *; lia.
    + intros k z [[<- <-]|[Hne Ez]]%lookup_insert_Some; [cbn; lia|eauto].
Qed.

Lemma limits_free lim act l x : limits_ok lim act -> lim !! l = Some x ->
  limits_ok (delete l lim) (if count x >? 0 then filter (fun j => j <> l) act else act).
Proof.
  intros [H1 H2 H3] El. pose proof (H3 l x El) as Hx.
  assert (Hact : (if count x >? 0 then filter (fun j => j <> l) act else act) = filter (fun j => j <> l) act).
  { destruct (Z.gtb_spec (count x) 0); [done|]. symmetry. apply filter_absent. rewrite H2, El. intros (z & [= <-] & Hz). lia. }
  rewrite Hact. split; [now apply NoDup_filter| |].
  - intros k. rewrite list_elem_of_filter, H2. destruct (decide (k = l)) as [->|Hne]; [rewrite lookup_delete_eq|rewrite lookup_delete_ne by done];
      naive_solver.
  - intros k z [Hne Ez]%lookup_delete_Some. eauto.
Qed.

(** ** Running the operations *)

Lemma runs_the_timer line t x Q r : timers r !! t = Some x -> Q x r -> runs (the_timer line t) Q r.
Proof. intros E H. unfold the_timer. step_eff. step_eff. now rewrite E. Qed.

Lemma runs_the_fd line f x Q r : fds r !! f = Some x -> Q x r -> runs (the_fd line f) Q r.
Proof. intros E H. unfold the_fd. step_eff. step_eff. now rewrite E. Qed.

Lemma runs_the_limit line l x Q r : limits r !! l = Some x -> Q x r -> runs (the_limit line l) Q r.
Proof. intros E H. unfold the_limit. step_eff. step_eff. now rewrite E. Qed.

Lemma runs_lift {A} line (x : option A) a Q r : x = Some a -> Q a r -> runs (lift line x) Q r.
Proof. now intros ->. Qed.

(** The state with other timers. *)
Definition timer_part (tm : gmap nat timer) (tree : T) (exp : list nat) r : R :=
  Make _ (exiting r) (exit_code r) (pending_jobs r) tm tree exp (limits r) (active_limits_list r) (fds r) (epoll_results r) (epoll_results_pos r) (trace r).

Lemma timer_part_inv tm tree exp running r :
  inv r -> timers_ok (latest (trace r)) tm tree exp running -> inv (timer_part tm tree exp r).
Proof. intros [H1 _ H3 H4] H. split; cbn; [done|eauto|done|done]. Qed.

Lemma remove_timer_ok t r running :
  timers_ok (latest (trace r)) (timers r) (timers_tree r) (timers_expired_list r) running -> is_Some (timers r !! t) ->
  runs (BReactor_RemoveSmallTimer t)
    (fun _ r' => exists tm tree exp running', r' = timer_part tm tree exp r /\
       timers_ok (latest (trace r)) tm tree exp running' /\ in_state tm TIMER_STATE_INACTIVE t /\ armed tm = delete t (armed (timers r))) r.
Proof.
  intros Hok [x Ex]. unfold BReactor_RemoveSmallTimer. step_eff. apply (runs_the_timer _ _ _ _ _ Ex).
  destruct (state x) eqn:Es.
  - step_eff. exists (timers r), (timers_tree r), (timers_expired_list r), running. split; [now destruct r|]. split; [done|].
    split; [unfold in_state; rewrite Ex; cbn; congruence|]. symmetry. apply delete_id. rewrite armed_lookup, Ex. cbn. now rewrite bool_decide_true.
  - unfold tree_Remove. step_eff. step_eff. step_eff.
    destruct (timers_stop _ _ _ _ _ _ _ Hok Ex Es) as (tree' & l1 & l2 & Er & _ & Hok').
    step_eff. apply (runs_lift _ _ _ _ _ Er). step_eff. unfold set_timer. step_eff.
    eexists _, _, _, _. split; [reflexivity|]. split; [exact Hok'|]. split; [unfold in_state; now rewrite lookup_insert_eq|now apply armed_stop].
  - step_eff. step_eff. unfold set_timer. step_eff. pose proof (timers_drop _ _ _ _ _ _ _ Hok Ex Es) as Hok'.
    eexists _, _, _, _. split; [reflexivity|]. split; [exact Hok'|]. split; [unfold in_state; now rewrite lookup_insert_eq|now apply armed_stop].
Qed.

Lemma set_timer_ok t relative time now r running :
  timers_ok (latest (trace r)) (timers r) (timers_tree r) (timers_expired_list r) running -> is_Some (timers r !! t) ->
  INT64_MIN <= time <= INT64_MAX -> INT64_MIN <= now <= INT64_MAX ->
  runs (BReactor_SetSmallTimer t relative time now)
    (fun _ r' => exists tm tree exp running', r' = timer_part tm tree exp r /\ timers_ok (latest (trace r)) tm tree exp running' /\
       armed tm = <[t := if relative then saturate (now + time) else time]> (armed (timers r))) r.
Proof.
  intros Hok Ht Htime Hnow. unfold BReactor_SetSmallTimer. step_eff. eapply eff_mono; [exact (remove_timer_ok _ _ _ Hok Ht)|].
  intros [] r' (tm & tree & exp & running' & -> & Hok' & Hst & Ha). cbn zeta.
  set (when := if relative then btime_add now time else time).
  assert (Ew : when = if relative then saturate (now + time) else time) by (unfold when; destruct relative; [now apply btime_add_saturates|done]).
  assert (Hw : INT64_MIN <= when <= INT64_MAX).
  { rewrite Ew. destruct relative; [|done]. unfold saturate. assert (INT64_MIN <= INT64_MAX) by done. lia. }
  clearbody when. step_eff. unfold set_timer. step_eff. unfold tree_Insert. step_eff. step_eff. step_eff. step_eff.
  destruct (inactive_out _ _ _ _ _ _ Hok' (or_introl Hst)) as [Hr He].
  destruct (timers_start _ _ _ _ _ t when Hok' Hr He Hw) as (tree' & l1 & l2 & Ei & _ & Hok2).
  apply (runs_lift _ _ _ _ _ Ei). cbn [fst snd]. step_eff. step_eff. step_eff. step_eff; [done|].
  eexists _, _, _, _. split; [reflexivity|]. split; [exact Hok2|]. cbn [timers with_timers timer_part]. rewrite armed_start by done. cbn. now rewrite Ha, insert_delete_eq, Ew.
Qed.

(** What a function called by a handler does. *)
Definition acted (a : act) r r' : Prop := inv r' /\ abs r' = spec_act a (abs r) /\ trace r' = trace r.

Lemma timer_acted a r tm tree exp running :
  inv r -> timers_ok (latest (trace r)) tm tree exp running ->
  Spec (pending_jobs r) (armed tm) (watched (fds r)) (if exiting r then Some (exit_code r) else None) = spec_act a (abs r) ->
  acted a r (timer_part tm tree exp r).
Proof. intros Hi Hok E. split; [now apply (timer_part_inv _ _ _ running)|]. split; [exact E|done]. Qed.

Lemma act_good a r : inv r -> act_ok r a = true -> runs (run_act a) (fun _ r' => acted a r r') r.
Proof.
  intros Hi Ha. pose proof Hi as [Hj [running Ht] Hl Hf].
  destruct a as [code|j|j|t|t relative time now|t|f|f added|f|f ev|l n|l|l|l n]; cbn [run_act act_ok] in *.
  - unfold BReactor_Quit. step_eff. split; [|done]. split; cbn; eauto.
  - step_eff. split; [|done]. split; cbn; [now apply set_nodup|eauto|done|done].
  - step_eff. split; [|done]. split; cbn; [now apply unset_nodup|eauto|done|done].
  - unfold BSmallTimer_Init, set_timer. step_eff.
    assert (Hst : in_state (timers r) TIMER_STATE_INACTIVE t \/ timers r !! t = None).
    { unfold in_state. destruct (timers r !! t) as [x|]; [left|now right]. apply bool_decide_eq_true in Ha. cbn. congruence. }
    destruct (inactive_out _ _ _ _ _ _ Ht Hst) as [Hr He].
    apply (timer_acted (InitTimer t) r _ (timers_tree r) (timers_expired_list r) running Hi); [now apply timers_reset|].
    cbn. unfold abs. f_equal. rewrite armed_stop by done. apply delete_id. rewrite armed_lookup. unfold in_state in Hst.
    destruct (timers r !! t) as [x|]; [|done]. destruct Hst as [[= Hst]|Hst]; [|done]. cbn. now rewrite bool_decide_true.
  - apply andb_true_iff in Ha as [[Ha Htime]%andb_true_iff Hnow]. apply bool_decide_eq_true in Ha. unfold int64 in *.
    eapply eff_mono; [apply (set_timer_ok _ _ _ _ _ _ Ht Ha); lia|]. intros [] r' (tm & tree & exp & running' & -> & Hok & Har).
    apply (timer_acted _ _ _ _ _ running' Hi Hok). cbn. now rewrite Har.
  - apply bool_decide_eq_true in Ha. eapply eff_mono; [exact (remove_timer_ok _ _ _ Ht Ha)|].
    intros [] r' (tm & tree & exp & running' & -> & Hok & _ & Har). apply (timer_acted _ _ _ _ _ running' Hi Hok). cbn. now rewrite Har.
  - unfold BFileDescriptor_Init, set_fd. step_eff. split; [|split; [|done]].
    + split; cbn; [done|eauto|done|]. apply fds_set; [done| |done]. intros y Ey. rewrite Ey in Ha. now apply negb_true_iff.
    + unfold abs. cbn. f_equal. rewrite watched_off by done. apply delete_id. rewrite watched_lookup.
      destruct (fds r !! f) as [x|]; [|done]. cbn. apply negb_true_iff in Ha. now rewrite Ha.
  - destruct (fds r !! f) as [x|] eqn:Ef; [|done]. unfold BReactor_AddFileDescriptor. step_eff. step_eff. apply (runs_the_fd _ _ _ _ _ Ef).
    step_eff. step_eff; [done|]. apply negb_true_iff in Ha. destruct added; cbn [negb].
    + step_eff. unfold set_fd. step_eff. step_eff. step_eff. split; [|split; [|done]].
      * split; cbn; [done|eauto|done|]. apply fds_set; [done| |done]. intros y Ey. congruence.
      * unfold abs. cbn. f_equal. now rewrite watched_on.
    + step_eff. step_eff. done.
  - destruct (fds r !! f) as [x|] eqn:Ef; [|done]. unfold BReactor_RemoveFileDescriptor. step_eff. apply (runs_the_fd _ _ _ _ _ Ef).
    step_eff. step_eff; [done|]. step_eff. unfold set_fd. step_eff. pose proof (fds_remove _ _ _ _ _ Hf Ef Ha) as Hf'.
    destruct (epoll_returned_ptr x) as [i|].
    + destruct Hf' as (e & Ee & Hf'). step_eff. step_eff. cbn [with_fds epoll_results epoll_results_pos]. rewrite Ee. step_eff.
      split; [|split; [|done]]; [split; cbn; eauto|]. unfold abs. cbn. f_equal. now rewrite watched_off.
    + step_eff. split; [|split; [|done]]; [split; cbn; eauto|]. unfold abs. cbn. f_equal. now rewrite watched_off.
  - apply andb_true_iff in Ha as [Ha Hev]. destruct (fds r !! f) as [x|] eqn:Ef; [|done]. unfold BReactor_SetFileDescriptorEvents.
    step_eff. apply (runs_the_fd _ _ _ _ _ Ef). step_eff. step_eff; [done|]. step_eff. step_eff; [done|]. unfold set_fd. step_eff.
    split; [|split; [|done]]; [split; cbn; [done|eauto|done|now apply (fds_same _ _ _ _ x)]|]. unfold abs. cbn. f_equal. now rewrite watched_on.
  - apply andb_true_iff in Ha as [Hn Ha]. apply bool_decide_eq_true in Ha. unfold BReactorLimit_Init, set_limit. step_eff. step_eff; [done|]. step_eff.
    split; [|done]. split; cbn; [done|eauto|now apply limits_new|done].
  - apply bool_decide_eq_true in Ha as [x Ex]. unfold BReactorLimit_Free. step_eff. apply (runs_the_limit _ _ _ _ _ Ex).
    pose proof (limits_free _ _ _ _ Hl Ex) as Hl'. destruct (count x >? 0); cbn [whenever]; step_eff; step_eff; step_eff;
      (split; [|done]; split; cbn; [done|eauto|done|done]).
  - apply bool_decide_eq_true in Ha as [x Ex]. unfold BReactorLimit_Increment. step_eff. step_eff. apply (runs_the_limit _ _ _ _ _ Ex).
    pose proof (limits_count _ _ _ _ Hl Ex) as Hl'. destruct (count x >=? max x); [step_eff; now step_eff|].
    step_eff. unfold set_limit. step_eff. destruct (count x + 1 =? 1); cbn [whenever]; step_eff; step_eff; step_eff; step_eff;
      (split; [|done]; split; cbn; [done|eauto|done|done]).
  - apply andb_true_iff in Ha as [Hn Ha]. apply bool_decide_eq_true in Ha as [x Ex]. unfold BReactorLimit_SetLimit. step_eff. step_eff; [done|].
    step_eff. apply (runs_the_limit _ _ _ _ _ Ex). unfold set_limit. step_eff. split; [|done]. split; cbn; [done|eauto|now apply (limits_set _ _ _ x)|done].
Qed.

Lemma acts_good h : forall r, inv r -> acts_ok r h = true ->
  runs (run_acts h) (fun _ r' => inv r' /\ abs r' = spec_acts h (abs r) /\ trace r' = trace r) r.
Proof.
  induction h as [|a h IH]; intros r Hi Ha; cbn [run_acts acts_ok] in *; [now step_eff|].
  apply andb_true_iff in Ha as [Ha Hh]. step_eff. destruct (eff_done _ _ _ (act_good a r Hi Ha)) as ([] & r1 & E & Hi1 & Ea & Et).
  unfold runs at 1. rewrite E in Hh |- *. eapply eff_mono; [exact (IH r1 Hi1 Hh)|]. intros [] r2 (Hi2 & Ea2 & Et2).
  split; [done|]. rewrite Ea2, Et2, Ea, Et. done.
Qed.

End Step.

(** ** Rounds of the event loop

    What a round of the loop does, as a step of the abstract reactor. *)

Open Scope Z_scope.

Import Reactor.

(** An entry of the trace that is no call. *)
Definition idle (e : dispatched) : Prop := match e with Wait _ _ | Look _ => True | _ => False end.

(** The events a handler may be told: those waited for, errors and hang-ups. *)
Definition permitted_events (w ev : Z) : Prop :=
  ev <> 0 /\ 0 <= ev < 16 /\
  (has ev BREACTOR_READ = true -> has w BREACTOR_READ = true) /\ (has ev BREACTOR_WRITE = true -> has w BREACTOR_WRITE = true).

(** A round of the abstract reactor: [h] is what the handler does, the list what the trace shows. Jobs come
    first; a timer that runs is not set any more; nothing else changes while it waits. *)
Inductive spec_round (h : list act) : spec -> list dispatched -> spec -> Prop :=
  | RoundJob s j jobs :
      sp_jobs s = j :: jobs ->
      spec_round h s [RunJob j] (spec_acts h (Spec jobs (sp_armed s) (sp_watched s) (sp_exit s)))
  | RoundTimer s t time :
      sp_jobs s = [] -> sp_armed s !! t = Some time ->
      spec_round h s [RunTimer t time] (spec_acts h (Spec [] (delete t (sp_armed s)) (sp_watched s) (sp_exit s)))
  | RoundFd s f w ev :
      sp_jobs s = [] -> sp_watched s !! f = Some w -> permitted_events w ev ->
      spec_round h s [RunFd f ev] (spec_acts h s)
  | RoundIdle s l : sp_jobs s = [] -> Forall idle l -> spec_round h s l s.

Section Run.
Context {T : Type} `{!TimersTree T} {L : TimersTreeLaws T}.
Notation R := (reactor T).
Implicit Types (r : R).

(** ** Expiring timers *)

Lemma runs_first line Q r running :
  tt_nodes (timer_value r) (timers_tree r) running -> Q (head running) r -> runs (tree_GetFirst line) Q r.
Proof. intros H HQ. unfold tree_GetFirst. step_eff. step_eff. apply (runs_lift _ _ _ _ _ (tt_first_ok _ _ _ H)). exact HQ. Qed.

Lemma armed_expire tm t x :
  tm !! t = Some x -> state x = TIMER_STATE_RUNNING -> armed (<[t := Timer (absTime x) TIMER_STATE_EXPIRED]> tm) = armed tm.
Proof.
  intros E Es. rewrite armed_start by done. apply insert_id. rewrite armed_lookup, E. cbn. now rewrite bool_decide_false by congruence.
Qed.

(** The timers [l1] of the tree have expired. *)
Record expired r (l1 l2 : list nat) r' : Prop := Expired {
  ex_state : exists tm tree, r' = timer_part tm tree (timers_expired_list r ++ l1) r;
  ex_ok : timers_ok (latest (trace r)) (timers r') (timers_tree r') (timers_expired_list r ++ l1) l2;
  ex_sorted : StronglySorted (before (tval (timers r'))) ((timers_expired_list r ++ l1) ++ l2);
  ex_armed : armed (timers r') = armed (timers r);
  ex_value i : tval (timers r') i = tval (timers r) i;
}.

Lemma expire_ok line t running r :
  timers_ok (latest (trace r)) (timers r) (timers_tree r) (timers_expired_list r) (t :: running) ->
  StronglySorted (before (tval (timers r))) (timers_expired_list r ++ t :: running) ->
  fst (tval (timers r) t) <= latest (trace r) ->
  runs (expire line t) (fun _ r' => expired r [t] running r') r.
Proof.
  intros Hok Hs Hdue. destruct (timers_expire _ _ _ _ _ _ Hok Hs) as (x & tree' & Ex & Es & Er & Hok' & Hs' & Hv).
  { intros x Ex. unfold tval in Hdue. now rewrite Ex in Hdue. }
  unfold expire. step_eff. apply (runs_the_timer _ _ _ _ _ Ex). unfold tree_Remove. step_eff. step_eff. step_eff. step_eff.
  apply (runs_lift _ _ _ _ _ Er). step_eff. step_eff. step_eff. unfold set_timer. step_eff.
  split; cbn; [eexists _, _; reflexivity|done|done|now apply armed_expire|done].
Qed.

Lemma expired_trans r l1 l2 l3 r1 r2 : expired r l1 (l2 ++ l3) r1 -> expired r1 l2 l3 r2 -> expired r (l1 ++ l2) l3 r2.
Proof.
  intros [(tm1 & tree1 & ->) A2 A3 A4 A5] [(tm2 & tree2 & ->) B2 B3 B4 B5]. cbn in *.
  rewrite ?app_assoc in *. split; cbn; rewrite ?app_assoc; [eexists _, _; reflexivity|done|done|congruence|intros i; now rewrite B5].
Qed.

Lemma expired_refl r l2 :
  timers_ok (latest (trace r)) (timers r) (timers_tree r) (timers_expired_list r) l2 ->
  StronglySorted (before (tval (timers r))) (timers_expired_list r ++ l2) -> expired r [] l2 r.
Proof. intros H1 H2. split; rewrite ?app_nil_r; [|done|done|done|done]. exists (timers r), (timers_tree r). now destruct r. Qed.

Lemma move_loop_ok line now first : forall fuel r running,
  timers_ok (latest (trace r)) (timers r) (timers_tree r) (timers_expired_list r) running ->
  StronglySorted (before (tval (timers r))) (timers_expired_list r ++ running) ->
  (length running <= fuel)%nat -> now <= latest (trace r) ->
  (forall f t, first = Some f -> t ∈ running -> f <= fst (tval (timers r) t)) ->
  runs (move_loop line fuel now first)
    (fun moved r' => exists l1 l2, running = l1 ++ l2 /\ expired r l1 l2 r' /\ Forall (fun t => fst (tval (timers r) t) <= now) l1 /\
       Forall (fun t => now < fst (tval (timers r) t)) l2 /\ moved = negb (bool_decide (l1 = []))) r.
Proof.
  induction fuel as [|fuel IH]; intros r running Hok Hs Hfuel Hnow Hfirst.
  - destruct running; [|cbn in Hfuel; lia]. cbn [move_loop]. step_eff. apply (runs_first _ _ _ _ (to_tree _ _ _ _ _ Hok)). cbn [head]. step_eff.
    exists [], []. split; [done|]. split; [now apply expired_refl|]. done.
  - cbn [move_loop]. step_eff. apply (runs_first _ _ _ _ (to_tree _ _ _ _ _ Hok)). destruct running as [|t running]; cbn [head].
    { step_eff. exists [], []. split; [done|]. split; [now apply expired_refl|]. done. }
    assert (Ht : in_state (timers r) TIMER_STATE_RUNNING t) by (apply (to_running _ _ _ _ _ Hok); apply list_elem_of_here).
    unfold in_state in Ht. destruct (timers r !! t) as [x|] eqn:Ex; [|done]. injection Ht as Es.
    assert (Ev : fst (tval (timers r) t) = absTime x) by (unfold tval; now rewrite Ex).
    step_eff. apply (runs_the_timer _ _ _ _ _ Ex). step_eff. step_eff; [now rewrite bool_decide_true|].
    step_eff. step_eff. { destruct first as [f|]; [|done]. specialize (Hfirst f t eq_refl (list_elem_of_here _ _)). lia. }
    destruct (Z.gtb_spec (absTime x) now) as [Hgt|Hle].
    + step_eff. exists [], (t :: running). split; [done|]. split; [now apply expired_refl|]. split; [done|]. split; [|done].
      pose proof Hs as (_ & _ & Hsr)%StronglySorted_app. apply StronglySorted_inv in Hsr as [_ Hsr]. constructor; [lia|].
      rewrite Forall_forall in *. intros i Hi. specialize (Hsr i Hi). apply before_time in Hsr. lia.
    + step_eff. eapply eff_mono; [apply (expire_ok _ _ running _ Hok Hs); lia|]. intros [] r1 H1.
      pose proof H1 as [(tm & tree & ->) G2 G3 G4 G5]. cbn in G2, G3, G4, G5.
      step_eff. eapply eff_mono; [apply (IH _ running)|]; cbn [timers timers_tree timers_expired_list trace timer_part].
      * exact G2.
      * exact G3.
      * cbn in Hfuel. lia.
      * done.
      * intros f i Ef Hi. rewrite G5. apply (Hfirst f i Ef). set_solver.
      * intros moved r2 (l1 & l2 & -> & H2 & F1 & F2 & _). step_eff. exists (t :: l1), l2. split; [done|].
        split; [exact (expired_trans _ [t] l1 l2 _ _ H1 H2)|]. split.
        { constructor; [lia|]. eapply Forall_impl; [exact F1|]. intros i. cbn [timers timer_part]. now rewrite G5. }
        split; [|done]. eapply Forall_impl; [exact F2|]. intros i. cbn [timers timer_part]. now rewrite G5.
Qed.

Lemma running_size seen tm tree exp running : timers_ok seen tm tree exp running -> (length running <= size tm)%nat.
Proof.
  intros H. pose proof (sorted_nodup _ _ (tt_sorted _ _ _ (to_tree _ _ _ _ _ H))) as Hnd.
  rewrite <- (size_dom (D := gset nat)), <- (size_list_to_set (C := gset nat) running) by done.
  apply subseteq_size. intros t Ht%elem_of_list_to_set. apply (to_running _ _ _ _ _ H) in Ht. unfold in_state in Ht.
  apply elem_of_dom. destruct (tm !! t); [eauto|done].
Qed.

Lemma move_expired_ok now r running :
  timers_ok (latest (trace r)) (timers r) (timers_tree r) [] running -> timers_expired_list r = [] -> now <= latest (trace r) ->
  runs (move_expired_timers now)
    (fun moved r' => exists l1 l2, running = l1 ++ l2 /\ expired r l1 l2 r' /\ Forall (fun t => fst (tval (timers r) t) <= now) l1 /\
       Forall (fun t => now < fst (tval (timers r) t)) l2 /\ moved = negb (bool_decide (l1 = []))) r.
Proof.
  intros Hok He Hnow. unfold move_expired_timers. step_eff. step_eff. apply move_loop_ok; rewrite ?He; [done| | |done|done].
  - exact (tt_sorted _ _ _ (to_tree _ _ _ _ _ Hok)).
  - exact (running_size _ _ _ _ _ Hok).
Qed.

(** The first timer expires, with those set to the same time. *)
Lemma move_first_ok t running r :
  timers_ok (latest (trace r)) (timers r) (timers_tree r) [] (t :: running) -> timers_expired_list r = [] ->
  fst (tval (timers r) t) <= latest (trace r) ->
  runs move_first_timers (fun _ r' => exists l1 l2, running = l1 ++ l2 /\ expired r (t :: l1) l2 r') r.
Proof.
  intros Hok He Hdue. unfold move_first_timers. step_eff. apply (runs_first _ _ _ _ (to_tree _ _ _ _ _ Hok)). cbn [head]. step_eff.
  apply (runs_lift _ _ _ _ _ eq_refl).
  assert (Ht : in_state (timers r) TIMER_STATE_RUNNING t) by (apply (to_running _ _ _ _ _ Hok); apply list_elem_of_here).
  unfold in_state in Ht. destruct (timers r !! t) as [x|] eqn:Ex; [|done]. injection Ht as Es.
  assert (Ev : fst (tval (timers r) t) = absTime x) by (unfold tval; now rewrite Ex).
  step_eff. apply (runs_the_timer _ _ _ _ _ Ex). step_eff. step_eff; [now rewrite bool_decide_true|]. cbn zeta.
  pose proof (tt_sorted _ _ _ (to_tree _ _ _ _ _ Hok)) as Hs. pose proof (running_size _ _ _ _ _ Hok) as Hsize.
  step_eff. eapply eff_mono; [apply (expire_ok _ _ running); rewrite ?He; done|]. intros [] r1 H1.
  pose proof H1 as [(tm & tree & ->) G2 G3 G4 G5]. cbn in G2, G3, G4, G5. rewrite He in *. cbn [app] in *.
  step_eff. step_eff. step_eff. eapply eff_mono; [apply (move_loop_ok _ _ _ _ _ running)|].
  - exact G2.
  - exact G3.
  - cbn. exact (running_size _ _ _ _ _ G2).
  - cbn [trace timer_part]. lia.
  - intros f i [= <-] Hi. cbn [timers timer_part]. rewrite G5. apply StronglySorted_inv in Hs as [_ Hs]. rewrite Forall_forall in Hs.
    specialize (Hs i Hi). apply before_time in Hs. change (fst (tval (timers r) t) <= fst (tval (timers r) i)) in Hs. lia.
  - intros moved r2 (l1 & l2 & -> & H2 & _). step_eff. exists l1, l2. split; [done|]. exact (expired_trans _ [t] l1 l2 _ _ H1 H2).
Qed.

(** ** The results of [epoll_wait] *)

Lemma fds_point fd l f x e :
  fds_ok fd l 0 -> fd !! f = Some x -> active x = true -> epoll_returned_ptr x = None -> data_ptr e = Some f ->
  fds_ok (<[f := Descriptor true (waitEvents x) (Some (length l))]> fd) (l ++ [e]) 0.
Proof.
  intros [H1 H2 H3] Ef Ea Ep Ee. split; [lia| |].
  - intros i e' g Ee' _ Eg. apply lookup_app_Some in Ee' as [Ee'|[Hi Ee']].
    + destruct (H2 i e' g Ee' (Nat.le_0_l _) Eg) as (y & Ey & Ha & Hp). exists y. rewrite lookup_insert_ne; [done|]. intros <-. congruence.
    + apply list_lookup_singleton_Some in Ee' as [Ei <-]. rewrite Ee in Eg. injection Eg as <-.
      eexists. rewrite lookup_insert_eq. split; [done|]. split; [done|]. cbn. f_equal. lia.
  - intros g y i [[<- <-]|[Hne Ey]]%lookup_insert_Some Ha Hp; (split; [lia|]).
    + injection Hp as <-. exists e. split; [|done]. apply lookup_app_Some. right. split; [done|]. now rewrite Nat.sub_diag.
    + destruct (H3 g y i Ey Ha Hp) as (_ & e' & Ee' & Hd). exists e'. split; [|done]. now apply lookup_app_l_Some.
Qed.

(** The state with other descriptors. *)
Definition fd_part (fd : gmap nat descriptor) r : R :=
  Make _ (exiting r) (exit_code r) (pending_jobs r) (timers r) (timers_tree r) (timers_expired_list r) (limits r) (active_limits_list r) fd (epoll_results r) (epoll_results_pos r) (trace r).

(** An entry is about a descriptor that is active and in no entry yet. *)
Definition fresh_entry (fd : gmap nat descriptor) (e : epoll_event) : Prop :=
  exists f x, data_ptr e = Some f /\ fd !! f = Some x /\ active x = true /\ epoll_returned_ptr x = None.

Lemma set_pointers_ok : forall l l0 r,
  fds_ok (fds r) l0 0 -> Forall (fresh_entry (fds r)) l -> NoDup (map data_ptr l) ->
  runs (set_epoll_fd_pointers (length l0) l)
    (fun _ r' => exists fd, r' = fd_part fd r /\ fds_ok fd (l0 ++ l) 0 /\ watched fd = watched (fds r)) r.
Proof.
  induction l as [|e l IH]; intros l0 r Hok Hl Hnd; cbn [set_epoll_fd_pointers].
  { step_eff. exists (fds r). rewrite app_nil_r. split; [now destruct r|done]. }
  apply Forall_cons in Hl as [(f & x & Ee & Ef & Ea & Ep) Hl]. cbn in Hnd. apply NoDup_cons in Hnd as [Hn Hnd].
  step_eff. apply (runs_lift _ _ _ _ _ Ee). step_eff. apply (runs_the_fd _ _ _ _ _ Ef). step_eff. step_eff; [done|].
  step_eff. step_eff; [now rewrite Ep|]. rewrite Ea. step_eff. unfold set_fd. step_eff.
  set (r1 := with_fds _ r). replace (S (length l0)) with (length (l0 ++ [e])) by (rewrite length_app; cbn; lia).
  eapply eff_mono; [apply (IH (l0 ++ [e]) r1)|].
  - now apply fds_point.
  - eapply Forall_impl; [apply Forall_forall; intros e' He'; exact He'|]. cbn. intros e' He'. rewrite Forall_forall in Hl.
    destruct (Hl e' He') as (g & y & Eg & Ey & H1 & H2). exists g, y. split; [done|]. split; [|done].
    rewrite lookup_insert_ne; [done|]. intros <-. apply Hn. rewrite Ee, <- Eg. now apply list_elem_of_fmap_2.
  - done.
  - intros [] r' (fd & -> & H1 & H2). exists fd. rewrite <- app_assoc in H1. split; [done|]. split; [done|].
    rewrite H2. unfold r1. cbn. rewrite watched_on by done. apply insert_id. rewrite watched_lookup, Ef. cbn. now rewrite Ea.
Qed.

(** ** The limits *)

Definition limit_part (lim : gmap nat limit) (act : list nat) r : R :=
  Make _ (exiting r) (exit_code r) (pending_jobs r) (timers r) (timers_tree r) (timers_expired_list r) lim act (fds r) (epoll_results r) (epoll_results_pos r) (trace r).

Lemma reset_limits_ok : forall fuel r,
  limits_ok (limits r) (active_limits_list r) -> (length (active_limits_list r) <= fuel)%nat ->
  runs (reset_limits fuel) (fun _ r' => exists lim, r' = limit_part lim [] r /\ limits_ok lim []) r.
Proof.
  induction fuel as [|fuel IH]; intros r Hok Hf; cbn [reset_limits]; step_eff; step_eff.
  - destruct (active_limits_list r) eqn:E; [|cbn in Hf; lia]. step_eff. exists (limits r). split; [destruct r; cbn in *; now subst|done].
  - destruct (active_limits_list r) as [|l act] eqn:E.
    { step_eff. exists (limits r). split; [destruct r; cbn in *; now subst|done]. }
    destruct (proj1 (lo_active _ _ Hok l) (list_elem_of_here _ _)) as (x & Ex & Hx).
    step_eff. apply (runs_the_limit _ _ _ _ _ Ex). step_eff. step_eff; [lia|]. step_eff. unfold set_limit. step_eff. step_eff. step_eff.
    pose proof (limits_zero _ _ _ _ Hok Ex) as Hok'. rewrite <- E in Hok'.
    eapply eff_mono; [apply IH|]; cbn.
    + exact Hok'.
    + rewrite E, filter_cons_False by tauto. pose proof (length_filter (fun j => j <> l) act). cbn in Hf. lia.
    + intros [] r' (lim & -> & H). exists lim. done.
Qed.

(** ** Waiting *)

(** What the clock and [epoll_wait] do: time does not go back, a timeout is reported when it is over,
    events are those of different active descriptors. *)
Fixpoint answers_ok (fd : gmap nat descriptor) (timeout_abs : option Z) (now : Z) (answers : list answer) : bool :=
  match answers with
  | [] => true
  | a :: answers =>
      (now <=? clock a) && (clock a <=? INT64_MAX) &&
      match result a with
      | WaitFailed => false
      | WaitInterrupted => answers_ok fd timeout_abs (clock a) answers
      | WaitEvents [] =>
          match timeout_abs with
          | None => false
          | Some abs => (now + Z.min INT_MAX (abs - now) <=? clock a) && answers_ok fd timeout_abs (clock a) answers
          end
      | WaitEvents l =>
          (Z.of_nat (length l) <=? BSYSTEM_MAX_RESULTS) && bool_decide (NoDup (map fst l)) &&
          forallb (fun e => match fd !! fst e with Some x => active x | None => false end) l
      end
  end.

(** The reactor has only waited, or looked at the clock, or let timers expire. *)
Definition idled r r' : Prop :=
  inv r' /\ abs r' = abs r /\ fds r' = fds r /\ (exists tr, trace r' = trace r ++ tr /\ Forall idle tr).

Definition rested r r' : Prop := inv r' /\ abs r' = abs r /\ (exists tr, trace r' = trace r ++ tr /\ Forall idle tr).

Lemma idled_trans r r1 r2 : idled r r1 -> rested r1 r2 -> rested r r2.
Proof.
  intros (A1 & A2 & A3 & tr & A4 & A5) (B1 & B2 & tr' & B3 & B4). split; [done|]. split; [congruence|].
  exists (tr ++ tr'). rewrite B3, A4, app_assoc. split; [done|]. now apply Forall_app.
Qed.

Lemma idled_chain r r1 r2 : idled r r1 -> idled r1 r2 -> idled r r2.
Proof.
  intros (_ & A2 & A3 & tr & A4 & A5) (B1 & B2 & B3 & tr' & B4 & B5). split; [done|]. split; [congruence|]. split; [congruence|].
  exists (tr ++ tr'). rewrite B4, A4, app_assoc. split; [done|]. now apply Forall_app.
Qed.

Lemma idled_rested r r' : idled r r' -> rested r r'.
Proof. intros (A1 & A2 & _ & A4). now split. Qed.

Lemma rested_refl r : inv r -> rested r r.
Proof. intros Hi. split; [done|]. split; [done|]. exists []. split; [now rewrite app_nil_r|constructor]. Qed.

Lemma trace_idled e r : inv r -> idle e -> idled r (with_trace e r).
Proof.
  intros [H1 [running H2] H3 H4] He. split; [|split; [done|split; [done|exists [e]; split; [done|now constructor]]]].
  split; cbn [pending_jobs timers timers_tree timers_expired_list trace limits active_limits_list fds epoll_results epoll_results_pos with_trace]; [done| |done|done].
  exists running. apply (timers_later (latest (trace r))); [|done]. rewrite latest_snoc. lia.
Qed.

Lemma expired_idled r l1 l2 r' : inv r -> expired r l1 l2 r' -> idled r r'.
Proof.
  intros Hi [(tm & tree & ->) H2 H3 H4 H5]. split; [exact (timer_part_inv _ _ _ _ _ Hi H2)|].
  split; [unfold abs; cbn in *; now rewrite H4|]. split; [done|]. exists []. split; [now rewrite app_nil_r|constructor].
Qed.

(** The state in which the loop around [epoll_wait] runs. *)
Record quiet r (running : list nat) : Prop := Quiet {
  q_inv : inv r;
  q_timers : timers_ok (latest (trace r)) (timers r) (timers_tree r) [] running;
  q_expired : timers_expired_list r = [];
  q_results : epoll_results r = [] /\ epoll_results_pos r = 0%nat;
}.

Definition deadline r (running : list nat) : option Z := (fun t => fst (tval (timers r) t)) <$> head running.

Lemma trace_quiet e r running : quiet r running -> idle e -> quiet (with_trace e r) running.
Proof.
  intros [H1 H2 H3 H4] He. split; [exact (proj1 (trace_idled _ _ H1 He))| |done|done].
  cbn [timers timers_tree trace with_trace]. apply (timers_later (latest (trace r))); [|done]. rewrite latest_snoc. lia.
Qed.

Lemma move_first_idled abs r running :
  quiet r running -> deadline r running = Some abs -> abs <= latest (trace r) -> runs move_first_timers (fun _ r' => idled r r') r.
Proof.
  intros [H1 H2 H3 H4] Hd Hle. destruct running as [|t running]; [done|]. injection Hd as <-.
  eapply eff_mono; [exact (move_first_ok t running r H2 H3 Hle)|]. intros [] r' (l1 & l2 & _ & H). exact (expired_idled _ _ _ _ H1 H).
Qed.

Lemma results_rested l r running :
  quiet r running -> NoDup (map fst l) ->
  forallb (fun e => match fds r !! fst e with Some x => active x | None => false end) l = true ->
  runs (upd_st (with_results (map (fun e => Event (Some (fst e)) (snd e)) l) 0) ;; r ← get_st; set_epoll_fd_pointers 0 (epoll_results r))
    (fun _ r' => rested r r') r.
Proof.
  intros [[H1 [run Ht] H3 H4] _ _ [E1 E2]] Hnd Hl. rewrite E1, E2 in H4. step_eff. step_eff. step_eff. step_eff. cbn [with_results epoll_results].
  set (l' := map _ l). set (r1 := with_results l' 0 r). rewrite forallb_forall in Hl.
  eapply eff_mono; [apply (set_pointers_ok l' [] r1)|].
  - exact H4.
  - apply Forall_forall. intros e He. unfold l' in He. apply list_elem_of_fmap in He as ([f ev] & -> & He).
    apply list_elem_of_In in He. specialize (Hl _ He). cbn [fst] in Hl. destruct (fds r !! f) as [x|] eqn:Ef; [|done].
    exists f, x. split; [done|]. split; [exact Ef|]. split; [done|]. destruct (epoll_returned_ptr x) as [i|] eqn:Ep; [|done].
    destruct (fo_ptr _ _ _ H4 f x i Ef Hl Ep) as (_ & e & Ee & _). now rewrite lookup_nil in Ee.
  - replace (map data_ptr l') with (Some <$> map fst l); [now apply NoDup_fmap_2; [intros ?? [=]|]|].
    unfold l'. clear. induction l as [|e l IH]; cbn; [done|]. now f_equal.
  - intros [] r' (fd & -> & G1 & G2). split; [|split].
    + split; cbn; eauto.
    + unfold abs. cbn [pending_jobs timers fds exiting exit_code fd_part]. now rewrite G2.
    + exists []. cbn. split; [now rewrite app_nil_r|constructor].
Qed.

Lemma latest_shows l e : shows e <= latest (l ++ [e]).
Proof. rewrite latest_snoc. lia. Qed.

Lemma try_again_ok now r running :
  quiet r running -> now <= latest (trace r) ->
  runs (try_again (deadline r running) now)
    (fun over r' => idled r r' /\ (over = false -> r' = r /\ forall abs, deadline r running = Some abs -> now < abs)) r.
Proof.
  intros Hq Hle. unfold try_again. destruct (deadline r running) as [abs|] eqn:Ed.
  2: { step_eff. split; [|done]. destruct Hq as [Hi _ _ _]. split; [done|]. split; [done|]. split; [done|]. exists []. now rewrite app_nil_r. }
  rewrite Z.geb_leb. destruct (Z.leb_spec abs now).
  - step_eff. eapply eff_mono; [apply (move_first_idled abs _ _ Hq Ed); lia|]. intros [] r' H1. now step_eff.
  - step_eff. split; [|intros _; split; [done|now intros ? [= <-]]]. destruct Hq as [Hi _ _ _].
    split; [done|]. split; [done|]. split; [done|]. exists []. now rewrite app_nil_r.
Qed.

(** The wait goes on: every look at the clock was before the deadline. *)
Definition still_early (timeout_abs : option Z) (answers : list answer) : Prop :=
  forall a abs, a ∈ answers -> timeout_abs = Some abs -> clock a < abs.

Lemma wait_loop_ok : forall answers now r running,
  quiet r running -> 0 <= now -> (forall abs, deadline r running = Some abs -> now < abs <= INT64_MAX) ->
  answers_ok (fds r) (deadline r running) now answers = true ->
  runs (wait_loop answers (deadline r running) now)
    (fun over r' => rested r r' /\ (over = false -> still_early (deadline r running) answers)) r.
Proof.
  induction answers as [|a answers IH]; intros now r running Hq Hnow Hd Ha.
  { cbn [wait_loop]. step_eff. split; [exact (rested_refl _ (q_inv _ _ Hq))|]. now intros _ a abs ?%elem_of_nil. }
  cbn [answers_ok] in Ha. apply andb_true_iff in Ha as [[Hc1 Hc2]%andb_true_iff Ha].
  cbn [wait_loop]. step_eff.
  assert (Hrel : runs (match deadline r running with
     | None => mret 0
     | Some abs => assert_at 339 ((INT64_MIN <=? abs - now) && (abs - now <=? INT64_MAX)) ;; mret (abs - now) end)
     (fun rel r' => r' = r /\ rel = match deadline r running with Some abs => abs - now | None => 0 end) r).
  { destruct (deadline r running) as [abs|]; [|now step_eff]. specialize (Hd abs eq_refl). step_eff. step_eff; [|now step_eff].
    assert (INT64_MIN <= 0) by done. lia. }
  eapply eff_mono; [exact Hrel|]. clear Hrel. intros rel r' [-> Erel]. cbn zeta. step_eff. step_eff.
  set (e := Wait _ _). set (r1 := with_trace e r).
  assert (Hq1 : quiet r1 running) by now apply trace_quiet.
  assert (Hid : idled r r1) by (apply trace_idled; [exact (q_inv _ _ Hq)|done]).
  assert (Hseen : clock a <= latest (trace r1)) by exact (latest_shows (trace r) e).
  clearbody e.
  assert (Hagain : answers_ok (fds r) (deadline r running) (clock a) answers = true ->
    runs (over ← try_again (deadline r running) (clock a);
          if (over : bool) then mret true else wait_loop answers (deadline r running) (clock a))
      (fun over r' => rested r r' /\ (over = false -> still_early (deadline r running) (a :: answers))) r1).
  { intros Ha'. step_eff. change (deadline r running) with (deadline r1 running) at 1.
    eapply eff_mono; [exact (try_again_ok _ _ _ Hq1 Hseen)|]. intros [] r2 [Hid2 Hmore].
    - step_eff. split; [exact (idled_trans _ _ _ Hid (idled_rested _ _ Hid2))|done].
    - destruct (Hmore eq_refl) as [-> Hlt]. change (deadline r running) with (deadline r1 running) in *. change (fds r) with (fds r1) in Ha'.
      eapply eff_mono; [apply (IH (clock a) r1 running Hq1); [lia| |done]|].
      + intros abs Ed. specialize (Hlt abs Ed). specialize (Hd abs Ed). lia.
      + intros over r' [Hr He]. split; [exact (idled_trans _ _ _ Hid Hr)|]. intros Eo b abs [->|Hb]%elem_of_cons Ed; [now apply Hlt|exact (He Eo b abs Hb Ed)]. }
  destruct (result a) as [[|[f ev] l]| |]; [| |exact (Hagain Ha)|done].
  - destruct (deadline r running) as [abs|] eqn:Ed; [|done]. apply andb_true_iff in Ha as [Hc3 Ha]. specialize (Hd abs eq_refl).
    cbn [length]. change (Z.of_nat 0) with 0. cbn [Z.eqb negb orb]. rewrite bool_decide_true by eauto. cbn [andb orb]. step_eff. step_eff; [done|].
    step_eff. step_eff; [done|]. rewrite Z.gtb_ltb. destruct (Z.ltb_spec INT_MAX rel) as [Hgt|Hle].
    + replace (INT_MAX =? rel) with false by lia. exact (Hagain Ha).
    + rewrite Z.eqb_refl. step_eff. eapply eff_mono; [apply (move_first_idled abs r1 running Hq1 Ed); lia|].
      intros [] r2 Hid2. step_eff. split; [exact (idled_trans _ _ _ Hid (idled_rested _ _ Hid2))|done].
  - apply andb_true_iff in Ha as [[Hlen Hnd]%andb_true_iff Hact]. apply bool_decide_eq_true in Hnd.
    replace (Z.of_nat (length ((f, ev) :: l)) =? 0) with false by (symmetry; apply Z.eqb_neq; cbn; lia). cbn [negb orb].
    step_eff. step_eff; [done|]. step_eff. step_eff; [exact Hlen|]. step_eff.
    eapply eff_mono; [exact (results_rested ((f, ev) :: l) r1 running Hq1 Hnd Hact)|]. intros [] r2 Hr. step_eff. split; [exact (idled_trans _ _ _ Hid Hr)|done].
Qed.

(** The time the reactor waits for. *)
Definition first_deadline r : option Z :=
  match tt_first (timers_tree r) with
  | Some (Some t) => absTime <$> timers r !! t
  | _ => None
  end.

(** The environment of a round. *)
Definition env_ok r (now : Z) (answers : list answer) : bool :=
  (0 <=? now) && (now <=? INT64_MAX) && answers_ok (fds r) (first_deadline r) now answers.

Lemma deadline_first r running exp seen :
  timers_ok seen (timers r) (timers_tree r) exp running -> first_deadline r = deadline r running.
Proof.
  intros H. unfold first_deadline, deadline. rewrite (tt_first_ok _ _ _ (to_tree _ _ _ _ _ H)).
  destruct running as [|t running]; [done|]. cbn. assert (Ht : in_state (timers r) TIMER_STATE_RUNNING t) by (apply (to_running _ _ _ _ _ H), list_elem_of_here).
  unfold in_state in Ht. destruct (timers r !! t) as [x|]; done.
Qed.

Lemma reset_rested r r' : rested r r' ->
  runs (r ← get_st; reset_limits (length (active_limits_list r)) ;; mret true) (fun over r2 => rested r r2 /\ over = true) r'.
Proof.
  intros ([H1 H2 H3 H4] & Ha & tr & Ht & Hi). step_eff. step_eff. step_eff. eapply eff_mono; [exact (reset_limits_ok _ _ H3 (Nat.le_refl _))|].
  intros [] r2 (lim & -> & Hl). step_eff. split; [|done]. split; [split; cbn; [done|exact H2|done|done]|]. split; [exact Ha|]. exists tr. done.
Qed.

(** The part of [wait_for_events] behind the check for timers that have expired. *)
Lemma wait_rest_ok r0 r running now answers :
  idled r0 r -> quiet r running -> 0 <= now -> (forall abs, deadline r running = Some abs -> now < abs <= INT64_MAX) ->
  answers_ok (fds r) (deadline r running) now answers = true ->
  runs (over ← wait_loop answers (deadline r running) now;
        if (over : bool) then r ← get_st; reset_limits (length (active_limits_list r)) ;; mret true else mret false)
    (fun over r' => rested r0 r' /\ (over = false -> still_early (deadline r running) answers)) r.
Proof.
  intros Hid Hq Hnow Hd Ha. step_eff. eapply eff_mono; [exact (wait_loop_ok _ _ _ _ Hq Hnow Hd Ha)|]. intros [] r1 [Hr He].
  - eapply eff_mono; [exact (reset_rested _ _ (idled_trans _ _ _ Hid Hr))|]. intros over r2 [Hr2 ->]. done.
  - step_eff. split; [exact (idled_trans _ _ _ Hid Hr)|exact He].
Qed.

Lemma clear_quiet r running :
  inv r -> timers_ok (latest (trace r)) (timers r) (timers_tree r) [] running -> timers_expired_list r = [] ->
  epoll_results_pos r = length (epoll_results r) -> quiet (with_results [] 0 r) running /\ idled r (with_results [] 0 r).
Proof.
  intros [H1 H2 H3 H4] Ht He Hp.
  assert (Hi : inv (with_results [] 0 r)).
  { split; cbn; [done|exact H2|done|]. split; [done|intros i e f; now rewrite lookup_nil|].
    intros f x i Ef Ea Ep. destruct (fo_ptr _ _ _ H4 f x i Ef Ea Ep) as (Hi & e & Ee & _). apply lookup_lt_Some in Ee. lia. }
  split; [split; done|]. split; [done|]. split; [done|]. split; [done|]. exists []. split; [now rewrite app_nil_r|constructor].
Qed.

(** All timers that are due, and no others, wait in the list, in the order of their times. *)
Definition due_expired r (now : Z) r' : Prop :=
  trace r' = trace r ++ [Look now] /\ StronglySorted (before (tval (timers r'))) (timers_expired_list r') /\
  (forall t, t ∈ timers_expired_list r' <-> exists time, armed (timers r) !! t = Some time /\ time <= now).

Lemma running_armed seen tm tree running t time :
  timers_ok seen tm tree [] running -> armed tm !! t = Some time <-> t ∈ running /\ fst (tval tm t) = time.
Proof.
  intros H. rewrite armed_lookup, (to_running _ _ _ _ _ H). unfold in_state, tval. cbn [fst].
  pose proof (to_expired _ _ _ _ _ H t) as He. unfold in_state in He.
  destruct (tm !! t) as [x|]; cbn; [|split; [done|intros [? _]; done]].
  destruct (state x) eqn:Es; cbn in *.
  - rewrite bool_decide_true by done. split; [done|intros [[=] _]].
  - rewrite bool_decide_false by done. split; [intros [= ->]; done|intros [_ ->]; done].
  - rewrite Es in He. apply proj2 in He. specialize (He eq_refl). now apply elem_of_nil in He.
Qed.

Lemma expired_due r now running l1 l2 r' :
  timers_ok (latest (trace r)) (timers r) (timers_tree r) [] running -> timers_expired_list r = [] ->
  running = l1 ++ l2 -> expired r l1 l2 r' ->
  Forall (fun t => fst (tval (timers r) t) <= now) l1 -> Forall (fun t => now < fst (tval (timers r) t)) l2 ->
  trace r' = trace r /\ StronglySorted (before (tval (timers r'))) (timers_expired_list r') /\
  (forall t, t ∈ timers_expired_list r' <-> exists time, armed (timers r) !! t = Some time /\ time <= now).
Proof.
  intros Hok He -> [(tm & tree & ->) G2 G3 _ _] F1 F2. cbn [timers_expired_list timers timer_part trace] in *. rewrite He in *. cbn [app] in *. split; [done|].
  split; [now apply StronglySorted_app in G3 as (_ & G3 & _)|]. intros t. rewrite Forall_forall in F1, F2. split.
  - intros Ht. eexists. split; [|exact (F1 t Ht)]. apply (running_armed _ _ _ _ _ _ Hok). set_solver.
  - intros (time & Ea & Hle). apply (running_armed _ _ _ _ _ _ Hok) in Ea as [Ht <-]. apply elem_of_app in Ht as [Ht|Ht]; [done|].
    specialize (F2 t Ht). lia.
Qed.

Lemma wait_for_events_ok r now answers :
  inv r -> pending_jobs r = [] -> timers_expired_list r = [] -> epoll_results_pos r = length (epoll_results r) ->
  env_ok r now answers = true ->
  runs (wait_for_events now answers)
    (fun over r' => rested r r' /\ (over = false -> still_early (first_deadline r) answers) /\
       (forall abs, first_deadline r = Some abs -> abs <= now -> over = true /\ due_expired r now r')) r.
Proof.
  intros Hi Hj He Hp Henv. pose proof Hi as [_ [running Ht] _ _]. rewrite He in Ht.
  apply andb_true_iff in Henv as [[Hn1 Hn2]%andb_true_iff Ha]. rewrite (deadline_first _ _ _ _ Ht) in *.
  destruct (clear_quiet _ _ Hi Ht He Hp) as [Hq Hid]. set (r1 := with_results [] 0 r) in *.
  unfold wait_for_events. step_eff. step_eff. step_eff. step_eff; [now apply bool_decide_true|]. step_eff. step_eff; [now apply bool_decide_true|].
  step_eff. step_eff; [now apply bool_decide_true|]. step_eff. step_eff. fold r1. step_eff. apply (runs_first _ _ r1 running (to_tree _ _ _ _ _ (q_timers _ _ Hq))).
  step_eff. destruct running as [|t running]; cbn [head].
  { step_eff. eapply eff_mono; [apply (wait_rest_ok r r1 [] now answers Hid Hq); [lia|done|exact Ha]|].
    intros over r' [H1 H2]. split; [done|]. split; [exact H2|done]. }
  assert (Hst : in_state (timers r) TIMER_STATE_RUNNING t) by (apply (to_running _ _ _ _ _ Ht), list_elem_of_here).
  unfold in_state in Hst. destruct (timers r !! t) as [x|] eqn:Ex; [|done]. injection Hst as Es.
  assert (Ev : fst (tval (timers r) t) = absTime x) by (unfold tval; now rewrite Ex).
  pose proof (to_times _ _ _ _ _ Ht t x Ex ltac:(congruence)) as Hx.
  step_eff. apply (runs_the_timer _ t x); [exact Ex|]. step_eff. step_eff; [now apply bool_decide_true|]. step_eff. step_eff.
  set (r2 := with_trace (Look now) r1). assert (Hq2 : quiet r2 (t :: running)) by now apply trace_quiet.
  assert (Hid2 : idled r1 r2) by now (apply trace_idled; [exact (q_inv _ _ Hq)|]).
  pose proof (idled_chain _ _ _ Hid Hid2) as Hid'.
  step_eff. eapply eff_mono; [apply (move_expired_ok now r2 (t :: running) (q_timers _ _ Hq2) (q_expired _ _ Hq2)); exact (latest_shows _ (Look now))|].
  intros moved r3 (l1 & l2 & El & Hex & F1 & F2 & ->). step_eff. pose proof (expired_idled _ _ _ _ (q_inv _ _ Hq2) Hex) as Hid3.
  destruct l1 as [|t1 l1]; [rewrite bool_decide_true by done|rewrite bool_decide_false by done]; cbn [negb].
  - cbn in El. subst l2. destruct Hex as [(tm & tree & ->) G2 G3 G4 G5].
    assert (Hq3 : quiet (timer_part tm tree [] r2) (t :: running)).
    { destruct Hid3 as [Hi3 _]. rewrite (q_expired _ _ Hq2) in *. split; [exact Hi3|exact G2|done|done]. }
    rewrite (q_expired _ _ Hq2) in *. cbn [app] in *. set (r3 := timer_part tm tree [] r2) in *.
    assert (Ed : deadline r3 (t :: running) = Some (absTime x)) by (unfold deadline; cbn [head fmap option_fmap option_map]; rewrite (G5 t), <- Ev; done).
    replace (deadline r (t :: running)) with (deadline r3 (t :: running)) by (rewrite Ed; unfold deadline; cbn [head fmap option_fmap option_map]; now rewrite Ev).
    assert (Hlt : now < absTime x) by (apply Forall_cons in F2 as [F2 _]; change (now < fst (tval (timers r) t)) in F2; lia).
    rewrite <- Ed. eapply eff_mono; [apply (wait_rest_ok r r3 (t :: running)); [|exact Hq3|lia| |]|].
    + exact (idled_chain _ _ _ Hid' Hid3).
    + rewrite Ed. intros abs [= <-]. lia.
    + rewrite Ed. unfold deadline in Ha. cbn [head fmap option_fmap option_map] in Ha. rewrite Ev in Ha. exact Ha.
    + intros over r' [H1 H2]. split; [done|]. split; [done|]. rewrite Ed. intros abs [= <-]. lia.
  - step_eff. split; [exact (idled_trans _ _ _ Hid' (idled_rested _ _ Hid3))|]. split; [done|]. intros abs _ _. split; [done|].
    exact (expired_due r2 now (t :: running) _ _ _ (q_timers _ _ Hq2) (q_expired _ _ Hq2) El Hex F1 F2).
Qed.

End Run.
