(* ===== verification/ReactorFacts.v ===== *)
(** * Theorems about the event loop *)

From stdpp Require Import sorting.
From S2P Require Import Prelude Effect BPending BAddr BAVL TimersTree Reactor ReactorInv ReactorRun.

Open Scope Z_scope.

Import Reactor.

#[export] Instance act_eq_dec : EqDecision act.
Proof. solve_decision. Defined.

Section Facts.
Context {T : Type} `{!TimersTree T} {L : TimersTreeLaws T}.
Notation R := (reactor T).
Implicit Types (r : R).

(** ** A round *)

(** A handler is about to be called. *)
Inductive called (s : spec) : list dispatched -> spec -> Prop :=
  | CallJob j jobs : sp_jobs s = j :: jobs -> called s [RunJob j] (Spec jobs (sp_armed s) (sp_watched s) (sp_exit s))
  | CallTimer t time :
      sp_jobs s = [] -> sp_armed s !! t = Some time ->
      called s [RunTimer t time] (Spec [] (delete t (sp_armed s)) (sp_watched s) (sp_exit s))
  | CallFd f w ev : sp_jobs s = [] -> sp_watched s !! f = Some w -> permitted_events w ev -> called s [RunFd f ev] s.

Lemma called_round h s tr s' : called s tr s' -> spec_round h s tr (spec_acts h s').
Proof. destruct 1; econstructor; eauto. Qed.

Lemma reported_permitted x ev : reported_events x ev <> 0 -> permitted_events (waitEvents x) (reported_events x ev).
Proof.
  unfold permitted_events, reported_events. intros H. split; [exact H|]. clear H.
  destruct (has (waitEvents x) BREACTOR_READ), (has (waitEvents x) BREACTOR_WRITE), (has ev EPOLLIN), (has ev EPOLLOUT), (has ev EPOLLERR), (has ev EPOLLHUP);
    cbn; (split; [done|]); split; (done || discriminate).
Qed.

(** A timer is not called before its time. *)
Definition timely (l : list dispatched) : Prop :=
  forall l1 t time l2, l = l1 ++ RunTimer t time :: l2 -> time <= latest l1.

Lemma timely_snoc l e : timely l -> (forall t time, e = RunTimer t time -> time <= latest l) -> timely (l ++ [e]).
Proof.
  intros H He l1 t time l2 E. destruct l2 as [|x l2 _] using rev_ind.
  - apply app_inj_tail in E as [-> ->]. now apply (He t).
  - rewrite app_comm_cons, app_assoc in E. apply app_inj_tail in E as [-> _]. now apply (H _ t _ l2).
Qed.

Lemma timely_idle l tr : timely l -> Forall idle tr -> timely (l ++ tr).
Proof.
  intros H Htr. revert l H. induction Htr as [|e tr He _ IH]; intros l H; [now rewrite app_nil_r|].
  rewrite cons_middle, app_assoc. apply IH, timely_snoc; [done|]. now intros t time ->.
Qed.

(** What a round does before a handler is called. *)
Definition dispatched_to r (n : next) r' : Prop :=
  inv r' /\ (timely (trace r) -> timely (trace r')) /\
  exists tr, trace r' = trace r ++ tr /\
    match n with
    | Call => called (abs r) tr (abs r')
    | Over _ => pending_jobs r = [] /\ abs r' = abs r /\ Forall idle tr
    end.

Lemma dispatch_job r j jobs : inv r -> pending_jobs r = j :: jobs ->
  dispatched_to r Call (with_trace (RunJob j) (with_jobs (fun _ => jobs) r)).
Proof.
  intros [H1 [running H2] H3 H4] Ej. rewrite Ej in H1. apply NoDup_cons in H1 as [_ H1].
  split; [|split].
  - split; cbn [pending_jobs timers timers_tree timers_expired_list trace limits active_limits_list fds epoll_results epoll_results_pos with_trace with_jobs]; [done| |done|done].
    exists running. apply (timers_later (latest (trace r))); [|done]. rewrite latest_snoc. lia.
  - intros H. apply timely_snoc; [exact H|done].
  - exists [RunJob j]. split; [done|]. apply CallJob. exact Ej.
Qed.

Lemma dispatch_timer r t exp x : inv r -> pending_jobs r = [] -> timers_expired_list r = t :: exp -> timers r !! t = Some x -> state x = TIMER_STATE_EXPIRED ->
  dispatched_to r Call (with_trace (RunTimer t (absTime x)) (with_timers <[t := Timer (absTime x) TIMER_STATE_INACTIVE]> (with_expired (filter (fun j => j <> t)) r))).
Proof.
  intros [H1 [running H2] H3 H4] Ej Ee Ex Es. split; [|split].
  - split; cbn [pending_jobs timers timers_tree timers_expired_list trace limits active_limits_list fds epoll_results epoll_results_pos with_trace with_timers with_expired]; [done| |done|done].
    exists running. apply (timers_later (latest (trace r))); [rewrite latest_snoc; lia|]. now apply timers_drop.
  - intros H. apply timely_snoc; [exact H|]. intros t' time [= <- <-]. exact (to_due _ _ _ _ _ H2 t x Ex Es).
  - exists [RunTimer t (absTime x)]. split; [done|].
    match goal with |- called _ _ ?s => replace s with (Spec [] (delete t (sp_armed (abs r))) (sp_watched (abs r)) (sp_exit (abs r))) end.
    + apply CallTimer; [exact Ej|]. cbn. rewrite armed_lookup, Ex. cbn. now rewrite bool_decide_false by congruence.
    + unfold abs. cbn [pending_jobs timers fds exiting exit_code with_trace with_timers with_expired sp_armed sp_watched sp_exit].
      rewrite armed_stop by done. now rewrite Ej.
Qed.

(** The entry at the position is done with. *)
Lemma fds_next fd l pos e f x :
  fds_ok fd l pos -> l !! pos = Some e -> data_ptr e = Some f -> fd !! f = Some x ->
  fds_ok (<[f := Descriptor (active x) (waitEvents x) None]> fd) l (S pos).
Proof.
  intros [H1 H2 H3] Ee Ed Ef. split.
  - apply lookup_lt_Some in Ee. lia.
  - intros i e' g Ee' Hi Eg. destruct (H2 i e' g Ee' ltac:(lia) Eg) as (y & Ey & Ha & Hp). exists y. rewrite lookup_insert_ne; [done|].
    intros <-. destruct (H2 pos e f Ee ltac:(lia) Ed) as (z & Ez & _ & Hz). rewrite Ey in Ez. injection Ez as <-. assert (i = pos) by congruence. lia.
  - intros g y i [[<- <-]|[Hne Ey]]%lookup_insert_Some Ha Hp; [done|]. destruct (H3 g y i Ey Ha Hp) as (Hi & e' & Ee' & Hd'). split; [|eauto].
    destruct (decide (i = pos)) as [->|]; [|lia]. rewrite Ee in Ee'. injection Ee' as <-. congruence.
Qed.

Lemma fds_skip fd l pos e : fds_ok fd l pos -> l !! pos = Some e -> data_ptr e = None -> fds_ok fd l (S pos).
Proof.
  intros [H1 H2 H3] Ee Ed. split.
  - apply lookup_lt_Some in Ee. lia.
  - intros i e' g Ee' Hi Eg. apply (H2 i e' g Ee'); [lia|done].
  - intros g y i Ey Ha Hp. destruct (H3 g y i Ey Ha Hp) as (Hi & e' & Ee' & Hd'). split; [|eauto].
    destruct (decide (i = pos)) as [->|]; [|lia]. rewrite Ee in Ee'. injection Ee' as <-. congruence.
Qed.

Lemma dispatch_ok r now answers : inv r -> env_ok r now answers = true -> runs (dispatch now answers) (fun n r' => dispatched_to r n r') r.
Proof.
  intros Hi Henv. unfold dispatch. step_eff. step_eff. destruct (pending_jobs r) as [|j jobs] eqn:Ej; cbn [BPendingGroup_ExecuteJob].
  2: { step_eff. step_eff. step_eff. step_eff. step_eff. now apply dispatch_job. }
  destruct (timers_expired_list r) as [|t exp] eqn:Ee.
  2: { pose proof Hi as [_ [running H2] _ _]. assert (Ht : in_state (timers r) TIMER_STATE_EXPIRED t) by (apply (to_expired _ _ _ _ _ H2); rewrite Ee; apply list_elem_of_here).
    unfold in_state in Ht. destruct (timers r !! t) as [x|] eqn:Ex; [|done]. injection Ht as Es.
    step_eff. apply (runs_the_timer _ _ _ _ _ Ex). step_eff. step_eff; [now apply bool_decide_true|]. step_eff. step_eff. step_eff. unfold set_timer. step_eff.
    step_eff. step_eff. step_eff. now apply (dispatch_timer _ _ exp). }
  pose proof Hi as [H1 [running H2] H3 H4]. destruct (epoll_results r !! epoll_results_pos r) as [e|] eqn:Er.
  - step_eff. step_eff. destruct (data_ptr e) as [f|] eqn:Ed.
    + destruct (fo_entry _ _ _ H4 _ _ _ Er (Nat.le_refl _) Ed) as (x & Ex & Ha & Hp).
      step_eff. apply (runs_the_fd _ f x); [exact Ex|]. step_eff. step_eff; [done|]. step_eff. step_eff; [now apply bool_decide_true|].
      step_eff. unfold set_fd. step_eff. pose proof (fds_next _ _ _ _ _ _ H4 Er Ed Ex) as Hf.
      set (r1 := with_fds _ _). assert (Hi1 : inv r1) by (split; cbn; eauto).
      assert (Ea : abs r1 = abs r) by (unfold abs; cbn; f_equal; now apply (watched_same _ _ x)).
      cbn zeta. destruct (Z.eqb_spec (reported_events x (events e)) 0) as [E0|N0].
      * step_eff. split; [done|]. split; [done|]. exists []. split; [cbn; now rewrite app_nil_r|]. split; [done|]. split; [exact Ea|constructor].
      * step_eff. step_eff. step_eff. set (ev := RunFd f _). split; [|split].
        { destruct Hi1 as [A1 [run A2] A3 A4]. split; cbn [pending_jobs timers timers_tree timers_expired_list trace limits active_limits_list fds epoll_results epoll_results_pos with_trace] in *; [done| |done|done].
          exists run. apply (timers_later (latest (trace r1))); [|exact A2]. rewrite latest_snoc. lia. }
        { intros H. apply timely_snoc; [exact H|done]. }
        { exists [ev]. split; [done|]. change (called (abs r) [ev] (abs r1)). rewrite Ea.
          apply (CallFd _ _ (waitEvents x)); [exact Ej| |now apply reported_permitted]. cbn. rewrite watched_lookup, Ex. cbn. now rewrite Ha. }
    + step_eff. split; [split; cbn; [done|eauto|done|exact (fds_skip _ _ _ _ H4 Er Ed)]|]. split; [done|]. exists []. split; [cbn; now rewrite app_nil_r|].
      split; [done|]. split; [done|constructor].
  - apply lookup_ge_None in Er. pose proof (fo_pos _ _ _ H4) as Hpos. step_eff.
    eapply eff_mono; [apply (wait_for_events_ok r now answers Hi Ej Ee); [lia|done]|]. intros over r' [(B1 & B2 & tr & B3 & B4) _]. step_eff.
    split; [done|]. split; [rewrite B3; intros H; now apply timely_idle|]. exists tr. done.
Qed.

(** ** Reachable states *)

(** What the handler does meets the contracts where it is called. *)
Definition handler_ok r (h : list act) (now : Z) (answers : list answer) : bool :=
  match dispatch now answers r with Done Call r' => acts_ok r' h | _ => true end.

Lemma round_good r h now answers :
  inv r -> env_ok r now answers = true -> handler_ok r h now answers = true ->
  runs (exec_round h now answers)
    (fun _ r' => inv r' /\ (timely (trace r) -> timely (trace r')) /\
       exists tr, trace r' = trace r ++ tr /\ spec_round h (abs r) tr (abs r')) r.
Proof.
  intros Hi Henv Hh. unfold exec_round. step_eff. destruct (eff_done _ _ _ (dispatch_ok r now answers Hi Henv)) as (n & r1 & E & Hi1 & Ht1 & tr & Etr & Hn).
  unfold handler_ok in Hh. rewrite E in Hh. unfold runs at 1. rewrite E. destruct n as [|b].
  - step_eff. eapply eff_mono; [exact (acts_good h r1 Hi1 Hh)|]. intros [] r2 (Hi2 & Ea2 & Et2). step_eff. rewrite Et2, Ea2.
    split; [done|]. split; [done|]. exists tr. split; [done|]. now apply called_round.
  - step_eff. destruct Hn as (Hj & Ea & Htr). split; [done|]. split; [done|]. exists tr. split; [done|]. rewrite Ea. now apply RoundIdle.
Qed.

(** The program sets the reactor up and runs the loop. *)
Inductive reaches : R -> Prop :=
  | ReachInit : reaches BReactor_Init
  | ReachAct r a r' : reaches r -> act_ok r a = true -> run_act a r = Done tt r' -> reaches r'
  | ReachRound r h now answers r' :
      reaches r -> exiting r = false -> env_ok r now answers = true -> handler_ok r h now answers = true ->
      exec_round h now answers r = Done true r' -> reaches r'.

Lemma reactor_reaches_good r : reaches r -> inv r /\ timely (trace r).
Proof.
  induction 1 as [|r a r' _ [Hi Ht] Ha E|r h now answers r' _ [Hi Ht] _ Henv Hh E].
  - split; [exact reactor_init_inv|]. intros l1 t time l2 E. now destruct l1.
  - destruct (eff_at _ _ _ _ _ (act_good a r Hi Ha) E) as (Hi' & _ & Et). now rewrite Et.
  - destruct (eff_at _ _ _ _ _ (round_good r h now answers Hi Henv Hh) E) as (Hi' & Ht' & _). auto.
Qed.

(** ** Synchronisation *)

Fixpoint sync_ok (ref : nat) r (handlers : list (list act)) : bool :=
  match handlers, pending_jobs r with
  | h :: handlers, j :: jobs =>
      let r1 := with_trace (RunJob j) (with_jobs (fun _ => jobs) r) in
      acts_ok r1 h && bool_decide (UnsetJob ref ∉ h) && match run_acts h r1 with Done _ r2 => sync_ok ref r2 handlers | Bad _ => true end
  | _, _ => true
  end.

Lemma acts_keep_job ref h : forall s, UnsetJob ref ∉ h -> ref ∈ sp_jobs s -> ref ∈ sp_jobs (spec_acts h s).
Proof.
  induction h as [|a h IH]; intros s Hu Hs; [done|]. apply not_elem_of_cons in Hu as [Ha Hu].
  change (ref ∈ sp_jobs (spec_acts h (spec_act a s))). apply IH; [done|].
  destruct a as [ |j|j| | | | |? []| | | | | | ]; cbn; try done.
  - destruct (decide (ref = j)) as [->|Hne]; [apply list_elem_of_here|]. apply list_elem_of_further, list_elem_of_filter. auto.
  - apply list_elem_of_filter. split; [congruence|done].
Qed.

Lemma synchronize_ok ref : forall handlers r, inv r -> ref ∈ pending_jobs r -> sync_ok ref r handlers = true ->
  runs (BReactor_Synchronize ref handlers) (fun res r' => inv r' /\ (res = Some 1 -> head (pending_jobs r') = Some ref)) r.
Proof.
  induction handlers as [|h handlers IH]; intros r Hi Href Hok; cbn [BReactor_Synchronize]; step_eff; step_eff;
    (destruct (exiting r); [now step_eff|]); (destruct (pending_jobs r) as [|j jobs] eqn:Ej; [now apply elem_of_nil in Href|]); cbn [BPendingGroup_ExecuteJob].
  all: case_bool_decide as Hj; [step_eff; split; [done|]; intros _; rewrite Ej; cbn; congruence|].
  - now step_eff.
  - cbn [sync_ok] in Hok. rewrite Ej in Hok. apply andb_true_iff in Hok as [[Hacts Hu]%andb_true_iff Hok]. apply bool_decide_eq_true in Hu.
    step_eff. step_eff. step_eff. step_eff. step_eff. set (r1 := with_trace _ _) in *.
    destruct (dispatch_job r j jobs Hi Ej) as (Hi1 & _). fold r1 in Hi1.
    destruct (eff_done _ _ _ (acts_good h r1 Hi1 Hacts)) as ([] & r2 & E & Hi2 & Ea & _). unfold runs at 1. rewrite E in Hok |- *.
    apply IH; [done| |done]. change (ref ∈ sp_jobs (abs r2)). rewrite Ea. apply acts_keep_job; [done|]. cbn. set_solver.
Qed.

(** ** The theorems *)

(** C23. The loop does not fail. In every state the program can bring the reactor to, and whatever the handlers do within
    the contracts and the clock and [epoll_wait] answer, the next round returns without a failed assertion, an
    overflow of the time or a write through a dangling pointer into the results. Every timer is in the tree or the list
    its state says, or in none; an entry of the results that waits is that of an active descriptor, or was
    cleared. *)
Theorem reactor_safe r :
  reaches r ->
  (forall h now answers, env_ok r now answers = true -> handler_ok r h now answers = true ->
     exists over r', exec_round h now answers r = Done over r') /\
  (exists running, tt_nodes (timer_value r) (timers_tree r) running /\
     forall t, (t ∈ running <-> in_state (timers r) TIMER_STATE_RUNNING t) /\
               (t ∈ timers_expired_list r <-> in_state (timers r) TIMER_STATE_EXPIRED t)) /\
  (forall i e f, epoll_results r !! i = Some e -> (epoll_results_pos r <= i)%nat -> data_ptr e = Some f ->
     exists x, fds r !! f = Some x /\ active x = true /\ epoll_returned_ptr x = Some i).
Proof.
  intros Hr. destruct (reactor_reaches_good r Hr) as [Hi _]. split; [|split].
  - intros h now answers Henv Hh. destruct (eff_done _ _ _ (round_good r h now answers Hi Henv Hh)) as (over & r' & E & _). eauto.
  - destruct Hi as [_ [running H] _ _]. exists running. split; [exact (to_tree _ _ _ _ _ H)|]. intros t.
    split; [apply (to_running _ _ _ _ _ H)|apply (to_expired _ _ _ _ _ H)].
  - exact (fo_entry _ _ _ (inv_fds _ Hi)).
Qed.


(** C24. Timers run on time: no timer was ever called before the clock had reached its time, and a reactor with nothing to
    run does not wait beyond the time of a timer. If the first timer is due, the round ends at once, with exactly
    the timers that are due in the list of those to be called, in the order of their times; if not, the wait is
    over at the latest when the clock is seen at its time. *)
Theorem reactor_timers_on_time r h now answers time :
  reaches r -> env_ok r now answers = true ->
  pending_jobs r = [] -> timers_expired_list r = [] -> epoll_results_pos r = length (epoll_results r) ->
  first_deadline r = Some time ->
  timely (trace r) /\
  (time <= now \/ (exists a, a ∈ answers /\ time <= clock a) -> exists r', exec_round h now answers r = Done true r') /\
  (time <= now -> exists r', exec_round h now answers r = Done true r' /\ due_expired r now r').
Proof.
  intros Hr Henv Hj He Hp Hd. destruct (reactor_reaches_good r Hr) as [Hi Ht]. split; [done|].
  destruct (eff_done _ _ _ (wait_for_events_ok r now answers Hi Hj He Hp Henv)) as (over & r' & E & _ & Hearly & Hdue).
  assert (Er : exec_round h now answers r = Done over r').
  { unfold exec_round, dispatch, mbind, eff_mbind, get_st. rewrite Hj. cbn [BPendingGroup_ExecuteJob]. rewrite He.
    rewrite (lookup_ge_None_2 _ _ (Nat.eq_le_incl _ _ (eq_sym Hp))), E. done. }
  split.
  - intros [Hle|(a & Ha & Hle)]; [destruct (Hdue time Hd Hle) as [-> _]; eauto|]. destruct over; [eauto|].
    specialize (Hearly eq_refl a time Ha Hd). lia.
  - intros Hle. destruct (Hdue time Hd Hle) as [-> H]. eauto.
Qed.

End Facts.

(** ** A run *)

Section Demo.
Notation R := (reactor BAVL).
Implicit Types (r : R).

Fixpoint setup (h : list act) r : R :=
  match h with [] => r | a :: h => match run_act a r with Done _ r' => setup h r' | Bad _ => r end end.

Lemma setup_reached h : forall r, reaches r -> acts_ok r h = true -> reaches (setup h r).
Proof.
  induction h as [|a h IH]; intros r Hr Ha; [done|]. cbn [acts_ok setup] in *. apply andb_true_iff in Ha as [Ha Hh].
  destruct (run_act a r) as [[] r'|] eqn:E; [|done]. apply IH; [|done]. exact (ReachAct _ _ _ Hr Ha E).
Qed.

Fixpoint rounds_ok (l : list (list act * (Z * list answer))) r : bool :=
  match l with
  | [] => true
  | (h, (now, answers)) :: l =>
      negb (exiting r) && env_ok r now answers && handler_ok r h now answers &&
      match exec_round h now answers r with Done true r' => rounds_ok l r' | _ => false end
  end.

Fixpoint rounds_end (l : list (list act * (Z * list answer))) r : R :=
  match l with
  | [] => r
  | (h, (now, answers)) :: l => match exec_round h now answers r with Done _ r' => rounds_end l r' | Bad _ => r end
  end.

Lemma rounds_reached l : forall r, reaches r -> rounds_ok l r = true -> reaches (rounds_end l r).
Proof.
  induction l as [|[h [now answers]] l IH]; intros r Hr Hl; [done|]. cbn [rounds_ok rounds_end] in *.
  apply andb_true_iff in Hl as [[[H1 H2]%andb_true_iff H3]%andb_true_iff H4]. apply negb_true_iff in H1.
  destruct (exec_round h now answers r) as [[] r'|] eqn:E; [|done|done]. apply IH; [|done]. exact (ReachRound _ _ _ _ _ Hr H1 H2 H3 E).
Qed.

(** Three timers, two descriptors and a job; the first descriptor's handler removes the second one, whose event was
    reported with its own, and the timer that comes first. *)
Definition demo_setup : list act :=
  [InitTimer 0; InitTimer 1; InitTimer 2; SetTimer 0 true 100 0; SetTimer 1 true 50 0; SetTimer 2 true 100 0;
   InitFd 5; AddFd 5 true; SetEvents 5 BREACTOR_READ; InitFd 6; AddFd 6 true; SetEvents 6 BREACTOR_WRITE; SetJob 9]%nat.

Definition demo_rounds : list (list act * (Z * list answer)) :=
  [([], (0, []));
   ([], (1, [Answer WaitInterrupted 3; Answer (WaitEvents [(5%nat, EPOLLIN); (6%nat, EPOLLOUT)]) 10]));
   ([RemoveFd 6%nat; RemoveTimer 1%nat; SetJob 8%nat], (0, []));
   ([], (0, []));
   ([], (0, []));
   ([], (20, [Answer (WaitEvents []) 100]));
   ([SetTimer 0%nat true 5 101], (0, []))].

Definition demo_start : R := setup demo_setup BReactor_Init.
Definition demo_state (n : nat) : R := rounds_end (firstn n demo_rounds) demo_start.

Lemma demo_reached n : bool_decide (n <= 7)%nat = true -> reaches (demo_state n).
Proof.
  intros Hn. apply rounds_reached; [apply setup_reached; [constructor|vm_compute; reflexivity]|].
  apply bool_decide_eq_true in Hn. do 8 (destruct n as [|n]; [vm_compute; reflexivity|]). lia.
Qed.

Example demo_trace : trace (demo_state 7) =
  [RunJob 9; Look 1; Wait 49 3; Wait 47 10; RunFd 5 BREACTOR_READ; RunJob 8; Look 20; Wait 80 100; RunTimer 0 100].
Proof. vm_compute. reflexivity. Qed.

Lemma reactor_safe_witness : exists r : R, timers_expired_list r = [2%nat] /\ forall h now answers,
  env_ok r now answers = true -> handler_ok r h now answers = true -> exists over r', exec_round h now answers r = Done over r'.
Proof.
  exists (demo_state 7). split; [vm_compute; reflexivity|]. refine (proj1 (reactor_safe (demo_state 7) _)). apply demo_reached. reflexivity.
Defined.


Lemma reactor_timers_on_time_witness : exists (r : R) r',
  first_deadline r = Some 100 /\ exec_round [] 150 [] r = Done true r' /\ due_expired r 150 r'.
Proof.
  exists (demo_state 5).
  destruct (proj2 (proj2 (reactor_timers_on_time (demo_state 5) [] 150 [] 100 (demo_reached 5 eq_refl)
    ltac:(vm_compute; reflexivity) ltac:(vm_compute; reflexivity) ltac:(vm_compute; reflexivity) ltac:(vm_compute; reflexivity) ltac:(vm_compute; reflexivity))) ltac:(lia)) as (r' & E & H).
  exists r'. split; [vm_compute; reflexivity|]. split; [exact E|exact H].
Defined.

End Demo.
