(* ===== verification/BDatagram.v ===== *)
(** * Datagram sockets ([badvpn/system/BDatagram_unix.c])

    The UDP sockets of the relay client. Sending starts when the addresses are known,
    receiving when the socket has a port, because it was bound or something was sent.
    As with stream sockets an operation is tried when its job runs, and waits for an
    event of the reactor when the socket is not ready or the object has had its share of
    the round.

    The kernel is the field [kernel], the result of the one system call a step makes: a
    datagram is sent as a whole or not at all. [broken] says that the socket has an error,
    which the next call reports. Addresses of packet sockets are not used by this program.
    Failed assertions are faults. *)

From S2P Require Import Prelude Effect BPending BAddr BConnection.

Open Scope Z_scope.

Module BDgram.

(** The events of the reactor are those of stream sockets. *)
Notation BREACTOR_READ := BConn.BREACTOR_READ.
Notation BREACTOR_WRITE := BConn.BREACTOR_WRITE.
Notation BREACTOR_ERROR := BConn.BREACTOR_ERROR.
Notation BREACTOR_HUP := BConn.BREACTOR_HUP.
Notation has := BConn.has.

Definition BDATAGRAM_SEND_LIMIT : Z := 2.
Definition BDATAGRAM_RECV_LIMIT : Z := 2.

(** ** Addresses *)

Inductive BIPAddr := BIPADDR_NONE | BIPADDR_IPV4 (ip : list Z) | BIPADDR_IPV6 (ip : list Z).

(** [struct sys_addr]: the addresses of the socket interface, by their families. *)
Inductive sys_addr :=
  | SysIPv4 (port ip : list Z)
  | SysIPv6 (port : list Z) (flowinfo : Z) (ip : list Z) (scope_id : Z)
  | SysOther (family : Z).

Definition BDatagram_AddressFamilySupported (a : BAddr) : bool :=
  match a with BADDR_IPV4 _ _ | BADDR_IPV6 _ _ => true | BADDR_NONE => false end.

(** [None] is the failed assertion. *)
Definition addr_socket_to_sys (a : BAddr) : option sys_addr :=
  match a with
  | BADDR_IPV4 ip port => Some (SysIPv4 port ip)
  | BADDR_IPV6 ip port => Some (SysIPv6 port 0 ip 0)
  | BADDR_NONE => None
  end.

Definition addr_sys_to_socket (a : sys_addr) : BAddr :=
  match a with
  | SysIPv4 port ip => BAddr_InitIPv4 ip port
  | SysIPv6 port _ ip _ => BAddr_InitIPv6 ip port
  | SysOther _ => BADDR_NONE
  end.

(** A control message: the address a packet was sent to, or something else. *)
Inductive cmsg := PktInfo4 (ip : list Z) | PktInfo6 (ip : list Z) | OtherCmsg.

(** The loop over the control messages in [do_recv]. *)
Definition local_of (l : list cmsg) : BIPAddr :=
  foldl (fun acc c =>
    match c with PktInfo4 ip => BIPADDR_IPV4 ip | PktInfo6 ip => BIPADDR_IPV6 ip | OtherCmsg => acc end) BIPADDR_NONE l.

(** The control message that [do_send] adds for the local address. *)
Definition pktinfo_of (a : BIPAddr) : list cmsg :=
  match a with BIPADDR_NONE => [] | BIPADDR_IPV4 ip => [PktInfo4 ip] | BIPADDR_IPV6 ip => [PktInfo6 ip] end.

(** ** State *)

(** A system call that transfers a datagram: it was sent, one was received, it would block, or another
    error. *)
Inductive io_result := IoSent | IoReceived (from : sys_addr) (control : list cmsg) (data : list Z) | IoAgain | IoFail.

Record send_side := Send {
  s_count : Z;
  s_have_addrs : bool;
  s_remote : BAddr;
  s_local : BIPAddr;
  s_inited : bool;
  s_mtu : Z;
  s_if : pi_state;
  s_job : bool;
  s_busy : bool;
  busy_data : list Z;
}.

Record recv_side := Recv {
  r_count : Z;
  started : bool;
  r_have_addrs : bool;
  r_remote : BAddr;
  r_local : BIPAddr;
  r_inited : bool;
  r_mtu : Z;
  r_if : pi_state;
  r_job : bool;
  r_busy : bool;
  r_done : list Z;
}.

(** [BDatagram]; [active] and [waitEvents] are the fields of its [BFileDescriptor]. *)
Record datagram := Datagram {
  active : bool;
  waitEvents : Z;
  wait_events : Z;
  send : send_side;
  recv : recv_side;
  errored : bool;
}.

(** What was done, in order: addresses were set, a datagram was sent. *)
Inductive entry :=
  | AddrsSet (remote : BAddr) (local : BIPAddr)
  | DatagramSent (dest : sys_addr) (control : list cmsg) (data : list Z).

(** The socket, the result of the next call, the number of errors reported; the history of addresses and
    datagrams, and the data the user was told is sent; the datagrams that were received and those given to the
    user, with the addresses it can ask for then. *)
Record world := World {
  dgram : option datagram;
  kernel : io_result;
  broken : bool;
  errors : Z;
  history : list entry;
  told : list (list Z);
  arrived : list (sys_addr * list cmsg * list Z);
  delivered : list (BAddr * BIPAddr * list Z);
}.

Definition with_send (f : send_side -> send_side) (o : datagram) : datagram :=
  Datagram (active o) (waitEvents o) (wait_events o) (f (send o)) (recv o) (errored o).
Definition with_recv (f : recv_side -> recv_side) (o : datagram) : datagram :=
  Datagram (active o) (waitEvents o) (wait_events o) (send o) (f (recv o)) (errored o).
Definition with_wait (e : Z) (o : datagram) : datagram :=
  Datagram (active o) (waitEvents o) e (send o) (recv o) (errored o).
Definition with_fd (a : bool) (e : Z) (o : datagram) : datagram :=
  Datagram a e (wait_events o) (send o) (recv o) (errored o).
Definition with_errored (o : datagram) : datagram :=
  Datagram (active o) (waitEvents o) (wait_events o) (send o) (recv o) true.

Definition with_dgram (d : option datagram) (w : world) : world :=
  World d (kernel w) (broken w) (errors w) (history w) (told w) (arrived w) (delivered w).
Definition with_kernel (k : io_result) (b : bool) (w : world) : world :=
  World (dgram w) k b (errors w) (history w) (told w) (arrived w) (delivered w).
Definition with_error (w : world) : world :=
  World (dgram w) (kernel w) (broken w) (errors w + 1) (history w) (told w) (arrived w) (delivered w).
Definition with_entry (e : entry) (w : world) : world :=
  World (dgram w) (kernel w) (broken w) (errors w) (history w ++ [e]) (told w) (arrived w) (delivered w).
Definition with_told (p : list Z) (w : world) : world :=
  World (dgram w) (kernel w) (broken w) (errors w) (history w) (told w ++ [p]) (arrived w) (delivered w).
Definition with_arrived (p : sys_addr * list cmsg * list Z) (w : world) : world :=
  World (dgram w) (kernel w) (broken w) (errors w) (history w) (told w) (arrived w ++ [p]) (delivered w).
Definition with_delivered (p : BAddr * BIPAddr * list Z) (w : world) : world :=
  World (dgram w) (kernel w) (broken w) (errors w) (history w) (told w) (arrived w) (delivered w ++ [p]).

Definition this (line : Z) : eff world datagram :=
  w ← get_st;
  match dgram w with Some o => mret o | None => bad line end.

Definition set_this (line : Z) (f : datagram -> datagram) : eff world unit :=
  o ← this line;
  upd_st (with_dgram (Some (f o))).

Definition s_set_count (n : Z) (s : send_side) : send_side :=
  Send n (s_have_addrs s) (s_remote s) (s_local s) (s_inited s) (s_mtu s) (s_if s) (s_job s) (s_busy s) (busy_data s).
Definition s_set_addrs (remote : BAddr) (local : BIPAddr) (s : send_side) : send_side :=
  Send (s_count s) (s_have_addrs s) remote local (s_inited s) (s_mtu s) (s_if s) (s_job s) (s_busy s) (busy_data s).
Definition s_set_have_addrs (s : send_side) : send_side :=
  Send (s_count s) true (s_remote s) (s_local s) (s_inited s) (s_mtu s) (s_if s) (s_job s) (s_busy s) (busy_data s).
Definition s_set_if (i : pi_state) (s : send_side) : send_side :=
  Send (s_count s) (s_have_addrs s) (s_remote s) (s_local s) (s_inited s) (s_mtu s) i (s_job s) (s_busy s) (busy_data s).
Definition s_set_job (j : bool) (s : send_side) : send_side :=
  Send (s_count s) (s_have_addrs s) (s_remote s) (s_local s) (s_inited s) (s_mtu s) (s_if s) j (s_busy s) (busy_data s).
Definition s_set_busy (b : bool) (data : list Z) (s : send_side) : send_side :=
  Send (s_count s) (s_have_addrs s) (s_remote s) (s_local s) (s_inited s) (s_mtu s) (s_if s) (s_job s) b data.

Definition r_set_count (n : Z) (r : recv_side) : recv_side :=
  Recv n (started r) (r_have_addrs r) (r_remote r) (r_local r) (r_inited r) (r_mtu r) (r_if r) (r_job r) (r_busy r) (r_done r).
Definition r_set_started (r : recv_side) : recv_side :=
  Recv (r_count r) true (r_have_addrs r) (r_remote r) (r_local r) (r_inited r) (r_mtu r) (r_if r) (r_job r) (r_busy r) (r_done r).
Definition r_set_addrs (remote : BAddr) (local : BIPAddr) (r : recv_side) : recv_side :=
  Recv (r_count r) (started r) true remote local (r_inited r) (r_mtu r) (r_if r) (r_job r) (r_busy r) (r_done r).
Definition r_set_if (i : pi_state) (r : recv_side) : recv_side :=
  Recv (r_count r) (started r) (r_have_addrs r) (r_remote r) (r_local r) (r_inited r) (r_mtu r) i (r_job r) (r_busy r) (r_done r).
Definition r_set_job (j : bool) (r : recv_side) : recv_side :=
  Recv (r_count r) (started r) (r_have_addrs r) (r_remote r) (r_local r) (r_inited r) (r_mtu r) (r_if r) j (r_busy r) (r_done r).
Definition r_set_busy (b : bool) (r : recv_side) : recv_side :=
  Recv (r_count r) (started r) (r_have_addrs r) (r_remote r) (r_local r) (r_inited r) (r_mtu r) (r_if r) (r_job r) b (r_done r).
Definition r_set_done (data : list Z) (r : recv_side) : recv_side :=
  Recv (r_count r) (started r) (r_have_addrs r) (r_remote r) (r_local r) (r_inited r) (r_mtu r) (r_if r) (r_job r) (r_busy r) data.

(** ** The reactor and the interfaces *)

Definition BReactor_SetFileDescriptorEvents (events : Z) : eff world unit :=
  o ← this 1201;
  assert_at 1201 (active o) ;;
  assert_at 1202 (negb (has events (Z.lnot (Z.lor BREACTOR_READ BREACTOR_WRITE)))) ;;
  set_this 1235 (with_fd (active o) events).

(** [o->wait_events |= event] with the call that tells the reactor. *)
Definition wait_event (event : Z) : eff world unit :=
  o ← this 253;
  set_this 253 (with_wait (Z.lor (wait_events o) event)) ;;
  o ← this 254;
  BReactor_SetFileDescriptorEvents (wait_events o).

(** [o->wait_events &= ~events] with the same call. *)
Definition wait_no_more (line events : Z) : eff world unit :=
  o ← this line;
  set_this line (with_wait (Z.land (wait_events o) (Z.lnot events))) ;;
  o ← this (line + 1);
  BReactor_SetFileDescriptorEvents (wait_events o).

(** [PacketPassInterface_Done]; the sender does not cancel. *)
Definition pass_done : eff world unit :=
  o ← this 151;
  assert_at 151 (bool_decide (s_if (send o) = STATE_BUSY)) ;;
  set_this 161 (with_send (s_set_if STATE_DONE_PENDING)).

(** [PacketRecvInterface_Done] *)
Definition packet_recv_done (data : list Z) : eff world unit :=
  o ← this 126;
  assert_at 126 (Z.of_nat (length data) <=? r_mtu (recv o)) ;;
  assert_at 127 (bool_decide (r_if (recv o) = STATE_BUSY)) ;;
  set_this 135 (with_recv (fun r => r_set_if STATE_DONE_PENDING (r_set_done data r))).

(** ** Sending and receiving *)

Definition report_error : eff world unit :=
  o ← this 236;
  assert_at 236 (negb (errored o)) ;;
  set_this 239 with_errored ;;
  upd_st with_error.

(** Lines 347 to 356, and the same in [BDatagram_Bind]. *)
Definition start_receiving (line : Z) : eff world unit :=
  o ← this line;
  whenever (negb (started (recv o)))
    (set_this line (with_recv r_set_started) ;;
     whenever (r_inited (recv o) && r_busy (recv o)) (set_this (line + 6) (with_recv (r_set_job true)))).

Definition do_send : eff world unit :=
  o ← this 245;
  assert_at 245 (negb (errored o)) ;;
  assert_at 246 (s_inited (send o)) ;;
  assert_at 247 (s_busy (send o)) ;;
  assert_at 248 (s_have_addrs (send o)) ;;
  if s_count (send o) >=? BDATAGRAM_SEND_LIMIT then wait_event BREACTOR_WRITE
  else
    set_this 251 (with_send (fun s => s_set_count (s_count s + 1) s)) ;;
    w ← get_st;
    match addr_socket_to_sys (s_remote (send o)) with
    | None => bad 148
    | Some dest =>
        match kernel w with
        | IoSent =>
            upd_st (with_entry (DatagramSent dest (pktinfo_of (s_local (send o))) (busy_data (send o)))) ;;
            start_receiving 348 ;;
            set_this 359 (with_send (fun s => s_set_busy false (busy_data s) s)) ;;
            pass_done
        | IoAgain => wait_event BREACTOR_WRITE
        | _ => report_error
        end
    end.

Definition do_recv : eff world unit :=
  o ← this 367;
  assert_at 367 (negb (errored o)) ;;
  assert_at 368 (r_inited (recv o)) ;;
  assert_at 369 (r_busy (recv o)) ;;
  assert_at 370 (started (recv o)) ;;
  if r_count (recv o) >=? BDATAGRAM_RECV_LIMIT then wait_event BREACTOR_READ
  else
    set_this 373 (with_recv (fun r => r_set_count (r_count r + 1) r)) ;;
    w ← get_st;
    match kernel w with
    | IoReceived from control data =>
        let data := take (Z.to_nat (r_mtu (recv o))) data in
        upd_st (with_arrived (from, control, data)) ;;
        set_this 424 (with_recv (r_set_addrs (addr_sys_to_socket from) (local_of control))) ;;
        set_this 450 (with_recv (r_set_busy false)) ;;
        packet_recv_done data
    | IoAgain => wait_event BREACTOR_READ
    | _ => report_error
    end.

Definition fd_handler (events : Z) : eff world unit :=
  o ← this 459;
  assert_at 459 (negb (errored o)) ;;
  wait_no_more 462 events ;;
  o ← this 468;
  let error := has events (Z.lor BREACTOR_ERROR BREACTOR_HUP) in
  let sending := s_inited (send o) && s_busy (send o) && s_have_addrs (send o) in
  let receiving := r_inited (recv o) && r_busy (recv o) && started (recv o) in
  let have_send := has events BREACTOR_WRITE || (error && sending) in
  assert_at 469 (negb have_send || sending) ;;
  let have_recv := has events BREACTOR_READ || (error && receiving) in
  assert_at 477 (negb have_recv || receiving) ;;
  if have_send then
    whenever have_recv (set_this 486 (with_recv (r_set_job true))) ;;
    do_send
  else if have_recv then do_recv
  else report_error.

Definition send_job_handler : eff world unit :=
  o ← this 506;
  assert_at 506 (negb (errored o)) ;;
  assert_at 507 (s_inited (send o)) ;;
  assert_at 508 (s_busy (send o)) ;;
  assert_at 509 (s_have_addrs (send o)) ;;
  do_send.

Definition recv_job_handler : eff world unit :=
  o ← this 518;
  assert_at 518 (negb (errored o)) ;;
  assert_at 519 (r_inited (recv o)) ;;
  assert_at 520 (r_busy (recv o)) ;;
  assert_at 521 (started (recv o)) ;;
  do_recv.

Definition send_if_handler_send (data : list Z) : eff world unit :=
  o ← this 530;
  assert_at 530 (negb (errored o)) ;;
  assert_at 531 (s_inited (send o)) ;;
  assert_at 532 (negb (s_busy (send o))) ;;
  assert_at 534 (Z.of_nat (length data) <=? s_mtu (send o)) ;;
  set_this 541 (with_send (s_set_busy true data)) ;;
  if negb (s_have_addrs (send o)) then mret tt
  else set_this 549 (with_send (s_set_job true)).

Definition recv_if_handler_recv : eff world unit :=
  o ← this 555;
  assert_at 555 (negb (errored o)) ;;
  assert_at 556 (r_inited (recv o)) ;;
  assert_at 557 (negb (r_busy (recv o))) ;;
  set_this 563 (with_recv (r_set_busy true)) ;;
  if negb (started (recv o)) then mret tt
  else set_this 571 (with_recv (r_set_job true)).

(** ** The interface of the object *)

(** The arguments are the results of the calls it makes; without success there is no object. *)
Definition BDatagram_Init (family_ok socket_ok nonblocking added : bool) : eff world bool :=
  assert_at 591 family_ok ;;
  if negb (socket_ok && nonblocking && added) then mret false
  else
    upd_st (with_dgram (Some (Datagram true 0 0
      (Send 0 false BADDR_NONE BIPADDR_NONE false 0 STATE_NONE false false [])
      (Recv 0 false false BADDR_NONE BIPADDR_NONE false 0 STATE_NONE false false []) false))) ;;
    mret true.

Definition BDatagram_Free : eff world unit :=
  o ← this 656;
  assert_at 656 (negb (r_inited (recv o))) ;;
  assert_at 657 (negb (s_inited (send o))) ;;
  assert_at 1146 (active o) ;;
  upd_st (with_dgram None).

(** [bound] is the result of [bind]. *)
Definition BDatagram_Bind (addr : BAddr) (bound : bool) : eff world bool :=
  o ← this 675;
  assert_at 675 (negb (errored o)) ;;
  assert_at 676 (BDatagram_AddressFamilySupported addr) ;;
  if negb bound then mret false
  else start_receiving 689 ;; mret true.

Definition BDatagram_SetSendAddrs (remote : BAddr) (local : BIPAddr) : eff world unit :=
  o ← this 705;
  assert_at 705 (negb (errored o)) ;;
  assert_at 706 (BDatagram_AddressFamilySupported remote) ;;
  upd_st (with_entry (AddrsSet remote local)) ;;
  set_this 710 (with_send (s_set_addrs remote local)) ;;
  whenever (negb (s_have_addrs (send o)))
    (set_this 715 (with_send s_set_have_addrs) ;;
     whenever (s_inited (send o) && s_busy (send o)) (set_this 719 (with_send (s_set_job true)))).

Definition BDatagram_GetLastReceiveAddrs (o : datagram) : option (BAddr * BIPAddr) :=
  if negb (r_have_addrs (recv o)) then None else Some (r_remote (recv o), r_local (recv o)).

Definition BDatagram_SendAsync_Init (mtu : Z) : eff world unit :=
  o ← this 759;
  assert_at 759 (negb (errored o)) ;;
  assert_at 760 (negb (s_inited (send o))) ;;
  assert_at 761 (0 <=? mtu) ;;
  set_this 776 (with_send (fun s => Send (s_count s) (s_have_addrs s) (s_remote s) (s_local s) true mtu STATE_NONE false false (busy_data s))).

Definition BDatagram_SendAsync_Free : eff world unit :=
  o ← this 782;
  assert_at 782 (s_inited (send o)) ;;
  wait_no_more 785 BREACTOR_WRITE ;;
  set_this 795 (with_send (fun s => Send (s_count s) (s_have_addrs s) (s_remote s) (s_local s) false (s_mtu s) STATE_NONE false (s_busy s) (busy_data s))).

Definition BDatagram_RecvAsync_Init (mtu : Z) : eff world unit :=
  o ← this 809;
  assert_at 809 (negb (errored o)) ;;
  assert_at 810 (negb (r_inited (recv o))) ;;
  assert_at 811 (0 <=? mtu) ;;
  set_this 826 (with_recv (fun r => Recv (r_count r) (started r) (r_have_addrs r) (r_remote r) (r_local r) true mtu STATE_NONE false false (r_done r))).

Definition BDatagram_RecvAsync_Free : eff world unit :=
  o ← this 832;
  assert_at 832 (r_inited (recv o)) ;;
  wait_no_more 835 BREACTOR_READ ;;
  set_this 845 (with_recv (fun r => Recv (r_count r) (started r) (r_have_addrs r) (r_remote r) (r_local r) false (r_mtu r) STATE_NONE false (r_busy r) (r_done r))).

(** ** Steps *)

Inductive call :=
  | SetAddrs (remote : BAddr) (local : BIPAddr) | Bind (addr : BAddr) (bound : bool)
  | SendInit (mtu : Z) | SendFree | RecvInit (mtu : Z) | RecvFree | DgFree
  | UserSend (data : list Z) | SendOperation | SendDone | SendJob
  | UserRecv | RecvOperation | RecvDone | RecvJob
  | FdEvent (events : Z) | EndRound.

(** [PacketPassInterface_Sender_Send] and [PacketRecvInterface_Receiver_Recv], and the jobs of the interfaces. *)
Definition sender_send (data : list Z) : eff world unit :=
  o ← this 184;
  assert_at 184 (Z.of_nat (length data) <=? s_mtu (send o)) ;;
  assert_at 186 (bool_decide (s_if (send o) = STATE_NONE)) ;;
  set_this 196 (with_send (fun s => s_set_if STATE_OPERATION_PENDING (s_set_busy (s_busy s) data s))).

Definition receiver_recv : eff world unit :=
  o ← this 158;
  assert_at 158 (bool_decide (r_if (recv o) = STATE_NONE)) ;;
  set_this 167 (with_recv (r_set_if STATE_OPERATION_PENDING)).

Definition pass_operation : eff world unit :=
  o ← this 34;
  assert_at 34 (bool_decide (s_if (send o) = STATE_OPERATION_PENDING)) ;;
  set_this 38 (with_send (s_set_if STATE_BUSY)) ;;
  send_if_handler_send (busy_data (send o)).

Definition packet_recv_operation : eff world unit :=
  o ← this 34;
  assert_at 34 (bool_decide (r_if (recv o) = STATE_OPERATION_PENDING)) ;;
  set_this 38 (with_recv (r_set_if STATE_BUSY)) ;;
  recv_if_handler_recv.

Definition send_told : eff world unit :=
  o ← this 59;
  assert_at 59 (bool_decide (s_if (send o) = STATE_DONE_PENDING)) ;;
  set_this 63 (with_send (s_set_if STATE_NONE)) ;;
  upd_st (with_told (busy_data (send o))).

(** The user of a datagram that was received asks for its addresses. *)
Definition recv_told : eff world unit :=
  o ← this 47;
  assert_at 47 (bool_decide (r_if (recv o) = STATE_DONE_PENDING)) ;;
  set_this 51 (with_recv (r_set_if STATE_NONE)) ;;
  match BDatagram_GetLastReceiveAddrs o with
  | Some (remote, local) => upd_st (with_delivered (remote, local, r_done (recv o)))
  | None => bad 724
  end.

Definition end_round : eff world unit :=
  set_this 0 (fun o => with_send (s_set_count 0) (with_recv (r_set_count 0) o)).

Definition call_body (k : call) : eff world unit :=
  match k with
  | SetAddrs remote local => BDatagram_SetSendAddrs remote local
  | Bind addr bound => BDatagram_Bind addr bound ;; mret tt
  | SendInit mtu => BDatagram_SendAsync_Init mtu
  | SendFree => BDatagram_SendAsync_Free
  | RecvInit mtu => BDatagram_RecvAsync_Init mtu
  | RecvFree => BDatagram_RecvAsync_Free
  | DgFree => BDatagram_Free
  | UserSend data => sender_send data
  | SendOperation => pass_operation
  | SendDone => send_told
  | SendJob => set_this 0 (with_send (s_set_job false)) ;; send_job_handler
  | UserRecv => receiver_recv
  | RecvOperation => packet_recv_operation
  | RecvDone => recv_told
  | RecvJob => set_this 0 (with_recv (r_set_job false)) ;; recv_job_handler
  | FdEvent events => fd_handler events
  | EndRound => end_round
  end.

(** An error or a hang-up was reported without something that is waited for. *)
Definition breaks (o : datagram) (events : Z) : bool :=
  has events (Z.lor BREACTOR_ERROR BREACTOR_HUP) &&
  negb (eqb (has events BREACTOR_READ) (has (waitEvents o) BREACTOR_READ) &&
        eqb (has events BREACTOR_WRITE) (has (waitEvents o) BREACTOR_WRITE)).

(** A step with the result [io] of the system call, which is an error from the time on that the socket is
    broken. *)
Definition step (k : call) (io : io_result) : eff world unit :=
  w ← get_st;
  let b := broken w || match dgram w, k with Some o, FdEvent events => breaks o events | _, _ => false end in
  upd_st (with_kernel (if b then IoFail else io) b) ;;
  call_body k.

(** What the contracts admit: no more operations after an error, events of the descriptor when no job
    is left, and only those waited for besides errors and hang-ups; [sendmsg] does not receive and [recvmsg] does not
    send. *)
Definition event_ok (o : datagram) (events : Z) : bool :=
  negb (s_job (send o)) && negb (r_job (recv o)) && (0 <? events) && (events <? 16) &&
  (negb (has events BREACTOR_READ) || has (waitEvents o) BREACTOR_READ) &&
  (negb (has events BREACTOR_WRITE) || has (waitEvents o) BREACTOR_WRITE).

Definition call_enabled (w : world) (k : call) : bool :=
  match dgram w with
  | None => false
  | Some o =>
      match k with
      | SendFree => s_inited (send o)
      | RecvFree => r_inited (recv o)
      | DgFree => negb (s_inited (send o)) && negb (r_inited (recv o))
      | EndRound => true
      | _ =>
          negb (errored o) &&
          match k with
          | SetAddrs remote _ => BDatagram_AddressFamilySupported remote
          | Bind addr _ => BDatagram_AddressFamilySupported addr
          | SendInit mtu => negb (s_inited (send o)) && (0 <=? mtu)
          | RecvInit mtu => negb (r_inited (recv o)) && (0 <=? mtu)
          | UserSend data => s_inited (send o) && bool_decide (s_if (send o) = STATE_NONE) && (Z.of_nat (length data) <=? s_mtu (send o))
          | UserRecv => r_inited (recv o) && bool_decide (r_if (recv o) = STATE_NONE)
          | SendOperation => bool_decide (s_if (send o) = STATE_OPERATION_PENDING)
          | SendDone => bool_decide (s_if (send o) = STATE_DONE_PENDING)
          | RecvOperation => bool_decide (r_if (recv o) = STATE_OPERATION_PENDING)
          | RecvDone => bool_decide (r_if (recv o) = STATE_DONE_PENDING)
          | SendJob => s_job (send o)
          | RecvJob => r_job (recv o)
          | FdEvent events => event_ok o events
          | _ => false
          end
      end
  end.

End BDgram.
