(* ===== verification/BDatagramFacts.v ===== *)
(** * Theorems about datagram sockets *)

From S2P Require Import Prelude Effect BPending BAddr BConnection BConnectionFacts BDatagram.

Open Scope Z_scope.

Import BDgram.

(** ** Addresses *)

Lemma supported_sys a : BDatagram_AddressFamilySupported a = true -> exists d, addr_socket_to_sys a = Some d.
Proof. destruct a; cbn; [done|eauto|eauto]. Qed.

(** An address given to the socket interface is the one it gives back. *)
Lemma addr_roundtrip a d : addr_socket_to_sys a = Some d -> addr_sys_to_socket d = a.
Proof. destruct a; cbn; [done| |]; intros [= <-]; done. Qed.

(** ** The history *)

(** The addresses that were set last. *)
Definition latest (h : list entry) : option (BAddr * BIPAddr) :=
  foldl (fun acc e => match e with AddrsSet remote local => Some (remote, local) | DatagramSent _ _ _ => acc end) None h.

(** The data of the datagrams that were sent. *)
Definition sent_data (h : list entry) : list (list Z) :=
  omap (fun e => match e with DatagramSent _ _ data => Some data | AddrsSet _ _ => None end) h.

(** Every datagram went to the addresses that were set last at that time. *)
Definition addressed (h : list entry) : Prop :=
  forall h1 dest control data h2, h = h1 ++ DatagramSent dest control data :: h2 ->
    exists remote local, latest h1 = Some (remote, local) /\ addr_socket_to_sys remote = Some dest /\ control = pktinfo_of local.

Lemma dg_latest_snoc h e :
  latest (h ++ [e]) = match e with AddrsSet remote local => Some (remote, local) | DatagramSent _ _ _ => latest h end.
Proof. unfold latest. rewrite foldl_app. now destruct e. Qed.

Lemma sent_data_snoc h e :
  sent_data (h ++ [e]) = sent_data h ++ match e with DatagramSent _ _ data => [data] | AddrsSet _ _ => [] end.
Proof. unfold sent_data. rewrite omap_app. now destruct e. Qed.

Lemma addressed_set h remote local : addressed h -> addressed (h ++ [AddrsSet remote local]).
Proof.
  intros H h1 dest control data h2 E. destruct (exists_last (l := DatagramSent dest control data :: h2)) as (h3 & x & E3); [done|].
  rewrite E3, app_assoc in E. apply app_inj_tail in E as [E1 <-]. destruct h3 as [|y h3]; [now injection E3|].
  injection E3 as <- ->. exact (H _ _ _ _ _ E1).
Qed.

Lemma addressed_sent h remote local dest data :
  addressed h -> latest h = Some (remote, local) -> addr_socket_to_sys remote = Some dest ->
  addressed (h ++ [DatagramSent dest (pktinfo_of local) data]).
Proof.
  intros H Hl Hd h1 dest' control data' h2 E. destruct (exists_last (l := DatagramSent dest' control data' :: h2)) as (h3 & x & E3); [done|].
  rewrite E3, app_assoc in E. apply app_inj_tail in E as [E1 <-]. destruct h3 as [|y h3].
  - cbn in E3. injection E3 as -> -> -> ->. rewrite app_nil_r in E1. subst h1. eauto.
  - injection E3 as <- ->. exact (H _ _ _ _ _ E1).
Qed.

(** ** The invariant *)

(** What the interface, the job and the awaited event of one direction say to each other; [gate] tells that it may
    begin: it has addresses, or receiving has started. *)
Definition side_ok (broken err bit inited busy gate job : bool) (i : pi_state) : bool :=
  let going := inited && busy && gate in
  (if inited then eqb busy (bool_decide (i = STATE_BUSY)) else bool_decide (i = STATE_NONE) && negb job) &&
  implb job going &&
  (err || implb bit going && implb going (job || bit) && (broken || negb (job && bit))).

(** Case analysis on everything a side depends on. *)
Ltac side_cases :=
  repeat match goal with
  | H : side_ok _ _ _ _ _ _ _ _ = true |- _ => revert H
  end;
  repeat match goal with
  | |- context [Z.testbit ?e ?n] => let b := fresh "b" in set (b := Z.testbit e n) in *; clearbody b
  end;
  repeat match goal with b : bool |- context [?x] => constr_eq x b; destruct b end;
  repeat match goal with i : pi_state |- context [?x] => constr_eq x i; destruct i end;
  try done.

Record send_ok (broken err bit : bool) (h : list entry) (s : send_side) : Prop := SendOk {
  so_side : side_ok broken err bit (s_inited s) (s_busy s) (s_have_addrs s) (s_job s) (s_if s) = true;
  so_addrs : s_have_addrs s = true -> latest h = Some (s_remote s, s_local s) /\ BDatagram_AddressFamilySupported (s_remote s) = true;
  so_len : s_if s <> STATE_NONE -> Z.of_nat (length (busy_data s)) <= s_mtu s;
  so_count : 0 <= s_count s <= BDATAGRAM_SEND_LIMIT;
}.

Record recv_ok (broken err bit : bool) (r : recv_side) : Prop := RecvOk {
  ro_side : side_ok broken err bit (r_inited r) (r_busy r) (started r) (r_job r) (r_if r) = true;
  ro_done : r_if r = STATE_DONE_PENDING -> r_have_addrs r = true;
  ro_mtu : r_inited r = true -> 0 <= r_mtu r;
  ro_count : 0 <= r_count r <= BDATAGRAM_RECV_LIMIT;
}.

Record dgram_ok (broken : bool) (h : list entry) (o : datagram) : Prop := DgramOk {
  do_active : active o = true;
  do_wait : waitEvents o = wait_events o;
  do_mask : mask (wait_events o);
  do_sending : send_ok broken (errored o) (Z.testbit (wait_events o) 1) h (send o);
  do_receiving : recv_ok broken (errored o) (Z.testbit (wait_events o) 0) (recv o);
}.

(** What was transferred and not yet told to the user. *)
Definition pending_out (s : send_side) : list (list Z) :=
  if bool_decide (s_if s = STATE_DONE_PENDING) then [busy_data s] else [].
Definition pending_in (r : recv_side) : list (BAddr * BIPAddr * list Z) :=
  if bool_decide (r_if r = STATE_DONE_PENDING) then [(r_remote r, r_local r, r_done r)] else [].

(** A received datagram with the addresses the user sees. *)
Definition interpret (p : sys_addr * list cmsg * list Z) : BAddr * BIPAddr * list Z :=
  let '(from, control, data) := p in (addr_sys_to_socket from, local_of control, data).

Definition good (clean : bool) (w : world) : Prop :=
  addressed (history w) /\
  match dgram w with
  | None => True
  | Some o =>
      dgram_ok (broken w) (history w) o /\
      (clean = true -> sent_data (history w) = told w ++ pending_out (send o) /\
                       map interpret (arrived w) = delivered w ++ pending_in (recv o))
  end.

Lemma side_ok_err broken broken' err bit bit' inited busy gate job i :
  side_ok broken err bit inited busy gate job i = true -> side_ok broken' true bit' inited busy gate job i = true.
Proof. side_cases. Qed.

Lemma side_ok_broken broken broken' err bit inited busy gate job i :
  implb broken broken' = true -> side_ok broken err bit inited busy gate job i = true -> side_ok broken' err bit inited busy gate job i = true.
Proof. side_cases. Qed.

(** ** Running the primitives *)

Lemma runs_dgram w o line (Q : datagram -> world -> Prop) : dgram w = Some o -> Q o w -> runs (this line) Q w.
Proof. intros E H. unfold this. step_eff. step_eff. now rewrite E. Qed.

Lemma runs_set_dgram w o line f (Q : unit -> world -> Prop) :
  dgram w = Some o -> Q tt (with_dgram (Some (f o)) w) -> runs (set_this line f) Q w.
Proof. intros E H. unfold set_this. step_eff. apply (runs_dgram _ _ _ _ E). now step_eff. Qed.

Ltac dgram_tidy :=
  cbv beta iota zeta delta [dgram kernel broken errors history told arrived delivered with_dgram with_kernel with_error with_entry
    with_told with_arrived with_delivered active waitEvents wait_events send recv errored with_send with_recv with_wait with_fd with_errored
    s_count s_have_addrs s_remote s_local s_inited s_mtu s_if s_job s_busy busy_data
    r_count started r_have_addrs r_remote r_local r_inited r_mtu r_if r_job r_busy r_done
    s_set_count s_set_addrs s_set_have_addrs s_set_if s_set_job s_set_busy
    r_set_count r_set_started r_set_addrs r_set_if r_set_job r_set_busy r_set_done negb].

Ltac side_tidy :=
  cbn [active wait_events waitEvents send recv errored s_inited s_busy s_have_addrs s_job s_if s_remote s_local s_mtu s_count busy_data
    r_inited r_busy started r_job r_if r_mtu r_count r_have_addrs r_remote r_local r_done] in *.

Ltac dgram_step :=
  cbv beta zeta;
  lazymatch goal with
  | |- runs (this _) _ _ => eapply runs_dgram; [reflexivity|]
  | |- runs (set_this _ _) _ _ => eapply runs_set_dgram; [reflexivity|]
  | |- runs (assert_at _ _) _ _ => apply eff_assert; [solve [done|now apply bool_decide_true|lia|match goal with H : mask _ |- _ => now rewrite H end]|]
  | |- _ => step_eff
  end; dgram_tidy.

Section Steps.
Implicit Types (k : io_result) (b : bool) (er : Z) (h : list entry) (td : list (list Z)) (ar : list (sys_addr * list cmsg * list Z))
  (dl : list (BAddr * BIPAddr * list Z)).

Lemma runs_wait_event e we wt s r k b er h td ar dl (Q : unit -> world -> Prop) :
  e = BREACTOR_READ \/ e = BREACTOR_WRITE -> mask wt ->
  Q tt (World (Some (Datagram true (Z.lor wt e) (Z.lor wt e) s r false)) k b er h td ar dl) ->
  runs (wait_event e) Q (World (Some (Datagram true we wt s r false)) k b er h td ar dl).
Proof.
  intros He Hm HQ. apply (mask_lor wt e He) in Hm. unfold wait_event, BReactor_SetFileDescriptorEvents. repeat dgram_step. exact HQ.
Qed.

Lemma runs_wait_no_more line e we wt s r ed k b er h td ar dl (Q : unit -> world -> Prop) :
  mask wt ->
  (let wt' := Z.land wt (Z.lnot e) in mask wt' -> Q tt (World (Some (Datagram true wt' wt' s r ed)) k b er h td ar dl)) ->
  runs (wait_no_more line e) Q (World (Some (Datagram true we wt s r ed)) k b er h td ar dl).
Proof.
  intros Hm HQ. apply (mask_land wt (Z.lnot e)) in Hm. unfold wait_no_more, BReactor_SetFileDescriptorEvents. repeat dgram_step. now apply HQ.
Qed.

Lemma dg_send_ok_err broken broken' err bit bit' h s : send_ok broken err bit h s -> send_ok broken' true bit' h s.
Proof. intros []. split; auto. eapply side_ok_err; eauto. Qed.

Lemma dg_recv_ok_err broken broken' err bit bit' r : recv_ok broken err bit r -> recv_ok broken' true bit' r.
Proof. intros []. split; auto. eapply side_ok_err; eauto. Qed.

Lemma dg_report_error_good clean wt s r k b er h td ar dl :
  mask wt -> addressed h -> send_ok b true false h s -> recv_ok b true false r ->
  (clean = true -> sent_data h = td ++ pending_out s /\ map interpret ar = dl ++ pending_in r) ->
  runs report_error (fun _ => good clean) (World (Some (Datagram true wt wt s r false)) k b er h td ar dl).
Proof.
  intros Hm Ha Hs Hr Hst. unfold report_error. repeat dgram_step. split; [done|]. dgram_tidy. split; [|done].
  split; dgram_tidy; try done; [now apply (dg_send_ok_err _ _ _ _ _ _ _ Hs)|now apply (dg_recv_ok_err _ _ _ _ _ _ Hr)].
Qed.

(** Receiving starts: the job is set when an operation waits for it. *)
Definition starts (r : recv_side) : recv_side :=
  if started r then r else
    Recv (r_count r) true (r_have_addrs r) (r_remote r) (r_local r) (r_inited r) (r_mtu r) (r_if r) (r_job r || r_inited r && r_busy r) (r_busy r) (r_done r).

Lemma starts_ok b bit r : recv_ok b false bit r -> recv_ok b false bit (starts r).
Proof.
  destruct r as [rc [] rh rr rl ri rm rf rj rb rd]; [done|]. intros [H1 H2 H3 H4]. split; try done.
  cbn [starts started r_inited r_busy r_job r_if] in *. revert H1. side_cases.
Qed.

Lemma starts_pending r : pending_in (starts r) = pending_in r.
Proof. now destruct r as [? [] ? ? ? ? ? ? ? ? ?]. Qed.

Lemma runs_start line wt s r ed k b er h td ar dl (Q : unit -> world -> Prop) :
  Q tt (World (Some (Datagram true wt wt s (starts r) ed)) k b er h td ar dl) ->
  runs (start_receiving line) Q (World (Some (Datagram true wt wt s r ed)) k b er h td ar dl).
Proof.
  intros HQ. unfold start_receiving. destruct r as [rc st rh rr rl ri rm rf rj rb rd]. unfold starts in HQ. cbn [started] in HQ. do 2 dgram_step.
  destruct st; cbn [whenever]; [now dgram_step|]. do 2 dgram_step. cbn [r_inited r_busy r_job] in HQ.
  destruct (ri && rb); cbn [whenever]; repeat dgram_step; rewrite ?orb_true_r, ?orb_false_r in HQ; exact HQ.
Qed.

Lemma do_send_good clean wt cnt rem loc mtu data r k b er h td ar dl :
  0 <= cnt <= BDATAGRAM_SEND_LIMIT -> latest h = Some (rem, loc) -> BDatagram_AddressFamilySupported rem = true ->
  Z.of_nat (length data) <= mtu -> mask wt -> addressed h -> (b = false -> Z.testbit wt 1 = false) -> (b = true -> k = IoFail) ->
  recv_ok b false (Z.testbit wt 0) r ->
  (clean = true -> sent_data h = td /\ map interpret ar = dl ++ pending_in r) ->
  runs do_send (fun _ => good clean)
    (World (Some (Datagram true wt wt (Send cnt true rem loc true mtu STATE_BUSY false true data) r false)) k b er h td ar dl).
Proof.
  intros Hc Hl Hsup Hlen Hm Ha Hbit Hk Hr Hst. destruct (supported_sys rem Hsup) as [dest Hd].
  assert (Hst0 : clean = true -> sent_data h = td ++ [] /\ map interpret ar = dl ++ pending_in r) by now rewrite app_nil_r.
  assert (Hwait : forall cnt', 0 <= cnt' <= BDATAGRAM_SEND_LIMIT -> runs (wait_event BREACTOR_WRITE) (fun _ => good clean)
    (World (Some (Datagram true wt wt (Send cnt' true rem loc true mtu STATE_BUSY false true data) r false)) k b er h td ar dl)).
  { intros cnt' Hc'. apply runs_wait_event; [auto|done|]. split; [done|]. dgram_tidy. split; [|exact Hst0]. split; dgram_tidy; try done.
    - apply mask_lor; auto.
    - split; dgram_tidy; try done. rewrite Z.lor_spec. cbn. rewrite orb_true_r. now destruct b.
    - now rewrite Z.lor_spec, orb_false_r. }
  unfold do_send. do 10 dgram_step. unfold BDATAGRAM_SEND_LIMIT in *. destruct (cnt >=? 2) eqn:Ec; [now apply Hwait|].
  assert (Herr : runs report_error (fun _ => good clean)
    (World (Some (Datagram true wt wt (Send (cnt + 1) true rem loc true mtu STATE_BUSY false true data) r false)) k b er h td ar dl)).
  { apply dg_report_error_good; try done; [|now apply (dg_recv_ok_err _ _ _ _ _ _ Hr)]. split; dgram_tidy; try done. unfold BDATAGRAM_SEND_LIMIT. lia. }
  repeat dgram_step. rewrite Hd. destruct k; [|done|apply Hwait; lia|done].
  destruct b; [now specialize (Hk eq_refl)|]. repeat dgram_step. apply runs_start. unfold pass_done. repeat dgram_step.
  split; [eapply addressed_sent; eauto|]. dgram_tidy. rewrite starts_pending. split.
  - split; dgram_tidy; try done; [|now apply starts_ok]. split; dgram_tidy; try done; [now rewrite Hbit| |unfold BDATAGRAM_SEND_LIMIT; lia]. now rewrite dg_latest_snoc.
  - intros Hcl. destruct (Hst Hcl) as [E1 E2]. split; [|done]. rewrite sent_data_snoc, E1. done.
Qed.

Lemma do_recv_good clean wt cnt ha rem loc mtu d s k b er h td ar dl :
  0 <= cnt <= BDATAGRAM_RECV_LIMIT -> 0 <= mtu -> mask wt -> addressed h ->
  (b = false -> Z.testbit wt 0 = false) -> (b = true -> k = IoFail) -> send_ok b false (Z.testbit wt 1) h s ->
  (clean = true -> sent_data h = td ++ pending_out s /\ map interpret ar = dl) ->
  runs do_recv (fun _ => good clean)
    (World (Some (Datagram true wt wt s (Recv cnt true ha rem loc true mtu STATE_BUSY false true d) false)) k b er h td ar dl).
Proof.
  intros Hc Hmtu Hm Ha Hbit Hk Hs Hst.
  assert (Hst0 : clean = true -> sent_data h = td ++ pending_out s /\ map interpret ar = dl ++ []) by now rewrite app_nil_r.
  assert (Hwait : forall cnt', 0 <= cnt' <= BDATAGRAM_RECV_LIMIT -> runs (wait_event BREACTOR_READ) (fun _ => good clean)
    (World (Some (Datagram true wt wt s (Recv cnt' true ha rem loc true mtu STATE_BUSY false true d) false)) k b er h td ar dl)).
  { intros cnt' Hc'. apply runs_wait_event; [auto|done|]. split; [done|]. dgram_tidy. split; [|exact Hst0]. split; dgram_tidy; try done.
    - apply mask_lor; auto.
    - now rewrite Z.lor_spec, orb_false_r.
    - split; dgram_tidy; try done. rewrite Z.lor_spec. cbn. rewrite orb_true_r. now destruct b. }
  unfold do_recv. do 10 dgram_step. unfold BDATAGRAM_RECV_LIMIT in *. destruct (cnt >=? 2) eqn:Ec; [now apply Hwait|].
  assert (Herr : runs report_error (fun _ => good clean)
    (World (Some (Datagram true wt wt s (Recv (cnt + 1) true ha rem loc true mtu STATE_BUSY false true d) false)) k b er h td ar dl)).
  { apply dg_report_error_good; try done; [now apply (dg_send_ok_err _ _ _ _ _ _ _ Hs)|]. split; dgram_tidy; try done. unfold BDATAGRAM_RECV_LIMIT. lia. }
  repeat dgram_step. destruct k as [|from control data| |]; [done| |apply Hwait; lia|done].
  destruct b; [now specialize (Hk eq_refl)|]. set (data' := take _ data).
  assert (Hlen : Z.of_nat (length data') <= mtu) by (unfold data'; rewrite length_take; lia).
  unfold packet_recv_done. repeat dgram_step. split; [done|]. dgram_tidy. split.
  - split; dgram_tidy; try done. split; dgram_tidy; try done; [now rewrite Hbit|unfold BDATAGRAM_RECV_LIMIT; lia].
  - intros Hcl. destruct (Hst Hcl) as [E1 E2]. split; [done|]. rewrite map_app, E2. done.
Qed.

(** One direction at an event: [have] is what [fd_handler] computes for it. *)
Lemma event_side b b' w e (err : bool) inited busy gate i :
  side_ok b false w inited busy gate false i = true -> implb e w = true -> implb b b' = true -> implb (err && negb (eqb e w)) b' = true ->
  let going := inited && busy && gate in
  let have := e || err && going in
  side_ok b' false (w && negb e) inited busy gate have i = true /\ implb have going = true /\
  (have = true -> b' = false -> w && negb e = false).
Proof. cbn zeta. side_cases. Qed.

(** A direction that has something to do. *)
Lemma going_side b err bit inited busy gate job i :
  side_ok b err bit inited busy gate job i = true -> inited && busy && gate = true ->
  inited = true /\ busy = true /\ gate = true /\ i = STATE_BUSY.
Proof. side_cases. Qed.

Lemma dg_fd_event_good clean wt s r k b b' er h td ar dl e :
  let o := Datagram true wt wt s r false in
  dgram_ok b h o -> event_ok o e = true -> addressed h -> implb b b' = true -> implb (breaks o e) b' = true -> (b' = true -> k = IoFail) ->
  (clean = true -> sent_data h = td ++ pending_out s /\ map interpret ar = dl ++ pending_in r) ->
  runs (fd_handler e) (fun _ => good clean) (World (Some o) k b' er h td ar dl).
Proof.
  intros o [_ _ Hm [Hs1 Hs2 Hs3 Hs4] [Hr1 Hr2 Hr3 Hr4]] He Ha Hb Hbr Hk Hst. subst o.
  destruct s as [sc sh sr sl si sm sf sj sb sd], r as [rc rs rh rr rl ri rm rf rj rb rd]. unfold event_ok, breaks in *.
  side_tidy. rewrite !has_read, !has_write, ?has_lor in *. rewrite !andb_true_iff in He. destruct He as [[[[[Hj1 Hj2] _] _] He0] He1].
  destruct sj, rj; [done..|]. unfold fd_handler. do 5 dgram_step. apply runs_wait_no_more; [done|]. cbv zeta. intros Hm'. repeat dgram_step.
  rewrite !has_read, !has_write, !has_lor. set (err := has e BREACTOR_ERROR || has e BREACTOR_HUP) in *.
  assert (Hb1 : Z.testbit (Z.land wt (Z.lnot e)) 1 = Z.testbit wt 1 && negb (Z.testbit e 1)) by now apply bit_clear.
  assert (Hb0 : Z.testbit (Z.land wt (Z.lnot e)) 0 = Z.testbit wt 0 && negb (Z.testbit e 0)) by now apply bit_clear.
  set (wt' := Z.land wt (Z.lnot e)) in *.
  destruct (event_side b b' _ (Z.testbit e 1) err _ _ _ _ Hs1) as (S1 & S2 & S3);
    [now destruct (Z.testbit e 1)|done|revert Hbr; clear; side_cases|].
  destruct (event_side b b' _ (Z.testbit e 0) err _ _ _ _ Hr1) as (R1 & R2 & R3);
    [now destruct (Z.testbit e 0)|done|revert Hbr; clear; side_cases|].
  set (hs := Z.testbit e 1 || err && (si && sb && sh)) in *. set (hr := Z.testbit e 0 || err && (ri && rb && rs)) in *.
  apply eff_assert; [destruct hs; cbn in S2; [now rewrite S2|done]|]. dgram_step.
  apply eff_assert; [destruct hr; cbn in R2; [now rewrite R2|done]|]. rewrite <- Hb1 in S1, S3. rewrite <- Hb0 in R1, R3.
  destruct hs.
  - destruct (going_side _ _ _ _ _ _ _ _ S1 S2) as (-> & -> & -> & ->). destruct (Hs2 eq_refl) as [Hl Hsup].
    assert (Hst' : clean = true -> sent_data h = td /\ map interpret ar = dl ++ pending_in (Recv rc rs rh rr rl ri rm rf hr rb rd)).
    { intros Hcl. destruct (Hst Hcl) as [-> ->]. split; [apply app_nil_r|done]. }
    destruct hr; cbn [whenever]; repeat dgram_step; apply do_send_good; auto; try done.
  - destruct hr; repeat dgram_step.
    + destruct (going_side _ _ _ _ _ _ _ _ R1 R2) as (-> & -> & -> & ->). apply do_recv_good; auto; try done.
      intros Hcl. destruct (Hst Hcl) as [-> ->]. split; [done|apply app_nil_r].
    + apply dg_report_error_good; try done; split; dgram_tidy; try done; [now apply (side_ok_err _ _ _ _ _ _ _ _ _ _ S1)|now apply (side_ok_err _ _ _ _ _ _ _ _ _ _ R1)].
Qed.

End Steps.

(** ** All steps *)

(** An interface is freed between a transfer and telling the user. *)
Definition cuts (w : world) (k : call) : bool :=
  match dgram w with
  | None => false
  | Some o =>
      match k with
      | SendFree => bool_decide (s_if (send o) = STATE_DONE_PENDING)
      | RecvFree => bool_decide (r_if (recv o) = STATE_DONE_PENDING)
      | _ => false
      end
  end.

Section Calls.
Context (clean : bool) (wt : Z) (ed : bool) (k : io_result) (b : bool) (er : Z) (h : list entry) (td : list (list Z)).
Context (ar : list (sys_addr * list cmsg * list Z)) (dl : list (BAddr * BIPAddr * list Z)).
Context (sc : Z) (sh : bool) (sr : BAddr) (sl : BIPAddr) (si : bool) (sm : Z) (sf : pi_state) (sj sb : bool) (sd : list Z).
Context (rc : Z) (rs rh : bool) (rr : BAddr) (rl : BIPAddr) (ri : bool) (rm : Z) (rf : pi_state) (rj rb : bool) (rd : list Z).

Local Notation s := (Send sc sh sr sl si sm sf sj sb sd).
Local Notation r := (Recv rc rs rh rr rl ri rm rf rj rb rd).
Local Notation w := (World (Some (Datagram true wt wt s r ed)) k b er h td ar dl).

Context (Hm : mask wt) (Ha : addressed h) (Hk : b = true -> k = IoFail).
Context (Hs : send_ok b ed (Z.testbit wt 1) h s) (Hr : recv_ok b ed (Z.testbit wt 0) r).
Context (Hst : clean = true -> sent_data h = td ++ pending_out s /\ map interpret ar = dl ++ pending_in r).

(** The new state of one direction is left to show. *)
Ltac call_done := split; [done|]; dgram_tidy; split; [split; dgram_tidy; try done; split; dgram_tidy; try done|].

Lemma set_addrs_good remote local :
  ed = false -> BDatagram_AddressFamilySupported remote = true -> runs (BDatagram_SetSendAddrs remote local) (fun _ => good clean) w.
Proof.
  intros -> Hsup. destruct Hs as [S1 S2 S3 S4]. side_tidy. unfold BDatagram_SetSendAddrs. do 8 dgram_step. repeat dgram_step.
  assert (Hst' : clean = true -> sent_data (h ++ [AddrsSet remote local]) = td ++ pending_out s /\ map interpret ar = dl ++ pending_in r)
    by now rewrite sent_data_snoc, app_nil_r.
  pose proof (addressed_set h remote local Ha) as Ha'.
  destruct sh; cbn [negb whenever]; [|do 2 dgram_step; destruct (si && sb) eqn:E; cbn [whenever]]; repeat dgram_step; call_done; try exact Hst'.
  all: rewrite ?dg_latest_snoc; try done; clear -S1 E; revert S1 E; side_cases.
Qed.

Lemma send_init_good mtu : ed = false -> si = false -> 0 <= mtu -> runs (BDatagram_SendAsync_Init mtu) (fun _ => good clean) w.
Proof.
  intros -> -> Hmtu. destruct Hs as [S1 S2 S3 S4]. side_tidy. unfold BDatagram_SendAsync_Init. repeat dgram_step. call_done.
  - revert S1. side_cases.
  - intros Hcl. destruct (Hst Hcl) as [E1 E2]. split; [|done]. rewrite E1. unfold pending_out. cbn [s_if]. revert S1. clear. side_cases.
Qed.

Lemma recv_init_good mtu : ed = false -> ri = false -> 0 <= mtu -> runs (BDatagram_RecvAsync_Init mtu) (fun _ => good clean) w.
Proof.
  intros -> -> Hmtu. destruct Hr as [R1 R2 R3 R4]. side_tidy. unfold BDatagram_RecvAsync_Init. repeat dgram_step. call_done.
  - revert R1. side_cases.
  - intros Hcl. destruct (Hst Hcl) as [E1 E2]. split; [done|]. rewrite E2. unfold pending_in. cbn [r_if]. revert R1. clear. side_cases.
Qed.

Lemma dg_send_free_good : si = true -> runs BDatagram_SendAsync_Free (fun _ => good (clean && negb (cuts w SendFree))) w.
Proof.
  intros ->. destruct Hs as [S1 S2 S3 S4]. side_tidy. unfold BDatagram_SendAsync_Free. do 5 dgram_step. apply runs_wait_no_more; [done|].
  cbv zeta. intros Hm'. repeat dgram_step. call_done.
  - rewrite bit_clear by done. change (Z.testbit BREACTOR_WRITE 1) with true. rewrite andb_false_r. revert S1. clear. side_cases.
  - destruct Hr as [R1 R2 R3 R4]. rewrite bit_clear by done. change (Z.testbit BREACTOR_WRITE 0) with false. now rewrite andb_true_r.
  - now destruct Hr.
  - now destruct Hr.
  - now destruct Hr.
  - intros [Hcl Hcut]%andb_true_iff. destruct (Hst Hcl) as [E1 E2]. split; [|done]. rewrite E1. unfold cuts in Hcut. cbn [dgram send s_if] in Hcut.
    apply negb_true_iff in Hcut. unfold pending_out. cbn [s_if]. now rewrite Hcut.
Qed.

Lemma dg_recv_free_good : ri = true -> runs BDatagram_RecvAsync_Free (fun _ => good (clean && negb (cuts w RecvFree))) w.
Proof.
  intros ->. destruct Hr as [R1 R2 R3 R4]. side_tidy. unfold BDatagram_RecvAsync_Free. do 5 dgram_step. apply runs_wait_no_more; [done|].
  cbv zeta. intros Hm'. repeat dgram_step. call_done.
  - destruct Hs as [S1 S2 S3 S4]. rewrite bit_clear by done. change (Z.testbit BREACTOR_READ 1) with false. now rewrite andb_true_r.
  - now destruct Hs.
  - now destruct Hs.
  - now destruct Hs.
  - rewrite bit_clear by done. change (Z.testbit BREACTOR_READ 0) with true. rewrite andb_false_r. revert R1. clear. side_cases.
  - intros [Hcl Hcut]%andb_true_iff. destruct (Hst Hcl) as [E1 E2]. split; [done|]. rewrite E2. unfold cuts in Hcut. cbn [dgram recv r_if] in Hcut.
    apply negb_true_iff in Hcut. unfold pending_in. cbn [r_if]. now rewrite Hcut.
Qed.

Lemma dg_send_operation_good : ed = false -> sf = STATE_OPERATION_PENDING -> runs pass_operation (fun _ => good clean) w.
Proof.
  intros -> ->. destruct Hs as [S1 S2 S3 S4]. side_tidy. assert (Hlen : Z.of_nat (length sd) <= sm) by now apply S3.
  assert (Hi : si = true /\ sb = false /\ sj = false) by (clear -S1; revert S1; side_cases). destruct Hi as (-> & -> & ->).
  unfold pass_operation, send_if_handler_send. repeat dgram_step.
  destruct sh; cbn [negb]; repeat dgram_step; call_done; try exact Hst; clear -S1; revert S1; side_cases.
Qed.

Lemma dg_recv_operation_good : ed = false -> rf = STATE_OPERATION_PENDING -> runs packet_recv_operation (fun _ => good clean) w.
Proof.
  intros -> ->. destruct Hr as [R1 R2 R3 R4]. side_tidy.
  assert (Hi : ri = true /\ rb = false /\ rj = false) by (clear -R1; revert R1; side_cases). destruct Hi as (-> & -> & ->).
  unfold packet_recv_operation, recv_if_handler_recv. repeat dgram_step.
  destruct rs; cbn [negb]; repeat dgram_step; call_done; try exact Hst; clear -R1; revert R1; side_cases.
Qed.

(** What a job that runs finds. *)
Lemma job_side bit inited busy gate i :
  side_ok b false bit inited busy gate true i = true ->
  inited = true /\ busy = true /\ gate = true /\ i = STATE_BUSY /\ (b = false -> bit = false).
Proof. clear. side_cases. Qed.

Lemma send_job_good : ed = false -> sj = true -> runs (set_this 0 (with_send (s_set_job false)) ;; send_job_handler) (fun _ => good clean) w.
Proof.
  intros -> ->. destruct Hs as [S1 S2 S3 S4]. side_tidy. destruct (job_side _ _ _ _ _ S1) as (-> & -> & -> & -> & Hb).
  destruct (S2 eq_refl) as [Hl Hsup]. unfold send_job_handler. repeat dgram_step. apply do_send_good; auto; try done.
  intros Hcl. destruct (Hst Hcl) as [-> ->]. split; [apply app_nil_r|done].
Qed.

Lemma dg_recv_job_good : ed = false -> rj = true -> runs (set_this 0 (with_recv (r_set_job false)) ;; recv_job_handler) (fun _ => good clean) w.
Proof.
  intros -> ->. destruct Hr as [R1 R2 R3 R4]. side_tidy. destruct (job_side _ _ _ _ _ R1) as (-> & -> & -> & -> & Hb).
  unfold recv_job_handler. repeat dgram_step. apply do_recv_good; auto; try done.
  intros Hcl. destruct (Hst Hcl) as [-> ->]. split; [done|apply app_nil_r].
Qed.

Lemma send_told_good : ed = false -> sf = STATE_DONE_PENDING -> runs send_told (fun _ => good clean) w.
Proof.
  intros -> ->. destruct Hs as [S1 S2 S3 S4]. side_tidy. unfold send_told. repeat dgram_step. call_done.
  - clear -S1. revert S1. side_cases.
  - intros Hcl. destruct (Hst Hcl) as [-> ->]. split; [|done]. symmetry. apply app_nil_r.
Qed.

Lemma recv_told_good : ed = false -> rf = STATE_DONE_PENDING -> runs recv_told (fun _ => good clean) w.
Proof.
  intros -> ->. destruct Hr as [R1 R2 R3 R4]. side_tidy. rewrite (R2 eq_refl) in *. unfold recv_told, BDatagram_GetLastReceiveAddrs.
  repeat dgram_step. call_done.
  - clear -R1. revert R1. side_cases.
  - intros Hcl. destruct (Hst Hcl) as [-> ->]. split; [done|]. symmetry. apply app_nil_r.
Qed.

Lemma sender_send_good data : ed = false -> si = true -> sf = STATE_NONE -> Z.of_nat (length data) <= sm -> runs (sender_send data) (fun _ => good clean) w.
Proof.
  intros -> -> -> Hlen. destruct Hs as [S1 S2 S3 S4]. side_tidy. unfold sender_send. repeat dgram_step. call_done; try exact Hst.
Qed.

Lemma receiver_recv_good : ed = false -> ri = true -> rf = STATE_NONE -> runs receiver_recv (fun _ => good clean) w.
Proof.
  intros -> -> ->. destruct Hr as [R1 R2 R3 R4]. side_tidy. unfold receiver_recv. repeat dgram_step. call_done; try exact Hst.
Qed.

Lemma bind_good addr bound : ed = false -> BDatagram_AddressFamilySupported addr = true ->
  runs (BDatagram_Bind addr bound ;; mret tt) (fun _ => good clean) w.
Proof.
  intros -> Hsup. unfold BDatagram_Bind. do 7 dgram_step. destruct bound; cbn [negb]; repeat dgram_step; [apply runs_start; repeat dgram_step|].
  - split; [done|]. dgram_tidy. rewrite starts_pending. split; [|done]. split; dgram_tidy; try done. now apply starts_ok.
  - now split.
Qed.

Lemma end_round_good : runs end_round (fun _ => good clean) w.
Proof. unfold end_round. repeat dgram_step. destruct Hs, Hr. side_tidy. now call_done. Qed.

End Calls.

Lemma send_ok_broken b b' err bit h s : implb b b' = true -> send_ok b err bit h s -> send_ok b' err bit h s.
Proof. intros Hb []. split; auto. now apply (side_ok_broken b). Qed.

Lemma recv_ok_broken b b' err bit r : implb b b' = true -> recv_ok b err bit r -> recv_ok b' err bit r.
Proof. intros Hb []. split; auto. now apply (side_ok_broken b). Qed.

Lemma step_good clean w k io :
  good clean w -> call_enabled w k = true -> runs (step k io) (fun _ => good (clean && negb (cuts w k))) w.
Proof.
  intros [Ha Hg] He. destruct w as [[[a we wt s r ed]|] k0 b er h td ar dl]; [|done]. cbn [dgram history broken told arrived delivered] in *.
  destruct Hg as [Hok Hst]. pose proof Hok as [Hac Hwe Hm Hs Hr]. side_tidy. subst a we. unfold step. do 3 dgram_step. dgram_step.
  set (b' := b || match k with FdEvent events => _ | _ => false end). set (k' := if b' then IoFail else io).
  assert (Hk : b' = true -> k' = IoFail) by (unfold k'; now intros ->).
  assert (Hb : implb b b' = true) by (unfold b'; now destruct b).
  assert (Hbr : forall e, k = FdEvent e -> implb (breaks (Datagram true wt wt s r ed) e) b' = true).
  { intros e ->. unfold b'. destruct (breaks _ e); [now rewrite orb_true_r|done]. }
  apply (send_ok_broken b b') in Hs; [|done]. apply (recv_ok_broken b b') in Hr; [|done].
  clearbody b' k'. unfold call_enabled in He. cbn [dgram] in He. side_tidy. unfold cuts. cbn [dgram]. side_tidy.
  destruct s as [sc sh sr sl si sm sf sj sb sd], r as [rc rs rh rr rl ri rm rf rj rb rd]. side_tidy.
  destruct k; cbn [call_body]; rewrite ?andb_true_r; try (apply andb_true_iff in He as [Hed He]; destruct ed; [done|]);
    rewrite ?andb_true_iff, ?negb_true_iff, ?bool_decide_eq_true in He.
  - now apply set_addrs_good.
  - now apply bind_good.
  - destruct He. apply send_init_good; auto; lia.
  - now apply dg_send_free_good.
  - destruct He. apply recv_init_good; auto; lia.
  - now apply dg_recv_free_good.
  - destruct He as [-> ->]. unfold BDatagram_Free. now repeat dgram_step.
  - destruct He as [[H1 H2] H3]. apply sender_send_good; auto. lia.
  - now apply dg_send_operation_good.
  - now apply send_told_good.
  - now apply send_job_good.
  - destruct He. now apply receiver_recv_good.
  - now apply dg_recv_operation_good.
  - now apply recv_told_good.
  - now apply dg_recv_job_good.
  - apply (dg_fd_event_good _ _ _ _ _ b); auto.
  - now apply end_round_good.
Qed.

(** ** Reachable states *)

Definition nothing : world := World None IoAgain false 0 [] [] [] [].

Lemma init_good : runs (BDatagram_Init true true true true) (fun r w => r = true /\ good true w) nothing.
Proof.
  unfold BDatagram_Init. repeat dgram_step. split; [done|]. split; [now intros []|]. split; [|done]. now split.
Qed.

(** [reaches clean w]: [clean] as long as no interface was freed between a transfer and telling the user. *)
Inductive reaches : bool -> world -> Prop :=
  | reaches_init w : BDatagram_Init true true true true nothing = Done true w -> reaches true w
  | reaches_step clean w k io w' :
      reaches clean w -> call_enabled w k = true -> step k io w = Done tt w' -> reaches (clean && negb (cuts w k)) w'.

Lemma dg_reaches_good clean w : reaches clean w -> good clean w.
Proof.
  induction 1 as [w E|clean w k io w' _ IH He E].
  - exact (proj2 (eff_at _ _ _ _ _ init_good E)).
  - exact (eff_at _ _ _ _ _ (step_good clean w k io IH He) E).
Qed.

(** ** A run *)

Fixpoint run_steps (l : list (call * io_result)) (w : world) : world :=
  match l with
  | [] => w
  | (k, io) :: l => match step k io w with Done _ w' => run_steps l w' | Bad _ => w end
  end.

Fixpoint enabled_all (l : list (call * io_result)) (w : world) : bool :=
  match l with
  | [] => true
  | (k, io) :: l =>
      call_enabled w k && negb (cuts w k) && match step k io w with Done _ w' => enabled_all l w' | Bad _ => false end
  end.

Lemma dg_enabled_run l w : reaches true w -> enabled_all l w = true -> reaches true (run_steps l w).
Proof.
  revert w. induction l as [|[k io] l IH]; intros w Hw; cbn [enabled_all run_steps]; [done|].
  destruct (step k io w) as [[] w'|] eqn:E; rewrite ?andb_false_r; [|done]. intros H. rewrite !andb_true_iff in H.
  destruct H as [[H1 H2] H3]. apply IH; [|done]. rewrite <- H2. exact (reaches_step true w k io w' Hw H1 E).
Qed.

Definition opened : world := match BDatagram_Init true true true true nothing with Done _ w => w | Bad _ => nothing end.

Lemma dg_opened_reached : reaches true opened.
Proof. now apply reaches_init. Qed.

Definition relay_addr : BAddr := BADDR_IPV4 [127; 0; 0; 1] [31; 144].

(** A packet and a request to receive wait until the addresses are set; the packet is sent at the second attempt, which starts
    receiving; the answer has been waited for when it arrives. *)
Definition query_answer : list (call * io_result) :=
  [(SendInit 100, IoAgain); (RecvInit 100, IoAgain); (UserRecv, IoAgain); (RecvOperation, IoAgain);
   (UserSend [1; 2; 3], IoAgain); (SendOperation, IoAgain); (SetAddrs relay_addr BIPADDR_NONE, IoAgain);
   (SendJob, IoAgain); (EndRound, IoAgain); (FdEvent 2, IoSent); (SendDone, IoAgain); (RecvJob, IoAgain);
   (EndRound, IoAgain); (FdEvent 1, IoReceived (SysIPv4 [31; 144] [127; 0; 0; 1]) [PktInfo4 [10; 0; 0; 2]] [7; 8]); (RecvDone, IoAgain)].

Lemma query_answer_reached : reaches true (run_steps query_answer opened).
Proof. apply dg_enabled_run; [exact dg_opened_reached|]. vm_compute. reflexivity. Qed.

(** ** The datagrams *)

(** C21. In any order of the calls of the user, the jobs, the events of the reactor and the results of the system calls, every step of a
    datagram socket returns. Every datagram is sent to the addresses that were set last when it was sent. As long as no interface is freed
    in between, the datagrams sent are those the user was told about, in order, followed by the one it will be told
    about; and those received are the ones it was given, each with the addresses it arrived with, followed by the one it will
    be given. *)
Theorem datagram_packets (clean : bool) (w : world) (o : datagram) :
  reaches clean w -> dgram w = Some o ->
  (forall k io, call_enabled w k = true -> exists w', step k io w = Done tt w') /\
  (forall h1 dest control data h2, history w = h1 ++ DatagramSent dest control data :: h2 ->
     exists remote local, latest h1 = Some (remote, local) /\ addr_socket_to_sys remote = Some dest /\ control = pktinfo_of local) /\
  (clean = true -> sent_data (history w) = told w ++ pending_out (send o) /\
                   map interpret (arrived w) = delivered w ++ pending_in (recv o)).
Proof.
  intros Hr Eo. pose proof (dg_reaches_good _ _ Hr) as Hg. split; [|split].
  - intros k io He. destruct (eff_done _ _ _ (step_good clean w k io Hg He)) as ([] & w' & E & _). eauto.
  - exact (proj1 Hg).
  - destruct Hg as [_ Hg]. rewrite Eo in Hg. exact (proj2 Hg).
Qed.

Lemma datagram_packets_witness :
  exists o, dgram (run_steps query_answer opened) = Some o /\
    map interpret (arrived (run_steps query_answer opened)) = delivered (run_steps query_answer opened) ++ pending_in (recv o).
Proof.
  eexists. split; [vm_compute; reflexivity|].
  refine (proj2 (proj2 (proj2 (datagram_packets true _ _ query_answer_reached _)) eq_refl)). vm_compute. reflexivity.
Defined.

(** ** Waiting *)

(** What an invariant says about a direction that has not failed. *)
Lemma side_waits b bit inited busy gate job i :
  side_ok b false bit inited busy gate job i = true ->
  (inited = true -> i = STATE_BUSY -> gate = true -> job = true \/ bit = true) /\
  (job = true \/ bit = true -> inited = true /\ i = STATE_BUSY /\ gate = true) /\ (b = false -> job = true -> bit = false).
Proof. intros H. split; [|split]; [| |]; revert H; side_cases; intuition congruence. Qed.

(** No wake-up is lost: a packet that has been accepted and has addresses to go to, and a request to receive once the socket has
    a port, has its job set or waits for the event that continues it, unless the socket has failed; the job and the wait are there
    for no other reason, and while the socket has no error never both. A direction tries at most two system calls per round. *)
Lemma datagram_wakes_up (clean : bool) (w : world) (o : datagram) :
  reaches clean w -> dgram w = Some o -> errored o = false ->
  let wants_write := s_job (send o) = true \/ has (waitEvents o) BREACTOR_WRITE = true in
  let wants_read := r_job (recv o) = true \/ has (waitEvents o) BREACTOR_READ = true in
  (wants_write <-> s_inited (send o) = true /\ s_if (send o) = STATE_BUSY /\ s_have_addrs (send o) = true) /\
  (wants_read <-> r_inited (recv o) = true /\ r_if (recv o) = STATE_BUSY /\ started (recv o) = true) /\
  (broken w = false -> s_job (send o) = true -> has (waitEvents o) BREACTOR_WRITE = false) /\
  (broken w = false -> r_job (recv o) = true -> has (waitEvents o) BREACTOR_READ = false) /\
  0 <= s_count (send o) <= BDATAGRAM_SEND_LIMIT /\ 0 <= r_count (recv o) <= BDATAGRAM_RECV_LIMIT.
Proof.
  intros Hr Eo He. destruct (dg_reaches_good _ _ Hr) as [_ Hg]. rewrite Eo in Hg.
  destruct Hg as [[_ Hw _ [S1 _ _ S4] [R1 _ _ R4]] _]. rewrite He in S1, R1. cbv zeta. rewrite has_write, has_read, Hw.
  apply side_waits in S1 as (S1 & S2 & S3), R1 as (R1 & R2 & R3). repeat split; try tauto; try lia; firstorder.
Qed.

Lemma datagram_wakes_up_witness :
  exists o, dgram (run_steps (firstn 12 query_answer) opened) = Some o /\
    (r_inited (recv o) = true /\ r_if (recv o) = STATE_BUSY /\ started (recv o) = true ->
     r_job (recv o) = true \/ has (waitEvents o) BREACTOR_READ = true).
Proof.
  assert (Hr : reaches true (run_steps (firstn 12 query_answer) opened)) by (apply dg_enabled_run; [exact dg_opened_reached|vm_compute; reflexivity]).
  eexists. split; [vm_compute; reflexivity|].
  refine (proj2 (proj1 (proj2 (datagram_wakes_up true _ _ Hr _ _)))); vm_compute; reflexivity.
Defined.
