(* ===== verification/RedUdp.v ===== *)
(** * The UDP relay of redsocks ([redsocks/redudp.c])

    An instance receives UDP packets on its listener. The first packet of a client address
    makes a client: it connects to the SOCKS5 server, asks for a UDP association, and queues
    packets until the reply names the address of the relay; then they are forwarded with the SOCKS5
    preamble, and what the relay sends back is given to the client. With transparent proxying the
    answers are sent from sockets bound to the destinations, which clients share and count.

    The state has the state of the TCP part of the process in it ([red]), since closing a
    descriptor may let that part accept again; its lists of answers serve both parts.
    Descriptors that are open are in [fds], each with its owner: closing one that is not open is a
    fault, as are using a freed client and a failed assertion. The kernel does not give out an open descriptor, so an answer that
    says so counts as a failed call. What [recvmsg] returns, and what the packet buffer held
    before, are arguments of the events.

    [taken], [forwarded] and [returned] record the packets that were queued or
    forwarded, the datagrams passed to [sendmsg] and those passed to [sendto]. *)

From S2P Require Import Prelude Effect RedWorld RedCore Socks5.

Open Scope Z_scope.
Close Scope red_scope.

Module RedUdp.

Import Socks5.

(** ** Data *)

#[export] Instance sockaddr_in_eq : EqDecision sockaddr_in.
Proof. solve_decision. Defined.

Record redudp_config := Config {
  bindaddr : sockaddr_in;
  relayaddr : sockaddr_in;
  cfg_destaddr : sockaddr_in;
  login : option (list Z);
  password : option (list Z);
  max_pktqueue : Z;
  udp_timeout : Z;
  udp_timeout_stream : Z;
}.

Record redudp_instance := Instance {
  config : redudp_config;
  listener : event;
  clients : list nat;  (** newest first *)
}.

(** The callbacks of the connection to the SOCKS server. *)
Inductive relay_cb := cb_none | cb_connected | cb_auth_methods | cb_auth_reply | cb_assoc_reply.

(** [linked]: the client is in the list of its instance. [timeout_sec] is the time the timer was set to. *)
Record redudp_client := Client {
  linked : bool;
  instance : nat;
  clientaddr : sockaddr_in;
  destaddr : sockaddr_in;
  sender_fd : Z;
  timeout : event;
  timeout_sec : Z;
  relay : option bufferevent;
  readcb : relay_cb;
  writecb : relay_cb;
  udprelay : event;
  udprelayaddr : sockaddr_in;
  first_event : Z;
  last_client_event : Z;
  last_relay_event : Z;
  queue_len : Z;
  queue : list (list Z);
}.

(** [struct bound_udp4_key]; a [struct bound_udp4] is its [ref] and [fd]. *)
Definition bound_key : Type := Z * Z.

(** Who has a descriptor. *)
Inductive owner :=
  | o_listener (i : nat) | o_relay (c : nat) | o_udprelay (c : nat) | o_bound (k : bound_key).

Record udp_world := UWorld {
  red : world;
  fds : gmap Z owner;
  instances : list nat;
  insts : gmap nat redudp_instance;
  udp_clients : gmap nat redudp_client;
  next : nat;
  root_bound_udp4 : gmap bound_key (Z * Z);
  taken : list (nat * list Z);
  forwarded : list (nat * sockaddr_in * list Z);
  returned : list (Z * sockaddr_in * list Z);
}.

Definition with_red (r : world) (w : udp_world) : udp_world :=
  UWorld r (fds w) (instances w) (insts w) (udp_clients w) (next w) (root_bound_udp4 w) (taken w) (forwarded w) (returned w).
Definition with_fds (f : gmap Z owner -> gmap Z owner) (w : udp_world) : udp_world :=
  UWorld (red w) (f (fds w)) (instances w) (insts w) (udp_clients w) (next w) (root_bound_udp4 w) (taken w) (forwarded w) (returned w).
Definition with_instances (f : list nat -> list nat) (w : udp_world) : udp_world :=
  UWorld (red w) (fds w) (f (instances w)) (insts w) (udp_clients w) (next w) (root_bound_udp4 w) (taken w) (forwarded w) (returned w).
Definition with_insts (f : gmap nat redudp_instance -> gmap nat redudp_instance) (w : udp_world) : udp_world :=
  UWorld (red w) (fds w) (instances w) (f (insts w)) (udp_clients w) (next w) (root_bound_udp4 w) (taken w) (forwarded w) (returned w).
Definition with_clients (f : gmap nat redudp_client -> gmap nat redudp_client) (w : udp_world) : udp_world :=
  UWorld (red w) (fds w) (instances w) (insts w) (f (udp_clients w)) (next w) (root_bound_udp4 w) (taken w) (forwarded w) (returned w).
Definition with_next (f : nat -> nat) (w : udp_world) : udp_world :=
  UWorld (red w) (fds w) (instances w) (insts w) (udp_clients w) (f (next w)) (root_bound_udp4 w) (taken w) (forwarded w) (returned w).
Definition with_bound (f : gmap bound_key (Z * Z) -> gmap bound_key (Z * Z)) (w : udp_world) : udp_world :=
  UWorld (red w) (fds w) (instances w) (insts w) (udp_clients w) (next w) (f (root_bound_udp4 w)) (taken w) (forwarded w) (returned w).
Definition with_taken (p : nat * list Z) (w : udp_world) : udp_world :=
  UWorld (red w) (fds w) (instances w) (insts w) (udp_clients w) (next w) (root_bound_udp4 w) (taken w ++ [p]) (forwarded w) (returned w).
Definition with_forwarded (p : nat * sockaddr_in * list Z) (w : udp_world) : udp_world :=
  UWorld (red w) (fds w) (instances w) (insts w) (udp_clients w) (next w) (root_bound_udp4 w) (taken w) (forwarded w ++ [p]) (returned w).
Definition with_returned (p : Z * sockaddr_in * list Z) (w : udp_world) : udp_world :=
  UWorld (red w) (fds w) (instances w) (insts w) (udp_clients w) (next w) (root_bound_udp4 w) (taken w) (forwarded w) (returned w ++ [p]).

Definition c_set_linked (b : bool) (x : redudp_client) : redudp_client :=
  Client b (instance x) (clientaddr x) (destaddr x) (sender_fd x) (timeout x) (timeout_sec x) (relay x) (readcb x) (writecb x) (udprelay x) (udprelayaddr x)
    (first_event x) (last_client_event x) (last_relay_event x) (queue_len x) (queue x).
Definition c_set_sender (fd : Z) (x : redudp_client) : redudp_client :=
  Client (linked x) (instance x) (clientaddr x) (destaddr x) fd (timeout x) (timeout_sec x) (relay x) (readcb x) (writecb x) (udprelay x) (udprelayaddr x)
    (first_event x) (last_client_event x) (last_relay_event x) (queue_len x) (queue x).
Definition c_set_timeout (e : event) (sec : Z) (x : redudp_client) : redudp_client :=
  Client (linked x) (instance x) (clientaddr x) (destaddr x) (sender_fd x) e sec (relay x) (readcb x) (writecb x) (udprelay x) (udprelayaddr x)
    (first_event x) (last_client_event x) (last_relay_event x) (queue_len x) (queue x).
Definition c_set_relay (b : option bufferevent) (x : redudp_client) : redudp_client :=
  Client (linked x) (instance x) (clientaddr x) (destaddr x) (sender_fd x) (timeout x) (timeout_sec x) b (readcb x) (writecb x) (udprelay x) (udprelayaddr x)
    (first_event x) (last_client_event x) (last_relay_event x) (queue_len x) (queue x).
Definition c_set_cbs (r wr : relay_cb) (x : redudp_client) : redudp_client :=
  Client (linked x) (instance x) (clientaddr x) (destaddr x) (sender_fd x) (timeout x) (timeout_sec x) (relay x) r wr (udprelay x) (udprelayaddr x)
    (first_event x) (last_client_event x) (last_relay_event x) (queue_len x) (queue x).
Definition c_set_udprelay (e : event) (x : redudp_client) : redudp_client :=
  Client (linked x) (instance x) (clientaddr x) (destaddr x) (sender_fd x) (timeout x) (timeout_sec x) (relay x) (readcb x) (writecb x) e (udprelayaddr x)
    (first_event x) (last_client_event x) (last_relay_event x) (queue_len x) (queue x).
Definition c_set_udprelayaddr (a : sockaddr_in) (x : redudp_client) : redudp_client :=
  Client (linked x) (instance x) (clientaddr x) (destaddr x) (sender_fd x) (timeout x) (timeout_sec x) (relay x) (readcb x) (writecb x) (udprelay x) a
    (first_event x) (last_client_event x) (last_relay_event x) (queue_len x) (queue x).
Definition c_set_events (first client relay_ : Z) (x : redudp_client) : redudp_client :=
  Client (linked x) (instance x) (clientaddr x) (destaddr x) (sender_fd x) (timeout x) (timeout_sec x) (relay x) (readcb x) (writecb x) (udprelay x) (udprelayaddr x)
    first client relay_ (queue_len x) (queue x).
Definition c_set_queue (n : Z) (q : list (list Z)) (x : redudp_client) : redudp_client :=
  Client (linked x) (instance x) (clientaddr x) (destaddr x) (sender_fd x) (timeout x) (timeout_sec x) (relay x) (readcb x) (writecb x) (udprelay x) (udprelayaddr x)
    (first_event x) (last_client_event x) (last_relay_event x) n q.

Definition i_set_listener (e : event) (x : redudp_instance) : redudp_instance := Instance (config x) e (clients x).
Definition i_set_clients (f : list nat -> list nat) (x : redudp_instance) : redudp_instance :=
  Instance (config x) (listener x) (f (clients x)).

Section Redudp.
Context `{BC : BaseConfig}.

(** ** Effects *)

(** A call of the TCP part, which shares its answers with this one. *)
Definition lift {A} (m : M A) : eff udp_world A :=
  fun w => match m (red w) with Ret a r => Done a (with_red r w) | Fault _ _ => Bad 0 end.

Definition sys : eff udp_world Z := lift RedWorld.sys.
Definition sys_ev : eff udp_world Z := lift RedWorld.sys_ev.

Definition client (line : Z) (c : nat) : eff udp_world redudp_client :=
  w ← get_st;
  match udp_clients w !! c with Some x => mret x | None => bad line end.

Definition set_client (line : Z) (c : nat) (f : redudp_client -> redudp_client) : eff udp_world unit :=
  x ← client line c;
  upd_st (with_clients (insert c (f x))).

Definition inst (line : Z) (i : nat) : eff udp_world redudp_instance :=
  w ← get_st;
  match insts w !! i with Some x => mret x | None => bad line end.

Definition set_inst (line : Z) (i : nat) (f : redudp_instance -> redudp_instance) : eff udp_world unit :=
  x ← inst line i;
  upd_st (with_insts (insert i (f x))).

(** [socket(2)] for an owner. *)
Definition socket (o : owner) : eff udp_world Z :=
  fd ← sys;
  w ← get_st;
  if (fd =? -1) || bool_decide (is_Some (fds w !! fd)) then mret (-1)
  else upd_st (with_fds (insert fd o)) ;; mret fd.

Definition redsocks_close (line fd : Z) : eff udp_world unit :=
  w ← get_st;
  assert_at line (bool_decide (is_Some (fds w !! fd))) ;;
  upd_st (with_fds (delete fd)) ;;
  lift (RedCore.redsocks_close fd).

Definition redsocks_time : eff udp_world Z := sys.

(** ** Sockets bound to destinations *)

Definition bound_udp4_mkkey (addr : sockaddr_in) : bound_key := (sin_addr addr, sin_port addr).

Definition redudp_transparent (fd : Z) : eff udp_world Z := sys.

Definition bound_udp4_get (addr : sockaddr_in) : eff udp_world Z :=
  let key := bound_udp4_mkkey addr in
  w ← get_st;
  match root_bound_udp4 w !! key with
  | Some (ref, fd) =>
      assert_at 92 (0 <? ref) ;;
      upd_st (with_bound (insert key (ref + 1, fd))) ;;
      mret fd
  | None =>
      r ← sys; (* calloc *)
      if negb (r =? 0) then mret (-1)
      else
        fd ← socket (o_bound key);
        if fd =? -1 then mret (-1)
        else
          let fail := redsocks_close 131 fd ;; mret (-1) in
          r ← redudp_transparent fd;
          if negb (r =? 0) then fail
          else
            r ← sys; (* bind *)
            if negb (r =? 0) then fail
            else
              r ← sys; (* tsearch *)
              if negb (r =? 0) then fail
              else upd_st (with_bound (insert key (1, fd))) ;; mret fd
  end.

Definition bound_udp4_put (addr : sockaddr_in) : eff udp_world unit :=
  let key := bound_udp4_mkkey addr in
  w ← get_st;
  match root_bound_udp4 w !! key with
  | None => bad 145
  | Some (ref, fd) =>
      assert_at 145 (0 <? ref) ;;
      upd_st (with_bound (insert key (ref - 1, fd))) ;;
      if negb (ref - 1 =? 0) then mret tt
      else
        upd_st (with_bound (delete key)) ;;
        redsocks_close 156 fd
  end.

(** ** Helpers *)

Definition do_tproxy (x : redudp_instance) : bool := sin_addr (cfg_destaddr (config x)) =? 0.

Definition get_destaddr (line : Z) (c : nat) : eff udp_world sockaddr_in :=
  x ← client line c;
  i ← inst line (instance x);
  mret (if do_tproxy i then destaddr x else cfg_destaddr (config i)).

Definition preamble (dest : sockaddr_in) : list Z :=
  [0; 0; 0; socks5_addrtype_ipv4] ++ be32 (sin_addr dest) ++ be16 (sin_port dest).

Definition redudp_fill_preamble (c : nat) : eff udp_world (list Z) :=
  dest ← get_destaddr 182 c;
  mret (preamble dest).

Definition socks5_mkmethods_plain_wrapper (do_password : Z) : eff udp_world (option (list Z)) :=
  assert_at 115 ((do_password =? 0) || (do_password =? 1)) ;;
  lift (mkevbuffer (socks5_mkmethods_plain do_password)).

Definition socks5_mkpassword_plain_wrapper (i : nat) : eff udp_world (option (list Z)) :=
  x ← inst 199 i;
  match login (config x), password (config x) with
  | Some l, Some p => lift (mkevbuffer (socks5_mkpassword_plain l p))
  | _, _ => bad 200
  end.

Definition socks5_mkassociate : eff udp_world (option (list Z)) :=
  lift (mkevbuffer (socks5_mkcommand_plain socks5_cmd_udp_associate (SockAddr AF_INET 0 0))).

(** [client->relay], dereferenced. *)
Definition set_relay (line : Z) (c : nat) (f : bufferevent -> bufferevent) : eff udp_world unit :=
  x ← client line c;
  match relay x with
  | None => bad line
  | Some b => set_client line c (c_set_relay (Some (f b)))
  end.

(** [redsocks_write_helper_ex_plain] of [redsocks.c] without a TCP client. *)
Definition redsocks_write_helper_ex_plain (c : nat) (mkmessage : eff udp_world (option (list Z))) (wm_low wm_high : Z) : eff udp_world Z :=
  buff ← mkmessage;
  match buff with
  | None => mret (-1)
  | Some data =>
      r ← sys; (* bufferevent_write_buffer *)
      if r <? 0 then mret (-1)
      else
        set_relay 917 c (with_be_output (fun o => o ++ data)) ;;
        set_relay 929 c (fun b => with_wm_read_high (fun _ => wm_high) (with_wm_read_low (fun _ => wm_low) b)) ;;
        set_relay 930 c (with_be_enabled (fun e => Z.lor e EV_READ)) ;;
        _ ← sys_ev;
        mret 0
  end.

(** [evbuffer_remove] on the input of the relay. *)
Definition evbuffer_remove (line : Z) (c : nat) (n : nat) : eff udp_world (list Z) :=
  x ← client line c;
  match relay x with
  | None => bad line
  | Some b =>
      set_relay line c (with_be_input (drop n)) ;;
      mret (take n (be_input b))
  end.

(** ** Clients *)

Definition redsocks_bufferevent_free (line : Z) (fd : Z) : eff udp_world unit :=
  _ ← sys; (* bufferevent_setfd *)
  whenever (negb (fd =? -1)) (redsocks_close line fd).

Definition redudp_drop_client (c : nat) : eff udp_world unit :=
  x ← client 217 c;
  _ ← get_destaddr 217 c; (* for the log *)
  whenever (ev_init (timeout x))
    (r ← sys_ev; set_client 220 c (c_set_timeout (event_del_ok r (timeout x)) (timeout_sec x))) ;;
  match relay x with
  | Some b => redsocks_bufferevent_free 224 (be_fd b)
  | None => mret tt
  end ;;
  whenever (ev_init (udprelay x))
    (r ← sys_ev;
     set_client 227 c (c_set_udprelay (event_del_ok r (udprelay x))) ;;
     redsocks_close 229 (ev_fd (udprelay x))) ;;
  whenever (negb (sender_fd x =? -1)) (bound_udp4_put (destaddr x)) ;;
  whenever (linked x) (set_inst 237 (instance x) (i_set_clients (filter (fun k => k <> c)))) ;;
  upd_st (with_clients (delete c)).

Definition redudp_bump_timeout (c : nat) : eff udp_world unit :=
  x ← client 244 c;
  i ← inst 244 (instance x);
  r ← sys_ev;
  if negb (r =? 0) then redudp_drop_client c
  else set_client 247 c (c_set_timeout (event_add_ok r (timeout x)) (udp_timeout (config i))).

Definition redudp_forward_pkt (c : nat) (buf : list Z) : eff udp_world unit :=
  req ← redudp_fill_preamble c;
  x ← client 263 c;
  upd_st (with_forwarded (c, udprelayaddr x, req ++ buf)) ;;
  _ ← sys; (* sendmsg *)
  mret tt.

Definition redudp_enqeue_pkt (c : nat) (buf : list Z) : eff udp_world Z :=
  x ← client 290 c;
  i ← inst 290 (instance x);
  if queue_len x >=? max_pktqueue (config i) then mret (-1)
  else
    r ← sys; (* calloc *)
    if negb (r =? 0) then mret (-1)
    else
      set_client 304 c (fun x => c_set_queue (u32 (queue_len x + 1)) (queue x ++ [buf]) x) ;;
      upd_st (with_taken (c, buf)) ;;
      mret 0.

(** The loop over the packets; the one in front is forwarded and freed. *)
Fixpoint flush_loop (n : nat) (c : nat) : eff udp_world unit :=
  match n with
  | O => mret tt
  | S n =>
      x ← client 313 c;
      match queue x with
      | [] => mret tt
      | q :: rest =>
          redudp_forward_pkt c q ;;
          set_client 315 c (fun x => c_set_queue (queue_len x) rest x) ;;
          flush_loop n c
      end
  end.

Definition redudp_flush_queue (c : nat) : eff udp_world unit :=
  x ← client 312 c;
  flush_loop (length (queue x)) c ;;
  set_client 318 c (fun x => c_set_queue 0 (queue x) x) ;;
  x ← client 319 c;
  assert_at 319 (bool_decide (queue x = [])).

Definition sizeof_assoc_reply : Z := 10.

(** Lines 354 to 386, with the reply that was read; [event_set] on an event that is pending is a fault. *)
Definition associate (c : nat) (addr : sockaddr_in) : eff udp_world unit :=
  set_client 354 c (c_set_udprelayaddr addr) ;;
  fd ← socket (o_udprelay c);
  if fd =? -1 then redudp_drop_client c
  else
    error ← sys; (* connect *)
    if negb (error =? 0) then redsocks_close 384 fd ;; redudp_drop_client c
    else
      x ← client 370 c;
      assert_at 370 (negb (ev_added (udprelay x))) ;;
      set_client 370 c (c_set_udprelay (Event true fd false false)) ;;
      error ← sys_ev;
      set_client 371 c (c_set_udprelay (event_add_ok error (Event true fd false false))) ;;
      if negb (error =? 0) then redsocks_close 384 fd ;; redudp_drop_client c
      else redudp_flush_queue c.

Definition redudp_read_assoc_reply (c : nat) : eff udp_world unit :=
  reply ← evbuffer_remove 326 c 10;
  match reply with
  | [ver; status; _; addrtype; a1; a2; a3; a4; p1; p2] =>
      if negb (ver =? socks5_ver) then redudp_drop_client c
      else if negb (status =? socks5_status_succeeded) then redudp_drop_client c
      else if negb (addrtype =? socks5_addrtype_ipv4) then redudp_drop_client c
      else associate c (SockAddr AF_INET (of_be [p1; p2]) (of_be [a1; a2; a3; a4]))
  | _ => redudp_drop_client c
  end.

(** A request is sent and the callback for its reply is set, or the client is dropped. *)
Definition request (c : nat) (mkmessage : eff udp_world (option (list Z))) (size : Z) (cb : relay_cb) : eff udp_world unit :=
  error ← redsocks_write_helper_ex_plain c mkmessage size size;
  if negb (error =? 0) then redudp_drop_client c
  else set_client 414 c (fun x => c_set_cbs cb (writecb x) x).

Definition redudp_read_auth_reply (c : nat) : eff udp_world unit :=
  reply ← evbuffer_remove 392 c 2;
  match reply with
  | [ver; status] =>
      if negb (ver =? socks5_password_ver) || negb (status =? socks5_password_passed) then redudp_drop_client c
      else request c socks5_mkassociate sizeof_assoc_reply cb_assoc_reply
  | _ => redudp_drop_client c
  end.

Definition do_password (x : redudp_instance) : Z :=
  if socks5_is_valid_cred (login (config x)) (password (config x)) then 1 else 0.

Definition redudp_read_auth_methods (c : nat) : eff udp_world unit :=
  x ← client 425 c;
  i ← inst 425 (instance x);
  reply ← evbuffer_remove 427 c 2;
  match reply with
  | [ver; method] =>
      if negb (socks5_is_known_auth_method ver method (do_password i)) then redudp_drop_client c
      else if method =? socks5_auth_none then request c socks5_mkassociate sizeof_assoc_reply cb_assoc_reply
      else if method =? socks5_auth_password then
        request c (socks5_mkpassword_plain_wrapper (instance x)) sizeof_auth_reply cb_auth_reply
      else mret tt
  | _ => redudp_drop_client c
  end.

Definition redudp_relay_connected (c : nat) : eff udp_world unit :=
  x ← client 471 c;
  i ← inst 471 (instance x);
  ok ← lift red_is_socket_connected_ok;
  if negb (ok : bool) then redudp_drop_client c
  else
    error ← redsocks_write_helper_ex_plain c (socks5_mkmethods_plain_wrapper (do_password i)) sizeof_method_reply sizeof_method_reply;
    if negb (error =? 0) then redudp_drop_client c
    else set_client 487 c (c_set_cbs cb_auth_methods cb_none).

Definition redudp_relay_error (c : nat) : eff udp_world unit := redudp_drop_client c.

Definition redudp_timeout (c : nat) : eff udp_world unit := redudp_drop_client c.

(** [red_connect_relay] of [utils.c], with the descriptor entered for its owner. *)
Definition connect_relay (c : nat) : eff udp_world (option bufferevent) :=
  b ← lift red_connect_relay;
  w ← get_st;
  match b with
  | Some b =>
      if bool_decide (is_Some (fds w !! be_fd b)) then mret None
      else upd_st (with_fds (insert (be_fd b) (o_relay c))) ;; mret (Some b)
  | None => mret None
  end.

Definition new_client (i : nat) (clientaddr : sockaddr_in) (destaddr : option sockaddr_in) : redudp_client :=
  Client false i clientaddr (default (SockAddr 0 0 0) destaddr) (-1) (Event true (-1) false false) 0 None cb_none cb_connected
    event_blank (SockAddr 0 0 0) 0 0 0 0 [].

Definition redudp_first_pkt_from_client (i : nat) (clientaddr : sockaddr_in) (destaddr : option sockaddr_in) (buf : list Z) : eff udp_world unit :=
  r ← sys; (* calloc *)
  if negb (r =? 0) then mret tt
  else
    w ← get_st;
    let c := next w in
    upd_st (with_next S) ;;
    upd_st (with_clients (insert c (new_client i clientaddr destaddr))) ;;
    _ ← inst 532 i;
    b ← connect_relay c;
    set_client 532 c (c_set_relay b) ;;
    match b with
    | None => redudp_drop_client c
    | Some _ =>
        t ← redsocks_time;
        if t =? -1 then redudp_drop_client c
        else
          set_client 539 c (c_set_events t t 0) ;;
          redudp_bump_timeout c ;;
          error ← redudp_enqeue_pkt c buf;
          if error =? -1 then redudp_drop_client c
          else
            set_inst 545 i (i_set_clients (cons c)) ;;
            set_client 545 c (c_set_linked true)
    end.

(** ** Packets *)

(** A control message: the original destination, or another. *)
Inductive cmsg := orig_dst (addr : sockaddr_in) | other_cmsg.

Record message := Message { m_from : sockaddr_in; m_control : list cmsg; m_data : list Z }.

(** [red_recv_udp_pkt] of [utils.c]; [None] is a failed [recvmsg], and the result for -1. *)
Definition red_recv_udp_pkt (m : option message) (buflen : Z) (toaddr : bool) : option (list Z * sockaddr_in * option sockaddr_in) :=
  match m with
  | None => None
  | Some m =>
      let data := take (Z.to_nat buflen) (m_data m) in
      let to := foldl (fun a k => match k with orig_dst b => b | other_cmsg => a end) (SockAddr 0 0 0) (m_control m) in
      if toaddr && negb (sin_family to =? AF_INET) then None
      else if Z.of_nat (length data) >=? buflen then None
      else Some (data, m_from m, if toaddr then Some to else None)
  end.

Definition sizeof_preamble : nat := 10.

(** [stale] is what the buffer holds before: a short packet leaves a part of it in the header. *)
Definition redudp_pkt_from_socks (c : nat) (m : option message) (stale : list Z) : eff udp_world unit :=
  x ← client 563 c;
  match red_recv_udp_pkt m 0xFFFF false with
  | None => mret tt
  | Some (data, from, _) =>
      if negb (bool_decide (from = udprelayaddr x)) then mret tt
      else
        let header := take sizeof_preamble (data ++ drop (length data) stale) in
        dest ← get_destaddr 588 c;
        if negb (nth 2 header 0 =? 0) then mret tt
        else if negb (nth 3 header 0 =? socks5_addrtype_ipv4) then mret tt
        else if negb (of_be (take 2 (drop 8 header)) =? sin_port dest) || negb (of_be (take 4 (drop 4 header)) =? sin_addr dest) then mret tt
        else
          t ← redsocks_time;
          whenever (negb (t =? -1)) (set_client 603 c (fun x => c_set_events (first_event x) (last_client_event x) t x)) ;;
          redudp_bump_timeout c ;;
          x ← client 606 c;
          i ← inst 606 (instance x);
          fd ← (if do_tproxy i && (sender_fd x =? -1)
                then fd ← bound_udp4_get (destaddr x); set_client 607 c (c_set_sender fd) ;; mret fd
                else mret (sender_fd x));
          if do_tproxy i && (fd =? -1) then mret tt
          else
            let via := if do_tproxy i then fd else ev_fd (listener i) in
            (* a length below zero is too long for [sendto] *)
            whenever (Nat.leb sizeof_preamble (length data)) (upd_st (with_returned (via, clientaddr x, drop sizeof_preamble data))) ;;
            _ ← sys; (* sendto *)
            mret tt
  end.

(** The first client in the list with this address. *)
Fixpoint find_client (l : list nat) (addr : sockaddr_in) : eff udp_world (option nat) :=
  match l with
  | [] => mret None
  | c :: l =>
      x ← client 645 c;
      if bool_decide (addr = clientaddr x) then mret (Some c) else find_client l addr
  end.

Definition redudp_pkt_from_client (i : nat) (m : option message) : eff udp_world unit :=
  self ← inst 635 i;
  match red_recv_udp_pkt m 0xFFFF (do_tproxy self) with
  | None => mret tt
  | Some (buf, from, pdestaddr) =>
      found ← find_client (clients self) from;
      match found with
      | Some c =>
          t ← redsocks_time;
          whenever (negb (t =? -1)) (set_client 652 c (fun x => c_set_events (first_event x) t (last_relay_event x) x)) ;;
          redudp_bump_timeout c ;;
          x ← client 654 c;
          if ev_init (udprelay x) then
            upd_st (with_taken (c, buf)) ;;
            redudp_forward_pkt c buf
          else _ ← redudp_enqeue_pkt c buf; mret tt
      | None => redudp_first_pkt_from_client i from pdestaddr buf
      end
  end.

(** ** Start and shutdown *)

Definition redudp_fini_instance (i : nat) : eff udp_world unit :=
  x ← inst 818 i;
  foldr (fun c k => redudp_drop_client c ;; k) (mret tt) (clients x) ;;
  x ← inst 827 i;
  whenever (ev_init (listener x))
    (r ← sys_ev;
     set_inst 828 i (i_set_listener (event_del_ok r (listener x))) ;;
     redsocks_close 830 (ev_fd (listener x)) ;;
     set_inst 831 i (i_set_listener event_blank)) ;;
  upd_st (with_instances (filter (fun k => k <> i))) ;;
  upd_st (with_insts (delete i)).

(** The calls up to [fcntl_nonblock]: whether they succeed. *)
Definition listen_setup (fd : Z) (tproxy : bool) : eff udp_world bool :=
  ok ← (if tproxy then
          r ← redudp_transparent fd;
          if negb (r =? 0) then mret false else r ← sys; mret (r =? 0) (* setsockopt *)
        else mret true);
  if negb (ok : bool) then mret false
  else
    r ← sys; (* bind *)
    if negb (r =? 0) then mret false
    else r ← lift (fcntl_nonblock fd); mret (r =? 0).

Definition redudp_init_instance (i : nat) : eff udp_world Z :=
  x ← inst 760 i;
  fd ← socket (o_listener i);
  if fd =? -1 then redudp_fini_instance i ;; mret (-1)
  else
    ok ← listen_setup fd (do_tproxy x);
    if negb (ok : bool) then redudp_fini_instance i ;; redsocks_close 807 fd ;; mret (-1)
    else
      set_inst 794 i (i_set_listener (Event true fd false false)) ;;
      error ← sys_ev;
      set_inst 795 i (i_set_listener (event_add_ok error (Event true fd false false))) ;;
      if negb (error =? 0) then redudp_fini_instance i ;; redsocks_close 807 fd ;; mret (-1)
      else mret 0.

Definition redudp_fini : eff udp_world unit :=
  w ← get_st;
  foldr (fun i k => redudp_fini_instance i ;; k) (mret tt) (instances w).

Fixpoint init_instances (l : list nat) : eff udp_world Z :=
  match l with
  | [] => mret 0
  | i :: l =>
      r ← redudp_init_instance i;
      if negb (r =? 0) then redudp_fini ;; mret (-1) else init_instances l
  end.

Definition redudp_init : eff udp_world Z :=
  w ← get_st;
  init_instances (instances w).

(** ** The event loop *)

Inductive udp_event :=
  | ev_from_client (i : nat) (m : option message)
  | ev_from_socks (c : nat) (m : option message) (stale : list Z)
  | ev_timeout (c : nat)
  | ev_readable (c : nat)
  | ev_writable (c : nat)
  | ev_failed (c : nat)
  | net_input (c : nat) (data : list Z)
  | net_output (c : nat) (n : nat).

Definition call (cb : relay_cb) (c : nat) : eff udp_world unit :=
  match cb with
  | cb_none => mret tt
  | cb_connected => redudp_relay_connected c
  | cb_auth_methods => redudp_read_auth_methods c
  | cb_auth_reply => redudp_read_auth_reply c
  | cb_assoc_reply => redudp_read_assoc_reply c
  end.

Definition handle (e : udp_event) : eff udp_world unit :=
  match e with
  | ev_from_client i m => redudp_pkt_from_client i m
  | ev_from_socks c m stale => redudp_pkt_from_socks c m stale
  | ev_timeout c =>
      x ← client 0 c;
      set_client 0 c (c_set_timeout (event_del_ok 0 (timeout x)) (timeout_sec x)) ;;
      redudp_timeout c
  | ev_readable c => x ← client 0 c; call (readcb x) c
  | ev_writable c => x ← client 0 c; call (writecb x) c
  | ev_failed c => redudp_relay_error c
  | net_input c data => set_relay 0 c (with_be_input (fun b => b ++ data))
  | net_output c n => set_relay 0 c (with_be_output (drop n))
  end.

Definition has_bit (flags bit : Z) : bool := negb (Z.land flags bit =? 0).

Definition relay_ready (w : udp_world) (c : nat) (f : redudp_client -> bufferevent -> bool) : bool :=
  match udp_clients w !! c with
  | Some x => match relay x with Some b => f x b | None => false end
  | None => false
  end.

(** When libevent runs a callback. *)
Definition ready (w : udp_world) (e : udp_event) : bool :=
  match e with
  | ev_from_client i _ => match insts w !! i with Some x => ev_added (listener x) | None => false end
  | ev_from_socks c _ _ => match udp_clients w !! c with Some x => ev_added (udprelay x) | None => false end
  | ev_timeout c => match udp_clients w !! c with Some x => ev_added (timeout x) | None => false end
  | ev_readable c =>
      relay_ready w c (fun _ b => has_bit (be_enabled b) EV_READ && (wm_read_low b <=? Z.of_nat (length (be_input b))) &&
        (0 <? Z.of_nat (length (be_input b))))
  | ev_writable c => relay_ready w c (fun _ b => has_bit (be_enabled b) EV_WRITE && (Z.of_nat (length (be_output b)) =? 0))
  | ev_failed c => relay_ready w c (fun _ _ => true)
  | net_input c data =>
      relay_ready w c (fun _ b => has_bit (be_enabled b) EV_READ &&
        ((wm_read_high b =? 0) || (Z.of_nat (length (be_input b ++ data)) <=? wm_read_high b)))
  | net_output c _ => relay_ready w c (fun _ b => has_bit (be_enabled b) EV_WRITE)
  end.

End Redudp.

End RedUdp.
