(* ===== verification/RedUdpInv.v ===== *)
(** * The invariant of the UDP relay of redsocks, and dropping a client *)

From S2P Require Import Prelude Effect RedWorld RedCore RedLogic Socks5 RedUdp.

Open Scope Z_scope.
Close Scope red_scope.

Import RedUdp.

(** ** Counting the users of a bound socket *)

Definition key (x : redudp_client) : bound_key := bound_udp4_mkkey (destaddr x).

Definition uses (k : bound_key) (x : redudp_client) : Prop := sender_fd x <> -1 /\ key x = k.

#[export] Instance uses_dec k x : Decision (uses k x).
Proof. unfold uses. apply _. Defined.

Definition users (C : gmap nat redudp_client) (k : bound_key) : nat :=
  size (filter (fun p : nat * redudp_client => uses k p.2) C).

Section Users.
Context (C : gmap nat redudp_client) (c : nat) (x : redudp_client) (Hx : C !! c = Some x) (k : bound_key).

Lemma users_delete : users C k = ((if decide (uses k x) then 1 else 0) + users (delete c C) k)%nat.
Proof.
  unfold users. rewrite map_filter_delete. case_decide as Hu; cbn.
  - rewrite <- (insert_delete_id (filter _ C) c x) at 1 by now apply map_lookup_filter_Some.
    now rewrite map_size_insert_None by apply lookup_delete_eq.
  - rewrite delete_id; [done|]. apply map_lookup_filter_None. right. intros y Hy. rewrite Hx in Hy. injection Hy as <-. done.
Qed.

Lemma users_update y : users (<[c := y]> C) k = ((if decide (uses k y) then 1 else 0) + users (delete c C) k)%nat.
Proof.
  unfold users. rewrite <- insert_delete_eq. case_decide as Hu; cbn.
  - rewrite map_filter_insert_True by done. rewrite map_size_insert_None; [done|].
    apply map_lookup_filter_None. left. apply lookup_delete_eq.
  - rewrite map_filter_insert_False by done. now rewrite delete_delete_eq.
Qed.

End Users.

Lemma users_other C c c' x y k :
  C !! c = Some x -> C !! c' = Some y -> c <> c' -> uses k x -> uses k y -> (2 <= users C k)%nat.
Proof.
  intros Hx Hy Hne Hu Hv. rewrite (users_delete C c x Hx k), decide_True by done.
  rewrite (users_delete (delete c C) c' y) by now rewrite lookup_delete_ne. rewrite decide_True by done. lia.
Qed.

(** ** The invariant *)

(** Who says that it has a descriptor. *)
Definition owns (w : udp_world) (o : owner) (fd : Z) : Prop :=
  match o with
  | o_listener i => exists x, insts w !! i = Some x /\ ev_init (listener x) = true /\ ev_fd (listener x) = fd
  | o_relay c => exists x b, udp_clients w !! c = Some x /\ relay x = Some b /\ be_fd b = fd
  | o_udprelay c => exists x, udp_clients w !! c = Some x /\ ev_init (udprelay x) = true /\ ev_fd (udprelay x) = fd
  | o_bound k => exists ref, root_bound_udp4 w !! k = Some (ref, fd)
  end.

(** What holds of a client from its allocation to its end. *)
Record client_base (w : udp_world) (c : nat) (x : redudp_client) : Prop := ClientBase {
  cb_inst : exists i, insts w !! instance x = Some i /\ (linked x = true <-> c ∈ clients i);
  cb_relay : forall b, relay x = Some b -> fds w !! be_fd b = Some (o_relay c);
  cb_udprelay : ev_init (udprelay x) = true -> fds w !! ev_fd (udprelay x) = Some (o_udprelay c);
  cb_sender : sender_fd x <> -1 -> exists ref, root_bound_udp4 w !! key x = Some (ref, sender_fd x);
  cb_next : (c < next w)%nat;
}.

(** The callbacks before and after the connection is there. *)
Definition cbs_ok (r wr : relay_cb) : bool :=
  match r, wr with
  | cb_none, cb_connected => true
  | cb_auth_methods, cb_none | cb_auth_reply, cb_none | cb_assoc_reply, cb_none => true
  | _, _ => false
  end.

(** What holds of a client between two events. *)
Record client_full (w : udp_world) (x : redudp_client) : Prop := ClientFull {
  cf_linked : linked x = true;
  cf_timeout : ev_init (timeout x) = true /\ ev_added (timeout x) = true;
  cf_relay : relay x <> None;
  cf_queue : queue_len x = Z.of_nat (length (queue x));
  cf_bound : forall i, insts w !! instance x = Some i -> queue_len x <= max_pktqueue (config i);
  cf_udprelay : ev_added (udprelay x) = ev_init (udprelay x);
  cf_started : ev_init (udprelay x) = true -> queue x = [] /\ readcb x = cb_assoc_reply;
  cf_cbs : cbs_ok (readcb x) (writecb x) = true;
}.

Record inst_ok (w : udp_world) (i : nat) (x : redudp_instance) : Prop := InstOk {
  io_clients : NoDup (clients x);
  io_each : forall c, c ∈ clients x -> exists y, udp_clients w !! c = Some y /\ instance y = i;
  io_listener : ev_init (listener x) = true -> ev_added (listener x) = true /\ fds w !! ev_fd (listener x) = Some (o_listener i);
  io_added : ev_init (listener x) = false -> ev_added (listener x) = false;
  io_queue : 0 <= max_pktqueue (config x) < 65536;
}.

(** [r] is the client an event is about, which need not be complete. *)
Record inv (r : option nat) (w : udp_world) : Prop := Inv {
  i_ev : w_evscript (red w) = [];
  i_nodup : NoDup (instances w);
  i_listed : forall i, i ∈ instances w <-> is_Some (insts w !! i);
  i_inst : forall i x, insts w !! i = Some x -> inst_ok w i x;
  i_base : forall c x, udp_clients w !! c = Some x -> client_base w c x;
  i_full : forall c x, udp_clients w !! c = Some x -> r <> Some c -> client_full w x;
  i_bound : forall k ref fd, root_bound_udp4 w !! k = Some (ref, fd) ->
    fds w !! fd = Some (o_bound k) /\ ref = Z.of_nat (users (udp_clients w) k) /\ 0 < ref;
  i_owned : forall fd o, fds w !! fd = Some o -> owns w o fd;
  i_valid : fds w !! (-1) = None;
}.

Lemma inv_weaken r w : inv None w -> inv r w.
Proof. intros []. split; auto. intros c x Hx _. now apply (i_full0 c x Hx). Qed.

(** The answers and the records of packets do not matter. *)
Lemma inv_log r r0 r' F L I C n B T T' Fo Fo' Re Re' :
  inv r (UWorld r0 F L I C n B T Fo Re) -> w_evscript r' = [] -> inv r (UWorld r' F L I C n B T' Fo' Re').
Proof.
  intros [H1 H2 H3 H4 H5 H6 H7 H8 H9] He. split; try done.
  - intros i x Hi. destruct (H4 i x Hi). now split.
  - intros c x Hc. destruct (H5 c x Hc). now split.
  - intros c x Hc Hr. destruct (H6 c x Hc Hr). now split.
Qed.

Lemma inv_red r w r' : inv r w -> w_evscript r' = [] -> inv r (with_red r' w).
Proof. destruct w. apply inv_log. Qed.

(** ** Running the primitives *)

Section Prim.
Context `{BC : BaseConfig}.

Lemma eff_lift {A} (m : M A) (Q : A -> udp_world -> Prop) w :
  wp safe m (fun a r => Q a (with_red r w)) (red w) -> runs (lift m) Q w.
Proof. unfold wp, runs, lift. now destruct (m (red w)). Qed.

Lemma calm_ev l r r' : quiet l r r' -> w_evscript r = [] -> w_evscript r' = [].
Proof. intros [H _]. exact (a_ev _ _ _ H). Qed.

Lemma eff_sys (Q : Z -> udp_world -> Prop) w :
  w_evscript (red w) = [] -> (forall a r, w_evscript r = [] -> Q a (with_red r w)) -> runs sys Q w.
Proof. intros He HQ. apply eff_lift, wp_sys_quiet. intros a r Hr. apply HQ. now apply (calm_ev _ _ _ Hr). Qed.

Lemma eff_sys_ev (Q : Z -> udp_world -> Prop) w :
  w_evscript (red w) = [] -> (forall r, w_evscript r = [] -> Q 0 (with_red r w)) -> runs sys_ev Q w.
Proof. intros He HQ. apply eff_lift, wp_sys_ev_nil; [done|]. now apply HQ. Qed.

Lemma eff_mkevbuffer data (Q : option (list Z) -> udp_world -> Prop) w :
  w_evscript (red w) = [] ->
  (forall r, w_evscript r = [] -> Q None (with_red r w) /\ Q (Some data) (with_red r w)) -> runs (lift (mkevbuffer data)) Q w.
Proof.
  intros He HQ. apply eff_lift. unfold mkevbuffer. apply wp_bind, wp_sys_quiet. intros a r Hr. apply (calm_ev _ _ _ Hr) in He.
  destruct (negb (a =? 0)); [now apply wp_ret, HQ|]. apply wp_bind, wp_sys_quiet. intros a' r' Hr'. apply (calm_ev _ _ _ Hr') in He.
  destruct (a' <? 0); now apply wp_ret, HQ.
Qed.

Lemma eff_connected_ok (Q : bool -> udp_world -> Prop) w :
  w_evscript (red w) = [] -> (forall b r, w_evscript r = [] -> Q b (with_red r w)) -> runs (lift red_is_socket_connected_ok) Q w.
Proof.
  intros He HQ. apply eff_lift. unfold red_is_socket_connected_ok, red_socket_geterrno. apply wp_bind, wp_bind, wp_sys_quiet.
  intros a r Hr. apply (calm_ev _ _ _ Hr) in He. destruct (negb (a =? 0)); [now apply wp_ret, wp_ret, HQ|].
  apply wp_sys_quiet. intros a' r' Hr'. apply (calm_ev _ _ _ Hr') in He. now apply wp_ret, HQ.
Qed.

Lemma eff_close line fd o (Q : unit -> udp_world -> Prop) w :
  w_evscript (red w) = [] -> fds w !! fd = Some o ->
  (forall r, w_evscript r = [] -> Q tt (with_red r (with_fds (delete fd) w))) -> runs (redsocks_close line fd) Q w.
Proof.
  intros He Ho HQ. unfold redsocks_close. step_eff. step_eff. step_eff. apply eff_assert; [apply bool_decide_true; now rewrite Ho|].
  step_eff. step_eff. apply eff_lift, redsocks_close_quiet. intros r Hr. apply HQ. now apply (calm_ev _ _ _ Hr).
Qed.

Lemma eff_socket o (Q : Z -> udp_world -> Prop) w :
  w_evscript (red w) = [] ->
  (forall r, w_evscript r = [] -> Q (-1) (with_red r w)) ->
  (forall r fd, w_evscript r = [] -> fd <> -1 -> fds w !! fd = None -> Q fd (with_red r (with_fds (insert fd o) w))) -> runs (socket o) Q w.
Proof.
  intros He H1 H2. unfold socket. step_eff. apply eff_sys; [done|]. intros fd r Hr. step_eff. step_eff.
  destruct (Z.eqb_spec fd (-1)) as [->|Hne]; cbn; [now apply eff_ret, H1|].
  case_bool_decide as Hb; [now apply eff_ret, H1|]. step_eff. step_eff. step_eff. apply (H2 r fd); [done|done|].
  now apply eq_None_not_Some.
Qed.

Lemma eff_client line c x (Q : redudp_client -> udp_world -> Prop) w : udp_clients w !! c = Some x -> Q x w -> runs (client line c) Q w.
Proof. intros E H. unfold client. step_eff. step_eff. now rewrite E. Qed.

Lemma eff_set_client line c x f (Q : unit -> udp_world -> Prop) w :
  udp_clients w !! c = Some x -> Q tt (with_clients (insert c (f x)) w) -> runs (set_client line c f) Q w.
Proof. intros E H. unfold set_client. step_eff. apply (eff_client _ _ _ _ _ E). now step_eff. Qed.

Lemma eff_inst line i x (Q : redudp_instance -> udp_world -> Prop) w : insts w !! i = Some x -> Q x w -> runs (inst line i) Q w.
Proof. intros E H. unfold inst. step_eff. step_eff. now rewrite E. Qed.

Lemma eff_set_inst line i x f (Q : unit -> udp_world -> Prop) w :
  insts w !! i = Some x -> Q tt (with_insts (insert i (f x)) w) -> runs (set_inst line i f) Q w.
Proof. intros E H. unfold set_inst. step_eff. apply (eff_inst _ _ _ _ _ E). now step_eff. Qed.

End Prim.

(** ** Dropping a client *)

Definition close_opt (fd : option Z) (F : gmap Z owner) : gmap Z owner :=
  match fd with Some fd => delete fd F | None => F end.

Definition relay_fd (x : redudp_client) : option Z := be_fd <$> relay x.
Definition udprelay_fd (x : redudp_client) : option Z := if ev_init (udprelay x) then Some (ev_fd (udprelay x)) else None.

(** The table of bound sockets without one use, and the descriptor that is closed then. *)
Definition put_bound (x : redudp_client) (B : gmap bound_key (Z * Z)) : gmap bound_key (Z * Z) * option Z :=
  if sender_fd x =? -1 then (B, None)
  else match B !! key x with
       | Some (ref, fd) => if ref - 1 =? 0 then (delete (key x) B, Some fd) else (<[key x := (ref - 1, fd)]> B, None)
       | None => (B, None)
       end.

Definition unlink (c : nat) (x : redudp_client) (I : gmap nat redudp_instance) : gmap nat redudp_instance :=
  if linked x then alter (i_set_clients (filter (fun k => k <> c))) (instance x) I else I.

Lemma alter_some {A} (f : A -> A) (i : nat) (m : gmap nat A) x : m !! i = Some x -> alter f i m = <[i := f x]> m.
Proof. intros E. rewrite <- (insert_id m i x E) at 1. now rewrite alter_insert_eq. Qed.

(** The state once client [c] was dropped. *)
Definition after_drop (c : nat) (x : redudp_client) (w : udp_world) : udp_world :=
  UWorld (red w)
    (close_opt (put_bound x (root_bound_udp4 w)).2 (close_opt (udprelay_fd x) (close_opt (relay_fd x) (fds w))))
    (instances w) (unlink c x (insts w)) (delete c (udp_clients w)) (next w) (put_bound x (root_bound_udp4 w)).1
    (taken w) (forwarded w) (returned w).

Ltac udp_tidy :=
  cbv beta iota delta [red fds instances insts udp_clients next root_bound_udp4 taken forwarded returned with_red with_fds with_instances
    with_insts with_clients with_next with_bound with_taken with_forwarded with_returned] in *.

Section Drop.
Context `{BC : BaseConfig}.

Lemma eff_bound_put x (Q : unit -> udp_world -> Prop) w :
  w_evscript (red w) = [] -> 
  (exists ref fd, root_bound_udp4 w !! key x = Some (ref, fd) /\ 0 < ref /\ fds w !! fd = Some (o_bound (key x))) -> sender_fd x <> -1 ->
  (forall r, w_evscript r = [] ->
     Q tt (with_red r (with_fds (close_opt (put_bound x (root_bound_udp4 w)).2) (with_bound (fun _ => (put_bound x (root_bound_udp4 w)).1) w)))) ->
  runs (bound_udp4_put (destaddr x)) Q w.
Proof.
  intros He (ref & fd & Hb & Hpos & Hfd) Hs HQ. unfold bound_udp4_put. fold (key x). step_eff. step_eff. rewrite Hb.
  unfold put_bound in HQ. rewrite (proj2 (Z.eqb_neq _ _) Hs), Hb in HQ. step_eff. apply eff_assert; [lia|]. step_eff. step_eff.
  destruct (ref - 1 =? 0); cbn [negb fst snd close_opt] in *.
  - step_eff. step_eff. eapply eff_close; [done|exact Hfd|]. intros r Hr. specialize (HQ r Hr). destruct w. udp_tidy. now rewrite delete_insert_eq.
  - apply eff_ret. specialize (HQ (red w) He). now destruct w.
Qed.

Lemma eff_free_relay c x (Q : unit -> udp_world -> Prop) w :
  w_evscript (red w) = [] -> (forall b, relay x = Some b -> fds w !! be_fd b = Some (o_relay c)) ->
  fds w !! (-1) = None -> (forall r, w_evscript r = [] -> Q tt (with_red r (with_fds (close_opt (relay_fd x)) w))) ->
  runs (match relay x with Some b => redsocks_bufferevent_free 224 (be_fd b) | None => mret tt end) Q w.
Proof.
  intros He Hb Hv HQ. unfold relay_fd in HQ. destruct (relay x) as [b|]; cbn in HQ.
  - specialize (Hb b eq_refl). unfold redsocks_bufferevent_free. step_eff. apply eff_sys; [done|]. intros a r Hr.
    destruct (Z.eqb_spec (be_fd b) (-1)) as [E|Hne]; [congruence|]. cbn [negb whenever].
    eapply eff_close; [done|exact Hb|]. intros r' Hr'. specialize (HQ r' Hr'). now destruct w.
  - apply eff_ret. specialize (HQ (red w) He). now destruct w.
Qed.

Lemma eff_free_udprelay c x (Q : unit -> udp_world -> Prop) w :
  w_evscript (red w) = [] -> (ev_init (udprelay x) = true -> fds w !! ev_fd (udprelay x) = Some (o_udprelay c)) ->
  is_Some (udp_clients w !! c) ->
  (forall r C, w_evscript r = [] -> delete c C = delete c (udp_clients w) ->
     Q tt (with_red r (with_fds (close_opt (udprelay_fd x)) (with_clients (fun _ => C) w)))) ->
  runs (whenever (ev_init (udprelay x))
    (r ← sys_ev; set_client 227 c (c_set_udprelay (event_del_ok r (udprelay x))) ;; redsocks_close 229 (ev_fd (udprelay x)))) Q w.
Proof.
  intros He Hf [y Hy] HQ. unfold udprelay_fd in HQ. destruct (ev_init (udprelay x)); cbn [whenever close_opt] in *.
  - step_eff. apply eff_sys_ev; [done|]. intros r Hr. step_eff. eapply eff_set_client; [exact Hy|].
    eapply eff_close; [done|now apply Hf|]. intros r' Hr'.
    specialize (HQ r' (<[c := c_set_udprelay (event_del_ok 0 (udprelay x)) y]> (udp_clients w)) Hr'). destruct w. apply HQ. apply delete_insert_eq.
  - apply eff_ret. specialize (HQ (red w) (udp_clients w) He eq_refl). now destruct w.
Qed.

(** Dropping a client whose parts are consistent. *)
Lemma eff_drop r c x (Q : unit -> udp_world -> Prop) w :
  inv r w -> udp_clients w !! c = Some x ->
  (forall r', w_evscript r' = [] -> Q tt (with_red r' (after_drop c x w))) -> runs (redudp_drop_client c) Q w.
Proof.
  intros [He Hnd Hl Hi Hbase Hfull Hbound Howned Hv] Hx HQ. destruct (Hbase c x Hx) as [(i & Ei & Hlink) Hrel Hudp Hsend Hnext].
  unfold redudp_drop_client. step_eff. eapply eff_client; [exact Hx|]. step_eff. unfold get_destaddr. step_eff.
  eapply eff_client; [exact Hx|]. step_eff. eapply eff_inst; [exact Ei|]. step_eff. step_eff.
  destruct w as [r0 F L I C n B T Fo Re]. udp_tidy. 
  assert (Hrest : forall r1 C1, w_evscript r1 = [] -> delete c C1 = delete c C -> is_Some (C1 !! c) ->
    runs (match relay x with Some b => redsocks_bufferevent_free 224 (be_fd b) | None => mret tt end ;;
      whenever (ev_init (udprelay x))
        (r ← sys_ev; set_client 227 c (c_set_udprelay (event_del_ok r (udprelay x))) ;; redsocks_close 229 (ev_fd (udprelay x))) ;;
      whenever (negb (sender_fd x =? -1)) (bound_udp4_put (destaddr x)) ;;
      whenever (linked x) (set_inst 237 (instance x) (i_set_clients (filter (fun k => k <> c)))) ;;
      upd_st (with_clients (delete c))) Q (UWorld r1 F L I C1 n B T Fo Re)).
  2: { apply eff_whenever; intros Ht; [|apply Hrest; eauto]. step_eff. apply eff_sys_ev; [done|]. intros r1 Hr1.
       eapply eff_set_client; [exact Hx|]. apply Hrest; [done|apply delete_insert_eq|rewrite lookup_insert_eq; eauto]. }
  intros r1 C1 He1 HC1 Hc1. step_eff. apply (eff_free_relay c); [done..|]. intros r2 He2. step_eff.
  apply (eff_free_udprelay c); [done| |done|].
  { intros Hu. cbn. unfold relay_fd. destruct (relay x) as [b|] eqn:Eb; cbn; [|auto]. rewrite lookup_delete_ne; [auto|].
    intros E. specialize (Hrel b eq_refl). specialize (Hudp Hu). congruence. }
  intros r3 C3 He3 HC3. udp_tidy. step_eff. 
  assert (Hlast : forall r4, w_evscript r4 = [] -> runs (whenever (linked x) (set_inst 237 (instance x) (i_set_clients (filter (fun k => k <> c)))) ;;
      upd_st (with_clients (delete c))) Q
    (UWorld r4 (close_opt (put_bound x B).2 (close_opt (udprelay_fd x) (close_opt (relay_fd x) F))) L I C3 n (put_bound x B).1 T Fo Re)).
  { intros r4 He4. specialize (HQ r4 He4). unfold after_drop, unlink in HQ. udp_tidy. step_eff. apply eff_whenever; intros El; rewrite El in HQ.
    - eapply eff_set_inst; [exact Ei|]. step_eff. udp_tidy. rewrite HC3, HC1. now rewrite (alter_some _ _ _ _ Ei) in HQ.
    - step_eff. udp_tidy. now rewrite HC3, HC1. }
  apply eff_whenever; intros Es.
  - apply negb_true_iff, Z.eqb_neq in Es. destruct (Hsend Es) as [ref Eb]. destruct (Hbound _ _ _ Eb) as (Hb1 & Hb2 & Hb3).
    apply eff_bound_put; [done| |done|intros r4 He4; exact (Hlast r4 He4)]. exists ref, (sender_fd x). udp_tidy. split; [done|]. split; [done|].
    unfold udprelay_fd, relay_fd. destruct (ev_init (udprelay x)) eqn:Eu, (relay x) as [b|] eqn:Er; cbn; rewrite ?lookup_delete_ne; try done.
    all: intros E; try specialize (Hudp eq_refl); try specialize (Hrel b eq_refl); congruence.
  - apply negb_false_iff in Es. specialize (Hlast r3 He3). unfold put_bound in Hlast. rewrite Es in Hlast. exact Hlast.
Qed.

End Drop.

Lemma close_opt_lookup m F fd o : close_opt m F !! fd = Some o <-> F !! fd = Some o /\ m <> Some fd.
Proof.
  destruct m as [fd'|]; cbn; [|naive_solver]. rewrite lookup_delete_Some. split; intros [? ?]; split; congruence.
Qed.

(** What is closed with a client, by owner. *)
Section AfterDrop.
Context (r : option nat) (w : udp_world) (c : nat) (x : redudp_client).
Context (Hinv : inv r w) (Hx : udp_clients w !! c = Some x) (Hr : r = None \/ r = Some c).

Lemma relay_fd_owner fd : relay_fd x = Some fd -> fds w !! fd = Some (o_relay c).
Proof.
  unfold relay_fd. intros H. destruct (relay x) as [b|] eqn:E; [|done]. injection H as <-.
  exact (cb_relay _ _ _ (i_base _ _ Hinv c x Hx) b E).
Qed.

Lemma udprelay_fd_owner fd : udprelay_fd x = Some fd -> fds w !! fd = Some (o_udprelay c).
Proof.
  unfold udprelay_fd. destruct (ev_init (udprelay x)) eqn:E; [|done]. intros [= <-].
  exact (cb_udprelay _ _ _ (i_base _ _ Hinv c x Hx) E).
Qed.

(** The three cases of giving back a bound socket. *)
Lemma put_bound_cases :
  let B := root_bound_udp4 w in
  (sender_fd x = -1 /\ put_bound x B = (B, None)) \/
  (sender_fd x <> -1 /\ exists fd, B !! key x = Some (1, fd) /\ put_bound x B = (delete (key x) B, Some fd) /\ users (udp_clients w) (key x) = 1%nat) \/
  (sender_fd x <> -1 /\ exists ref fd, B !! key x = Some (ref, fd) /\ 1 < ref /\ put_bound x B = (<[key x := (ref - 1, fd)]> B, None)).
Proof.
  cbn zeta. unfold put_bound. destruct (Z.eqb_spec (sender_fd x) (-1)) as [E|Hs]; [now left|right].
  destruct (cb_sender _ _ _ (i_base _ _ Hinv c x Hx) Hs) as [ref E]. destruct (i_bound _ _ Hinv _ _ _ E) as (_ & Hu & Hpos). rewrite E.
  destruct (Z.eqb_spec (ref - 1) 0) as [E1|Hne]; [left|right].
  - split; [done|]. exists (sender_fd x). replace ref with 1 in * by lia. split; [done|]. split; [done|]. lia.
  - split; [done|]. exists ref, (sender_fd x). split; [done|]. split; [lia|done].
Qed.

Lemma after_fds fd o :
  fds (after_drop c x w) !! fd = Some o <->
  fds w !! fd = Some o /\ o <> o_relay c /\ o <> o_udprelay c /\ (put_bound x (root_bound_udp4 w)).2 <> Some fd.
Proof.
  cbn [fds after_drop]. rewrite !close_opt_lookup. split.
  - intros [[[H1 H2] H3] H4]. split; [done|]. split; [|split; [|done]]; intros ->.
    + destruct (i_owned _ _ Hinv _ _ H1) as (y & b & Hy & Hb & Hfd). rewrite Hx in Hy. injection Hy as <-.
      apply H2. unfold relay_fd. rewrite Hb. cbn. now rewrite Hfd.
    + destruct (i_owned _ _ Hinv _ _ H1) as (y & Hy & Hb & Hfd). rewrite Hx in Hy. injection Hy as <-.
      apply H3. unfold udprelay_fd. rewrite Hb. now rewrite Hfd.
  - intros (H1 & H2 & H3 & H4). split; [|done]. split; [split; [done|]|].
    + intros E. apply relay_fd_owner in E. congruence.
    + intros E. apply udprelay_fd_owner in E. congruence.
Qed.

(** The instances differ in their lists only. *)
Lemma after_insts i y :
  insts (after_drop c x w) !! i = Some y ->
  exists y0, insts w !! i = Some y0 /\ config y = config y0 /\ listener y = listener y0 /\
    clients y = filter (fun k => k <> c) (clients y0).
Proof.
  destruct (cb_inst _ _ _ (i_base _ _ Hinv c x Hx)) as (i0 & E0 & Hlink).
  assert (Hsame : forall j z, insts w !! j = Some z -> (linked x = false \/ j <> instance x) -> filter (fun k => k <> c) (clients z) = clients z).
  { intros j z Hz Hc. apply filter_absent. intros Hk.
    destruct (io_each _ _ _ (i_inst _ _ Hinv j z Hz) c Hk) as (x' & Hx' & Hj). rewrite Hx in Hx'. injection Hx' as <-. subst j.
    destruct Hc as [Hc|Hc]; [|done]. rewrite E0 in Hz. injection Hz as <-. apply Hlink in Hk. congruence. }
  cbn [insts after_drop]. unfold unlink. destruct (linked x) eqn:El.
  - rewrite lookup_alter. case_decide as Ei; [subst i; rewrite E0; cbn; intros [= <-]; now exists i0|].
    intros Hy. exists y. now rewrite (Hsame i y Hy) by auto.
  - intros Hy. exists y. now rewrite (Hsame i y Hy) by auto.
Qed.

Lemma after_insts_some i : is_Some (insts (after_drop c x w) !! i) <-> is_Some (insts w !! i).
Proof.
  cbn [insts after_drop]. unfold unlink. destruct (linked x); [|done]. rewrite lookup_alter. case_decide; [|done]. subst.
  destruct (insts w !! instance x); cbn; [|done]. split; eauto.
Qed.

Lemma after_clients k y : udp_clients (after_drop c x w) !! k = Some y <-> k <> c /\ udp_clients w !! k = Some y.
Proof. cbn [udp_clients after_drop]. rewrite lookup_delete_Some. naive_solver. Qed.

Lemma after_inst i y : insts (after_drop c x w) !! i = Some y -> inst_ok (after_drop c x w) i y.
Proof.
  intros Hy. destruct (after_insts i y Hy) as (y0 & H0 & Ec & El & Ek). destruct (i_inst _ _ Hinv i y0 H0) as [H1 H2 H3 H4 H5].
  split; rewrite ?Ec, ?El, ?Ek; auto.
  - now apply NoDup_filter.
  - intros k [Hk Hin]%list_elem_of_filter. destruct (H2 k Hin) as (z & Hz & Ez). exists z. now rewrite after_clients.
  - intros Hi. destruct (H3 Hi) as [H6 H7]. split; [done|]. apply after_fds. repeat split; try done. intros E.
    destruct put_bound_cases as [[_ Ep]|[(_ & fd & Eb & Ep & _)|(_ & ref & fd & _ & _ & Ep)]]; rewrite Ep in E; cbn in E; try done.
    injection E as ->. destruct (i_bound _ _ Hinv _ _ _ Eb) as [Hb _]. congruence.
Qed.

Lemma after_base k y : udp_clients (after_drop c x w) !! k = Some y -> client_base (after_drop c x w) k y.
Proof.
  rewrite after_clients. intros [Hk Hy]. destruct (i_base _ _ Hinv k y Hy) as [(i & Ei & Hlink) H2 H3 H4 H5].
  assert (Hbnd : forall fd, (put_bound x (root_bound_udp4 w)).2 = Some fd -> fds w !! fd = Some (o_bound (key x))).
  { intros fd E. destruct put_bound_cases as [[_ Ep]|[(_ & fd' & Eb & Ep & _)|(_ & ref & fd' & _ & _ & Ep)]]; rewrite Ep in E; cbn in E; try done.
    injection E as <-. now destruct (i_bound _ _ Hinv _ _ _ Eb). }
  split.
  - destruct (proj2 (after_insts_some (instance y)) (mk_is_Some _ _ Ei)) as [i' Ei']. exists i'. split; [done|].
    destruct (after_insts _ _ Ei') as (y0 & H0 & _ & _ & Ek). rewrite Ei in H0. injection H0 as <-. rewrite Ek, list_elem_of_filter, Hlink. tauto.
  - intros b Hb. apply after_fds. specialize (H2 b Hb). repeat split; [done|congruence|congruence|]. intros E. apply Hbnd in E. congruence.
  - intros Hu. apply after_fds. specialize (H3 Hu). repeat split; [done|congruence|congruence|]. intros E. apply Hbnd in E. congruence.
  - intros Hs. destruct (H4 Hs) as [ref Eb]. cbn [root_bound_udp4 after_drop].
    destruct put_bound_cases as [[_ Ep]|[(Hsx & fd & Ebx & Ep & Hu)|(Hsx & ref' & fd & Ebx & Hr' & Ep)]]; rewrite Ep; cbn [fst]; [eauto| |].
    + destruct (decide (key y = key x)) as [E|Hne]; [|rewrite lookup_delete_ne by congruence; eauto].
      pose proof (users_other _ c k x y (key x) Hx Hy ltac:(congruence) (conj Hsx eq_refl) (conj Hs E)). lia.
    + destruct (decide (key y = key x)) as [E|Hne]; [|rewrite lookup_insert_ne by congruence; eauto].
      rewrite E, lookup_insert_eq. rewrite E, Ebx in Eb. injection Eb as _ ->. eauto.
  - done.
Qed.

Lemma after_bound k ref fd :
  root_bound_udp4 (after_drop c x w) !! k = Some (ref, fd) ->
  fds (after_drop c x w) !! fd = Some (o_bound k) /\ ref = Z.of_nat (users (udp_clients (after_drop c x w)) k) /\ 0 < ref.
Proof.
  cbn [root_bound_udp4 after_drop]. fold (after_drop c x w). intros Hb. rewrite after_fds.
  assert (Hcount : users (udp_clients w) k = ((if decide (uses k x) then 1 else 0) + users (udp_clients (after_drop c x w)) k)%nat)
    by exact (users_delete _ _ _ Hx k).
  destruct put_bound_cases as [[Hsx Ep]|[(Hsx & fd' & Ebx & Ep & Hu)|(Hsx & ref' & fd' & Ebx & Hr' & Ep)]]; rewrite Ep in *; cbn [fst snd] in *.
  - destruct (i_bound _ _ Hinv _ _ _ Hb) as (H1 & H2 & H3). rewrite decide_False in Hcount by (intros [? _]; done). repeat split; try done. lia.
  - apply lookup_delete_Some in Hb as [Hk Hb]. destruct (i_bound _ _ Hinv _ _ _ Hb) as (H1 & H2 & H3).
    rewrite decide_False in Hcount by (intros [_ ?]; done). repeat split; try done; [|lia]. intros [= ->].
    destruct (i_bound _ _ Hinv _ _ _ Ebx). congruence.
  - apply lookup_insert_Some in Hb as [[<- [= <- <-]]|[Hk Hb]].
    + destruct (i_bound _ _ Hinv _ _ _ Ebx) as (H1 & H2 & H3). rewrite decide_True in Hcount by done. repeat split; try done; lia.
    + destruct (i_bound _ _ Hinv _ _ _ Hb) as (H1 & H2 & H3). rewrite decide_False in Hcount by (intros [_ ?]; congruence). repeat split; try done. lia.
Qed.

Lemma after_owned fd o : fds (after_drop c x w) !! fd = Some o -> owns (after_drop c x w) o fd.
Proof.
  rewrite after_fds. intros (H1 & H2 & H3 & H4). pose proof (i_owned _ _ Hinv _ _ H1) as Ho. destruct o as [i|k|k|k]; cbn [owns] in *.
  - destruct Ho as (y0 & Hy & Hi & Hf). destruct (proj2 (after_insts_some i) (mk_is_Some _ _ Hy)) as [y Hy'].
    destruct (after_insts _ _ Hy') as (y1 & Hy1 & _ & El & _). rewrite Hy in Hy1. injection Hy1 as <-. exists y. now rewrite El.
  - destruct Ho as (y & b & Hy & Hb & Hf). exists y, b. rewrite after_clients. repeat split; try done. congruence.
  - destruct Ho as (y & Hy & Hb & Hf). exists y. rewrite after_clients. repeat split; try done. congruence.
  - destruct Ho as (ref & Hb). cbn [root_bound_udp4 after_drop].
    destruct put_bound_cases as [[Hsx Ep]|[(Hsx & fd' & Ebx & Ep & Hu)|(Hsx & ref' & fd' & Ebx & Hr' & Ep)]]; rewrite Ep in *; cbn [fst snd] in *; [eauto| |].
    + destruct (decide (k = key x)) as [->|Hne]; [congruence|]. rewrite lookup_delete_ne by done. eauto.
    + destruct (decide (k = key x)) as [->|Hne]; [|rewrite lookup_insert_ne by done; eauto].
      rewrite Ebx in Hb. injection Hb as -> ->. rewrite lookup_insert_eq. eauto.
Qed.

Lemma inv_after_drop : inv None (after_drop c x w).
Proof.
  pose proof Hinv as [H1 H2 H3 H4 H5 H6 H7 H8 H9]. split; auto using after_inst, after_base, after_bound, after_owned.
  - intros i. rewrite after_insts_some. apply H3.
  - intros k y Hy _. apply after_clients in Hy as [Hk Hy]. destruct (H6 k y Hy) as [? ? ? ? Hq ? ? ?]; [destruct Hr as [-> | ->]; congruence|].
    split; auto. intros i Hi. destruct (after_insts _ _ Hi) as (y0 & H0 & Ec & _). rewrite Ec. auto.
  - destruct (fds (after_drop c x w) !! (-1)) as [o|] eqn:E; [|done]. apply after_fds in E as [E _]. congruence.
Qed.

End AfterDrop.

(** ** The packets of a client *)

Definition dest_of (I : gmap nat redudp_instance) (x : redudp_client) : sockaddr_in :=
  match I !! instance x with
  | Some i => if do_tproxy i then destaddr x else cfg_destaddr (config i)
  | None => destaddr x
  end.

Definition taken_by (c : nat) (l : list (nat * list Z)) : list (list Z) :=
  omap (fun p : nat * list Z => if decide (p.1 = c) then Some p.2 else None) l.
Definition forwarded_by (c : nat) (l : list (nat * sockaddr_in * list Z)) : list (sockaddr_in * list Z) :=
  omap (fun p : nat * sockaddr_in * list Z => if decide (p.1.1 = c) then Some (p.1.2, p.2) else None) l.

(** What was taken is what was forwarded, with the preamble in front, and what is still in the queue. *)
Definition client_flow (w : udp_world) (c : nat) (x : redudp_client) : Prop :=
  exists sent,
    taken_by c (taken w) = sent ++ queue x /\
    forwarded_by c (forwarded w) = map (fun d => (udprelayaddr x, preamble (dest_of (insts w) x) ++ d)) sent /\
    (ev_init (udprelay x) = false -> sent = []).

Record flow (w : udp_world) : Prop := Flow {
  fl_client : forall c x, udp_clients w !! c = Some x -> client_flow w c x;
  fl_taken : forall c d, (c, d) ∈ taken w -> (c < next w)%nat;
  fl_forwarded : forall c a d, (c, a, d) ∈ forwarded w -> (c < next w)%nat;
}.

Definition ok (r : option nat) (w : udp_world) : Prop := inv r w /\ flow w.

Lemma ok_red r w r' : ok r w -> w_evscript r' = [] -> ok r (with_red r' w).
Proof. intros [H1 []] He. split; [now apply inv_red|now split]. Qed.

Lemma dest_of_same I I' x :
  (forall i, I !! instance x = Some i -> exists i', I' !! instance x = Some i' /\ config i' = config i) ->
  is_Some (I !! instance x) -> dest_of I' x = dest_of I x.
Proof. unfold dest_of, do_tproxy. intros H [i E]. destruct (H i E) as (i' & -> & Ec). now rewrite E, Ec. Qed.

Lemma ok_after_drop r w c x : ok r w -> udp_clients w !! c = Some x -> r = None \/ r = Some c -> ok None (after_drop c x w).
Proof.
  intros [Hi [H1 H2 H3]] Hx Hr. split; [now apply (inv_after_drop r)|]. split; [|done|done].
  intros k y Hy. apply after_clients in Hy as [_ Hy]. destruct (H1 k y Hy) as (sent & E1 & E2 & E3). exists sent. split; [done|]. split; [|done].
  cbn [forwarded after_drop]. rewrite E2. apply map_ext. intros d. do 3 f_equal. symmetry.
  destruct (cb_inst _ _ _ (i_base _ _ Hi k y Hy)) as (i & Ei & _).
  apply (dest_of_same (insts w) (insts (after_drop c x w))); [|eauto]. intros i' Ei'.
  destruct (proj2 (after_insts_some w c x (instance y)) (mk_is_Some _ _ Ei)) as [j Ej]. exists j. split; [done|].
  destruct (after_insts r w c x Hi Hx _ _ Ej) as (j0 & E0 & Ec & _). congruence.
Qed.

(** ** Changing one client *)

(** Nothing another part relies on has changed. *)
Record same_base (x y : redudp_client) : Prop := SameBase {
  sb_linked : linked y = linked x;
  sb_instance : instance y = instance x;
  sb_destaddr : destaddr y = destaddr x;
  sb_sender : sender_fd y = sender_fd x;
  sb_relay : relay_fd y = relay_fd x;
  sb_udprelay : udprelay_fd y = udprelay_fd x;
}.

Lemma same_base_refl x : same_base x x.
Proof. done. Qed.

Lemma udprelay_fd_Some x fd : udprelay_fd x = Some fd <-> ev_init (udprelay x) = true /\ ev_fd (udprelay x) = fd.
Proof. unfold udprelay_fd. destruct (ev_init (udprelay x)); naive_solver. Qed.

Lemma relay_fd_Some x fd : relay_fd x = Some fd <-> exists b, relay x = Some b /\ be_fd b = fd.
Proof. unfold relay_fd. destruct (relay x); cbn; naive_solver. Qed.

Section Update.
Context (r : option nat) (w : udp_world) (c : nat) (x y : redudp_client).
Context (Hinv : inv r w) (Hx : udp_clients w !! c = Some x) (Hsame : same_base x y).

Let w' := with_clients (insert c y) w.

Lemma uses_same k : uses k y <-> uses k x.
Proof. unfold uses, key. destruct Hsame. now rewrite sb_sender0, sb_destaddr0. Qed.

Lemma users_same k : users (udp_clients w') k = users (udp_clients w) k.
Proof.
  cbn. rewrite users_update, (users_delete _ _ _ Hx). f_equal. pose proof (uses_same k). do 2 case_decide; tauto.
Qed.

Lemma update_client k z : udp_clients w' !! k = Some z -> exists z0, udp_clients w !! k = Some z0 /\ same_base z0 z /\ (k <> c -> z = z0).
Proof.
  cbn. intros [[<- <-]|[Hk Hz]]%lookup_insert_Some; [exists x|exists z]; repeat split; try done; apply Hsame.
Qed.

Lemma update_base k z : udp_clients w' !! k = Some z -> client_base w' k z.
Proof.
  intros Hz. destruct (update_client k z Hz) as (z0 & H0 & [] & _). destruct (i_base _ _ Hinv k z0 H0) as [H1 H2 H3 H4 H5]. split.
  - rewrite sb_instance0, sb_linked0. exact H1.
  - intros b Hb. assert (E : relay_fd z0 = Some (be_fd b)) by (rewrite <- sb_relay0; unfold relay_fd; now rewrite Hb).
    apply relay_fd_Some in E as (b0 & E1 & E2). rewrite <- E2. now apply H2.
  - intros Hu. assert (E : udprelay_fd z0 = Some (ev_fd (udprelay z))) by (rewrite <- sb_udprelay0; now apply udprelay_fd_Some).
    apply udprelay_fd_Some in E as (E1 & E2). rewrite <- E2. now apply H3.
  - unfold key. rewrite sb_sender0, sb_destaddr0. exact H4.
  - done.
Qed.

Lemma inv_update : r = None \/ r = Some c -> inv (Some c) w'.
Proof.
  intros Hr. pose proof Hinv as [H1 H2 H3 H4 H5 H6 H7 H8 H9]. split; auto using update_base.
  - intros i z Hz. destruct (H4 i z Hz) as [I1 I2 I3 I4 I5]. split; try done. intros k Hk. destruct (I2 k Hk) as (z0 & E & Ei).
    destruct (decide (k = c)) as [->|Hne]; [|exists z0; split; [cbn; now rewrite lookup_insert_ne|done]].
    exists y. split; [apply lookup_insert_eq|]. rewrite Hx in E. injection E as <-. now rewrite (sb_instance _ _ Hsame).
  - intros k z Hz Hk. destruct (update_client k z Hz) as (z0 & H0 & _ & E). rewrite E in * by congruence.
    destruct (H6 k z0 H0) as [? ? ? ? ? ? ? ?]; [destruct Hr as [-> | ->]; congruence|]. now split.
  - intros k ref fd Hb. rewrite users_same. exact (H7 k ref fd Hb).
  - intros fd o Ho. specialize (H8 fd o Ho). destruct o as [i|k|k|k]; cbn [owns] in *; [exact H8| | |exact H8].
    + destruct H8 as (z & b & Hz & Hb & Hf). destruct (decide (k = c)) as [->|Hne]; [|exists z, b; split; [cbn; now rewrite lookup_insert_ne|done]].
      rewrite Hx in Hz. injection Hz as <-. assert (E : relay_fd y = Some fd) by (rewrite (sb_relay _ _ Hsame); apply relay_fd_Some; eauto).
      apply relay_fd_Some in E as (b' & E1 & E2). exists y, b'. split; [apply lookup_insert_eq|done].
    + destruct H8 as (z & Hz & Hb & Hf). destruct (decide (k = c)) as [->|Hne]; [|exists z; split; [cbn; now rewrite lookup_insert_ne|done]].
      rewrite Hx in Hz. injection Hz as <-. assert (E : udprelay_fd y = Some fd) by (rewrite (sb_udprelay _ _ Hsame); now apply udprelay_fd_Some).
      apply udprelay_fd_Some in E as (E1 & E2). exists y. split; [apply lookup_insert_eq|done].
Qed.

End Update.

(** ** Descriptors that come in *)

(** A client gets a connection to the relay, or a socket for its packets. *)
Record gains (c : nat) (fd : Z) (o : owner) (x y : redudp_client) : Prop := Gains {
  ga_linked : linked y = linked x;
  ga_instance : instance y = instance x;
  ga_destaddr : destaddr y = destaddr x;
  ga_sender : sender_fd y = sender_fd x;
  ga_which : (o = o_relay c /\ relay_fd x = None /\ relay_fd y = Some fd /\ udprelay_fd y = udprelay_fd x) \/
             (o = o_udprelay c /\ udprelay_fd x = None /\ udprelay_fd y = Some fd /\ relay_fd y = relay_fd x);
}.

Section Gain.
Context (r : option nat) (w : udp_world) (c : nat) (x y : redudp_client) (fd : Z) (o : owner).
Context (Hinv : inv r w) (Hr : r = None \/ r = Some c) (Hx : udp_clients w !! c = Some x) (Hg : gains c fd o x y).
Context (Hfresh : fds w !! fd = None) (Hfd : fd <> -1).

Let w' := with_fds (insert fd o) (with_clients (insert c y) w).

Lemma gain_keeps k o' : fds w !! k = Some o' -> fds w' !! k = Some o'.
Proof. intros H. cbn. rewrite lookup_insert_ne; [done|]. congruence. Qed.

Lemma gain_base k z : udp_clients w' !! k = Some z -> client_base w' k z.
Proof.
  cbn. intros [[<- <-]|[Hk Hz]]%lookup_insert_Some.
  - destruct Hg as [G1 G2 G3 G4 G5]. destruct (i_base _ _ Hinv c x Hx) as [H1 H2 H3 H4 H5]. split.
    + rewrite G1, G2. exact H1.
    + intros b Hb. assert (E : relay_fd y = Some (be_fd b)) by (unfold relay_fd; now rewrite Hb).
      destruct G5 as [(-> & _ & E' & _)|(_ & _ & _ & E')]; rewrite E' in E; [injection E as <-; apply lookup_insert_eq|].
      apply relay_fd_Some in E as (b0 & E1 & E2). rewrite <- E2. apply gain_keeps. now apply H2.
    + intros Hu. assert (E : udprelay_fd y = Some (ev_fd (udprelay y))) by now apply udprelay_fd_Some.
      destruct G5 as [(_ & _ & _ & E')|(-> & _ & E' & _)]; rewrite E' in E; [|injection E as <-; apply lookup_insert_eq].
      apply udprelay_fd_Some in E as (E1 & E2). rewrite <- E2. apply gain_keeps. now apply H3.
    + unfold key. rewrite G3, G4. exact H4.
    + done.
  - destruct (i_base _ _ Hinv k z Hz) as [H1 H2 H3 H4 H5]. split; auto; intros; apply gain_keeps; auto.
Qed.

Lemma gain_owned k o' : fds w' !! k = Some o' -> owns w' o' k.
Proof.
  destruct Hg as [G1 G2 G3 G4 G5]. cbn. intros [[<- <-]|[Hk Ho]]%lookup_insert_Some.
  - destruct G5 as [(-> & _ & E & _)|(-> & _ & E & _)]; cbn [owns].
    + apply relay_fd_Some in E as (b & E1 & E2). exists y, b. split; [apply lookup_insert_eq|done].
    + apply udprelay_fd_Some in E as (E1 & E2). exists y. split; [apply lookup_insert_eq|done].
  - pose proof (i_owned _ _ Hinv k o' Ho) as H8. destruct o' as [i|j|j|j]; cbn [owns] in *; [exact H8| | |exact H8].
    + destruct H8 as (z & b & Hz & Hb & Hf). destruct (decide (j = c)) as [->|Hne]; [|exists z, b; split; [cbn; now rewrite lookup_insert_ne|done]].
      rewrite Hx in Hz. injection Hz as <-. assert (E : relay_fd x = Some k) by (apply relay_fd_Some; eauto).
      destruct G5 as [(_ & E' & _)|(_ & _ & _ & E')]; [congruence|]. rewrite <- E' in E. apply relay_fd_Some in E as (b' & E1 & E2).
      exists y, b'. split; [apply lookup_insert_eq|done].
    + destruct H8 as (z & Hz & Hb & Hf). destruct (decide (j = c)) as [->|Hne]; [|exists z; split; [cbn; now rewrite lookup_insert_ne|done]].
      rewrite Hx in Hz. injection Hz as <-. assert (E : udprelay_fd x = Some k) by now apply udprelay_fd_Some.
      destruct G5 as [(_ & _ & _ & E')|(_ & E' & _)]; [|congruence]. rewrite <- E' in E. apply udprelay_fd_Some in E as (E1 & E2).
      exists y. split; [apply lookup_insert_eq|done].
Qed.

Lemma inv_gain : inv (Some c) w'.
Proof.
  pose proof Hinv as [H1 H2 H3 H4 H5 H6 H7 H8 H9]. split; auto using gain_base, gain_owned.
  - intros i z Hz. destruct (H4 i z Hz) as [I1 I2 I3 I4 I5]. split; try done.
    + intros k Hk. destruct (I2 k Hk) as (z0 & E & Ei). destruct (decide (k = c)) as [->|Hne]; [|exists z0; split; [cbn; now rewrite lookup_insert_ne|done]].
      exists y. split; [apply lookup_insert_eq|]. rewrite Hx in E. injection E as <-. now rewrite (ga_instance _ _ _ _ _ Hg).
    + intros Hi. destruct (I3 Hi). split; [done|]. now apply gain_keeps.
  - cbn. intros k z [[<- <-]|[Hk Hz]]%lookup_insert_Some Hne; [done|].
    destruct (H6 k z Hz) as [? ? ? ? ? ? ? ?]; [destruct Hr as [-> | ->]; congruence|]. now split.
  - intros k ref f Hb. destruct (H7 k ref f Hb) as (B1 & B2 & B3). split; [now apply gain_keeps|]. split; [|done].
    cbn. rewrite users_update, B2, (users_delete _ _ _ Hx). do 2 f_equal. destruct Hg as [_ _ G3 G4 _].
    assert (E : uses k y <-> uses k x) by (unfold uses, key; now rewrite G3, G4). do 2 case_decide; tauto.
  - cbn. rewrite lookup_insert_ne; done.
Qed.

End Gain.

(** A client shares a bound socket, new or not; the table is [B], the descriptors are [F]. *)
Section Share.
Context (r : option nat) (w : udp_world) (c : nat) (x : redudp_client) (fd ref : Z).
Context (F : gmap Z owner).
Context (Hinv : inv r w) (Hr : r = None \/ r = Some c) (Hx : udp_clients w !! c = Some x) (Hs : sender_fd x = -1) (Hfd : fd <> -1).
Context (Hcase : (root_bound_udp4 w !! key x = Some (ref, fd) /\ F = fds w) \/
                 (root_bound_udp4 w !! key x = None /\ ref = 0 /\ fds w !! fd = None /\ F = <[fd := o_bound (key x)]> (fds w))).

Let y := c_set_sender fd x.
Let w' := with_bound (insert (key x) (ref + 1, fd)) (with_fds (fun _ => F) (with_clients (insert c y) w)).

Lemma share_keeps k o : fds w !! k = Some o -> F !! k = Some o.
Proof. destruct Hcase as [[_ ->]|(_ & _ & Hn & ->)]; [done|]. intros H. rewrite lookup_insert_ne; [done|]. congruence. Qed.

Lemma share_users k : users (udp_clients w') k = ((if decide (key x = k) then 1 else 0) + users (udp_clients w) k)%nat.
Proof.
  cbn. rewrite users_update, (users_delete _ _ _ Hx). rewrite (decide_False (P := uses k x)) by (intros [? _]; done).
  f_equal. unfold uses, key, y. cbn. do 2 case_decide; tauto.
Qed.

(** Without an entry nobody uses the key. *)
Lemma no_entry_no_users k : root_bound_udp4 w !! k = None -> users (udp_clients w) k = 0%nat.
Proof.
  intros Hn. unfold users. apply map_size_empty_iff, map_empty_filter. intros c' z Hz [Hsz Hkz]. cbn in *.
  destruct (cb_sender _ _ _ (i_base _ _ Hinv c' z Hz) Hsz) as [? E]. congruence.
Qed.

Lemma share_base k z : udp_clients w' !! k = Some z -> client_base w' k z.
Proof.
  assert (Hkeep : forall z0, sender_fd z0 <> -1 -> (exists ref0, root_bound_udp4 w !! key z0 = Some (ref0, sender_fd z0)) ->
    exists ref0, root_bound_udp4 w' !! key z0 = Some (ref0, sender_fd z0)).
  { intros z0 _ [ref0 E]. cbn. destruct (decide (key z0 = key x)) as [Ek|Hne]; [|rewrite lookup_insert_ne by congruence; eauto].
    rewrite Ek in *. rewrite lookup_insert_eq. destruct Hcase as [[E' _]|(E' & _)]; [|congruence]. rewrite E' in E. injection E as _ <-. eauto. }
  cbn [udp_clients w' with_bound with_fds with_clients]. intros [[<- <-]|[Hk Hz]]%lookup_insert_Some.
  - destruct (i_base _ _ Hinv c x Hx) as [H1 H2 H3 H4 H5]. split; auto; cbn.
    + intros b Hb. apply share_keeps. auto.
    + intros Hu. apply share_keeps. auto.
    + intros _. unfold key, y. cbn. fold (key x). rewrite lookup_insert_eq. eauto.
  - destruct (i_base _ _ Hinv k z Hz) as [H1 H2 H3 H4 H5]. split; auto; cbn; intros; try (apply share_keeps; auto).
Qed.

Lemma share_bound k ref0 f :
  root_bound_udp4 w' !! k = Some (ref0, f) ->
  fds w' !! f = Some (o_bound k) /\ ref0 = Z.of_nat (users (udp_clients w') k) /\ 0 < ref0.
Proof.
  rewrite share_users. cbn [root_bound_udp4 fds w' with_bound with_fds with_clients].
  intros [[<- [= <- <-]]|[Hk Hb]]%lookup_insert_Some.
  - rewrite decide_True by done. destruct Hcase as [[E ->]|(E & -> & Hn & ->)].
    + destruct (i_bound _ _ Hinv _ _ _ E) as (B1 & B2 & B3). split; [done|]. lia.
    + rewrite lookup_insert_eq, (no_entry_no_users _ E). done.
  - rewrite decide_False by done. destruct (i_bound _ _ Hinv _ _ _ Hb) as (B1 & B2 & B3). split; [now apply share_keeps|done].
Qed.

Lemma share_owned k o : fds w' !! k = Some o -> owns w' o k.
Proof.
  intros Ho. assert (H : fds w !! k = Some o \/ (o = o_bound (key x) /\ k = fd)).
  { revert Ho. cbn. destruct Hcase as [[_ ->]|(_ & _ & _ & ->)]; [auto|]. intros [[<- <-]|[? ?]]%lookup_insert_Some; auto. }
  destruct H as [H|[-> ->]]; [|cbn; exists (ref + 1); apply lookup_insert_eq].
  pose proof (i_owned _ _ Hinv k o H) as H8. destruct o as [i|j|j|j]; cbn [owns] in *.
  - exact H8.
  - destruct H8 as (z & b & Hz & Hb & Hf). destruct (decide (j = c)) as [->|Hne]; [|exists z, b; split; [cbn; now rewrite lookup_insert_ne|done]].
    rewrite Hx in Hz. injection Hz as <-. exists y, b. split; [apply lookup_insert_eq|done].
  - destruct H8 as (z & Hz & Hb & Hf). destruct (decide (j = c)) as [->|Hne]; [|exists z; split; [cbn; now rewrite lookup_insert_ne|done]].
    rewrite Hx in Hz. injection Hz as <-. exists y. split; [apply lookup_insert_eq|done].
  - destruct H8 as (ref0 & Hb). cbn. destruct (decide (j = key x)) as [->|Hne]; [|rewrite lookup_insert_ne by done; eauto].
    rewrite lookup_insert_eq. destruct Hcase as [[E _]|(E & _)]; [|congruence]. rewrite E in Hb. injection Hb as <- <-. eauto.
Qed.

Lemma inv_share : inv (Some c) w'.
Proof.
  pose proof Hinv as [H1 H2 H3 H4 H5 H6 H7 H8 H9]. split; auto using share_base, share_bound, share_owned.
  - intros i z Hz. destruct (H4 i z Hz) as [I1 I2 I3 I4 I5]. split; try done.
    + intros k Hk. destruct (I2 k Hk) as (z0 & E & Ei). destruct (decide (k = c)) as [->|Hne]; [|exists z0; split; [cbn; now rewrite lookup_insert_ne|done]].
      exists y. split; [apply lookup_insert_eq|]. rewrite Hx in E. now injection E as <-.
    + intros Hi. destruct (I3 Hi). split; [done|]. now apply share_keeps.
  - cbn. intros k z [[<- <-]|[Hk Hz]]%lookup_insert_Some Hne; [done|].
    destruct (H6 k z Hz) as [? ? ? ? ? ? ? ?]; [destruct Hr as [-> | ->]; congruence|]. now split.
  - cbn. destruct Hcase as [[_ ->]|(_ & _ & _ & ->)]; [done|]. now rewrite lookup_insert_ne.
Qed.

End Share.

(** ** A new client *)

Lemma inv_new w i y :
  inv None w -> is_Some (insts w !! i) -> linked y = false -> instance y = i -> relay y = None -> ev_init (udprelay y) = false ->
  sender_fd y = -1 -> inv (Some (next w)) (with_next S (with_clients (insert (next w) y) w)).
Proof.
  intros [H1 H2 H3 H4 H5 H6 H7 H8 H9] [x0 Hi] Y1 Y2 Y3 Y4 Y5.
  assert (Hnew : udp_clients w !! next w = None).
  { destruct (udp_clients w !! next w) as [z|] eqn:E; [|done]. pose proof (cb_next _ _ _ (H5 _ _ E)). lia. }
  assert (Hold : forall k z, udp_clients w !! k = Some z -> <[next w := y]> (udp_clients w) !! k = Some z)
    by (intros k z Hz; rewrite lookup_insert_ne; [done|congruence]).
  split; auto; cbn.
  - intros j x Hx. destruct (H4 j x Hx) as [I1 I2 I3 I4 I5]. split; auto. intros c Hc. destruct (I2 c Hc) as (z & Hz & Ez). exists z. split; [now apply Hold|done].
  - intros c z [[<- <-]|[Hk Hz]]%lookup_insert_Some.
    + split; cbn; try congruence; [|lia]. exists x0. split; [now rewrite Y2|]. split; [congruence|]. intros Hc.
      destruct (io_each _ _ _ (H4 i x0 Hi) _ Hc) as (z & Hz & _). congruence.
    + destruct (H5 c z Hz) as [B1 B2 B3 B4 B5]. split; auto. cbn. lia.
  - intros c z [[<- <-]|[Hk Hz]]%lookup_insert_Some Hr; [done|]. destruct (H6 c z Hz); [done|]. now split.
  - intros k ref fd Hb. destruct (H7 k ref fd Hb) as (B1 & B2 & B3). split; [done|]. split; [|done]. rewrite users_update, delete_id by done.
    now rewrite decide_False by (intros [? _]; done).
  - intros fd o Ho. specialize (H8 fd o Ho). destruct o as [j|k|k|k]; cbn [owns] in *; [exact H8| | |exact H8].
    + destruct H8 as (z & b & Hz & Hb). exists z, b. split; [now apply Hold|done].
    + destruct H8 as (z & Hz & Hb). exists z. split; [now apply Hold|done].
Qed.

Lemma inv_link w c x i :
  inv (Some c) w -> udp_clients w !! c = Some x -> linked x = false -> insts w !! instance x = Some i ->
  inv (Some c) (with_clients (insert c (c_set_linked true x)) (with_insts (insert (instance x) (i_set_clients (cons c) i)) w)).
Proof.
  intros [H1 H2 H3 H4 H5 H6 H7 H8 H9] Hx Hl Hi.
  assert (Hinst : forall j z, insts w !! j = Some z ->
    exists z', <[instance x := i_set_clients (cons c) i]> (insts w) !! j = Some z' /\ config z' = config z /\ listener z' = listener z /\
      clients z' = (if decide (j = instance x) then c :: clients z else clients z)).
  { intros j z Hz. case_decide as E; [subst j; rewrite lookup_insert_eq|rewrite lookup_insert_ne by done]; [|eauto].
    rewrite Hi in Hz. injection Hz as <-. eauto. }
  assert (Hold : forall k z, udp_clients w !! k = Some z -> exists z', <[c := c_set_linked true x]> (udp_clients w) !! k = Some z' /\
    instance z' = instance z /\ relay z' = relay z /\ udprelay z' = udprelay z).
  { intros k z Hz. destruct (decide (k = c)) as [->|Hne]; [rewrite lookup_insert_eq|rewrite lookup_insert_ne by done; eauto].
    rewrite Hx in Hz. injection Hz as <-. eauto. }
  split; auto; cbn.
  - intros j. rewrite H3. rewrite lookup_insert_is_Some'. naive_solver.
  - intros j z [[<- <-]|[Hj Hz]]%lookup_insert_Some.
    + destruct (H4 _ _ Hi) as [I1 I2 I3 I4 I5]. split; auto; cbn.
      * constructor; [|done]. intros Hc. destruct (H5 c x Hx) as [(i' & Ei' & Hlk) _ _ _ _]. rewrite Hi in Ei'. injection Ei' as <-.
        apply Hlk in Hc. congruence.
      * intros k [->|Hk]%elem_of_cons; [exists (c_set_linked true x); split; [apply lookup_insert_eq|done]|].
        destruct (I2 k Hk) as (z & Hz & Ez). destruct (Hold k z Hz) as (z' & Hz' & E & _). exists z'. split; [done|congruence].
    + destruct (H4 j z Hz) as [I1 I2 I3 I4 I5]. split; auto. intros k Hk. destruct (I2 k Hk) as (y & Hy & Ey).
      destruct (Hold k y Hy) as (z' & Hz' & E & _). exists z'. split; [done|congruence].
  - intros k z [[<- <-]|[Hk Hz]]%lookup_insert_Some.
    + destruct (H5 c x Hx) as [B1 B2 B3 B4 B5]. split; auto. cbn. exists (i_set_clients (cons c) i). rewrite lookup_insert_eq. split; [done|].
      cbn. split; [left|done].
    + destruct (H5 k z Hz) as [(j & Ej & Hlk) B2 B3 B4 B5]. split; auto. destruct (Hinst _ _ Ej) as (j' & Ej' & _ & _ & Ek). exists j'. split; [done|].
      rewrite Ek, Hlk. case_decide; [|done]. rewrite elem_of_cons. naive_solver.
  - intros k z [[<- <-]|[Hk Hz]]%lookup_insert_Some Hr; [done|]. destruct (H6 k z Hz Hr) as [? ? ? ? Hq ? ? ?]. split; auto. cbn.
    intros j [[E <-]|[Hj Hz']]%lookup_insert_Some; [|now apply Hq]. cbn. apply Hq. congruence.
  - intros k ref fd Hb. destruct (H7 k ref fd Hb) as (B1 & B2 & B3). split; [done|]. split; [|done]. rewrite users_update, B2, (users_delete _ _ _ Hx). done.
  - intros fd o Ho. specialize (H8 fd o Ho). destruct o as [j|k|k|k]; cbn [owns] in *; [| | |exact H8].
    + destruct H8 as (z & Hz & Hb). destruct (Hinst j z Hz) as (z' & Hz' & _ & El & _). exists z'. split; [done|]. now rewrite El.
    + destruct H8 as (z & b & Hz & Hb). destruct (Hold k z Hz) as (z' & Hz' & _ & Er & _). exists z', b. split; [done|]. now rewrite Er.
    + destruct H8 as (z & Hz & Hb). destruct (Hold k z Hz) as (z' & Hz' & _ & _ & Eu). exists z'. split; [done|]. now rewrite Eu.
Qed.

(** The client of the event is complete again. *)
Lemma inv_complete c x w : inv (Some c) w -> udp_clients w !! c = Some x -> client_full w x -> inv None w.
Proof.
  intros [] Hx Hf. split; auto. intros k z Hz _. destruct (decide (k = c)) as [->|Hne]; [congruence|]. apply (i_full0 k z Hz). congruence.
Qed.
