(* ===== verification/RedUdpStep.v ===== *)
(** * The handlers of the UDP relay of redsocks keep its invariant *)

From S2P Require Import Prelude Effect RedWorld RedCore RedLogic Socks5 RedUdp RedUdpInv.

Open Scope Z_scope.
Close Scope red_scope.

Import RedUdp Socks5.

(** ** Packets *)

Lemma taken_by_app c l l' : taken_by c (l ++ l') = taken_by c l ++ taken_by c l'.
Proof. apply omap_app. Qed.

Lemma forwarded_by_app c l l' : forwarded_by c (l ++ l') = forwarded_by c l ++ forwarded_by c l'.
Proof. apply omap_app. Qed.

Lemma taken_by_tag c tk k : taken_by k (map (fun d => (c, d)) tk) = if decide (c = k) then tk else [].
Proof.
  unfold taken_by. induction tk as [|d tk IH]; cbn; [now case_decide|]. case_decide; cbn in *; [now rewrite IH|done].
Qed.

Lemma forwarded_by_tag c fw k :
  forwarded_by k (map (fun p : sockaddr_in * list Z => (c, p.1, p.2)) fw) = if decide (c = k) then fw else [].
Proof.
  unfold forwarded_by. induction fw as [|[a d] fw IH]; cbn; [now case_decide|]. case_decide; cbn in *; [now rewrite IH|done].
Qed.

(** One client takes and forwards packets. *)
Lemma flow_update w w' c y tk fw :
  flow w -> (c < next w)%nat -> next w' = next w -> insts w' = insts w -> udp_clients w' = <[c := y]> (udp_clients w) ->
  taken w' = taken w ++ map (fun d => (c, d)) tk ->
  forwarded w' = forwarded w ++ map (fun p : sockaddr_in * list Z => (c, p.1, p.2)) fw ->
  client_flow w' c y -> flow w'.
Proof.
  intros [F1 F2 F3] Hc En Ei Ec Et Ef Hy. split.
  - intros k z Hz. rewrite Ec in Hz. apply lookup_insert_Some in Hz as [[<- <-]|[Hk Hz]]; [done|].
    destruct (F1 k z Hz) as (sent & E1 & E2 & E3). exists sent. rewrite Et, Ef, Ei, taken_by_app, forwarded_by_app, taken_by_tag, forwarded_by_tag.
    rewrite !decide_False by done. now rewrite !app_nil_r.
  - intros k d. rewrite Et, En. intros [H|H]%elem_of_app; [eauto|]. apply list_elem_of_fmap in H as (d' & [= -> ->] & _). done.
  - intros k a d. rewrite Ef, En. intros [H|H]%elem_of_app; [eauto|]. apply list_elem_of_fmap in H as (d' & [= -> -> ->] & _). done.
Qed.

(** What the packets of a client depend on. *)
Record same_flow (x y : redudp_client) : Prop := SameFlow {
  sf_queue : queue y = queue x;
  sf_addr : ev_init (udprelay x) = true -> udprelayaddr y = udprelayaddr x;
  sf_init : ev_init (udprelay y) = ev_init (udprelay x);
}.

Lemma client_flow_same w w' c x y :
  insts w' = insts w -> taken w' = taken w -> forwarded w' = forwarded w -> same_base x y -> same_flow x y ->
  client_flow w c x -> client_flow w' c y.
Proof.
  intros Ei Et Ef [_ B1 B2 _ _ _] [Q1 Q2 Q3] (sent & E1 & E2 & E3). exists sent. unfold dest_of in *. rewrite Et, Ef, Ei, Q1, Q3, B1, B2.
  split; [done|]. split; [|done]. destruct (ev_init (udprelay x)); [now rewrite Q2|]. rewrite E2. now rewrite E3.
Qed.

(** A client changes in a way the others and the packets do not depend on. *)
Lemma ok_update r w c x y r' :
  ok r w -> r = None \/ r = Some c -> udp_clients w !! c = Some x -> same_base x y -> same_flow x y -> w_evscript r' = [] ->
  ok (Some c) (with_red r' (with_clients (insert c y) w)).
Proof.
  intros [Hi Hf] Hr Hx Hs Hq He. split; [apply inv_red; [|done]; now apply (inv_update r w c x y)|].
  destruct Hf as [F1 F2 F3]. apply (flow_update w _ c y [] []); cbn; rewrite ?app_nil_r; try done.
  - exact (cb_next _ _ _ (i_base _ _ Hi c x Hx)).
  - apply (client_flow_same w _ c x y); auto.
Qed.

Lemma ok_complete c x w : ok (Some c) w -> udp_clients w !! c = Some x -> client_full w x -> ok None w.
Proof. intros [H1 H2] Hx Hf. split; [now apply (inv_complete c x)|done]. Qed.

Lemma ok_full c x w : ok None w -> udp_clients w !! c = Some x -> client_full w x.
Proof. intros [H _] Hx. now apply (i_full _ _ H c x Hx). Qed.

Lemma full_insts w w' x : insts w' = insts w -> client_full w x -> client_full w' x.
Proof. intros E []. split; auto. intros i Hi. rewrite E in Hi. auto. Qed.

Section Steps.
Context `{BC : BaseConfig}.

(** Dropping ends well. *)
Lemma drop_ok r w c x : ok r w -> udp_clients w !! c = Some x -> r = None \/ r = Some c -> runs (redudp_drop_client c) (fun _ => ok None) w.
Proof.
  intros H Hx Hr. apply (eff_drop r c x); [apply H|done|]. intros r' Hr'. apply ok_red; [|done]. now apply (ok_after_drop r).
Qed.

Lemma eff_bump r w c x (Q : unit -> udp_world -> Prop) :
  inv r w -> udp_clients w !! c = Some x ->
  (forall r' sec, w_evscript r' = [] -> Q tt (with_red r' (with_clients (insert c (c_set_timeout (event_add_ok 0 (timeout x)) sec x)) w))) ->
  runs (redudp_bump_timeout c) Q w.
Proof.
  intros H Hx HQ. destruct (cb_inst _ _ _ (i_base _ _ H c x Hx)) as (i & Ei & _). unfold redudp_bump_timeout. step_eff.
  eapply eff_client; [exact Hx|]. step_eff. eapply eff_inst; [exact Ei|]. step_eff. apply eff_sys_ev; [apply H|]. intros r' Hr'.
  cbn [Z.eqb negb]. eapply eff_set_client; [exact Hx|]. specialize (HQ r' (udp_timeout (config i)) Hr'). now destruct w.
Qed.

Lemma eff_forward w c x i buf (Q : unit -> udp_world -> Prop) :
  w_evscript (red w) = [] -> insts w !! instance x = Some i -> udp_clients w !! c = Some x ->
  (forall r', w_evscript r' = [] -> Q tt (with_red r' (with_forwarded (c, udprelayaddr x, preamble (dest_of (insts w) x) ++ buf) w))) ->
  runs (redudp_forward_pkt c buf) Q w.
Proof.
  intros He Ei Hx HQ.
  assert (Ed : (if do_tproxy i then destaddr x else cfg_destaddr (config i)) = dest_of (insts w) x) by (unfold dest_of; now rewrite Ei).
  unfold redudp_forward_pkt, redudp_fill_preamble, get_destaddr. step_eff. step_eff. step_eff. eapply eff_client; [exact Hx|].
  step_eff. eapply eff_inst; [exact Ei|]. step_eff. step_eff. step_eff. eapply eff_client; [exact Hx|]. step_eff. step_eff.
  step_eff. apply eff_sys; [done|]. intros a r' Hr'. step_eff. rewrite Ed. specialize (HQ r' Hr'). now destruct w.
Qed.

(** A packet is queued, or refused. *)
Lemma eff_enqueue r w c x buf (Q : Z -> udp_world -> Prop) :
  inv r w -> udp_clients w !! c = Some x ->
  (forall r', w_evscript r' = [] -> Q (-1) (with_red r' w)) ->
  (forall r' i, w_evscript r' = [] -> insts w !! instance x = Some i -> queue_len x < max_pktqueue (config i) ->
     Q 0 (with_red r' (with_taken (c, buf) (with_clients (insert c (c_set_queue (u32 (queue_len x + 1)) (queue x ++ [buf]) x)) w)))) ->
  runs (redudp_enqeue_pkt c buf) Q w.
Proof.
  intros H Hx H1 H2. destruct (cb_inst _ _ _ (i_base _ _ H c x Hx)) as (i & Ei & _). unfold redudp_enqeue_pkt. step_eff.
  eapply eff_client; [exact Hx|]. step_eff. eapply eff_inst; [exact Ei|].
  destruct (queue_len x >=? max_pktqueue (config i)) eqn:Eq.
  - apply eff_ret. specialize (H1 (red w) (i_ev _ _ H)). now destruct w.
  - step_eff. apply eff_sys; [apply H|]. intros a r' Hr'. destruct (negb (a =? 0)); [now apply eff_ret, H1|].
    step_eff. eapply eff_set_client; [exact Hx|]. step_eff. step_eff. step_eff.
    specialize (H2 r' i Hr' Ei ltac:(lia)). now destruct w.
Qed.

(** ** The queue *)

Definition flushed (c : nat) (x : redudp_client) (q : list (list Z)) (w : udp_world) : list (nat * sockaddr_in * list Z) :=
  forwarded w ++ map (fun d => (c, udprelayaddr x, preamble (dest_of (insts w) x) ++ d)) q.

Lemma eff_flush_loop c i (Q : unit -> udp_world -> Prop) : forall q w x,
  w_evscript (red w) = [] -> insts w !! instance x = Some i -> udp_clients w !! c = Some x -> queue x = q ->
  (forall r', w_evscript r' = [] ->
     Q tt (UWorld r' (fds w) (instances w) (insts w) (<[c := c_set_queue (queue_len x) [] x]> (udp_clients w)) (next w) (root_bound_udp4 w)
             (taken w) (flushed c x q w) (returned w))) ->
  runs (flush_loop (length q) c) Q w.
Proof.
  induction q as [|d q IH]; intros w x He Ei Hx Eq HQ; cbn [length flush_loop].
  - apply eff_ret. specialize (HQ (red w) He). unfold flushed in HQ. cbn in HQ. rewrite app_nil_r, <- Eq in HQ.
    replace (c_set_queue (queue_len x) (queue x) x) with x in HQ by now destruct x. rewrite insert_id in HQ by done. now destruct w.
  - step_eff. eapply eff_client; [exact Hx|]. rewrite Eq. step_eff. eapply eff_forward; [done|exact Ei|exact Hx|]. intros r1 Hr1.
    step_eff. eapply eff_set_client; [exact Hx|]. destruct w as [r0 F L I C n B T Fo Re]. udp_tidy.
    apply (IH _ (c_set_queue (queue_len x) q x)); try done; [apply lookup_insert_eq|]. intros r2 Hr2. udp_tidy. rewrite insert_insert_eq.
    specialize (HQ r2 Hr2). unfold flushed in *. udp_tidy. cbn [map] in HQ. rewrite <- app_assoc. exact HQ.
Qed.

Lemma eff_flush c x i (Q : unit -> udp_world -> Prop) w :
  w_evscript (red w) = [] -> insts w !! instance x = Some i -> udp_clients w !! c = Some x ->
  (forall r', w_evscript r' = [] ->
     Q tt (UWorld r' (fds w) (instances w) (insts w) (<[c := c_set_queue 0 [] x]> (udp_clients w)) (next w) (root_bound_udp4 w)
             (taken w) (flushed c x (queue x) w) (returned w))) ->
  runs (redudp_flush_queue c) Q w.
Proof.
  intros He Ei Hx HQ. unfold redudp_flush_queue. step_eff. eapply eff_client; [exact Hx|]. step_eff.
  apply (eff_flush_loop c i _ (queue x) w x); try done. intros r' Hr'. step_eff. eapply eff_set_client; [apply lookup_insert_eq|].
  step_eff. eapply eff_client; [apply lookup_insert_eq|]. apply eff_assert; [now apply bool_decide_true|].
  specialize (HQ r' Hr'). udp_tidy. now rewrite insert_insert_eq.
Qed.

(** ** The handshake *)

(** A client that is complete, except for its socket. *)
Lemma associate_ok r w c x addr :
  ok r w -> r = None \/ r = Some c -> udp_clients w !! c = Some x -> client_full w x -> ev_init (udprelay x) = false -> readcb x = cb_assoc_reply ->
  runs (associate c addr) (fun _ => ok None) w.
Proof.
  intros Hok Hr Hx Hfull Hu Hcb. destruct (cb_inst _ _ _ (i_base _ _ (proj1 Hok) c x Hx)) as (i & Ei & _).
  unfold associate. step_eff. eapply eff_set_client; [exact Hx|]. set (y := c_set_udprelayaddr addr x).
  assert (Hok1 : forall r', w_evscript r' = [] -> ok (Some c) (with_red r' (with_clients (insert c y) w))).
  { intros r' Hr'. apply (ok_update r w c x y r'); try done. split; try done. unfold y. cbn. congruence. }
  assert (Hdrop : forall r', w_evscript r' = [] -> runs (redudp_drop_client c) (fun _ => ok None) (with_red r' (with_clients (insert c y) w))).
  { intros r' Hr'. apply (drop_ok (Some c) _ c y); [now apply Hok1|apply lookup_insert_eq|auto]. }
  step_eff. apply eff_socket; [apply Hok|intros r' Hr'; now apply Hdrop|]. intros r1 fd Hr1 Hfd Hfresh.
  rewrite (proj2 (Z.eqb_neq _ _) Hfd). step_eff. apply eff_sys; [done|]. intros e r2 Hr2. destruct (negb (e =? 0)).
  - step_eff. eapply eff_close; [done|apply lookup_insert_eq|]. intros r3 Hr3. specialize (Hdrop r3 Hr3). destruct w. udp_tidy.
    now rewrite delete_insert_id.
  - step_eff. eapply eff_client; [apply lookup_insert_eq|]. step_eff.
    apply eff_assert; [unfold y; cbn; rewrite (cf_udprelay _ _ Hfull), Hu; done|].
    step_eff. eapply eff_set_client; [apply lookup_insert_eq|]. step_eff. apply eff_sys_ev; [done|]. intros r3 Hr3.
    step_eff. eapply eff_set_client; [apply lookup_insert_eq|]. cbn [Z.eqb negb event_add_ok with_ev_added ev_init ev_fd ev_active].
    set (z := c_set_udprelay (Event true fd true false) (c_set_udprelay (Event true fd false false) y)).
    eapply (eff_flush c z i); [done| |apply lookup_insert_eq|]; [exact Ei|]. intros r4 Hr4. destruct w as [r0 F L I C n B T Fo Re]. udp_tidy.
    rewrite !insert_insert_eq. 
    assert (Hinv : inv (Some c) (with_fds (insert fd (o_udprelay c)) (with_clients (insert c (c_set_queue 0 [] z)) (UWorld r4 F L I C n B T Fo Re)))).
    { apply (inv_gain r _ c x _ fd); try done; [exact (inv_red _ _ r4 (proj1 Hok) Hr4)|]. split; try done. right. unfold udprelay_fd. now rewrite Hu. }
    apply (ok_complete c (c_set_queue 0 [] z)); [split; [exact (inv_log _ _ _ _ _ _ _ _ _ _ _ _ _ _ _ Hinv Hr4)|]|apply lookup_insert_eq|].
    + destruct Hok as [Hi [F1 F2 F3]]. destruct (F1 c x Hx) as (sent & E1 & E2 & E3). rewrite (E3 Hu) in *.
      apply (flow_update (UWorld r0 F L I C n B T Fo Re) _ c (c_set_queue 0 [] z) []
        (map (fun d => (udprelayaddr z, preamble (dest_of I z) ++ d)) (queue z))); try done.
      * exact (cb_next _ _ _ (i_base _ _ Hi c x Hx)).
      * cbn. now rewrite app_nil_r.
      * cbn. unfold flushed. cbn. now rewrite map_map.
      * exists (queue x). unfold flushed. cbn [taken forwarded insts] in *. change (queue (c_set_queue 0 [] z)) with (@nil (list Z)).
        change (queue z) with (queue x). rewrite app_nil_r. split; [done|]. split; [|done]. rewrite forwarded_by_app, E2. cbn [map app]. replace (map _ (queue x)) with
          (map (fun p : sockaddr_in * list Z => (c, p.1, p.2)) (map (fun d => (udprelayaddr z, preamble (dest_of I z) ++ d)) (queue x))) by now rewrite map_map.
        now rewrite forwarded_by_tag, decide_True.
    + destruct Hfull. split; try done. cbn. intros j Hj. rewrite Ei in Hj. injection Hj as <-.
      apply (io_queue _ _ _ (i_inst _ _ (proj1 Hok) _ _ Ei)).
Qed.

Lemma eff_set_relay line c x b f (Q : unit -> udp_world -> Prop) w :
  udp_clients w !! c = Some x -> relay x = Some b -> Q tt (with_clients (insert c (c_set_relay (Some (f b)) x)) w) -> runs (set_relay line c f) Q w.
Proof.
  intros Hx Hb HQ. unfold set_relay. step_eff. eapply eff_client; [exact Hx|]. rewrite Hb. eapply eff_set_client; [exact Hx|exact HQ].
Qed.

Lemma eff_remove line c x b n (Q : list Z -> udp_world -> Prop) w :
  udp_clients w !! c = Some x -> relay x = Some b ->
  Q (take n (be_input b)) (with_clients (insert c (c_set_relay (Some (with_be_input (drop n) b)) x)) w) -> runs (evbuffer_remove line c n) Q w.
Proof.
  intros Hx Hb HQ. unfold evbuffer_remove. step_eff. eapply eff_client; [exact Hx|]. rewrite Hb. step_eff.
  eapply eff_set_relay; [exact Hx|exact Hb|]. now step_eff.
Qed.

(** A message maker that changes nothing. *)
Definition maker (m : eff udp_world (option (list Z))) (w : udp_world) : Prop :=
  forall Q : option (list Z) -> udp_world -> Prop, (forall r o, w_evscript r = [] -> Q o (with_red r w)) -> runs m Q w.

Lemma maker_lift data w : w_evscript (red w) = [] -> maker (lift (mkevbuffer data)) w.
Proof. intros He Q HQ. apply eff_mkevbuffer; [done|]. intros r Hr. split; now apply HQ. Qed.

Lemma eff_write_helper c x b mk low high (Q : Z -> udp_world -> Prop) w :
  udp_clients w !! c = Some x -> relay x = Some b -> maker mk w ->
  (forall r, w_evscript r = [] -> Q (-1) (with_red r w)) ->
  (forall r b', w_evscript r = [] -> be_fd b' = be_fd b -> Q 0 (with_red r (with_clients (insert c (c_set_relay (Some b') x)) w))) ->
  runs (redsocks_write_helper_ex_plain c mk low high) Q w.
Proof.
  intros Hx Hb Hmk H1 H2. unfold redsocks_write_helper_ex_plain. step_eff. apply Hmk. intros r1 [data|] Hr1; [|now apply eff_ret, H1].
  step_eff. apply eff_sys; [done|]. intros e r2 Hr2. destruct (e <? 0); [now apply eff_ret, H1|].
  step_eff. eapply eff_set_relay; [exact Hx|exact Hb|]. step_eff. eapply eff_set_relay; [apply lookup_insert_eq|reflexivity|].
  step_eff. eapply eff_set_relay; [apply lookup_insert_eq|reflexivity|]. step_eff. apply eff_sys_ev; [done|]. intros r3 Hr3. step_eff.
  destruct w as [r0 F L I C n B T Fo Re]. udp_tidy. rewrite !insert_insert_eq. now apply H2.
Qed.

(** A change of the callbacks and of the connection to the server. *)
Lemma ok_relay r w c x b b' cb cb' r' :
  ok r w -> r = None \/ r = Some c -> udp_clients w !! c = Some x -> client_full w x -> relay x = Some b -> be_fd b' = be_fd b ->
  (ev_init (udprelay x) = true -> cb = readcb x) -> cbs_ok cb cb' = true -> w_evscript r' = [] ->
  ok None (with_red r' (with_clients (insert c (c_set_cbs cb cb' (c_set_relay (Some b') x))) w)).
Proof.
  intros Hok Hr Hx Hfull Hb Hfd Hcb Hcb' He. set (y := c_set_cbs cb cb' (c_set_relay (Some b') x)).
  apply (ok_complete c y); [|apply lookup_insert_eq|].
  - apply (ok_update r w c x y); try done. split; try done. unfold relay_fd. cbn. rewrite Hb. cbn. now rewrite Hfd.
  - destruct Hfull as [F1 F2 F3 F4 F5 F6 F7 F8]. split; try done. cbn. intros Hu. destruct (F7 Hu) as [? ?]. split; [done|]. now rewrite Hcb.
Qed.

Lemma client_relay w x : client_full w x -> exists b, relay x = Some b.
Proof. intros Hf. destruct (relay x) as [b|] eqn:E; [eauto|]. now destruct (cf_relay _ _ Hf). Qed.

Lemma udp_request_ok r w c x mk size cb :
  ok r w -> r = None \/ r = Some c -> udp_clients w !! c = Some x -> client_full w x -> ev_init (udprelay x) = false -> maker mk w ->
  cbs_ok cb (writecb x) = true -> runs (request c mk size cb) (fun _ => ok None) w.
Proof.
  intros Hok Hr Hx Hfull Hu Hmk Hcb. destruct (client_relay w x Hfull) as [b Hb]. unfold request. step_eff.
  eapply (eff_write_helper c x b); [done|done|done| |].
  - intros r' Hr'. cbn [Z.eqb negb]. apply (drop_ok r _ c x); [now apply ok_red|done|done].
  - intros r' b' Hr' Hfd. cbn [Z.eqb negb]. eapply eff_set_client; [apply lookup_insert_eq|].
    destruct w as [r0 F L I C n B T Fo Re]. udp_tidy. rewrite insert_insert_eq.
    apply (ok_relay r (UWorld r0 F L I C n B T Fo Re) c x b b' cb (writecb x) r'); try done. congruence.
Qed.

(** After [evbuffer_remove] the client is as complete as before. *)
Lemma removed_ok w c x b n : ok None w -> udp_clients w !! c = Some x -> relay x = Some b ->
  let y := c_set_relay (Some (with_be_input (drop n) b)) x in
  let w' := with_clients (insert c y) w in ok None w' /\ udp_clients w' !! c = Some y /\ client_full w' y.
Proof.
  intros Hok Hx Hb y w'. assert (Hfull : client_full w x) by now apply (ok_full c). 
  assert (Hok' : ok None w').
  { pose proof (ok_relay None w c x b (with_be_input (drop n) b) (readcb x) (writecb x) (red w) Hok (or_introl eq_refl) Hx Hfull Hb eq_refl
      (fun _ => eq_refl) (cf_cbs _ _ Hfull) (i_ev _ _ (proj1 Hok))) as H. subst w' y. destruct w, x. exact H. }
  split; [done|]. split; [apply lookup_insert_eq|]. apply (ok_full c _ _ Hok'). apply lookup_insert_eq.
Qed.

Lemma read_assoc_reply_ok w c x :
  ok None w -> udp_clients w !! c = Some x -> ev_init (udprelay x) = false -> readcb x = cb_assoc_reply ->
  runs (redudp_read_assoc_reply c) (fun _ => ok None) w.
Proof.
  intros Hok Hx Hu Hcb. destruct (client_relay w x (ok_full c x w Hok Hx)) as [b Hb].
  unfold redudp_read_assoc_reply. step_eff. eapply eff_remove; [exact Hx|exact Hb|].
  destruct (removed_ok w c x b 10 Hok Hx Hb) as (Hok' & Hx' & Hfull').
  assert (Hdrop : forall P : unit -> udp_world -> Prop, P = (fun _ => ok None) ->
    runs (redudp_drop_client c) P (with_clients (insert c (c_set_relay (Some (with_be_input (drop 10) b)) x)) w)).
  { intros P ->. eapply (drop_ok None); eauto. }
  destruct (take 10 (be_input b)) as [|v [|s [|z [|t [|a1 [|a2 [|a3 [|a4 [|p1 [|p2 [|? ?]]]]]]]]]]]; try now apply Hdrop.
  destruct (negb (v =? socks5_ver)); [now apply Hdrop|]. destruct (negb (s =? socks5_status_succeeded)); [now apply Hdrop|].
  destruct (negb (t =? socks5_addrtype_ipv4)); [now apply Hdrop|]. eapply (associate_ok None); eauto.
Qed.

Lemma read_auth_reply_ok w c x :
  ok None w -> udp_clients w !! c = Some x -> ev_init (udprelay x) = false -> readcb x <> cb_none ->
  runs (redudp_read_auth_reply c) (fun _ => ok None) w.
Proof.
  intros Hok Hx Hu Hcb. assert (Hw : writecb x = cb_none) by (pose proof (cf_cbs _ _ (ok_full c x w Hok Hx)); now destruct (readcb x), (writecb x)).
  destruct (client_relay w x (ok_full c x w Hok Hx)) as [b Hb].
  unfold redudp_read_auth_reply. step_eff. eapply eff_remove; [exact Hx|exact Hb|].
  destruct (removed_ok w c x b 2 Hok Hx Hb) as (Hok' & Hx' & Hfull').
  assert (Hdrop : runs (redudp_drop_client c) (fun _ => ok None) (with_clients (insert c (c_set_relay (Some (with_be_input (drop 2) b)) x)) w))
    by (eapply (drop_ok None); eauto).
  destruct (take 2 (be_input b)) as [|v [|s [|? ?]]]; try done. destruct (_ || _); [done|].
  eapply (udp_request_ok None); eauto; [apply maker_lift, Hok|]. cbn. now rewrite Hw.
Qed.

Lemma known_password v m d : socks5_is_known_auth_method v m d = true -> (m =? socks5_auth_none) = false -> d <> 0.
Proof.
  unfold socks5_is_known_auth_method. intros H Hm ->. rewrite Hm in H. destruct (negb (v =? socks5_ver)), (m =? socks5_auth_invalid); try done.
  now rewrite andb_false_r in H.
Qed.

Lemma read_auth_methods_ok w c x :
  ok None w -> udp_clients w !! c = Some x -> ev_init (udprelay x) = false -> readcb x <> cb_none ->
  runs (redudp_read_auth_methods c) (fun _ => ok None) w.
Proof.
  intros Hok Hx Hu Hcb. assert (Hw : writecb x = cb_none) by (pose proof (cf_cbs _ _ (ok_full c x w Hok Hx)); now destruct (readcb x), (writecb x)).
  destruct (client_relay w x (ok_full c x w Hok Hx)) as [b Hb].
  destruct (cb_inst _ _ _ (i_base _ _ (proj1 Hok) c x Hx)) as (i & Ei & _).
  unfold redudp_read_auth_methods. step_eff. eapply eff_client; [exact Hx|]. step_eff. eapply eff_inst; [exact Ei|].
  step_eff. eapply eff_remove; [exact Hx|exact Hb|].
  destruct (removed_ok w c x b 2 Hok Hx Hb) as (Hok' & Hx' & Hfull').
  assert (Hdrop : runs (redudp_drop_client c) (fun _ => ok None) (with_clients (insert c (c_set_relay (Some (with_be_input (drop 2) b)) x)) w))
    by (eapply (drop_ok None); eauto).
  destruct (take 2 (be_input b)) as [|v [|m [|? ?]]]; try done.
  destruct (socks5_is_known_auth_method v m (do_password i)) eqn:Ek; [|done]. cbn [negb].
  destruct (m =? socks5_auth_none) eqn:En; [eapply (udp_request_ok None); eauto; [apply maker_lift, Hok|cbn; now rewrite Hw]|].
  destruct (m =? socks5_auth_password) eqn:Em; [|now apply eff_ret].
  eapply (udp_request_ok None); eauto; [|cbn; now rewrite Hw].
  intros Q HQ. unfold socks5_mkpassword_plain_wrapper. step_eff. eapply eff_inst; [exact Ei|].
  apply known_password in Ek; [|done]. unfold do_password, socks5_is_valid_cred in Ek.
  destruct (login (config i)) as [l|], (password (config i)) as [p|]; [|done..]. apply maker_lift; [apply Hok|done].
Qed.

Lemma relay_connected_ok w c x :
  ok None w -> udp_clients w !! c = Some x -> writecb x = cb_connected -> runs (redudp_relay_connected c) (fun _ => ok None) w.
Proof.
  intros Hok Hx Hcb. assert (Hfull : client_full w x) by now apply (ok_full c). destruct (client_relay w x Hfull) as [b Hb].
  assert (Hnone : readcb x = cb_none) by (pose proof (cf_cbs _ _ Hfull); rewrite Hcb in *; now destruct (readcb x)).
  assert (Hu : ev_init (udprelay x) = false) by (destruct (ev_init (udprelay x)) eqn:E; [destruct (cf_started _ _ Hfull E); congruence|done]).
  destruct (cb_inst _ _ _ (i_base _ _ (proj1 Hok) c x Hx)) as (i & Ei & _).
  unfold redudp_relay_connected. step_eff. eapply eff_client; [exact Hx|]. step_eff. eapply eff_inst; [exact Ei|]. step_eff.
  apply eff_connected_ok; [apply Hok|]. intros good r1 Hr1. assert (Hok1 : ok None (with_red r1 w)) by now apply ok_red.
  destruct good; cbn [negb]; [|now eapply (drop_ok None); eauto]. step_eff.
  apply (eff_write_helper c x b _ _ _ _ (with_red r1 w)); [done|done| | |].
  - intros Q HQ. unfold socks5_mkmethods_plain_wrapper. step_eff. apply eff_assert; [unfold do_password; now destruct (socks5_is_valid_cred _ _)|].
    now apply maker_lift.
  - intros r2 Hr2. cbn [Z.eqb negb]. eapply (drop_ok None); [now apply ok_red|exact Hx|auto].
  - intros r2 b' Hr2 Hfd. cbn [Z.eqb negb]. eapply eff_set_client; [apply lookup_insert_eq|].
    destruct w as [r0 F L I C n B T Fo Re]. udp_tidy. rewrite insert_insert_eq.
    apply (ok_relay None (UWorld r0 F L I C n B T Fo Re) c x b b' cb_auth_methods cb_none r2); auto. congruence.
Qed.

End Steps.

(** ** Packets from clients and from the relay keep the invariant of the UDP relay *)

Open Scope Z_scope.
Close Scope red_scope.

Import RedUdp Socks5.

(** A complete client changes in a way the others and the packets do not depend on. *)
Lemma ok_same r w c x y r' :
  ok r w -> r = None \/ r = Some c -> udp_clients w !! c = Some x -> same_base x y -> same_flow x y -> client_full w y -> w_evscript r' = [] ->
  ok None (with_red r' (with_clients (insert c y) w)).
Proof. intros Hok Hr Hx Hb Hf Hy He. apply (ok_complete c y); [now apply (ok_update r w c x y)|apply lookup_insert_eq|now apply (full_insts w)]. Qed.

Lemma bumped_full w x sec : client_full w x -> client_full w (c_set_timeout (event_add_ok 0 (timeout x)) sec x).
Proof. intros []. split; auto. cbn. destruct (timeout x). now destruct cf_timeout. Qed.

Section Packets.
Context `{BC : BaseConfig}.

Lemma eff_find addr l (Q : option nat -> udp_world -> Prop) w :
  (forall c, c ∈ l -> is_Some (udp_clients w !! c)) -> Q None w ->
  (forall c x, c ∈ l -> udp_clients w !! c = Some x -> clientaddr x = addr -> Q (Some c) w) -> runs (find_client l addr) Q w.
Proof.
  intros Hl HN HS. induction l as [|c l IH]; cbn [find_client]; [now apply eff_ret|].
  destruct (Hl c) as [x Hx]; [left|]. step_eff. eapply eff_client; [exact Hx|]. case_bool_decide as E.
  - apply eff_ret. apply (HS c x); [left|done|done].
  - apply IH; intros; [apply Hl; now right|]. eapply HS; eauto. now right.
Qed.

(** The client may have changed in times and timers only, and the answers of the environment. *)
Record touched (w : udp_world) (c : nat) (x : redudp_client) (w' : udp_world) (y : redudp_client) : Prop := Touched {
  to_ok : ok None w';
  to_client : udp_clients w' !! c = Some y;
  to_base : same_base x y;
  to_flow : same_flow x y;
  to_addr : clientaddr y = clientaddr x;
  to_world : exists r', w' = with_red r' (with_clients (insert c y) w);
}.

(** The time is noted and the timer is set again. *)
Lemma eff_touch w c x line (f : Z -> redudp_client -> redudp_client) (P : eff udp_world unit) (Q : unit -> udp_world -> Prop) :
  ok None w -> udp_clients w !! c = Some x ->
  (forall t, same_base x (f t x) /\ same_flow x (f t x) /\ clientaddr (f t x) = clientaddr x /\ client_full w (f t x)) ->
  (forall w' y, touched w c x w' y -> runs P Q w') ->
  runs (t ← redsocks_time; whenever (negb (t =? -1)) (set_client line c (f t)) ;; redudp_bump_timeout c ;; P) Q w.
Proof.
  intros Hok Hx Hf HP. unfold redsocks_time. step_eff. apply eff_sys; [apply Hok|]. intros t r1 Hr1. step_eff.
  assert (Hrest : forall r2 y, w_evscript r2 = [] -> same_base x y -> same_flow x y -> clientaddr y = clientaddr x -> client_full w y ->
    runs (redudp_bump_timeout c ;; P) Q (with_red r2 (with_clients (insert c y) w))).
  2: { apply eff_whenever; intros _.
       - eapply eff_set_client; [exact Hx|]. destruct (Hf t) as (F1 & F2 & F3 & F4). now apply (Hrest r1 (f t x)).
       - specialize (Hrest r1 x Hr1 (same_base_refl x) ltac:(done) eq_refl (ok_full c x w Hok Hx)). destruct w. udp_tidy. now rewrite insert_id in Hrest. }
  intros r2 y Hr2 Hb Hfl Had Hy. assert (Hok2 : ok None (with_red r2 (with_clients (insert c y) w))) by (apply (ok_same None w c x y); auto).
  step_eff. eapply (eff_bump None); [apply Hok2|apply lookup_insert_eq|]. intros r3 sec Hr3. set (z := c_set_timeout _ sec y).
  assert (E3 : with_red r3 (with_clients (insert c z) (with_red r2 (with_clients (insert c y) w))) = with_red r3 (with_clients (insert c z) w))
    by (destruct w; udp_tidy; now rewrite insert_insert_eq).
  apply (HP _ z). destruct Hb, Hfl. split; try done; [|apply lookup_insert_eq|eauto].
  apply (ok_same None _ c y z); auto; try done; [apply lookup_insert_eq|]. apply (full_insts w); [done|]. now apply bumped_full.
Qed.

(** A packet joins the queue. *)
Lemma queued_ok r w c x buf r' i :
  ok r w -> r = None \/ r = Some c -> udp_clients w !! c = Some x -> ev_init (udprelay x) = false -> insts w !! instance x = Some i ->
  queue_len x = Z.of_nat (length (queue x)) -> queue_len x < max_pktqueue (config i) -> w_evscript r' = [] ->
  let y := c_set_queue (u32 (queue_len x + 1)) (queue x ++ [buf]) x in
  ok (Some c) (with_red r' (with_taken (c, buf) (with_clients (insert c y) w))) /\
  queue_len y = Z.of_nat (length (queue y)) /\ queue_len y <= max_pktqueue (config i).
Proof.
  intros Hok Hr Hx Hu Ei Hq Hlt He y. pose proof (io_queue _ _ _ (i_inst _ _ (proj1 Hok) _ _ Ei)) as Hmax.
  assert (Hu32 : u32 (queue_len x + 1) = queue_len x + 1) by (apply u32_small; unfold is_u32; lia).
  split; [|subst y; cbn; rewrite length_app; cbn; lia].
  destruct Hok as [Hi Hf]. pose proof (cb_next _ _ _ (i_base _ _ Hi c x Hx)) as Hn.
  assert (Hi' : inv (Some c) (with_clients (insert c y) w)) by now apply (inv_update r w c x y).
  destruct w as [r0 F L I C n B T Fo Re]. udp_tidy. split; [exact (inv_log _ _ _ _ _ _ _ _ _ _ _ _ _ _ _ Hi' He)|].
  pose proof Hf as [F1 F2 F3]. destruct (F1 c x Hx) as (sent & E1 & E2 & E3). rewrite (E3 Hu) in *.
  apply (flow_update _ _ c y [buf] [] Hf); try done; [cbn; now rewrite app_nil_r|].
  exists []. udp_tidy. split; [|done]. change [(c, buf)] with (map (fun d => (c, d)) [buf]). now rewrite taken_by_app, taken_by_tag, decide_True, E1.
Qed.

(** ** Packets from clients *)

(** A client with the addresses and the queue of [x], complete, at [c]. *)
Lemma pkt_known w c x buf :
  ok None w -> udp_clients w !! c = Some x ->
  runs (t ← redsocks_time;
        whenever (negb (t =? -1)) (set_client 652 c (fun x => c_set_events (first_event x) t (last_relay_event x) x)) ;;
        redudp_bump_timeout c ;;
        x ← client 654 c;
        if ev_init (udprelay x) then upd_st (with_taken (c, buf)) ;; redudp_forward_pkt c buf
        else _ ← redudp_enqeue_pkt c buf; mret tt) (fun _ => ok None) w.
Proof.
  intros Hok Hx. apply (eff_touch w c x 652 (fun t x => c_set_events (first_event x) t (last_relay_event x) x)); [done|done| |].
  { intros t. split; [done|]. split; [done|]. split; [done|]. destruct (ok_full c x w Hok Hx). now split. }
  intros w3 z [Hok3 Hz _ _ _ _]. assert (Hfull : client_full w3 z) by now apply (ok_full c). clear -BC Hok3 Hz Hfull.
  step_eff. eapply eff_client; [exact Hz|]. destruct (cb_inst _ _ _ (i_base _ _ (proj1 Hok3) c z Hz)) as (i & Ei & _).
  pose proof (cb_next _ _ _ (i_base _ _ (proj1 Hok3) c z Hz)) as Hn. destruct (ev_init (udprelay z)) eqn:Eu.
  - step_eff. step_eff. destruct w3 as [r0 F L I C n B T Fo Re]. udp_tidy. eapply eff_forward; [apply Hok3|exact Ei|exact Hz|].
    intros r4 Hr4. destruct Hok3 as [Hi Hfl]. split; [exact (inv_log _ _ _ _ _ _ _ _ _ _ _ _ _ _ _ Hi Hr4)|].
    destruct (cf_started _ _ Hfull Eu) as [Eq _]. pose proof Hfl as [F1 F2 F3]. destruct (F1 c z Hz) as (sent & E1 & E2 & E3).
    apply (flow_update _ _ c z [buf] [(udprelayaddr z, preamble (dest_of I z) ++ buf)] Hfl); try done; [now rewrite insert_id|].
    exists (sent ++ [buf]). udp_tidy. rewrite Eq, app_nil_r in *. split; [|split; [|congruence]].
    + change [(c, buf)] with (map (fun d => (c, d)) [buf]). now rewrite taken_by_app, taken_by_tag, decide_True, E1.
    + rewrite map_app, <- E2. change [(c, udprelayaddr z, preamble (dest_of I z) ++ buf)]
        with (map (fun p : sockaddr_in * list Z => (c, p.1, p.2)) [(udprelayaddr z, preamble (dest_of I z) ++ buf)]).
      now rewrite forwarded_by_app, forwarded_by_tag, decide_True.
  - step_eff. eapply (eff_enqueue None); [apply Hok3|exact Hz| |].
    + intros r4 Hr4. apply eff_ret. now apply ok_red.
    + intros r4 j Hr4 Ej Hq. apply eff_ret. rewrite Ei in Ej. injection Ej as <-.
      destruct (queued_ok None w3 c z buf r4 i Hok3 (or_introl eq_refl) Hz Eu Ei (cf_queue _ _ Hfull) Hq Hr4) as (Hok4 & Q1 & Q2).
      eapply (ok_complete c); [exact Hok4|apply lookup_insert_eq|]. destruct Hfull. split; auto; cbn; [|congruence].
      intros j Hj. cbn in Hj. rewrite Ei in Hj. now injection Hj as <-.
Qed.

(** ** The first packet of a client *)

Lemma keepalive_quiet E fd (Q : Z -> world -> Prop) r : (forall a l r', quiet l r r' -> Q a r') -> wp E (apply_tcp_keepalive fd) Q r.
Proof.
  intros HQ. unfold apply_tcp_keepalive. set (step := fun (acc value : Z) => _).
  assert (H : forall l a r1, quiet [] r r1 -> wp E (fold_m step l a) (fun _ r' => quiet [] r r') r1).
  { induction l as [|v l IH]; intros a r1 H1; cbn [fold_m]; [now apply wp_ret|]. apply wp_bind. unfold step at 1.
    destruct (negb (a =? 0)); [now apply wp_ret, IH|]. destruct (negb (v =? 0)); [|now apply wp_ret, IH].
    apply wp_bind, wp_sys_quiet. intros e r2 H2. apply wp_ret, IH. exact (quiet_trans_0 _ _ _ _ H1 H2). }
  eapply wp_mono; [apply H, quiet_refl|]. intros a r' Hr. exact (HQ a [] r' Hr).
Qed.

Lemma fcntl_quiet E fd (Q : Z -> world -> Prop) r : (forall a l r', quiet l r r' -> Q a r') -> wp E (fcntl_nonblock fd) Q r.
Proof.
  intros HQ. unfold fcntl_nonblock. apply wp_bind, wp_sys_quiet. intros a r1 H1. destruct (a =? -1); [now apply wp_ret, (HQ _ [])|].
  apply wp_bind, wp_sys_quiet. intros e r2 H2. apply wp_ret, (HQ _ []). exact (quiet_trans_0 _ _ _ _ H1 H2).
Qed.

Lemma connect_relay_quiet r (Q : option bufferevent -> world -> Prop) :
  (forall l r', quiet l r r' -> Q None r') -> (forall b l r', quiet l r r' -> be_fd b <> -1 -> Q (Some b) r') -> wp safe red_connect_relay Q r.
Proof.
  intros HN HS. unfold red_connect_relay. apply wp_bind, wp_sys_quiet. intros fd r1 H1.
  destruct (Z.eqb_spec fd (-1)) as [E|Hfd]; [now apply wp_ret, (HN [])|].
  assert (Hfail : forall l r2, quiet l r r2 -> wp safe (bind (RedCore.redsocks_close fd) (fun _ => ret None)) Q r2).
  { intros l r2 H2. apply wp_bind, redsocks_close_quiet. intros r3 H3. apply wp_ret. exact (HN _ _ (quiet_trans _ _ _ _ _ H2 H3)). }
  apply wp_bind, fcntl_quiet. intros e l2 r2 H2. pose proof (quiet_trans_0 _ _ _ _ H1 H2) as Q2. destruct (negb (e =? 0)); [now apply (Hfail _ _ Q2)|].
  apply wp_bind, keepalive_quiet. intros ka l3 r3 H3. pose proof (quiet_trans _ _ _ _ _ Q2 H3) as Q3. destruct (negb (ka =? 0)); [now apply (Hfail _ _ Q3)|].
  apply wp_bind, wp_sys_quiet. intros e4 r4 H4. pose proof (quiet_trans _ _ _ _ _ Q3 H4) as Q4.
  apply wp_bind. apply (wp_mono safe _ (fun _ r5 => exists l, quiet l r r5)).
  { destruct (negb (e4 =? 0)); [|apply wp_ret; eauto]. apply wp_sys_quiet. intros e5 r5 H5. eexists. exact (quiet_trans _ _ _ _ _ Q4 H5). }
  intros errno r5 [l5 Q5]. destruct (negb (e4 =? 0) && negb (errno =? EINPROGRESS)); [now apply (Hfail _ _ Q5)|].
  apply wp_bind, wp_sys_quiet. intros al r6 H6. pose proof (quiet_trans _ _ _ _ _ Q5 H6) as Q6. destruct (negb (al =? 0)); [now apply (Hfail _ _ Q6)|].
  apply wp_bind, wp_sys_ev_quiet. intros e7 r7 H7. pose proof (quiet_trans _ _ _ _ _ Q6 H7) as Q7. destruct (negb (e7 =? 0)).
  - apply wp_bind, wp_sys_quiet. intros e8 r8 H8. exact (Hfail _ _ (quiet_trans _ _ _ _ _ Q7 H8)).
  - apply wp_ret. now apply (HS _ _ _ Q7).
Qed.

Lemma eff_connect c (Q : option bufferevent -> udp_world -> Prop) w :
  w_evscript (red w) = [] -> (forall r, w_evscript r = [] -> Q None (with_red r w)) ->
  (forall r b, w_evscript r = [] -> be_fd b <> -1 -> fds w !! be_fd b = None ->
     Q (Some b) (with_red r (with_fds (insert (be_fd b) (o_relay c)) w))) -> runs (connect_relay c) Q w.
Proof.
  intros He HN HS. unfold connect_relay. step_eff. apply eff_lift, connect_relay_quiet.
  - intros l r Hr. step_eff. step_eff. apply eff_ret, HN. now apply (calm_ev _ _ _ Hr).
  - intros b l r Hr Hfd. step_eff. step_eff. case_bool_decide as Hb; [apply eff_ret, HN; now apply (calm_ev _ _ _ Hr)|].
    step_eff. step_eff. apply eff_ret. apply (HS r b); [now apply (calm_ev _ _ _ Hr)|done|]. now apply eq_None_not_Some.
Qed.

(** A client that has just been allocated. *)
Lemma new_ok w i addr dest :
  ok None w -> is_Some (insts w !! i) -> ok (Some (next w)) (with_next S (with_clients (insert (next w) (new_client i addr dest)) w)).
Proof.
  intros [Hi [F1 F2 F3]] Hs. split; [now apply (inv_new w i)|]. split; cbn.
  - intros c x [[<- <-]|[Hc Hx]]%lookup_insert_Some; [|exact (F1 c x Hx)]. exists []. cbn. split; [|split; [|done]].
    + apply elem_of_nil_inv. intros d Hd. apply list_elem_of_omap in Hd as ([c d'] & Hin & E). cbn in E. case_decide; [|done]. apply F2 in Hin. lia.
    + apply elem_of_nil_inv. intros d Hd. apply list_elem_of_omap in Hd as ([[c a] d'] & Hin & E). cbn in E. case_decide; [|done]. apply F3 in Hin. lia.
  - intros c d Hd. apply F2 in Hd. lia.
  - intros c a d Hd. apply F3 in Hd. lia.
Qed.

Lemma connected_ok w c x b r' :
  ok (Some c) w -> udp_clients w !! c = Some x -> relay x = None -> be_fd b <> -1 -> fds w !! be_fd b = None -> w_evscript r' = [] ->
  ok (Some c) (with_red r' (with_fds (insert (be_fd b) (o_relay c)) (with_clients (insert c (c_set_relay (Some b) x)) w))).
Proof.
  intros [Hi Hf] Hx Hrel Hfd Hfresh He. split.
  - apply inv_red; [|done]. apply (inv_gain (Some c) w c x _ (be_fd b)); auto. split; try done. left. unfold relay_fd. now rewrite Hrel.
  - pose proof Hf as [F1 F2 F3]. apply (flow_update w _ c (c_set_relay (Some b) x) [] [] Hf); cbn; rewrite ?app_nil_r; try done.
    + exact (cb_next _ _ _ (i_base _ _ Hi c x Hx)).
    + destruct (F1 c x Hx) as (sent & E). now exists sent.
Qed.

Lemma linked_ok w c x i :
  ok (Some c) w -> udp_clients w !! c = Some x -> linked x = false -> insts w !! instance x = Some i -> client_full w (c_set_linked true x) ->
  ok None (with_clients (insert c (c_set_linked true x)) (with_insts (insert (instance x) (i_set_clients (cons c) i)) w)).
Proof.
  intros [Hi [F1 F2 F3]] Hx Hl Ei Hfull.
  assert (Hdest : forall z, is_Some (insts w !! instance z) -> dest_of (<[instance x := i_set_clients (cons c) i]> (insts w)) z = dest_of (insts w) z).
  { intros z Hz. apply dest_of_same; [|done]. intros j Hj. destruct (decide (instance x = instance z)) as [E|Hne].
    - rewrite <- E in *. rewrite lookup_insert_eq. rewrite Ei in Hj. injection Hj as <-. eauto.
    - rewrite lookup_insert_ne by done. eauto. }
  apply (ok_complete c (c_set_linked true x)); [split; [now apply inv_link|]|apply lookup_insert_eq|].
  - split; [|done|done]. cbn. intros k z [[<- <-]|[Hk Hz]]%lookup_insert_Some.
    + destruct (F1 c x Hx) as (sent & E1 & E2 & E3). exists sent. split; [done|]. split; [|done]. cbn [forwarded insts with_clients with_insts].
      rewrite Hdest by (cbn; eauto). exact E2.
    + destruct (F1 k z Hz) as (sent & E1 & E2 & E3). exists sent. split; [done|]. split; [|done]. cbn [forwarded insts with_clients with_insts].
      rewrite Hdest; [exact E2|]. destruct (cb_inst _ _ _ (i_base _ _ Hi k z Hz)) as (j & Ej & _). eauto.
  - destruct Hfull. split; auto. cbn. intros j. rewrite lookup_insert_eq. intros [= <-]. cbn. now apply cf_bound.
Qed.

Lemma first_pkt_ok w i addr dest buf :
  ok None w -> is_Some (insts w !! i) -> runs (redudp_first_pkt_from_client i addr dest buf) (fun _ => ok None) w.
Proof.
  intros Hok [x0 Ei]. unfold redudp_first_pkt_from_client. step_eff. apply eff_sys; [apply Hok|]. intros a r1 Hr1.
  destruct (negb (a =? 0)); [apply eff_ret; now apply ok_red|]. step_eff. step_eff. cbn zeta. step_eff. step_eff. step_eff. step_eff.
  pose proof (new_ok _ i addr dest (ok_red _ _ _ Hok Hr1) (mk_is_Some _ _ Ei)) as Hnew.
  set (c := next w) in *. set (x := new_client i addr dest) in *. set (w1 := with_next _ _) in Hnew.
  assert (E1 : with_clients (insert c x) (with_next S (with_red r1 w)) = w1) by done. change (next (with_red r1 w)) with c in *. rewrite E1.
  assert (Hx : udp_clients w1 !! c = Some x) by apply lookup_insert_eq. assert (Ei1 : insts w1 !! i = Some x0) by done.
  clearbody w1. clear E1. step_eff. eapply eff_inst; [exact Ei1|]. step_eff. apply eff_connect; [apply Hnew| |].
  - intros r2 Hr2. step_eff. eapply eff_set_client; [exact Hx|]. eapply (drop_ok (Some c)); [|apply lookup_insert_eq|auto].
    replace (with_clients _ _) with (with_red r2 w1); [now apply ok_red|]. destruct w1. udp_tidy. subst x. now rewrite insert_id.
  - intros r2 b Hr2 Hfd Hfresh. step_eff. eapply eff_set_client; [exact Hx|].
    pose proof (connected_ok w1 c x b r2 Hnew Hx eq_refl Hfd Hfresh Hr2) as Hok2. set (x2 := c_set_relay (Some b) x) in *.
    change (with_clients _ (with_red r2 _)) with (with_red r2 (with_fds (insert (be_fd b) (o_relay c)) (with_clients (insert c x2) w1))).
    assert (Hx2 : udp_clients (with_red r2 (with_fds (insert (be_fd b) (o_relay c)) (with_clients (insert c x2) w1))) !! c = Some x2) by apply lookup_insert_eq.
    assert (Ei2 : insts (with_red r2 (with_fds (insert (be_fd b) (o_relay c)) (with_clients (insert c x2) w1))) !! i = Some x0) by done.
    set (w2 := with_red r2 _) in *. clearbody w2. unfold redsocks_time. step_eff. apply eff_sys; [apply Hok2|]. intros t r3 Hr3.
    destruct (t =? -1); [now eapply (drop_ok (Some c)); [apply ok_red|exact Hx2|auto]|].
    step_eff. eapply eff_set_client; [exact Hx2|]. set (x3 := c_set_events t t 0 x2).
    assert (Hok3 : ok (Some c) (with_red r3 (with_clients (insert c x3) w2))) by (apply (ok_update (Some c) w2 c x2 x3); auto; done).
    change (with_clients _ (with_red r3 w2)) with (with_red r3 (with_clients (insert c x3) w2)).
    step_eff. eapply (eff_bump (Some c)); [apply Hok3|apply lookup_insert_eq|]. intros r4 sec Hr4.
    set (x4 := c_set_timeout _ sec x3). assert (Hx3 : udp_clients (with_red r3 (with_clients (insert c x3) w2)) !! c = Some x3) by apply lookup_insert_eq.
    pose proof (ok_update (Some c) _ c x3 x4 r4 Hok3 (or_intror eq_refl) Hx3 ltac:(done) ltac:(done) Hr4) as Hok4.
    set (w4 := with_red r4 _) in *. assert (Hx4 : udp_clients w4 !! c = Some x4) by apply lookup_insert_eq.
    assert (Ei4 : insts w4 !! i = Some x0) by done. clearbody w4. clear Hok3 Hx3.
    step_eff. eapply (eff_enqueue (Some c)); [apply Hok4|exact Hx4| |].
    + intros r5 Hr5. cbn [Z.eqb]. eapply (drop_ok (Some c)); [now apply ok_red|exact Hx4|auto].
    + intros r5 j Hr5 Ej Hq. cbn [Z.eqb]. change (instance x4) with i in Ej. rewrite Ei4 in Ej. injection Ej as <-.
      destruct (queued_ok (Some c) w4 c x4 buf r5 x0 Hok4 (or_intror eq_refl) Hx4 eq_refl Ei4 eq_refl Hq Hr5) as (Hok5 & Q1 & Q2).
      set (x5 := c_set_queue _ _ x4) in *. set (w5 := with_red r5 _) in *.
      assert (Hx5 : udp_clients w5 !! c = Some x5) by apply lookup_insert_eq. assert (Ei5 : insts w5 !! i = Some x0) by done. clearbody w5.
      step_eff. eapply eff_set_inst; [exact Ei5|]. eapply eff_set_client; [exact Hx5|]. apply (linked_ok w5 c x5 x0); try done. split; try done.
      cbn. intros j Hj. change (insts w5 !! i = Some j) in Hj. rewrite Ei5 in Hj. injection Hj as <-. exact Q2.
Qed.

Lemma pkt_from_client_ok w i m : ok None w -> is_Some (insts w !! i) -> runs (redudp_pkt_from_client i m) (fun _ => ok None) w.
Proof.
  intros Hok [x Ei]. unfold redudp_pkt_from_client. step_eff. eapply eff_inst; [exact Ei|].
  destruct (red_recv_udp_pkt m 0xFFFF (do_tproxy x)) as [[[buf from] dest]|]; [|now apply eff_ret].
  step_eff. apply eff_find.
  - intros c Hc. destruct (io_each _ _ _ (i_inst _ _ (proj1 Hok) i x Ei) c Hc) as (y & Hy & _). eauto.
  - apply first_pkt_ok; [done|eauto].
  - intros c y Hc Hy _. now apply (pkt_known w c y).
Qed.

(** ** Packets from the relay *)

(** The socket a client answers from: one that is there, or a new one. *)
Definition shared (w : udp_world) (x : redudp_client) (fd ref : Z) (F : gmap Z owner) : Prop :=
  (root_bound_udp4 w !! key x = Some (ref, fd) /\ F = fds w) \/
  (root_bound_udp4 w !! key x = None /\ ref = 0 /\ fds w !! fd = None /\ F = <[fd := o_bound (key x)]> (fds w)).

Definition sharing (c : nat) (x : redudp_client) (fd ref : Z) (F : gmap Z owner) (w : udp_world) : udp_world :=
  with_bound (insert (key x) (ref + 1, fd)) (with_fds (fun _ => F) (with_clients (insert c (c_set_sender fd x)) w)).

Lemma eff_share r w c x (Q : Z -> udp_world -> Prop) :
  inv r w -> udp_clients w !! c = Some x -> sender_fd x = -1 ->
  (forall r', w_evscript r' = [] -> Q (-1) (with_red r' w)) ->
  (forall r' fd ref F, w_evscript r' = [] -> fd <> -1 -> shared w x fd ref F -> Q fd (with_red r' (sharing c x fd ref F w))) ->
  runs (fd ← bound_udp4_get (destaddr x); set_client 607 c (c_set_sender fd) ;; mret fd) Q w.
Proof.
  intros Hi Hx Hs HN HS. assert (He : w_evscript (red w) = []) by apply Hi.
  assert (Hfail : forall r', w_evscript r' = [] -> runs (set_client 607 c (c_set_sender (-1)) ;; mret (-1)) Q (with_red r' w)).
  { intros r' Hr'. step_eff. eapply eff_set_client; [exact Hx|]. step_eff. specialize (HN r' Hr').
    replace (c_set_sender (-1) x) with x by (destruct x; cbn in Hs; now subst). destruct w. udp_tidy. now rewrite insert_id. }
  step_eff. unfold bound_udp4_get. fold (key x). step_eff. step_eff. destruct (root_bound_udp4 w !! key x) as [[ref fd]|] eqn:Eb.
  - destruct (i_bound _ _ Hi _ _ _ Eb) as (B1 & B2 & B3). step_eff. apply eff_assert; [lia|]. step_eff. step_eff. step_eff.
    step_eff. eapply eff_set_client; [exact Hx|]. step_eff. assert (Hfd : fd <> -1) by (intros ->; rewrite (i_valid _ _ Hi) in B1; done).
    specialize (HS (red w) fd ref (fds w) He Hfd ltac:(left; done)). now destruct w.
  - step_eff. apply eff_sys; [done|]. intros a r1 Hr1. destruct (negb (a =? 0)); [now apply eff_ret, Hfail|].
    step_eff. apply eff_socket; [done|intros r2 Hr2; cbn [Z.eqb]; now apply eff_ret, Hfail|]. intros r2 fd Hr2 Hfd Hfresh.
    rewrite (proj2 (Z.eqb_neq _ _) Hfd).
    assert (Hclose : forall r3, w_evscript r3 = [] ->
      runs (redsocks_close 131 fd ;; mret (-1)) (fun a => runs (set_client 607 c (c_set_sender a) ;; mret a) Q)
        (with_red r3 (with_fds (insert fd (o_bound (key x))) w))).
    { intros r3 Hr3. step_eff. eapply eff_close; [done|apply lookup_insert_eq|]. intros r4 Hr4. apply eff_ret. specialize (Hfail r4 Hr4).
      destruct w. udp_tidy. now rewrite delete_insert_id. }
    unfold redudp_transparent. step_eff. apply eff_sys; [done|]. intros e r3 Hr3. destruct (negb (e =? 0)); [now apply Hclose|].
    step_eff. apply eff_sys; [done|]. intros e' r4 Hr4. destruct (negb (e' =? 0)); [now apply Hclose|].
    step_eff. apply eff_sys; [done|]. intros e2 r5 Hr5. destruct (negb (e2 =? 0)); [now apply Hclose|].
    step_eff. step_eff. step_eff. step_eff. eapply eff_set_client; [exact Hx|]. step_eff.
    specialize (HS r5 fd 0 _ Hr5 Hfd ltac:(right; repeat split; eauto)). now destruct w.
Qed.

Lemma shared_ok w c x fd ref F r' :
  ok None w -> udp_clients w !! c = Some x -> client_full w x -> sender_fd x = -1 -> fd <> -1 -> shared w x fd ref F -> w_evscript r' = [] ->
  ok None (with_red r' (sharing c x fd ref F w)).
Proof.
  intros [Hi Hf] Hx Hfull Hs Hfd Hsh He. apply (ok_complete c (c_set_sender fd x)); [split|apply lookup_insert_eq|].
  - apply inv_red; [|done]. apply (inv_share None); auto.
  - pose proof Hf as [F1 F2 F3]. apply (flow_update w _ c (c_set_sender fd x) [] [] Hf); cbn; rewrite ?app_nil_r; try done.
    + exact (cb_next _ _ _ (i_base _ _ Hi c x Hx)).
    + destruct (F1 c x Hx) as (sent & E). now exists sent.
  - destruct Hfull. now split.
Qed.

Lemma ok_returned r w p : ok r w -> ok r (with_returned p w).
Proof.
  intros [Hi Hf]. destruct w. split; [exact (inv_log _ _ _ _ _ _ _ _ _ _ _ _ _ _ _ Hi (i_ev _ _ Hi))|]. destruct Hf. now split.
Qed.

(** The end of [redudp_pkt_from_socks], once the header is accepted. *)
Lemma eff_reply w c x i data :
  ok None w -> udp_clients w !! c = Some x -> insts w !! instance x = Some i ->
  runs (t ← redsocks_time;
        whenever (negb (t =? -1)) (set_client 603 c (fun x => c_set_events (first_event x) (last_client_event x) t x)) ;;
        redudp_bump_timeout c ;;
        x ← client 606 c;
        i ← inst 606 (instance x);
        fd ← (if do_tproxy i && (sender_fd x =? -1)
              then fd ← bound_udp4_get (destaddr x); set_client 607 c (c_set_sender fd) ;; mret fd
              else mret (sender_fd x));
        if do_tproxy i && (fd =? -1) then mret tt
        else
          let via := if do_tproxy i then fd else ev_fd (listener i) in
          whenever (Nat.leb sizeof_preamble (length data)) (upd_st (with_returned (via, clientaddr x, drop sizeof_preamble data))) ;;
          _ ← sys;
          mret tt)
    (fun _ w' => ok None w' /\ (returned w' = returned w /\ ((length data < sizeof_preamble)%nat \/ do_tproxy i = true /\ sender_fd x = -1) \/
       exists via, returned w' = returned w ++ [(via, clientaddr x, drop sizeof_preamble data)] /\ (sizeof_preamble <= length data)%nat /\
         (if do_tproxy i then fds w' !! via = Some (o_bound (key x)) else via = ev_fd (listener i)))) w.
Proof.
  intros Hok Hx Ei. apply (eff_touch w c x 603 (fun t x => c_set_events (first_event x) (last_client_event x) t x)); [done|done| |].
  { intros t. split; [done|]. split; [done|]. split; [done|]. destruct (ok_full c x w Hok Hx). now split. }
  intros w3 z [Hok3 Hz Hb _ Had (r3 & E3)]. assert (Hfull : client_full w3 z) by now apply (ok_full c).
  assert (Ei3 : insts w3 !! instance z = Some i) by (rewrite (sb_instance _ _ Hb), E3; exact Ei).
  assert (Er3 : returned w3 = returned w) by now rewrite E3. assert (Ek : key z = key x) by (unfold key; now rewrite (sb_destaddr _ _ Hb)).
  step_eff. eapply eff_client; [exact Hz|]. step_eff. eapply eff_inst; [exact Ei3|]. step_eff.
  assert (Hsend : forall w4 via, ok None w4 -> returned w4 = returned w ->
    (if do_tproxy i then fds w4 !! via = Some (o_bound (key x)) else via = ev_fd (listener i)) ->
    runs (whenever (Nat.leb sizeof_preamble (length data)) (upd_st (with_returned (via, clientaddr z, drop sizeof_preamble data))) ;; _ ← sys; mret tt)
      (fun _ w' => ok None w' /\ (returned w' = returned w /\ ((length data < sizeof_preamble)%nat \/ do_tproxy i = true /\ sender_fd x = -1) \/
         exists via, returned w' = returned w ++ [(via, clientaddr x, drop sizeof_preamble data)] /\ (sizeof_preamble <= length data)%nat /\
           (if do_tproxy i then fds w' !! via = Some (o_bound (key x)) else via = ev_fd (listener i)))) w4).
  { intros w4 via Hok4 Er4 Hvia. step_eff. apply eff_whenever; intros Hlen; step_eff.
    - step_eff. apply eff_sys; [apply Hok4|]. intros a r5 Hr5. apply eff_ret. split; [apply ok_red; [now apply ok_returned|done]|].
      right. exists via. cbn. rewrite Er4, Had. apply Nat.leb_le in Hlen. split; [done|]. split; [done|]. exact Hvia.
    - apply eff_sys; [apply Hok4|]. intros a r5 Hr5. apply eff_ret. split; [now apply ok_red|]. left. split; [exact Er4|]. left. apply Nat.leb_gt in Hlen. lia. }
  destruct (do_tproxy i) eqn:Et; cbn [andb].
  - destruct (Z.eqb_spec (sender_fd z) (-1)) as [Es|Hs].
    + apply (eff_share None); [apply Hok3|exact Hz|done| |].
      * intros r4 Hr4. cbn [Z.eqb]. apply eff_ret. split; [now apply ok_red|]. left. split; [exact Er3|]. right. now rewrite <- (sb_sender _ _ Hb).
      * intros r4 fd ref F Hr4 Hfd Hsh. rewrite (proj2 (Z.eqb_neq _ _) Hfd). apply Hsend; [now apply shared_ok|exact Er3|].
        cbn. rewrite <- Ek. destruct Hsh as [[E ->]|(_ & _ & _ & ->)]; [|apply lookup_insert_eq]. now destruct (i_bound _ _ (proj1 Hok3) _ _ _ E).
    + step_eff. rewrite (proj2 (Z.eqb_neq _ _) Hs). apply Hsend; [done|done|].
      destruct (cb_sender _ _ _ (i_base _ _ (proj1 Hok3) c z Hz) Hs) as [ref E]. rewrite <- Ek. now destruct (i_bound _ _ (proj1 Hok3) _ _ _ E).
  - step_eff. now apply Hsend.
Qed.

Lemma pkt_from_socks_ok w c x m stale : ok None w -> udp_clients w !! c = Some x -> runs (redudp_pkt_from_socks c m stale) (fun _ => ok None) w.
Proof.
  intros Hok Hx. destruct (cb_inst _ _ _ (i_base _ _ (proj1 Hok) c x Hx)) as (i & Ei & _). unfold redudp_pkt_from_socks. step_eff.
  eapply eff_client; [exact Hx|]. destruct (red_recv_udp_pkt m 0xFFFF false) as [[[data from] d]|]; [|now apply eff_ret].
  destruct (negb _); [now apply eff_ret|]. cbv zeta. step_eff. unfold get_destaddr. step_eff. eapply eff_client; [exact Hx|].
  step_eff. eapply eff_inst; [exact Ei|]. step_eff. do 3 (destruct (negb _); [now apply eff_ret|]). destruct (_ || _); [now apply eff_ret|].
  eapply eff_mono; [exact (eff_reply w c x i data Hok Hx Ei)|]. now intros a w' [H _].
Qed.

End Packets.
