(* ===== verification/RedUdpRun.v ===== *)
(** * Events, start and shutdown of the UDP relay of redsocks *)

From S2P Require Import Prelude Effect RedWorld RedCore RedLogic Socks5 RedUdp RedUdpInv RedUdpStep.

Open Scope Z_scope.
Close Scope red_scope.

Import RedUdp Socks5.

(** The SOCKS server sends nothing more on the connection once it has named the relay. *)
Definition conforms (w : udp_world) (e : udp_event) : bool :=
  match e with
  | ev_readable c => match udp_clients w !! c with Some x => negb (ev_init (udprelay x)) | None => true end
  | _ => true
  end.

Section Events.
Context `{BC : BaseConfig}.

Lemma relay_ready_some w c f : relay_ready w c f = true -> exists x b, udp_clients w !! c = Some x /\ relay x = Some b /\ f x b = true.
Proof.
  unfold relay_ready. destruct (udp_clients w !! c) as [x|] eqn:E; [|done]. destruct (relay x) as [b|] eqn:E'; [|done]. eauto.
Qed.

Lemma net_ok w c x b b' line f :
  ok None w -> udp_clients w !! c = Some x -> relay x = Some b -> f b = b' -> be_fd b' = be_fd b ->
  runs (set_relay line c f) (fun _ => ok None) w.
Proof.
  intros Hok Hx Hb <- Hfd. eapply eff_set_relay; [exact Hx|exact Hb|]. assert (Hfull : client_full w x) by now apply (ok_full c).
  pose proof (ok_relay None w c x b (f b) (readcb x) (writecb x) (red w) Hok (or_introl eq_refl) Hx Hfull Hb Hfd (fun _ => eq_refl)
    (cf_cbs _ _ Hfull) (i_ev _ _ (proj1 Hok))) as H. destruct w, x. exact H.
Qed.

Lemma handle_ok w e : ok None w -> ready w e = true -> conforms w e = true -> runs (handle e) (fun _ => ok None) w.
Proof.
  intros Hok Hr Hc. destruct e as [i m|c m stale|c|c|c|c|c data|c n]; cbn [handle ready conforms] in *.
  - destruct (insts w !! i) as [x|] eqn:E; [|done]. apply pkt_from_client_ok; [done|eauto].
  - destruct (udp_clients w !! c) as [x|] eqn:E; [|done]. now apply (pkt_from_socks_ok w c x).
  - destruct (udp_clients w !! c) as [x|] eqn:E; [|done]. step_eff. eapply eff_client; [exact E|]. step_eff.
    eapply eff_set_client; [exact E|]. unfold redudp_timeout. eapply (drop_ok (Some c)); [|apply lookup_insert_eq|auto].
    pose proof (ok_update None w c x (c_set_timeout (event_del_ok 0 (timeout x)) (timeout_sec x) x) (red w) Hok (or_introl eq_refl) E
      ltac:(done) ltac:(done) (i_ev _ _ (proj1 Hok))) as H. now destruct w.
  - apply relay_ready_some in Hr as (x & b & Hx & Hb & _). rewrite Hx in Hc. apply negb_true_iff in Hc.
    pose proof (cf_cbs _ _ (ok_full c x w Hok Hx)) as Hcbs. step_eff. eapply eff_client; [exact Hx|]. destruct (readcb x) eqn:Ec; cbn [call].
    + now apply eff_ret.
    + now destruct (writecb x).
    + apply (read_auth_methods_ok w c x); congruence.
    + apply (read_auth_reply_ok w c x); congruence.
    + now apply (read_assoc_reply_ok w c x).
  - apply relay_ready_some in Hr as (x & b & Hx & Hb & _). pose proof (cf_cbs _ _ (ok_full c x w Hok Hx)) as Hcbs.
    step_eff. eapply eff_client; [exact Hx|]. destruct (writecb x) eqn:Ec; cbn [call].
    + now apply eff_ret.
    + now apply (relay_connected_ok w c x).
    + now destruct (readcb x).
    + now destruct (readcb x).
    + now destruct (readcb x).
  - apply relay_ready_some in Hr as (x & b & Hx & Hb & _). unfold redudp_relay_error. eapply (drop_ok None); eauto.
  - apply relay_ready_some in Hr as (x & b & Hx & Hb & _). eapply net_ok; eauto.
  - apply relay_ready_some in Hr as (x & b & Hx & Hb & _). eapply net_ok; eauto.
Qed.

(** ** Shutdown *)

Lemma alter_lookup_clients w c x i y :
  inv None w -> udp_clients w !! c = Some x -> insts w !! i = Some y ->
  exists y', insts (after_drop c x w) !! i = Some y' /\ config y' = config y /\ listener y' = listener y /\ clients y' = filter (fun k => k <> c) (clients y).
Proof.
  intros Hi Hx Hy. destruct (proj2 (after_insts_some w c x i) (mk_is_Some _ _ Hy)) as [y' Hy'].
  destruct (after_insts None w c x Hi Hx i y' Hy') as (y0 & E & E1 & E2 & E3). rewrite Hy in E. injection E as <-. eauto.
Qed.

(** The clients of an instance are dropped one after the other. *)
Lemma drop_all_ok i l (Q : unit -> udp_world -> Prop) : forall w y,
  ok None w -> insts w !! i = Some y -> clients y = l ->
  (forall w' y', ok None w' -> insts w' !! i = Some y' -> clients y' = [] -> config y' = config y -> listener y' = listener y ->
     instances w' = instances w -> (forall j, is_Some (insts w' !! j) <-> is_Some (insts w !! j)) -> Q tt w') ->
  runs (foldr (fun c k => redudp_drop_client c ;; k) (mret tt) l) Q w.
Proof.
  induction l as [|c l IH]; intros w y Hok Hy El HQ; cbn [foldr].
  - apply eff_ret. now apply (HQ w y).
  - pose proof (i_inst _ _ (proj1 Hok) i y Hy) as Hio. pose proof (io_clients _ _ _ Hio) as Hnd. rewrite El in Hnd. apply NoDup_cons in Hnd as [Hc Hnd].
    destruct (io_each _ _ _ Hio c) as (x & Hx & _); [rewrite El; left|]. step_eff. eapply (eff_drop None); [apply Hok|exact Hx|].
    intros r Hr. destruct (alter_lookup_clients w c x i y (proj1 Hok) Hx Hy) as (y' & Hy' & E1 & E2 & E3).
    assert (Hok' : ok None (with_red r (after_drop c x w))) by (apply ok_red; [apply (ok_after_drop None); auto|done]).
    apply (IH _ y' Hok' Hy'); [rewrite E3, El; cbn; rewrite decide_False by auto; now apply filter_absent|].
    intros w' z Hw' Hz Ez F1 F2 F3 F4. apply (HQ w' z); try done; [congruence|congruence|]. intros j. rewrite F4. apply (after_insts_some w c x).
Qed.

(** An instance without clients goes, with its descriptor. *)
Lemma inv_no_inst w i y r :
  inv None w -> insts w !! i = Some y -> clients y = [] -> w_evscript r = [] ->
  inv None (UWorld r (if ev_init (listener y) then delete (ev_fd (listener y)) (fds w) else fds w) (filter (fun k => k <> i) (instances w))
    (delete i (insts w)) (udp_clients w) (next w) (root_bound_udp4 w) (taken w) (forwarded w) (returned w)).
Proof.
  intros [H1 H2 H3 H4 H5 H6 H7 H8 H9] Hy El Hr. set (F := if ev_init (listener y) then _ else _).
  assert (Hkeep : forall fd o, fds w !! fd = Some o -> o <> o_listener i -> F !! fd = Some o).
  { intros fd o Ho Hne. subst F. destruct (ev_init (listener y)) eqn:E; [|done]. rewrite lookup_delete_ne; [done|]. intros E3.
    destruct (io_listener _ _ _ (H4 i y Hy) E) as [_ E2]. congruence. }
  assert (Hback : forall fd o, F !! fd = Some o -> fds w !! fd = Some o /\ o <> o_listener i).
  { intros fd o Ho. assert (E : fds w !! fd = Some o) by (subst F; destruct (ev_init (listener y)); [now apply lookup_delete_Some in Ho as [_ Ho]|done]).
    split; [done|]. intros ->. destruct (H8 _ _ E) as (z & Hz & Ez & Ef). rewrite Hy in Hz. injection Hz as <-. subst F. rewrite Ez in Ho.
    apply lookup_delete_Some in Ho as [Ho _]. congruence. }
  assert (Hinst : forall c x, udp_clients w !! c = Some x -> instance x <> i).
  { intros c x Hx Ec. destruct (cb_inst _ _ _ (H5 c x Hx)) as (z & Hz & Hl). rewrite Ec, Hy in Hz. injection Hz as <-. rewrite El in Hl.
    pose proof (cf_linked _ _ (H6 c x Hx ltac:(done))) as Hlk. apply Hl in Hlk. now apply elem_of_nil in Hlk. }
  split; cbn; try done.
  - now apply NoDup_filter.
  - intros j. rewrite list_elem_of_filter, H3. rewrite lookup_delete_is_Some. naive_solver.
  - intros j z [Hj Hz]%lookup_delete_Some. destruct (H4 j z Hz) as [I1 I2 I3 I4 I5]. split; auto. cbn. intros Hi. destruct (I3 Hi). split; [done|].
    apply Hkeep; [done|congruence].
  - intros c x Hx. destruct (H5 c x Hx) as [(j & Ej & Hlk) B2 B3 B4 B5]. split; auto; cbn.
    exists j. split; [|done]. rewrite lookup_delete_ne; [done|]. intros E. now destruct (Hinst c x Hx).
  - intros c x Hx _. destruct (H6 c x Hx ltac:(done)) as [? ? ? ? Hq ? ? ?]. split; auto. cbn. intros j [_ Hj]%lookup_delete_Some. auto.
  - intros k ref fd Hb. destruct (H7 k ref fd Hb) as (B1 & B2 & B3). split; [now apply Hkeep|done].
  - intros fd o Ho. apply Hback in Ho as [Ho Hne]. specialize (H8 fd o Ho). destruct o as [j|k|k|k]; cbn [owns] in *; try exact H8.
    destruct H8 as (z & Hz & Ez). exists z. split; [|done]. cbn. rewrite lookup_delete_ne; congruence.
  - destruct (F !! (-1)) as [o|] eqn:E; [|done]. apply Hback in E as [E _]. congruence.
Qed.

Lemma flow_no_inst w i y r F :
  ok None w -> insts w !! i = Some y -> clients y = [] ->
  flow (UWorld r F (filter (fun k => k <> i) (instances w)) (delete i (insts w)) (udp_clients w) (next w) (root_bound_udp4 w)
    (taken w) (forwarded w) (returned w)).
Proof.
  intros [Hi [F1 F2 F3]] Hy El. split; [|done|done]. cbn. intros c x Hx. destruct (F1 c x Hx) as (sent & E1 & E2 & E3). exists sent. split; [done|].
  split; [|done]. cbn [forwarded insts]. rewrite E2. apply map_ext. intros d. do 3 f_equal. symmetry.
  destruct (cb_inst _ _ _ (i_base _ _ Hi c x Hx)) as (z & Hz & Hl). apply dest_of_same; [|eauto].
  intros j Hj. exists j. split; [|done]. rewrite lookup_delete_ne; [done|]. intros Ej. rewrite <- Ej, Hy in Hz. injection Hz as <-.
  rewrite El in Hl. pose proof (cf_linked _ _ (i_full _ _ Hi c x Hx ltac:(done))) as Hlk. apply Hl in Hlk. now apply elem_of_nil in Hlk.
Qed.

Lemma fini_instance_ok w i y (Q : unit -> udp_world -> Prop) :
  ok None w -> insts w !! i = Some y ->
  (forall w', ok None w' -> instances w' = filter (fun k => k <> i) (instances w) -> Q tt w') -> runs (redudp_fini_instance i) Q w.
Proof.
  intros Hok Hy HQ. unfold redudp_fini_instance. step_eff. eapply eff_inst; [exact Hy|]. step_eff.
  apply (drop_all_ok i (clients y) _ w y); [done|done|done|]. intros w1 z Hok1 Hz El _ _ EI _. step_eff. eapply eff_inst; [exact Hz|].
  pose proof (inv_no_inst w1 i z) as Hinv. pose proof (flow_no_inst w1 i z) as Hflow. rewrite <- EI in HQ. 
  destruct w1 as [r0 F L I C n B T Fo Re]. udp_tidy. step_eff. apply eff_whenever; intros Ei; rewrite Ei in Hinv.
  - step_eff. apply eff_sys_ev; [apply Hok1|]. intros r1 Hr1. step_eff. eapply eff_set_inst; [exact Hz|]. step_eff. udp_tidy.
    eapply eff_close; [done|now apply (io_listener _ _ _ (i_inst _ _ (proj1 Hok1) i z Hz))|]. intros r2 Hr2.
    eapply eff_set_inst; [apply lookup_insert_eq|]. step_eff. step_eff. step_eff. udp_tidy. rewrite !delete_insert_eq. apply HQ; [|done].
    split; [now apply Hinv; try apply Hok1|now apply Hflow].
  - step_eff. step_eff. step_eff. udp_tidy. apply HQ; [|done]. split; [|now apply Hflow]. apply Hinv; try done; apply Hok1.
Qed.

Lemma fini_ok : forall l w (Q : unit -> udp_world -> Prop),
  ok None w -> instances w = l ->
  (forall w', ok None w' -> instances w' = [] -> Q tt w') -> runs (foldr (fun i k => redudp_fini_instance i ;; k) (mret tt) l) Q w.
Proof.
  induction l as [|i l IH]; intros w Q Hok El HQ; cbn [foldr]; [now apply eff_ret, HQ|].
  destruct (proj1 (i_listed _ _ (proj1 Hok) i)) as [y Hy]; [rewrite El; left|]. pose proof (i_nodup _ _ (proj1 Hok)) as Hnd.
  rewrite El in Hnd. apply NoDup_cons in Hnd as [Hi Hnd]. step_eff. apply (fini_instance_ok w i y); [done|done|]. intros w1 Hok1 E1.
  apply IH; [done| |done]. rewrite E1, El. cbn. rewrite decide_False by auto. now apply filter_absent.
Qed.

(** Without instances nothing is left. *)
Lemma no_instances w : inv None w -> instances w = [] -> insts w = ∅ /\ udp_clients w = ∅ /\ root_bound_udp4 w = ∅ /\ fds w = ∅.
Proof.
  intros [H1 H2 H3 H4 H5 H6 H7 H8 H9] El.
  assert (EI : insts w = ∅).
  { apply map_empty. intros i. apply eq_None_not_Some. rewrite <- H3, El. apply not_elem_of_nil. }
  assert (EC : udp_clients w = ∅).
  { apply map_empty. intros c. destruct (udp_clients w !! c) as [x|] eqn:E; [|done]. destruct (cb_inst _ _ _ (H5 c x E)) as (z & Hz & _).
    now rewrite EI in Hz. }
  assert (EB : root_bound_udp4 w = ∅).
  { apply map_empty. intros k. destruct (root_bound_udp4 w !! k) as [[ref fd]|] eqn:E; [|done]. destruct (H7 _ _ _ E) as (_ & E2 & E3).
    rewrite EC in E2. unfold users in E2. rewrite map_filter_empty in E2. cbn in E2. rewrite map_size_empty in E2. lia. }
  split; [done|]. split; [done|]. split; [done|]. apply map_empty. intros fd. destruct (fds w !! fd) as [o|] eqn:E; [|done].
  pose proof (H8 _ _ E) as Ho. destruct o; cbn in Ho; rewrite ?EI, ?EC, ?EB in Ho; naive_solver.
Qed.

(** ** Start *)

Lemma eff_listen_setup fd tp (Q : bool -> udp_world -> Prop) w :
  w_evscript (red w) = [] -> (forall b r, w_evscript r = [] -> Q b (with_red r w)) -> runs (listen_setup fd tp) Q w.
Proof.
  intros He HQ. unfold listen_setup, redudp_transparent.
  assert (Hrest : forall (b : bool) r, w_evscript r = [] ->
    runs (if negb b then mret false
          else r ← sys; if negb (r =? 0) then mret false else r ← lift (fcntl_nonblock fd); mret (r =? 0)) Q (with_red r w)).
  { intros [] r Hr; cbn [negb]; [|now apply eff_ret, HQ]. step_eff. apply eff_sys; [done|]. intros a r1 Hr1.
    destruct (negb (a =? 0)); [now apply eff_ret, HQ|]. step_eff. apply eff_lift, fcntl_quiet. intros a2 l r2 H2. apply eff_ret.
    apply (calm_ev _ _ _ H2) in Hr1. specialize (HQ (a2 =? 0) r2 Hr1). now destruct w. }
  step_eff. destruct tp.
  - step_eff. apply eff_sys; [done|]. intros a r1 Hr1. destruct (negb (a =? 0)); [now apply eff_ret, Hrest|].
    step_eff. apply eff_sys; [done|]. intros a2 r2 Hr2. apply eff_ret. now apply Hrest.
  - apply eff_ret. specialize (Hrest true (red w) He). now destruct w.
Qed.

(** The instance listens. *)
Lemma inv_arm w i y fd r :
  ok None w -> insts w !! i = Some y -> ev_init (listener y) = false -> fds w !! fd = None -> fd <> -1 -> w_evscript r = [] ->
  ok None (with_red r (with_fds (insert fd (o_listener i)) (with_insts (insert i (i_set_listener (Event true fd true false) y)) w))).
Proof.
  intros [[H1 H2 H3 H4 H5 H6 H7 H8 H9] [F1 F2 F3]] Hy Hn Hfresh Hfd Hr. set (y' := i_set_listener _ y).
  assert (Hkeep : forall k o, fds w !! k = Some o -> <[fd := o_listener i]> (fds w) !! k = Some o)
    by (intros k o Ho; rewrite lookup_insert_ne; [done|congruence]).
  assert (Hinst : forall j z, insts w !! j = Some z -> exists z', <[i := y']> (insts w) !! j = Some z' /\ config z' = config z /\ clients z' = clients z).
  { intros j z Hz. destruct (decide (j = i)) as [->|Hne]; [rewrite lookup_insert_eq|rewrite lookup_insert_ne by done; eauto].
    rewrite Hy in Hz. injection Hz as <-. eauto. }
  split; [split|split]; cbn; try done.
  - intros j. rewrite H3, lookup_insert_is_Some'. naive_solver.
  - intros j z [[<- <-]|[Hj Hz]]%lookup_insert_Some.
    + destruct (H4 i y Hy) as [I1 I2 I3 I4 I5]. split; auto. intros _. split; [done|]. apply lookup_insert_eq.
    + destruct (H4 j z Hz) as [I1 I2 I3 I4 I5]. split; auto. intros Hi. destruct (I3 Hi). split; [done|]. now apply Hkeep.
  - intros c x Hx. destruct (H5 c x Hx) as [(j & Ej & Hlk) B2 B3 B4 B5]. split; auto. destruct (Hinst _ _ Ej) as (z' & Hz' & _ & Ek).
    exists z'. split; [exact Hz'|]. now rewrite Ek.
  - intros c x Hx _. destruct (H6 c x Hx ltac:(done)) as [? ? ? ? Hq ? ? ?]. split; auto. cbn.
    intros j [[E <-]|[_ Hj]]%lookup_insert_Some; [|auto]. cbn. apply Hq. congruence.
  - intros k ref f Hb. destruct (H7 k ref f Hb) as (B1 & B2). split; [now apply Hkeep|done].
  - intros k o [[<- <-]|[Hk Ho]]%lookup_insert_Some; [exists y'; cbn; now rewrite lookup_insert_eq|].
    specialize (H8 k o Ho). destruct o as [j|c|c|b]; cbn [owns] in *; try exact H8. destruct H8 as (z & Hz & Ez & Ef). exists z. cbn.
    split; [|done]. rewrite lookup_insert_ne; [done|]. intros ->. rewrite Hy in Hz. injection Hz as <-. congruence.
  - now rewrite lookup_insert_ne.
  - intros c x Hx. destruct (F1 c x Hx) as (sent & E1 & E2 & E3). exists sent. split; [done|]. split; [|done].
    cbn [forwarded insts with_red with_fds with_insts]. rewrite E2. apply map_ext. intros d. do 3 f_equal. symmetry.
    destruct (cb_inst _ _ _ (H5 c x Hx)) as (z & Hz & _). apply dest_of_same; [|eauto]. intros j Hj. destruct (Hinst _ _ Hj) as (z' & ? & ? & _). eauto.
Qed.

(** Before it listens an instance has nothing. *)
Definition unstarted (y : redudp_instance) : Prop := listener y = event_blank /\ clients y = [].

Lemma init_instance_ok w i y (Q : Z -> udp_world -> Prop) :
  ok None w -> insts w !! i = Some y -> unstarted y ->
  (forall w', ok None w' -> Q (-1) w') ->
  (forall w' fd, ok None w' -> instances w' = instances w -> insts w' = <[i := i_set_listener (Event true fd true false) y]> (insts w) -> Q 0 w') ->
  runs (redudp_init_instance i) Q w.
Proof.
  intros Hok Hy [Hl Hc] HN HS. unfold redudp_init_instance. step_eff. eapply eff_inst; [exact Hy|]. step_eff.
  apply eff_socket; [apply Hok| |].
  - intros r Hr. rewrite Z.eqb_refl. step_eff. apply (fini_instance_ok _ i y); [now apply ok_red|done|]. intros w' Hw' _. now apply eff_ret, HN.
  - intros r fd Hr Hfd Hfresh. rewrite (proj2 (Z.eqb_neq _ _) Hfd). step_eff. apply eff_listen_setup; [done|]. intros b r2 Hr2. destruct b; cbn [negb].
    + step_eff. eapply eff_set_inst; [exact Hy|]. step_eff. apply eff_sys_ev; [done|]. intros r3 Hr3. step_eff.
      eapply eff_set_inst; [apply lookup_insert_eq|]. cbn [Z.eqb negb event_add_ok with_ev_added ev_init ev_fd ev_active]. apply eff_ret.
      pose proof (inv_arm w i y fd r3 Hok Hy ltac:(now rewrite Hl) Hfresh Hfd Hr3) as Hok'.
      destruct w as [r0 F L I C n B T Fo Re]. udp_tidy. rewrite insert_insert_eq. now apply (HS _ fd).
    + pose proof (inv_no_inst w i y) as Hinv. pose proof (flow_no_inst w i y) as Hflow. rewrite Hl in Hinv. cbn [ev_init event_blank] in Hinv.
      destruct w as [r0 F L I C n B T Fo Re]. udp_tidy. step_eff. unfold redudp_fini_instance. step_eff. eapply eff_inst; [exact Hy|].
      rewrite Hc. cbn [foldr]. step_eff. step_eff. step_eff. eapply eff_inst; [exact Hy|]. rewrite Hl. cbn [ev_init event_blank whenever].
      step_eff. step_eff. step_eff. step_eff. step_eff. step_eff. eapply eff_close; [done|apply lookup_insert_eq|]. intros r3 Hr3. apply eff_ret, HN.
      udp_tidy. rewrite delete_insert_id by done. split; [apply Hinv; try done; apply Hok|now apply Hflow].
Qed.

Definition armed (w : udp_world) (i : nat) : Prop := exists y, insts w !! i = Some y /\ ev_added (listener y) = true.

Lemma init_instances_ok l : forall w (Q : Z -> udp_world -> Prop),
  ok None w -> NoDup l -> (forall i, i ∈ l -> exists y, insts w !! i = Some y /\ unstarted y) ->
  (forall w', ok None w' -> instances w' = [] -> Q (-1) w') ->
  (forall w', ok None w' -> instances w' = instances w -> (forall i, i ∈ l \/ armed w i -> armed w' i) -> Q 0 w') ->
  runs (init_instances l) Q w.
Proof.
  induction l as [|i l IH]; intros w Q Hok Hnd Hl HN HS; cbn [init_instances].
  - apply eff_ret, HS; [done|done|]. intros i [Hi|Hi]; [now apply elem_of_nil in Hi|done].
  - apply NoDup_cons in Hnd as [Hi Hnd]. destruct (Hl i) as (y & Hy & Hu); [left|]. step_eff. apply (init_instance_ok w i y); [done..| |].
    + intros w' Hok'. cbn [Z.eqb negb]. unfold redudp_fini. step_eff. step_eff. step_eff. apply fini_ok; [done|done|].
      intros w2 Hok2 E2. now apply eff_ret, HN.
    + intros w' fd Hok' EI E. cbn [Z.eqb negb]. apply IH; [done|done| |done|].
      * intros j Hj. destruct (Hl j) as (z & Hz & Hzu); [now right|]. exists z. split; [|done]. rewrite E, lookup_insert_ne; [done|]. intros ->. done.
      * intros w2 Hok2 E2 Ha. apply HS; [done|congruence|]. intros j Hj. apply Ha.
        assert (Hi' : armed w' i) by (exists (i_set_listener (Event true fd true false) y); rewrite E, lookup_insert_eq; done).
        destruct (decide (j = i)) as [->|Hne]; [now right|]. destruct Hj as [[->|Hj]%elem_of_cons|(z & Hz & Hz')]; [done|now left|].
        right. exists z. split; [|done]. rewrite E, lookup_insert_ne; done.
Qed.

End Events.
