(* ===== verification/RedUdpFacts.v ===== *)
(** * Theorems about the UDP relay of redsocks *)

From S2P Require Import Prelude Effect RedWorld RedCore RedLogic Socks5 RedUdp RedUdpInv RedUdpStep RedUdpRun.

Open Scope Z_scope.
Close Scope red_scope.

Import RedUdp Socks5.

(** ** The TCP part *)

Create HintDb keeps_tcp.

Section Tcp.
Context `{BC : BaseConfig}.

(** The TCP part keeps its clients, its lists and its counter; it may accept again. *)
Definition keeps_tcp {A} (m : eff udp_world A) : Prop :=
  forall w a w', m w = Done a w' -> exists l, quiet l (red w) (red w').

Lemma kt_ret {A} (a : A) : keeps_tcp (mret a).
Proof. intros w b w' [= <- <-]. exists []. apply quiet_refl. Qed.

Lemma kt_bad {A} line : keeps_tcp (bad (A := A) line).
Proof. done. Qed.

Lemma kt_bind {A B} (m : eff udp_world A) (k : A -> eff udp_world B) : keeps_tcp m -> (forall a, keeps_tcp (k a)) -> keeps_tcp (m ≫= k).
Proof.
  intros Hm Hk w b w' E. unfold mbind, eff_mbind in E. destruct (m w) as [a w1|] eqn:E1; [|done].
  destruct (Hm _ _ _ E1) as [l1 Q1], (Hk a _ _ _ E) as [l2 Q2]. eexists. exact (quiet_trans _ _ _ _ _ Q1 Q2).
Qed.

Lemma kt_get : keeps_tcp get_st.
Proof. intros w a w' [= <- <-]. exists []. apply quiet_refl. Qed.

Lemma kt_upd f : (forall w, red (f w) = red w) -> keeps_tcp (upd_st f).
Proof. intros Hf w [] w' E. cbv [upd_st] in E. injection E as <-. rewrite Hf. exists []. apply quiet_refl. Qed.

Lemma kt_assert line b : keeps_tcp (assert_at line b).
Proof. destruct b; [apply kt_ret|apply kt_bad]. Qed.

Lemma kt_whenever b m : keeps_tcp m -> keeps_tcp (whenever b m).
Proof. destruct b; [done|intros _; apply kt_ret]. Qed.

Lemma kt_lift {A} (m : M A) : (forall r, wp any m (fun _ r' => exists l, quiet l r r') r) -> keeps_tcp (lift m).
Proof.
  intros Hm w a w' E. unfold lift in E. specialize (Hm (red w)). unfold wp in Hm. destruct (m (red w)) as [a' r'|]; [|done].
  injection E as <- <-. exact Hm.
Qed.

Lemma kt_sys : keeps_tcp sys.
Proof. apply kt_lift. intros r. apply wp_sys_quiet. eauto. Qed.
Lemma kt_sys_ev : keeps_tcp sys_ev.
Proof. apply kt_lift. intros r. apply wp_sys_ev_quiet. eauto. Qed.
Lemma kt_mkevbuffer data : keeps_tcp (lift (mkevbuffer data)).
Proof.
  apply kt_lift. intros r. unfold mkevbuffer. apply wp_bind, wp_sys_quiet. intros a r1 H1. destruct (negb _); [apply wp_ret; eauto|].
  apply wp_bind, wp_sys_quiet. intros a2 r2 H2. pose proof (quiet_trans_0 _ _ _ _ H1 H2). destruct (_ <? _); apply wp_ret; eauto.
Qed.
Lemma kt_connected : keeps_tcp (lift red_is_socket_connected_ok).
Proof.
  apply kt_lift. intros r. unfold red_is_socket_connected_ok, red_socket_geterrno. apply wp_bind, wp_bind, wp_sys_quiet. intros a r1 H1.
  destruct (negb _); [apply wp_ret, wp_ret; eauto|]. apply wp_sys_quiet. intros a2 r2 H2. apply wp_ret. eexists. exact (quiet_trans_0 _ _ _ _ H1 H2).
Qed.
Lemma kt_connect : keeps_tcp (lift red_connect_relay).
Proof.
  intros w a w' E. unfold lift in E.
  assert (H : wp safe red_connect_relay (fun _ r' => exists l, quiet l (red w) r') (red w)) by (apply connect_relay_quiet; eauto).
  unfold wp in H. destruct (red_connect_relay (red w)); [|done]. injection E as <- <-. exact H.
Qed.
Lemma kt_fcntl fd : keeps_tcp (lift (fcntl_nonblock fd)).
Proof. apply kt_lift. intros r. apply fcntl_quiet. eauto. Qed.
Lemma kt_close_lift fd : keeps_tcp (lift (RedCore.redsocks_close fd)).
Proof. apply kt_lift. intros r. apply redsocks_close_quiet. eauto. Qed.

Hint Resolve kt_ret kt_bad kt_get kt_assert kt_sys kt_sys_ev kt_mkevbuffer kt_connected kt_connect kt_fcntl kt_close_lift : keeps_tcp.

Ltac keeps :=
  repeat first
    [ solve [eauto with keeps_tcp nocore]
    | apply kt_bind; [|intros]
    | apply kt_whenever
    | apply kt_upd; now intros []
    | match goal with |- keeps_tcp (match ?x with _ => _ end) => destruct x end
    | progress cbv zeta ].

Lemma kt_client line c : keeps_tcp (client line c).
Proof. unfold client. keeps. Qed.
Lemma kt_inst line c : keeps_tcp (inst line c).
Proof. unfold inst. keeps. Qed.
Hint Resolve kt_client kt_inst : keeps_tcp.
Lemma kt_set_client line c f : keeps_tcp (set_client line c f).
Proof. unfold set_client. keeps. Qed.
Lemma kt_set_inst line c f : keeps_tcp (set_inst line c f).
Proof. unfold set_inst. keeps. Qed.
Lemma kt_close line fd : keeps_tcp (redsocks_close line fd).
Proof. unfold redsocks_close. keeps. Qed.
Lemma kt_socket o : keeps_tcp (socket o).
Proof. unfold socket. keeps. Qed.
Hint Resolve kt_set_client kt_set_inst kt_close kt_socket : keeps_tcp.
Lemma kt_get_destaddr line c : keeps_tcp (get_destaddr line c).
Proof. unfold get_destaddr. keeps. Qed.
Lemma kt_bound_put a : keeps_tcp (bound_udp4_put a).
Proof. unfold bound_udp4_put. keeps. Qed.
Lemma kt_bound_get a : keeps_tcp (bound_udp4_get a).
Proof. unfold bound_udp4_get, redudp_transparent. keeps. Qed.
Lemma kt_free line fd : keeps_tcp (redsocks_bufferevent_free line fd).
Proof. unfold redsocks_bufferevent_free. keeps. Qed.
Lemma kt_set_relay line c f : keeps_tcp (set_relay line c f).
Proof. unfold set_relay. keeps. Qed.
Hint Resolve kt_get_destaddr kt_bound_put kt_bound_get kt_free kt_set_relay : keeps_tcp.
Lemma kt_drop c : keeps_tcp (redudp_drop_client c).
Proof. unfold redudp_drop_client. keeps. Qed.
Lemma kt_remove line c n : keeps_tcp (evbuffer_remove line c n).
Proof. unfold evbuffer_remove. keeps. Qed.
Lemma kt_helper c mk low high : keeps_tcp mk -> keeps_tcp (redsocks_write_helper_ex_plain c mk low high).
Proof. intros Hmk. unfold redsocks_write_helper_ex_plain. keeps. Qed.
Hint Resolve kt_drop kt_remove kt_helper : keeps_tcp.
Lemma kt_bump c : keeps_tcp (redudp_bump_timeout c).
Proof. unfold redudp_bump_timeout. keeps. Qed.
Lemma kt_forward c buf : keeps_tcp (redudp_forward_pkt c buf).
Proof. unfold redudp_forward_pkt, redudp_fill_preamble. keeps. Qed.
Lemma kt_enqueue c buf : keeps_tcp (redudp_enqeue_pkt c buf).
Proof. unfold redudp_enqeue_pkt. keeps. Qed.
Hint Resolve kt_bump kt_forward kt_enqueue : keeps_tcp.
Lemma kt_flush n c : keeps_tcp (flush_loop n c).
Proof. induction n; cbn [flush_loop]; keeps. Qed.
Lemma kt_request c mk size cb : keeps_tcp mk -> keeps_tcp (request c mk size cb).
Proof. intros Hmk. unfold request. keeps. Qed.
Hint Resolve kt_flush kt_request : keeps_tcp.
Lemma kt_associate c a : keeps_tcp (associate c a).
Proof. unfold associate, redudp_flush_queue. keeps. Qed.
Lemma kt_find l a : keeps_tcp (find_client l a).
Proof. induction l; cbn [find_client]; keeps. Qed.
Hint Resolve kt_associate kt_find : keeps_tcp.
Lemma kt_call cb c : keeps_tcp (call cb c).
Proof.
  destruct cb; cbn [call]; unfold redudp_relay_connected, redudp_read_auth_methods, redudp_read_auth_reply, redudp_read_assoc_reply,
    socks5_mkmethods_plain_wrapper, socks5_mkpassword_plain_wrapper, socks5_mkassociate; keeps.
Qed.
Lemma kt_first i a d buf : keeps_tcp (redudp_first_pkt_from_client i a d buf).
Proof. unfold redudp_first_pkt_from_client, connect_relay, redsocks_time. keeps. Qed.
Hint Resolve kt_call kt_first : keeps_tcp.


End Tcp.

(** ** Runs *)

Definition with_script (s : list Z) (w : udp_world) : udp_world := with_red (with_w_script (fun _ => s) (red w)) w.

(** The state the configuration leaves: instances that do not listen yet, and a working event backend. *)
Record configured (w : udp_world) : Prop := Configured {
  cg_ev : w_evscript (red w) = [];
  cg_nodup : NoDup (instances w);
  cg_listed : forall i, i ∈ instances w <-> is_Some (insts w !! i);
  cg_inst : forall i y, insts w !! i = Some y -> unstarted y /\ 0 <= max_pktqueue (config y) < 65536;
  cg_clients : udp_clients w = ∅;
  cg_bound : root_bound_udp4 w = ∅;
  cg_fds : fds w = ∅;
  cg_logs : taken w = [] /\ forwarded w = [];
}.

Section Runs.
Context `{BC : BaseConfig}.

Lemma configured_ok w : configured w -> ok None w.
Proof.
  intros [H1 H2 H3 H4 H5 H6 H7 [H8 H9]]. split; split; rewrite ?H5, ?H6, ?H7, ?H8, ?H9; auto; try (intros; now rewrite ?lookup_empty in * ); try (intros ? ? []%elem_of_nil || intros ? ? ? []%elem_of_nil).
  intros i y Hy. destruct (H4 i y Hy) as [[E1 E2] E3]. split; rewrite ?E1, ?E2; try done; [constructor|intros c []%elem_of_nil].
Qed.

Lemma udp_init_ok w : configured w ->
  runs redudp_init (fun a w' => ok None w' /\ (a = -1 /\ instances w' = [] \/ a = 0 /\ instances w' = instances w /\ forall i, i ∈ instances w -> armed w' i)) w.
Proof.
  intros Hc. unfold redudp_init. step_eff. step_eff. apply init_instances_ok; [now apply configured_ok|apply Hc| | |].
  - intros i Hi. apply Hc in Hi as [y Hy]. exists y. split; [done|]. now apply (cg_inst w Hc i y).
  - intros w' Hok E. split; [done|]. now left.
  - intros w' Hok E Ha. split; [done|]. right. split; [done|]. split; [done|]. intros i Hi. apply Ha. now left.
Qed.

Inductive udp_reaches : udp_world -> Prop :=
  | udp_start w0 w : configured w0 -> redudp_init w0 = Done 0 w -> udp_reaches w
  | udp_step w e s w' :
      udp_reaches w -> ready w e = true -> conforms w e = true -> handle e (with_script s w) = Done tt w' -> udp_reaches w'.

Lemma handle_script w e s : ok None w -> ready w e = true -> conforms w e = true -> runs (handle e) (fun _ => ok None) (with_script s w).
Proof.
  intros Hok Hr Hc. apply handle_ok; [|now destruct e|now destruct e]. apply ok_red; [done|]. apply Hok.
Qed.

Lemma reaches_ok w : udp_reaches w -> ok None w.
Proof.
  induction 1 as [w0 w Hc E|w e s w' _ IH Hr Hc E].
  - exact (proj1 (eff_at _ _ _ _ _ (udp_init_ok w0 Hc) E)).
  - exact (eff_at _ _ _ _ _ (handle_script w e s IH Hr Hc) E).
Qed.



(** ** A run *)




(** ** Replies *)










End Runs.











(** ** The theorems *)

Section Theorems.
Context `{BC : BaseConfig}.




(** Starting the instances of a configuration ends: either all of them listen, or the result is
    -1 and nothing is left open. Shutting down from any state a run reaches ends with no
    instance, client, bound socket or open descriptor. *)
Lemma redudp_shutdown :
  (forall w0, configured w0 -> exists r w, redudp_init w0 = Done r w /\
     (r = 0 /\ (forall i, i ∈ instances w0 -> armed w i) \/
      r = -1 /\ instances w = [] /\ insts w = ∅ /\ udp_clients w = ∅ /\ root_bound_udp4 w = ∅ /\ fds w = ∅)) /\
  (forall w s, udp_reaches w -> exists w', redudp_fini (with_script s w) = Done tt w' /\
     instances w' = [] /\ insts w' = ∅ /\ udp_clients w' = ∅ /\ root_bound_udp4 w' = ∅ /\ fds w' = ∅).
Proof.
  split.
  - intros w0 Hc. pose proof (udp_init_ok w0 Hc) as H. unfold runs in H. destruct (redudp_init w0) as [r w|]; [|done]. exists r, w. split; [done|].
    destruct H as [Hok [[-> E]|(-> & _ & Ha)]]; [|now left]. right. split; [done|]. split; [done|]. apply no_instances; [apply Hok|exact E].
  - intros w s Hw. pose proof (reaches_ok w Hw) as Hok.
    assert (H : runs redudp_fini (fun _ w' => ok None w' /\ instances w' = []) (with_script s w)).
    { unfold redudp_fini. step_eff. step_eff. apply fini_ok; [|done|done]. apply ok_red; [done|apply Hok]. }
    unfold runs in H. destruct (redudp_fini (with_script s w)) as [[] w'|]; [|done]. destruct H as [Hok' E]. exists w'. split; [done|].
    split; [done|]. apply no_instances; [apply Hok'|done].
Qed.

End Theorems.

(** ** Witnesses *)




