(* ===== verification/RedUdpConfig.v ===== *)
(** * The configuration of the UDP relay and of the DNS responder

    The sections [redudp] and [dnstc] of the configuration file ([redudp.c], [dnstc.c]), which the
    parser of [Parser.v] reads, and the state [redudp_init] starts from: one instance per accepted
    section. The two sections write to variables of their own, apart from those of [RedConfig.v]. *)

From S2P Require Import Prelude Effect CLib RedWorld Parser RedConfig ParserSafety ParserFacts ConfigFacts RedCore RedLogic Socks5 RedUdp RedUdpInv RedUdpStep RedUdpRun RedUdpFacts.

Open Scope Z_scope.

Module UdpConfig.

Import RedUdp.

(** [section->data] of the two sections, and their lists of instances, newest first. *)
Record udp_sections_state := UState {
  us_redudp : option redudp_config;
  us_instances : list redudp_config;
  us_dnstc : option sockaddr_in;
  us_responders : list sockaddr_in;
}.

Notation UP := (P udp_sections_state).

Definition get_udp : UP udp_sections_state := pgets c_user.
Definition put_udp (u : udp_sections_state) : UP unit := pmodify (set_user u).

Definition set_bindaddr (g : sockaddr_in -> sockaddr_in) (d : redudp_config) : redudp_config :=
  Config (g (bindaddr d)) (relayaddr d) (cfg_destaddr d) (login d) (password d) (max_pktqueue d) (udp_timeout d) (udp_timeout_stream d).
Definition set_relayaddr (g : sockaddr_in -> sockaddr_in) (d : redudp_config) : redudp_config :=
  Config (bindaddr d) (g (relayaddr d)) (cfg_destaddr d) (login d) (password d) (max_pktqueue d) (udp_timeout d) (udp_timeout_stream d).
Definition set_destaddr (g : sockaddr_in -> sockaddr_in) (d : redudp_config) : redudp_config :=
  Config (bindaddr d) (relayaddr d) (g (cfg_destaddr d)) (login d) (password d) (max_pktqueue d) (udp_timeout d) (udp_timeout_stream d).
Definition set_login (g : option (list Z) -> option (list Z)) (d : redudp_config) : redudp_config :=
  Config (bindaddr d) (relayaddr d) (cfg_destaddr d) (g (login d)) (password d) (max_pktqueue d) (udp_timeout d) (udp_timeout_stream d).
Definition set_password (g : option (list Z) -> option (list Z)) (d : redudp_config) : redudp_config :=
  Config (bindaddr d) (relayaddr d) (cfg_destaddr d) (login d) (g (password d)) (max_pktqueue d) (udp_timeout d) (udp_timeout_stream d).
Definition set_udp_timeout (g : Z -> Z) (d : redudp_config) : redudp_config :=
  Config (bindaddr d) (relayaddr d) (cfg_destaddr d) (login d) (password d) (max_pktqueue d) (g (udp_timeout d)) (udp_timeout_stream d).
Definition set_udp_timeout_stream (g : Z -> Z) (d : redudp_config) : redudp_config :=
  Config (bindaddr d) (relayaddr d) (cfg_destaddr d) (login d) (password d) (max_pktqueue d) (udp_timeout d) (g (udp_timeout_stream d)).

(** ** [redudp] *)

Definition redudp_entry (key : list Z) (t : parser_type) (set : value -> redudp_config -> redudp_config) : parser_entry udp_sections_state :=
  Entry key t (fun v u => (fun d => UState (Some (set v d)) (us_instances u) (us_dnstc u) (us_responders u)) <$> us_redudp u).

Definition redudp_entries : list (parser_entry udp_sections_state) :=
  [redudp_entry (B# "local_ip") pt_in_addr (fun v => set_bindaddr (with_sin_addr (num_of v)));
   redudp_entry (B# "local_port") pt_uint16 (fun v => set_bindaddr (with_sin_port (raw_port v)));
   redudp_entry (B# "ip") pt_in_addr (fun v => set_relayaddr (with_sin_addr (num_of v)));
   redudp_entry (B# "port") pt_uint16 (fun v => set_relayaddr (with_sin_port (raw_port v)));
   redudp_entry (B# "login") pt_pchar (fun v => set_login (str_of v));
   redudp_entry (B# "password") pt_pchar (fun v => set_password (str_of v));
   redudp_entry (B# "dest_ip") pt_in_addr (fun v => set_destaddr (with_sin_addr (num_of v)));
   redudp_entry (B# "dest_port") pt_uint16 (fun v => set_destaddr (with_sin_port (raw_port v)));
   redudp_entry (B# "udp_timeout") pt_uint16 (fun v => set_udp_timeout (num_of v));
   redudp_entry (B# "udp_timeout_stream") pt_uint16 (fun v => set_udp_timeout_stream (num_of v))].

Definition redudp_onenter : UP Z :=
  do ok <- malloc;
  if negb ok then parser_error ;; pret (-1)
  else
    do u <- get_udp;
    let sa := SockAddr AF_INET 0 INADDR_LOOPBACK in
    put_udp (UState (Some (Config sa sa (SockAddr AF_INET 0 0) None None 5 30 180)) (us_instances u) (us_dnstc u) (us_responders u)) ;;
    pret 0.

Definition redudp_onexit : UP Z :=
  do u <- get_udp;
  match us_redudp u with
  | None => praise NullDeref
  | Some d =>
      let d := set_destaddr (with_sin_port htons) (set_relayaddr (with_sin_port htons) (set_bindaddr (with_sin_port htons) d)) in
      put_udp (UState None (us_instances u) (us_dnstc u) (us_responders u)) ;;
      if udp_timeout_stream d <? udp_timeout d then parser_error ;; pret (-1)
      else put_udp (UState None (d :: us_instances u) (us_dnstc u) (us_responders u)) ;; pret 0
  end.

Definition redudp_conf_section : parser_section udp_sections_state :=
  Section_ (B# "redudp") (Some redudp_onenter) (Some redudp_onexit) redudp_entries.

(** ** [dnstc] *)

Definition dnstc_entry (key : list Z) (t : parser_type) (set : value -> sockaddr_in -> sockaddr_in) : parser_entry udp_sections_state :=
  Entry key t (fun v u => (fun d => UState (us_redudp u) (us_instances u) (Some (set v d)) (us_responders u)) <$> us_dnstc u).

Definition dnstc_entries : list (parser_entry udp_sections_state) :=
  [dnstc_entry (B# "local_ip") pt_in_addr (fun v => with_sin_addr (num_of v));
   dnstc_entry (B# "local_port") pt_uint16 (fun v => with_sin_port (raw_port v))].

Definition dnstc_onenter : UP Z :=
  do ok <- malloc;
  if negb ok then parser_error ;; pret (-1)
  else
    do u <- get_udp;
    put_udp (UState (us_redudp u) (us_instances u) (Some (SockAddr AF_INET 0 INADDR_LOOPBACK)) (us_responders u)) ;;
    pret 0.

Definition dnstc_onexit : UP Z :=
  do u <- get_udp;
  match us_dnstc u with
  | None => praise NullDeref
  | Some d => put_udp (UState (us_redudp u) (us_instances u) None (with_sin_port htons d :: us_responders u)) ;; pret 0
  end.

Definition dnstc_conf_section : parser_section udp_sections_state :=
  Section_ (B# "dnstc") (Some dnstc_onenter) (Some dnstc_onexit) dnstc_entries.

(** [main] registers the sections one after the other. *)
Definition udp_sections : list (parser_section udp_sections_state) :=
  parser_add_section (parser_add_section [] redudp_conf_section) dnstc_conf_section.

End UdpConfig.

Import UdpConfig RedUdp.

(** ** What an accepted file says *)

Definition addr_ok (a : sockaddr_in) : Prop := is_u16 (sin_port a) /\ is_u32 (sin_addr a).

(** The values of a section, complete or not. *)
Record udp_values (d : redudp_config) : Prop := UdpValues {
  uv_bind : addr_ok (bindaddr d);
  uv_relay : addr_ok (relayaddr d);
  uv_dest : addr_ok (cfg_destaddr d);
  uv_queue : max_pktqueue d = 5;
}.

Definition udp_inst_ok (d : redudp_config) : Prop := udp_values d /\ udp_timeout d <= udp_timeout_stream d.

Definition udp_inv (o : option (parser_section udp_sections_state)) (u : udp_sections_state) : Prop :=
  Forall udp_inst_ok (us_instances u) /\ Forall addr_ok (us_responders u) /\
  (o = Some redudp_conf_section -> exists d, us_redudp u = Some d /\ udp_values d) /\
  (o = Some dnstc_conf_section -> exists d, us_dnstc u = Some d /\ addr_ok d).

Lemma udp_sections_cases p : p ∈ udp_sections -> p = dnstc_conf_section \/ p = redudp_conf_section.
Proof. unfold udp_sections, parser_add_section. set_solver. Qed.

Lemma sections_differ : redudp_conf_section <> dnstc_conf_section.
Proof. intros [=]. Qed.

Lemma addr_ok_port a : addr_ok a -> addr_ok (with_sin_port htons a).
Proof. intros [H1 H2]. split; [now apply htons_u16|done]. Qed.

Lemma addr_ok_value v a : addr_ok a -> (typed pt_in_addr v -> addr_ok (with_sin_addr (num_of v) a)) /\ (typed pt_uint16 v -> addr_ok (with_sin_port (raw_port v) a)).
Proof. intros [H1 H2]. split; intros Ht; destruct v; try done; (split; [|done]); now apply htons_u16. Qed.

Lemma redudp_entry_ok e v u d :
  e ∈ redudp_entries -> typed (e_type e) v -> us_redudp u = Some d -> udp_values d ->
  exists d', e_addr e v u = Some (UState (Some d') (us_instances u) (us_dnstc u) (us_responders u)) /\ udp_values d'.
Proof.
  intros He Ht Hd [H1 H2 H3 H4]. unfold redudp_entries in He.
  repeat (apply elem_of_cons in He as [->|He]; [eexists; split; [cbn; rewrite Hd; reflexivity|]; cbn in Ht |-*;
    split; cbn; try assumption; now apply addr_ok_value|]).
  now apply not_elem_of_nil in He.
Qed.

Lemma dnstc_entry_ok e v u d :
  e ∈ dnstc_entries -> typed (e_type e) v -> us_dnstc u = Some d -> addr_ok d ->
  exists d', e_addr e v u = Some (UState (us_redudp u) (us_instances u) (Some d') (us_responders u)) /\ addr_ok d'.
Proof.
  intros He Ht Hd Hok. unfold dnstc_entries in He.
  repeat (apply elem_of_cons in He as [->|He]; [eexists; split; [cbn; rewrite Hd; reflexivity|]; cbn in Ht |-*; now apply addr_ok_value|]).
  now apply not_elem_of_nil in He.
Qed.

Lemma udp_onenter_ok p m c :
  p ∈ udp_sections -> s_onenter p = Some m -> udp_inv None (c_user c) ->
  pwp (fun _ => False) m (fun r c' => called c c' /\ (r = -1 \/ c_error c' = true \/ udp_inv (Some p) (c_user c'))) c.
Proof.
  intros Hp Hm (Hi & Hr & _ & _).
  destruct (udp_sections_cases _ Hp) as [->| ->]; injection Hm as <-; apply pwp_bind, pwp_malloc; intros ok c1 Hs;
    pose proof (same_called _ _ Hs) as Hc; destruct Hs as [s ->]; destruct ok; cbn [negb];
    [|apply pwp_error_fails; split; [exact (called_trans _ _ _ Hc (error_called _))|now left]|
     |apply pwp_error_fails; split; [exact (called_trans _ _ _ Hc (error_called _))|now left]];
    apply pwp_bind, pwp_gets, pwp_bind, pwp_modify, pwp_ret; (split; [exact (called_trans _ _ _ Hc (user_called _ _))|]);
    right; right; (split; [exact Hi|split; [exact Hr|]]).
  - split; [intros [=]|]. intros _. eexists. split; [reflexivity|]. split; cbn; unfold is_u16, is_u32, INADDR_LOOPBACK; lia.
  - split; [|intros [=]]. intros _. eexists. split; [reflexivity|]. split; try split; cbn; unfold is_u16, is_u32, INADDR_LOOPBACK; lia.
Qed.

Lemma udp_onexit_ok p m c :
  p ∈ udp_sections -> s_onexit p = Some m -> udp_inv (Some p) (c_user c) ->
  pwp (fun _ => False) m (fun r c' => called c c' /\ (r = -1 \/ c_error c' = true \/ udp_inv None (c_user c'))) c.
Proof.
  intros Hp Hm (Hi & Hr & H1 & H2). destruct (udp_sections_cases _ Hp) as [->| ->]; injection Hm as <-; apply pwp_bind, pwp_gets.
  - destruct (H2 eq_refl) as (d & -> & Hd). apply pwp_bind, pwp_modify, pwp_ret. split; [now split|]. right. right.
    split; [exact Hi|]. split; [|done]. constructor; [now apply addr_ok_port|exact Hr].
  - destruct (H1 eq_refl) as (d & -> & [V1 V2 V3 V4]). cbv zeta. apply pwp_bind, pwp_modify.
    destruct (Z.ltb_spec (udp_timeout_stream d) (udp_timeout d)) as [Hlt|Hle]; cbn [set_destaddr set_relayaddr set_bindaddr udp_timeout udp_timeout_stream].
    + rewrite (proj2 (Z.ltb_lt _ _) Hlt). apply pwp_error_fails. split; [now split|now left].
    + rewrite (proj2 (Z.ltb_ge _ _) Hle). apply pwp_bind, pwp_modify, pwp_ret. split; [now split|]. right. right. split; [|done].
      constructor; [|exact Hi]. split; [split; cbn; auto using addr_ok_port|exact Hle].
Qed.

#[export] Instance udp_sections_ok : SectionsOk udp_sections udp_inv.
Proof.
  split.
  - intros p m c. apply udp_onenter_ok.
  - intros p m c. apply udp_onexit_ok.
  - intros p u Hp. now destruct (udp_sections_cases _ Hp) as [->| ->].
  - intros p u Hp. now destruct (udp_sections_cases _ Hp) as [->| ->].
  - intros p e v u Hp He Ht (Hi & Hr & H1 & H2). destruct (udp_sections_cases _ Hp) as [->| ->].
    + destruct (H2 eq_refl) as (d & Ed & Hd). destruct (dnstc_entry_ok e v u d He Ht Ed Hd) as (d' & E & Hd').
      eexists. split; [exact E|]. split; [exact Hi|]. split; [exact Hr|]. split; [intros [=]|]. intros _. eauto.
    + destruct (H1 eq_refl) as (d & Ed & Hd). destruct (redudp_entry_ok e v u d He Ht Ed Hd) as (d' & E & Hd').
      eexists. split; [exact E|]. split; [exact Hi|]. split; [exact Hr|]. split; [|intros [=]]. intros _. eauto.
Qed.



(** ** From the file to the running relay *)







