(* ===== verification/Dnstc.v ===== *)
(** * The DNS responder of redsocks ([redsocks/dnstc.c])

    An instance answers every DNS query that arrives by UDP with the query itself, marked as a
    truncated response, so that the resolver asks again by TCP. The state is that of [RedUdp.v]
    without clients: the TCP part, whose answers of the system calls it shares, the open descriptors
    with the instance that has each, and the instances. Closing a descriptor that is not open is a fault.
    [dn_sent] records what is passed to [sendto]. *)

From S2P Require Import Prelude Effect RedWorld RedCore RedLogic Socks5 RedUdp RedUdpInv RedUdpStep RedUdpRun.

Open Scope Z_scope.
Close Scope red_scope.

Module Dnstc.

Import RedUdp.

Record dnstc_instance := Responder {
  dn_bindaddr : sockaddr_in;
  dn_listener : event;
}.

Record dns_world := DWorld {
  dn_red : world;
  dn_fds : gmap Z nat;
  dn_instances : list nat;
  dn_insts : gmap nat dnstc_instance;
  dn_sent : list (Z * sockaddr_in * list Z);
}.

Definition set_dn_red (r : world) (w : dns_world) : dns_world := DWorld r (dn_fds w) (dn_instances w) (dn_insts w) (dn_sent w).
Definition set_dn_fds (f : gmap Z nat -> gmap Z nat) (w : dns_world) : dns_world :=
  DWorld (dn_red w) (f (dn_fds w)) (dn_instances w) (dn_insts w) (dn_sent w).
Definition set_dn_instances (f : list nat -> list nat) (w : dns_world) : dns_world :=
  DWorld (dn_red w) (dn_fds w) (f (dn_instances w)) (dn_insts w) (dn_sent w).
Definition set_dn_insts (f : gmap nat dnstc_instance -> gmap nat dnstc_instance) (w : dns_world) : dns_world :=
  DWorld (dn_red w) (dn_fds w) (dn_instances w) (f (dn_insts w)) (dn_sent w).
Definition add_dn_sent (p : Z * sockaddr_in * list Z) (w : dns_world) : dns_world :=
  DWorld (dn_red w) (dn_fds w) (dn_instances w) (dn_insts w) (dn_sent w ++ [p]).

Definition dlift {A} (m : M A) : eff dns_world A :=
  fun w => match m (dn_red w) with Ret a r => Done a (set_dn_red r w) | Fault _ _ => Bad 0 end.

Definition dsys : eff dns_world Z := dlift RedWorld.sys.
Definition dsys_ev : eff dns_world Z := dlift RedWorld.sys_ev.

Definition responder (line : Z) (i : nat) : eff dns_world dnstc_instance :=
  w ← get_st;
  match dn_insts w !! i with Some x => mret x | None => bad line end.

Definition set_listener (line : Z) (i : nat) (e : event) : eff dns_world unit :=
  x ← responder line i;
  upd_st (set_dn_insts (insert i (Responder (dn_bindaddr x) e))).

Definition dsocket (i : nat) : eff dns_world Z :=
  fd ← dsys;
  w ← get_st;
  if (fd =? -1) || bool_decide (is_Some (dn_fds w !! fd)) then mret (-1)
  else upd_st (set_dn_fds (insert fd i)) ;; mret fd.

Definition dclose (line fd : Z) : eff dns_world unit :=
  w ← get_st;
  assert_at line (bool_decide (is_Some (dn_fds w !! fd))) ;;
  upd_st (set_dn_fds (delete fd)) ;;
  _ ← dsys;
  mret tt.

(** ** Packets *)

Definition sizeof_dns_header : nat := 12.

Definition DNS_QR : Z := 0x80.
Definition DNS_TC : Z := 0x02.
Definition DNS_Z : Z := 0x70.

(** A 16-bit field that is tested against zero. *)
Definition nonzero16 (buf : list Z) (at_ : nat) : bool := negb (nth at_ buf 0 =? 0) || negb (nth (S at_) buf 0 =? 0).

Definition is_query (buf : list Z) : bool :=
  (Z.land (nth 2 buf 0) DNS_QR =? 0) && (Z.land (nth 3 buf 0) DNS_Z =? 0) && nonzero16 buf 4 &&
  negb (nonzero16 buf 6) && negb (nonzero16 buf 8) && negb (nonzero16 buf 10).

Definition truncated_reply (buf : list Z) : list Z :=
  let b := nth 2 buf 0 in
  let b := Z.lor b DNS_QR in
  let b := Z.lor b DNS_TC in
  <[2%nat := b]> buf.

Definition dnstc_pkt_from_client (i : nat) (m : option message) : eff dns_world unit :=
  self ← responder 65 i;
  match red_recv_udp_pkt m 0xFFFF false with
  | None => mret tt
  | Some (buf, clientaddr, _) =>
      if Nat.leb (length buf) sizeof_dns_header then mret tt
      else if is_query buf then
        upd_st (add_dn_sent (ev_fd (dn_listener self), clientaddr, truncated_reply buf)) ;;
        _ ← dsys; (* sendto *)
        mret tt
      else mret tt
  end.

(** ** Start and shutdown *)

Definition dnstc_fini_instance (i : nat) : eff dns_world unit :=
  x ← responder 199 i;
  whenever (ev_init (dn_listener x))
    (r ← dsys_ev;
     set_listener 200 i (event_del_ok r (dn_listener x)) ;;
     dclose 202 (ev_fd (dn_listener x)) ;;
     set_listener 204 i event_blank) ;;
  upd_st (set_dn_instances (filter (fun k => k <> i))) ;;
  upd_st (set_dn_insts (delete i)).

Definition dnstc_init_instance (i : nat) : eff dns_world Z :=
  _ ← responder 148 i;
  fd ← dsocket i;
  if fd =? -1 then dnstc_fini_instance i ;; mret (-1)
  else
    let fail := dnstc_fini_instance i ;; dclose 188 fd ;; mret (-1) in
    error ← dsys; (* bind *)
    if negb (error =? 0) then fail
    else
      error ← dlift (fcntl_nonblock fd);
      if negb (error =? 0) then fail
      else
        set_listener 173 i (Event true fd false false) ;;
        error ← dsys_ev;
        set_listener 174 i (event_add_ok error (Event true fd false false)) ;;
        if negb (error =? 0) then fail else mret 0.

Definition dnstc_fini : eff dns_world unit :=
  w ← get_st;
  foldr (fun i k => dnstc_fini_instance i ;; k) (mret tt) (dn_instances w).

Fixpoint init_responders (l : list nat) : eff dns_world Z :=
  match l with
  | [] => mret 0
  | i :: l =>
      r ← dnstc_init_instance i;
      if negb (r =? 0) then dnstc_fini ;; mret (-1) else init_responders l
  end.

Definition dnstc_init : eff dns_world Z :=
  w ← get_st;
  init_responders (dn_instances w).

End Dnstc.

Import Dnstc RedUdp.

(** ** The invariant *)

Record dns_inv (w : dns_world) : Prop := DnsInv {
  dv_ev : w_evscript (dn_red w) = [];
  dv_nodup : NoDup (dn_instances w);
  dv_listed : forall i, i ∈ dn_instances w <-> is_Some (dn_insts w !! i);
  dv_listener : forall i x, dn_insts w !! i = Some x ->
    ev_added (dn_listener x) = ev_init (dn_listener x) /\
    (ev_init (dn_listener x) = true -> dn_fds w !! ev_fd (dn_listener x) = Some i);
  dv_owned : forall fd i, dn_fds w !! fd = Some i ->
    exists x, dn_insts w !! i = Some x /\ ev_init (dn_listener x) = true /\ ev_fd (dn_listener x) = fd;
}.

Lemma dns_inv_log w r s : dns_inv w -> w_evscript r = [] -> dns_inv (DWorld r (dn_fds w) (dn_instances w) (dn_insts w) s).
Proof. intros [] Hr. now split. Qed.

Local Ltac dns_tidy :=
  unfold set_dn_red, set_dn_fds, set_dn_instances, set_dn_insts, add_dn_sent in *; cbn [dn_red dn_fds dn_instances dn_insts dn_sent dn_bindaddr dn_listener] in *.

Section Prim.
Context `{BC : BaseConfig}.

Lemma eff_dlift {A} (m : M A) (Q : A -> dns_world -> Prop) w : wp safe m (fun a r => Q a (set_dn_red r w)) (dn_red w) -> runs (dlift m) Q w.
Proof. unfold wp, runs, dlift. now destruct (m (dn_red w)). Qed.

Lemma eff_dsys (Q : Z -> dns_world -> Prop) w :
  w_evscript (dn_red w) = [] -> (forall a r, w_evscript r = [] -> Q a (set_dn_red r w)) -> runs dsys Q w.
Proof. intros He HQ. apply eff_dlift, wp_sys_quiet. intros a r Hr. apply HQ. now apply (calm_ev _ _ _ Hr). Qed.

Lemma eff_dsys_ev (Q : Z -> dns_world -> Prop) w :
  w_evscript (dn_red w) = [] -> (forall r, w_evscript r = [] -> Q 0 (set_dn_red r w)) -> runs dsys_ev Q w.
Proof. intros He HQ. apply eff_dlift, wp_sys_ev_nil; [done|]. now apply HQ. Qed.

Lemma eff_responder line i x (Q : dnstc_instance -> dns_world -> Prop) w : dn_insts w !! i = Some x -> Q x w -> runs (responder line i) Q w.
Proof. intros E H. unfold responder. step_eff. step_eff. now rewrite E. Qed.

Lemma eff_set_listener line i x e (Q : unit -> dns_world -> Prop) w :
  dn_insts w !! i = Some x -> Q tt (set_dn_insts (insert i (Responder (dn_bindaddr x) e)) w) -> runs (set_listener line i e) Q w.
Proof. intros E H. unfold set_listener. step_eff. apply (eff_responder _ _ _ _ _ E). now step_eff. Qed.

Lemma eff_dclose line fd i (Q : unit -> dns_world -> Prop) w :
  w_evscript (dn_red w) = [] -> dn_fds w !! fd = Some i ->
  (forall r, w_evscript r = [] -> Q tt (set_dn_red r (set_dn_fds (delete fd) w))) -> runs (dclose line fd) Q w.
Proof.
  intros He Ho HQ. unfold dclose. step_eff. step_eff. step_eff. apply eff_assert; [apply bool_decide_true; now rewrite Ho|].
  step_eff. step_eff. step_eff. apply eff_dsys; [done|]. intros a r Hr. now apply eff_ret, HQ.
Qed.

(** ** Shutdown *)

(** An instance goes, with its descriptor. *)
Lemma dns_inv_drop w i x r s :
  dns_inv w -> dn_insts w !! i = Some x -> w_evscript r = [] ->
  dns_inv (DWorld r (if ev_init (dn_listener x) then delete (ev_fd (dn_listener x)) (dn_fds w) else dn_fds w)
    (filter (fun k => k <> i) (dn_instances w)) (delete i (dn_insts w)) s).
Proof.
  intros [H1 H2 H3 H4 H5] Hx Hr. set (F := if ev_init (dn_listener x) then _ else _).
  assert (HF : forall fd j, F !! fd = Some j <-> dn_fds w !! fd = Some j /\ j <> i).
  { intros fd j. subst F. destruct (H4 i x Hx) as [_ Ho]. split.
    - intros E. assert (E' : dn_fds w !! fd = Some j) by (destruct (ev_init (dn_listener x)); [now apply lookup_delete_Some in E as [_ E]|done]).
      split; [done|]. intros ->. destruct (H5 _ _ E') as (y & Hy & Ey & Ef). rewrite Hx in Hy. injection Hy as <-. rewrite Ey, Ef in E.
      now rewrite lookup_delete_eq in E.
    - intros [E Hne]. destruct (ev_init (dn_listener x)); [|done]. specialize (Ho eq_refl). rewrite lookup_delete_ne; [done|]. congruence. }
  split; cbn; try done.
  - now apply NoDup_filter.
  - intros j. rewrite list_elem_of_filter, H3, lookup_delete_is_Some. naive_solver.
  - intros j y [Hj Hy]%lookup_delete_Some. destruct (H4 j y Hy) as [E Ho]. split; [done|]. intros Hi. apply HF. auto.
  - intros fd j [E Hj]%HF. destruct (H5 fd j E) as (y & Hy & Ey). exists y. split; [|done]. now rewrite lookup_delete_ne.
Qed.

Lemma dns_fini_instance_ok w i x (Q : unit -> dns_world -> Prop) :
  dns_inv w -> dn_insts w !! i = Some x ->
  (forall w', dns_inv w' -> dn_instances w' = filter (fun k => k <> i) (dn_instances w) -> Q tt w') -> runs (dnstc_fini_instance i) Q w.
Proof.
  intros Hi Hx HQ. unfold dnstc_fini_instance. pose proof (dns_inv_drop w i x) as Hd. destruct w as [r0 F L I S]; dns_tidy.
  step_eff. eapply eff_responder; [exact Hx|]. step_eff. apply eff_whenever; intros Ei; rewrite Ei in Hd.
  - step_eff. apply eff_dsys_ev; [apply Hi|]. intros r1 Hr1. step_eff. eapply eff_set_listener; [exact Hx|]. step_eff. dns_tidy.
    eapply eff_dclose; [done|now apply (dv_listener _ Hi i x Hx)|]. intros r2 Hr2. eapply eff_set_listener; [apply lookup_insert_eq|].
    step_eff. step_eff. step_eff. apply HQ; [|done]. dns_tidy. rewrite !delete_insert_eq. now apply Hd.
  - step_eff. step_eff. step_eff. apply HQ; [|done]. apply (Hd r0 S Hi Hx), Hi.
Qed.

Lemma dns_fini_ok l : forall w (Q : unit -> dns_world -> Prop),
  dns_inv w -> dn_instances w = l -> (forall w', dns_inv w' -> dn_instances w' = [] -> Q tt w') ->
  runs (foldr (fun i k => dnstc_fini_instance i ;; k) (mret tt) l) Q w.
Proof.
  induction l as [|i l IH]; intros w Q Hi El HQ; cbn [foldr]; [now apply eff_ret, HQ|].
  destruct (proj1 (dv_listed _ Hi i)) as [x Hx]; [rewrite El; left|]. pose proof (dv_nodup _ Hi) as Hnd.
  rewrite El in Hnd. apply NoDup_cons in Hnd as [Hni Hnd]. step_eff. apply (dns_fini_instance_ok w i x); [done|done|]. intros w1 Hi1 E1.
  apply IH; [done| |done]. rewrite E1, El. cbn. rewrite decide_False by auto. now apply filter_absent.
Qed.

Lemma no_responders w : dns_inv w -> dn_instances w = [] -> dn_insts w = ∅ /\ dn_fds w = ∅.
Proof.
  intros [H1 H2 H3 H4 H5] El. assert (EI : dn_insts w = ∅) by (apply map_empty; intros i; apply eq_None_not_Some; rewrite <- H3, El; apply not_elem_of_nil).
  split; [done|]. apply map_empty. intros fd. destruct (dn_fds w !! fd) as [i|] eqn:E; [|done]. destruct (H5 fd i E) as (x & Hx & _). now rewrite EI in Hx.
Qed.

(** ** Start *)

Lemma dns_inv_arm w i x fd r s :
  dns_inv w -> dn_insts w !! i = Some x -> ev_init (dn_listener x) = false -> dn_fds w !! fd = None -> w_evscript r = [] ->
  dns_inv (DWorld r (<[fd := i]> (dn_fds w)) (dn_instances w) (<[i := Responder (dn_bindaddr x) (Event true fd true false)]> (dn_insts w)) s).
Proof.
  intros [H1 H2 H3 H4 H5] Hx Hn Hfresh Hr. split; cbn; try done.
  - intros j. rewrite H3, lookup_insert_is_Some'. naive_solver.
  - intros j y [[<- <-]|[Hj Hy]]%lookup_insert_Some; [split; [done|]; intros _; apply lookup_insert_eq|].
    destruct (H4 j y Hy) as [E Ho]. split; [done|]. intros Hi. rewrite lookup_insert_ne; [auto|]. intros E'. rewrite E', Ho in Hfresh; done.
  - intros k j [[<- <-]|[Hk Ho]]%lookup_insert_Some; [eexists; rewrite lookup_insert_eq; eauto|].
    destruct (H5 k j Ho) as (y & Hy & Ey & Ef). exists y. split; [|done]. rewrite lookup_insert_ne; [done|]. intros <-. congruence.
Qed.

Definition silent (x : dnstc_instance) : Prop := dn_listener x = event_blank.
Definition answering (w : dns_world) (i : nat) : Prop := exists x, dn_insts w !! i = Some x /\ ev_added (dn_listener x) = true.

Lemma dns_init_instance_ok w i x (Q : Z -> dns_world -> Prop) :
  dns_inv w -> dn_insts w !! i = Some x -> silent x ->
  (forall w', dns_inv w' -> Q (-1) w') ->
  (forall w' fd, dns_inv w' -> dn_instances w' = dn_instances w ->
     dn_insts w' = <[i := Responder (dn_bindaddr x) (Event true fd true false)]> (dn_insts w) -> Q 0 w') ->
  runs (dnstc_init_instance i) Q w.
Proof.
  intros Hi Hx Hs HN HS. unfold dnstc_init_instance, dsocket. pose proof (dns_inv_drop w i x) as Hd. rewrite Hs in Hd. cbn [ev_init event_blank] in Hd.
  pose proof (dns_inv_arm w i x) as Ha. rewrite Hs in Ha. pose proof (dv_ev _ Hi) as Hev. pose proof (dns_fini_instance_ok w i x) as Hfini.
  step_eff. eapply eff_responder; [exact Hx|]. step_eff. step_eff. apply eff_dsys; [done|]. intros fd r Hr. step_eff. step_eff.
  assert (Hnone : forall r, w_evscript r = [] -> runs (dnstc_fini_instance i ;; mret (-1)) Q (set_dn_red r w)).
  { intros r' Hr'. step_eff. apply (dns_fini_instance_ok _ i x); [now apply dns_inv_log|done|]. intros w' Hw' _. now apply eff_ret, HN. }
  destruct ((fd =? -1) || _) eqn:Efd; [now apply eff_ret, Hnone|]. apply orb_false_iff in Efd as [Efd Efresh].
  apply bool_decide_eq_false in Efresh. apply eq_None_not_Some in Efresh. cbn in Efresh. step_eff. step_eff. step_eff. rewrite Efd. cbv zeta.
  assert (Hfail : forall r, w_evscript r = [] -> runs (dnstc_fini_instance i ;; dclose 188 fd ;; mret (-1)) Q (set_dn_red r (set_dn_fds (insert fd i) w))).
  { intros r' Hr'. unfold dnstc_fini_instance. step_eff. step_eff. eapply eff_responder; [exact Hx|]. rewrite Hs. cbn [ev_init event_blank whenever].
    step_eff. step_eff. step_eff. step_eff. step_eff. step_eff. eapply eff_dclose; [done|apply lookup_insert_eq|]. intros r2 Hr2. apply eff_ret, HN.
    dns_tidy. rewrite delete_insert_id by done. now apply Hd. }
  step_eff. apply eff_dsys; [done|]. intros e1 r1 Hr1. destruct (negb (e1 =? 0)); [now apply Hfail|].
  step_eff. apply eff_dlift, fcntl_quiet. intros e2 l r2 Hr2. apply (calm_ev _ _ _ Hr2) in Hr1. destruct (negb (e2 =? 0)); [now apply Hfail|].
  step_eff. eapply eff_set_listener; [exact Hx|]. step_eff. apply eff_dsys_ev; [done|]. intros r3 Hr3. step_eff.
  eapply eff_set_listener; [apply lookup_insert_eq|]. dns_tidy. rewrite insert_insert_eq. cbn [Z.eqb negb event_add_ok with_ev_added ev_init ev_fd ev_active]. apply eff_ret, (HS _ fd); [now apply Ha|done|done].
Qed.

Lemma init_responders_ok l : forall w (Q : Z -> dns_world -> Prop),
  dns_inv w -> NoDup l -> (forall i, i ∈ l -> exists x, dn_insts w !! i = Some x /\ silent x) ->
  (forall w', dns_inv w' -> dn_instances w' = [] -> Q (-1) w') ->
  (forall w', dns_inv w' -> dn_instances w' = dn_instances w -> (forall i, i ∈ l \/ answering w i -> answering w' i) -> Q 0 w') ->
  runs (init_responders l) Q w.
Proof.
  induction l as [|i l IH]; intros w Q Hi Hnd Hl HN HS; cbn [init_responders].
  - apply eff_ret, HS; [done|done|]. intros i [Hin|Ha]; [now apply elem_of_nil in Hin|done].
  - apply NoDup_cons in Hnd as [Hni Hnd]. destruct (Hl i) as (x & Hx & Hs); [left|]. step_eff. apply (dns_init_instance_ok w i x); [done..| |].
    + intros w' Hi'. cbn [Z.eqb negb]. unfold dnstc_fini. step_eff. step_eff. step_eff. apply dns_fini_ok; [done|done|].
      intros w2 Hi2 E2. now apply eff_ret, HN.
    + intros w' fd Hi' EI E. cbn [Z.eqb negb]. apply IH; [done|done| |done|].
      * intros j Hj. destruct (Hl j) as (z & Hz & Hzs); [now right|]. exists z. split; [|done]. rewrite E, lookup_insert_ne; [done|]. now intros ->.
      * intros w2 Hi2 E2 Ha. apply HS; [done|congruence|]. intros j Hj. apply Ha.
        assert (Hi1 : answering w' i) by (eexists; rewrite E, lookup_insert_eq; done).
        destruct (decide (j = i)) as [->|Hne]; [now right|]. destruct Hj as [[->|Hj]%elem_of_cons|(z & Hz & Hz')]; [done|now left|].
        right. exists z. split; [|done]. rewrite E, lookup_insert_ne; done.
Qed.

End Prim.

(** ** Queries and replies *)

(** The header of a DNS message (RFC 1035, section 4.1.1) and what follows it. *)
Record dns_message := DnsMessage {
  dns_id : Z;
  dns_qr : bool;
  dns_opcode : Z;
  dns_aa : bool;
  dns_tc : bool;
  dns_rd : bool;
  dns_ra : bool;
  dns_z : Z;
  dns_rcode : Z;
  dns_counts : Z * Z * Z * Z;
  dns_body : list Z;
}.

Definition dns_read (l : list Z) : option dns_message :=
  match l with
  | i1 :: i2 :: f :: g :: q1 :: q2 :: a1 :: a2 :: n1 :: n2 :: r1 :: r2 :: body =>
      Some (DnsMessage (of_be [i1; i2]) (Z.testbit f 7) (Z.land (Z.shiftr f 3) 15) (Z.testbit f 2) (Z.testbit f 1) (Z.testbit f 0)
        (Z.testbit g 7) (Z.land (Z.shiftr g 4) 7) (Z.land g 15) (of_be [q1; q2], of_be [a1; a2], of_be [n1; n2], of_be [r1; r2]) body)
  | _ => None
  end.

Lemma dns_read_length l q : dns_read l = Some q -> length l = (12 + length (dns_body q))%nat.
Proof. do 12 (destruct l as [|? l]; [done|]). now intros [= <-]. Qed.

(** A question without answers, with the reserved bits clear. *)
Definition asks (q : dns_message) : Prop :=
  dns_qr q = false /\ dns_z q = 0 /\ dns_body q <> [] /\ exists n, 0 < n /\ dns_counts q = (n, 0, 0, 0).

(** The same message as a truncated response. *)
Definition truncated (q : dns_message) : dns_message :=
  DnsMessage (dns_id q) true (dns_opcode q) (dns_aa q) true (dns_rd q) (dns_ra q) (dns_z q) (dns_rcode q) (dns_counts q) (dns_body q).

(** A property of bytes, checked on all of them. *)
Lemma every_byte (P : Z -> bool) z : forallb P (map Z.of_nat (seq 0 256)) = true -> is_byte z -> P z = true.
Proof.
  rewrite forallb_forall. intros H Hz. apply H, in_map_iff. exists (Z.to_nat z). unfold is_byte in Hz. split; [lia|]. apply in_seq. lia.
Qed.

(** The two masks of the code read the flag and the reserved bits. *)
Lemma qr_mask f : is_byte f -> (Z.land f DNS_QR =? 0) = negb (Z.testbit f 7).
Proof. intros Hf. apply eqb_prop, (every_byte (fun f => eqb (Z.land f DNS_QR =? 0) (negb (Z.testbit f 7)))); [vm_compute; reflexivity|done]. Qed.

Lemma z_mask g : is_byte g -> (Z.land g DNS_Z =? 0) = (Z.land (Z.shiftr g 4) 7 =? 0).
Proof. intros Hg. apply eqb_prop, (every_byte (fun g => eqb (Z.land g DNS_Z =? 0) (Z.land (Z.shiftr g 4) 7 =? 0))); [vm_compute; reflexivity|done]. Qed.

(** The flags after the two bits are set. *)
Lemma flags_set f :
  let f' := Z.lor (Z.lor f DNS_QR) DNS_TC in
  is_byte f ->
  is_byte f' /\ Z.testbit f' 7 = true /\ Z.land (Z.shiftr f' 3) 15 = Z.land (Z.shiftr f 3) 15 /\ Z.testbit f' 2 = Z.testbit f 2 /\
  Z.testbit f' 1 = true /\ Z.testbit f' 0 = Z.testbit f 0.
Proof.
  intros f' Hf. pose proof (every_byte (fun f => let f' := Z.lor (Z.lor f DNS_QR) DNS_TC in
    (0 <=? f') && (f' <? 256) && Z.testbit f' 7 && (Z.land (Z.shiftr f' 3) 15 =? Z.land (Z.shiftr f 3) 15) &&
    eqb (Z.testbit f' 2) (Z.testbit f 2) && Z.testbit f' 1 && eqb (Z.testbit f' 0) (Z.testbit f 0)) f ltac:(vm_compute; reflexivity) Hf) as H.
  cbv zeta in H. fold f' in H. rewrite !andb_true_iff, !eqb_true_iff, Z.leb_le, Z.ltb_lt, Z.eqb_eq in H. unfold is_byte. tauto.
Qed.

Lemma counted a b : is_byte a -> is_byte b -> negb (a =? 0) || negb (b =? 0) = negb (of_be [a; b] =? 0).
Proof. unfold is_byte, of_be. cbn [foldl]. intros. lia. Qed.

(** What the code takes for a query is one, and the reply is the query as a truncated response. *)
Lemma is_query_asks l : bytes l -> (sizeof_dns_header < length l)%nat ->
  exists q, dns_read l = Some q /\ (is_query l = true <-> asks q) /\ dns_read (truncated_reply l) = Some (truncated q) /\
    length (truncated_reply l) = length l /\ bytes (truncated_reply l).
Proof.
  unfold sizeof_dns_header. intros Hb Hl. do 12 (destruct l as [|? l]; [cbn in Hl; lia|]). unfold bytes in Hb. rewrite !Forall_cons in Hb.
  destruct Hb as (B1 & B2 & B3 & B4 & B5 & B6 & B7 & B8 & B9 & B10 & B11 & B12 & Hb). eexists. split; [reflexivity|].
  assert (Hbody : l <> []) by (intros ->; cbn in Hl; lia). destruct (flags_set _ B3) as (F1 & F2 & F3 & F4 & F5 & F6). split; [|split; [|split]].
  - unfold is_query, nonzero16. cbn [nth]. rewrite qr_mask, z_mask, !counted by done. unfold asks. cbn [dns_qr dns_z dns_body dns_counts].
    rewrite !andb_true_iff, !negb_true_iff, !negb_false_iff, !Z.eqb_eq, Z.eqb_neq. split.
    + intros (((((H1 & H2) & H3) & H4) & H5) & H6). rewrite H4, H5, H6. do 3 (split; [done|]). eexists. split; [|reflexivity].
      unfold is_byte, of_be in *. cbn [foldl] in *. lia.
    + intros (H1 & H2 & _ & n & Hn & [= -> -> -> ->]). repeat split; try done. lia.
  - unfold truncated_reply, truncated. cbn -[Z.lor Z.testbit Z.land Z.shiftr of_be DNS_QR DNS_TC].
    now rewrite F2, F3, F4, F5, F6.
  - apply length_insert.
  - apply Forall_insert; [rewrite !Forall_cons; tauto|exact F1].
Qed.

(** ** The theorem *)

Definition dn_with_script (s : list Z) (w : dns_world) : dns_world := set_dn_red (with_w_script (fun _ => s) (dn_red w)) w.

(** The state the configuration leaves. *)
Record dns_configured (w : dns_world) : Prop := DnsConfigured {
  dc_ev : w_evscript (dn_red w) = [];
  dc_nodup : NoDup (dn_instances w);
  dc_listed : forall i, i ∈ dn_instances w <-> is_Some (dn_insts w !! i);
  dc_silent : forall i x, dn_insts w !! i = Some x -> silent x;
  dc_fds : dn_fds w = ∅;
}.

Section Theorems.
Context `{BC : BaseConfig}.

Lemma dns_configured_inv w : dns_configured w -> dns_inv w.
Proof.
  intros [H1 H2 H3 H4 H5]. split; auto.
  - intros i x Hx. now rewrite (H4 i x Hx).
  - intros fd i. now rewrite H5, lookup_empty.
Qed.

Lemma dns_init_ok w : dns_configured w ->
  runs dnstc_init (fun a w' => dns_inv w' /\ (a = -1 /\ dn_instances w' = [] \/ a = 0 /\ forall i, i ∈ dn_instances w -> answering w' i)) w.
Proof.
  intros Hc. unfold dnstc_init. step_eff. step_eff. apply init_responders_ok; [now apply dns_configured_inv|apply Hc| | |].
  - intros i Hi. apply Hc in Hi as [x Hx]. exists x. split; [done|]. now apply (dc_silent w Hc i x).
  - intros w' Hi E. split; [done|]. now left.
  - intros w' Hi E Ha. split; [done|]. right. split; [done|]. auto.
Qed.

(** What a packet that arrives does: a complete query is answered, anything else is ignored. *)
Definition answer (m : option message) : option (sockaddr_in * list Z) :=
  match m with
  | Some m =>
      let l := m_data m in
      if (Z.of_nat (length l) <? 65535) && (12 <? length l)%nat && is_query l then Some (m_from m, truncated_reply l) else None
  | None => None
  end.

Lemma dns_packet_ok w i x m :
  dns_inv w -> dn_insts w !! i = Some x ->
  runs (dnstc_pkt_from_client i m) (fun _ w' => dns_inv w' /\ dn_insts w' = dn_insts w /\ dn_fds w' = dn_fds w /\
    dn_sent w' = dn_sent w ++ match answer m with Some (to, l) => [(ev_fd (dn_listener x), to, l)] | None => [] end) w.
Proof.
  intros Hi Hx. unfold dnstc_pkt_from_client. step_eff. eapply eff_responder; [exact Hx|].
  assert (Hnone : runs (mret tt) (fun _ w' => dns_inv w' /\ dn_insts w' = dn_insts w /\ dn_fds w' = dn_fds w /\ dn_sent w' = dn_sent w ++ []) w)
    by (apply eff_ret; now rewrite app_nil_r).
  destruct m as [msg|]; [|exact Hnone]. unfold red_recv_udp_pkt, answer. cbn [andb].
  destruct (Z.ltb_spec (Z.of_nat (length (m_data msg))) 65535) as [Hl|Hl]; cbn [andb].
  - rewrite take_ge by lia. destruct (Z.geb_spec (Z.of_nat (length (m_data msg))) 0xFFFF) as [|_]; [lia|]. unfold sizeof_dns_header.
    destruct (Nat.ltb_spec 12 (length (m_data msg))) as [Hl2|Hl2]; cbn [andb].
    + rewrite (proj2 (Nat.leb_gt _ _) Hl2). destruct (is_query (m_data msg)); [|exact Hnone].
      step_eff. step_eff. step_eff. apply eff_dsys; [apply Hi|]. intros a r Hr. apply eff_ret. split; [|done]. exact (dns_inv_log w r _ Hi Hr).
    + rewrite (proj2 (Nat.leb_le _ _) Hl2). exact Hnone.
  - rewrite length_take. destruct (Z.geb_spec (Z.of_nat (Z.to_nat 0xFFFF `min` length (m_data msg))) 0xFFFF); [|lia]. exact Hnone.
Qed.

(** The states of a run. *)
Inductive dns_reaches : dns_world -> Prop :=
  | dns_start w0 w : dns_configured w0 -> dnstc_init w0 = Done 0 w -> dns_reaches w
  | dns_step w i m s w' :
      dns_reaches w -> answering w i -> dnstc_pkt_from_client i m (dn_with_script s w) = Done tt w' -> dns_reaches w'.

Lemma dns_reaches_inv w : dns_reaches w -> dns_inv w.
Proof.
  induction 1 as [w0 w Hc E|w i m s w' _ IH (x & Hx & _) E]; [exact (proj1 (eff_at _ _ _ _ _ (dns_init_ok w0 Hc) E))|].
  refine (proj1 (eff_at _ _ _ _ _ (dns_packet_ok (dn_with_script s w) i x m _ Hx) E)). apply dns_inv_log; [done|apply IH].
Qed.

(** C19. The DNS responder: a packet is always handled to its end. It is answered exactly when it is shorter than
    65535 bytes and is a question in the sense of RFC 1035 (not a response, reserved bits clear, at least
    one question, no records, something after the header); the answer goes to the sender, from the listener, has the same
    length and reads as the same message with the response and truncation flags set. Starting ends
    with every instance listening, or with -1 and nothing left; shutting down leaves no descriptor open. *)
Theorem dnstc_answers :
  (forall w i x msg s, dns_reaches w -> dn_insts w !! i = Some x -> bytes (m_data msg) ->
     exists w', dnstc_pkt_from_client i (Some msg) (dn_with_script s w) = Done tt w' /\
       ((exists q reply, dns_read (m_data msg) = Some q /\ asks q /\ Z.of_nat (length (m_data msg)) < 65535 /\
           dns_read reply = Some (truncated q) /\ length reply = length (m_data msg) /\ bytes reply /\
           dn_sent w' = dn_sent w ++ [(ev_fd (dn_listener x), m_from msg, reply)]) \/
        (dn_sent w' = dn_sent w /\ forall q, dns_read (m_data msg) = Some q -> asks q -> 65535 <= Z.of_nat (length (m_data msg))))) /\
  (forall w0, dns_configured w0 -> exists a w, dnstc_init w0 = Done a w /\
     (a = 0 /\ (forall i, i ∈ dn_instances w0 -> answering w i) \/ a = -1 /\ dn_instances w = [] /\ dn_insts w = ∅ /\ dn_fds w = ∅)) /\
  (forall w s, dns_reaches w -> exists w', dnstc_fini (dn_with_script s w) = Done tt w' /\
     dn_instances w' = [] /\ dn_insts w' = ∅ /\ dn_fds w' = ∅).
Proof.
  split; [|split].
  - intros w i x msg s Hw Hx Hb. pose proof (dns_reaches_inv w Hw) as Hi.
    assert (Hi' : dns_inv (dn_with_script s w)) by (apply dns_inv_log; [done|apply Hi]).
    destruct (eff_done _ _ _ (dns_packet_ok (dn_with_script s w) i x (Some msg) Hi' Hx)) as ([] & w' & E & _ & _ & _ & Hs).
    exists w'. split; [done|]. unfold answer in Hs. destruct (Nat.ltb_spec 12 (length (m_data msg))) as [Hl|Hl].
    + destruct (is_query_asks _ Hb Hl) as (q & Hq & Hask & Hr & Hlen & Hbr). destruct (Z.ltb_spec (Z.of_nat (length (m_data msg))) 65535) as [Hl2|Hl2]; cbn [andb] in Hs.
      * destruct (is_query (m_data msg)) eqn:Eq; [left; exists q, (truncated_reply (m_data msg)); repeat split; try done; now apply Hask|].
        right. rewrite app_nil_r in Hs. split; [done|]. intros q' Hq' Ha. rewrite Hq in Hq'. injection Hq' as <-. now apply Hask in Ha.
      * right. now rewrite app_nil_r in Hs.
    + right. rewrite andb_false_r in Hs. cbn [andb] in Hs. rewrite app_nil_r in Hs. split; [done|]. intros q Hq (_ & _ & Hbody & _).
      pose proof (dns_read_length _ _ Hq) as E2. destruct (dns_body q); [done|]. cbn in E2. lia.
  - intros w0 Hc. destruct (eff_done _ _ _ (dns_init_ok w0 Hc)) as (a & w & E & Hi & H). exists a, w. split; [done|].
    destruct H as [[-> El]|[-> Ha]]; [right|now left]. split; [done|]. split; [done|]. now apply no_responders.
  - intros w s Hw. pose proof (dns_reaches_inv w Hw) as Hi.
    assert (H : runs dnstc_fini (fun _ w' => dns_inv w' /\ dn_instances w' = []) (dn_with_script s w)).
    { unfold dnstc_fini. step_eff. step_eff. apply dns_fini_ok; [|done|done]. apply dns_inv_log; [done|apply Hi]. }
    destruct (eff_done _ _ _ H) as ([] & w' & E & Hi' & El). exists w'. split; [done|]. split; [done|]. now apply no_responders.
Qed.

End Theorems.

(** A responder on port 5300 and a question with recursion desired. *)
Definition dns_demo_base : BaseConfig := Build_BaseConfig 100 7440 60000 0 0 0.
Definition dns_demo_start : dns_world :=
  DWorld (World [7] [] [] ∅ ∅ 0 0 0 None []) ∅ [0%nat] {[ 0%nat := Responder (SockAddr AF_INET 5300 0x7f000001) event_blank ]} [].
Definition dns_demo : dns_world := match @dnstc_init dns_demo_start with Done _ w => w | Bad _ => dns_demo_start end.
Definition dns_demo_query : message := Message (SockAddr AF_INET 5000 0x0a000002) [] [18; 52; 1; 0; 0; 1; 0; 0; 0; 0; 0; 0; 1; 97; 0; 0; 1; 0; 1].

Lemma dns_demo_configured : dns_configured dns_demo_start.
Proof.
  split; unfold dns_demo_start; cbn [dn_red dn_instances dn_insts dn_fds]; try done.
  - apply NoDup_singleton.
  - intros i. rewrite list_elem_of_singleton, lookup_singleton_is_Some. naive_solver.
  - intros i x. rewrite lookup_singleton_Some. intros [_ <-]. done.
Defined.

Lemma dnstc_answers_witness :
  exists w', dnstc_pkt_from_client 0 (Some dns_demo_query) (dn_with_script [] dns_demo) = Done tt w' /\
    dn_sent w' = [(7, SockAddr AF_INET 5000 0x0a000002, [18; 52; 131; 0; 0; 1; 0; 0; 0; 0; 0; 0; 1; 97; 0; 0; 1; 0; 1])].
Proof.
  destruct (proj1 (@dnstc_answers dns_demo_base) dns_demo 0%nat (Responder (SockAddr AF_INET 5300 0x7f000001) (Event true 7 true false)) dns_demo_query [])
    as (w' & E & _).
  - apply (dns_start dns_demo_start); [exact dns_demo_configured|]. vm_compute. reflexivity.
  - vm_compute. reflexivity.
  - repeat (apply Forall_cons; split; [unfold is_byte; lia|]). apply Forall_nil. trivial.
  - exists w'. split; [exact E|]. vm_compute in E. injection E as <-. reflexivity.
Defined.
