(* ===== verification/RedApp.v ===== *)
(** * Starting and stopping redsocks ([redsocks/main.c])

    [main] reads the options and the configuration, initialises the subsystems one after the other, runs the event loop and
    shuts down the subsystems that were initialised, in the reverse order. The subsystems are entries of an array with optional
    functions; what they promise to [main] is the class [Subsystem], and the theorem about [main] is proved against it. *)

From S2P Require Import Prelude Effect RedWorld RedCore RedLogic RedUdp Dnstc.

Open Scope Z_scope.
Close Scope red_scope.

Module RedApp.

(** ** Options *)

Definition EXIT_SUCCESS : Z := 0.
Definition EXIT_FAILURE : Z := 1.

Record settings := Settings { conftest : bool; confname : list Z; pidfile : option (list Z) }.

Definition default_settings : settings := Settings false (B# "redsocks.conf") None.

(** What [getopt] returns, one after the other: a character, 63 for an option it does not know, and the argument. The settings, or the exit code. *)
Fixpoint read_options (opts : list (Z * list Z)) (o : settings) : settings + Z :=
  match opts with
  | [] => inl o
  | (opt, optarg) :: opts =>
      if opt =? 116 then read_options opts (Settings true (confname o) (pidfile o))
      else if opt =? 99 then read_options opts (Settings (conftest o) optarg (pidfile o))
      else if opt =? 112 then read_options opts (Settings (conftest o) (confname o) (Some optarg))
      else if opt =? 118 then inr EXIT_SUCCESS
      else inr (if (opt =? 63) || (opt =? 104) then EXIT_SUCCESS else EXIT_FAILURE)
  end.

(** ** Subsystems *)

Section App.
Context {W T : Type}.

(** [struct app_subsys]; a function or a section that is missing is a null pointer. *)
Record app_subsys := AppSubsys {
  init : option (eff W Z);
  fini : option (eff W unit);
  conf_section : option T;
}.

(** What the calls of the system and of libevent return. *)
Record environment := Env {
  struct_event_size_ok : bool;
  config_opens : list Z -> bool;
  parser_starts : bool;
  pidfile_opens : list Z -> bool;
  signal_add : nat -> Z;
}.

Context (env : environment) (parser_run : list T -> eff W Z) (event_dispatch : eff W unit).

(** The loop over the array; [before] are the subsystems before [ss], the nearest first. *)
Fixpoint init_subsystems (before ss : list app_subsys) : eff W (Z * list app_subsys) :=
  match ss with
  | [] => mret (0, before)
  | x :: ss =>
      match init x with
      | None => init_subsystems (x :: before) ss
      | Some f =>
          error ← f;
          if negb (error =? 0) then mret (error, before) else init_subsystems (x :: before) ss
      end
  end.

Fixpoint fini_subsystems (before : list app_subsys) : eff W unit :=
  match before with
  | [] => mret tt
  | x :: before =>
      match fini x with Some f => f | None => mret tt end ;;
      fini_subsystems before
  end.

(** Whether both signals were added. *)
Fixpoint add_signals (i n : nat) : bool :=
  match n with
  | O => true
  | S n => if negb (signal_add env i =? 0) then false else add_signals (S i) n
  end.

(** From [shutdown] on. The events of the signals are removed, with errors ignored. *)
Definition shutdown (error : Z) (before : list app_subsys) : eff W Z :=
  fini_subsystems before ;;
  mret (if error =? 0 then EXIT_SUCCESS else EXIT_FAILURE).

Definition main (subsystems : list app_subsys) (opts : list (Z * list Z)) : eff W Z :=
  match read_options opts default_settings with
  | inr code => mret code
  | inl o =>
      if negb (struct_event_size_ok env) then mret EXIT_FAILURE
      else if negb (config_opens env (confname o)) then mret EXIT_FAILURE
      else if negb (parser_starts env) then mret EXIT_FAILURE
      else
        error ← parser_run (omap conf_section subsystems);
        if negb (error =? 0) then mret EXIT_FAILURE
        else if conftest o then mret EXIT_SUCCESS
        else
          '(error, before) ← init_subsystems [] subsystems;
          if negb (error =? 0) then shutdown error before
          else if match pidfile o with Some f => negb (pidfile_opens env f) | None => false end then mret EXIT_FAILURE
          else if negb (add_signals 0 2) then shutdown error before
          else
            event_dispatch ;;
            shutdown error before
  end.

End App.

Arguments app_subsys : clear implicits.

(** ** What a subsystem promises *)

(** [up n w]: the first [n] subsystems are initialised in [w]. The [k]-th one is initialised or leaves nothing behind, and can be shut
    down when it is the newest. *)
Class Subsystem {W T : Type} (up : nat -> W -> Prop) (k : nat) (x : app_subsys W T) := {
  subsystem_init w : up k w ->
    match init x with Some f => runs f (fun error => up (if error =? 0 then S k else k)) w | None => up (S k) w end;
  subsystem_fini w : up (S k) w -> match fini x with Some f => runs f (fun _ => up k) w | None => up k w end;
}.

End RedApp.

Import RedApp.

Section Start.
Context {W T : Type} (env : environment) (parser_run : list T -> eff W Z) (event_dispatch : eff W unit) (up : nat -> W -> Prop).

(** The subsystems [xs] from number [k] on keep their promises. *)
Definition promised (k : nat) (xs : list (app_subsys W T)) : Prop := forall i x, xs !! i = Some x -> Subsystem up (k + i)%nat x.

Lemma promised_cons k x xs : promised k (x :: xs) -> Subsystem up k x /\ promised (S k) xs.
Proof.
  intros H. split; [rewrite <- (Nat.add_0_r k); now apply (H 0%nat)|]. intros i y Hy.
  replace (S k + i)%nat with (k + S i)%nat by lia. now apply (H (S i)).
Qed.

(** The subsystems that were initialised, each with its number. *)
Fixpoint stack_ok (before : list (app_subsys W T)) : Prop :=
  match before with [] => True | x :: before => Subsystem up (length before) x /\ stack_ok before end.

Definition init_post (n : nat) (r : Z * list (app_subsys W T)) (w : W) : Prop := stack_ok r.2 /\ up (length r.2) w /\ (r.1 = 0 -> length r.2 = n).

Lemma subsystems_init_ok xs : forall before w,
  promised (length before) xs -> stack_ok before -> up (length before) w ->
  runs (init_subsystems before xs) (init_post (length before + length xs)) w.
Proof.
  induction xs as [|x xs IH]; intros before w Hp Hs Hu; cbn [init_subsystems length].
  - apply eff_ret. unfold init_post. cbn [fst snd]. rewrite Nat.add_0_r. done.
  - apply promised_cons in Hp as [Hx Hp]. pose proof (subsystem_init _ Hu) as Hi.
    assert (Hnext : forall w', up (S (length before)) w' -> runs (init_subsystems (x :: before) xs) (init_post (length before + S (length xs))) w').
    { intros w' Hw. rewrite <- Nat.add_succ_comm. apply (IH (x :: before)); [exact Hp|now split|exact Hw]. }
    destruct (init x) as [f|]; [|now apply Hnext]. apply eff_bind. eapply eff_mono; [exact Hi|]. intros error w' Hw. cbv beta in Hw.
    destruct (Z.eqb_spec error 0) as [->|Hne]; cbn [negb]; [now apply Hnext|]. apply eff_ret. split; [done|]. split; [exact Hw|]. cbn [fst]. done.
Qed.

Lemma subsystems_fini_ok before : forall w, stack_ok before -> up (length before) w -> runs (fini_subsystems before) (fun _ => up 0%nat) w.
Proof.
  induction before as [|x before IH]; intros w Hs Hu; cbn [fini_subsystems]; [now apply eff_ret|]. destruct Hs as [Hx Hs].
  pose proof (subsystem_fini _ Hu) as Hf. apply eff_bind. destruct (fini x) as [f|]; [eapply eff_mono; [exact Hf|]; intros u w' Hw|apply eff_ret]; now apply IH.
Qed.

(** The parser and the event loop leave the subsystems as they are. *)
Context (Hparse : forall secs n w, up n w -> runs (parser_run secs) (fun _ => up n) w) (Hloop : forall n w, up n w -> runs event_dispatch (fun _ => up n) w).

(** C38. [main] of redsocks, against what its subsystems promise: whichever initialisation, option, file or signal fails, it returns, and exactly the subsystems
    that were initialised are shut down, in reverse order. The one exception is a file for the process id that cannot be opened: then
    it returns with a failure while all subsystems are up. A failed initialisation is reported by the exit code. *)
Theorem redsocks_main_ok subsystems opts w :
  promised 0 subsystems -> up 0%nat w ->
  exists code w', main env parser_run event_dispatch subsystems opts w = Done code w' /\ (code = 0 \/ code = 1) /\
    (up 0%nat w' \/
     code = 1 /\ up (length subsystems) w' /\
     exists o f, read_options opts default_settings = inl o /\ pidfile o = Some f /\ pidfile_opens env f = false).
Proof.
  intros Hp Hu. set (Q := fun (code : Z) (w' : W) => (code = 0 \/ code = 1) /\ (up 0%nat w' \/ code = 1 /\ up (length subsystems) w' /\
     exists o f, read_options opts default_settings = inl o /\ pidfile o = Some f /\ pidfile_opens env f = false)).
  enough (H : runs (main env parser_run event_dispatch subsystems opts) Q w) by (destruct (eff_done _ _ _ H) as (c & w' & E & H1); exists c, w'; exact (conj E H1)).
  assert (Hdown : forall error before w, stack_ok before -> up (length before) w -> runs (shutdown error before) Q w).
  { intros error before w1 Hs H1. unfold shutdown. apply eff_bind. eapply eff_mono; [now apply subsystems_fini_ok|]. intros u w2 H2. apply eff_ret.
    unfold Q, EXIT_SUCCESS, EXIT_FAILURE. split; [destruct (error =? 0); auto|now left]. }
  assert (Hout : forall code w, code = 0 \/ code = 1 -> up 0%nat w -> Q code w) by (intros code w1 H1 H2; split; auto).
  unfold main. destruct (read_options opts default_settings) as [o|code] eqn:Eo.
  - unfold EXIT_SUCCESS, EXIT_FAILURE. do 3 (match goal with |- runs (if ?b then _ else _) _ _ => destruct b; [apply eff_ret, Hout; auto|] end).
    apply eff_bind. eapply eff_mono; [apply Hparse, Hu|]. intros e1 w1 H1. destruct (negb (e1 =? 0)); [apply eff_ret, Hout; auto|].
    destruct (conftest o); [apply eff_ret, Hout; auto|]. apply eff_bind. eapply eff_mono; [apply (subsystems_init_ok subsystems []); [exact Hp|done|exact H1]|].
    intros [error before] w2 (H2 & H3 & H4). cbn [fst snd length Nat.add] in *. destruct (Z.eqb_spec error 0) as [->|Hne]; cbn [negb]; [|now apply Hdown].
    specialize (H4 eq_refl). cbn [length Nat.add] in H4. destruct (pidfile o) as [f|] eqn:Ef.
    + destruct (pidfile_opens env f) eqn:Epf; cbn [negb].
      * destruct (negb (add_signals env 0 2)); [now apply Hdown|]. apply eff_bind. eapply eff_mono; [apply Hloop, H3|]. intros u w3 H5. now apply Hdown.
      * apply eff_ret. split; [auto|]. right. split; [done|]. split; [now rewrite <- H4|]. now exists o, f.
    + destruct (negb (add_signals env 0 2)); [now apply Hdown|]. apply eff_bind. eapply eff_mono; [apply Hloop, H3|]. intros u w3 H5. now apply Hdown.
  - apply eff_ret, Hout; [|done]. revert Eo. generalize default_settings. clear. induction opts as [|[c a] opts IH]; intros o E; [done|]. cbn [read_options] in E.
    repeat match type of E with (if ?b then _ else _) = _ => destruct b; [now apply IH in E || (simplify_eq; auto)|] end. simplify_eq. unfold EXIT_SUCCESS, EXIT_FAILURE.
    destruct (_ || _); auto.
Qed.

End Start.

(** ** The DNS responder keeps its promise *)

(** The responders as the configuration leaves them, or as they are after the start. *)
Definition dnstc_up (n : nat) (w : Dnstc.dns_world) : Prop := match n with O => dns_configured w | S _ => dns_inv w end.

Definition dnstc_subsys : app_subsys Dnstc.dns_world unit := AppSubsys (Some Dnstc.dnstc_init) (Some Dnstc.dnstc_fini) (Some tt).

Lemma no_responders_configured w : dns_inv w -> Dnstc.dn_instances w = [] -> dns_configured w.
Proof.
  intros Hi El. destruct (no_responders w Hi El) as [EI EF]. split; try apply Hi; [|exact EF]. intros i x. now rewrite EI, lookup_empty.
Qed.

#[export] Instance dnstc_subsystem `{BaseConfig} : Subsystem dnstc_up 0 dnstc_subsys.
Proof.
  split; cbn [dnstc_up dnstc_subsys init fini].
  - intros w Hw. eapply eff_mono; [now apply dns_init_ok|]. intros error w' [Hi [[-> El]|[-> _]]]; [now apply no_responders_configured|exact Hi].
  - intros w Hw. unfold Dnstc.dnstc_fini. apply eff_bind, eff_get. apply dns_fini_ok; [exact Hw|done|]. intros w' Hi El. now apply no_responders_configured.
Qed.

Definition demo_env : environment := Env true (fun _ => true) true (fun _ => true) (fun _ => 0).

(** [redsocks -p pid] with the DNS responder, from start to shut-down. *)
Lemma redsocks_main_ok_witness :
  exists code w', main demo_env (fun _ => mret 0) (mret tt) [dnstc_subsys] [(112, B# "pid")] dns_demo_start = Done code w' /\ dns_configured w'.
Proof.
  pose proof dns_demo_base as BC.
  destruct (@redsocks_main_ok Dnstc.dns_world unit demo_env (fun _ => mret 0) (mret tt) dnstc_up) with (subsystems := [dnstc_subsys]) (opts := [(112, B# "pid")]) (w := dns_demo_start)
    as (code & w' & E & _ & [H|(_ & _ & o & f & _ & _ & Hf)]).
  - intros secs n w H. exact H.
  - intros n w H. exact H.
  - intros [|i] x Hx; [|discriminate Hx]. injection Hx as <-. exact dnstc_subsystem.
  - exact dns_demo_configured.
  - exists code, w'. split; [exact E|exact H].
  - discriminate Hf.
Defined.

(** When a signal cannot be added, everything is shut down but the exit code is that of success. *)
Lemma signal_failure_succeeds :
  main (Env true (fun _ => true) true (fun _ => true) (fun _ => -1)) (fun _ : list unit => mret 0) (mret tt) [] [] tt = Done 0 tt.
Proof. reflexivity. Qed.

(** An unknown option, for which [getopt] returns a question mark, ends the program with success. *)
Lemma unknown_option_succeeds (subsystems : list (app_subsys unit unit)) env run dispatch opts : main env run dispatch subsystems ((63, []) :: opts) tt = Done 0 tt.
Proof. reflexivity. Qed.
